(* ===== verification/_CoqProject ===== *)
-Q . S2P
Prelude.v
GoLib.v
Base64.v
JwtModel.v
Store.v
Core.v
Ledger.v
Execution.v
Keyring.v
Delegation.v
Attestation.v
DPoP.v
Revocation.v
Exchange.v
ExchangeSpec.v
Workflow.v
Mcp.v
McpMiddleware.v
Interop.v
Toolcall.v
Adapters.v
ToolMiddleware.v
Conformance.v
Receiver.v
Transmitter.v
SignalFlow.v
FedTypes.v
Relay.v
Inbound.v
FedSync.v
FedGateway.v
Jwks.v
FedResolver.v
Soul.v
SoulKeeper.v
Operator.v
OperatorCtl.v
Rotation.v
IdCommon.v
IdK8s.v
IdOidc.v
IdOAuth2.v
IdSpiffe.v
IdGcp.v
IdAzure.v
IdApiKey.v
IdMtls.v
IdSaml.v
IdKerberos.v
IdAws.v
Registry.v
Boot.v
ApiCommon.v
IdAgent.v
Secrets.v
Api.v
RateLimit.v
EventStream.v
Server.v
Sidecar.v
Renewer.v
AgentStart.v
Configuration.v
PolicyEngine.v
AuditLog.v
SyncBus.v
TfFabric.v
TfApi.v
McpClient.v
AgentPlugin.v
ExchangeErrors.v
RequestId.v
Siggen.v
Metrics.v
Cli.v
Unit.v
SoulDocs.v
