(* ===== verification/Prelude.v ===== *)
(** * Starfly: a verification library for its identity and tool-call core

    Starfly is a Go program that exchanges workload credentials for short-lived WIMSE tokens and
    enforces those tokens on tool calls. The parts modelled here, and how they interact:

    - the exchange engine ([pkg/exchange/engine.go]) validates a credential through an identity
      provider, asks the revocation index and the policy engine, checks an actor token
      ([delegation.go]), a DPoP proof ([dpop.go]), an execution scope with its nonce
      ([execution.go]) and an attestation header ([attestation.go]), fetches secrets, mints a
      JWT with the active key of the keyring ([keyring.go]), and reports to the auditor, the sync
      bus and its callbacks;
    - the revocation index ([pkg/signals/revocation.go]) is shared by the engine, the verifiers
      and the signal receiver;
    - the shared-signals transmitter ([pkg/signals/transmitter.go]) signs security events as
      tokens and posts them to its streams; the receiver ([receiver.go]) of another fabric
      verifies and deduplicates them, asks its policy and revokes the subject;
    - the MCP middleware ([pkg/mcp]) verifies the tokens on tool calls against a tool registry,
      calls the handler, and records the call: an execution context token (ECT), a task in the
      workflow tracker ([workflow.go]) and an entry in the hash-chained ledger
      ([pkg/audit/ledger.go]);
    - the universal verifier ([pkg/toolcall]) does the same for several protocols, behind a
      middleware that picks the adapter of a request; a conformance suite tests adapters;
    - the MCP client ([pkg/mcp/client.go]) asks the exchange for a token per tool and calls the
      tool with it;
    - the policy engine ([pkg/policy]) verifies, loads and evaluates the bundle the exchange engine
      asks; the signal bus ([pkg/sync]) carries signals between the units of a fabric;
    - the configuration ([pkg/core/config.go]) is layered when a unit starts and picks the lock
      ([pkg/lock]) that encrypts the store ([pkg/store]); a command migrates a store from one lock
      to another; audit events go to a plain or a signing logger ([pkg/audit]);
    - the identity providers ([pkg/identity]) behind the registry decide which credential is
      whose; the JWT based ones take their keys from the JWKS cache ([pkg/jwks]), and the unit
      wires them to the engine at start-up ([cmd/starfly/main.go]);
    - federation ([pkg/federation]) relays revocations from the sync bus to peers, takes signals
      from peers in, synchronises the indexes and resolves the keys of peers;
    - the soul ([pkg/soul]) is the declared state of a fabric: a manifest, the difference of two
      manifests, snapshots in an anchor and recovery from them; the operator ([pkg/operator])
      converges a running fabric to a validated resource with the same difference;
    - the lifecycle workflows ([pkg/lifecycle]) rotate keys and scan for compliance through
      activities that ask the engine for tokens and drive the keyring;
    - the HTTP API ([pkg/api]) routes requests to the engine, the registries, the verifier and the
      signals over two listeners, limits their rate and streams events; secrets ([pkg/secrets])
      are fetched from sources and encrypted to keys the workloads register over it;
    - the agent side-car ([pkg/agent]) attests its platform, exchanges the credential at the token
      endpoint, writes the token to a file and renews it;
    - the Terraform provider ([terraform-provider]) manages the operator's resource through the
      Kubernetes API, and tools, streams, agent identities and keys through the HTTP API;
    - a unit exposes metrics ([pkg/metrics]) that the command line ([pkg/cli], [cmd/starfly]) reads
      back; it also watches the event stream; a generator ([cmd/starfly-siggen]) sends signals to a
      unit for tests.

    ** Files

    - [Prelude]: results, the state-and-error monad of the handlers, [respects] (a relation every
      branch of a handler keeps), inversion tactics and the hint database [go].
    - [GoLib]: what the sources use of Go: time, strings, dynamic JSON values, map iteration in
      an unspecified order (class [RangeOrder]), and the JWT library as an interface ([JwtLib])
      with the documented laws the code relies on ([JwtLaws]).
    - [JwtModel]: a concrete JWT library that satisfies these laws; witnesses run on it.
    - [Core]: [pkg/core/interfaces.go]; the class [RevocationIndex] is the promise of the
      revocation index to its clients.
    - [Ledger], [Execution], [Keyring], [Delegation], [Attestation], [DPoP], [Revocation]: one
      component each, in a module of the same name ([Attest] for attestation). [Revocation]
      ends with the instance that discharges the class of [Core].
    - [Exchange]: the engine as a handler over its nonce tracker, the readings of the clock and
      the trace of its effects; [ExchangeSpec] its theorems.
    - [Workflow], [Mcp], [McpMiddleware], [Toolcall], [Adapters], [ToolMiddleware], [Conformance]:
      the tool-call side; the class [LawfulAdapter] is what the middleware relies on, the three
      adapters are instances.
    - [Interop]: the engine and the MCP verifier together. [McpClient]: the client against the
      token endpoint of [Api] and the engine.
    - [Receiver], [Transmitter]: the shared signals, as handlers over their own state and trace;
      the receiver is written against the class [RevocationIndex]. A transmission only starts
      deliveries; the body of one, which may fail, is a definition of its own. [SignalFlow]:
      transmitter, receiver and exchange together.

    - [FedTypes], [Relay], [Inbound], [FedSync], [FedGateway], [FedResolver]: federation. The
      relay is a function and a step relation of concurrent deliveries; [FedGateway] is the bus
      bridge over relay, inbound handler and syncer. [FedSync] uses the index through a class, which
      the in-memory index implements.
    - [Jwks]: the key cache, over a parameter that serves documents.
    - [Soul], [SoulKeeper], [Operator], [OperatorCtl]: manifests and convergence, snapshots and
      recovery, the execution of a plan on the in-process fabric, validation and reconciliation.
    - [Rotation]: the activities and the two workflows, under a schedule of failed and lost
      attempts.
    - [IdCommon], [IdK8s], [IdOidc], [IdOAuth2], [IdSpiffe], [IdGcp], [IdAzure], [IdApiKey],
      [IdMtls], [IdSaml], [IdKerberos], [IdAws]: one identity provider each; [Registry]: dispatch
      and what holds of all of them; [Boot]: the registry over the shared cache, the engine over
      the registry and the activities over the engine; [IdAgent]: agent identities, issued and
      read back by the engine.
    - [ApiCommon], [Api], [Server], [RateLimit], [EventStream]: the answers and the bearer check
      the handlers share; the token, tool, verification and signal endpoints; routing, client
      certificates and the certificate reloader; the limiter over a token bucket given as a class
      with laws; the broadcaster under every interleaving of its broadcasts and subscribers.
    - [Secrets]: sources, registry, encryption and key registration, with the engine.
    - [Sidecar], [Renewer]: attestors and bundles; the exchange client against the token endpoint
      of [Api], the token file and the renewal loop.
    - [Base64]: the byte encodings of Go's library, with their round trips. [Store]: lockers (class
      [LockerLaws]), the store over them and over the Badger library (class [BadgerLaws], with an
      instance), and the migration. [Configuration]: layers, validation,
      start-up and the migration command. [AuditLog]: the loggers over the buffered writer.
    - [PolicyEngine]: the bundle as two walks over a directory, evaluation, and the exchange on top.
    - [SyncBus]: subjects and subscriptions; publications, deliveries, redeliveries and messages the
      server drops are a step relation over the server, whose matching of subjects is the class [NatsLaws].
    - [TfFabric], [TfApi]: the Terraform provider; the dynamic client of Kubernetes is the class
      [Dynamic], without laws, and the tool resource runs against the handlers of [Api].
    - [AgentPlugin]: the client of agent identity plug-ins; its circuit breaker is three critical
      sections and a step relation of the calls that interleave at them. [RequestId]: request
      identifiers and the captured status. [ExchangeErrors]: the structured errors.
    - [Siggen]: the signal generator over a world of clock and network, and against the signal
      endpoint of [Api]. [Metrics]: the collectors, their registration and their uses. [Cli]: the
      readers of the metrics text over IEEE 754 doubles, the status texts, and the live feed on top
      of [EventStream].
    - [AgentStart]: the construction and start of the agent, and what its metrics count, over the
      loop of [Renewer]. [Unit]: a unit from its command line to its end, as handlers over a trace
      of what is acquired and released. [SoulDocs]: the documents of a soul and the commands that
      print and compare manifests, over the files of [SoulKeeper].

    ** Conventions

    A Go function [(T, error)] is a function into [result E T], with one constructor of [E] per
    returned error. A method that runs under a mutex is one step. [time.Now()] is an argument: a
    reading per call, or a clock [nat -> Time] indexed by the number of readings. Instants and
    durations are nanoseconds in [Z]; [Sub] saturates and [uint64] counters wrap as in Go. Map
    iteration is a permutation of the entries, and theorems hold for each. Collaborators that are
    Go interfaces (identity provider, policy engine, sync bus, secret source, key store) are
    functions; libraries outside the repository (JWT, JOSE) and the encodings (JSON, SHA-256,
    UUID, URL parsing) are class members or section variables, and what a theorem needs of them
    is one of its hypotheses.
    Audit events and callbacks are a trace; spans, log lines and measured durations are left out.

    The ancestor traversal of the workflow tracker has the source's own limit
    [MaxAncestorTraversal] as fuel, and running out is the source's behaviour. The renewal loop of
    the agent is meant to run for ever: [Run] takes the number of iterations, its theorems
    hold for every number, and [renewal_ends] and [agent_returns] show how many are enough for it to return when
    every later select takes the branch of the ended context. Everything else is structural recursion, so every definition is total and executable.

    ** What the theorems show

    - Exchange: a token is only issued when every gate passed, with the right subject, audience,
      key and lifetime; revoked subjects are denied; nonces are not replayed across exchanges;
      the audit trail records exactly the issued tokens; assurance is capped in production; DPoP
      and execution-scope claims round trip to the resource server and to the MCP verifier; a
      delegated exchange refines one hop of the abstract delegation chain.
    - Delegation chains: bounded depth, narrowing, append-only principals.
    - Ledger: reachable ledgers verify, tampering is detected except for the last entry.
    - Revocation: export and import round trip, imports never un-revoke, cleanup is invisible,
      hashes detect divergence.
    - Keyring: the active key is always present and served; rotation keeps tokens verifiable.
    - Workflow: named workflows are DAGs; the global scope is acyclic while the traversal limit
      is not reached.
    - MCP: soundness of the verification pipeline; denied calls do not reach the handler; calls
      are accounted for; the universal verifier agrees with the MCP one.
    - Signals: events survive signing, delivery and parsing; only authentic events have effects;
      a JTI is taken in once per TTL; the index changes only when the policy orders it; tokens are
      delivered once per push stream and only to secure endpoints; a revocation that arrives from
      one fabric denies the subject at the exchange of another one.
    - Federation: the relay sends a signal to the peers that are not down and not twice within its
      window; a signal changes the index only for a configured peer with the right certificate;
      a synchronisation adopts what the peer has revoked.
    - JWKS: every key handed out comes from a document of its issuer under the requested
      identifier; the cache is bounded, whatever it is served.
    - Identity: per provider, what an accepted credential proves and the outcome of every branch;
      over the registry, identities of different kinds or domains never coincide, and a token is
      issued only for the principal that a credential its domain's keys vouch for names.
    - Soul and operator: plan and difference agree; snapshots recover; validation accepts exactly
      the well-formed resources; reconciliation makes the running domains the declared ones.
    - Lifecycle: rotation terminates, loses no key whatever fails, and has the stated outcome;
      against the unit's own engine it is always refused.
    - API: with TLS a protected endpoint is reached only with a client certificate; registries
      change only for authenticated callers; signals outside dev mode are signed; subscribers see
      events in order; a token issued over HTTP is never bound to a DPoP key; refused requests
      take tokens from everyone.
    - Secrets: what the policy grants reaches the workload that registered the key, and only
      readable with it, when the key is one the encryption supports.
    - Agent: the token it serves is the engine's for its own credential and attestation; renewal
      comes before expiry; tokens obtained while retrying are lost.
    - Tool-call middleware: a handler is reached only by verified calls and reads what was verified;
      the adapters that keep the contract pass the conformance suite; a tool is only
      sent a token made for it, also when it redirects.
    - Policy: with a signing key, tokens are issued only on the word of signed modules over signed
      data; without a loaded bundle none is issued.
    - Bus: a flashed signal is pending at, handled by or dropped for every subscription of its trust
      domain, whatever is redelivered in between; a unit's own signals are never handled.
    - Store and configuration: the encrypted store implements a map of versioned entries; a unit
      started after a migration reads the same entries; a started unit's configuration is valid
      and layered as documented.
    - Audit log: what is written is the sequence of acknowledged lines, whatever the writer below
      does; a signed line reads back and verifies, and no other event verifies in its place.
    - Terraform: the state kept describes the resource the cluster holds.
    - Plug-ins: the breaker bounds the calls a failing plug-in gets, refuses none without cause,
      and an identity is the plug-in's own answer; the log and the client see the same request
      identifier; an error can be read back from its text and its JSON form.
    - Observability: a unit's collectors register without a panic and every use gives the labels
      declared; the status of the signal gateway reads back what was exposed, in order; the watch
      shows exactly the wanted events; a revocation sent by the generator denies its subject.
    - Start and end: [run] ends with the first error of the steps it cannot do without; a failed
      start never serves; a unit that stops releases what it holds, once and in a fixed order; the
      agent's metrics account for its exchanges; archived manifests can be compared.
    - Several theorems state where the code falls short of its comments (the unprotected last
      ledger entry, the fixed nonce window, regained capabilities, shadowed imports, cycles
      past the limit, the lost principal and response header, the ignored DPoP binding, the
      protocol gate after an update, the circuit breaker that never closes, the cache asked for
      the wrong URL, the rotation its own engine refuses, the DPoP header nobody reads, the rate
      limiter's debt, the certificate reload race, the discarded token of a retry, the window
      between verifying and loading a bundle, the migration that is not atomic and ignores the
      region, the buffered audit events, the trust domains that overhear each other, the Terraform
      states that differ from their plans).

    ** Not modelled

    The Rego policies themselves (evaluated by a third-party library), connecting to and shutting
    down the NATS server, the Kubernetes wiring of the operator, the connection of the lifecycle
    worker, the schemas of the Terraform resources, the flags of the commands and their indented
    JSON (no behaviour of the program depends on them). *)
From Stdlib Require Import ZArith QArith Lia Ascii.
From stdpp Require Import base gmap strings list fin_maps sorting.

#[global] Set Default Proof Using "Type".
#[global] Set Warnings "-clear-no-such-hyp".
#[local] Open Scope Z_scope.

(** * Results

    Go functions of type [(T, error)] are functions into [result E T]. *)

Inductive result (E A : Type) : Type :=
| Ok (a : A)
| Err (e : E).
Arguments Ok {E A} a.
Arguments Err {E A} e.

Declare Scope go_scope.
Delimit Scope go_scope with go.
Open Scope go_scope.

Definition rbind {E A B : Type} (m : result E A) (k : A -> result E B) : result E B :=
  match m with
  | Ok a => k a
  | Err e => Err e
  end.

Notation "'let?' x := m 'in' k" := (rbind m (fun x => k))
  (at level 10, x name, m at level 200, k at level 200) : go_scope.

(** Early return of an error when a guard holds: [if c { return err }]. *)
Definition reject {E : Type} (c : bool) (e : E) : result E unit :=
  if c then Err e else Ok tt.

Definition is_ok {E A : Type} (r : result E A) : bool :=
  match r with Ok _ => true | Err _ => false end.

Lemma rbind_ok {E A B} (m : result E A) (k : A -> result E B) b :
  rbind m k = Ok b <-> exists a, m = Ok a /\ k a = Ok b.
Proof. destruct m; cbn; naive_solver. Qed.

Lemma rbind_err {E A B} (m : result E A) (k : A -> result E B) e :
  rbind m k = Err e <-> m = Err e \/ exists a, m = Ok a /\ k a = Err e.
Proof. destruct m; cbn; naive_solver. Qed.

Lemma rbind_assoc {E A B C} (m : result E A) (f : A -> result E B) (g : B -> result E C) :
  rbind (rbind m f) g = rbind m (fun a => rbind (f a) g).
Proof. by destruct m. Qed.

Lemma reject_ok {E} c (e : E) u : reject c e = Ok u <-> c = false.
Proof. destruct u, c; cbn; naive_solver. Qed.

Lemma reject_err {E} c (e e' : E) : reject c e = Err e' <-> c = true /\ e = e'.
Proof. destruct c; cbn; naive_solver. Qed.

(** * Stateful code

    A handler that changes state and may return an error early is a function
    [S -> S * result E A]: the state (with its trace of effects) survives an error. *)

Definition M (S E A : Type) : Type := S -> S * result E A.

Definition st_ret {S E A} (a : A) : M S E A := fun s => (s, Ok a).
Definition st_fail {S E A} (e : E) : M S E A := fun s => (s, Err e).
Definition st_bind {S E A B} (m : M S E A) (k : A -> M S E B) : M S E B :=
  fun s => match m s with
           | (s', Ok a) => k a s'
           | (s', Err e) => (s', Err e)
           end.
Definition st_lift {S E A} (r : result E A) : M S E A := fun s => (s, r).

Notation "'do' x <- m ';;' k" := (st_bind m (fun x => k))
  (at level 10, x name, m at level 99, k at level 200) : go_scope.

Lemma st_bind_ok {S E A B} (m : M S E A) (k : A -> M S E B) s s'' b :
  st_bind m k s = (s'', Ok b) <-> exists s' a, m s = (s', Ok a) /\ k a s' = (s'', Ok b).
Proof. unfold st_bind. destruct (m s) as [s1 [a|e]]; naive_solver. Qed.

Lemma st_bind_err {S E A B} (m : M S E A) (k : A -> M S E B) s s'' e :
  st_bind m k s = (s'', Err e) <->
  m s = (s'', Err e) \/ exists s' a, m s = (s', Ok a) /\ k a s' = (s'', Err e).
Proof. unfold st_bind. destruct (m s) as [s1 [a|e1]]; naive_solver. Qed.

(** A relation between the state before and after that every branch of a handler respects. *)
Definition respects {S E A} (R : S -> S -> Prop) (m : M S E A) : Prop :=
  forall s, R s (fst (m s)).

Lemma respects_ret {S E A} (R : S -> S -> Prop) `{!Reflexive R} (a : A) :
  respects (E:=E) R (st_ret a).
Proof. intros s. cbn. reflexivity. Qed.

Lemma respects_fail {S E A} (R : S -> S -> Prop) `{!Reflexive R} (e : E) :
  respects (A:=A) R (st_fail e).
Proof. intros s. cbn. reflexivity. Qed.

Lemma respects_lift {S E A} (R : S -> S -> Prop) `{!Reflexive R} (r : result E A) :
  respects R (st_lift r).
Proof. intros s. cbn. reflexivity. Qed.

Lemma respects_bind {S E A B} (R : S -> S -> Prop) `{!Transitive R}
    (m : M S E A) (k : A -> M S E B) :
  respects R m -> (forall a, respects R (k a)) -> respects R (st_bind m k).
Proof.
  intros Hm Hk s. unfold st_bind. specialize (Hm s).
  destruct (m s) as [s1 [a|e]]; cbn in *; [|done].
  etrans; [exact Hm | apply Hk].
Qed.

Create HintDb go discriminated.
#[export] Hint Resolve respects_ret respects_fail respects_lift respects_bind : go.

(** Case analysis on the [result] and handler equations in the context. *)
Ltac inv_step :=
  match goal with
  | H : rbind _ _ = Ok _ |- _ => apply rbind_ok in H as (? & ? & ?)
  | H : reject _ _ = Ok _ |- _ => apply reject_ok in H
  | H : reject _ _ = Err _ |- _ => apply reject_err in H as [? ?]
  | H : st_bind _ _ _ = (_, Ok _) |- _ => apply st_bind_ok in H as (? & ? & ? & ?)
  | H : st_ret _ _ = (_, _) |- _ => unfold st_ret in H; simplify_eq
  | H : st_lift _ _ = (_, _) |- _ => unfold st_lift in H; simplify_eq
  | H : st_fail _ _ = (_, _) |- _ => unfold st_fail in H; simplify_eq
  | H : (_, Ok _) = (_, Ok _) |- _ => simplify_eq
  | H : (_, Err _) = (_, Ok _) |- _ => discriminate H
  | H : Ok _ = Ok _ |- _ => simplify_eq
  | H : Err _ = Ok _ |- _ => discriminate H
  | H : negb _ = false |- _ => apply negb_false_iff in H
  | H : negb _ = true |- _ => apply negb_true_iff in H
  end.
Ltac inv_ok := repeat inv_step.

(** Splits the [if] or [match] a hypothesis is stuck on. *)
Ltac case_in H :=
  match type of H with
  | context [match ?x with _ => _ end] => destruct x eqn:?
  end.
