(* ===== verification/GoLib.v ===== *)
(** What the sources use of Go and its standard library (time, strings, dynamic JSON
    values, map iteration, sorting), and the JWT library as an interface. *)
From Stdlib Require Import ZArith QArith Lia Ascii.
From stdpp Require Import base gmap strings list fin_maps sorting pretty.
From S2P Require Import Prelude.

#[local] Open Scope Z_scope.

(** * Machine integers and time

    A [uint64] is a [Z] in [0, 2^64); the wrap-around is written where the code adds.
    A [time.Time] is the number of nanoseconds since Go's zero time, so [IsZero] is [t = 0];
    a [time.Duration] is a number of nanoseconds. *)

Definition two64 : Z := 18446744073709551616.
Definition u64 (z : Z) : Z := z mod two64.

Abbreviation Time := Z (only parsing).
Abbreviation Duration := Z (only parsing).

Definition Second : Duration := 1000000000.
Definition Minute : Duration := 60 * Second.
Definition Hour : Duration := 60 * Minute.

Definition minDuration : Z := - 9223372036854775808.
Definition maxDuration : Z := 9223372036854775807.

Definition IsZero (t : Time) : bool := t =? 0.
Definition After (t u : Time) : bool := u <? t.
Definition Before (t u : Time) : bool := t <? u.

(** [t.Sub(u)] saturates at the bounds of [int64]. *)
Definition Sub (t u : Time) : Duration := Z.max minDuration (Z.min maxDuration (t - u)).

(** [time.Unix()] of an instant: seconds since 1970, 62135596800 s after the zero time. *)
Definition Unix (t : Time) : Z := t / Second - 62135596800.

(** [t.UnixNano()] *)
Definition UnixNano (t : Time) : Z := t - 62135596800 * Second.

Lemma Sub_le_small t u d : d < maxDuration -> minDuration <= d ->
  (Sub t u <=? d) = (t - u <=? d).
Proof. unfold Sub, maxDuration, minDuration. intros. destruct (Z.leb_spec (t - u) d); lia. Qed.

Lemma u64_small z : 0 <= z < two64 -> u64 z = z.
Proof. intros. by apply Z.mod_small. Qed.

(** * Strings: Go strings are byte strings. *)

(** [strings.HasPrefix(s, p)] *)
Definition HasPrefix (s p : string) : bool := String.prefix p s.

Fixpoint str_drop (n : nat) (s : string) : string :=
  match n, s with
  | O, _ => s
  | S n', String _ s' => str_drop n' s'
  | S _, EmptyString => EmptyString
  end.

(** [strings.TrimPrefix(s, p)] *)
Definition TrimPrefix (s p : string) : string :=
  if HasPrefix s p then str_drop (String.length p) s else s.

(** Splits at the first occurrence of a byte. *)
Fixpoint cut_at (c : ascii) (s : string) : option (string * string) :=
  match s with
  | EmptyString => None
  | String a s' =>
      if Ascii.eqb a c then Some (EmptyString, s')
      else match cut_at c s' with
           | Some (x, y) => Some (String a x, y)
           | None => None
           end
  end.

(** [strings.SplitN(s, sep, 2)] for a one-byte separator. *)
Definition SplitN2 (s : string) (c : ascii) : list string :=
  match cut_at c s with
  | Some (x, y) => [x; y]
  | None => [s]
  end.

(** [strings.Split(s, sep)] for a one-byte separator. *)
Fixpoint Split (s : string) (c : ascii) : list string :=
  match s with
  | EmptyString => [EmptyString]
  | String a s' =>
      if Ascii.eqb a c then EmptyString :: Split s' c
      else match Split s' c with
           | x :: r => String a x :: r
           | [] => [String a EmptyString]
           end
  end.

(** [strings.Count(s, sub)] for a non-empty [sub]: occurrences do not overlap. *)
Fixpoint count_from (skip : nat) (s sub : string) : nat :=
  match s with
  | EmptyString => O
  | String _ s' =>
      match skip with
      | S k => count_from k s' sub
      | O => if String.prefix sub s
             then S (count_from (String.length sub - 1) s' sub)
             else count_from O s' sub
      end
  end.
Definition Count (s sub : string) : nat := count_from O s sub.

Definition ascii_lower (a : ascii) : ascii :=
  let n := nat_of_ascii a in
  if (65 <=? n)%nat && (n <=? 90)%nat then ascii_of_nat (n + 32) else a.

(** [strings.EqualFold] on strings whose folding is the ASCII one. *)
Fixpoint EqualFold (s t : string) : bool :=
  match s, t with
  | EmptyString, EmptyString => true
  | String a s', String b t' => Ascii.eqb (ascii_lower a) (ascii_lower b) && EqualFold s' t'
  | _, _ => false
  end.

(** [strings.TrimRight(s, "/")] *)
Fixpoint trimSlashes (s : string) : string :=
  match s with
  | EmptyString => EmptyString
  | String a s' => let t := trimSlashes s' in if Ascii.eqb a "/" && (t =? "")%string then "" else String a t
  end.

(** [strings.Join(xs, sep)] *)
Definition Join (xs : list string) (sep : string) : string := String.concat sep xs.

(** [strings.HasSuffix] and [strings.TrimSuffix] *)
Fixpoint str_take (n : nat) (s : string) : string :=
  match n, s with
  | S n', String a s' => String a (str_take n' s')
  | _, _ => EmptyString
  end.
Definition HasSuffix (s p : string) : bool :=
  (String.length p <=? String.length s)%nat && String.eqb (str_drop (String.length s - String.length p) s) p.
Definition TrimSuffix (s p : string) : string :=
  if HasSuffix s p then str_take (String.length s - String.length p) s else s.

(** [strings.Contains(s, sub)] *)
Fixpoint Contains (s sub : string) : bool :=
  String.prefix sub s || match s with EmptyString => false | String _ s' => Contains s' sub end.

(** [strings.Replace(s, old, new, 1)] for a non-empty [old] *)
Fixpoint Replace1 (s old new : string) : string :=
  if String.prefix old s then new +:+ str_drop (String.length old) s
  else match s with EmptyString => EmptyString | String a s' => String a (Replace1 s' old new) end.

(** [strings.SplitN(s, sep, n)] for a one-byte separator and [n > 0] *)
Fixpoint SplitN (n : nat) (s : string) (c : ascii) : list string :=
  match n with
  | O => []
  | 1%nat => [s]
  | S n' => match cut_at c s with
            | Some (x, y) => x :: SplitN n' y c
            | None => [s]
            end
  end.

(** [strings.ToLower] on strings whose lower case is the ASCII one *)
Fixpoint ToLower (s : string) : string :=
  match s with EmptyString => EmptyString | String a s' => String (ascii_lower a) (ToLower s') end.

(** [strings.TrimSpace] for ASCII white space *)
Definition is_space (a : ascii) : bool :=
  let n := nat_of_ascii a in (n =? 32)%nat || ((9 <=? n)%nat && (n <=? 13)%nat).
Fixpoint TrimLeftSpace (s : string) : string :=
  match s with String a s' => if is_space a then TrimLeftSpace s' else s | EmptyString => s end.
Fixpoint TrimRightSpace (s : string) : string :=
  match s with
  | EmptyString => EmptyString
  | String a s' => match TrimRightSpace s' with
                   | EmptyString => if is_space a then EmptyString else String a EmptyString
                   | t => String a t
                   end
  end.
Definition TrimSpace (s : string) : string := TrimRightSpace (TrimLeftSpace s).

Lemma str_app_assoc (a b c : string) : a +:+ (b +:+ c) = (a +:+ b) +:+ c.
Proof. induction a as [|x a IH]; [done|]. exact (f_equal (String x) IH). Qed.

Lemma str_drop_app p s : str_drop (String.length p) (p +:+ s) = s.
Proof. by induction p as [|a p IH]; [destruct s|]. Qed.
Lemma str_take_drop n s : str_take n s +:+ str_drop n s = s.
Proof.
  revert n. induction s as [|a s IH]; intros [|n]; try done. exact (f_equal (String a) (IH n)).
Qed.
Lemma length_str_drop n s : String.length (str_drop n s) = (String.length s - n)%nat.
Proof. revert n. induction s as [|a s IH]; intros [|n]; try done. apply (IH n). Qed.
Lemma length_str_take n s : String.length (str_take n s) = Nat.min n (String.length s).
Proof. revert n. induction s as [|a s IH]; intros [|n]; try done. exact (f_equal Datatypes.S (IH n)). Qed.
Lemma str_app_nil_r s : s +:+ EmptyString = s.
Proof. induction s as [|a s IH]; [done|]. exact (f_equal (String a) IH). Qed.
Lemma prefix_app p s : String.prefix p (p +:+ s) = true.
Proof.
  induction p as [|a p IH]; [by destruct s|]. simpl. by destruct (Ascii.ascii_dec a a).
Qed.

Lemma cut_at_split c s a b : cut_at c s = Some (a, b) -> s = a +:+ String c b.
Proof.
  revert a. induction s as [|x s IH]; intros a; [done|]. cbn. destruct (Ascii.eqb_spec x c) as [->|].
  - by intros [= <- <-].
  - destruct (cut_at c s) as [[a' b']|]; [|done]. intros [= <- <-]. by rewrite (IH a' eq_refl).
Qed.

Lemma cut_at_app name rest : cut_at "/" name = None -> cut_at "/" (name +:+ String "/" rest) = Some (name, rest).
Proof.
  induction name as [|a name IH]; [done|].
  change (String a name +:+ String "/" rest) with (String a (name +:+ String "/" rest)).
  cbn [cut_at]. destruct (Ascii.eqb a "/"); [done|].
  destruct (cut_at "/" name) as [[? ?]|]; [done|]. intros _. by rewrite IH.
Qed.

Lemma length_append s t : String.length (s +:+ t) = (String.length s + String.length t)%nat.
Proof. induction s as [|c s IH]; [done|]. exact (f_equal Datatypes.S IH). Qed.

Definition str_nonempty (s : string) : bool := negb (String.eqb s EmptyString).

(** A list of strings contains a string: the membership loops of the sources. *)
Definition str_mem (s : string) (l : list string) : bool := existsb (String.eqb s) l.

Lemma str_mem_true s l : str_mem s l = true <-> s ∈ l.
Proof.
  unfold str_mem. rewrite existsb_exists. setoid_rewrite <- list_elem_of_In.
  split; [intros (x & ? & ->%String.eqb_eq) | intros ?; exists s; rewrite String.eqb_refl]; done.
Qed.

Lemma str_nonempty_true s : str_nonempty s = true <-> s <> EmptyString.
Proof. unfold str_nonempty. rewrite negb_true_iff. apply String.eqb_neq. Qed.

Lemma str_nonempty_false s : str_nonempty s = false <-> s = EmptyString.
Proof. unfold str_nonempty. rewrite negb_false_iff. apply String.eqb_eq. Qed.

(** * Byte-wise lexicographic order of strings, as [sort.Strings] uses it. *)

Definition str_le (s t : string) : Prop := String.leb s t = true.
#[global] Instance str_le_dec s t : Decision (str_le s t).
Proof. unfold str_le. apply _. Defined.

Lemma string_compare_trans s t u :
  String.compare s t = Lt -> String.compare t u = Lt -> String.compare s u = Lt.
Proof.
  revert t u. induction s as [|a s IH]; intros [|b t] [|c u]; cbn; try done.
  unfold Ascii.compare.
  destruct (N.compare_spec (N_of_ascii a) (N_of_ascii b)) as [E1|L1|L1]; try done;
  destruct (N.compare_spec (N_of_ascii b) (N_of_ascii c)) as [E2|L2|L2]; try done; intros H1 H2;
  destruct (N.compare_spec (N_of_ascii a) (N_of_ascii c)) as [E3|L3|L3]; try done; try lia; eauto.
Qed.

#[global] Instance str_le_trans : Transitive str_le.
Proof.
  intros s t u. unfold str_le, String.leb.
  destruct (String.compare s t) eqn:E1; [apply String.compare_eq_iff in E1 as ->; done| |done].
  destruct (String.compare t u) eqn:E2; [apply String.compare_eq_iff in E2 as ->| |done];
    intros _ _; [by rewrite E1|].
  by rewrite (string_compare_trans _ _ _ E1 E2).
Qed.
#[global] Instance str_le_total : Total str_le.
Proof. intros s t. apply String.leb_total. Qed.
#[global] Instance str_le_antisym : AntiSymm eq str_le.
Proof. intros s t. apply String.leb_antisym. Qed.

(** [sort.Strings] *)
Definition sort_Strings (l : list string) : list string := merge_sort str_le l.

(** * Dynamic values: Go's [interface{}] holding decoded JSON.

    Numbers are the rationals a finite [float64] denotes. *)

Set Warnings "-register-all".
Inductive value : Type :=
| VNull
| VBool (b : bool)
| VNum (q : Q)
| VStr (s : string)
| VArr (l : list value)
| VObj (m : gmap string value).

Definition VInt (n : Z) : value := VNum (inject_Z n).

(** Type assertions [v.(string)], [v.(bool)], [v.([]interface{})], [v.(map[string]interface{})]. *)
Definition as_string (v : value) : option string :=
  match v with VStr s => Some s | _ => None end.
Definition as_bool (v : value) : option bool :=
  match v with VBool b => Some b | _ => None end.
Definition as_array (v : value) : option (list value) :=
  match v with VArr l => Some l | _ => None end.
Definition as_object (v : value) : option (gmap string value) :=
  match v with VObj m => Some m | _ => None end.
Definition as_float (v : value) : option Q :=
  match v with VNum q => Some q | _ => None end.

(** [int(f)] truncates toward zero. *)
Definition trunc (q : Q) : Z := Z.quot (Qnum q) (Zpos (Qden q)).

Lemma trunc_int n : trunc (inject_Z n) = n.
Proof. unfold trunc. cbn. apply Z.quot_1_r. Qed.

(** The loop that keeps the strings of a [[]interface{}]. *)
Definition strings_of (l : list value) : list string := omap as_string l.

(** * Map iteration

    The order in which [for k, v := range m] visits a map is not specified: a function that
    iterates over a map takes the order as an argument, and its theorems hold for every order. *)

Class RangeOrder : Type := {
  range : forall {V : Type}, gmap string V -> list (string * V);
  range_perm : forall {V : Type} (m : gmap string V), Permutation (range m) (map_to_list m);
}.

Definition key_order : RangeOrder :=
  {| range := fun V m => map_to_list m; range_perm := fun V m => Permutation_refl _ |}.

Definition range_keys `{!RangeOrder} {V} (m : gmap string V) : list string := (range m).*1.

Lemma elem_of_range `{!RangeOrder} {V} (m : gmap string V) k v :
  (k, v) ∈ range m <-> m !! k = Some v.
Proof. rewrite range_perm. apply elem_of_map_to_list. Qed.

Lemma elem_of_range_keys `{!RangeOrder} {V} (m : gmap string V) k :
  k ∈ range_keys m <-> is_Some (m !! k).
Proof.
  unfold range_keys. rewrite list_elem_of_fmap. split.
  - intros ([k' v] & -> & Hv%elem_of_range). eauto.
  - intros [v Hv%elem_of_range]. by exists (k, v).
Qed.

Lemma NoDup_range_keys `{!RangeOrder} {V} (m : gmap string V) : NoDup (range_keys m).
Proof. unfold range_keys. rewrite range_perm. apply NoDup_fst_map_to_list. Qed.

Lemma range_nil `{!RangeOrder} {V} (m : gmap string V) : range m = [] <-> m = ∅.
Proof.
  split.
  - intros Hr. apply map_to_list_empty_iff, Permutation_nil. rewrite <- Hr.
    apply range_perm.
  - intros ->. apply Permutation_nil. symmetry. rewrite range_perm. by rewrite map_to_list_empty.
Qed.

(** A loop [for k, v := range m { if cond(v) { delete(m, k) } }] keeps the other entries,
    in whatever order it runs. *)
Definition purge {V} (cond : V -> bool) (m : gmap string V) : gmap string V :=
  filter (fun kv => cond kv.2 = false) m.

Lemma lookup_purge {V} (cond : V -> bool) (m : gmap string V) k v :
  purge cond m !! k = Some v <-> m !! k = Some v /\ cond v = false.
Proof. unfold purge. by rewrite map_lookup_filter_Some. Qed.

Lemma lookup_purge_None {V} (cond : V -> bool) (m : gmap string V) k :
  m !! k = None -> purge cond m !! k = None.
Proof. intros H. apply map_lookup_filter_None. by left. Qed.

Lemma purge_subseteq {V} (cond : V -> bool) (m : gmap string V) : purge cond m ⊆ m.
Proof. apply map_filter_subseteq. Qed.

(** * The JWT library

    [github.com/lestrrat-go/jwx] is not part of the repository: tokens, keys, signing and
    parsing are an interface. [jwt_claim] reads a decoded claim; the typed [token.Get] of the
    sources is [jwt_claim] followed by the type assertion of its destination. *)

Class JwtLib : Type := {
  jwt_token : Type;
  jwk_key : Type;
  jwt_Subject : jwt_token -> option string;
  jwt_Issuer : jwt_token -> option string;
  jwt_Audience : jwt_token -> option (list string);
  jwt_Expiration : jwt_token -> option Time;
  jwt_IssuedAt : jwt_token -> option Time;
  jwt_JwtID : jwt_token -> option string;
  jwt_claim : jwt_token -> string -> option value;
  (** builder: subject, issuer, audience, issued-at, expiration *)
  jwt_Build : string -> string -> list string -> Time -> Time -> option jwt_token;
  jwt_Set : jwt_token -> string -> value -> option jwt_token;
  jwt_Sign : jwk_key -> jwt_token -> option string;
  (** verification with a key set at an instant *)
  jwt_Parse : list jwk_key -> Time -> string -> option jwt_token;
  jwt_ParseInsecure : string -> option jwt_token;
  jwk_PublicKey : jwk_key -> option jwk_key;
  (** [key.KeyID()], [jwk.Import] of a private key, [key.Set] and [set.AddKey] *)
  crypto_Signer : Type;
  jwk_KeyID : jwk_key -> option string;
  jwk_Import : crypto_Signer -> option jwk_key;
  jwk_Set : jwk_key -> string -> string -> option jwk_key;
  jwkset_AddKey : list jwk_key -> jwk_key -> option (list jwk_key);
}.

Section TypedGet.
Context `{!JwtLib}.

Definition get_string (t : jwt_token) (name : string) : option string :=
  jwt_claim t name ≫= as_string.
Definition get_float (t : jwt_token) (name : string) : option Q :=
  jwt_claim t name ≫= as_float.
Definition get_array (t : jwt_token) (name : string) : option (list value) :=
  jwt_claim t name ≫= as_array.
Definition get_object (t : jwt_token) (name : string) : option (gmap string value) :=
  jwt_claim t name ≫= as_object.
End TypedGet.

Definition registered_claims : list string :=
  ["iss"; "sub"; "aud"; "exp"; "nbf"; "iat"; "jti"]%string.

(** What the sources rely on: a private claim that is set is the one read back and changes no
    other claim, and a token signed by a key parses back under a key set that holds its public
    part, while it is valid (times are serialised in whole seconds, so they are not compared
    and the last second is left out). *)
Class JwtLaws `{!JwtLib} : Prop := {
  jwt_claim_set_eq : forall t k v t', k ∉ registered_claims ->
      jwt_Set t k v = Some t' -> jwt_claim t' k = Some v;
  jwt_claim_set_ne : forall t k v t' k', jwt_Set t k v = Some t' -> k <> k' ->
      jwt_claim t' k' = jwt_claim t k';
  jwt_set_std : forall t k v t', k ∉ registered_claims -> jwt_Set t k v = Some t' ->
      jwt_Subject t' = jwt_Subject t /\ jwt_Issuer t' = jwt_Issuer t /\
      jwt_Audience t' = jwt_Audience t /\ jwt_IssuedAt t' = jwt_IssuedAt t /\
      jwt_Expiration t' = jwt_Expiration t;
  jwt_build_std : forall sub iss aud iat exp t, jwt_Build sub iss aud iat exp = Some t ->
      jwt_Subject t = Some sub /\ jwt_Issuer t = Some iss /\ jwt_Audience t = Some aud /\
      jwt_IssuedAt t = Some iat /\ jwt_Expiration t = Some exp /\
      (forall k, k ∉ registered_claims -> jwt_claim t k = None);
  jwt_parse_sign : forall k pk t s ks now iat exp,
      jwt_Sign k t = Some s -> jwk_PublicKey k = Some pk -> pk ∈ ks ->
      jwt_IssuedAt t = Some iat -> jwt_Expiration t = Some exp ->
      iat <= now -> now + Second <= exp ->
      exists t', jwt_Parse ks now s = Some t' /\ jwt_Subject t' = jwt_Subject t /\
        jwt_Issuer t' = jwt_Issuer t /\ jwt_Audience t' = jwt_Audience t /\
        (forall n, n ∉ registered_claims -> jwt_claim t' n = jwt_claim t n);
  jwkset_add : forall ks k ks', jwkset_AddKey ks k = Some ks' -> ks' = ks ++ [k];
}.
