(* ===== verification/Base64.v ===== *)
(** The encodings of bytes of Go's standard library the code uses. Base64 with padding, as
    [base64.StdEncoding] encodes and decodes it: the development locker of [pkg/lock/dev.go] stores
    values in this form. Hexadecimal, as [encoding/hex] has it: the signatures of
    [pkg/audit/signing.go] and the unit identifiers of [pkg/core/config.go] are in this form. *)
From Stdlib Require Import ZArith Lia Ascii String.
From stdpp Require Import base strings list.
From S2P Require Import Prelude.

#[local] Open Scope string_scope.
#[local] Open Scope list_scope.
#[local] Open Scope N_scope.

Module Base64.

Definition alphabet : string := "ABCDEFGHIJKLMNOPQRSTUVWXYZabcdefghijklmnopqrstuvwxyz0123456789+/".
Definition pad : ascii := "="%char.

(** The character of a 6-bit digit, and back. *)
Definition digit (n : N) : ascii := default pad (String.get (N.to_nat n) alphabet).
Fixpoint position (c : ascii) (s : string) (i : N) : option N :=
  match s with
  | EmptyString => None
  | String a s' => if Ascii.eqb a c then Some i else position c s' (i + 1)
  end.
Definition value_of (c : ascii) : option N := position c alphabet 0.

Definition byte (n : N) : ascii := ascii_of_N n.
Definition num (c : ascii) : N := N_of_ascii c.

(** [Encode] *)
Fixpoint Encode (s : string) : string :=
  match s with
  | EmptyString => EmptyString
  | String a EmptyString =>
      let x := num a in
      String (digit (x / 4)) (String (digit ((x mod 4) * 16)) (String pad (String pad EmptyString)))
  | String a (String b EmptyString) =>
      let x := num a in let y := num b in
      String (digit (x / 4)) (String (digit ((x mod 4) * 16 + y / 16))
        (String (digit ((y mod 16) * 4)) (String pad EmptyString)))
  | String a (String b (String c rest)) =>
      let x := num a in let y := num b in let z := num c in
      String (digit (x / 4)) (String (digit ((x mod 4) * 16 + y / 16))
        (String (digit ((y mod 16) * 4 + z / 64)) (String (digit (z mod 64)) (Encode rest))))
  end.

(** [Decode]: line breaks are skipped; a final group is padded to four characters, and nothing
    follows the padding. *)
Fixpoint unbreak (s : string) : string :=
  match s with
  | EmptyString => EmptyString
  | String a s' => if Ascii.eqb a "010"%char || Ascii.eqb a "013"%char then unbreak s' else String a (unbreak s')
  end.

Definition first (p q : N) : ascii := byte (p * 4 + q / 16).
Definition second (q r : N) : ascii := byte ((q mod 16) * 16 + r / 4).
Definition third (r t : N) : ascii := byte ((r mod 4) * 64 + t).

Fixpoint groups (s : string) : option string :=
  match s with
  | EmptyString => Some EmptyString
  | String a (String b (String c (String d rest))) =>
      match value_of a, value_of b with
      | Some p, Some q =>
          match value_of c, value_of d with
          | Some r, Some t =>
              match groups rest with
              | Some out => Some (String (first p q) (String (second q r) (String (third r t) out)))
              | None => None
              end
          | Some r, None =>
              if Ascii.eqb d pad && String.eqb rest EmptyString
              then Some (String (first p q) (String (second q r) EmptyString)) else None
          | None, _ =>
              if Ascii.eqb c pad && Ascii.eqb d pad && String.eqb rest EmptyString
              then Some (String (first p q) EmptyString) else None
          end
      | _, _ => None
      end
  | _ => None
  end.
Definition Decode (s : string) : option string := groups (unbreak s).

(** * Round trip *)

Lemma digits_decode : forallb (fun n => bool_decide (value_of (digit (N.of_nat n)) = Some (N.of_nat n)) &&
  negb (Ascii.eqb (digit (N.of_nat n)) "010"%char) && negb (Ascii.eqb (digit (N.of_nat n)) "013"%char)) (seq 0 64) = true.
Proof. vm_compute. reflexivity. Qed.

Lemma digit_spec n : n < 64 ->
  value_of (digit n) = Some n /\ Ascii.eqb (digit n) "010"%char || Ascii.eqb (digit n) "013"%char = false.
Proof.
  intros Hn. pose proof (proj1 (forallb_forall _ _) digits_decode (N.to_nat n)) as H.
  cbv beta in H. rewrite N2Nat.id in H. destruct (andb_prop _ _ (H ltac:(apply in_seq; lia))) as [[H1 H2]%andb_prop H3].
  apply bool_decide_eq_true in H1. apply negb_true_iff in H2, H3. split; [done|]. by rewrite H2, H3.
Qed.

Lemma num_bound a : num a < 256.
Proof. apply N_ascii_bounded. Qed.

Lemma byte_num a n : n = num a -> byte n = a.
Proof. intros ->. apply ascii_N_embedding. Qed.

Lemma first_back a e : e < 16 -> first (num a / 4) ((num a mod 4) * 16 + e) = a.
Proof.
  intros He. apply byte_num. pose proof (num_bound a).
  replace (((num a mod 4) * 16 + e) / 16) with (num a mod 4).
  - pose proof (N.div_mod (num a) 4). lia.
  - rewrite N.div_add_l by lia. rewrite (N.div_small e) by lia. lia.
Qed.

Lemma second_back b q e : e < 4 -> second (q * 16 + num b / 16) ((num b mod 16) * 4 + e) = b.
Proof.
  intros He. apply byte_num. pose proof (num_bound b).
  assert (num b / 16 < 16) by (apply N.Div0.div_lt_upper_bound; lia).
  replace ((q * 16 + num b / 16) mod 16) with (num b / 16)
    by (rewrite N.add_comm, N.Div0.mod_add, N.mod_small; lia).
  rewrite N.div_add_l by lia. rewrite (N.div_small e) by lia. pose proof (N.div_mod (num b) 16). lia.
Qed.

Lemma third_back c r : third (r * 4 + num c / 64) (num c mod 64) = c.
Proof.
  apply byte_num. pose proof (num_bound c).
  assert (num c / 64 < 4) by (apply N.Div0.div_lt_upper_bound; lia).
  replace ((r * 4 + num c / 64) mod 4) with (num c / 64)
    by (rewrite N.add_comm, N.Div0.mod_add, N.mod_small; lia).
  pose proof (N.div_mod (num c) 64). lia.
Qed.

Lemma digit_value n : n < 64 -> value_of (digit n) = Some n.
Proof. apply digit_spec. Qed.

Lemma digit_unbreak n s : n < 64 -> unbreak (String (digit n) s) = String (digit n) (unbreak s).
Proof.
  intros Hn. change (unbreak (String (digit n) s)) with
    (if Ascii.eqb (digit n) "010"%char || Ascii.eqb (digit n) "013"%char then unbreak s else String (digit n) (unbreak s)).
  by rewrite (proj2 (digit_spec n Hn)).
Qed.

Lemma div4_small a : num a / 4 < 64.
Proof. pose proof (num_bound a). apply N.Div0.div_lt_upper_bound. lia. Qed.
Lemma low2_small a e : e < 16 -> (num a mod 4) * 16 + e < 64.
Proof. pose proof (N.mod_lt (num a) 4). lia. Qed.
Lemma low4_small b e : e < 4 -> (num b mod 16) * 4 + e < 64.
Proof. pose proof (N.mod_lt (num b) 16). lia. Qed.
Lemma div16_small b : num b / 16 < 16.
Proof. pose proof (num_bound b). apply N.Div0.div_lt_upper_bound. lia. Qed.
Lemma div64_small c : num c / 64 < 4.
Proof. pose proof (num_bound c). apply N.Div0.div_lt_upper_bound. lia. Qed.
Lemma mod64_small c : num c mod 64 < 64.
Proof. by apply N.mod_lt. Qed.
#[local] Hint Resolve div4_small low2_small low4_small div16_small div64_small mod64_small : go.
Ltac digits := solve [auto with go | apply low2_small; lia | apply low4_small; lia | lia].

(** Strings by groups of three bytes *)
Lemma triples_ind (P : string -> Prop) :
  P EmptyString -> (forall a, P (String a EmptyString)) -> (forall a b, P (String a (String b EmptyString))) ->
  (forall a b c s, P s -> P (String a (String b (String c s)))) -> forall s, P s.
Proof.
  intros H0 H1 H2 H3. fix IH 1. intros [|a [|b [|c s]]]; [exact H0|apply H1|apply H2|apply H3, IH].
Qed.

(** What was encoded decodes to itself. *)
Lemma Decode_Encode s : Decode (Encode s) = Some s.
Proof.
  unfold Decode. induction s as [|a|a b|a b c s IH] using triples_ind; [done|..]; cbn [Encode].
  - replace ((num a mod 4) * 16) with ((num a mod 4) * 16 + 0) by lia.
    rewrite !digit_unbreak by digits.
    change (unbreak (String pad (String pad EmptyString))) with (String pad (String pad EmptyString)).
    cbn [groups]. rewrite !digit_value by digits. change (value_of pad) with (@None N). cbv iota.
    rewrite first_back by lia. reflexivity.
  - replace ((num b mod 16) * 4) with ((num b mod 16) * 4 + 0) by lia.
    rewrite !digit_unbreak by digits.
    change (unbreak (String pad EmptyString)) with (String pad EmptyString).
    cbn [groups]. rewrite !digit_value by digits. change (value_of pad) with (@None N). cbv iota.
    rewrite first_back, second_back by digits. reflexivity.
  - rewrite !digit_unbreak by digits. cbn [groups]. rewrite !digit_value by digits.
    rewrite IH, first_back, second_back, third_back by digits. done.
Qed.
End Base64.

Module Hex.

Definition digit (n : N) : ascii := default "0"%char (String.get (N.to_nat n) "0123456789abcdef").

(** [hex.EncodeToString] *)
Fixpoint EncodeToString (s : string) : string :=
  match s with
  | EmptyString => EmptyString
  | String a s' => let n := N_of_ascii a in String (digit (n / 16)) (String (digit (n mod 16)) (EncodeToString s'))
  end.

Definition fromHexChar (c : ascii) : option N :=
  let n := N_of_ascii c in
  if (48 <=? n) && (n <=? 57) then Some (n - 48)
  else if (97 <=? n) && (n <=? 102) then Some (n - 97 + 10)
  else if (65 <=? n) && (n <=? 70) then Some (n - 65 + 10)
  else None.

(** [hex.DecodeString] *)
Fixpoint DecodeString (s : string) : option string :=
  match s with
  | EmptyString => Some EmptyString
  | String a (String b s') =>
      match fromHexChar a, fromHexChar b with
      | Some x, Some y => String (ascii_of_N (x * 16 + y)) <$> DecodeString s'
      | _, _ => None
      end
  | String _ EmptyString => None
  end.

Lemma Decode_EncodeToString s : DecodeString (EncodeToString s) = Some s.
Proof.
  induction s as [|a s IH]; [done|]. cbn [EncodeToString DecodeString]. rewrite IH.
  destruct a as [[] [] [] [] [] [] [] []]; vm_compute; done.
Qed.
End Hex.
