(* ===== verification/JwtModel.v ===== *)
(** A concrete JWT library: an executable instance of [JwtLib] that satisfies [JwtLaws], with
    which the witnesses evaluate the code that signs and parses tokens. A signed token is the
    textual encoding of its key and contents; claims are strings, integers, arrays of strings
    and one-entry objects of strings, and [Set] refuses anything else. *)
From Stdlib Require Import ZArith QArith Lia Ascii.
From stdpp Require Import base gmap strings list countable.
From S2P Require Import Prelude.
From S2P Require Import GoLib.

#[local] Open Scope Z_scope.
#[local] Open Scope string_scope.

Module JwtModel.

(** Binary numerals as strings. *)
Fixpoint pos_string (p : positive) : string :=
  match p with
  | xH => "1"
  | xO p' => String "0" (pos_string p')
  | xI p' => String "1" (pos_string p')
  end.

Fixpoint string_pos (s : string) : option positive :=
  match s with
  | String c EmptyString => if Ascii.eqb c "1" then Some xH else None
  | String c s' =>
      match string_pos s' with
      | Some p => Some (if Ascii.eqb c "1" then xI p else xO p)
      | None => None
      end
  | EmptyString => None
  end.

Lemma string_pos_string p : string_pos (pos_string p) = Some p.
Proof.
  induction p as [p IH|p IH|]; cbn; [| |done];
    destruct (pos_string p) eqn:E; try (by destruct p); rewrite <- ?E in *; by rewrite IH.
Qed.

(** The claim values this library supports: strings, integers, arrays of strings, and objects
    whose members are strings or objects of strings. *)
Abbreviation strings := (list (string * string)) (only parsing).
Abbreviation member := (string * (string + strings))%type (only parsing).
Abbreviation claim := (string + (Z + (list string + list member)))%type (only parsing).

Definition of_string_member (kv : string * value) : option (string * string) :=
  match kv with (k, VStr s) => Some (k, s) | _ => None end.
Definition to_string_member (kv : string * string) : string * value := (kv.1, VStr kv.2).

Definition to_strings (l : strings) : value := VObj (list_to_map (to_string_member <$> l)).
Definition of_strings (m : gmap string value) : option strings :=
  mapM of_string_member (map_to_list m).

Definition of_member (kv : string * value) : option member :=
  match kv with
  | (k, VStr s) => Some (k, inl s)
  | (k, VObj m) => match of_strings m with Some l => Some (k, inr l) | None => None end
  | _ => None
  end.
Definition to_member (kv : member) : string * value :=
  (kv.1, match kv.2 with inl s => VStr s | inr l => to_strings l end).

Definition to_value (c : claim) : value :=
  match c with
  | inl s => VStr s
  | inr (inl z) => VInt z
  | inr (inr (inl l)) => VArr (VStr <$> l)
  | inr (inr (inr l)) => VObj (list_to_map (to_member <$> l))
  end.

Definition of_value (v : value) : option claim :=
  match v with
  | VStr s => Some (inl s)
  | VNum q => match Qden q with xH => Some (inr (inl (Qnum q))) | _ => None end
  | VArr l => match mapM as_string l with Some r => Some (inr (inr (inl r))) | None => None end
  | VObj m => match mapM of_member (map_to_list m) with
              | Some l => Some (inr (inr (inr l)))
              | None => None
              end
  | _ => None
  end.

(** A member-wise conversion that can be undone can be undone on the whole list. *)
Lemma mapM_undo {A B} (f : A -> option B) (g : B -> A) l r :
  (forall a b, f a = Some b -> g b = a) -> mapM f l = Some r -> g <$> r = l.
Proof.
  intros Hg Hr%mapM_Some. induction Hr as [|a b l r Hb _ IH]; cbn; [done|]. by rewrite IH, (Hg _ _ Hb).
Qed.

Lemma to_of_strings m l : of_strings m = Some l -> to_strings l = VObj m.
Proof.
  intros Hl. unfold to_strings.
  assert (Hu : forall a b, of_string_member a = Some b -> to_string_member b = a)
    by (intros [k []] [k' s']; cbn; intros; by simplify_eq).
  by rewrite (mapM_undo _ _ _ _ Hu Hl), list_to_map_to_list.
Qed.

Lemma to_of_member a b : of_member a = Some b -> to_member b = a.
Proof.
  destruct a as [k v], b as [k' c]. destruct v as [| | |s| |m]; cbn; intros Hb; simplify_eq; [done|].
  destruct (of_strings m) as [l|] eqn:Hl; simplify_eq. unfold to_member. cbn [fst snd]. by rewrite (to_of_strings _ _ Hl).
Qed.

Lemma to_of_value v c : of_value v = Some c -> to_value c = v.
Proof.
  destruct v as [| |q|s|l|m]; cbn; try done.
  - destruct q as [n d]; cbn. destruct d; try done. by intros [= <-].
  - by intros [= <-].
  - destruct (mapM as_string l) as [r|] eqn:E; [|done]. intros [= <-]. cbn. f_equal.
    assert (Hu : forall a b, as_string a = Some b -> VStr b = a) by (intros [] b'; cbn; congruence).
    apply (mapM_undo _ _ _ _ Hu E).
  - destruct (mapM of_member (map_to_list m)) as [l|] eqn:E; [|done]. intros [= <-]. cbn. f_equal.
    rewrite (mapM_undo _ _ _ _ to_of_member E). apply list_to_map_to_list.
Qed.

(** Tokens: subject, issuer, audience, issued-at, expiration and private claims. *)
Abbreviation tok := (string * string * list string * Z * Z * list (string * claim))%type (only parsing).

Definition t_sub (t : tok) : string := t.1.1.1.1.1.
Definition t_iss (t : tok) : string := t.1.1.1.1.2.
Definition t_aud (t : tok) : list string := t.1.1.1.2.
Definition t_iat (t : tok) : Z := t.1.1.2.
Definition t_exp (t : tok) : Z := t.1.2.
Definition t_claims (t : tok) : list (string * claim) := t.2.

Fixpoint assoc (k : string) (l : list (string * claim)) : option claim :=
  match l with
  | [] => None
  | (k', c) :: l' => if (k =? k')%string then Some c else assoc k l'
  end.

Definition encode_signed (k : string) (t : tok) : string := pos_string (encode (k, t)).
Definition decode_signed (s : string) : option (string * tok) := string_pos s ≫= decode.

Lemma decode_encode_signed k t : decode_signed (encode_signed k t) = Some (k, t).
Proof.
  unfold decode_signed, encode_signed. rewrite string_pos_string. cbn. apply decode_encode.
Qed.

(** Keys are named by strings: a private key ["k"] has the public key ["pub:k"]. *)
#[export] Instance lib : JwtLib := {|
  jwt_token := tok;
  jwk_key := string;
  jwt_Subject t := Some (t_sub t);
  jwt_Issuer t := Some (t_iss t);
  jwt_Audience t := Some (t_aud t);
  jwt_Expiration t := Some (t_exp t);
  jwt_IssuedAt t := Some (t_iat t);
  jwt_JwtID t := match assoc "jti" (t_claims t) with Some (inl s) => Some s | _ => None end;
  jwt_claim t n := to_value <$> assoc n (t_claims t);
  jwt_Build sub iss aud iat exp := Some (sub, iss, aud, iat, exp, []);
  jwt_Set t k v := match of_value v with
                   | Some c => Some (t.1, (k, c) :: t_claims t)
                   | None => None
                   end;
  jwt_Sign k t := Some (encode_signed ("pub:" +:+ k) t);
  jwt_Parse ks now s :=
    match decode_signed s with
    | Some (k, t) => if str_mem k ks && (t_iat t <=? now)%Z && (now <? t_exp t)%Z then Some t else None
    | None => None
    end;
  jwt_ParseInsecure s := snd <$> decode_signed s;
  jwk_PublicKey k := Some ("pub:" +:+ k);
  crypto_Signer := string;
  jwk_KeyID k := Some k;
  jwk_Import k := Some k;
  jwk_Set k _ _ := Some k;
  jwkset_AddKey ks k := Some (ks ++ [k])%list;
|}.

#[export] Instance laws : JwtLaws.
Proof.
  split; cbn.
  - intros t k v t' _. destruct (of_value v) eqn:E; intros [= <-]. cbn.
    rewrite String.eqb_refl. cbn. f_equal. by apply to_of_value.
  - intros t k v t' k'. destruct (of_value v) eqn:E; intros [= <-] Hne. cbn.
    destruct (String.eqb_spec k' k); [congruence|done].
  - intros t k v t' _. destruct (of_value v) eqn:E; intros [= <-]. by destruct t as [[[[[? ?] ?] ?] ?] ?].
  - intros sub iss aud iat exp t [= <-]. done.
  - intros k pk t s ks now iat exp [= <-] [= <-] Hin [= <-] [= <-] H1 H2.
    exists t. rewrite decode_encode_signed. apply str_mem_true in Hin. rewrite Hin.
    unfold Second in *.
    destruct (Z.leb_spec (t_iat t) now), (Z.ltb_spec now (t_exp t)); cbn; try lia. done.
  - intros ks k ks' [= <-]. done.
Qed.
End JwtModel.
