(* ===== verification/Store.v ===== *)
(** Data at rest: the lockers ([pkg/lock/lock.go], [dev.go], [awskms.go]), the versioned key-value
    store over locked values ([pkg/store/badger.go]) as a refinement of an abstract map of
    entries, and the migration of a database from one locker to another ([pkg/lock/migrate.go]).
    The database library is a parameter, with what its documentation promises as laws: any of its calls may
    fail, a transaction commits or fails as a whole, a write batch may commit in several
    transactions. *)
From Stdlib Require Import ZArith Lia Ascii.
From stdpp Require Import base gmap strings list sorting.
From S2P Require Import Prelude.
From S2P Require Import GoLib.
From S2P Require Import Base64.
From S2P Require Import JwtModel.

#[local] Open Scope string_scope.
#[local] Open Scope list_scope.
#[local] Open Scope Z_scope.

Module Store.

(** * Lockers *)

(** [core.Locker] *)
Record Locker : Type := {
  Lock : string -> result string string;
  Unlock : string -> result string string;
}.

(** What a store relies on: what was locked unlocks to itself. *)
Class LockerLaws (l : Locker) : Prop := {
  unlock_lock data locked : Lock l data = Ok locked -> Unlock l locked = Ok data;
}.

(** [DevLocker] *)
Definition DevLocker : Locker :=
  {| Lock := fun data => Ok (Base64.Encode data);
     Unlock := fun data => match Base64.Decode data with Some plain => Ok plain | None => Err "illegal base64 data" end |}.

#[export] Instance DevLocker_laws : LockerLaws DevLocker.
Proof. split. intros data locked [= <-]. cbn. by rewrite Base64.Decode_Encode. Qed.

Section KMS.
(** A client of the KMS API, for the region it was made with or the default one: [Encrypt] takes
    the key and the data, [Decrypt] finds the key in the blob. *)
Context {Client : Type}.
Variable kms_Encrypt : Client -> string -> string -> result string string.
Variable kms_Decrypt : Client -> string -> result string string.
Variable aws_LoadConfig : string -> result string Client.

(** [KMSLocker.Lock] and [KMSLocker.Unlock] *)
Definition KMSLocker (client : Client) (keyID : string) : Locker :=
  {| Lock := fun data => match kms_Encrypt client keyID data with Ok blob => Ok blob | Err e => Err ("awskms: encrypt: " +:+ e) end;
     Unlock := fun data => match kms_Decrypt client data with Ok plain => Ok plain | Err e => Err ("awskms: decrypt: " +:+ e) end |}.

(** [NewKMSLocker] *)
Definition NewKMSLocker (keyID region : string) : result string Locker :=
  if (keyID =? "")%string then Err "awskms: keyId must not be empty" else
  match aws_LoadConfig region with
  | Err e => Err ("awskms: loading AWS config: " +:+ e)
  | Ok client => Ok (KMSLocker client keyID)
  end.

(** [New] of [lock.go] *)
Definition NewLocker (type keyID region : string) : result string Locker :=
  if (type =? "dev")%string then Ok DevLocker
  else if (type =? "awskms")%string then NewKMSLocker keyID region
  else if (type =? "gcpckms")%string || (type =? "azurekeyvault")%string
       then Err ("lock type " +:+ type +:+ " not yet implemented")
  else Err ("unknown lock type " +:+ type).

(** [NewFromTypeAndKey]: the factory of the migration has no region. *)
Definition NewFromTypeAndKey (lockType key : string) : result string Locker :=
  if (lockType =? "dev")%string then Ok DevLocker
  else if (lockType =? "awskms")%string then NewKMSLocker key ""
  else Err ("unsupported lock type for migration: " +:+ lockType).

(** What a client encrypted it decrypts. *)
Definition KMSLaw : Prop := forall c k data blob, kms_Encrypt c k data = Ok blob -> kms_Decrypt c blob = Ok data.

Lemma KMSLocker_laws client keyID : KMSLaw -> LockerLaws (KMSLocker client keyID).
Proof.
  intros Hk. split. cbn. intros data locked. destruct (kms_Encrypt client keyID data) as [blob|] eqn:He; [|done].
  intros [= <-]. by rewrite (Hk _ _ _ _ He).
Qed.

(** Every locker the factory returns keeps the contract. *)
Lemma NewLocker_laws type keyID region l :
  KMSLaw -> NewLocker type keyID region = Ok l -> LockerLaws l.
Proof.
  intros Hk. unfold NewLocker, NewKMSLocker. repeat case_match; try discriminate; intros [= <-];
    [apply _|by apply KMSLocker_laws].
Qed.
Lemma NewFromTypeAndKey_laws type key l : KMSLaw -> NewFromTypeAndKey type key = Ok l -> LockerLaws l.
Proof.
  intros Hk. unfold NewFromTypeAndKey, NewKMSLocker. repeat case_match; try discriminate; intros [= <-];
    [apply _|by apply KMSLocker_laws].
Qed.
End KMS.

(** * The database *)

(** What a transaction reports: that there is no such key, or another error. *)
Inductive TxnErr : Type := KeyNotFound | TxnFailed (err : string).

(** The calls of the library the program makes. [bd_begin d i] is why the [i]-th transaction of an operation does
    not begin; [bd_get] finds an item, whose value may fail to be read; [bd_iter] visits the items whose keys have a prefix;
    [bd_set] and [bd_delete] are why a transaction does not take a write, and [bd_commit] commits those it
    took. A write batch is given its writes one by one ([bd_batchSet], after earlier ones) and flushed or
    cancelled. *)
Class Badger : Type := {
  bdb : Type;
  bd_begin : bdb -> nat -> option string;
  bd_get : bdb -> string -> result TxnErr (result string string);
  bd_iter : bdb -> string -> list (string * result string string);
  bd_set : bdb -> string -> string -> option string;
  bd_delete : bdb -> string -> option TxnErr;
  bd_commit : bdb -> list (string * option string) -> bdb * option string;
  bd_batchSet : bdb -> list (string * string) -> string -> string -> option string;
  bd_batchEnd : bdb -> list (string * string) -> bool -> bdb * option string;
  bd_oneTxn : bdb -> list (string * string) -> bool;
}.

Definition applyWrite (m : gmap string string) (w : string * option string) : gmap string string :=
  match w.2 with Some v => <[w.1 := v]> m | None => delete w.1 m end.
Definition commitAll (m : gmap string string) (ws : list (string * string)) : gmap string string :=
  foldl (fun m w => <[w.1 := w.2]> m) m ws.

(** What the library documents, about the pairs [bd_contents] that are stored: a read that succeeds returns what is
    stored, iteration visits each stored key once, a transaction is all or nothing, a flushed batch is
    stored, and of one that is cancelled or cannot be flushed some writes may be stored, but none when they
    fit one transaction. *)
Class BadgerLaws `{!Badger} : Type := {
  bd_contents : bdb -> gmap string string;
  bd_get_found d k v : bd_get d k = Ok (Ok v) -> bd_contents d !! k = Some v;
  bd_get_missing d k : bd_get d k = Err KeyNotFound -> bd_contents d !! k = None;
  bd_iter_keys d p k : k ∈ (bd_iter d p).*1 <-> is_Some (bd_contents d !! k) /\ HasPrefix k p = true;
  bd_iter_once d p : NoDup (bd_iter d p).*1;
  bd_iter_value d p k v : (k, Ok v) ∈ bd_iter d p -> bd_contents d !! k = Some v;
  bd_delete_missing d k : bd_delete d k = Some KeyNotFound -> bd_contents d !! k = None;
  bd_commit_ok d ws d' : bd_commit d ws = (d', None) -> bd_contents d' = foldl applyWrite (bd_contents d) ws;
  bd_commit_failed d ws d' e : bd_commit d ws = (d', Some e) -> bd_contents d' = bd_contents d;
  bd_flush_ok d ws d' : bd_batchEnd d ws true = (d', None) -> bd_contents d' = commitAll (bd_contents d) ws;
  bd_batch_some d ws f d' e : bd_batchEnd d ws f = (d', e) ->
    exists stored, sublist stored ws /\ bd_contents d' = commitAll (bd_contents d) stored;
  bd_batch_one d ws f d' e : bd_oneTxn d ws = true -> bd_batchEnd d ws f = (d', e) -> f = false \/ e <> None ->
    bd_contents d' = bd_contents d;
}.

(** * The store *)

Record StoreEntry : Type := {
  se_Key : string;
  se_Value : string;
  se_Version : Z;
  se_CreatedAt : Time;
  se_UpdatedAt : Time;
}.

Inductive StoreErr : Type :=
| ErrNotFound
| LockerErr (err : string)
| JSONErr
| DBErr (err : string).

Section Store.
Context `{!Badger}.
Variable json_Marshal : StoreEntry -> option string.
Variable json_Unmarshal : string -> option StoreEntry.
Variable locker : Locker.

(** The entry of a stored value *)
Definition decodeEntry (val : string) : result StoreErr StoreEntry :=
  match Unlock locker val with
  | Err e => Err (LockerErr e)
  | Ok plain => match json_Unmarshal plain with Some entry => Ok entry | None => Err JSONErr end
  end.

(** [Get] *)
Definition Get (d : bdb) (key : string) : result StoreErr StoreEntry :=
  match bd_begin d O with
  | Some e => Err (DBErr e)
  | None =>
      match bd_get d key with
      | Err KeyNotFound => Err ErrNotFound
      | Err (TxnFailed e) => Err (DBErr e)
      | Ok (Err e) => Err (DBErr e)
      | Ok (Ok val) => decodeEntry val
      end
  end.

(** [Put]: what the transaction reads, and then writes. *)
Definition priorVersion (d : bdb) (now : Time) (key : string) : result StoreErr (Z * Time) :=
  match bd_get d key with
  | Ok (Ok val) => let? existing := decodeEntry val in Ok (se_Version existing, se_CreatedAt existing)
  | Ok (Err e) => Err (DBErr e)
  | Err KeyNotFound => Ok (0, now)
  | Err (TxnFailed e) => Err (DBErr e)
  end.
Definition nextEntry (now : Time) (key value : string) (prior : Z * Time) : StoreEntry :=
  {| se_Key := key; se_Value := value; se_Version := u64 (prior.1 + 1); se_CreatedAt := prior.2; se_UpdatedAt := now |}.
Definition Put (d : bdb) (now : Time) (key value : string) : bdb * result StoreErr StoreEntry :=
  match bd_begin d O with
  | Some e => (d, Err (DBErr e))
  | None =>
      match priorVersion d now key with
      | Err e => (d, Err e)
      | Ok prior =>
          let entry := nextEntry now key value prior in
          match json_Marshal entry with
          | None => (d, Err JSONErr)
          | Some jsonBytes =>
              match Lock locker jsonBytes with
              | Err e => (d, Err (LockerErr e))
              | Ok locked =>
                  match bd_set d key locked with
                  | Some e => (d, Err (DBErr e))
                  | None =>
                      match bd_commit d [(key, Some locked)] with
                      | (d', Some e) => (d', Err (DBErr e))
                      | (d', None) => (d', Ok entry)
                      end
                  end
              end
          end
      end
  end.

(** [Delete] *)
Definition Delete (d : bdb) (key : string) : bdb * result StoreErr unit :=
  match bd_begin d O with
  | Some e => (d, Err (DBErr e))
  | None =>
      let commit ws := match bd_commit d ws with (d', Some e) => (d', Err (DBErr e)) | (d', None) => (d', Ok tt) end in
      match bd_delete d key with
      | Some (TxnFailed e) => (d, Err (DBErr e))
      | Some KeyNotFound => commit []
      | None => commit [(key, None)]
      end
  end.

(** [List] *)
Definition ListKeys (d : bdb) (prefix : string) : result StoreErr (list string) :=
  match bd_begin d O with Some e => Err (DBErr e) | None => Ok (bd_iter d prefix).*1 end.

(** ** The abstract store *)

Context `{!BadgerLaws}.

(** The entries a database holds. *)
Definition holds (c : gmap string string) (m : gmap string StoreEntry) : Prop :=
  forall k, match c !! k with
            | Some val => exists e, decodeEntry val = Ok e /\ m !! k = Some e
            | None => m !! k = None
            end.
Definition represents (d : bdb) (m : gmap string StoreEntry) : Prop := holds (bd_contents d) m.

(** The abstract write: a new version of the entry, created when the key was first written. *)
Definition bump (m : gmap string StoreEntry) (now : Time) (key value : string) : StoreEntry :=
  match m !! key with
  | Some e => {| se_Key := key; se_Value := value; se_Version := u64 (se_Version e + 1);
                 se_CreatedAt := se_CreatedAt e; se_UpdatedAt := now |}
  | None => {| se_Key := key; se_Value := value; se_Version := 1; se_CreatedAt := now; se_UpdatedAt := now |}
  end.

(** The database answers a read of a key: it begins a transaction and finds the value or that there is none. *)
Definition readable (d : bdb) (key : string) : Prop :=
  bd_begin d O = None /\ (bd_get d key = Err KeyNotFound \/ exists v, bd_get d key = Ok (Ok v)).

Context `{!LockerLaws locker}.
Hypothesis json_roundtrip : forall e s, json_Marshal e = Some s -> json_Unmarshal s = Some e.

Lemma decode_locked e s locked : json_Marshal e = Some s -> Lock locker s = Ok locked -> decodeEntry locked = Ok e.
Proof using All.
  intros Hj Hl. unfold decodeEntry. rewrite (unlock_lock _ _ Hl). by rewrite (json_roundtrip _ _ Hj).
Qed.

Lemma holds_insert c m key val e : holds c m -> decodeEntry val = Ok e -> holds (<[key := val]> c) (<[key := e]> m).
Proof using.
  intros Hh He k. destruct (decide (k = key)) as [->|Hne]; [rewrite !lookup_insert_eq; by exists e|].
  rewrite !lookup_insert_ne by done. apply Hh.
Qed.
Lemma holds_delete c m key : holds c m -> holds (delete key c) (delete key m).
Proof using.
  intros Hh k. destruct (decide (k = key)) as [->|Hne]; [by rewrite !lookup_delete_eq|].
  rewrite !lookup_delete_ne by done. apply Hh.
Qed.

Lemma get_represents d m key : represents d m -> readable d key ->
  Get d key = match m !! key with Some e => Ok e | None => Err ErrNotFound end /\
  exists prior, (forall now, priorVersion d now key = Ok (prior now)) /\
    forall now value, nextEntry now key value (prior now) = bump m now key value.
Proof using.
  intros Hrep [Hb Hg]. specialize (Hrep key). unfold Get, priorVersion, bump. rewrite Hb.
  destruct Hg as [Hg|[v Hg]]; rewrite Hg.
  - apply bd_get_missing in Hg. rewrite Hg in Hrep. rewrite Hrep. split; [done|]. by exists (fun now => (0, now)).
  - apply bd_get_found in Hg. rewrite Hg in Hrep. destruct Hrep as (e & -> & ->). split; [done|].
    by exists (fun _ => (se_Version e, se_CreatedAt e)).
Qed.

Lemma unreadable_get d key : ~ readable d key -> exists e, Get d key = Err (DBErr e).
Proof using.
  intros Hn. unfold Get, readable in *. destruct (bd_begin d O) as [e|]; [eauto|].
  destruct (bd_get d key) as [[v|e]|[|e]]; eauto; destruct Hn; eauto.
Qed.

Lemma put_reads d now key value d' e : Put d now key value = (d', Ok e) -> readable d key.
Proof using.
  unfold Put, priorVersion, readable. destruct (bd_begin d O); [done|].
  destruct (bd_get d key) as [[v|x]|[|x]]; [eauto|done|eauto|done].
Qed.

Lemma put_failed d now key value d' err : Put d now key value = (d', Err err) -> bd_contents d' = bd_contents d.
Proof using.
  unfold Put. repeat (case_match; try (by intros [= <- _])); try done. intros [= <- _]. by eapply bd_commit_failed.
Qed.

(** C37: The store implements the map of its entries, over a database that does what its library promises. On a
    database that represents [m]: when the database answers the read, reading returns the entry of the key or
    [ErrNotFound], and when it does not, an error that is not [ErrNotFound]; a write that succeeds returns
    the next version and leaves a database that represents [m] with it, and it succeeds when the database,
    the locker and the JSON encoding do; a deletion that succeeds leaves [m] without the key; a
    write or deletion that fails leaves [m]; listing returns exactly the keys with the prefix, each once. *)
Theorem store_refines d m key value prefix now :
  represents d m ->
  (readable d key -> Get d key = match m !! key with Some e => Ok e | None => Err ErrNotFound end) /\
  (~ readable d key -> exists e, Get d key = Err (DBErr e)) /\
  (forall d' e, Put d now key value = (d', Ok e) -> e = bump m now key value /\ represents d' (<[key := e]> m)) /\
  (forall js locked, readable d key -> json_Marshal (bump m now key value) = Some js -> Lock locker js = Ok locked ->
     bd_set d key locked = None -> snd (bd_commit d [(key, Some locked)]) = None ->
     exists d', Put d now key value = (d', Ok (bump m now key value))) /\
  (forall d' err, Put d now key value = (d', Err err) -> represents d' m) /\
  (forall d', Delete d key = (d', Ok tt) -> represents d' (delete key m)) /\
  (forall d' err, Delete d key = (d', Err err) -> represents d' m) /\
  (forall ks, ListKeys d prefix = Ok ks -> NoDup ks /\ forall k, k ∈ ks <-> is_Some (m !! k) /\ HasPrefix k prefix = true).
Proof using All.
  intros Hrep. split; [intros Hr; by apply get_represents|]. split; [apply unreadable_get|].
  split; [|split; [|split; [|split; [|split]]]].
  - intros d' e Hp. destruct (get_represents _ _ _ Hrep (put_reads _ _ _ _ _ _ Hp)) as (_ & prior & Hpr & Hn).
    unfold Put in Hp. destruct (bd_begin d O); [done|]. rewrite Hpr in Hp. cbv zeta in Hp. rewrite Hn in Hp.
    destruct (json_Marshal _) as [js|] eqn:Hj; [|done]. destruct (Lock locker js) as [locked|] eqn:Hl; [|done].
    destruct (bd_set d key locked); [done|]. destruct (bd_commit d _) as [d1 [x|]] eqn:Hc; [done|].
    injection Hp as <- <-. split; [done|]. unfold represents. rewrite (bd_commit_ok _ _ _ Hc). cbn.
    apply holds_insert; [done|by eapply decode_locked].
  - intros js locked Hr Hj Hl Hs Hc. destruct (get_represents _ _ _ Hrep Hr) as (_ & prior & Hpr & Hn).
    unfold Put. destruct Hr as [Hb _]. rewrite Hb, Hpr. cbv zeta. rewrite Hn, Hj, Hl, Hs.
    destruct (bd_commit d _) as [d1 x]. cbn in Hc. subst x. eauto.
  - intros d' err Hp. unfold represents. by rewrite (put_failed _ _ _ _ _ _ Hp).
  - intros d' Hd. unfold Delete in Hd. destruct (bd_begin d O); [done|].
    destruct (bd_delete d key) as [[|e]|] eqn:Hdel; [|done|].
    + destruct (bd_commit d []) as [d1 [x|]] eqn:Hc; [done|]. injection Hd as <-. unfold represents.
      rewrite (bd_commit_ok _ _ _ Hc). cbn. apply bd_delete_missing in Hdel. rewrite <- (delete_id _ _ Hdel).
      by apply holds_delete.
    + destruct (bd_commit d _) as [d1 [x|]] eqn:Hc; [done|]. injection Hd as <-. unfold represents.
      rewrite (bd_commit_ok _ _ _ Hc). cbn. by apply holds_delete.
  - intros d' err Hd. unfold represents. assert (bd_contents d' = bd_contents d) as ->; [|done].
    unfold Delete in Hd. repeat (case_match; simplify_eq; try done); by eapply bd_commit_failed.
  - intros ks. unfold ListKeys. destruct (bd_begin d O); [done|]. intros [= <-]. split; [apply bd_iter_once|].
    intros k. rewrite bd_iter_keys. specialize (Hrep k). destruct (bd_contents d !! k) as [val|].
    + destruct Hrep as (e & _ & ->). naive_solver.
    + rewrite Hrep. naive_solver.
Qed.
End Store.

(** * Migration *)

Inductive MigrateErr : Type :=
| CountingKeys (err : string)
| ReadingKeys (err : string)
| ReadValue (err : string)
| UnlockKey (key err : string)
| LockKey (key err : string)
| BatchSet (err : string)
| Flushing (err : string).

(** The audited steps *)
Inductive MigrateEvent : Type :=
| MigrationStarted
| MigrationFailed (err : MigrateErr)
| MigrationComplete (keyCount : Z).

Section Migrate.
Context `{!Badger}.
Variable src dst : Locker.

(** The value of one key under the new locker *)
Definition reencrypt (key val : string) : result MigrateErr string :=
  match Unlock src val with
  | Err e => Err (UnlockKey key e)
  | Ok plain => match Lock dst plain with Err e => Err (LockKey key e) | Ok cipher => Ok cipher end
  end.

(** The iteration: the writes the batch has taken, and how it ended. *)
Fixpoint migrateLoop (d : bdb) (items : list (string * result string string)) (sets : list (string * string))
    : list (string * string) * result MigrateErr unit :=
  match items with
  | [] => (sets, Ok tt)
  | (key, Err e) :: _ => (sets, Err (ReadValue e))
  | (key, Ok val) :: rest =>
      match reencrypt key val with
      | Err e => (sets, Err e)
      | Ok cipher =>
          match bd_batchSet d sets key cipher with
          | Some e => (sets, Err (BatchSet e))
          | None => migrateLoop d rest (sets ++ [(key, cipher)])
          end
      end
  end.

(** [Migrate]: a batch that is not flushed is cancelled on return. *)
Definition Migrate (d : bdb) : bdb * list MigrateEvent * result MigrateErr Z :=
  match bd_begin d 0 with
  | Some e => (d, [MigrationStarted], Err (CountingKeys e))
  | None =>
      if (length (bd_iter d "") =? 0)%nat then (d, [MigrationStarted; MigrationComplete 0], Ok 0) else
      let failed sets e := ((bd_batchEnd d sets false).1, [MigrationStarted; MigrationFailed e], Err e) in
      match bd_begin d 1 with
      | Some e => failed [] (ReadingKeys e)
      | None =>
          match migrateLoop d (bd_iter d "") [] with
          | (sets, Err e) => failed sets e
          | (sets, Ok _) =>
              match bd_batchEnd d sets true with
              | (d', Some e) => (d', [MigrationStarted; MigrationFailed (Flushing e)], Err (Flushing e))
              | (d', None) =>
                  let n := Z.of_nat (length (bd_iter d "")) in (d', [MigrationStarted; MigrationComplete n], Ok n)
              end
          end
      end
  end.

Context `{!BadgerLaws}.

Lemma commitAll_lookup m ws k : NoDup ws.*1 ->
  commitAll m ws !! k = match (list_to_map ws : gmap string string) !! k with Some v => Some v | None => m !! k end.
Proof using.
  unfold commitAll. revert m. induction ws as [|[k' v] ws IH]; intros m; [done|]. cbn. intros [Hni Hnd]%NoDup_cons.
  rewrite IH by done. destruct (decide (k = k')) as [->|Hne].
  - rewrite (not_elem_of_list_to_map_1 ws k') by done. by rewrite !lookup_insert_eq.
  - by rewrite !lookup_insert_ne by done.
Qed.

(** The batch takes, for a prefix of the items, each value under the new locker; for all of them on success. *)
Lemma migrateLoop_sets d items sets sets' r : migrateLoop d items sets = (sets', r) ->
  exists new rest done_, sets' = sets ++ new /\ items = done_ ++ rest /\
    Forall2 (fun (i : string * result string string) w => exists v, i = (w.1, Ok v) /\ reencrypt w.1 v = Ok w.2) done_ new /\ (r = Ok tt -> rest = []).
Proof using.
  revert sets. induction items as [|[key [val|e]] items IH]; intros sets; cbn.
  - intros [= <- <-]. exists [], [], []. by rewrite app_nil_r.
  - destruct (reencrypt key val) as [c|x] eqn:Hr.
    2:{ intros [= <- <-]. eexists [], _, []. rewrite app_nil_r. by split_and!. }
    destruct (bd_batchSet d sets key c).
    { intros [= <- <-]. eexists [], _, []. rewrite app_nil_r. by split_and!. }
    intros (new & rest & done_ & -> & -> & Hf & Hd)%IH. exists ((key, c) :: new), rest, ((key, Ok val) :: done_).
    rewrite <- app_assoc. split; [done|]. split; [done|]. split; [|done]. constructor; [|done]. by exists val.
  - intros [= <- <-]. eexists [], _, []. rewrite app_nil_r. by split_and!.
Qed.

Lemma sets_keys done_ new :
  Forall2 (fun (i : string * result string string) w => exists v, i = (w.1, Ok v) /\ reencrypt w.1 v = Ok w.2) done_ new -> new.*1 = done_.*1.
Proof using. induction 1 as [|i w ils ws (v & -> & _) _ IH]; [done|]. cbn. by rewrite IH. Qed.
Lemma sets_elem done_ new w :
  Forall2 (fun (i : string * result string string) w => exists v, i = (w.1, Ok v) /\ reencrypt w.1 v = Ok w.2) done_ new -> w ∈ new ->
  exists v, (w.1, Ok v : result string string) ∈ done_ /\ reencrypt w.1 v = Ok w.2.
Proof using.
  intros Hf Hw. apply list_elem_of_lookup in Hw as [i Hi].
  destruct (Forall2_lookup_r _ _ _ _ _ Hf Hi) as (x & Hx & v & -> & Hr). exists v.
  split; [by eapply list_elem_of_lookup_2|done].
Qed.

(** The sets of a migration: distinct keys, each with the stored value under the new locker. *)
Lemma migration_sets d sets r : migrateLoop d (bd_iter d "") [] = (sets, r) ->
  NoDup sets.*1 /\
  (forall w, w ∈ sets -> exists v, bd_contents d !! w.1 = Some v /\ reencrypt w.1 v = Ok w.2) /\
  (r = Ok tt -> sets.*1 = (bd_iter d "").*1).
Proof using.
  intros (new & rest & done_ & -> & Hi & Hf & Hr)%migrateLoop_sets. cbn [app].
  pose proof (bd_iter_once d "") as Hnd. split; [|split].
  - rewrite (sets_keys _ _ Hf). rewrite Hi, fmap_app in Hnd. by apply NoDup_app in Hnd as [? _].
  - intros w Hw. destruct (sets_elem _ _ _ Hf Hw) as (v & Hin & Hre). exists v. split; [|done].
    eapply (bd_iter_value d ""). rewrite Hi. set_solver.
  - intros ->. rewrite (sets_keys _ _ Hf), Hi, (Hr eq_refl), app_nil_r. done.
Qed.

(** A database after some of the writes of a batch: each key is as it was or under the new locker. *)
Definition moved (c c' : gmap string string) : Prop :=
  forall k, match c !! k with
            | Some v => c' !! k = Some v \/ exists c0, reencrypt k v = Ok c0 /\ c' !! k = Some c0
            | None => c' !! k = None
            end.

Lemma commit_moved c ws : NoDup ws.*1 ->
  (forall w, w ∈ ws -> exists v, c !! w.1 = Some v /\ reencrypt w.1 v = Ok w.2) -> moved c (commitAll c ws).
Proof using.
  intros Hnd Hw k. rewrite commitAll_lookup by done.
  destruct ((list_to_map ws : gmap string string) !! k) as [x|] eqn:Hk; [|by destruct (c !! k); [left|]].
  apply elem_of_list_to_map_2 in Hk. destruct (Hw _ Hk) as (v & Hv & Hr). cbn in Hv, Hr. rewrite Hv. eauto.
Qed.

(** Whatever happens, no entry is lost; and nothing has changed when the failed writes fit one transaction. *)
Lemma migration_failed d d' evs err : Migrate d = (d', evs, Err err) ->
  moved (bd_contents d) (bd_contents d') /\
  ((forall sets, bd_oneTxn d sets = true) -> bd_contents d' = bd_contents d).
Proof using.
  assert (Hid : moved (bd_contents d) (bd_contents d)) by (intros k; destruct (_ !! k); [by left|done]).
  unfold Migrate. destruct (bd_begin d 0); [by intros [= <- _ _]|]. destruct (_ =? 0)%nat; [done|].
  assert (Hend : forall sets r f d1 e1, migrateLoop d (bd_iter d "") [] = (sets, r) -> bd_batchEnd d sets f = (d1, e1) ->
    moved (bd_contents d) (bd_contents d1)).
  { intros sets r f d1 e1 (Hnd & Hw & _)%migration_sets He.
    destruct (bd_batch_some _ _ _ _ _ He) as (stored & Hs & ->). apply commit_moved.
    - eapply sublist_NoDup; [exact Hnd|by apply fmap_sublist].
    - intros w Hin. apply Hw. by eapply elem_of_sublist. }
  assert (Hcancel : forall sets, (forall sets, bd_oneTxn d sets = true) ->
    bd_contents (bd_batchEnd d sets false).1 = bd_contents d).
  { intros sets H1. destruct (bd_batchEnd d sets false) as [d1 e1] eqn:He. by eapply bd_batch_one; eauto. }
  destruct (bd_begin d 1).
  { intros [= <- _ _]. split; [|apply Hcancel]. destruct (bd_batchEnd d [] false) as [d1 e1] eqn:He.
    destruct (bd_batch_some _ _ _ _ _ He) as (stored & Hs%sublist_nil_r & Hc). cbn [fst]. rewrite Hc. by subst. }
  destruct (migrateLoop d _ []) as [sets [[]|e]] eqn:Hl.
  - destruct (bd_batchEnd d sets true) as [d1 [e1|]] eqn:He; [|done]. intros [= <- _ _].
    split; [by eapply Hend|]. intros H1. eapply bd_batch_one; [apply H1|exact He|by right].
  - intros [= <- _ _]. split; [|apply Hcancel]. destruct (bd_batchEnd d sets false) as [d1 e1] eqn:He. by eapply Hend.
Qed.
End Migrate.

Lemma iter_count `{!Badger, !BadgerLaws} d : length (bd_iter d "") = size (bd_contents d).
Proof.
  rewrite <- (length_fmap fst). assert ((bd_iter d "").*1 ≡ₚ (map_to_list (bd_contents d)).*1) as ->.
  - apply NoDup_Permutation; [apply bd_iter_once|apply NoDup_fst_map_to_list|]. intros k.
    rewrite bd_iter_keys, list_elem_of_fmap. split.
    + intros [[v Hv] _]. exists (k, v). split; [done|]. by apply elem_of_map_to_list.
    + intros ([k' v] & -> & Hin%elem_of_map_to_list). split; [by exists v|by destruct k'].
  - by rewrite length_fmap, length_map_to_list.
Qed.

(** A migration keeps every entry. When it succeeds the database holds the same keys, each value
    unlocks with the new locker to what it unlocked to with the old one, as many as are counted;
    so a store opened with the new locker represents the same entries. *)
Lemma migration_keeps_entries `{!Badger, !BadgerLaws} src dst d d' evs n :
  LockerLaws dst -> Migrate src dst d = (d', evs, Ok n) ->
  n = Z.of_nat (size (bd_contents d)) /\ evs = [MigrationStarted; MigrationComplete n] /\
  (forall k, is_Some (bd_contents d' !! k) <-> is_Some (bd_contents d !! k)) /\
  (forall k v, bd_contents d !! k = Some v -> exists plain v', Unlock src v = Ok plain /\ bd_contents d' !! k = Some v' /\
     Unlock dst v' = Ok plain) /\
  forall json m, represents json src d m -> represents json dst d' m.
Proof.
  intros Hdst Hm. pose proof (iter_count d) as Hcount.
  assert (Hmain : n = Z.of_nat (size (bd_contents d)) /\ evs = [MigrationStarted; MigrationComplete n] /\
    forall k, match bd_contents d !! k with
              | Some v => exists c, reencrypt src dst k v = Ok c /\ bd_contents d' !! k = Some c
              | None => bd_contents d' !! k = None
              end).
  { unfold Migrate in Hm. destruct (bd_begin d 0); [done|]. rewrite Hcount in Hm.
    destruct (Nat.eqb_spec (size (bd_contents d)) 0) as [Hz|Hz].
    - injection Hm as <- <- <-. rewrite Hz. split; [done|]. split; [done|]. apply map_size_empty_iff in Hz.
      intros k. by rewrite Hz, lookup_empty.
    - destruct (bd_begin d 1); [done|]. destruct (migrateLoop _ _ d _ []) as [sets [u|]] eqn:Hl; [|done].
      destruct (bd_batchEnd d sets true) as [d1 [|]] eqn:He; [done|]. injection Hm as <- <- <-.
      split; [done|]. split; [done|]. intros k. apply bd_flush_ok in He. rewrite He.
      destruct u. destruct (migration_sets _ _ _ _ _ Hl) as (Hnd & Hw & Hk). specialize (Hk eq_refl). rewrite commitAll_lookup by done.
      destruct ((list_to_map sets : gmap string string) !! k) as [c|] eqn:Hs.
      + apply elem_of_list_to_map_2 in Hs. destruct (Hw _ Hs) as (v & Hv & Hr). cbn in *. rewrite Hv. eauto.
      + destruct (bd_contents d !! k) as [v|] eqn:Hv; [|done]. exfalso. apply not_elem_of_list_to_map in Hs. apply Hs.
        rewrite Hk. apply bd_iter_keys. split; [by exists v|by destruct k]. }
  destruct Hmain as (Hn & He & Hk). split; [done|]. split; [done|].
  assert (Hval : forall k v, bd_contents d !! k = Some v -> exists plain v', Unlock src v = Ok plain /\
     bd_contents d' !! k = Some v' /\ Unlock dst v' = Ok plain).
  { intros k v Hv. specialize (Hk k). rewrite Hv in Hk. destruct Hk as (c & Hr & Hc). unfold reencrypt in Hr.
    destruct (Unlock src v) as [plain|]; [|done]. destruct (Lock dst plain) as [c'|] eqn:Hlk; [|done].
    injection Hr as ->. exists plain, c. split; [done|]. split; [done|]. by apply unlock_lock. }
  split; [|split; [exact Hval|]].
  - intros k. specialize (Hk k). destruct (bd_contents d !! k); [|by rewrite Hk]. destruct Hk as (c & _ & ->). split; eauto.
  - intros json m Hrep k. specialize (Hrep k). specialize (Hk k).
    destruct (bd_contents d !! k) as [v|] eqn:Hv; [|by rewrite Hk].
    destruct (Hval k v Hv) as (plain & v' & Hu & -> & Hu'). destruct Hrep as (e & Hd & Hme). exists e.
    split; [|done]. unfold decodeEntry in *. rewrite Hu'. by rewrite Hu in Hd.
Qed.

(** * Concrete databases *)

(** A locker that marks what it locked. *)
Definition markLocker : Locker :=
  {| Lock := fun d => Ok ("k:" +:+ d);
     Unlock := fun d => if HasPrefix d "k:" then Ok (TrimPrefix d "k:") else Err "not locked" |}.
#[export] Instance markLocker_laws : LockerLaws markLocker.
Proof.
  split. intros data locked [= <-]. cbn. unfold HasPrefix, TrimPrefix, HasPrefix.
  change (String "k" (String ":" data)) with ("k:" +:+ data). by rewrite prefix_app, str_drop_app.
Qed.

(** A database that refuses the empty key and commits a batch every [limit] writes. *)
Definition emptyKey (k : string) : option string := if (k =? "")%string then Some "Key cannot be empty" else None.
Definition committed (limit : nat) (ws : list (string * string)) : list (string * string) :=
  take (limit * ((length ws - 1) / limit)) ws.
Definition mapItems (m : gmap string string) (prefix : string) : list (string * result string string) :=
  (fun p => (p.1, Ok p.2)) <$> filter (fun p : string * string => HasPrefix p.1 prefix = true)
    (merge_sort (fun p q => str_le p.1 q.1) (map_to_list m)).
Definition mapBadger (limit : nat) : Badger :=
  {| bdb := gmap string string;
     bd_begin := fun _ _ => None;
     bd_get := fun m k => match emptyKey k with
                          | Some e => Err (TxnFailed e)
                          | None => match m !! k with Some v => Ok (Ok v) | None => Err KeyNotFound end
                          end;
     bd_iter := mapItems;
     bd_set := fun _ k _ => emptyKey k;
     bd_delete := fun _ k => match emptyKey k with Some e => Some (TxnFailed e) | None => None end;
     bd_commit := fun m ws => (foldl applyWrite m ws, None);
     bd_batchSet := fun _ _ k _ => emptyKey k;
     bd_batchEnd := fun m ws flush => (commitAll m (if flush then ws else committed limit ws), None);
     bd_oneTxn := fun _ ws => (length ws <=? limit)%nat |}.

Lemma mapItems_keys m p k : k ∈ (mapItems m p).*1 <-> is_Some (m !! k) /\ HasPrefix k p = true.
Proof.
  unfold mapItems. rewrite <- list_fmap_compose, list_elem_of_fmap. split.
  - intros ([k' v] & -> & [Hp Hin]%list_elem_of_filter). rewrite merge_sort_Permutation in Hin.
    apply elem_of_map_to_list in Hin. split; [by exists v|done].
  - intros [[v Hv] Hp]. exists (k, v). split; [done|]. apply list_elem_of_filter. split; [done|].
    rewrite merge_sort_Permutation. by apply elem_of_map_to_list.
Qed.

#[local] Instance mapBadger_laws limit : BadgerLaws (H := mapBadger limit).
Proof.
  refine (Build_BadgerLaws (mapBadger limit) id _ _ _ _ _ _ _ _ _ _ _); cbn.
  - intros m k v. destruct (emptyKey k); [done|]. destruct (m !! k) eqn:E; [|done]. by intros [= ->].
  - intros m k. destruct (emptyKey k); [done|]. by destruct (m !! k) eqn:E.
  - intros m p k. apply mapItems_keys.
  - intros m p. unfold mapItems. rewrite <- list_fmap_compose. cbn.
    eapply sublist_NoDup; [|apply fmap_sublist, sublist_filter].
    change (fst ∘ _) with (fst : string * string -> string).
    rewrite merge_sort_Permutation. apply NoDup_fst_map_to_list.
  - intros m p k v ([k' v'] & [= -> ->] & [_ Hin]%list_elem_of_filter)%list_elem_of_fmap.
    rewrite merge_sort_Permutation in Hin. by apply elem_of_map_to_list in Hin.
  - intros m k. by destruct (emptyKey k).
  - by intros m ws m' [= <-].
  - done.
  - by intros m ws m' [= <-].
  - intros m ws f m' e [= <- _]. eexists. split; [|done]. destruct f; [done|]. apply sublist_take.
  - intros m ws f m' e Hl%Nat.leb_le [= <- <-] [->|?]; [|done]. unfold committed.
    replace ((length ws - 1) / limit)%nat with O; [by rewrite Nat.mul_0_r|]. symmetry.
    destruct limit as [|n]; [done|]. apply Nat.div_small. lia.
Defined.

(** A failed migration that does not fit one transaction is not undone: with one write per
    transaction, the third value of three cannot be unlocked, and the first one is already under
    the new locker, where the old one cannot read it. *)
Lemma migration_not_atomic :
  exists (db db' : gmap string string) evs err, Migrate (H := mapBadger 1) DevLocker markLocker db = (db', evs, Err err) /\ db' <> db /\
    (exists v, db !! "a" = Some v /\ is_ok (Unlock DevLocker v) = true) /\
    (exists v', db' !! "a" = Some v' /\ is_ok (Unlock DevLocker v') = false).
Proof.
  exists (<["a" := "MQ=="]> (<["b" := "Mg=="]> (<["c" := "!"]> ∅))). eexists _, _, _.
  split; [vm_compute; reflexivity|]. split; [vm_compute; discriminate|].
  split; eexists; (split; [vm_compute; reflexivity|vm_compute; reflexivity]).
Qed.

(** A JSON encoding of entries. *)
Definition entry_tuple (e : StoreEntry) := (se_Key e, se_Value e, se_Version e, se_CreatedAt e, se_UpdatedAt e).
Definition demo_marshal (e : StoreEntry) : option string := Some (JwtModel.pos_string (encode (entry_tuple e))).
Definition demo_unmarshal (s : string) : option StoreEntry :=
  p ← JwtModel.string_pos s;
  t ← (decode p : option (string * string * Z * Z * Z));
  Some {| se_Key := t.1.1.1.1; se_Value := t.1.1.1.2; se_Version := t.1.1.2; se_CreatedAt := t.1.2; se_UpdatedAt := t.2 |}.

Lemma demo_json_roundtrip e s : demo_marshal e = Some s -> demo_unmarshal s = Some e.
Proof.
  intros [= <-]. unfold demo_unmarshal. rewrite JwtModel.string_pos_string. cbn [mbind option_bind].
  rewrite decode_encode. by destruct e.
Qed.

(** Two writes of a key, and a read the database refuses. *)
Definition demo_put (m : gmap string string) (now : Time) (v : string) : gmap string string * result StoreErr StoreEntry :=
  Put (H := mapBadger 10) demo_marshal demo_unmarshal markLocker m now "k" v.
Definition demo_one : gmap string string := (demo_put ∅ 5 "v").1.
Definition demo_first : StoreEntry :=
  {| se_Key := "k"; se_Value := "v"; se_Version := 1; se_CreatedAt := 5; se_UpdatedAt := 5 |}.
Definition demo_second : StoreEntry :=
  {| se_Key := "k"; se_Value := "w"; se_Version := 2; se_CreatedAt := 5; se_UpdatedAt := 9 |}.

Lemma demo_empty : represents (H := mapBadger 10) demo_unmarshal markLocker (∅ : gmap string string) ∅.
Proof. intros k. cbn. by rewrite !lookup_empty. Qed.

Lemma store_refines_witness :
  represents (H := mapBadger 10) demo_unmarshal markLocker demo_one {["k" := demo_first]} /\
  (exists m2, demo_put demo_one 9 "w" = (m2, Ok demo_second) /\
     represents (H := mapBadger 10) demo_unmarshal markLocker m2 (<["k" := demo_second]> {["k" := demo_first]})) /\
  exists e, Get (H := mapBadger 10) demo_unmarshal markLocker demo_one "" = Err (DBErr e).
Proof.
  assert (H1 : represents (H := mapBadger 10) demo_unmarshal markLocker demo_one {["k" := demo_first]}).
  { destruct (store_refines (H := mapBadger 10) demo_marshal demo_unmarshal markLocker demo_json_roundtrip
      (∅ : gmap string string) ∅ "k" "v" "" 5 demo_empty) as (_ & _ & Hput & _).
    refine (proj2 (Hput demo_one demo_first _)). vm_compute. reflexivity. }
  split; [exact H1|].
  destruct (store_refines (H := mapBadger 10) demo_marshal demo_unmarshal markLocker demo_json_roundtrip demo_one
    {["k" := demo_first]} "k" "w" "" 9 H1) as (_ & _ & Hput & _).
  split.
  - eexists. split; [vm_compute; reflexivity|]. eapply Hput. vm_compute. reflexivity.
  - destruct (store_refines (H := mapBadger 10) demo_marshal demo_unmarshal markLocker demo_json_roundtrip demo_one
      {["k" := demo_first]} "" "w" "" 9 H1) as (_ & Hg & _). apply Hg. intros [_ [Hx|[v Hx]]]; discriminate Hx.
Defined.
End Store.
