(* ===== verification/Core.v ===== *)
(** The shared types of [pkg/core/interfaces.go]: the request and response of an exchange,
    execution scopes, attestation, security events, policy input and decision, signals and
    audit events, with [ServerAttestation.AssuranceLevel]. *)
From Stdlib Require Import ZArith QArith Lia.
From stdpp Require Import base gmap strings list.
From S2P Require Import Prelude.
From S2P Require Import GoLib.

#[local] Open Scope Z_scope.
#[local] Open Scope string_scope.

(** [core.ExecutionScope] *)
Record ExecutionScope : Type := {
  Method : string;
  URI : string;
  ExecAct : string;
  InputHash : string;
  OutputHash : string;
  Target : string;
  WorkflowID : string;
  PayloadHash : string;
  Nonce : string;
}.

(** [&core.ExecutionScope{}] *)
Definition emptyScope : ExecutionScope :=
  {| Method := ""; URI := ""; ExecAct := ""; InputHash := ""; OutputHash := "";
     Target := ""; WorkflowID := ""; PayloadHash := ""; Nonce := "" |}.

(** [core.ServerAttestPlatform]; a nil metadata map is [None]. *)
Record ServerAttestPlatform : Type := {
  pf_Source : string;
  pf_CredType : string;
  pf_Metadata : option (gmap string string);
}.

(** [core.ServerAttestHardware]: only the proof's type reaches the policy. *)
Record ServerAttestHardware : Type := {
  hw_Type : string;
  hw_Quote : list Byte.byte;
  hw_PCRs : gmap Z (list Byte.byte);
  hw_Firmware : string;
  hw_Nonce : list Byte.byte;
  hw_Measurements : gmap string string;
}.

(** [core.ServerAttestWorkload] *)
Record ServerAttestWorkload : Type := {
  wl_PID : Z;
  wl_BinaryHash : string;
  wl_ImageDigest : string;
  wl_Namespace : string;
  wl_PodName : string;
  wl_NodeName : string;
  wl_Labels : gmap string string;
}.

(** [core.ServerAttestation] *)
Record ServerAttestation : Type := {
  att_Platform : ServerAttestPlatform;
  att_Hardware : list ServerAttestHardware;
  att_Workload : option ServerAttestWorkload;
  att_AgentVersion : string;
  att_Timestamp : Time;
}.

(** The method [AssuranceLevel] of a [*ServerAttestation], whose receiver may be nil. *)
Definition AssuranceLevel (a : option ServerAttestation) : string :=
  match a with
  | None => "none"
  | Some a => if (0 <? length (att_Hardware a))%nat then "hardware" else "software"
  end.

(** [core.TokenExchangeRequest] *)
Record TokenExchangeRequest : Type := {
  GrantType : string;
  SubjectToken : string;
  SubjectTokenType : string;
  Audience : string;
  Scope : string;
  ActorToken : string;
  ActorTokenType : string;
  RequestedTokenType : string;
  DPoPProof : string;
  Attestation : option ServerAttestation;
  req_ExecutionScope : option ExecutionScope;
}.

(** [core.TokenExchangeResponse] (the engine never fills [WIMSEClaims]). *)
Record TokenExchangeResponse : Type := {
  AccessToken : string;
  IssuedTokenType : string;
  TokenType : string;
  ExpiresIn : Z;
  resp_Scope : string;
  DelegationDepth : Z;
}.

(** [core.RevocationEntry] *)
Record RevocationEntry : Type := {
  re_SubjectID : string;
  re_Reason : string;
  re_RevokedAt : Time;
  re_ExpiresAt : Time;
  re_EventJTI : string;
}.

(** [core.SubjectIdentifier] *)
Record SubjectIdentifier : Type := {
  si_Format : string;
  si_SpiffeID : string;
  si_Email : string;
  si_URI : string;
}.

(** [core.SecurityEvent] *)
Record SecurityEvent : Type := {
  ev_Issuer : string;
  ev_JTI : string;
  ev_IssuedAt : Z;
  ev_Audience : string;
  ev_SubjectID : option SubjectIdentifier;
  ev_Events : gmap string (gmap string value);
  ev_TransactionID : string;
}.

(** [core.AttestationEvidence] and [core.WorkloadIdentity] *)
Record AttestationEvidence : Type := {
  ae_Method : string;
  ae_Timestamp : Time;
  ae_NodeID : string;
  ae_Namespace : string;
}.

Record WorkloadIdentity : Type := {
  wi_ID : string;
  wi_TrustDomain : string;
  wi_Attestation : option AttestationEvidence;
  wi_Claims : gmap string value;
}.

(** [core.TrustDomain], as configured *)
Record TrustDomain : Type := { ct_Name : string; ct_Enabled : bool; ct_JWKSURL : string; ct_Issuer : string }.

(** [core.PolicyInput] and [core.PolicyDecision] *)
Record PolicyInput : Type := {
  pi_Action : string;
  pi_Subject : WorkloadIdentity;
  pi_Target : string;
  pi_Context : gmap string value;
}.

Record PolicyDecision : Type := {
  Allowed : bool;
  pd_Reason : string;
  pd_Claims : gmap string value;
}.

(** [core.Signal] *)
Record Signal : Type := {
  sig_Type : string;
  sig_Source : string;
  sig_Timestamp : Time;
  sig_Payload : gmap string value;
}.

(** The reason of an audit event: a text, or the text of an error value. *)
Inductive Reason (E : Type) : Type :=
| RText (s : string)
| RErr (e : E).
Arguments RText {E} s.
Arguments RErr {E} e.

(** [core.AuditEvent]; the timestamp is filled by the auditor. *)
Record AuditEvent (E : Type) : Type := {
  au_Type : string;
  au_Action : string;
  au_Subject : string;
  au_Target : string;
  au_Decision : string;
  au_Reason : Reason E;
  au_Metadata : gmap string value;
  au_UnitID : string;
}.
Arguments au_Type {E}.
Arguments au_Action {E}.
Arguments au_Subject {E}.
Arguments au_Target {E}.
Arguments au_Decision {E}.
Arguments au_Reason {E}.
Arguments au_Metadata {E}.
Arguments au_UnitID {E}.

(** * Interfaces between components *)

(** [core.RevocationIndex] as its clients use it: any subject but the empty one can be
    revoked, and is then reported until its entry expires, whatever happens to other subjects. *)
Class RevocationIndex (I : Type) : Type := {
  ri_Revoke : Time -> string -> string -> Time -> I -> result string I;
  ri_IsRevoked : Time -> string -> I -> result string (option RevocationEntry);
  ri_revoke_hit : forall now sub reason exp idx idx' t,
      ri_Revoke now sub reason exp idx = Ok idx' -> (exp = 0 \/ t <= exp) ->
      exists e, ri_IsRevoked t sub idx' = Ok (Some e) /\ re_Reason e = reason;
  ri_revoke_frame : forall now sub sub' reason exp idx idx' t,
      ri_Revoke now sub reason exp idx = Ok idx' -> sub <> sub' ->
      ri_IsRevoked t sub' idx' = ri_IsRevoked t sub' idx;
  ri_revoke_accepts : forall now sub reason exp idx,
      sub <> "" -> exists idx', ri_Revoke now sub reason exp idx = Ok idx';
}.
