(* ===== verification/Ledger.v ===== *)
(** The ECT audit ledger of [pkg/audit/ledger.go]: an append-only, hash-chained list of
    entries indexed by JTI.

    The ledger keeps pointers: [Append] stores the caller's pointer and writes to the entry
    behind it, and [Lookup] hands the stored pointer out, so entries live in a heap shared with
    the callers. Entry hashes come from [json.Marshal] and SHA-256, which are arguments. *)
From Stdlib Require Import ZArith Lia.
From stdpp Require Import base gmap strings list.
From S2P Require Import Prelude.
From S2P Require Import GoLib.

#[local] Open Scope Z_scope.

Module Ledger.

(** [ECTLedgerEntry] *)
Record ECTLedgerEntry : Type := {
  Sequence : Z;
  JTI : string;
  PrevHash : string;
  ECTToken : string;
  Issuer : string;
  Subject : string;
  ToolID : string;
  ExecAct : string;
  WorkflowID : string;
  RecordedAt : Time;
}.

Abbreviation loc := positive (only parsing).
Abbreviation heap := (gmap positive ECTLedgerEntry) (only parsing).

(** [ECTLedger] *)
Record ECTLedger : Type := {
  entries : list loc;
  index : gmap string nat;
  lastHash : string;
  seq : Z;
}.

Inductive LedgerErr : Type :=
| DuplicateJTI (jti : string)
| HashFailed (e : string)
| NilEntry.

Inductive VerifyErr : Type :=
| SequenceGap (pos : nat) (got want : Z)
| ChainBroken (s : Z) (prev want : string)
| VerifyHashFailed (s : Z) (e : string)
| VerifyNil.

(** [NewECTLedger] *)
Definition NewECTLedger : ECTLedger :=
  {| entries := []; index := ∅; lastHash := EmptyString; seq := 0 |}.

(** The assignments [Append] makes to the entry before it is hashed. *)
Definition stamp (e : ECTLedgerEntry) (s : Z) (prev : string) (now : Time) : ECTLedgerEntry :=
  {| Sequence := s; JTI := JTI e; PrevHash := prev; ECTToken := ECTToken e;
     Issuer := Issuer e; Subject := Subject e; ToolID := ToolID e; ExecAct := ExecAct e;
     WorkflowID := WorkflowID e;
     RecordedAt := if IsZero (RecordedAt e) then now else RecordedAt e |}.

Section WithHash.
Variable json_Marshal : ECTLedgerEntry -> result string (list Byte.byte).
Variable sha256_hex : list Byte.byte -> string.

(** [hashEntry] *)
Definition hashEntry (e : ECTLedgerEntry) : result string string :=
  let? data := json_Marshal e in
  Ok (sha256_hex data).

(** [(l *ECTLedger) Append]: the new heap, the new ledger, the assigned sequence number. *)
Definition Append (now : Time) (p : loc) (h : heap) (l : ECTLedger)
    : heap * ECTLedger * result LedgerErr Z :=
  match h !! p with
  | None => (h, l, Err NilEntry)
  | Some e =>
      match index l !! JTI e with
      | Some _ => (h, l, Err (DuplicateJTI (JTI e)))
      | None =>
          let s := u64 (seq l + 1) in
          let e1 := stamp e s (lastHash l) now in
          let h1 := <[p := e1]> h in
          match hashEntry e1 with
          | Err x =>
              (h1, {| entries := entries l; index := index l; lastHash := lastHash l;
                      seq := u64 (s - 1) |}, Err (HashFailed x))
          | Ok hsh =>
              (h1, {| entries := entries l ++ [p];
                      index := <[JTI e := length (entries l)]> (index l);
                      lastHash := hsh; seq := s |}, Ok s)
          end
      end
  end.

(** [(l *ECTLedger) Lookup]: the pointer stored for a JTI. *)
Definition Lookup (jti : string) (l : ECTLedger) : option loc :=
  match index l !! jti with
  | None => None
  | Some i => entries l !! i
  end.

(** [Len] and [LastSequence] *)
Definition Len (l : ECTLedger) : nat := length (entries l).
Definition LastSequence (l : ECTLedger) : Z := seq l.

(** The loop of [Verify] from position [i] with [prevHash]. *)
Fixpoint verify_from (h : heap) (i : nat) (prevHash : string) (ps : list loc)
    : result VerifyErr unit :=
  match ps with
  | [] => Ok tt
  | p :: ps' =>
      match h !! p with
      | None => Err VerifyNil
      | Some e =>
          let want := Z.of_nat (i + 1) in
          if negb (Sequence e =? want) then Err (SequenceGap i (Sequence e) want)
          else if negb (String.eqb (PrevHash e) prevHash)
               then Err (ChainBroken (Sequence e) (PrevHash e) prevHash)
               else match hashEntry e with
                    | Err x => Err (VerifyHashFailed (Sequence e) x)
                    | Ok hsh => verify_from h (S i) hsh ps'
                    end
      end
  end.

(** [(l *ECTLedger) Verify] *)
Definition Verify (h : heap) (l : ECTLedger) : result VerifyErr unit :=
  verify_from h 0 EmptyString (entries l).

(** [(l *ECTLedger) Entries]: copies of the entries. *)
Definition Entries (h : heap) (l : ECTLedger) : list ECTLedgerEntry :=
  omap (fun p => h !! p) (entries l).

(** * Invariant *)

(** A chain of entries from position [i] after hash [prev], ending with hash [last]. *)
Inductive chain (h : heap) : nat -> string -> list loc -> string -> Prop :=
| chain_nil i prev : chain h i prev [] prev
| chain_cons i prev p ps e hsh last :
    h !! p = Some e -> Sequence e = Z.of_nat (i + 1) -> PrevHash e = prev ->
    hashEntry e = Ok hsh -> chain h (S i) hsh ps last -> chain h i prev (p :: ps) last.

Record wf (h : heap) (l : ECTLedger) : Prop := {
  wf_chain : chain h 0 EmptyString (entries l) (lastHash l);
  wf_nodup : NoDup (entries l);
  wf_seq : seq l = Z.of_nat (length (entries l));
  wf_index : forall jti i, index l !! jti = Some i <->
    exists p e, entries l !! i = Some p /\ h !! p = Some e /\ JTI e = jti;
}.

Lemma chain_verify h i prev ps last : chain h i prev ps last -> verify_from h i prev ps = Ok tt.
Proof.
  induction 1 as [|i prev p ps e hsh last Hp Hs Hv Hh _ IH]; [done|].
  cbn. rewrite Hp, Hs, Z.eqb_refl, Hv, String.eqb_refl. cbn. by rewrite Hh.
Qed.

Lemma verify_chain h i prev ps : verify_from h i prev ps = Ok tt -> exists last, chain h i prev ps last.
Proof.
  revert i prev. induction ps as [|p ps IH]; intros i prev Hv; cbn in Hv.
  { exists prev. constructor. }
  destruct (h !! p) as [e|] eqn:Hp; [|done].
  destruct (Z.eqb_spec (Sequence e) (Z.of_nat (i + 1))); cbn in Hv; [|done].
  destruct (String.eqb_spec (PrevHash e) prev); cbn in Hv; [|done].
  destruct (hashEntry e) as [hsh|] eqn:Hh; [|done].
  apply IH in Hv as [last Hc]. exists last. by econstructor.
Qed.

Lemma chain_app h i prev ps qs last :
  chain h i prev (ps ++ qs) last <->
  exists mid, chain h i prev ps mid /\ chain h (i + length ps) mid qs last.
Proof.
  revert i prev. induction ps as [|p ps IH]; intros i prev; cbn.
  - rewrite Nat.add_0_r. split; [eauto using chain_nil|].
    intros (mid & Hc & ?). by inversion Hc; subst.
  - split.
    + inversion 1; subst. edestruct IH as [(mid & ? & Hq) _]; [done|].
      exists mid. split; [by econstructor|]. by rewrite <- Nat.add_succ_comm.
    + intros (mid & Hc & Hq). inversion Hc; subst. econstructor; eauto.
      apply IH. exists mid. split; [done|]. by rewrite Nat.add_succ_comm.
Qed.

Lemma chain_frame h h' i prev ps last :
  (forall p, p ∈ ps -> h' !! p = h !! p) -> chain h i prev ps last -> chain h' i prev ps last.
Proof.
  intros Hag Hc. revert Hag. induction Hc as [|i prev p ps e hsh last Hp Hs Hv Hh Hc IH]; intros Hag.
  { constructor. }
  econstructor; eauto; [rewrite Hag; [done|left]|]. apply IH. intros q Hq. apply Hag. by right.
Qed.

Lemma chain_lookup h i prev ps last j p :
  chain h i prev ps last -> ps !! j = Some p ->
  exists e, h !! p = Some e /\ Sequence e = Z.of_nat (i + j + 1).
Proof.
  intros Hc. revert j. induction Hc as [|i prev q ps e hsh last Hp Hs _ _ _ IH]; intros j Hj; [done|].
  destruct j as [|j]; cbn in Hj; [simplify_eq; exists e; split; [done|lia]|].
  destruct (IH j Hj) as (e' & ? & ?). exists e'. split; [done|lia].
Qed.

Lemma wf_new h : wf h NewECTLedger.
Proof.
  split; cbn; [constructor|constructor|done|].
  intros jti i. rewrite lookup_empty. split; [done|]. intros (p & e & Hp & _). done.
Qed.

(** What a successful [Append] did. *)
Lemma Append_ok now p h l h' l' s :
  Append now p h l = (h', l', Ok s) ->
  exists e hsh, h !! p = Some e /\ index l !! JTI e = None /\
    let e1 := stamp e (u64 (seq l + 1)) (lastHash l) now in
    hashEntry e1 = Ok hsh /\ h' = <[p := e1]> h /\ s = u64 (seq l + 1) /\
    l' = {| entries := entries l ++ [p]; index := <[JTI e := length (entries l)]> (index l);
            lastHash := hsh; seq := u64 (seq l + 1) |}.
Proof.
  unfold Append. destruct (h !! p) as [e|]; [|done].
  destruct (index l !! JTI e) eqn:Hi; [done|].
  destruct (hashEntry _) as [hsh|] eqn:Hh; [|done]. intros [= <- <- <-].
  exists e, hsh. by rewrite Hi.
Qed.

Lemma wf_append now p h l h' l' s :
  wf h l -> p ∉ entries l -> Z.of_nat (Len l) + 1 < two64 ->
  Append now p h l = (h', l', Ok s) -> wf h' l' /\ s = seq l + 1 /\ seq l' = seq l + 1.
Proof.
  intros [Hc Hnd Hs Hix] Hfresh Hlen HA.
  destruct (Append_ok _ _ _ _ _ _ _ HA) as (e & hsh & Hp & Hj & Hh & -> & -> & ->).
  unfold Len in Hlen. assert (Hu : u64 (seq l + 1) = seq l + 1) by (apply u64_small; lia).
  rewrite Hu in *. split; [|done]. split; cbn.
  - apply chain_app. exists (lastHash l). split.
    + eapply chain_frame; [|exact Hc]. intros q Hq. apply lookup_insert_ne. set_solver.
    + econstructor; [apply lookup_insert_eq| | |exact Hh|constructor]; cbn; [lia|done].
  - apply NoDup_app. split; [done|]. split; [set_solver|apply NoDup_singleton].
  - rewrite length_app. cbn. lia.
  - intros jti i. destruct (decide (JTI e = jti)) as [<-|Hne].
    + rewrite lookup_insert_eq. split.
      * intros [= <-]. exists p, (stamp e (seq l + 1) (lastHash l) now).
        rewrite list_lookup_middle by done. by rewrite lookup_insert_eq.
      * intros (q & e' & Hq & Hq' & HJ). f_equal.
        apply lookup_app_Some in Hq as [Hq|[Hge Hq]].
        { rewrite lookup_insert_ne in Hq' by (intros ->; apply Hfresh; by eapply list_elem_of_lookup_2).
          assert (index l !! JTI e = Some i) by (apply Hix; eauto). congruence. }
        apply list_lookup_singleton_Some in Hq as [? _]. lia.
    + rewrite lookup_insert_ne by done. rewrite Hix. split.
      * intros (q & e' & Hq & Hq' & HJ). exists q, e'.
        rewrite lookup_insert_ne by (intros ->; apply Hfresh; by eapply list_elem_of_lookup_2).
        split; [by apply lookup_app_l_Some|done].
      * intros (q & e' & Hq & Hq' & HJ).
        apply lookup_app_Some in Hq as [Hq|[Hge Hq]].
        { rewrite lookup_insert_ne in Hq' by (intros ->; apply Hfresh; by eapply list_elem_of_lookup_2).
          eauto. }
        apply list_lookup_singleton_Some in Hq as [_ <-].
        rewrite lookup_insert_eq in Hq'. simplify_eq.
Qed.

(** * Reachable ledgers: callers allocate entries and append pointers not yet in the ledger. *)

Inductive reach : heap -> ECTLedger -> Prop :=
| reach_new h : reach h NewECTLedger
| reach_alloc h l p e : reach h l -> h !! p = None -> reach (<[p := e]> h) l
| reach_append now p h l h' l' r :
    reach h l -> p ∉ entries l -> Z.of_nat (Len l) + 1 < two64 ->
    Append now p h l = (h', l', r) -> reach h' l'.

Lemma wf_frame h h' l : (forall p, p ∈ entries l -> h' !! p = h !! p) -> wf h l -> wf h' l.
Proof.
  intros Hag [Hc Hnd Hs Hix]. split; [by eapply chain_frame|done|done|].
  intros jti i. rewrite Hix. split; intros (p & e & Hp & He & HJ); exists p, e;
    (split; [done|]); assert (p ∈ entries l) by (by eapply list_elem_of_lookup_2);
    rewrite Hag in * by done; done.
Qed.

Lemma wf_in_heap h l p : wf h l -> p ∈ entries l -> exists e, h !! p = Some e.
Proof.
  intros Hw [i Hi]%list_elem_of_lookup_1.
  destruct (chain_lookup _ _ _ _ _ _ _ (wf_chain _ _ Hw) Hi) as (e & He & _). eauto.
Qed.

(** A failed [Append] leaves the ledger as it was, and the heap but for the rejected entry. *)
Lemma Append_err now p h l h' l' x :
  0 <= seq l -> seq l + 1 < two64 -> Append now p h l = (h', l', Err x) ->
  l' = l /\ forall q, q <> p -> h' !! q = h !! q.
Proof.
  intros H0 H1. unfold Append. destruct (h !! p) as [e|]; [|by intros [= <- <- _]].
  destruct (index l !! JTI e); [by intros [= <- <- _]|].
  destruct (hashEntry _); [done|]. intros [= <- <- _]. split.
  - rewrite !u64_small; [|lia|rewrite u64_small; lia].
    destruct l; cbn; f_equal. lia.
  - intros q Hq. by rewrite lookup_insert_ne.
Qed.

Lemma reach_wf h l : reach h l -> wf h l.
Proof.
  induction 1 as [|h l p e _ IH Hp|now p h l h' l' r _ IH Hfr Hlen HA].
  - apply wf_new.
  - eapply wf_frame; [|exact IH]. intros q Hq. apply lookup_insert_ne. intros <-.
    destruct (wf_in_heap _ _ _ IH Hq). congruence.
  - destruct r as [s|x]; [by eapply wf_append|].
    pose proof (wf_seq _ _ IH) as Hs. unfold Len in Hlen.
    apply Append_err in HA as [-> Hag]; [|lia|lia].
    eapply wf_frame; [|exact IH]. intros q Hq. apply Hag. by intros ->.
Qed.

(** C35: in every ledger that [Append] can build, [Verify] succeeds: the sequence numbers are
    gap-free from 1, each entry's [prev_hash] is the hash of its predecessor, and
    [LastSequence] is the number of entries. *)
Theorem ledger_always_verifies h l :
  reach h l ->
  Verify h l = Ok tt /\ LastSequence l = Z.of_nat (Len l) /\
  forall i p, entries l !! i = Some p ->
    exists e, h !! p = Some e /\ Sequence e = Z.of_nat i + 1.
Proof.
  intros [Hc _ Hs _]%reach_wf. split; [by eapply chain_verify|]. split; [done|].
  intros i p Hi. destruct (chain_lookup _ _ _ _ _ _ _ Hc Hi) as (e & ? & ?).
  exists e. split; [done|lia].
Qed.

Lemma Lookup_wf h l jti p :
  wf h l -> Lookup jti l = Some p <-> exists e, p ∈ entries l /\ h !! p = Some e /\ JTI e = jti.
Proof.
  intros Hw. unfold Lookup. split.
  - destruct (index l !! jti) as [i|] eqn:Hi; [|done]. intros Hp.
    apply (wf_index _ _ Hw) in Hi as (q & e & Hq & He & HJ). simplify_eq.
    exists e. split; [by eapply list_elem_of_lookup_2|done].
  - intros (e & [i Hi]%list_elem_of_lookup_1 & He & HJ).
    assert (index l !! jti = Some i) as -> by (apply (wf_index _ _ Hw); eauto). done.
Qed.

(** What [Append] stored is what [Lookup] returns: the appended pointer under its JTI, with
    the caller's fields, the next sequence number and the previous hash; every other JTI is
    looked up as before; and a second entry with the same JTI is refused without any change. *)
Theorem ledger_append_lookup now p h l h' l' s e :
  reach h l -> p ∉ entries l -> Z.of_nat (Len l) + 1 < two64 ->
  h !! p = Some e -> Append now p h l = (h', l', Ok s) ->
  Lookup (JTI e) l' = Some p /\
  h' !! p = Some (stamp e s (lastHash l) now) /\ s = Z.of_nat (Len l) + 1 /\
  (forall jti, jti <> JTI e -> Lookup jti l' = Lookup jti l) /\
  (forall now' q e', h' !! q = Some e' -> JTI e' = JTI e ->
     Append now' q h' l' = (h', l', Err (DuplicateJTI (JTI e)))).
Proof.
  intros Hr%reach_wf Hfr Hlen Hp HA.
  destruct (wf_append _ _ _ _ _ _ _ Hr Hfr Hlen HA) as (Hw' & Hs & _).
  destruct (Append_ok _ _ _ _ _ _ _ HA) as (e0 & hsh & Hp0 & Hj & Hh & -> & Hs' & Hl').
  rewrite Hp in Hp0. simplify_eq/=. pose proof (wf_seq _ _ Hr) as Hseq. unfold Len in *.
  assert (Hix : forall jti, jti <> JTI e0 ->
    <[JTI e0:=length (entries l)]> (index l) !! jti = index l !! jti)
    by (intros; by rewrite lookup_insert_ne).
  split_and!; [|rewrite lookup_insert_eq; congruence|lia| |].
  - unfold Lookup. cbn. rewrite lookup_insert_eq. by rewrite list_lookup_middle.
  - intros jti Hne. unfold Lookup. cbn. rewrite Hix by done.
    destruct (index l !! jti) as [i|] eqn:Hi; [|done].
    apply (wf_index _ _ Hr) in Hi as (q & e' & Hq & _). rewrite Hq.
    by apply lookup_app_l_Some.
  - intros now' q e' Hq HJ. unfold Append. rewrite Hq, HJ. cbn. by rewrite lookup_insert_eq.
Qed.

(** C16: Tampering with a recorded entry is detected. If any entry but the last is replaced by
    one with a different hash, [Verify] reports an error. *)
Theorem ledger_tamper_detected h l i p e e' :
  reach h l -> entries l !! i = Some p -> h !! p = Some e ->
  (S i < Len l)%nat -> hashEntry e' <> hashEntry e ->
  Verify (<[p := e']> h) l <> Ok tt.
Proof.
  intros [Hc Hnd _ _]%reach_wf Hi Hp Hlast Hne Hv. unfold Verify, Len in *.
  apply verify_chain in Hv as [last' Hc'].
  apply lookup_lt_is_Some_2 in Hlast as [q Hq].
  rewrite <- (take_drop_middle _ _ _ Hi) in Hc, Hc', Hnd.
  apply chain_app in Hc as (mid & Hpre & Hc). apply chain_app in Hc' as (mid' & Hpre' & Hc').
  assert (Htl : drop (S i) (entries l) = q :: drop (S (S i)) (entries l)) by by apply drop_S.
  rewrite Htl in Hc, Hc', Hnd. apply NoDup_app in Hnd as (_ & Hdis & Hnd).
  inversion Hc as [|? ? ? ? ? hsh ? Hp0 _ _ Hh Hc2]; subst.
  inversion Hc' as [|? ? ? ? ? hsh' ? Hp1 _ _ Hh' Hc2']; subst.
  inversion Hc2 as [|? ? ? ? eq ? ? Hq0 _ Hprev _ _]; subst.
  inversion Hc2' as [|? ? ? ? eq' ? ? Hq1 _ Hprev' _ _]; subst.
  rewrite lookup_insert_eq in Hp1. simplify_eq.
  rewrite lookup_insert_ne in Hq1 by (intros <-; apply NoDup_cons in Hnd as [[] _]; left).
  congruence.
Qed.

(** The last entry is outside the chain's protection. Replacing it by any entry with the
    same sequence number and previous hash leaves [Verify] successful: [Verify] never compares
    the hash of the last entry with [lastHash]. *)
Theorem ledger_last_entry_unprotected h l p e e' hsh' :
  reach h l -> last (entries l) = Some p -> h !! p = Some e ->
  Sequence e' = Sequence e -> PrevHash e' = PrevHash e -> hashEntry e' = Ok hsh' ->
  Verify (<[p := e']> h) l = Ok tt.
Proof.
  intros [Hc Hnd _ _]%reach_wf [ps Heq]%last_Some Hp HS HP Hh. unfold Verify.
  rewrite Heq in *. apply chain_app in Hc as (mid & Hpre & Hc). apply NoDup_app in Hnd as (_ & Hdis & _).
  inversion Hc as [|? ? ? ? ? ? ? Hp0 Hs0 Hv0 _ _]; subst. simplify_eq.
  eapply chain_verify, chain_app. eexists. split.
  - eapply chain_frame; [|exact Hpre]. intros q Hq. apply lookup_insert_ne. intros <-.
    apply (Hdis _ Hq). by left.
  - econstructor; [apply lookup_insert_eq|by rewrite HS| by rewrite HP|exact Hh|constructor].
Qed.
End WithHash.

(** * A concrete ledger *)

Definition demo_marshal (e : ECTLedgerEntry) : result string (list Byte.byte) :=
  Ok (String.list_byte_of_string (String.append (ECTToken e) (PrevHash e))).
Definition demo_entry (jti tok : string) : ECTLedgerEntry :=
  {| Sequence := 0; JTI := jti; PrevHash := EmptyString; ECTToken := tok; Issuer := "iss"%string;
     Subject := "agent"%string; ToolID := "db"%string; ExecAct := "query"%string;
     WorkflowID := EmptyString; RecordedAt := 7 |}.
Definition demo_heap0 : heap := {[ 1%positive := demo_entry "a" "t1"; 2%positive := demo_entry "b" "t2" ]}.
Definition demo_step (p : loc) (hl : heap * ECTLedger) : heap * ECTLedger :=
  fst (Append demo_marshal String.string_of_list_byte 9 p hl.1 hl.2).
Definition demo1 : heap * ECTLedger := demo_step 1 (demo_heap0, NewECTLedger).
Definition demo2 : heap * ECTLedger := demo_step 2 demo1.

Lemma demo1_reach : reach demo_marshal String.string_of_list_byte demo1.1 demo1.2.
Proof.
  eapply (reach_append _ _ 9 1%positive demo_heap0 NewECTLedger); [apply reach_new| | |reflexivity].
  - set_solver.
  - vm_compute. done.
Qed.

Lemma demo2_reach : reach demo_marshal String.string_of_list_byte demo2.1 demo2.2.
Proof.
  eapply (reach_append _ _ 9 2%positive demo1.1 demo1.2); [apply demo1_reach| | |reflexivity].
  - vm_compute. set_solver.
  - vm_compute. done.
Qed.

Lemma ledger_always_verifies_witness :
  Verify demo_marshal String.string_of_list_byte demo2.1 demo2.2 = Ok tt.
Proof. apply (ledger_always_verifies _ _ _ _ demo2_reach). Defined.

Lemma ledger_append_lookup_witness : Lookup "b"%string demo2.2 = Some 2%positive.
Proof.
  apply (ledger_append_lookup demo_marshal String.string_of_list_byte 9 2%positive demo1.1 demo1.2
           demo2.1 demo2.2 2 (demo_entry "b" "t2") demo1_reach).
  - vm_compute. set_solver.
  - vm_compute. done.
  - vm_compute. done.
  - vm_compute. done.
Defined.

Lemma ledger_tamper_detected_witness :
  Verify demo_marshal String.string_of_list_byte (<[1%positive := demo_entry "a" "FORGED"]> demo2.1)
    demo2.2 <> Ok tt.
Proof.
  eapply (ledger_tamper_detected demo_marshal String.string_of_list_byte demo2.1 demo2.2 0 1%positive
            (stamp (demo_entry "a" "t1") 1 EmptyString 9) _ demo2_reach);
    [reflexivity|reflexivity|vm_compute; lia|vm_compute; done].
Defined.

Lemma ledger_last_entry_unprotected_witness :
  Verify demo_marshal String.string_of_list_byte
    (<[2%positive := stamp (demo_entry "b" "FORGED") 2 "t1"%string 9]> demo2.1) demo2.2 = Ok tt.
Proof.
  eapply (ledger_last_entry_unprotected demo_marshal String.string_of_list_byte demo2.1 demo2.2 2%positive
            (stamp (demo_entry "b" "t2") 2 "t1"%string 9) _ "FORGEDt1"%string demo2_reach);
    reflexivity.
Defined.
End Ledger.
