(* ===== verification/Execution.v ===== *)
(** Execution-scoped tokens of [pkg/exchange/execution.go]: the nonce tracker that refuses
    replays, validation of a requested scope, and the check a resource server makes of a
    token's execution claims. *)
From Stdlib Require Import ZArith Lia.
From stdpp Require Import base gmap strings list.
From S2P Require Import Prelude.
From S2P Require Import GoLib.
From S2P Require Import Core.

#[local] Open Scope Z_scope.
#[local] Open Scope string_scope.

Module Execution.

Definition ExecutionScopeTTL : Duration := (30 * Second)%Z.
Definition nonceHighWaterMark : nat := Z.to_nat 10000.
Definition cleanupInterval : Z := 100.

(** [nonceTracker]; every method runs under its mutex, so a method is one step. *)
Record nonceTracker : Type := {
  seen : gmap string Time;
  maxAge : Duration;
  ops : Z;
}.

Inductive ExecErr : Type :=
| ErrNonceReplay (nonce : string)
| ErrExecutionScopeInvalid (why : string).

(** [newNonceTracker] *)
Definition newNonceTracker : nonceTracker :=
  {| seen := ∅; maxAge := (ExecutionScopeTTL * 2)%Z; ops := 0%Z |}.

(** [cleanupLocked] *)
Definition cleanupLocked (now : Time) (n : nonceTracker) : nonceTracker :=
  {| seen := purge (fun ts => (maxAge n <? Sub now ts)%Z) (seen n);
     maxAge := maxAge n; ops := ops n |}.

(** [check] *)
Definition check (now : Time) (nonce : string) (n : nonceTracker)
    : nonceTracker * result ExecErr unit :=
  let n1 := {| seen := seen n; maxAge := maxAge n; ops := u64 (ops n + 1) |} in
  let n2 := if (nonceHighWaterMark <=? size (seen n1))%nat || (ops n1 mod cleanupInterval =? 0)%Z
            then cleanupLocked now n1 else n1 in
  match seen n2 !! nonce with
  | Some _ => (n2, Err (ErrNonceReplay nonce))
  | None => ({| seen := <[nonce := now]> (seen n2); maxAge := maxAge n2; ops := ops n2 |}, Ok tt)
  end.

(** [size] of the tracker *)
Definition tracker_size (n : nonceTracker) : nat := size (seen n).

(** [validateExecutionScope] *)
Definition validateExecutionScope (scope : ExecutionScope) : result ExecErr unit :=
  let? _ := reject (Method scope =? "")%string
              (ErrExecutionScopeInvalid "htm (method) is required") in
  let? _ := reject (URI scope =? "")%string
              (ErrExecutionScopeInvalid "htu (URI) is required") in
  reject (Nonce scope =? "")%string (ErrExecutionScopeInvalid "nonce is required").

(** The payload hash a scope declares: [InputHash], or the deprecated [PayloadHash]. *)
Definition scopeHash (scope : ExecutionScope) : string :=
  if (InputHash scope =? "")%string then PayloadHash scope else InputHash scope.

Section Verify.
Context `{!JwtLib}.

(** [VerifyExecutionScope] *)
Definition VerifyExecutionScope (token : jwt_token) (scope : ExecutionScope) : result ExecErr unit :=
  match get_string token "htm" with
  | None => Err (ErrExecutionScopeInvalid "token missing htm claim")
  | Some htm =>
      if negb (htm =? Method scope)%string then Err (ErrExecutionScopeInvalid "htm mismatch") else
      match get_string token "htu" with
      | None => Err (ErrExecutionScopeInvalid "token missing htu claim")
      | Some htu =>
          if negb (htu =? URI scope)%string then Err (ErrExecutionScopeInvalid "htu mismatch") else
          let wantHash := scopeHash scope in
          if str_nonempty wantHash then
            match (match get_string token "inp_hash" with
                   | Some h => Some h
                   | None => get_string token "payload_hash"
                   end) with
            | None => Err (ErrExecutionScopeInvalid "token missing inp_hash claim")
            | Some tokenHash =>
                if negb (tokenHash =? wantHash)%string
                then Err (ErrExecutionScopeInvalid "inp_hash mismatch") else Ok tt
            end
          else Ok tt
      end
  end.

(** The token carries this hash, under the current or the legacy claim name. *)
Definition token_hash (token : jwt_token) : option string :=
  match get_string token "inp_hash" with
  | Some h => Some h
  | None => get_string token "payload_hash"
  end.

Lemma VerifyExecutionScope_ok token scope :
  VerifyExecutionScope token scope = Ok tt <->
  get_string token "htm" = Some (Method scope) /\
  get_string token "htu" = Some (URI scope) /\
  (scopeHash scope <> "" -> token_hash token = Some (scopeHash scope)).
Proof.
  unfold VerifyExecutionScope, token_hash.
  destruct (get_string token "htm") as [htm|]; [|naive_solver].
  destruct (String.eqb_spec htm (Method scope)); cbn; [|naive_solver].
  destruct (get_string token "htu") as [htu|]; [|naive_solver].
  destruct (String.eqb_spec htu (URI scope)); cbn; [|naive_solver].
  destruct (str_nonempty (scopeHash scope)) eqn:Hn.
  - apply str_nonempty_true in Hn.
    destruct (match get_string token "inp_hash" with Some h => Some h | None => _ end) as [h|];
      [|naive_solver].
    destruct (String.eqb_spec h (scopeHash scope)); cbn; naive_solver.
  - apply str_nonempty_false in Hn. naive_solver.
Qed.

(** A resource server accepts a token for an action exactly when the token's method and URI
    claims are those of the action and, if the action declares a payload hash, the token carries
    the same one. *)
Theorem VerifyExecutionScope_iff token scope :
  VerifyExecutionScope token scope = Ok tt <->
  get_string token "htm" = Some (Method scope) /\
  get_string token "htu" = Some (URI scope) /\
  (scopeHash scope <> "" -> token_hash token = Some (scopeHash scope)).
Proof. apply VerifyExecutionScope_ok. Qed.
End Verify.

Lemma validateExecutionScope_ok scope :
  validateExecutionScope scope = Ok tt <->
  Method scope <> "" /\ URI scope <> "" /\ Nonce scope <> "".
Proof.
  unfold validateExecutionScope.
  destruct (String.eqb_spec (Method scope) ""), (String.eqb_spec (URI scope) ""),
    (String.eqb_spec (Nonce scope) ""); cbn; naive_solver.
Qed.

(** A run of the tracker on timed requests. *)
Fixpoint run (evs : list (Time * string)) (n : nonceTracker) : nonceTracker :=
  match evs with
  | [] => n
  | (t, x) :: evs' => run evs' (fst (check t x n))
  end.

Lemma check_maxAge t x n : maxAge (fst (check t x n)) = maxAge n.
Proof.
  unfold check. cbn. destruct (_ || _); cbn; case_match; done.
Qed.

(** A nonce still within its age is kept by every [check], whichever nonce it is about. *)
Lemma check_keeps t x n nonce ts :
  seen n !! nonce = Some ts -> (t - ts <= maxAge n)%Z -> (minDuration <= maxAge n)%Z ->
  seen (fst (check t x n)) !! nonce = Some ts.
Proof.
  intros Hs Hage Hmin. unfold check. cbn.
  assert (Hp : purge (fun ts => (maxAge n <? Sub t ts)%Z) (seen n) !! nonce = Some ts).
  { apply lookup_purge. split; [done|]. unfold Sub. lia. }
  destruct (_ || _); cbn; case_match; cbn; try done;
    rewrite lookup_insert_ne; try done; intros ->; congruence.
Qed.

Lemma run_keeps evs n nonce ts t2 :
  seen n !! nonce = Some ts -> (t2 - ts <= maxAge n)%Z -> (minDuration <= maxAge n)%Z ->
  Forall (fun ev => (ev.1 <= t2)%Z) evs ->
  seen (run evs n) !! nonce = Some ts /\ maxAge (run evs n) = maxAge n.
Proof.
  intros Hs Hage Hmin Hf. revert n Hs Hage Hmin. induction Hf as [|[t x] evs Ht _ IH];
    intros n Hs Hage Hmin; [done|].
  cbn in *. destruct (IH (fst (check t x n))) as [H1 H2]; rewrite ?check_maxAge; try done.
  { apply check_keeps; [done|lia|done]. }
  by rewrite H1, H2, check_maxAge.
Qed.

Lemma check_seen_rejects t x n ts :
  seen n !! x = Some ts -> (t - ts <= maxAge n)%Z -> (minDuration <= maxAge n)%Z ->
  snd (check t x n) = Err (ErrNonceReplay x).
Proof.
  intros Hs Hage Hmin. unfold check. cbn.
  assert (Hp : purge (fun ts => (maxAge n <? Sub t ts)%Z) (seen n) !! x = Some ts).
  { apply lookup_purge. split; [done|]. unfold Sub. lia. }
  destruct (_ || _); cbn; by rewrite ?Hp, ?Hs.
Qed.

Lemma check_ok_seen t x n n' : check t x n = (n', Ok tt) -> seen n' !! x = Some t.
Proof.
  unfold check. cbn. destruct (_ || _); cbn; case_match; intros [= <-]; cbn;
    by rewrite lookup_insert_eq.
Qed.

(** No replay within the window. Once a nonce was accepted at [t1], every later [check] of it
    up to [maxAge] afterwards is refused, whatever other nonces were checked in between and
    whether or not an opportunistic cleanup ran. *)
Theorem nonce_no_replay n n1 nonce t1 t2 evs :
  maxAge n = (ExecutionScopeTTL * 2)%Z ->
  check t1 nonce n = (n1, Ok tt) ->
  Forall (fun ev => (ev.1 <= t2)%Z) evs ->
  (t2 - t1 <= ExecutionScopeTTL * 2)%Z ->
  snd (check t2 nonce (run evs n1)) = Err (ErrNonceReplay nonce).
Proof.
  intros Hm Hc Hf Ht. assert (Hm1 : maxAge n1 = (ExecutionScopeTTL * 2)%Z).
  { rewrite <- Hm, <- (check_maxAge t1 nonce n). by rewrite Hc. }
  assert (Hmin : (minDuration <= maxAge n1)%Z) by (rewrite Hm1; done).
  apply check_ok_seen in Hc.
  destruct (run_keeps evs n1 nonce t1 t2) as [Hs Hmm]; [done|lia|done|done|].
  eapply check_seen_rejects; [done|lia|by rewrite Hmm].
Qed.

Lemma nonce_no_replay_witness :
  snd (check (50 * Second) "n1" (run [(40 * Second, "n2")%Z] (fst (check 0 "n1" newNonceTracker))))
  = Err (ErrNonceReplay "n1").
Proof.
  eapply (nonce_no_replay newNonceTracker (fst (check 0 "n1" newNonceTracker)) "n1" 0);
    [reflexivity|reflexivity|repeat constructor; done|done].
Defined.

(** The window does not follow the configured token lifetime. [maxAge] is fixed at twice the
    30 s constant, so a nonce accepted at [t1] is accepted again as soon as a cleanup runs more
    than 60 s later (every 100th call), even when [WithExecutionScopeTTL] gave the token minted
    for it a longer life. *)
Theorem nonce_reaccepted_after_cleanup n n1 nonce t1 t2 :
  maxAge n = (ExecutionScopeTTL * 2)%Z ->
  check t1 nonce n = (n1, Ok tt) ->
  (t2 - t1 > ExecutionScopeTTL * 2)%Z ->
  (u64 (ops n1 + 1) mod cleanupInterval = 0)%Z ->
  snd (check t2 nonce n1) = Ok tt.
Proof.
  intros Hm Hc Ht Hops. assert (Hm1 : maxAge n1 = (ExecutionScopeTTL * 2)%Z).
  { rewrite <- Hm, <- (check_maxAge t1 nonce n). by rewrite Hc. }
  apply check_ok_seen in Hc. unfold check. cbn. rewrite Hops, Z.eqb_refl, orb_true_r. cbn.
  case_match eqn:E; [|done]. apply lookup_purge in E as [E1 E2]. simplify_eq.
  rewrite Hm1 in E2. unfold Sub, ExecutionScopeTTL, Second, minDuration, maxDuration in *. lia.
Qed.

Definition tracker98 : nonceTracker :=
  {| seen := ∅; maxAge := (ExecutionScopeTTL * 2)%Z; ops := 98%Z |}.

Lemma nonce_reaccepted_after_cleanup_witness :
  snd (check (61 * Second) "n1" (fst (check 0 "n1" tracker98))) = Ok tt.
Proof.
  eapply (nonce_reaccepted_after_cleanup tracker98 (fst (check 0 "n1" tracker98)) "n1" 0);
    [reflexivity|reflexivity|done|vm_compute; done].
Defined.
End Execution.
