(* ===== verification/Keyring.v ===== *)
(** The signing keyring of [pkg/exchange/keyring.go]: several keys, one of them active, with
    the operations the rotation workflow uses. *)
From Stdlib Require Import ZArith Lia.
From stdpp Require Import base gmap strings list.
From S2P Require Import Prelude.
From S2P Require Import GoLib.
From S2P Require Import JwtModel.

#[local] Open Scope Z_scope.
#[local] Open Scope string_scope.

Module Keyring.
Section Ops.
Context `{!JwtLib}.

(** [Keyring]: every method runs under its lock, so a method is one step. *)
Record Keyring : Type := {
  activeKid : string;
  keys : gmap string jwk_key;
}.

Inductive KeyringErr : Type :=
| InitialKeyNeedsKid
| ImportingPrivateKey
| SettingKid
| SettingAlg
| SettingUse
| KeyNotFound (kid : string)
| CannotRemoveActive (kid : string)
| ExtractingPublicKey
| AddingKeyToSet.

Definition opt_err {A} (o : option A) (e : KeyringErr) : result KeyringErr A :=
  match o with Some a => Ok a | None => Err e end.

(** [NewKeyring] *)
Definition NewKeyring (initialKey : jwk_key) : result KeyringErr Keyring :=
  match jwk_KeyID initialKey with
  | Some kid =>
      if (kid =? "")%string then Err InitialKeyNeedsKid
      else Ok {| activeKid := kid; keys := {[ kid := initialKey ]} |}
  | None => Err InitialKeyNeedsKid
  end.

(** [ActiveKid], [ActiveKey] (a missing map key reads as nil), [Len] *)
Definition ActiveKid (kr : Keyring) : string := activeKid kr.
Definition ActiveKey (kr : Keyring) : option jwk_key := keys kr !! activeKid kr.
Definition Len (kr : Keyring) : nat := size (keys kr).

(** [AddKey] *)
Definition AddKey (kid : string) (privateKey : crypto_Signer) (kr : Keyring)
    : result KeyringErr Keyring :=
  let? key0 := opt_err (jwk_Import privateKey) ImportingPrivateKey in
  let? key1 := opt_err (jwk_Set key0 "kid" kid) SettingKid in
  let? key2 := opt_err (jwk_Set key1 "alg" "RS256") SettingAlg in
  let? key := opt_err (jwk_Set key2 "use" "sig") SettingUse in
  Ok {| activeKid := activeKid kr; keys := <[kid := key]> (keys kr) |}.

(** [ActivateKey] *)
Definition ActivateKey (kid : string) (kr : Keyring) : result KeyringErr Keyring :=
  match keys kr !! kid with
  | None => Err (KeyNotFound kid)
  | Some _ => Ok {| activeKid := kid; keys := keys kr |}
  end.

(** [RemoveKey] *)
Definition RemoveKey (kid : string) (kr : Keyring) : result KeyringErr Keyring :=
  if (kid =? activeKid kr)%string then Err (CannotRemoveActive kid)
  else Ok {| activeKid := activeKid kr; keys := delete kid (keys kr) |}.

(** The loop of [PublicKeySet] over the keys in iteration order. *)
Fixpoint add_public (ks : list (string * jwk_key)) (set : list jwk_key)
    : result KeyringErr (list jwk_key) :=
  match ks with
  | [] => Ok set
  | (_, key) :: ks' =>
      let? pub := opt_err (jwk_PublicKey key) ExtractingPublicKey in
      let? set' := opt_err (jwkset_AddKey set pub) AddingKeyToSet in
      add_public ks' set'
  end.

(** [PublicKeySet] *)
Definition PublicKeySet `{!RangeOrder} (kr : Keyring) : result KeyringErr (list jwk_key) :=
  add_public (range (keys kr)) [].

(** * Operation sequences *)

Inductive Op : Type :=
| OpAdd (kid : string) (k : crypto_Signer)
| OpActivate (kid : string)
| OpRemove (kid : string).

Definition apply_op (o : Op) (kr : Keyring) : result KeyringErr Keyring :=
  match o with
  | OpAdd kid k => AddKey kid k kr
  | OpActivate kid => ActivateKey kid kr
  | OpRemove kid => RemoveKey kid kr
  end.

(** An operation that returns an error leaves the keyring as it was. *)
Definition step_op (o : Op) (kr : Keyring) : Keyring :=
  match apply_op o kr with Ok kr' => kr' | Err _ => kr end.

Definition run_ops (os : list Op) (kr : Keyring) : Keyring := foldl (fun kr o => step_op o kr) kr os.

Definition wf (kr : Keyring) : Prop := is_Some (ActiveKey kr).

Lemma step_op_wf o kr : wf kr -> wf (step_op o kr).
Proof.
  unfold wf, ActiveKey, step_op. intros Ha. destruct o as [kid k|kid|kid]; cbn.
  - destruct (AddKey kid k kr) as [kr'|] eqn:E; [|done]. unfold AddKey in E. inv_ok. cbn.
    rewrite lookup_insert. case_decide; eauto.
  - unfold ActivateKey. destruct (keys kr !! kid) eqn:E; cbn; [by rewrite E|done].
  - unfold RemoveKey. destruct (String.eqb_spec kid (activeKid kr)); [done|]. cbn.
    by rewrite lookup_delete_ne.
Qed.

Lemma NewKeyring_wf k kr : NewKeyring k = Ok kr -> wf kr.
Proof.
  unfold NewKeyring, wf, ActiveKey. destruct (jwk_KeyID k); [|done].
  case_match; [done|]. intros [= <-]. cbn. by rewrite lookup_singleton_eq.
Qed.

Lemma run_ops_wf os kr : wf kr -> wf (run_ops os kr).
Proof. revert kr. induction os as [|o os IH]; intros kr Hw; [done|]. cbn. by apply IH, step_op_wf. Qed.

Lemma add_public_in `{!JwtLaws} ks set set' :
  add_public ks set = Ok set' ->
  forall pk, pk ∈ set' <-> pk ∈ set \/ exists kid k, (kid, k) ∈ ks /\ jwk_PublicKey k = Some pk.
Proof.
  revert set. induction ks as [|[kid k] ks IH]; intros set Hadd; cbn in Hadd.
  { inv_ok. intros pk. set_solver. }
  destruct (jwk_PublicKey k) as [pub|] eqn:Hp; [|done]. cbn in Hadd.
  destruct (jwkset_AddKey set pub) as [set1|] eqn:Hs; [|done]. cbn in Hadd.
  apply jwkset_add in Hs as ->. intros pk. rewrite (IH _ Hadd). set_solver.
Qed.

Lemma PublicKeySet_spec `{!JwtLaws, !RangeOrder} kr set :
  PublicKeySet kr = Ok set ->
  forall pk, pk ∈ set <-> exists kid k, keys kr !! kid = Some k /\ jwk_PublicKey k = Some pk.
Proof.
  intros Hs pk. rewrite (add_public_in _ _ _ Hs). setoid_rewrite elem_of_range. set_solver.
Qed.

Lemma add_public_all ks set set' kid k :
  add_public ks set = Ok set' -> (kid, k) ∈ ks -> is_Some (jwk_PublicKey k).
Proof.
  revert set. induction ks as [|[kid' k'] ks IH]; intros set Hadd Hin; cbn in Hadd; [set_solver|].
  destruct (jwk_PublicKey k') as [pub|] eqn:Hp; [|done]. cbn in Hadd.
  destruct (jwkset_AddKey set pub) as [set1|]; [|done]. cbn in Hadd.
  apply elem_of_cons in Hin as [[= -> ->]|Hin]; [by rewrite Hp|eauto].
Qed.

(** A served key set has the public part of every key of the ring. *)
Lemma PublicKeySet_member `{!JwtLaws, !RangeOrder} kr set kid k :
  PublicKeySet kr = Ok set -> keys kr !! kid = Some k ->
  exists pk, jwk_PublicKey k = Some pk /\ pk ∈ set.
Proof.
  intros Hs Hk. destruct (add_public_all _ _ _ kid k Hs) as [pk Hp]; [by apply elem_of_range|].
  exists pk. split; [done|]. rewrite (PublicKeySet_spec _ _ Hs). eauto.
Qed.

(** The keyring always has a signing key. From a freshly created keyring, after any sequence
    of [AddKey], [ActivateKey] and [RemoveKey] calls (failed ones included), [ActiveKey] is not
    nil and, whenever [PublicKeySet] succeeds, the public part of the active key is in it. *)
Theorem keyring_active_key_present `{!JwtLaws, !RangeOrder} k0 kr0 os :
  NewKeyring k0 = Ok kr0 ->
  exists k, ActiveKey (run_ops os kr0) = Some k /\
    forall set pk, PublicKeySet (run_ops os kr0) = Ok set -> jwk_PublicKey k = Some pk -> pk ∈ set.
Proof.
  intros Hn%NewKeyring_wf. destruct (run_ops_wf os kr0 Hn) as [k Hk].
  exists k. split; [done|]. intros set pk Hs Hp. rewrite (PublicKeySet_spec _ _ Hs). eauto.
Qed.

(** Keys other than the one an operation names are untouched by it. *)
Lemma step_op_keeps o kr kid k :
  keys kr !! kid = Some k ->
  (match o with OpAdd kid' _ | OpRemove kid' => kid' <> kid | OpActivate _ => True end) ->
  keys (step_op o kr) !! kid = Some k.
Proof.
  intros Hk Ho. unfold step_op. destruct o as [kid' k'|kid'|kid']; cbn.
  - destruct (AddKey kid' k' kr) as [kr'|] eqn:E; [|done]. unfold AddKey in E. inv_ok. cbn.
    by rewrite lookup_insert_ne.
  - unfold ActivateKey. by destruct (keys kr !! kid').
  - unfold RemoveKey. destruct (_ =? _)%string; [done|]. cbn. by rewrite lookup_delete_ne.
Qed.

Lemma run_ops_keeps os kr kid k :
  keys kr !! kid = Some k ->
  Forall (fun o => match o with OpAdd kid' _ | OpRemove kid' => kid' <> kid | OpActivate _ => True end) os ->
  keys (run_ops os kr) !! kid = Some k.
Proof.
  intros Hk Hf. revert kr Hk. induction Hf as [|o os Ho _ IH]; intros kr Hk; [done|].
  cbn. apply IH. by apply step_op_keeps.
Qed.

(** C17: Rotation keeps old tokens verifiable. A token signed with the key active at some moment
    still parses under the served [PublicKeySet] after any keyring operations that neither remove
    nor replace that key, as long as the token has not expired. *)
Theorem keyring_rotation_verifies `{!JwtLaws, !RangeOrder} kr os k pk tok s set now iat exp :
  ActiveKey kr = Some k -> jwk_PublicKey k = Some pk -> jwt_Sign k tok = Some s ->
  Forall (fun o => match o with OpAdd kid _ | OpRemove kid => kid <> activeKid kr
                           | OpActivate _ => True end) os ->
  PublicKeySet (run_ops os kr) = Ok set ->
  jwt_IssuedAt tok = Some iat -> jwt_Expiration tok = Some exp ->
  iat <= now -> now + Second <= exp ->
  exists tok', jwt_Parse set now s = Some tok' /\ jwt_Subject tok' = jwt_Subject tok.
Proof.
  intros Ha Hp Hs Hf Hset Hi He Hn1 Hn2.
  assert (Hin : pk ∈ set).
  { rewrite (PublicKeySet_spec _ _ Hset). exists (activeKid kr), k. split; [|done].
    by apply run_ops_keeps. }
  destruct (jwt_parse_sign k pk tok s set now iat exp Hs Hp Hin Hi He Hn1 Hn2) as (t' & ? & ? & _).
  eauto.
Qed.
End Ops.

(** * A concrete rotation *)

#[local] Existing Instance JwtModel.lib.
#[local] Existing Instance JwtModel.laws.
#[local] Existing Instance key_order.
Definition demo_k1 : @jwk_key JwtModel.lib := "k1".
Definition demo_pk1 : @jwk_key JwtModel.lib := "pub:k1".
Definition demo_pk2 : @jwk_key JwtModel.lib := "pub:k2".
Definition demo_kr : Keyring := {| activeKid := "k1"; keys := {[ "k1" := "k1" ]} |}.
Definition demo_rotation : list Op :=
  [OpAdd "k2" "k2"; OpActivate "k2"; OpRemove "k2"; OpActivate "k9"].
Definition demo_tok : jwt_token := ("agent", "starfly", ["aud"], 0%Z, (300 * Second)%Z, []).

Lemma keyring_active_key_present_witness :
  exists k, ActiveKey (run_ops demo_rotation demo_kr) = Some k /\
    forall set pk, PublicKeySet (run_ops demo_rotation demo_kr) = Ok set ->
      jwk_PublicKey k = Some pk -> pk ∈ set.
Proof. apply (keyring_active_key_present demo_k1 demo_kr demo_rotation). reflexivity. Defined.

Lemma keyring_rotation_verifies_witness :
  exists tok', jwt_Parse [demo_pk1; demo_pk2] (10 * Second) (JwtModel.encode_signed "pub:k1" demo_tok)
    = Some tok' /\ jwt_Subject tok' = jwt_Subject demo_tok.
Proof.
  eapply (keyring_rotation_verifies demo_kr demo_rotation demo_k1 demo_pk1 demo_tok _ _ _ 0 (300 * Second));
    try reflexivity; [repeat constructor; done|done|done].
Defined.
End Keyring.
