(* ===== verification/Delegation.v ===== *)
(** On-behalf-of delegation of [pkg/exchange/delegation.go]: the context read from an actor
    token, the chain rules, the blast-radius hierarchy, and chains of delegations. *)
From Stdlib Require Import ZArith QArith Lia Ascii.
From stdpp Require Import base gmap strings list.
From S2P Require Import Prelude.
From S2P Require Import GoLib.
From S2P Require Import Core.

#[local] Open Scope Z_scope.
#[local] Open Scope string_scope.

Module Delegation.

(** [delegationContext] *)
Record delegationContext : Type := {
  ParentSubject : string;
  Depth : Z;
  Caps : list string;
  BlastRadius : string;
  OBOChain : list value;
}.

Inductive DelegErr : Type :=
| MissingSubject
| DepthExhausted
| CapNotInParent (c : string) (parent : list string)
| BlastRadiusExceeds (requested parent : string).

(** [parseDelegationContext] *)
Definition parseDelegationContext `{!JwtLib} (actor : jwt_token) : result DelegErr delegationContext :=
  match jwt_Subject actor with
  | None => Err MissingSubject
  | Some sub =>
      if (sub =? "")%string then Err MissingSubject else
      Ok {| ParentSubject := sub;
            Depth := match get_float actor "delegation_depth" with
                     | Some depth => trunc depth
                     | None => (-1)%Z
                     end;
            Caps := match get_array actor "caps" with
                    | Some caps => strings_of caps
                    | None => []
                    end;
            BlastRadius := match get_string actor "blast_radius" with Some br => br | None => "" end;
            OBOChain := match get_array actor "obo" with Some obo => obo | None => [] end |}
  end.

(** [blastRadiusLevels] *)
Definition blastRadiusLevels : gmap string Z :=
  {[ "function" := 0%Z; "service" := 1%Z; "namespace" := 2%Z; "cluster" := 3%Z;
     "workspace" := 3%Z; "trust_domain" := 4%Z; "fabric" := 5%Z ]}.

(** [parseBlastRadiusLevel] *)
Definition parseBlastRadiusLevel (br : string) : option Z :=
  match cut_at ":" br with
  | Some (prefix, _) => blastRadiusLevels !! prefix
  | None => blastRadiusLevels !! br
  end.

(** [isBlastRadiusNarrowerOrEqual] *)
Definition isBlastRadiusNarrowerOrEqual (child parent : string) : bool :=
  match parseBlastRadiusLevel child, parseBlastRadiusLevel parent with
  | Some childLevel, Some parentLevel => (childLevel <=? parentLevel)%Z
  | _, _ => (child =? parent)%string
  end.

(** The first requested capability the parent does not have. *)
Definition firstForeignCap (parent requested : list string) : option string :=
  List.find (fun c => negb (str_mem c parent)) requested.

(** [validateDelegation] *)
Definition validateDelegation (dc : delegationContext) (requestedCaps : list string)
    (requestedBlastRadius : string) : result DelegErr unit :=
  let? _ := reject (Depth dc =? 0)%Z DepthExhausted in
  let? _ :=
    match Caps dc, requestedCaps with
    | _ :: _, _ :: _ =>
        match firstForeignCap (Caps dc) requestedCaps with
        | Some c => Err (CapNotInParent c (Caps dc))
        | None => Ok tt
        end
    | _, _ => Ok tt
    end in
  if str_nonempty (BlastRadius dc) && str_nonempty requestedBlastRadius then
    reject (negb (isBlastRadiusNarrowerOrEqual requestedBlastRadius (BlastRadius dc)))
      (BlastRadiusExceeds requestedBlastRadius (BlastRadius dc))
  else Ok tt.

(** [buildOBOChain] *)
Definition buildOBOChain (dc : delegationContext) : list value :=
  (OBOChain dc ++ [VStr (ParentSubject dc)])%list.

(** The depth the engine puts in the delegated token (engine.go, step 6). *)
Definition newDepth (dc : delegationContext) : Z :=
  if (Depth dc <? 0)%Z then (-1)%Z else (Depth dc - 1)%Z.

(** * The rules as a specification *)

Lemma firstForeignCap_None parent requested :
  firstForeignCap parent requested = None <-> requested ⊆ parent.
Proof.
  unfold firstForeignCap. induction requested as [|c l IH]; cbn; [set_solver|].
  destruct (str_mem c parent) eqn:E; cbn.
  - apply str_mem_true in E. rewrite IH. set_solver.
  - split; [done|]. intros Hs. assert (c ∈ parent) by set_solver.
    by apply str_mem_true in H; rewrite H in E.
Qed.

Lemma firstForeignCap_Some parent requested c :
  firstForeignCap parent requested = Some c -> c ∈ requested /\ c ∉ parent.
Proof.
  intros H. apply find_some in H as [Hin Hn%negb_true_iff]. split; [by apply list_elem_of_In|].
  intros Hp%str_mem_true. congruence.
Qed.

Lemma validateDelegation_ok dc caps br :
  validateDelegation dc caps br = Ok tt <->
  Depth dc <> 0%Z /\
  (Caps dc = [] \/ caps ⊆ Caps dc) /\
  (BlastRadius dc = "" \/ br = "" \/ isBlastRadiusNarrowerOrEqual br (BlastRadius dc) = true).
Proof.
  unfold validateDelegation. destruct (Z.eqb_spec (Depth dc) 0); cbn; [naive_solver|].
  assert (Hc : (match Caps dc, caps with
    | _ :: _, _ :: _ => match firstForeignCap (Caps dc) caps with
        | Some c => Err (CapNotInParent c (Caps dc)) | None => Ok tt end
    | _, _ => Ok tt end = Ok tt) <-> (Caps dc = [] \/ caps ⊆ Caps dc)).
  { destruct (Caps dc) as [|p ps]; [naive_solver|]. destruct caps as [|c cs].
    - split; [right; set_solver|done].
    - destruct (firstForeignCap (p :: ps) (c :: cs)) eqn:E.
      + split; [done|]. intros [?|Hs]; [done|]. apply firstForeignCap_None in Hs. congruence.
      + apply firstForeignCap_None in E. naive_solver. }
  rewrite rbind_ok. setoid_rewrite <- Hc.
  assert (Hb : (if str_nonempty (BlastRadius dc) && str_nonempty br
    then reject (negb (isBlastRadiusNarrowerOrEqual br (BlastRadius dc)))
           (BlastRadiusExceeds br (BlastRadius dc)) else Ok tt) = Ok tt <->
    (BlastRadius dc = "" \/ br = "" \/ isBlastRadiusNarrowerOrEqual br (BlastRadius dc) = true)).
  { destruct (str_nonempty (BlastRadius dc)) eqn:E1; cbn;
      [apply str_nonempty_true in E1|apply str_nonempty_false in E1; naive_solver].
    destruct (str_nonempty br) eqn:E2; cbn;
      [apply str_nonempty_true in E2|apply str_nonempty_false in E2; naive_solver].
    rewrite reject_ok, negb_false_iff. naive_solver. }
  rewrite <- Hb. split; [intros ([] & ? & ?); done|]. intros (_ & ? & ?). by exists tt.
Qed.

(** The three checked delegation rules. A delegation is allowed exactly when the parent's depth
    is not exhausted, the requested capabilities are among the parent's (when both sides name
    some), and the requested blast radius is at the parent's level or narrower (when both sides
    name one). *)
Theorem validateDelegation_iff dc caps br :
  validateDelegation dc caps br = Ok tt <->
  Depth dc <> 0%Z /\
  (Caps dc = [] \/ caps ⊆ Caps dc) /\
  (BlastRadius dc = "" \/ br = "" \/ isBlastRadiusNarrowerOrEqual br (BlastRadius dc) = true).
Proof. apply validateDelegation_ok. Qed.

(** The blast-radius comparison is a preorder, so narrowing composes along a chain. *)
#[global] Instance narrower_refl : Reflexive (fun c p => isBlastRadiusNarrowerOrEqual c p = true).
Proof.
  intros br. unfold isBlastRadiusNarrowerOrEqual.
  destruct (parseBlastRadiusLevel br); [apply Z.leb_refl|apply String.eqb_refl].
Qed.

#[global] Instance narrower_trans : Transitive (fun c p => isBlastRadiusNarrowerOrEqual c p = true).
Proof.
  intros a b c. unfold isBlastRadiusNarrowerOrEqual.
  destruct (parseBlastRadiusLevel a) eqn:Ea, (parseBlastRadiusLevel b) eqn:Eb,
    (parseBlastRadiusLevel c) eqn:Ec; rewrite ?String.eqb_eq, ?Z.leb_le; try lia; congruence.
Qed.

(** * Chains *)

(** How far a radius reaches, from a single function to the whole fabric; a workspace is as wide as a cluster. *)
Inductive reach : string -> nat -> Prop :=
| reach_function : reach "function" 0
| reach_service : reach "service" 1
| reach_namespace : reach "namespace" 2
| reach_cluster : reach "cluster" 3
| reach_workspace : reach "workspace" 3
| reach_trust_domain : reach "trust_domain" 4
| reach_fabric : reach "fabric" 5.

(** A radius is a scope, alone or with the member of it that is meant. *)
Definition of_scope (radius scope : string) : Prop :=
  radius = scope \/ exists member, radius = scope +:+ String ":" member.

(** A radius no wider than another: the same, or one whose scope reaches no further. *)
Definition no_wider (child parent : string) : Prop :=
  child = parent \/
  exists c p i j, of_scope child c /\ of_scope parent p /\ reach c i /\ reach p j /\ (i <= j)%nat.

(** What a token says about delegation: the subject, the hops it has left (a negative number: any), the
    capabilities and the radius it was given, and those on whose behalf its subject acts. *)
Record context_of `{!JwtLib} (tok : jwt_token) (dc : delegationContext) : Prop := {
  cx_subject : jwt_Subject tok = Some (ParentSubject dc) /\ ParentSubject dc <> "";
  cx_depth : forall d, get_float tok "delegation_depth" = Some d -> Depth dc = trunc d;
  cx_unlimited : get_float tok "delegation_depth" = None -> Depth dc = (-1)%Z;
  cx_caps : Caps dc = strings_of (default [] (get_array tok "caps"));
  cx_radius : BlastRadius dc = default "" (get_string tok "blast_radius");
  cx_obo : OBOChain dc = default [] (get_array tok "obo");
}.

(** One hop, from the context of the delegator to that of the delegate: the delegator has a hop left and the
    delegate one fewer (a delegator without a limit gives none), the delegate's capabilities are
    among the delegator's when that names some, its radius is no wider when both name one, and the
    delegator is appended to those on whose behalf it acts. *)
Record hop (dc dc' : delegationContext) : Prop := {
  hp_left : Depth dc <> 0%Z;
  hp_limited : (0 < Depth dc)%Z -> Depth dc' = (Depth dc - 1)%Z;
  hp_unlimited : (Depth dc < 0)%Z -> Depth dc' = (-1)%Z;
  hp_caps : Caps dc = [] \/ Caps dc' ⊆ Caps dc;
  hp_radius : BlastRadius dc = "" \/ BlastRadius dc' = "" \/ no_wider (BlastRadius dc') (BlastRadius dc);
  hp_obo : OBOChain dc' = (OBOChain dc ++ [VStr (ParentSubject dc)])%list;
}.

Lemma level_reach br i : parseBlastRadiusLevel br = Some i ->
  exists scope, of_scope br scope /\ reach scope (Z.to_nat i) /\ (0 <= i)%Z.
Proof.
  assert (Hr : forall s, blastRadiusLevels !! s = Some i -> reach s (Z.to_nat i) /\ (0 <= i)%Z).
  { intros s. unfold blastRadiusLevels.
    repeat (rewrite lookup_insert_Some; intros [[<- <-]|[_ Hs]]; [split; [constructor|lia]|revert Hs]).
    rewrite lookup_singleton_Some. intros [<- <-]. split; [constructor|lia]. }
  unfold parseBlastRadiusLevel. destruct (cut_at ":" br) as [[s q]|] eqn:Hc; intros Hl%Hr.
  - exists s. split; [|done]. right. exists q. by apply cut_at_split.
  - exists br. split; [by left|done].
Qed.

Lemma narrower_no_wider child parent : isBlastRadiusNarrowerOrEqual child parent = true -> no_wider child parent.
Proof.
  unfold isBlastRadiusNarrowerOrEqual.
  destruct (parseBlastRadiusLevel child) as [i|] eqn:Hi; [|left; by apply String.eqb_eq].
  destruct (parseBlastRadiusLevel parent) as [j|] eqn:Hj; [|left; by apply String.eqb_eq].
  intros Hle%Z.leb_le. right. apply level_reach in Hi as (c & Hc & Hri & Hi0). apply level_reach in Hj as (p & Hp & Hrj & Hj0).
  exists c, p, (Z.to_nat i), (Z.to_nat j). split_and!; try done. lia.
Qed.

(** What the code checks and builds is a hop. *)
Lemma hop_intro dc caps br sub :
  validateDelegation dc caps br = Ok tt ->
  hop dc {| ParentSubject := sub; Depth := newDepth dc; Caps := caps; BlastRadius := br;
            OBOChain := buildOBOChain dc |}.
Proof.
  intros (Hd & Hc & Hb)%validateDelegation_ok. unfold newDepth. constructor; cbn; try done.
  - intros ?. destruct (Z.ltb_spec (Depth dc) 0); lia.
  - intros ?. destruct (Z.ltb_spec (Depth dc) 0); lia.
  - destruct Hb as [Hb|[Hb|Hb]]; [by left|by right; left|right; right; by apply narrower_no_wider].
Qed.

Lemma parse_context `{!JwtLib} tok dc : parseDelegationContext tok = Ok dc -> context_of tok dc.
Proof.
  unfold parseDelegationContext. destruct (jwt_Subject tok) as [sub|] eqn:Hs; [|done].
  destruct (String.eqb_spec sub ""); [done|]. intros [= <-].
  constructor; cbn; [done|by intros d -> |by intros ->|..];
    [by destruct (get_array tok "caps")|by destruct (get_string _ _)|by destruct (get_array _ _)].
Qed.

(** A chain with its number of hops, oldest context first. *)
Inductive chain : nat -> delegationContext -> delegationContext -> Prop :=
| chain_refl dc : chain 0 dc dc
| chain_step n dc dc1 dc2 : hop dc dc1 -> chain n dc1 dc2 -> chain (S n) dc dc2.

Lemma hop_depth dc dc' : hop dc dc' ->
  Depth dc <> 0%Z /\ ((Depth dc < 0)%Z -> Depth dc' = (-1)%Z) /\
  ((0 <= Depth dc)%Z -> Depth dc' = (Depth dc - 1)%Z).
Proof.
  intros [Hd Hl Hu _ _ _]. split; [done|]. split; [done|]. intros ?. apply Hl. lia.
Qed.

(** Delegation depth bounds the chain. From a token with depth [d >= 0] at most [d] further
    hops are possible, and a chain of [n] hops leaves depth [d - n]. *)
Theorem delegation_depth_bounds_chain n dc dc' :
  chain n dc dc' -> (0 <= Depth dc)%Z ->
  (Z.of_nat n <= Depth dc)%Z /\ Depth dc' = (Depth dc - Z.of_nat n)%Z.
Proof.
  induction 1 as [dc|n dc dc1 dc2 (Hd & _ & Hs)%hop_depth _ IH]; intros Hpos; [lia|].
  specialize (Hs Hpos). destruct IH; lia.
Qed.

(** The chain of principals is append-only. After a chain of delegations the on-behalf-of list
    still starts with everything it held before, the first delegator's subject comes next, and
    its length grew by the number of hops. *)
Theorem delegation_obo_append_only n dc dc' :
  chain n dc dc' -> exists tl,
    OBOChain dc' = (OBOChain dc ++ tl)%list /\ length tl = n /\
    (n <> 0%nat -> head tl = Some (VStr (ParentSubject dc))).
Proof.
  induction 1 as [dc|n dc dc1 dc2 Hh _ (tl & Htl & Hlen & _)].
  - exists []. by rewrite app_nil_r.
  - exists (VStr (ParentSubject dc) :: tl). rewrite Htl, (hp_obo _ _ Hh), <- app_assoc.
    cbn. by rewrite Hlen.
Qed.

(** Every context of the chain after the first names capabilities. *)
Inductive chain_caps : delegationContext -> delegationContext -> Prop :=
| cc_refl dc : chain_caps dc dc
| cc_step dc dc1 dc2 : hop dc dc1 -> Caps dc1 <> [] -> chain_caps dc1 dc2 -> chain_caps dc dc2.

(** Capabilities only narrow along a chain in which every delegated token names capabilities:
    the last token's are among the first one's. *)
Theorem delegation_caps_narrow dc dc' :
  Caps dc <> [] -> chain_caps dc dc' -> Caps dc' ⊆ Caps dc.
Proof.
  intros Hne Hc. revert Hne. induction Hc as [dc|dc dc1 dc2 Hh Hne1 _ IH]; intros Hne; [done|].
  etrans; [by apply IH|]. destruct (hp_caps _ _ Hh) as [?|?]; done.
Qed.

(** Without that condition they can widen again. From any parent with capabilities and depth
    left, a hop whose policy grants no capabilities followed by a hop that asks for arbitrary
    ones passes both checks. *)
Theorem delegation_caps_regained dc caps sub1 sub2 :
  (1 < Depth dc)%Z ->
  exists dc1 dc2, hop dc dc1 /\ ParentSubject dc1 = sub1 /\ hop dc1 dc2 /\
    ParentSubject dc2 = sub2 /\ Caps dc2 = caps.
Proof.
  intros Hd. eexists _, _. split; [|split]; [apply (hop_intro dc [] "" sub1)| |].
  - apply validateDelegation_ok. split_and!; [lia|right; set_solver|by right; left].
  - done.
  - split_and!; [|..]; [apply (hop_intro _ caps "" sub2)| |done]; [|done].
    apply validateDelegation_ok. cbn. unfold newDepth.
    destruct (Z.ltb_spec (Depth dc) 0); split_and!; [lia|by left|by left|lia|by left|by left].
Qed.

(** * Concrete chains *)

Definition demo_dc : delegationContext :=
  {| ParentSubject := "wimse://a/agent"; Depth := 2; Caps := ["read"; "write"];
     BlastRadius := "namespace:dev"; OBOChain := [] |}.
Definition demo_dc1 : delegationContext :=
  {| ParentSubject := "wimse://a/b"; Depth := 1; Caps := ["read"]; BlastRadius := "service:x";
     OBOChain := [VStr "wimse://a/agent"] |}.

Lemma demo_hop : hop demo_dc demo_dc1.
Proof. apply (hop_intro demo_dc ["read"] "service:x" "wimse://a/b"). reflexivity. Qed.

Lemma delegation_depth_bounds_chain_witness : (1 <= 2)%Z /\ Depth demo_dc1 = 1%Z.
Proof.
  destruct (delegation_depth_bounds_chain 1 demo_dc demo_dc1) as [? ?];
    [eapply chain_step; [apply demo_hop|apply chain_refl]|done|done].
Defined.

Lemma delegation_obo_append_only_witness :
  exists tl, OBOChain demo_dc1 = (OBOChain demo_dc ++ tl)%list /\ length tl = 1%nat.
Proof.
  destruct (delegation_obo_append_only 1 demo_dc demo_dc1) as (tl & H1 & H2 & _);
    [eapply chain_step; [apply demo_hop|apply chain_refl]|eauto].
Defined.

Lemma delegation_caps_narrow_witness : ["read"] ⊆ ["read"; "write"].
Proof.
  apply (delegation_caps_narrow demo_dc demo_dc1); [done|].
  eapply cc_step; [apply demo_hop|done|apply cc_refl].
Defined.

Lemma delegation_caps_regained_witness :
  exists dc1 dc2, hop demo_dc dc1 /\ hop dc1 dc2 /\ Caps dc2 = ["admin"].
Proof.
  destruct (delegation_caps_regained demo_dc ["admin"] "b" "c") as (d1 & d2 & ? & _ & ? & _ & ?);
    [done|]. exists d1, d2. done.
Defined.
End Delegation.
