(* ===== verification/Attestation.v ===== *)
(** The attestation header of [pkg/exchange/attestation.go]: parsing, required fields,
    freshness, and the assurance level the engine derives from it. *)
From Stdlib Require Import ZArith Lia.
From stdpp Require Import base gmap strings list.
From S2P Require Import Prelude.
From S2P Require Import GoLib.
From S2P Require Import Core.

#[local] Open Scope Z_scope.
#[local] Open Scope string_scope.

Module Attest.

Definition DefaultAttestationFreshnessWindow : Duration := (5 * Minute)%Z.

Inductive AttErr : Type :=
| ErrInvalidAttestation (why : string)
| ErrStaleAttestation (age window : Duration).

(** [ParseAttestationHeader]: an empty header is absent; [json.Unmarshal] is an argument. *)
Definition ParseAttestationHeader (json_Unmarshal : string -> result string ServerAttestation)
    (header : string) : result AttErr (option ServerAttestation) :=
  if (header =? "")%string then Ok None else
  match json_Unmarshal header with
  | Err e => Err (ErrInvalidAttestation e)
  | Ok att =>
      if (pf_Source (att_Platform att) =? "")%string
      then Err (ErrInvalidAttestation "missing platform.source")
      else Ok (Some att)
  end.

(** [ValidateAttestation]: [now] is the clock read by [time.Since], [now'] the later reading. *)
Definition ValidateAttestation (now now' : Time) (att : option ServerAttestation)
    (freshnessWindow : Duration) : result AttErr unit :=
  match att with
  | None => Ok tt
  | Some att =>
      let window := if (freshnessWindow =? 0)%Z then DefaultAttestationFreshnessWindow
                    else freshnessWindow in
      let? _ := reject (pf_Source (att_Platform att) =? "")%string
                  (ErrInvalidAttestation "missing platform.source") in
      let? _ := reject (pf_CredType (att_Platform att) =? "")%string
                  (ErrInvalidAttestation "missing platform.cred_type") in
      let? _ := reject (att_AgentVersion att =? "")%string
                  (ErrInvalidAttestation "missing agent_version") in
      let? _ := reject (IsZero (att_Timestamp att)) (ErrInvalidAttestation "missing timestamp") in
      let age := Sub now (att_Timestamp att) in
      let? _ := reject (window <? age)%Z (ErrStaleAttestation age window) in
      reject (After (att_Timestamp att) (now' + 30 * Second)%Z)
        (ErrInvalidAttestation "timestamp is in the future")
  end.

(** An accepted attestation names its platform source, credential type and agent version and was
    made at most the freshness window (5 minutes by default) before the check and at most 30
    seconds after it; and every such attestation is accepted. *)
Theorem ValidateAttestation_iff now now' att w :
  (0 <= w < maxDuration)%Z ->
  ValidateAttestation now now' (Some att) w = Ok tt <->
  pf_Source (att_Platform att) <> "" /\ pf_CredType (att_Platform att) <> "" /\
  att_AgentVersion att <> "" /\ att_Timestamp att <> 0%Z /\
  (now - att_Timestamp att <= if (w =? 0)%Z then 5 * Minute else w)%Z /\
  (att_Timestamp att <= now' + 30 * Second)%Z.
Proof.
  intros Hw. cbn.
  destruct (String.eqb_spec (pf_Source (att_Platform att)) ""); cbn; [naive_solver|].
  destruct (String.eqb_spec (pf_CredType (att_Platform att)) ""); cbn; [naive_solver|].
  destruct (String.eqb_spec (att_AgentVersion att) ""); cbn; [naive_solver|].
  unfold IsZero. destruct (Z.eqb_spec (att_Timestamp att) 0); cbn; [naive_solver|].
  unfold DefaultAttestationFreshnessWindow, After, Sub, Minute, Second, maxDuration, minDuration in *.
  set (win := if (w =? 0)%Z then (5 * (60 * 1000000000))%Z else w).
  assert (0 <= win < 9223372036854775807)%Z by (unfold win; case_match; lia).
  destruct (Z.ltb_spec win (Z.max (-9223372036854775808) (Z.min 9223372036854775807
    (now - att_Timestamp att)))); cbn; [split; [done|]; intros (_ & _ & _ & _ & ? & _); lia|].
  rewrite reject_ok, Z.ltb_ge. split; [|naive_solver]. intros ?. split_and!; try done; lia.
Qed.

Definition demo_att : ServerAttestation :=
  {| att_Platform := {| pf_Source := "k8s"; pf_CredType := "sa"; pf_Metadata := None |};
     att_Hardware := []; att_Workload := None; att_AgentVersion := "1.0"; att_Timestamp := (100 * Second)%Z |}.

Lemma ValidateAttestation_iff_witness :
  ValidateAttestation (200 * Second) (200 * Second) (Some demo_att) 0 = Ok tt.
Proof. apply (ValidateAttestation_iff (200 * Second) (200 * Second) demo_att 0); [done|]. done. Defined.
End Attest.
