(* ===== verification/DPoP.v ===== *)
(** DPoP proofs of possession (RFC 9449): [pkg/exchange/dpop.go] and its copy in
    [pkg/mcp/dpop.go], with the JWK thumbprint of RFC 7638. *)
From Stdlib Require Import ZArith Lia.
From stdpp Require Import base gmap strings list sorting.
From S2P Require Import Prelude.
From S2P Require Import GoLib.
From S2P Require Import JwtModel.

#[local] Open Scope Z_scope.
#[local] Open Scope string_scope.

(** What the proofs use of the JOSE library and of [encoding/json] and [crypto/sha256]. *)
Class JwsLib `{!JwtLib} : Type := {
  jws_headers : Type;
  (** [jws.Parse] and the protected headers of its signatures *)
  jws_Parse : string -> option (list jws_headers);
  hdr_Type : jws_headers -> option string;
  hdr_JWK : jws_headers -> option jwk_key;
  hdr_Algorithm : jws_headers -> option string;
  (** [jwk.Export(key, &raw)]: an error, or an interface value that may be nil *)
  raw_key : Type;
  jwk_Export : jwk_key -> option (option raw_key);
  (** [jwt.Parse(proof, jwt.WithKey(alg, key))] at an instant *)
  jwt_ParseWithKey : string -> jwk_key -> Time -> string -> option jwt_token;
  (** [key.KeyType().String()], and the members of the key's JSON *)
  jwk_KeyType : jwk_key -> string;
  jwk_Members : jwk_key -> result string (gmap string value);
  (** base64url(SHA-256(json.Marshal(m))): marshalling a map sorts its keys *)
  sha256_b64_json : gmap string value -> string;
}.

Module DPoP.
Section WithLib.
Context `{!JwtLib, !JwsLib}.

Definition DPoPMaxAge : Duration := (5 * Minute)%Z.

Inductive ThumbErr : Type :=
| KeyMembers (why : string)
| UnsupportedKeyType (kty : string)
| MissingMember (m : string).

Inductive DPoPErr : Type :=
| ParsingJWS
| NoSignatures
| BadTyp (typ : option string)
| MissingJWK
| ExportingJWK
| NotPublicKey
| MissingAlg
| SignatureFailed
| MissingIat
| ProofTooOld (iat : Time)
| MissingJti
| ThumbprintFailed (why : ThumbErr).

(** [rawKey.(crypto.PublicKey)]: [crypto.PublicKey] is [any], so the assertion succeeds for every
    interface value that is not nil. *)
Definition is_crypto_PublicKey (raw : option raw_key) : bool := bool_decide (is_Some raw).

(** The required members per key type (RFC 7638). *)
Definition requiredMembers (kty : string) : option (list string) :=
  if (kty =? "RSA")%string then Some ["e"; "kty"; "n"]
  else if (kty =? "EC")%string then Some ["crv"; "kty"; "x"; "y"]
  else if (kty =? "OKP")%string then Some ["crv"; "kty"; "x"]
  else None.

(** The loop that copies the required members. *)
Fixpoint pick_members (ms : list string) (keyMap canonical : gmap string value)
    : result ThumbErr (gmap string value) :=
  match ms with
  | [] => Ok canonical
  | m :: ms' =>
      match keyMap !! m with
      | None => Err (MissingMember m)
      | Some v => pick_members ms' keyMap (<[m := v]> canonical)
      end
  end.

(** [computeJWKThumbprint] of pkg/exchange *)
Definition computeJWKThumbprint (key : jwk_key) : result ThumbErr string :=
  let? keyMap := (match jwk_Members key with Ok m => Ok m | Err e => Err (KeyMembers e) end) in
  match requiredMembers (jwk_KeyType key) with
  | None => Err (UnsupportedKeyType (jwk_KeyType key))
  | Some req =>
      let? canonical := pick_members (sort_Strings req) keyMap ∅ in
      Ok (sha256_b64_json canonical)
  end.

(** [validateDPoP] of pkg/exchange: [now] is read by [jwt.Parse], [now'] by [time.Since]. *)
Definition validateDPoP (now now' : Time) (proof : string) : result DPoPErr string :=
  match jws_Parse proof with
  | None => Err ParsingJWS
  | Some [] => Err NoSignatures
  | Some (headers :: _) =>
      if negb (match hdr_Type headers with Some typ => (typ =? "dpop+jwt")%string | None => false end)
      then Err (BadTyp (hdr_Type headers)) else
      match hdr_JWK headers with
      | None => Err MissingJWK
      | Some jwkKey =>
          match jwk_Export jwkKey with
          | None => Err ExportingJWK
          | Some rawKey =>
              if negb (is_crypto_PublicKey rawKey) then Err NotPublicKey else
              match hdr_Algorithm headers with
              | None => Err MissingAlg
              | Some alg =>
                  match jwt_ParseWithKey alg jwkKey now proof with
                  | None => Err SignatureFailed
                  | Some token =>
                      match jwt_IssuedAt token with
                      | None => Err MissingIat
                      | Some iat =>
                          if (DPoPMaxAge <? Sub now' iat)%Z then Err (ProofTooOld iat) else
                          if match jwt_JwtID token with Some jti => (jti =? "")%string | None => true end
                          then Err MissingJti else
                          match computeJWKThumbprint jwkKey with
                          | Err e => Err (ThumbprintFailed e)
                          | Ok thumbprint => Ok thumbprint
                          end
                      end
                  end
              end
          end
      end
  end.

Lemma pick_members_ext ms km1 km2 c :
  (forall m, m ∈ ms -> km1 !! m = km2 !! m) -> pick_members ms km1 c = pick_members ms km2 c.
Proof.
  revert c. induction ms as [|m ms IH]; intros c He; [done|]. cbn.
  rewrite (He m) by (left; done). case_match; [|done]. apply IH. intros. apply He. by right.
Qed.

Lemma sort_Strings_perm l : Permutation (sort_Strings l) l.
Proof. apply merge_sort_Permutation. Qed.

(** A thumbprint is determined by the key type and its required members: two JWKs of one type
    that agree on them have the same thumbprint, whatever other members ([kid], [alg], private
    parts) they carry. *)
Theorem thumbprint_required_only k1 k2 m1 m2 req :
  jwk_KeyType k1 = jwk_KeyType k2 -> requiredMembers (jwk_KeyType k1) = Some req ->
  jwk_Members k1 = Ok m1 -> jwk_Members k2 = Ok m2 ->
  (forall m, m ∈ req -> m1 !! m = m2 !! m) ->
  computeJWKThumbprint k1 = computeJWKThumbprint k2.
Proof.
  intros Ht Hr H1 H2 He. unfold computeJWKThumbprint. rewrite H1, H2, <- Ht, Hr. cbn.
  erewrite pick_members_ext; [done|]. intros m. rewrite sort_Strings_perm. apply He.
Qed.

(** What an accepted proof proves. The JWS has the type [dpop+jwt], its first signature carries a
    key in its header, the proof verifies under that key, is at most five minutes old and has a
    non-empty [jti]; the result is the thumbprint of that key. *)
Theorem validateDPoP_sound now now' proof tp :
  validateDPoP now now' proof = Ok tp ->
  exists headers hs key alg token iat jti,
    jws_Parse proof = Some (headers :: hs) /\ hdr_Type headers = Some "dpop+jwt" /\
    hdr_JWK headers = Some key /\ hdr_Algorithm headers = Some alg /\
    jwt_ParseWithKey alg key now proof = Some token /\
    jwt_IssuedAt token = Some iat /\ (now' - iat <= DPoPMaxAge)%Z /\
    jwt_JwtID token = Some jti /\ jti <> "" /\ computeJWKThumbprint key = Ok tp.
Proof.
  unfold validateDPoP. intros Hv.
  destruct (jws_Parse proof) as [[|h hs]|]; try done.
  destruct (hdr_Type h) as [typ|] eqn:Hty; cbn in Hv; [|done].
  destruct (String.eqb_spec typ "dpop+jwt") as [Heq|]; cbn in Hv; [subst typ|done].
  destruct (hdr_JWK h) as [key|] eqn:Hk; [|done].
  destruct (jwk_Export key) as [raw|]; [|done].
  destruct (is_crypto_PublicKey raw); cbn in Hv; [|done].
  destruct (hdr_Algorithm h) as [alg|] eqn:Ha; [|done].
  destruct (jwt_ParseWithKey alg key now proof) as [tok|] eqn:Hp; [|done].
  destruct (jwt_IssuedAt tok) as [iat|] eqn:Hi; [|done].
  destruct (Z.ltb_spec DPoPMaxAge (Sub now' iat)) as [|Hage]; [done|].
  destruct (jwt_JwtID tok) as [jti|] eqn:Hj; [|done].
  destruct (String.eqb_spec jti "") as [|Hjti]; [done|].
  destruct (computeJWKThumbprint key) as [tp'|] eqn:Ht; [|done]. injection Hv as <-.
  exists h, hs, key, alg, tok, iat, jti. split_and!; try done.
  unfold Sub, DPoPMaxAge, Minute, Second, maxDuration, minDuration in *. lia.
Qed.

(** The "must be a public key" test never fires: [rawKey.(crypto.PublicKey)] asserts the empty
    interface, so [NotPublicKey] is returned only when [jwk.Export] produced nil, and a private
    JWK in the header passes. *)
Theorem dpop_public_key_check_vacuous now now' proof :
  (forall key raw, jwk_Export key = Some raw -> is_Some raw) ->
  validateDPoP now now' proof <> Err NotPublicKey.
Proof.
  intros Hex. unfold validateDPoP. destruct (jws_Parse proof) as [[|h hs]|]; try done.
  destruct (negb _); [done|]. destruct (hdr_JWK h) as [key|]; [|done].
  destruct (jwk_Export key) as [raw|] eqn:He; [|done]. apply Hex in He.
  unfold is_crypto_PublicKey. rewrite bool_decide_eq_true_2 by done. cbn.
  repeat (case_match; try done).
Qed.

(** * The copy in pkg/mcp *)

(** [computeJWKThumbprint] of pkg/mcp: the same members, tested in the same order. *)
Definition mcp_computeJWKThumbprint (key : jwk_key) : result ThumbErr string :=
  match jwk_Members key with
  | Err e => Err (KeyMembers e)
  | Ok keyMap =>
      match requiredMembers (jwk_KeyType key) with
      | None => Err (UnsupportedKeyType (jwk_KeyType key))
      | Some required =>
          match pick_members (sort_Strings required) keyMap ∅ with
          | Err e => Err e
          | Ok canonical => Ok (sha256_b64_json canonical)
          end
      end
  end.

Definition dpopMaxAge : Duration := (5 * Minute)%Z.

(** [validateDPoPProof] of pkg/mcp *)
Definition validateDPoPProof (now now' : Time) (proof : string) : result DPoPErr string :=
  match jws_Parse proof with
  | None => Err ParsingJWS
  | Some sigs =>
      match sigs with
      | [] => Err NoSignatures
      | headers :: _ =>
          let? _ := reject
            (match hdr_Type headers with Some typ => negb (typ =? "dpop+jwt")%string | None => true end)
            (BadTyp (hdr_Type headers)) in
          let? jwkKey := (match hdr_JWK headers with Some k => Ok k | None => Err MissingJWK end) in
          let? rawKey := (match jwk_Export jwkKey with Some r => Ok r | None => Err ExportingJWK end) in
          let? _ := reject (negb (is_crypto_PublicKey rawKey)) NotPublicKey in
          let? alg := (match hdr_Algorithm headers with Some a => Ok a | None => Err MissingAlg end) in
          let? token := (match jwt_ParseWithKey alg jwkKey now proof with
                         | Some t => Ok t | None => Err SignatureFailed end) in
          let? iat := (match jwt_IssuedAt token with Some i => Ok i | None => Err MissingIat end) in
          let? _ := reject (dpopMaxAge <? Sub now' iat)%Z (ProofTooOld iat) in
          let? _ := reject (match jwt_JwtID token with Some jti => (jti =? "")%string | None => true end)
                      MissingJti in
          match mcp_computeJWKThumbprint jwkKey with
          | Err e => Err (ThumbprintFailed e)
          | Ok tp => Ok tp
          end
      end
  end.

Lemma mcp_thumbprint_eq key : mcp_computeJWKThumbprint key = computeJWKThumbprint key.
Proof.
  unfold mcp_computeJWKThumbprint, computeJWKThumbprint. destruct (jwk_Members key); [|done]. cbn.
  destruct (requiredMembers _); [|done]. by destruct (pick_members _ _ _).
Qed.

(** The two copies of the DPoP validation agree: the middleware accepts a proof with the same
    thumbprint, or rejects it for the same reason, as the exchange engine. *)
Theorem mcp_dpop_equiv now now' proof :
  validateDPoPProof now now' proof = validateDPoP now now' proof.
Proof.
  unfold validateDPoPProof, validateDPoP. destruct (jws_Parse proof) as [[|h hs]|]; try done.
  destruct (hdr_Type h) as [typ|]; [|done]. destruct (typ =? "dpop+jwt")%string; [|done]. cbn.
  destruct (hdr_JWK h) as [key|]; [|done]. cbn. destruct (jwk_Export key) as [raw|]; [|done]. cbn.
  destruct (is_crypto_PublicKey raw); [|done]. cbn. destruct (hdr_Algorithm h); [|done]. cbn.
  destruct (jwt_ParseWithKey _ _ _ _) as [tok|]; [|done]. cbn. destruct (jwt_IssuedAt tok); [|done]. cbn.
  unfold dpopMaxAge, DPoPMaxAge. destruct (_ <? _)%Z; [done|]. cbn.
  destruct (jwt_JwtID tok) as [jti|]; [|done]. destruct (jti =? "")%string; [done|]. cbn.
  by rewrite mcp_thumbprint_eq.
Qed.
End WithLib.

(** * A concrete JOSE library: every proof is signed by the key its text names. *)

#[local] Existing Instance JwtModel.lib.
#[local] Existing Instance JwtModel.laws.
#[local] Instance demo_jws : JwsLib := {|
  jws_headers := string;
  jws_Parse p := if (p =? "")%string then None else Some [p];
  hdr_Type _ := Some "dpop+jwt";
  hdr_JWK p := Some p;
  hdr_Algorithm _ := Some "RS256";
  raw_key := string;
  jwk_Export k := Some (Some k);
  jwt_ParseWithKey _ k _ _ := Some ("", "", [], (100 * Second)%Z, 0%Z, [("jti", inl k)]);
  jwk_KeyType _ := "RSA";
  jwk_Members k := Ok {[ "e" := VStr "AQAB"; "kty" := VStr "RSA"; "n" := VStr "modulus"; "kid" := VStr k ]};
  sha256_b64_json m := match m !! "kid" with Some _ => "with-kid" | None => "no-kid" end;
|}.

Definition demo_k1 : @jwk_key JwtModel.lib := "priv:k1".
Definition demo_k2 : @jwk_key JwtModel.lib := "k2".

Lemma thumbprint_required_only_witness : computeJWKThumbprint demo_k1 = computeJWKThumbprint demo_k2.
Proof.
  eapply (thumbprint_required_only demo_k1 demo_k2); [reflexivity|reflexivity|reflexivity|reflexivity|].
  intros m Hm. repeat (apply elem_of_cons in Hm as [->|Hm]; [reflexivity|]). by apply elem_of_nil in Hm.
Defined.

Lemma validateDPoP_sound_witness :
  validateDPoP (100 * Second) (200 * Second) "priv:k1" = Ok "no-kid" /\
  computeJWKThumbprint demo_k1 = Ok "no-kid".
Proof.
  assert (Hv : validateDPoP (100 * Second) (200 * Second) "priv:k1" = Ok "no-kid")
    by (vm_compute; reflexivity).
  split; [exact Hv|].
  destruct (validateDPoP_sound (100 * Second) (200 * Second) "priv:k1" "no-kid" Hv)
    as (h & hs & key & alg & tok & iat & jti & Hp & _ & Hk & _ & _ & _ & _ & _ & _ & Ht).
  vm_compute in Hp. injection Hp as <- <-. vm_compute in Hk. injection Hk as <-. exact Ht.
Defined.

Lemma dpop_public_key_check_vacuous_witness :
  validateDPoP (100 * Second) (200 * Second) "priv:k1" <> Err NotPublicKey.
Proof.
  apply (dpop_public_key_check_vacuous (100 * Second) (200 * Second) "priv:k1").
  intros key raw [= <-]. by eexists.
Defined.
End DPoP.
