(* ===== verification/Revocation.v ===== *)
(** The in-memory revocation index of [pkg/signals/revocation.go], its export and import, and
    its integrity hash. JSON encoding and SHA-256 are arguments. *)
From Stdlib Require Import ZArith Lia.
From stdpp Require Import base gmap strings list sorting.
From S2P Require Import Prelude.
From S2P Require Import GoLib.
From S2P Require Import JwtModel.
From S2P Require Import Core.

#[local] Open Scope Z_scope.
#[local] Open Scope string_scope.

Module Revocation.

(** [InMemoryRevocationIndex]; every method holds the lock for its whole body. *)
Record InMemoryRevocationIndex : Type := { entries : gmap string RevocationEntry }.

(** [core.RevocationSnapshot] *)
Record RevocationSnapshot : Type := {
  snap_Entries : list RevocationEntry;
  snap_Count : Z;
  snap_Hash : string;
}.

(** [NewRevocationIndex] *)
Definition NewRevocationIndex : InMemoryRevocationIndex := {| entries := ∅ |}.

(** [Revoke] *)
Definition Revoke (now : Time) (subjectID reason : string) (expiresAt : Time)
    (idx : InMemoryRevocationIndex) : result string InMemoryRevocationIndex :=
  if (subjectID =? "")%string then Err "subjectID must not be empty" else
  Ok {| entries := <[subjectID := {| re_SubjectID := subjectID; re_Reason := reason;
          re_RevokedAt := now; re_ExpiresAt := expiresAt; re_EventJTI := "" |}]> (entries idx) |}.

(** The expiry test shared by [IsRevoked], [Cleanup] and [Export]. *)
Definition expired (now : Time) (e : RevocationEntry) : bool :=
  negb (IsZero (re_ExpiresAt e)) && After now (re_ExpiresAt e).

(** [IsRevoked] *)
Definition IsRevoked (now : Time) (subjectID : string) (idx : InMemoryRevocationIndex)
    : result string (option RevocationEntry) :=
  match entries idx !! subjectID with
  | None => Ok None
  | Some entry => if expired now entry then Ok None else Ok (Some entry)
  end.

(** [Cleanup]: the index without the expired entries, and how many were removed. *)
Definition Cleanup (now : Time) (idx : InMemoryRevocationIndex) : InMemoryRevocationIndex * nat :=
  let kept := purge (expired now) (entries idx) in
  ({| entries := kept |}, size (entries idx) - size kept)%nat.

(** [Len] *)
Definition Len (idx : InMemoryRevocationIndex) : nat := size (entries idx).

(** [sort.Slice] by [SubjectID] *)
Definition subject_le (a b : RevocationEntry) : Prop := str_le (re_SubjectID a) (re_SubjectID b).
#[global] Instance subject_le_dec a b : Decision (subject_le a b).
Proof. unfold subject_le. apply _. Defined.
Definition sortBySubject (l : list RevocationEntry) : list RevocationEntry := merge_sort subject_le l.

Section WithEncoding.
Context `{!RangeOrder}.
Variable marshal_entries : list RevocationEntry -> result string (list Byte.byte).
Variable marshal_snapshot : RevocationSnapshot -> result string (list Byte.byte).
Variable unmarshal_snapshot : list Byte.byte -> result string RevocationSnapshot.
Variable sha256_hex : list Byte.byte -> string.

Definition hashString (data : list Byte.byte) : string := "sha256:" +:+ sha256_hex data.

(** [Export] *)
Definition Export (now : Time) (idx : InMemoryRevocationIndex) : result string (list Byte.byte) :=
  let live := List.filter (fun e => negb (expired now e)) (range (entries idx)).*2 in
  let sorted := sortBySubject live in
  let? entriesJSON := marshal_entries sorted in
  marshal_snapshot {| snap_Entries := sorted; snap_Count := Z.of_nat (length sorted);
                      snap_Hash := hashString entriesJSON |}.

(** The merge loop of [Import]. *)
Fixpoint merge_entries (es : list RevocationEntry) (m : gmap string RevocationEntry)
    : gmap string RevocationEntry :=
  match es with
  | [] => m
  | e :: es' =>
      merge_entries es' (match m !! re_SubjectID e with
                         | Some _ => m
                         | None => <[re_SubjectID e := e]> m
                         end)
  end.

(** [Import] *)
Definition Import (data : list Byte.byte) (idx : InMemoryRevocationIndex)
    : result string InMemoryRevocationIndex :=
  let? payload := unmarshal_snapshot data in
  let? entriesJSON := marshal_entries (snap_Entries payload) in
  let expectedHash := hashString entriesJSON in
  if negb (snap_Hash payload =? expectedHash)%string then Err "integrity check failed"
  else Ok {| entries := merge_entries (snap_Entries payload) (entries idx) |}.

(** [Hash]: unlike [Export] it covers expired entries too. *)
Definition Hash (idx : InMemoryRevocationIndex) : string :=
  match marshal_entries (sortBySubject (range (entries idx)).*2) with
  | Err _ => ""
  | Ok data => hashString data
  end.

(** * Invariant: an entry is stored under its own subject, and no subject is empty. *)

Definition wf (idx : InMemoryRevocationIndex) : Prop :=
  forall k e, entries idx !! k = Some e -> re_SubjectID e = k.

Lemma wf_revoke now s r x idx idx' : wf idx -> Revoke now s r x idx = Ok idx' -> wf idx'.
Proof.
  unfold Revoke. intros Hw. case_match; [done|]. intros [= <-] k e. cbn.
  rewrite lookup_insert_Some. intros [[<- <-]|[_ Hk]]; [done|by apply Hw].
Qed.

Lemma lookup_merge es m k :
  merge_entries es m !! k =
  match m !! k with Some e => Some e | None => List.find (fun e => re_SubjectID e =? k)%string es end.
Proof.
  revert m. induction es as [|e es IH]; intros m; cbn; [by destruct (m !! k)|].
  rewrite IH. destruct (String.eqb_spec (re_SubjectID e) k) as [<-|Hne].
  - destruct (m !! re_SubjectID e) eqn:E; rewrite ?E; [done|]. by rewrite lookup_insert_eq.
  - destruct (m !! re_SubjectID e); [done|]. by rewrite lookup_insert_ne.
Qed.

Lemma elem_of_range_values (m : gmap string RevocationEntry) e :
  e ∈ (range m).*2 <-> exists k, m !! k = Some e.
Proof.
  rewrite list_elem_of_fmap. split.
  - intros ([k e'] & -> & Hv%elem_of_range). eauto.
  - intros [k Hv%elem_of_range]. by exists (k, e).
Qed.

Lemma NoDup_subjects idx : wf idx -> NoDup (re_SubjectID <$> (range (entries idx)).*2).
Proof.
  intros Hw. rewrite <- list_fmap_compose.
  replace ((re_SubjectID ∘ snd) <$> range (entries idx)) with (range_keys (entries idx));
    [apply NoDup_range_keys|].
  unfold range_keys. apply list_fmap_ext. intros i [k e] Hi. cbn. symmetry. apply Hw.
  apply elem_of_range. by eapply list_elem_of_lookup_2.
Qed.

#[local] Instance subject_le_trans : Transitive subject_le.
Proof. intros a b c. unfold subject_le. apply str_le_trans. Qed.
#[local] Instance subject_le_total : Total subject_le.
Proof. intros a b. unfold subject_le. apply str_le_total. Qed.

Lemma NoDup_fmap_inj_on {A B} (f : A -> B) l x y :
  NoDup (f <$> l) -> x ∈ l -> y ∈ l -> f x = f y -> x = y.
Proof.
  intros Hnd [i Hi]%list_elem_of_lookup_1 [j Hj]%list_elem_of_lookup_1 Hf.
  assert (i = j) by (eapply NoDup_lookup; [exact Hnd|by rewrite list_lookup_fmap, Hi|
    by rewrite list_lookup_fmap, Hj, Hf]). congruence.
Qed.

(** Sorting entries with distinct subjects does not depend on the order they came in. *)
Lemma sortBySubject_perm l1 l2 :
  NoDup (re_SubjectID <$> l1) -> Permutation l1 l2 -> sortBySubject l1 = sortBySubject l2.
Proof.
  intros Hnd Hp. apply (StronglySorted_unique_strong subject_le).
  - intros x y Hx Hy H1 H2. unfold sortBySubject in Hx, Hy.
    rewrite merge_sort_Permutation in Hx. rewrite merge_sort_Permutation, <- Hp in Hy.
    eapply NoDup_fmap_inj_on; [exact Hnd|done|done|]. by apply (anti_symm str_le).
  - apply StronglySorted_merge_sort; apply _.
  - apply StronglySorted_merge_sort; apply _.
  - unfold sortBySubject. by rewrite !merge_sort_Permutation.
Qed.

Lemma find_subject l k e :
  NoDup (re_SubjectID <$> l) ->
  List.find (fun e => re_SubjectID e =? k)%string l = Some e <-> e ∈ l /\ re_SubjectID e = k.
Proof.
  intros Hnd. split.
  - intros [Hin ->%String.eqb_eq]%find_some. split; [by apply list_elem_of_In|done].
  - intros [Hin <-]. destruct (List.find _ l) as [e'|] eqn:E.
    + apply find_some in E as [Hin' Heq%String.eqb_eq]. f_equal.
      eapply NoDup_fmap_inj_on; [exact Hnd|by apply list_elem_of_In|done|done].
    + eapply find_none in E; [|by apply list_elem_of_In]. by rewrite String.eqb_refl in E.
Qed.

(** The snapshot [Export] writes. *)
Definition snapshotEntries (now : Time) (idx : InMemoryRevocationIndex) : list RevocationEntry :=
  sortBySubject (List.filter (fun e => negb (expired now e)) (range (entries idx)).*2).

Lemma elem_of_snapshot now idx e :
  e ∈ snapshotEntries now idx <-> (exists k, entries idx !! k = Some e) /\ expired now e = false.
Proof.
  unfold snapshotEntries, sortBySubject. rewrite merge_sort_Permutation.
  rewrite list_elem_of_In, filter_In, <- list_elem_of_In, elem_of_range_values, negb_true_iff. done.
Qed.

Lemma NoDup_filter_fmap {A B} (f : A -> B) p l : NoDup (f <$> l) -> NoDup (f <$> List.filter p l).
Proof.
  induction l as [|x l IH]; cbn; [done|]. rewrite NoDup_cons. intros [Hx Hl].
  destruct (p x); cbn; [|by apply IH]. apply NoDup_cons. split; [|by apply IH].
  rewrite list_elem_of_fmap. intros (y & Hy & Hin). apply Hx. rewrite list_elem_of_fmap.
  exists y. split; [done|]. by apply list_elem_of_In, filter_In in Hin as [?%list_elem_of_In _].
Qed.

Lemma NoDup_snapshot now idx : wf idx -> NoDup (re_SubjectID <$> snapshotEntries now idx).
Proof.
  intros Hw. unfold snapshotEntries, sortBySubject. rewrite merge_sort_Permutation.
  by apply NoDup_filter_fmap, NoDup_subjects.
Qed.


Lemma expired_mono t t' e : t <= t' -> expired t e = true -> expired t' e = true.
Proof. unfold expired, After. destruct (IsZero _); cbn; [done|]. lia. Qed.

(** The answers of an index after export and import. *)
Lemma export_import_answers now t idx data idx' :
  wf idx -> now <= t ->
  (forall s d, marshal_snapshot s = Ok d -> unmarshal_snapshot d = Ok s) ->
  Export now idx = Ok data -> Import data NewRevocationIndex = Ok idx' ->
  forall sub, IsRevoked t sub idx' = IsRevoked t sub idx.
Proof.
  intros Hw Ht Hrt He Hi sub. unfold Export in He. fold (snapshotEntries now idx) in He.
  destruct (marshal_entries _) as [ej|] eqn:Hm; [|done]. cbn in He.
  unfold Import in Hi. rewrite (Hrt _ _ He) in Hi. cbn in Hi. rewrite Hm in Hi. cbn in Hi.
  rewrite String.eqb_refl in Hi. cbn in Hi. injection Hi as <-. unfold IsRevoked. cbn.
  rewrite lookup_merge, lookup_empty.
  destruct (List.find _ _) as [e|] eqn:Hf.
  - apply find_subject in Hf as [[[k Hk] Hx]%elem_of_snapshot Hs]; [|by apply NoDup_snapshot].
    pose proof (Hw _ _ Hk) as HsubK. rewrite Hs in HsubK. subst k. by rewrite Hk.
  - destruct (entries idx !! sub) as [e|] eqn:Hk; [|done]. pose proof (Hw _ _ Hk) as Hs.
    destruct (expired now e) eqn:Hx; [by rewrite (expired_mono _ _ _ Ht Hx)|].
    assert (Hin : e ∈ snapshotEntries now idx) by (apply elem_of_snapshot; eauto).
    assert (Some e = None) by (rewrite <- Hf; symmetry; apply find_subject;
      [by apply NoDup_snapshot|done]). done.
Qed.

(** Revocation survives an export and import. Importing a snapshot taken at [now] into an empty
    index gives, at every later time and for every subject, the same answer as the original
    index, provided the JSON decoding inverts the encoding of that snapshot. *)
Theorem export_import_roundtrip now t idx data idx' :
  wf idx -> now <= t ->
  (forall s d, marshal_snapshot s = Ok d -> unmarshal_snapshot d = Ok s) ->
  Export now idx = Ok data -> Import data NewRevocationIndex = Ok idx' ->
  forall sub, IsRevoked t sub idx' = IsRevoked t sub idx.
Proof. apply export_import_answers. Qed.

(** An import never lifts a revocation: whatever the snapshot holds, an accepted import leaves
    every subject's existing entry in place, so a revoked subject stays revoked with the same
    entry. *)
Theorem import_never_unrevokes data idx idx' t sub e :
  Import data idx = Ok idx' -> IsRevoked t sub idx = Ok (Some e) ->
  IsRevoked t sub idx' = Ok (Some e).
Proof.
  unfold Import, IsRevoked. intros Hi. destruct (unmarshal_snapshot data); [|done]. cbn in Hi.
  destruct (marshal_entries _); [|done]. cbn in Hi. case_match; [done|]. injection Hi as <-. cbn.
  rewrite lookup_merge. by destruct (entries idx !! sub).
Qed.

(** An expired local entry hides an imported one. If the index still holds an expired entry for a
    subject (cleanup is advisory), importing a snapshot with a live revocation of that subject
    succeeds but the subject stays unrevoked. *)
Theorem import_shadowed_by_expired data idx idx' payload t sub old :
  unmarshal_snapshot data = Ok payload -> Import data idx = Ok idx' ->
  entries idx !! sub = Some old -> expired t old = true ->
  IsRevoked t sub idx' = Ok None.
Proof.
  unfold Import, IsRevoked. intros Hu Hi Ho Hx. rewrite Hu in Hi. cbn in Hi.
  destruct (marshal_entries _); [|done]. cbn in Hi. case_match; [done|]. injection Hi as <-. cbn.
  by rewrite lookup_merge, Ho, Hx.
Qed.

(** Cleanup is invisible. Removing expired entries at [now] changes no answer of [IsRevoked] at
    [now] or later, and returns the number of entries it removed. *)
Theorem cleanup_invisible now t idx sub :
  now <= t ->
  IsRevoked t sub (Cleanup now idx).1 = IsRevoked t sub idx /\
  (Len (Cleanup now idx).1 + (Cleanup now idx).2 = Len idx)%nat.
Proof.
  intros Ht. unfold Cleanup, IsRevoked, Len. cbn. split.
  - destruct (entries idx !! sub) as [e|] eqn:Hk.
    + destruct (expired now e) eqn:Hx.
      * rewrite (expired_mono _ _ _ Ht Hx).
        destruct (purge _ _ !! sub) eqn:Hp; [|done].
        apply lookup_purge in Hp as [? ?]. congruence.
      * assert (purge (expired now) (entries idx) !! sub = Some e) as -> by by apply lookup_purge.
        done.
    + by rewrite lookup_purge_None.
  - assert (size (purge (expired now) (entries idx)) <= size (entries idx))%nat
      by (apply map_subseteq_size, purge_subseteq). lia.
Qed.
End WithEncoding.

Lemma entry_iff_sorted {ro : RangeOrder} idx k e :
  wf idx ->
  entries idx !! k = Some e <-> e ∈ sortBySubject (range (entries idx)).*2 /\ re_SubjectID e = k.
Proof.
  intros Hw. unfold sortBySubject. rewrite merge_sort_Permutation, elem_of_range_values. split.
  - intros Hk. split; [eauto|by apply Hw].
  - intros [[k' Hk] <-]. by rewrite (Hw _ _ Hk) in *.
Qed.

(** The index hash detects divergence. It does not depend on the order in which the map is
    iterated, and (with an encoding and hash without collisions) two units have the same hash
    exactly when their indexes hold the same entries. *)
Theorem hash_detects_divergence {ro1 ro2 : RangeOrder} marshal sha idx1 idx2 :
  wf idx1 -> wf idx2 ->
  (forall l, exists d, marshal l = Ok d) ->
  (forall l1 l2 d1 d2, marshal l1 = Ok d1 -> marshal l2 = Ok d2 -> sha d1 = sha d2 -> l1 = l2) ->
  @Hash ro1 marshal sha idx1 = @Hash ro2 marshal sha idx2 <-> entries idx1 = entries idx2.
Proof.
  intros Hw1 Hw2 Htot Hinj. unfold Hash. split.
  - destruct (Htot (sortBySubject (@range ro1 _ (entries idx1)).*2)) as [d1 H1].
    destruct (Htot (sortBySubject (@range ro2 _ (entries idx2)).*2)) as [d2 H2].
    rewrite H1, H2. unfold hashString. intros Heq%(inj _). apply (Hinj _ _ _ _ H1 H2) in Heq.
    apply map_eq. intros k. apply option_eq. intros e.
    rewrite (@entry_iff_sorted ro1 idx1 k e Hw1), (@entry_iff_sorted ro2 idx2 k e Hw2). by rewrite Heq.
  - intros Heq. f_equal. rewrite <- Heq.
    rewrite (sortBySubject_perm (@range ro1 _ (entries idx1)).*2 (@range ro2 _ (entries idx1)).*2);
      [done|by apply (@NoDup_subjects ro1)|].
    by rewrite !range_perm.
Qed.

(** The index implements the interface its clients rely on. *)
#[export] Instance InMemory_RevocationIndex : RevocationIndex InMemoryRevocationIndex.
Proof.
  refine {| ri_Revoke := Revoke; ri_IsRevoked := IsRevoked |}.
  - intros now s r x idx idx' t. unfold Revoke, IsRevoked. case_match; [done|]. intros [= <-] Hx. cbn.
    rewrite lookup_insert_eq. unfold expired, IsZero, After. cbn.
    assert (negb (x =? 0)%Z && (x <? t)%Z = false) as -> by lia. eexists. split; reflexivity.
  - intros now s s' r x idx idx' t. unfold Revoke, IsRevoked. case_match; [done|]. intros [= <-] Hne.
    cbn. by rewrite lookup_insert_ne.
  - intros now s r x idx Hs%String.eqb_neq. unfold Revoke. rewrite Hs. by eexists.
Defined.

(** * A concrete encoding *)

Definition entry_tuple (e : RevocationEntry) : string * string * Z * Z * string :=
  (re_SubjectID e, re_Reason e, re_RevokedAt e, re_ExpiresAt e, re_EventJTI e).
Definition tuple_entry (t : string * string * Z * Z * string) : RevocationEntry :=
  {| re_SubjectID := t.1.1.1.1; re_Reason := t.1.1.1.2; re_RevokedAt := t.1.1.2;
     re_ExpiresAt := t.1.2; re_EventJTI := t.2 |}.
Definition demo_bytes (p : positive) : list Byte.byte := String.list_byte_of_string (JwtModel.pos_string p).
Definition demo_marshal (l : list RevocationEntry) : result string (list Byte.byte) :=
  Ok (demo_bytes (encode (entry_tuple <$> l))).
Definition demo_marshal_snap (s : RevocationSnapshot) : result string (list Byte.byte) :=
  Ok (demo_bytes (encode (entry_tuple <$> snap_Entries s, snap_Count s, snap_Hash s))).
Definition demo_unmarshal_snap (d : list Byte.byte) : result string RevocationSnapshot :=
  match JwtModel.string_pos (String.string_of_list_byte d) ≫= decode with
  | Some (l, c, h) => Ok {| snap_Entries := tuple_entry <$> l; snap_Count := c; snap_Hash := h |}
  | None => Err "bad snapshot"
  end.

Lemma tuple_entry_list (l : list RevocationEntry) : tuple_entry <$> (entry_tuple <$> l) = l.
Proof. induction l as [|[] l IH]; [done|]. cbn. by rewrite IH. Qed.

Lemma demo_decode {A} `{Countable A} (a : A) :
  JwtModel.string_pos (String.string_of_list_byte (demo_bytes (encode a))) ≫= decode = Some a.
Proof.
  unfold demo_bytes. rewrite String.string_of_list_byte_of_string, JwtModel.string_pos_string.
  cbn. apply decode_encode.
Qed.

Lemma demo_roundtrip s d : demo_marshal_snap s = Ok d -> demo_unmarshal_snap d = Ok s.
Proof.
  intros [= <-]. unfold demo_unmarshal_snap. rewrite demo_decode. destruct s. cbn.
  by rewrite tuple_entry_list.
Qed.

Lemma demo_inj l1 l2 d1 d2 :
  demo_marshal l1 = Ok d1 -> demo_marshal l2 = Ok d2 ->
  String.string_of_list_byte d1 = String.string_of_list_byte d2 -> l1 = l2.
Proof.
  intros [= <-] [= <-] Heq. rewrite <- (tuple_entry_list l1), <- (tuple_entry_list l2). f_equal.
  apply (inj Some). rewrite <- (demo_decode (entry_tuple <$> l1)), <- (demo_decode (entry_tuple <$> l2)).
  by rewrite Heq.
Qed.

Definition demo_entry (s r : string) (x : Time) : RevocationEntry :=
  {| re_SubjectID := s; re_Reason := r; re_RevokedAt := 1; re_ExpiresAt := x; re_EventJTI := "" |}.
Definition demo_idx : InMemoryRevocationIndex :=
  {| entries := {[ "bob" := demo_entry "bob" "session-revoked" 50; "eve" := demo_entry "eve" "risk" 5 ]} |}.

Lemma demo_idx_wf : wf demo_idx.
Proof.
  intros k e. unfold demo_idx. cbn. rewrite lookup_insert_Some, lookup_singleton_Some. naive_solver.
Qed.

#[local] Existing Instance key_order.
Definition demo_sha (d : list Byte.byte) : string := if decide (d = []) then "0" else "1".
Definition demo_data : list Byte.byte :=
  match Export demo_marshal demo_marshal_snap demo_sha 10 demo_idx with
  | Ok d => d | Err _ => [] end.
Definition demo_import (idx : InMemoryRevocationIndex) : InMemoryRevocationIndex :=
  match Import demo_marshal demo_unmarshal_snap demo_sha demo_data idx with
  | Ok i => i | Err _ => idx end.

Lemma export_import_roundtrip_witness :
  IsRevoked 20 "bob" (demo_import NewRevocationIndex) = IsRevoked 20 "bob" demo_idx.
Proof.
  apply (export_import_roundtrip demo_marshal demo_marshal_snap demo_unmarshal_snap
           demo_sha 10 20 demo_idx demo_data);
    [apply demo_idx_wf|done|apply demo_roundtrip|vm_compute; reflexivity|vm_compute; reflexivity].
Defined.

Lemma import_never_unrevokes_witness :
  IsRevoked 20 "bob" (demo_import {| entries := {[ "bob" := demo_entry "bob" "older" 0 ]} |})
  = Ok (Some (demo_entry "bob" "older" 0)).
Proof.
  apply (import_never_unrevokes demo_marshal demo_unmarshal_snap demo_sha demo_data
           {| entries := {[ "bob" := demo_entry "bob" "older" 0 ]} |});
    vm_compute; reflexivity.
Defined.

Lemma import_shadowed_by_expired_witness :
  IsRevoked 20 "bob" (demo_import {| entries := {[ "bob" := demo_entry "bob" "older" 15 ]} |}) = Ok None.
Proof.
  eapply (import_shadowed_by_expired demo_marshal demo_unmarshal_snap demo_sha demo_data
           {| entries := {[ "bob" := demo_entry "bob" "older" 15 ]} |});
    vm_compute; reflexivity.
Defined.

Lemma cleanup_invisible_witness :
  IsRevoked 20 "bob" (Cleanup 10 demo_idx).1 = IsRevoked 20 "bob" demo_idx.
Proof. apply (cleanup_invisible 10 20 demo_idx "bob"). done. Defined.

Lemma hash_detects_divergence_witness :
  Hash demo_marshal String.string_of_list_byte demo_idx
  = Hash demo_marshal String.string_of_list_byte demo_idx <-> entries demo_idx = entries demo_idx.
Proof.
  apply (hash_detects_divergence demo_marshal String.string_of_list_byte demo_idx demo_idx);
    [apply demo_idx_wf|apply demo_idx_wf|by eexists|apply demo_inj].
Defined.
End Revocation.
