(* ===== verification/Exchange.v ===== *)
(** The token exchange engine of [pkg/exchange/engine.go]: [Exchange] as a handler over the
    engine's mutable state (the nonce tracker), the clock, and the trace of effects it has on
    the auditor, the sync bus and its callbacks. Spans and log lines are left out. *)
From Stdlib Require Import ZArith QArith Lia.
From stdpp Require Import base gmap strings list.
From S2P Require Import Prelude.
From S2P Require Import GoLib.
From S2P Require Import Core.
From S2P Require Import Execution.
From S2P Require Import Keyring.
From S2P Require Import Delegation.
From S2P Require Import Attestation.
From S2P Require Import DPoP.

#[local] Open Scope Z_scope.
#[local] Open Scope string_scope.

Module Exchange.

(** * Constants *)

Definition grantTypeTokenExchange : string := "urn:ietf:params:oauth:grant-type:token-exchange".
Definition subjectTokenTypeJWT : string := "urn:ietf:params:oauth:token-type:jwt".

(** The cases of [mapCredType] *)
Definition credTypeTable : list (string * string) := [
  (subjectTokenTypeJWT, "k8s-sa");
  ("urn:starfly:token-type:spiffe-svid", "spiffe-svid");
  ("urn:starfly:token-type:oidc", "oidc");
  ("urn:starfly:token-type:kerberos", "kerberos");
  ("urn:starfly:token-type:saml", "saml");
  ("urn:starfly:token-type:aws-sts", "aws-sts");
  ("urn:starfly:token-type:gcp-wif", "gcp-wif");
  ("urn:starfly:token-type:azure-mi", "azure-mi");
  ("urn:starfly:token-type:mtls", "mtls");
  ("urn:ietf:params:oauth:token-type:access_token", "oauth2");
  ("urn:ietf:params:oauth:token-type:saml2", "saml");
  ("urn:starfly:token-type:api-key", "api-key");
  ("urn:starfly:token-type:agent-mcp", "agent-mcp");
  ("urn:starfly:token-type:agent-a2a", "agent-a2a");
  ("urn:starfly:token-type:agent-passport", "agent-passport")].

(** * Errors *)

Inductive ExchangeErr : Type :=
| ErrInvalidGrantType (got : string)
| ErrUnsupportedToken (tokenType : string)
| ErrWorkloadValidation (e : string)
| ErrInvalidSubject (id : string)
| ErrSubjectRevoked (id : string)
| ErrAttestation (e : Attest.AttErr)
| ErrEvaluatingPolicy (e : string)
| ErrPolicyDenied (reason : string)
| ErrActorTokenInvalid
| ErrDelegationDenied (e : Delegation.DelegErr)
| ErrDPoPInvalid (e : DPoP.DPoPErr)
| ErrExec (e : Execution.ExecErr)
| ErrBuildingJWT
| ErrSettingClaim (name : string)
| ErrSigningJWT.

(** [mapCredType] *)
Definition mapCredType (tokenType : string) : result ExchangeErr string :=
  match List.find (fun kv => (tokenType =? kv.1)%string) credTypeTable with
  | Some kv => Ok kv.2
  | None => Err (ErrUnsupportedToken tokenType)
  end.

(** Effects on the engine's collaborators, in the order they happen. *)
Inductive Effect : Type :=
| EAudit (ev : AuditEvent ExchangeErr)
| EFlash (sig : Signal)
| EOnExchange (subject target result : string)
| EOnRevocationError
| EOnSecretDelivery (source result : string).

(** [secrets.SecretRef] *)
Record SecretRef : Type := {
  sr_Source : string;
  sr_Path : string;
  sr_Key : string;
  sr_Alias : string;
}.

Record EState : Type := {
  es_nonces : Execution.nonceTracker;
  es_tick : nat;
  es_trace : list Effect;
}.

Section Engine.
Context `{!JwtLib, !JwsLib, !RangeOrder}.
Context {EncKey : Type}.

(** [Engine]: collaborators are the functions the engine calls on them; a nil collaborator or
    callback is [None] or [false]. *)
Record Engine : Type := {
  e_identity : string -> string -> result string WorkloadIdentity;
  e_policy : PolicyInput -> result string PolicyDecision;
  e_keyring : option Keyring.Keyring;
  e_signKey : jwk_key;
  e_issuer : string;
  e_ttl : Duration;
  e_syncBus : option (Signal -> option string);
  e_unitID : string;
  e_revocation : option (Time -> string -> result string (option RevocationEntry));
  e_onRevocationError : bool;
  e_executionTTL : Duration;
  e_onExchange : bool;
  e_secretSource : option (list SecretRef -> result string (gmap string string));
  e_encryptionKeyStore : option (string -> result string EncKey);
  e_onSecretDelivery : bool;
  e_devMode : bool;
}.

(** The successive readings of [time.Now()], and [secrets.EncryptSecretBundle]. *)
Variable clock : nat -> Time.
Variable EncryptSecretBundle : gmap string string -> EncKey -> result string string.

Abbreviation Ex A := (M EState ExchangeErr A) (only parsing).

Definition time_now : Ex Time := fun s =>
  ({| es_nonces := es_nonces s; es_tick := S (es_tick s); es_trace := es_trace s |},
   Ok (clock (es_tick s))).

Definition emit (ef : Effect) : Ex unit := fun s =>
  ({| es_nonces := es_nonces s; es_tick := es_tick s; es_trace := (es_trace s ++ [ef])%list |}, Ok tt).

Definition audit_event (typ action subject target decision : string) (reason : Reason ExchangeErr)
    (meta : gmap string value) : AuditEvent ExchangeErr :=
  {| au_Type := typ; au_Action := action; au_Subject := subject; au_Target := target;
     au_Decision := decision; au_Reason := reason; au_Metadata := meta; au_UnitID := "" |}.

(** [attestationAssurance] *)
Definition attestationAssurance (e : Engine) (att : ServerAttestation) : string :=
  let level := AssuranceLevel (Some att) in
  if negb (e_devMode e) && (level =? "hardware")%string then "software" else level.

(** [PublicKeySet] of the engine *)
Definition PublicKeySet (e : Engine) : option (list jwk_key) :=
  match e_keyring e with
  | Some kr => match Keyring.PublicKeySet kr with Ok set => Some set | Err _ => None end
  | None =>
      match jwk_PublicKey (e_signKey e) with
      | None => None
      | Some pub => jwkset_AddKey [] pub
      end
  end.

(** [publicKeySet]: an empty set when [PublicKeySet] fails *)
Definition publicKeySet (e : Engine) : list jwk_key :=
  match PublicKeySet e with Some set => set | None => [] end.

(** Step 3c: the revocation check, which fails open when the index reports an error. *)
Definition checkRevocation (e : Engine) (req : TokenExchangeRequest) (w : WorkloadIdentity) : Ex unit :=
  match e_revocation e with
  | None => st_ret tt
  | Some isRevoked =>
      do now <- time_now ;;
      match isRevoked now (wi_ID w) with
      | Err revokeErr =>
          do _ <- emit (EAudit (audit_event "exchange" "revocation_check_failed" (wi_ID w)
                     (Audience req) "allowed"
                     (RText ("revocation check failed, failing open: " +:+ revokeErr)) ∅)) ;;
          if e_onRevocationError e then emit EOnRevocationError else st_ret tt
      | Ok (Some entry) =>
          let reason := if str_nonempty (re_Reason entry)
                        then "subject identity revoked: " +:+ re_Reason entry
                        else "subject identity revoked" in
          do _ <- emit (EAudit (audit_event "exchange" "token_exchange" (wi_ID w) (Audience req)
                     "denied" (RText reason) ∅)) ;;
          st_fail (ErrSubjectRevoked (wi_ID w))
      | Ok None => st_ret tt
      end
  end.

(** Inserts an entry when a string is not empty. *)
Definition put_nonempty (k s : string) (m : gmap string value) : gmap string value :=
  if str_nonempty s then <[k := VStr s]> m else m.

(** Step 3d: attestation validation and its audit events. *)
Definition evaluateAttestation (e : Engine) (req : TokenExchangeRequest) (w : WorkloadIdentity)
    : Ex unit :=
  match Attestation req with
  | None => st_ret tt
  | Some att =>
      do now <- time_now ;;
      do now' <- time_now ;;
      match Attest.ValidateAttestation now now' (Some att) 0 with
      | Err err =>
          do _ <- emit (EAudit (audit_event "exchange" "attestation_invalid" (wi_ID w) (Audience req)
                     "denied" (RErr (ErrAttestation err)) ∅)) ;;
          st_fail (ErrAttestation err)
      | Ok _ =>
          let meta := <["source" := VStr (pf_Source (att_Platform att))]>
                      (<["assurance_level" := VStr (attestationAssurance e att)]>
                      (<["agent_version" := VStr (att_AgentVersion att)]> ∅)) in
          let meta := match att_Workload att with
                      | Some wl => put_nonempty "binary_hash" (wl_BinaryHash wl) meta
                      | None => meta
                      end in
          emit (EAudit (audit_event "exchange" "attestation_evaluated" (wi_ID w) (Audience req)
                  "allowed" (RText "") meta))
      end
  end.

(** The attestation map injected into the policy input (SA-003). *)
Definition attestationContext (e : Engine) (att : ServerAttestation) : gmap string value :=
  let platform := <["source" := VStr (pf_Source (att_Platform att))]>
                  (<["cred_type" := VStr (pf_CredType (att_Platform att))]> ∅) in
  let platform := match pf_Metadata (att_Platform att) with
                  | Some md => <["metadata" := VObj (VStr <$> md)]> platform
                  | None => platform
                  end in
  let attestMap := <["platform" := VObj platform]>
                   (<["agent_version" := VStr (att_AgentVersion att)]>
                   (<["assurance_level" := VStr (attestationAssurance e att)]> ∅)) in
  let attestMap :=
    match att_Workload att with
    | None => attestMap
    | Some w =>
        let wl := put_nonempty "binary_hash" (wl_BinaryHash w) ∅ in
        let wl := put_nonempty "namespace" (wl_Namespace w) wl in
        let wl := put_nonempty "pod_name" (wl_PodName w) wl in
        let wl := put_nonempty "image_digest" (wl_ImageDigest w) wl in
        let wl := put_nonempty "node_name" (wl_NodeName w) wl in
        if (0 <? size wl)%nat then <["workload" := VObj wl]> attestMap else attestMap
    end in
  if (0 <? length (att_Hardware att))%nat then
    <["hardware" := VArr ((fun h => VObj {[ "type" := VStr (hw_Type h) ]}) <$> att_Hardware att)]> attestMap
  else attestMap.

(** Step 4: the policy input. *)
Definition buildPolicyInput (e : Engine) (req : TokenExchangeRequest) (w : WorkloadIdentity)
    (credType : string) : PolicyInput :=
  let ctx := {[ "scope" := VStr (Scope req) ]} in
  let ctx := if HasPrefix credType "agent-"
             then <["is_agent" := VBool true]> (<["agent_platform" := VStr credType]> ctx) else ctx in
  let ctx := match Attestation req with
             | Some att => <["attestation" := VObj (attestationContext e att)]> ctx
             | None => ctx
             end in
  {| pi_Action := "exchange"; pi_Subject := w; pi_Target := Audience req; pi_Context := ctx |}.

(** Steps 4 and 5: evaluation, and the audited denial. *)
Definition evaluatePolicy (e : Engine) (req : TokenExchangeRequest) (w : WorkloadIdentity)
    (input : PolicyInput) : Ex PolicyDecision :=
  match e_policy e input with
  | Err err => st_fail (ErrEvaluatingPolicy err)
  | Ok decision =>
      if negb (Allowed decision) then
        do _ <- emit (EAudit (audit_event "exchange" "token_exchange" (wi_ID w) (Audience req)
                   "denied" (RText (pd_Reason decision)) ∅)) ;;
        st_fail (ErrPolicyDenied (pd_Reason decision))
      else st_ret decision
  end.

(** The capabilities and the blast radius the policy decision asks for. *)
Definition requestedCaps (d : PolicyDecision) : list string :=
  match pd_Claims d !! "caps" with
  | Some caps => match as_array caps with Some l => strings_of l | None => [] end
  | None => []
  end.
Definition requestedBR (d : PolicyDecision) : string :=
  match pd_Claims d !! "blast_radius" with
  | Some br => match as_string br with Some s => s | None => "" end
  | None => ""
  end.

(** Step 5a: the delegation chain of an on-behalf-of request. *)
Definition checkDelegation (e : Engine) (req : TokenExchangeRequest) (w : WorkloadIdentity)
    (d : PolicyDecision) : Ex (option Delegation.delegationContext) :=
  if (ActorToken req =? "")%string then st_ret None else
  do now <- time_now ;;
  match jwt_Parse (publicKeySet e) now (ActorToken req) with
  | None =>
      do _ <- emit (EAudit (audit_event "exchange" "token_exchange" (wi_ID w) (Audience req)
                 "denied" (RErr ErrActorTokenInvalid) ∅)) ;;
      st_fail ErrActorTokenInvalid
  | Some actor =>
      match Delegation.parseDelegationContext actor with
      | Err dcErr => st_fail (ErrDelegationDenied dcErr)
      | Ok dc =>
          match Delegation.validateDelegation dc (requestedCaps d) (requestedBR d) with
          | Err err =>
              do _ <- emit (EAudit (audit_event "exchange" "token_exchange" (wi_ID w) (Audience req)
                         "denied" (RErr (ErrDelegationDenied err)) ∅)) ;;
              st_fail (ErrDelegationDenied err)
          | Ok _ => st_ret (Some dc)
          end
      end
  end.

(** Step 5b: the DPoP proof. *)
Definition checkDPoP (req : TokenExchangeRequest) : Ex (option string) :=
  if (DPoPProof req =? "")%string then st_ret None else
  do now <- time_now ;;
  do now' <- time_now ;;
  match DPoP.validateDPoP now now' (DPoPProof req) with
  | Err err => st_fail (ErrDPoPInvalid err)
  | Ok thumbprint => st_ret (Some thumbprint)
  end.

(** [e.nonces.check(nonce)] on the engine's state *)
Definition check_nonce (nonce : string) : Ex unit :=
  do now <- time_now ;;
  fun s => match Execution.check now nonce (es_nonces s) with
           | (n', r) =>
               ({| es_nonces := n'; es_tick := es_tick s; es_trace := es_trace s |},
                match r with Ok u => Ok u | Err err => Err (ErrExec err) end)
           end.

(** Step 5c: the execution scope and its nonce. *)
Definition checkExecutionScope (req : TokenExchangeRequest) : Ex (option ExecutionScope) :=
  match req_ExecutionScope req with
  | None => st_ret None
  | Some scope =>
      match Execution.validateExecutionScope scope with
      | Err err => st_fail (ErrExec err)
      | Ok _ => do _ <- check_nonce (Nonce scope) ;; st_ret (Some scope)
      end
  end.

(** * Secret delivery *)

Definition field_string (m : gmap string value) (k : string) : string :=
  match m !! k with
  | Some v => match as_string v with Some s => s | None => "" end
  | None => ""
  end.

(** One element of [secret_refs]: kept when it is an object that names a source, a path and a key. *)
Definition parseSecretRef (raw : value) : option SecretRef :=
  match as_object raw with
  | None => None
  | Some m =>
      let ref := {| sr_Source := field_string m "source"; sr_Path := field_string m "path";
                    sr_Key := field_string m "key"; sr_Alias := field_string m "alias" |} in
      if str_nonempty (sr_Source ref) && str_nonempty (sr_Path ref) && str_nonempty (sr_Key ref)
      then Some ref else None
  end.

Definition callMetric (e : Engine) (res : string) : Ex unit :=
  if e_onSecretDelivery e then emit (EOnSecretDelivery "registry" res) else st_ret tt.

(** [deliverSecrets]: the empty string when nothing can be delivered. *)
Definition deliverSecrets (e : Engine)
    (fetch : list SecretRef -> result string (gmap string string))
    (workloadID : string) (d : PolicyDecision) : Ex string :=
  match pd_Claims d !! "secret_refs" with
  | None => st_ret ""
  | Some rawRefs =>
      match as_array rawRefs with
      | None | Some [] => st_ret ""
      | Some refSlice =>
          match omap parseSecretRef refSlice with
          | [] => st_ret ""
          | refs =>
              match e_encryptionKeyStore e with
              | None => do _ <- callMetric e "no_key" ;; st_ret ""
              | Some get =>
                  match get workloadID with
                  | Err _ => do _ <- callMetric e "no_key" ;; st_ret ""
                  | Ok encKey =>
                      match fetch refs with
                      | Err _ => do _ <- callMetric e "source_unavailable" ;; st_ret ""
                      | Ok bundle =>
                          match EncryptSecretBundle bundle encKey with
                          | Err _ => do _ <- callMetric e "encrypt_error" ;; st_ret ""
                          | Ok encrypted => do _ <- callMetric e "ok" ;; st_ret encrypted
                          end
                      end
                  end
              end
          end
      end
  end.

(** Step 5d. *)
Definition secretDelivery (e : Engine) (w : WorkloadIdentity) (d : PolicyDecision) : Ex string :=
  match e_secretSource e with
  | None => st_ret ""
  | Some fetch => deliverSecrets e fetch (wi_ID w) d
  end.

(** * Minting

    The successive [token.Set] calls of step 6, as the list of claims they set in order. *)

Definition opt_claim (name : string) (o : option value) : list (string * value) :=
  match o with Some v => [(name, v)] | None => [] end.
Definition nonempty_claim (name s : string) : list (string * value) :=
  if str_nonempty s then [(name, VStr s)] else [].

Definition policyClaims (d : PolicyDecision) (deleg : option Delegation.delegationContext)
    : list (string * value) :=
  (opt_claim "caps" (pd_Claims d !! "caps") ++
   opt_claim "blast_radius" (pd_Claims d !! "blast_radius") ++
   match deleg with
   | None => opt_claim "delegation_depth" (pd_Claims d !! "delegation_depth")
   | Some _ => []
   end)%list.

Definition delegationClaims (deleg : option Delegation.delegationContext) : list (string * value) :=
  match deleg with
  | None => []
  | Some dc =>
      ((if (0 <=? Delegation.newDepth dc)%Z
        then [("delegation_depth", VInt (Delegation.newDepth dc))] else []) ++
       [("obo", VArr (Delegation.buildOBOChain dc))])%list
  end.

Definition dpopClaims (dpop : option string) : list (string * value) :=
  match dpop with
  | None => []
  | Some jkt => [("cnf", VObj {[ "jkt" := VStr jkt ]})]
  end.

Definition attestationClaims (e : Engine) (req : TokenExchangeRequest) : list (string * value) :=
  match Attestation req with
  | None => []
  | Some att =>
      let platform := <["source" := VStr (pf_Source (att_Platform att))]>
                      (<["cred_type" := VStr (pf_CredType (att_Platform att))]> ∅) in
      let claims := <["platform" := VObj platform]>
                    (<["agent_version" := VStr (att_AgentVersion att)]> ∅) in
      let claims := match att_Workload att with
                    | None => claims
                    | Some w =>
                        let wl := put_nonempty "namespace" (wl_Namespace w)
                                    (put_nonempty "binary_hash" (wl_BinaryHash w) ∅) in
                        if (0 <? size wl)%nat then <["workload" := VObj wl]> claims else claims
                    end in
      [("assurance_level", VStr (attestationAssurance e att)); ("attestation", VObj claims)]
  end.

Definition executionClaims (execScope : option ExecutionScope) : list (string * value) :=
  match execScope with
  | None => []
  | Some sc =>
      ([("htm", VStr (Method sc)); ("htu", VStr (URI sc))] ++
       nonempty_claim "inp_hash" (Execution.scopeHash sc) ++
       nonempty_claim "exec_act" (ExecAct sc) ++
       nonempty_claim "target" (Target sc) ++
       nonempty_claim "wid" (WorkflowID sc) ++
       [("nonce", VStr (Nonce sc))])%list
  end.

Definition tokenClaims (e : Engine) (req : TokenExchangeRequest) (w : WorkloadIdentity)
    (d : PolicyDecision) (deleg : option Delegation.delegationContext) (dpop : option string)
    (execScope : option ExecutionScope) (secretsClaim : string) : list (string * value) :=
  ([("td", VStr (wi_TrustDomain w))] ++ policyClaims d deleg ++ delegationClaims deleg ++
   dpopClaims dpop ++ attestationClaims e req ++ executionClaims execScope ++
   nonempty_claim "secrets" secretsClaim)%list.

Fixpoint setClaims (t : jwt_token) (l : list (string * value)) : result ExchangeErr jwt_token :=
  match l with
  | [] => Ok t
  | (name, v) :: l' =>
      match jwt_Set t name v with
      | Some t' => setClaims t' l'
      | None => Err (ErrSettingClaim name)
      end
  end.

Definition activeSigningKey (e : Engine) : option jwk_key :=
  match e_keyring e with
  | Some kr => Keyring.ActiveKey kr
  | None => Some (e_signKey e)
  end.

Definition tokenTTL (e : Engine) (execScope : option ExecutionScope) : Duration :=
  match execScope with Some _ => e_executionTTL e | None => e_ttl e end.

(** Step 6: the token built at [now], and its signature. *)
Definition buildToken (e : Engine) (now : Time) (req : TokenExchangeRequest) (w : WorkloadIdentity)
    (d : PolicyDecision) (deleg : option Delegation.delegationContext) (dpop : option string)
    (execScope : option ExecutionScope) (secretsClaim : string) : result ExchangeErr jwt_token :=
  match jwt_Build (wi_ID w) (e_issuer e) [Audience req] now (now + tokenTTL e execScope)%Z with
  | None => Err ErrBuildingJWT
  | Some t => setClaims t (tokenClaims e req w d deleg dpop execScope secretsClaim)
  end.

Definition signToken (e : Engine) (t : jwt_token) : result ExchangeErr string :=
  match activeSigningKey e with
  | None => Err ErrSigningJWT
  | Some k => match jwt_Sign k t with Some s => Ok s | None => Err ErrSigningJWT end
  end.

(** Step 7: the audited allow. *)
Definition auditAllow (req : TokenExchangeRequest) (w : WorkloadIdentity) (secretsClaim : string)
    : Ex unit :=
  emit (EAudit (audit_event "exchange" "token_exchange" (wi_ID w) (Audience req) "allowed" (RText "")
    (if str_nonempty secretsClaim then {[ "secret_delivery" := VStr "ok" ]} else ∅))).

(** Step 8: the signal to the sync bus; a failure is audited and ignored. *)
Definition flashSignal (e : Engine) (req : TokenExchangeRequest) (w : WorkloadIdentity) : Ex unit :=
  match e_syncBus e with
  | None => st_ret tt
  | Some flash =>
      let sig := {| sig_Type := "identity_event"; sig_Source := ""; sig_Timestamp := 0;
                    sig_Payload := <["workload_id" := VStr (wi_ID w)]>
                      (<["audience" := VStr (Audience req)]>
                      (<["trust_domain" := VStr (wi_TrustDomain w)]> ∅)) |} in
      do _ <- emit (EFlash sig) ;;
      match flash sig with
      | Some err => emit (EAudit (audit_event "sync" "signal_flash_failed" (wi_ID w) (Audience req)
                            "" (RText err) ∅))
      | None => emit (EAudit (audit_event "sync" "signal_flashed" (wi_ID w) (Audience req)
                        "" (RText "") ∅))
      end
  end.

(** Steps 9 and 10. [int(ttl.Seconds())] drops the fraction of a second. *)
Definition response (e : Engine) (req : TokenExchangeRequest)
    (deleg : option Delegation.delegationContext) (execScope : option ExecutionScope)
    (signed : string) : TokenExchangeResponse :=
  {| AccessToken := signed;
     IssuedTokenType := subjectTokenTypeJWT;
     TokenType := "Bearer";
     ExpiresIn := Z.quot (tokenTTL e execScope) Second;
     resp_Scope := Scope req;
     DelegationDepth := match deleg with
                        | Some dc => Z.of_nat (length (Delegation.OBOChain dc) + 1)
                        | None => 0
                        end |}.

(** The gates before minting: grant type, credential type, identity, subject form. *)
Definition authenticate (e : Engine) (req : TokenExchangeRequest)
    : result ExchangeErr (string * WorkloadIdentity) :=
  let? _ := reject (negb (GrantType req =? grantTypeTokenExchange)%string)
              (ErrInvalidGrantType (GrantType req)) in
  let? credType := mapCredType (SubjectTokenType req) in
  match e_identity e (SubjectToken req) credType with
  | Err err => Err (ErrWorkloadValidation err)
  | Ok w =>
      let? _ := reject (1 <? Count (wi_ID w) "wimse://")%nat (ErrInvalidSubject (wi_ID w)) in
      Ok (credType, w)
  end.

(** What steps 1 to 6 leave in scope for the announcement of the token. *)
Record Minted : Type := {
  m_workload : WorkloadIdentity;
  m_delegation : option Delegation.delegationContext;
  m_execScope : option ExecutionScope;
  m_secretsClaim : string;
  m_signed : string;
}.

(** Steps 1 to 6: every check, then the signed token. *)
Definition mint (e : Engine) (req : TokenExchangeRequest) : Ex Minted :=
  do cw <- st_lift (authenticate e req) ;;
  let credType := cw.1 in
  let w := cw.2 in
  do _ <- checkRevocation e req w ;;
  do _ <- evaluateAttestation e req w ;;
  do d <- evaluatePolicy e req w (buildPolicyInput e req w credType) ;;
  do deleg <- checkDelegation e req w d ;;
  do dpop <- checkDPoP req ;;
  do execScope <- checkExecutionScope req ;;
  do secretsClaim <- secretDelivery e w d ;;
  do now <- time_now ;;
  do t <- st_lift (buildToken e now req w d deleg dpop execScope secretsClaim) ;;
  do signed <- st_lift (signToken e t) ;;
  st_ret {| m_workload := w; m_delegation := deleg; m_execScope := execScope;
            m_secretsClaim := secretsClaim; m_signed := signed |}.

(** [Exchange]: steps 1 to 6, then audit, signal, callback and response. *)
Definition Exchange (e : Engine) (req : TokenExchangeRequest) : Ex TokenExchangeResponse :=
  do m <- mint e req ;;
  let w := m_workload m in
  do _ <- auditAllow req w (m_secretsClaim m) ;;
  do _ <- flashSignal e req w ;;
  do _ <- (if e_onExchange e then emit (EOnExchange (wi_ID w) (Audience req) "ok") else st_ret tt) ;;
  st_ret (response e req (m_delegation m) (m_execScope m) (m_signed m)).

(** * Construction *)

(** The [Option] functions *)
Inductive Option : Type :=
| WithSyncBus (bus : Signal -> option string) (unitID : string)
| WithRevocationChecker (rc : Time -> string -> result string (option RevocationEntry))
| WithOnRevocationError
| WithOnExchange
| WithIssuer (issuer : string)
| WithTTL (ttl : Duration)
| WithExecutionScopeTTL (ttl : Duration)
| WithSecretSource (reg : list SecretRef -> result string (gmap string string))
| WithEncryptionKeyStore (ks : string -> result string EncKey)
| WithOnSecretDelivery
| WithDevMode (devMode : bool).

Definition applyOption (e : Engine) (o : Option) : Engine :=
  {| e_identity := e_identity e;
     e_policy := e_policy e;
     e_keyring := e_keyring e;
     e_signKey := e_signKey e;
     e_issuer := match o with WithIssuer i => i | _ => e_issuer e end;
     e_ttl := match o with WithTTL d => d | _ => e_ttl e end;
     e_syncBus := match o with WithSyncBus b _ => Some b | _ => e_syncBus e end;
     e_unitID := match o with WithSyncBus _ u => u | _ => e_unitID e end;
     e_revocation := match o with WithRevocationChecker rc => Some rc | _ => e_revocation e end;
     e_onRevocationError := match o with WithOnRevocationError => true | _ => e_onRevocationError e end;
     e_executionTTL := match o with WithExecutionScopeTTL d => d | _ => e_executionTTL e end;
     e_onExchange := match o with WithOnExchange => true | _ => e_onExchange e end;
     e_secretSource := match o with WithSecretSource r => Some r | _ => e_secretSource e end;
     e_encryptionKeyStore :=
       match o with WithEncryptionKeyStore k => Some k | _ => e_encryptionKeyStore e end;
     e_onSecretDelivery := match o with WithOnSecretDelivery => true | _ => e_onSecretDelivery e end;
     e_devMode := match o with WithDevMode b => b | _ => e_devMode e end |}.

Inductive NewErr : Type :=
| GeneratingKey
| ImportingKey
| SettingKeyField (field : string)
| InitializingKeyring (err : Keyring.KeyringErr).

Definition new_err {A} (o : option A) (e : NewErr) : result NewErr A :=
  match o with Some a => Ok a | None => Err e end.

(** [New]; [generated] is the outcome of [rsa.GenerateKey]. The state of the new engine is
    [initState]. *)
Definition New (identity : string -> string -> result string WorkloadIdentity)
    (policy : PolicyInput -> result string PolicyDecision) (generated : option crypto_Signer)
    (opts : list Option) : result NewErr Engine :=
  let? privKey := new_err generated GeneratingKey in
  let? k0 := new_err (jwk_Import privKey) ImportingKey in
  let? k1 := new_err (jwk_Set k0 "kid" "starfly-dev-1") (SettingKeyField "kid") in
  let? k2 := new_err (jwk_Set k1 "alg" "RS256") (SettingKeyField "alg") in
  let? key := new_err (jwk_Set k2 "use" "sig") (SettingKeyField "use") in
  match Keyring.NewKeyring key with
  | Err err => Err (InitializingKeyring err)
  | Ok kr =>
      Ok (foldl applyOption
        {| e_identity := identity; e_policy := policy; e_keyring := Some kr; e_signKey := key;
           e_issuer := "starfly"; e_ttl := (5 * Minute)%Z; e_syncBus := None; e_unitID := "";
           e_revocation := None; e_onRevocationError := false;
           e_executionTTL := Execution.ExecutionScopeTTL; e_onExchange := false;
           e_secretSource := None; e_encryptionKeyStore := None; e_onSecretDelivery := false;
           e_devMode := false |} opts)
  end.

Definition initState : EState :=
  {| es_nonces := Execution.newNonceTracker; es_tick := 0; es_trace := [] |}.
End Engine.
End Exchange.
