(* ===== verification/ExchangeSpec.v ===== *)
(** Correctness of the exchange engine: what a successful exchange implies, what the minted
    token says, what a denial leaves behind, and how exchanges compose over time. *)
From Stdlib Require Import ZArith QArith Lia.
From stdpp Require Import base gmap strings list.
From S2P Require Import Prelude.
From S2P Require Import GoLib.
From S2P Require Import JwtModel.
From S2P Require Import Core.
From S2P Require Import Execution.
From S2P Require Import Keyring.
From S2P Require Import Delegation.
From S2P Require Import Attestation.
From S2P Require Import DPoP.
From S2P Require Import Revocation.
From S2P Require Import Exchange.

#[local] Open Scope Z_scope.
#[local] Open Scope string_scope.

Module ExchangeSpec.
Import Exchange.

Section Spec.
Context `{!JwtLib, !JwsLib, !RangeOrder}.
Context {EncKey : Type}.
Variable clock : nat -> Time.
Variable EncryptSecretBundle : gmap string string -> EncKey -> result string string.

Abbreviation Engine := (Engine (EncKey := EncKey)) (only parsing).
Abbreviation exchange := (Exchange clock EncryptSecretBundle).

(** * What a successful exchange went through *)

(** The revocation index, if any, did not report the subject at the instant it was asked. *)
Definition not_revoked (e : Engine) (t : Time) (sub : string) : Prop :=
  forall isRevoked entry, e_revocation e = Some isRevoked -> isRevoked t sub <> Ok (Some entry).

(** The claims of an actor token and the delegation rules against it, at an instant. *)
Definition delegation_checked (e : Engine) (req : TokenExchangeRequest) (d : PolicyDecision)
    (t : Time) (deleg : option Delegation.delegationContext) : Prop :=
  match deleg with
  | None => ActorToken req = ""
  | Some dc =>
      exists actor, jwt_Parse (publicKeySet e) t (ActorToken req) = Some actor /\
        Delegation.parseDelegationContext actor = Ok dc /\
        Delegation.validateDelegation dc (requestedCaps d) (requestedBR d) = Ok tt
  end.

Definition dpop_checked (req : TokenExchangeRequest) (t t' : Time) (dpop : option string) : Prop :=
  match dpop with
  | None => DPoPProof req = ""
  | Some jkt => DPoPProof req <> "" /\ DPoP.validateDPoP t t' (DPoPProof req) = Ok jkt
  end.

(** A reading of the clock made while the state went from [s] to [s']. *)
Definition during (s s' : EState) (n : nat) : Prop := (es_tick s <= n < es_tick s')%nat.

(** Everything the checks and the minting of a successful exchange establish. *)
Record issued (e : Engine) (req : TokenExchangeRequest) (s s' : EState) (m : Minted)
    (d : PolicyDecision) (dpop : option string) (now : Time) (t : jwt_token) : Prop := {
  is_auth : exists credType, authenticate e req = Ok (credType, m_workload m) /\
      e_policy e (buildPolicyInput e req (m_workload m) credType) = Ok d;
  is_allowed : Allowed d = true;
  is_live : not_revoked e (clock (es_tick s)) (wi_ID (m_workload m));
  is_attested : forall att, Attestation req = Some att -> exists n, during s s' n /\
      Attest.ValidateAttestation (clock n) (clock (S n)) (Some att) 0 = Ok tt;
  is_deleg : exists n, during s s' n /\ delegation_checked e req d (clock n) (m_delegation m);
  is_dpop : exists n, during s s' n /\ dpop_checked req (clock n) (clock (S n)) dpop;
  is_scope_req : m_execScope m = req_ExecutionScope req;
  is_scope : forall sc, req_ExecutionScope req = Some sc ->
      Execution.validateExecutionScope sc = Ok tt;
  is_now : exists n, during s s' n /\ now = clock n;
  is_built : buildToken e now req (m_workload m) d (m_delegation m) dpop (m_execScope m)
               (m_secretsClaim m) = Ok t;
  is_signed : signToken e t = Ok (m_signed m);
}.

(** ** Inversion of the stages *)

Lemma emit_ok ef s s' u : emit ef s = (s', Ok u) ->
  s' = {| es_nonces := es_nonces s; es_tick := es_tick s; es_trace := (es_trace s ++ [ef])%list |}.
Proof. unfold emit. by intros [= <-]. Qed.

Lemma time_now_ok s s' t : time_now clock s = (s', Ok t) ->
  t = clock (es_tick s) /\
  s' = {| es_nonces := es_nonces s; es_tick := S (es_tick s); es_trace := es_trace s |}.
Proof. unfold time_now. by intros [= <- <-]. Qed.

(** ** State relations that every stage respects *)

(** An effect that does not announce an issued token. *)
Definition quiet (ef : Effect) : bool :=
  match ef with
  | EAudit ev => negb ((au_Action ev =? "token_exchange") && (au_Decision ev =? "allowed"))%string
  | EFlash _ | EOnExchange _ _ _ => false
  | EOnRevocationError | EOnSecretDelivery _ _ => true
  end.

Section Stages.
Variable R : EState -> EState -> Prop.
Context `{!PreOrder R}.
Hypothesis R_time : respects R (time_now clock).
Hypothesis R_emit : forall ef, quiet ef = true -> respects R (emit ef).
Hypothesis R_nonce : forall nonce, respects R (check_nonce clock nonce).

Ltac stage :=
  repeat first
    [ apply respects_ret; apply _ | apply respects_fail; apply _ | apply respects_lift; apply _
    | apply R_time | apply R_nonce | apply R_emit; reflexivity
    | apply respects_bind; [apply _| |intros ?] | case_match ].

Lemma checkRevocation_respects e req w : respects R (checkRevocation clock (EncKey:=EncKey) e req w).
Proof using All. unfold checkRevocation. stage. Qed.

Lemma evaluateAttestation_respects e req w :
  respects R (evaluateAttestation clock (EncKey:=EncKey) e req w).
Proof using All. unfold evaluateAttestation. stage. Qed.

Lemma evaluatePolicy_respects e req w i : respects R (evaluatePolicy (EncKey:=EncKey) e req w i).
Proof using All. unfold evaluatePolicy. stage. Qed.

Lemma checkDelegation_respects e req w d :
  respects R (checkDelegation clock (EncKey:=EncKey) e req w d).
Proof using All. unfold checkDelegation. stage. Qed.

Lemma checkDPoP_respects req : respects R (checkDPoP clock req).
Proof using All. unfold checkDPoP. stage. Qed.

Lemma checkExecutionScope_respects req : respects R (checkExecutionScope clock req).
Proof using All. unfold checkExecutionScope. stage. Qed.

Lemma secretDelivery_respects e w d : respects R (secretDelivery EncryptSecretBundle e w d).
Proof using All. unfold secretDelivery, deliverSecrets, callMetric. stage. Qed.

Lemma mint_respects e req : respects R (mint clock EncryptSecretBundle e req).
Proof using All.
  unfold mint.
  repeat first
    [ apply checkRevocation_respects | apply evaluateAttestation_respects
    | apply evaluatePolicy_respects | apply checkDelegation_respects | apply checkDPoP_respects
    | apply checkExecutionScope_respects | apply secretDelivery_respects | progress stage ].
Qed.

Lemma Exchange_respects (e : Engine) req :
  (forall ef, respects R (emit ef)) -> respects R (exchange e req).
Proof using All.
  intros Hall. unfold Exchange, auditAllow, flashSignal.
  apply respects_bind; [apply _|apply mint_respects|intros m].
  repeat first [ apply Hall | progress stage ].
Qed.
End Stages.

(** Stages never turn the clock back. *)
Definition ticks (s s' : EState) : Prop := (es_tick s <= es_tick s')%nat.
#[local] Instance ticks_preorder : PreOrder ticks.
Proof. split; [intros s; unfold ticks; lia | intros s1 s2 s3; unfold ticks; lia]. Qed.

Lemma ticks_time : respects ticks (time_now clock).
Proof. intros s. unfold ticks. cbn. lia. Qed.
Lemma ticks_emit ef : respects ticks (emit ef).
Proof. intros s. unfold ticks. cbn. lia. Qed.
Lemma ticks_nonce nonce : respects ticks (check_nonce clock nonce).
Proof.
  intros s. unfold ticks, check_nonce, st_bind. cbn.
  destruct (Execution.check _ _ _) as [n' [u|err]]; cbn; lia.
Qed.
#[local] Hint Resolve ticks_preorder ticks_time ticks_emit ticks_nonce : go.
#[local] Hint Resolve checkRevocation_respects evaluateAttestation_respects evaluatePolicy_respects
  checkDelegation_respects checkDPoP_respects checkExecutionScope_respects secretDelivery_respects
  mint_respects : go.

Lemma ticks_of {A} (m : M EState ExchangeErr A) s s' r :
  respects ticks m -> m s = (s', r) -> (es_tick s <= es_tick s')%nat.
Proof. intros Hr Hm. specialize (Hr s). by rewrite Hm in Hr. Qed.

Lemma checkRevocation_ok (e : Engine) req w s s' u :
  checkRevocation clock e req w s = (s', Ok u) -> not_revoked e (clock (es_tick s)) (wi_ID w).
Proof.
  unfold checkRevocation, not_revoked. intros Hc isRevoked entry He Hr. rewrite He in Hc.
  apply st_bind_ok in Hc as (s1 & t & [-> ->]%time_now_ok & Hc). rewrite Hr in Hc.
  apply st_bind_ok in Hc as (? & ? & _ & Hc). inv_ok.
Qed.

Lemma evaluateAttestation_ok (e : Engine) req w s s' u att :
  evaluateAttestation clock e req w s = (s', Ok u) -> Attestation req = Some att ->
  during s s' (es_tick s) /\
  Attest.ValidateAttestation (clock (es_tick s)) (clock (S (es_tick s))) (Some att) 0 = Ok tt.
Proof.
  unfold evaluateAttestation. intros Hc Ha. rewrite Ha in Hc.
  apply st_bind_ok in Hc as (s1 & t & [-> ->]%time_now_ok & Hc).
  apply st_bind_ok in Hc as (s2 & t' & [-> ->]%time_now_ok & Hc). cbn [es_tick] in Hc.
  destruct (Attest.ValidateAttestation _ _ _ _) as [[]|err].
  - apply emit_ok in Hc as ->. split; [unfold during; cbn; lia|done].
  - apply st_bind_ok in Hc as (? & ? & _ & Hc). inv_ok.
Qed.

Lemma evaluatePolicy_ok (e : Engine) req w i s s' d :
  evaluatePolicy e req w i s = (s', Ok d) -> s' = s /\ e_policy e i = Ok d /\ Allowed d = true.
Proof.
  unfold evaluatePolicy. destruct (e_policy e i) as [d'|]; [|done].
  destruct (Allowed d') eqn:Ha; cbn; intros Hc; by inv_ok.
Qed.

Lemma checkDelegation_ok (e : Engine) req w d s s' deleg :
  checkDelegation clock e req w d s = (s', Ok deleg) ->
  delegation_checked e req d (clock (es_tick s)) deleg.
Proof.
  unfold checkDelegation. destruct (String.eqb_spec (ActorToken req) ""); intros Hc; [by inv_ok|].
  apply st_bind_ok in Hc as (s1 & t & [-> ->]%time_now_ok & Hc).
  destruct (jwt_Parse _ _ _) as [actor|] eqn:Hp;
    [|apply st_bind_ok in Hc as (? & ? & _ & Hc); by inv_ok].
  destruct (Delegation.parseDelegationContext actor) as [dc|] eqn:Hdc; [|done].
  destruct (Delegation.validateDelegation _ _ _) as [[]|] eqn:Hv;
    [|apply st_bind_ok in Hc as (? & ? & _ & Hc); by inv_ok].
  inv_ok. cbn. eauto.
Qed.

Lemma checkDPoP_ok req s s' dpop :
  checkDPoP clock req s = (s', Ok dpop) ->
  dpop_checked req (clock (es_tick s)) (clock (S (es_tick s))) dpop.
Proof.
  unfold checkDPoP. destruct (String.eqb_spec (DPoPProof req) ""); intros Hc; [by inv_ok|].
  apply st_bind_ok in Hc as (s1 & t & [-> ->]%time_now_ok & Hc).
  apply st_bind_ok in Hc as (s2 & t' & [-> ->]%time_now_ok & Hc). cbn [es_tick] in Hc.
  destruct (DPoP.validateDPoP _ _ _) eqn:Hv; by inv_ok.
Qed.

Lemma checkExecutionScope_ok req s s' sc :
  checkExecutionScope clock req s = (s', Ok sc) ->
  sc = req_ExecutionScope req /\
  forall scope, req_ExecutionScope req = Some scope ->
    Execution.validateExecutionScope scope = Ok tt /\
    exists n', Execution.check (clock (es_tick s)) (Nonce scope) (es_nonces s) = (n', Ok tt) /\
      es_nonces s' = n' /\ es_tick s' = S (es_tick s).
Proof.
  unfold checkExecutionScope. destruct (req_ExecutionScope req) as [scope|]; intros Hc; [|by inv_ok].
  destruct (Execution.validateExecutionScope scope) as [[]|] eqn:Hv; [|done].
  apply st_bind_ok in Hc as (s1 & u & Hn & Hc). inv_ok. split; [done|]. intros ? [= <-].
  split; [done|]. unfold check_nonce in Hn.
  apply st_bind_ok in Hn as (s2 & t & [-> ->]%time_now_ok & Hn). cbn in Hn.
  destruct (Execution.check _ _ _) as [n' [[]|]]; simplify_eq. eauto.
Qed.

(** The inversion of steps 1 to 6. *)
Lemma mint_ok (e : Engine) req s s' m :
  mint clock EncryptSecretBundle e req s = (s', Ok m) ->
  exists d dpop now t, issued e req s s' m d dpop now t.
Proof.
  unfold mint. intros Hm.
  apply st_bind_ok in Hm as (s0 & [ct w] & Ha & Hm). injection Ha as <- Ha.
  apply st_bind_ok in Hm as (s1 & u1 & H1' & Hm). apply st_bind_ok in Hm as (s2 & u2 & H2' & Hm).
  apply st_bind_ok in Hm as (s3 & d & H3' & Hm). apply st_bind_ok in Hm as (s4 & deleg & H4' & Hm).
  apply st_bind_ok in Hm as (s5 & dpop & H5' & Hm). apply st_bind_ok in Hm as (s6 & sc & H6' & Hm).
  apply st_bind_ok in Hm as (s7 & sec & H7' & Hm).
  apply st_bind_ok in Hm as (s8 & now & [-> ->]%time_now_ok & Hm).
  apply st_bind_ok in Hm as (s9 & t & Hb & Hm). apply st_bind_ok in Hm as (s10 & sg & Hs & Hm).
  inv_ok. cbn in *.
  assert (es_tick s <= es_tick s1)%nat by (eapply ticks_of; [|exact H1']; auto with go).
  assert (es_tick s1 <= es_tick s2)%nat by (eapply ticks_of; [|exact H2']; auto with go).
  assert (es_tick s2 <= es_tick s3)%nat by (eapply ticks_of; [|exact H3']; auto with go).
  assert (es_tick s3 <= es_tick s4)%nat by (eapply ticks_of; [|exact H4']; auto with go).
  assert (es_tick s4 <= es_tick s5)%nat by (eapply ticks_of; [|exact H5']; auto with go).
  assert (es_tick s5 <= es_tick s6)%nat by (eapply ticks_of; [|exact H6']; auto with go).
  assert (es_tick s6 <= es_tick s7)%nat by (eapply ticks_of; [|exact H7']; auto with go).
  pose proof (checkRevocation_ok _ _ _ _ _ _ H1'). apply evaluatePolicy_ok in H3' as (-> & Hp & Hal).
  apply checkDelegation_ok in H4'. apply checkDPoP_ok in H5'.
  apply checkExecutionScope_ok in H6' as [-> Hsc]. exists d, dpop, (clock (es_tick s7)), t.
  split; cbn; try done.
  - eauto.
  - intros att Hatt. destruct (evaluateAttestation_ok _ _ _ _ _ _ _ H2' Hatt) as [Hd Hv].
    exists (es_tick s1). unfold during in *. cbn. split; [lia|done].
  - exists (es_tick s2). unfold during. cbn. split; [lia|done].
  - exists (es_tick s4). unfold during. cbn. split; [lia|done].
  - intros sc Hsc'. by apply Hsc.
  - exists (es_tick s7). unfold during. cbn. split; [lia|done].
Qed.

Lemma flashSignal_Ok (e : Engine) req w s : snd (flashSignal e req w s) = Ok tt.
Proof. unfold flashSignal. case_match; [|done]. cbn. by case_match. Qed.

Lemma Exchange_ok (e : Engine) req s s' resp :
  exchange e req s = (s', Ok resp) ->
  exists s1 m, mint clock EncryptSecretBundle e req s = (s1, Ok m) /\
    (es_tick s1 = es_tick s' /\ es_nonces s1 = es_nonces s') /\
    resp = response e req (m_delegation m) (m_execScope m) (m_signed m).
Proof.
  unfold Exchange. intros He. apply st_bind_ok in He as (s1 & m & Hm & He).
  exists s1, m. split; [done|]. unfold auditAllow, flashSignal, emit, st_bind, st_ret in He.
  destruct (e_syncBus e) as [f|]; [destruct (f _)|]; destruct (e_onExchange e); by inv_ok.
Qed.

(** * The claims of the minted token *)

Fixpoint last_claim (k : string) (l : list (string * value)) : option value :=
  match l with
  | [] => None
  | (n, v) :: l' =>
      match last_claim k l' with
      | Some x => Some x
      | None => if (n =? k)%string then Some v else None
      end
  end.

Lemma last_claim_app k l1 l2 :
  last_claim k (l1 ++ l2) =
  match last_claim k l2 with Some v => Some v | None => last_claim k l1 end.
Proof.
  induction l1 as [|[n v] l1 IH]; cbn; [by destruct (last_claim k l2)|]. rewrite IH.
  by destruct (last_claim k l2).
Qed.

(** The claims a group sets are among these names. *)
Definition named (names : list string) (l : list (string * value)) : bool :=
  forallb (fun kv => str_mem kv.1 names) l.

Lemma named_app names l1 l2 : named names (l1 ++ l2) = named names l1 && named names l2.
Proof. apply forallb_app. Qed.

Lemma last_claim_named k names l :
  named names l = true -> str_mem k names = false -> last_claim k l = None.
Proof.
  unfold named. induction l as [|[n v] l IH]; cbn; [done|].
  intros [Hn Hl]%andb_true_iff Hk. rewrite IH by done.
  destruct (String.eqb_spec n k) as [->|]; [congruence|done].
Qed.

Lemma policyClaims_named d deleg :
  named ["caps"; "blast_radius"; "delegation_depth"] (policyClaims d deleg) = true.
Proof. unfold policyClaims, opt_claim. repeat case_match; reflexivity. Qed.
Lemma delegationClaims_named deleg :
  named ["delegation_depth"; "obo"] (delegationClaims deleg) = true.
Proof. unfold delegationClaims. repeat case_match; reflexivity. Qed.
Lemma dpopClaims_named dpop : named ["cnf"] (dpopClaims dpop) = true.
Proof. unfold dpopClaims. repeat case_match; reflexivity. Qed.
Lemma attestationClaims_named (e : Engine) req :
  named ["assurance_level"; "attestation"] (attestationClaims e req) = true.
Proof. unfold attestationClaims. destruct (Attestation req); reflexivity. Qed.
Lemma executionClaims_named sc :
  named ["htm"; "htu"; "inp_hash"; "exec_act"; "target"; "wid"; "nonce"] (executionClaims sc) = true.
Proof.
  unfold executionClaims, nonempty_claim. destruct sc as [sc|]; [|done].
  rewrite !named_app. repeat case_match; reflexivity.
Qed.
Lemma secretsClaims_named sec : named ["secrets"] (nonempty_claim "secrets" sec) = true.
Proof. unfold nonempty_claim. by case_match. Qed.

(** Reads a claim of the whole list: groups that cannot hold it are skipped. *)
Ltac read_claim :=
  unfold tokenClaims; rewrite !last_claim_app;
  rewrite ?(last_claim_named _ _ _ (policyClaims_named _ _)) by reflexivity;
  rewrite ?(last_claim_named _ _ _ (delegationClaims_named _)) by reflexivity;
  rewrite ?(last_claim_named _ _ _ (dpopClaims_named _)) by reflexivity;
  rewrite ?(last_claim_named _ _ _ (attestationClaims_named _ _)) by reflexivity;
  rewrite ?(last_claim_named _ _ _ (executionClaims_named _)) by reflexivity;
  rewrite ?(last_claim_named _ _ _ (secretsClaims_named _)) by reflexivity.

Lemma named_weaken names names' l :
  named names l = true -> forallb (fun n => str_mem n names') names = true -> named names' l = true.
Proof.
  unfold named. rewrite !forallb_forall. intros Hl Hn kv Hin.
  apply Hn, list_elem_of_In, str_mem_true. by apply Hl.
Qed.

Definition private_names : list string :=
  ["td"; "caps"; "blast_radius"; "delegation_depth"; "obo"; "cnf"; "assurance_level"; "attestation";
   "htm"; "htu"; "inp_hash"; "exec_act"; "target"; "wid"; "nonce"; "secrets"].

Lemma tokenClaims_named (e : Engine) req w d deleg dpop sc sec :
  named private_names (tokenClaims e req w d deleg dpop sc sec) = true.
Proof.
  unfold tokenClaims. rewrite !named_app.
  rewrite (named_weaken _ private_names _ (policyClaims_named _ _)) by reflexivity.
  rewrite (named_weaken _ private_names _ (delegationClaims_named _)) by reflexivity.
  rewrite (named_weaken _ private_names _ (dpopClaims_named _)) by reflexivity.
  rewrite (named_weaken _ private_names _ (attestationClaims_named _ _)) by reflexivity.
  rewrite (named_weaken _ private_names _ (executionClaims_named _)) by reflexivity.
  by rewrite (named_weaken _ private_names _ (secretsClaims_named _)).
Qed.

Lemma private_not_registered n : str_mem n private_names = true -> n ∉ registered_claims.
Proof.
  intros Hn%str_mem_true%list_elem_of_In Hr%str_mem_true.
  assert (Hd : forallb (fun n => negb (str_mem n registered_claims)) private_names = true) by done.
  rewrite forallb_forall in Hd. apply Hd in Hn. by rewrite Hr in Hn.
Qed.

Lemma setClaims_ok `{!JwtLaws} t l t' :
  named private_names l = true -> setClaims t l = Ok t' ->
  (jwt_Subject t' = jwt_Subject t /\ jwt_Issuer t' = jwt_Issuer t /\
   jwt_Audience t' = jwt_Audience t /\ jwt_IssuedAt t' = jwt_IssuedAt t /\
   jwt_Expiration t' = jwt_Expiration t) /\
  forall k, jwt_claim t' k = match last_claim k l with Some v => Some v | None => jwt_claim t k end.
Proof.
  revert t. induction l as [|[n v] l IH]; intros t; cbn; [by intros _ [= ->]|].
  intros [Hn%private_not_registered Hl]%andb_true_iff.
  destruct (jwt_Set t n v) as [t1|] eqn:Hs; [|done]. intros Hr.
  destruct (IH _ Hl Hr) as [(-> & -> & -> & -> & ->) Hc].
  split; [by apply jwt_set_std in Hs|]. intros k. rewrite Hc. destruct (last_claim k l); [done|].
  destruct (String.eqb_spec n k) as [->|Hne]; [by eapply jwt_claim_set_eq|].
  by eapply jwt_claim_set_ne.
Qed.

(** The token that was built: its registered claims, and its private ones. *)
Lemma buildToken_ok `{!JwtLaws} (e : Engine) now req w d deleg dpop sc sec t :
  buildToken e now req w d deleg dpop sc sec = Ok t ->
  (jwt_Subject t = Some (wi_ID w) /\ jwt_Issuer t = Some (e_issuer e) /\
   jwt_Audience t = Some [Audience req] /\ jwt_IssuedAt t = Some now /\
   jwt_Expiration t = Some (now + tokenTTL e sc)%Z) /\
  forall k, k ∉ registered_claims ->
    jwt_claim t k = last_claim k (tokenClaims e req w d deleg dpop sc sec).
Proof.
  unfold buildToken. destruct (jwt_Build _ _ _ _ _) as [t0|] eqn:Hb; [|done]. intros Hs.
  apply jwt_build_std in Hb as (Hb1 & Hb2 & Hb3 & Hb4 & Hb5 & Hb6).
  destruct (setClaims_ok _ _ _ (tokenClaims_named _ _ _ _ _ _ _ _) Hs) as [(-> & -> & -> & -> & ->) Hc].
  split; [done|]. intros k Hk. rewrite Hc, Hb6 by done. by case_match.
Qed.

(** ** The minted token under the engine's own key set *)

Lemma active_key_published `{!JwtLaws} (e : Engine) ks k :
  PublicKeySet e = Some ks -> activeSigningKey e = Some k ->
  exists pk, jwk_PublicKey k = Some pk /\ pk ∈ ks.
Proof.
  unfold PublicKeySet, activeSigningKey. destruct (e_keyring e) as [kr|].
  - destruct (Keyring.PublicKeySet kr) as [set|] eqn:Hs; [|done]. intros [= <-] Hk.
    by eapply Keyring.PublicKeySet_member.
  - destruct (jwk_PublicKey (e_signKey e)) as [pk|] eqn:Hp; [|done].
    intros ->%jwkset_add [= <-]. exists pk. split; [done|]. set_solver.
Qed.

(** A token that was issued parses under the engine's key set while it is valid, and reads as
    the claims that were set. *)
Lemma issued_parses `{!JwtLaws} (e : Engine) req s s' m d dpop now t ks t1 :
  issued e req s s' m d dpop now t -> PublicKeySet e = Some ks ->
  now <= t1 -> t1 + Second <= now + tokenTTL e (m_execScope m) ->
  exists tok, jwt_Parse ks t1 (m_signed m) = Some tok /\
    (jwt_Subject tok = Some (wi_ID (m_workload m)) /\ jwt_Audience tok = Some [Audience req]) /\
    forall k, k ∉ registered_claims ->
      jwt_claim tok k = last_claim k (tokenClaims e req (m_workload m) d (m_delegation m) dpop
                                        (m_execScope m) (m_secretsClaim m)).
Proof.
  intros Hi Hks Hn1 Hn2. destruct (buildToken_ok _ _ _ _ _ _ _ _ _ _ (is_built _ _ _ _ _ _ _ _ _ Hi))
    as [(Hsub & _ & Haud & Hiat & Hexp) Hc].
  pose proof (is_signed _ _ _ _ _ _ _ _ _ Hi) as Hs. unfold signToken in Hs.
  destruct (activeSigningKey e) as [k|] eqn:Hk; [|done].
  destruct (jwt_Sign k t) as [sg|] eqn:Hsg; [|done]. injection Hs as Hs.
  destruct (active_key_published e ks k Hks Hk) as (pk & Hp & Hin).
  destruct (jwt_parse_sign k pk t sg ks t1 _ _ Hsg Hp Hin Hiat Hexp Hn1 Hn2)
    as (tok & Hpt & Hst & _ & Hat & Hct).
  exists tok. rewrite <- Hs, Hst, Hat. split; [done|]. split; [done|]. intros c Hcn. by rewrite Hct, Hc.
Qed.

(** * Theorems *)

(** C1: a token is only minted for an authorised subject. When [Exchange] returns a response, the
    grant type and credential were accepted, the policy engine allowed the request, the
    revocation index did not report the subject, and the access token is the signature, under
    the engine's active key, of a token for that subject, issuer and audience whose lifetime
    starts at a clock reading of this call and lasts the configured TTL. *)
Theorem exchange_issues_only_authorised `{!JwtLaws} (e : Engine) req s s' resp :
  exchange e req s = (s', Ok resp) ->
  exists credType w d k t n,
    authenticate e req = Ok (credType, w) /\
    e_policy e (buildPolicyInput e req w credType) = Ok d /\ Allowed d = true /\
    not_revoked e (clock (es_tick s)) (wi_ID w) /\
    activeSigningKey e = Some k /\ jwt_Sign k t = Some (AccessToken resp) /\
    jwt_Subject t = Some (wi_ID w) /\ jwt_Issuer t = Some (e_issuer e) /\
    jwt_Audience t = Some [Audience req] /\
    during s s' n /\ jwt_IssuedAt t = Some (clock n) /\
    jwt_Expiration t = Some (clock n + tokenTTL e (req_ExecutionScope req))%Z.
Proof.
  intros (s1 & m & (d & dpop & now & t & Hi)%mint_ok & [Htick _] & ->)%Exchange_ok.
  destruct (buildToken_ok _ _ _ _ _ _ _ _ _ _ (is_built _ _ _ _ _ _ _ _ _ Hi))
    as [(Hsub & Hiss & Haud & Hiat & Hexp) _].
  destruct Hi as [(ct & Ha & Hp) Hal Hl _ _ _ Hsc _ (n & Hn & ->) _ Hs]. unfold signToken in Hs.
  destruct (activeSigningKey e) as [k|]; [|done].
  destruct (jwt_Sign k t) as [sg|] eqn:Hsg; [|done]. injection Hs as Hs.
  exists ct, (m_workload m), d, k, t, n. rewrite Hsc in Hexp. unfold during in *. rewrite <- Htick.
  cbn. rewrite <- Hs. done.
Qed.

(** The denial of a subject the revocation hook reports. *)
Lemma Exchange_revoked (e : Engine) req s isRevoked en credType w :
  e_revocation e = Some isRevoked -> authenticate e req = Ok (credType, w) ->
  isRevoked (clock (es_tick s)) (wi_ID w) = Ok (Some en) ->
  exists ev,
    exchange e req s =
      ({| es_nonces := es_nonces s; es_tick := S (es_tick s);
          es_trace := (es_trace s ++ [EAudit ev])%list |}, Err (ErrSubjectRevoked (wi_ID w))) /\
    au_Subject ev = wi_ID w /\ au_Action ev = "token_exchange" /\ au_Decision ev = "denied".
Proof.
  intros He Ha Hen. unfold Exchange, mint, checkRevocation, st_lift, time_now, emit, st_fail, st_bind.
  rewrite Ha, He. cbn. rewrite Hen. eexists. split; [reflexivity|]. done.
Qed.

(** C2: a revoked subject gets no token. Against the promise of the revocation index interface:
    once a subject was revoked, and until the entry expires, every exchange whose credential
    validates as that subject ends in [ErrSubjectRevoked]; the denial is audited, nothing else
    is emitted, and no nonce is consumed. *)
Theorem exchange_denies_revoked {I} `{!RevocationIndex I} (e : Engine) req s idx idx' t0 sub reason exp
    credType w :
  ri_Revoke t0 sub reason exp idx = Ok idx' ->
  e_revocation e = Some (fun t subj => ri_IsRevoked t subj idx') ->
  authenticate e req = Ok (credType, w) -> wi_ID w = sub ->
  (exp = 0 \/ clock (es_tick s) <= exp)%Z ->
  exists ev,
    exchange e req s =
      ({| es_nonces := es_nonces s; es_tick := S (es_tick s);
          es_trace := (es_trace s ++ [EAudit ev])%list |}, Err (ErrSubjectRevoked sub)) /\
    au_Subject ev = sub /\ au_Action ev = "token_exchange" /\ au_Decision ev = "denied".
Proof.
  intros Hr He Ha Hw Ht.
  destruct (ri_revoke_hit t0 sub reason exp idx idx' (clock (es_tick s)) Hr Ht) as (en & Hen & _).
  subst sub. by eapply Exchange_revoked.
Qed.

(** A client cannot claim hardware assurance in production. An engine that is not in dev mode
    never mints a token whose [assurance_level] is ["hardware"], whatever attestation header
    the client sends: the token says ["software"] when the header was present, and carries no
    such claim when it was not. *)
Theorem exchange_caps_assurance `{!JwtLaws} (e : Engine) req s s' resp ks :
  e_devMode e = false -> PublicKeySet e = Some ks ->
  exchange e req s = (s', Ok resp) ->
  exists n, during s s' n /\ forall t1,
    (clock n <= t1)%Z -> (t1 + Second <= clock n + tokenTTL e (req_ExecutionScope req))%Z ->
    exists tok, jwt_Parse ks t1 (AccessToken resp) = Some tok /\
      jwt_claim tok "assurance_level" =
        match Attestation req with Some _ => Some (VStr "software") | None => None end.
Proof.
  intros Hdev Hks (s1 & m & (d & dpop & now & t & Hi)%mint_ok & [Htick _] & ->)%Exchange_ok.
  destruct (is_now _ _ _ _ _ _ _ _ _ Hi) as (n & Hn & ->). exists n.
  split; [unfold during in *; lia|]. intros t1 Hn1 Hn2.
  rewrite <- (is_scope_req _ _ _ _ _ _ _ _ _ Hi) in Hn2.
  destruct (issued_parses _ _ _ _ _ _ _ _ _ _ _ Hi Hks Hn1 Hn2) as (tok & Hp & _ & Hc).
  exists tok. split; [done|]. rewrite Hc by (by apply private_not_registered). read_claim.
  unfold attestationClaims. destruct (Attestation req) as [att|]; [|done]. cbn.
  unfold attestationAssurance, AssuranceLevel. rewrite Hdev. by destruct (0 <? length (att_Hardware att))%nat.
Qed.

(** ** Delegation *)

(** The delegation context a resource server reads back from the token of a delegated exchange. *)
Lemma delegated_context (e : Engine) req w d dc dpop sc sec tok :
  Delegation.validateDelegation dc (requestedCaps d) (requestedBR d) = Ok tt ->
  wi_ID w <> "" -> jwt_Subject tok = Some (wi_ID w) ->
  (forall k, k ∉ registered_claims ->
     jwt_claim tok k = last_claim k (tokenClaims e req w d (Some dc) dpop sc sec)) ->
  Delegation.parseDelegationContext tok =
    Ok {| Delegation.ParentSubject := wi_ID w; Delegation.Depth := Delegation.newDepth dc;
          Delegation.Caps := requestedCaps d; Delegation.BlastRadius := requestedBR d;
          Delegation.OBOChain := Delegation.buildOBOChain dc |}.
Proof.
  intros (Hd & _)%Delegation.validateDelegation_ok Hne Hsub Hc.
  unfold Delegation.parseDelegationContext, get_float, get_array, get_string.
  rewrite Hsub, !Hc by (by apply private_not_registered).
  destruct (String.eqb_spec (wi_ID w) ""); [done|]. f_equal. f_equal; read_claim.
  - unfold delegationClaims, policyClaims, opt_claim, Delegation.newDepth.
    destruct (Z.ltb_spec (Delegation.Depth dc) 0); cbn; [|].
    + by destruct (pd_Claims d !! "caps"), (pd_Claims d !! "blast_radius").
    + destruct (Z.leb_spec 0 (Delegation.Depth dc - 1)); [|lia]. cbn. unfold trunc. cbn. by rewrite Z.quot_1_r.
  - unfold policyClaims, opt_claim, requestedCaps.
    by destruct (pd_Claims d !! "caps") as [[]|], (pd_Claims d !! "blast_radius").
  - unfold policyClaims, opt_claim, requestedBR.
    by destruct (pd_Claims d !! "caps"), (pd_Claims d !! "blast_radius") as [[]|].
  - unfold delegationClaims. by destruct (0 <=? Delegation.newDepth dc)%Z.
Qed.

(** C7: the engine implements the delegation chain. A successful on-behalf-of exchange verified the
    actor's token under the engine's keys, and what the claims of the token it issues say about delegation is
    one [hop] away from what the claims of the actor's say: the actor had a hop left and the depth is decremented
    (it stays unlimited without a limit), the capabilities are among the actor's when that names some, the blast
    radius reaches no further when both name one, the actor is appended to the on-behalf-of chain, and
    the response reports the length of that chain. It holds for requests with an actor token whose workload has
    an identifier, and for as long as the issued token is valid. *)
Theorem exchange_refines_hop `{!JwtLaws} (e : Engine) req s s' resp ks credType w :
  exchange e req s = (s', Ok resp) -> ActorToken req <> "" ->
  authenticate e req = Ok (credType, w) -> wi_ID w <> "" -> PublicKeySet e = Some ks ->
  exists n0 n actor dc, during s s' n0 /\ during s s' n /\
    jwt_Parse ks (clock n0) (ActorToken req) = Some actor /\
    Delegation.context_of actor dc /\
    forall t1, (clock n <= t1)%Z ->
      (t1 + Second <= clock n + tokenTTL e (req_ExecutionScope req))%Z ->
      exists tok dc', jwt_Parse ks t1 (AccessToken resp) = Some tok /\
        Delegation.context_of tok dc' /\ Delegation.hop dc dc' /\
        Delegation.ParentSubject dc' = wi_ID w /\
        DelegationDepth resp = Z.of_nat (length (Delegation.OBOChain dc')).
Proof.
  intros (s1 & m & (d & dpop & now & t & Hi)%mint_ok & [Htick _] & ->)%Exchange_ok Hact Hau Hw Hks.
  pose proof Hi as [(ct & Ha & Hp) Hal Hl _ (n0 & Hn0 & Hdc) _ Hsc _ (n & Hn & ->) _ Hs].
  assert (m_workload m = w) as Hmw by congruence.
  destruct (m_delegation m) as [dc|] eqn:Hmd; [|done]. cbn in Hdc.
  destruct Hdc as (actor & Hpa & Hpd & Hv). exists n0, n, actor, dc.
  unfold publicKeySet in Hpa. rewrite Hks in Hpa. unfold during in *. rewrite <- Htick.
  split_and!; try done; try lia; [by apply Delegation.parse_context|]. intros t1 Hn1 Hn2. rewrite <- Hsc in Hn2.
  destruct (issued_parses _ _ _ _ _ _ _ _ _ _ _ Hi Hks Hn1 Hn2) as (tok & Hpt & [Hsub _] & Hc).
  rewrite Hmd, Hmw in Hc. rewrite Hmw in Hsub.
  exists tok. eexists. split; [done|]. split; [by eapply Delegation.parse_context, delegated_context|].
  split; [by apply Delegation.hop_intro|]. split; [done|]. cbn. unfold Delegation.buildOBOChain.
  by rewrite length_app.
Qed.

(** ** Execution scope and proof of possession *)

(** The execution claims of a token that was minted for a scope. *)
Lemma scope_claims (e : Engine) req w d deleg dpop sc sec tok :
  (forall k, k ∉ registered_claims ->
     jwt_claim tok k = last_claim k (tokenClaims e req w d deleg dpop (Some sc) sec)) ->
  get_string tok "htm" = Some (Method sc) /\ get_string tok "htu" = Some (URI sc) /\
  get_string tok "inp_hash" = (if str_nonempty (Execution.scopeHash sc)
                               then Some (Execution.scopeHash sc) else None) /\
  get_string tok "payload_hash" = None.
Proof.
  intros Hc. unfold get_string.
  assert (Hph : "payload_hash" ∉ registered_claims) by (intros Hr%str_mem_true; done).
  rewrite (Hc _ Hph), !Hc by (by apply private_not_registered).
  split_and!; read_claim; unfold executionClaims, nonempty_claim;
    destruct (str_nonempty (Execution.scopeHash sc)), (str_nonempty (ExecAct sc)),
      (str_nonempty (Target sc)), (str_nonempty (WorkflowID sc)); reflexivity.
Qed.

Lemma scope_token_verifies (e : Engine) req w d deleg dpop sc sec tok :
  (forall k, k ∉ registered_claims ->
     jwt_claim tok k = last_claim k (tokenClaims e req w d deleg dpop (Some sc) sec)) ->
  Execution.VerifyExecutionScope tok sc = Ok tt /\
  forall sc', Execution.VerifyExecutionScope tok sc' = Ok tt ->
    Method sc' = Method sc /\ URI sc' = URI sc /\
    (Execution.scopeHash sc' <> "" -> Execution.scopeHash sc' = Execution.scopeHash sc).
Proof.
  intros (Hm & Hu & Hh & Hp)%scope_claims.
  assert (Ht : Execution.token_hash tok = if str_nonempty (Execution.scopeHash sc)
                               then Some (Execution.scopeHash sc) else None).
  { unfold Execution.token_hash. rewrite Hh, Hp. by case_match. }
  split.
  - apply Execution.VerifyExecutionScope_ok. split_and!; [done|done|]. intros Hne.
    rewrite Ht. apply str_nonempty_true in Hne. by rewrite Hne.
  - intros sc' (Hm' & Hu' & Hh')%Execution.VerifyExecutionScope_ok.
    split_and!; [congruence|congruence|]. intros Hne. specialize (Hh' Hne). rewrite Ht in Hh'.
    by case_match; simplify_eq.
Qed.

(** C8: an execution-scoped token authorises the requested action and no other. A resource server
    that parses the token of a successful exchange with an execution scope accepts the scope that
    was requested, and any action it accepts has the same method and URI, and the same payload
    hash when the action declares one. *)
Theorem exchange_scope_roundtrip `{!JwtLaws} (e : Engine) req s s' resp ks sc :
  exchange e req s = (s', Ok resp) -> req_ExecutionScope req = Some sc ->
  PublicKeySet e = Some ks ->
  exists n, during s s' n /\ forall t1, (clock n <= t1)%Z ->
    (t1 + Second <= clock n + e_executionTTL e)%Z ->
    exists tok, jwt_Parse ks t1 (AccessToken resp) = Some tok /\
      Execution.VerifyExecutionScope tok sc = Ok tt /\
      forall sc', Execution.VerifyExecutionScope tok sc' = Ok tt ->
        Method sc' = Method sc /\ URI sc' = URI sc /\
        (Execution.scopeHash sc' <> "" -> Execution.scopeHash sc' = Execution.scopeHash sc).
Proof.
  intros (s1 & m & (d & dpop & now & t & Hi)%mint_ok & [Htick _] & ->)%Exchange_ok Hreq Hks.
  destruct (is_now _ _ _ _ _ _ _ _ _ Hi) as (n & Hn & ->). exists n.
  split; [unfold during in *; lia|]. intros t1 Hn1 Hn2.
  pose proof (is_scope_req _ _ _ _ _ _ _ _ _ Hi) as Hsc. rewrite Hreq in Hsc.
  destruct (issued_parses _ _ _ _ _ _ _ _ _ _ t1 Hi Hks Hn1) as (tok & Hpt & _ & Hc);
    [by rewrite Hsc|]. rewrite Hsc in Hc. exists tok. split; [done|].
  apply (scope_token_verifies e req (m_workload m) d (m_delegation m) dpop sc (m_secretsClaim m)).
  exact Hc.
Qed.

(** Proof of possession. A token exchanged with a DPoP proof is bound to the key that proof was
    made with: the proof was validated during the call, and the [cnf.jkt] claim read back from
    the token is the thumbprint that validation computed. *)
Theorem exchange_binds_dpop_key `{!JwtLaws} (e : Engine) req s s' resp ks :
  exchange e req s = (s', Ok resp) -> DPoPProof req <> "" -> PublicKeySet e = Some ks ->
  exists n0 n jkt, during s s' n0 /\ during s s' n /\
    DPoP.validateDPoP (clock n0) (clock (S n0)) (DPoPProof req) = Ok jkt /\
    forall t1, (clock n <= t1)%Z ->
      (t1 + Second <= clock n + tokenTTL e (req_ExecutionScope req))%Z ->
      exists tok cnf, jwt_Parse ks t1 (AccessToken resp) = Some tok /\
        get_object tok "cnf" = Some cnf /\ cnf !! "jkt" = Some (VStr jkt).
Proof.
  intros (s1 & m & (d & dpop & now & t & Hi)%mint_ok & [Htick _] & ->)%Exchange_ok Hne Hks.
  pose proof Hi as [_ _ _ _ _ (n0 & Hn0 & Hdp) Hsc _ (n & Hn & ->) _ _].
  destruct dpop as [jkt|]; [|done]. destruct Hdp as [_ Hdp]. exists n0, n, jkt. unfold during in *. rewrite <- Htick.
  split_and!; try done; try lia. intros t1 Hn1 Hn2. rewrite <- Hsc in Hn2.
  destruct (issued_parses _ _ _ _ _ _ _ _ _ _ _ Hi Hks Hn1 Hn2) as (tok & Hp & _ & Hc).
  exists tok. eexists. split; [done|]. unfold get_object.
  rewrite Hc by (by apply private_not_registered). read_claim. split; [reflexivity|].
  apply lookup_singleton_eq.
Qed.

(** ** The audit trail *)

Definition quietly (s s' : EState) : Prop :=
  exists l, es_trace s' = (es_trace s ++ l)%list /\ forallb quiet l = true.

#[local] Instance quietly_preorder : PreOrder quietly.
Proof.
  split.
  - intros s. exists []. by rewrite app_nil_r.
  - intros s1 s2 s3 (l & Hl & Hq) (l' & Hl' & Hq'). exists (l ++ l')%list.
    by rewrite Hl', Hl, <- app_assoc, forallb_app, Hq, Hq'.
Qed.

Lemma quietly_same s s' : es_trace s' = es_trace s -> quietly s s'.
Proof. intros Hs. exists []. by rewrite app_nil_r. Qed.

Lemma mint_quietly (e : Engine) req : respects quietly (mint clock EncryptSecretBundle e req).
Proof.
  apply mint_respects; [apply _| | |].
  - intros s. by apply quietly_same.
  - intros ef Hq s. exists [ef]. cbn. by rewrite Hq.
  - intros nonce s. apply quietly_same. unfold check_nonce, st_bind. cbn.
    by destruct (Execution.check _ _ _) as [n' [[]|]].
Qed.

(** This effect records an issued token. *)
Definition records_issue (ef : Effect) : bool :=
  match ef with
  | EAudit ev => (au_Action ev =? "token_exchange") && (au_Decision ev =? "allowed")
  | _ => false
  end%string.

(** C10: the audit trail counts tokens. Every exchange only appends to the trail of effects; one
    that fails appends no record of an issued token, no signal on the sync bus and no exchange
    callback; one that succeeds appends exactly one record of an issued token, before any signal
    or callback about it. *)
Theorem exchange_audit_exact (e : Engine) req s :
  exists l, es_trace (fst (exchange e req s)) = (es_trace s ++ l)%list /\
    match snd (exchange e req s) with
    | Err _ => forallb quiet l = true
    | Ok resp => exists l1 ev l2, l = (l1 ++ EAudit ev :: l2)%list /\ forallb quiet l1 = true /\
        records_issue (EAudit ev) = true /\ au_Target ev = Audience req /\
        filter (fun ef => records_issue ef = true) l2 = [] /\
        (e_onExchange e = true -> EOnExchange (au_Subject ev) (Audience req) "ok" ∈ l2)
    end.
Proof.
  pose proof (mint_quietly e req s) as (l1 & Hl1 & Hq). unfold Exchange, st_bind.
  destruct (mint clock EncryptSecretBundle e req s) as [s1 [m|err]]; [|by exists l1].
  unfold auditAllow, flashSignal, emit, st_bind, st_ret. cbn in Hl1.
  destruct (e_syncBus e) as [f|]; [destruct (f _)|]; destruct (e_onExchange e); cbn;
    rewrite Hl1, <- ?app_assoc; (eexists; split; [reflexivity|]);
    (eexists l1, _, _; split; [reflexivity|]);
    split_and!; try done; intros; set_solver.
Qed.

(** ** Replay across exchanges *)

Hypothesis clock_mono : forall i j, (i <= j)%nat -> (clock i <= clock j)%Z.

(** The clock advances and nonces within their age stay recorded. *)
Definition keeps (s s' : EState) : Prop :=
  (es_tick s <= es_tick s')%nat /\
  Execution.maxAge (es_nonces s') = Execution.maxAge (es_nonces s) /\
  forall nonce ts, Execution.seen (es_nonces s) !! nonce = Some ts ->
    (clock (es_tick s') - ts <= Execution.maxAge (es_nonces s))%Z ->
    (minDuration <= Execution.maxAge (es_nonces s))%Z ->
    Execution.seen (es_nonces s') !! nonce = Some ts.

#[local] Instance keeps_preorder : PreOrder keeps.
Proof using clock_mono.
  split.
  - intros s. split_and!; [lia|done|done].
  - intros s1 s2 s3 (Ht & Hm & Hk) (Ht' & Hm' & Hk'). split_and!; [lia|congruence|].
    intros nonce ts Hs Ha Hmin. pose proof (clock_mono _ _ Ht').
    apply Hk'; [apply Hk; [done|lia|done]|rewrite Hm; done|by rewrite Hm].
Qed.

Lemma keeps_time : respects keeps (time_now clock).
Proof. intros s. split_and!; cbn; [lia|done|done]. Qed.
Lemma keeps_emit ef : respects keeps (emit ef).
Proof. intros s. split_and!; cbn; [lia|done|done]. Qed.
Lemma keeps_nonce nonce : respects keeps (check_nonce clock nonce).
Proof using clock_mono.
  intros s. unfold check_nonce, st_bind. cbn.
  pose proof (Execution.check_maxAge (clock (es_tick s)) nonce (es_nonces s)) as Hm.
  pose proof (Execution.check_keeps (clock (es_tick s)) nonce (es_nonces s)) as Hk.
  pose proof (clock_mono (es_tick s) (S (es_tick s))).
  destruct (Execution.check _ _ _) as [n' [[]|err]]; split_and!; cbn in *; try lia; try done;
    intros x ts Hs Ha Hmin; apply Hk; try done; lia.
Qed.
#[local] Hint Resolve keeps_preorder keeps_time keeps_emit keeps_nonce : go.

Lemma keeps_of {A} (m : M EState ExchangeErr A) s s' r :
  respects keeps m -> m s = (s', r) -> keeps s s'.
Proof. intros Hr Hm. specialize (Hr s). by rewrite Hm in Hr. Qed.

Lemma keeps_same s s' : es_tick s = es_tick s' -> es_nonces s = es_nonces s' -> keeps s s'.
Proof. intros Ht Hn. unfold keeps. rewrite Ht, Hn. split_and!; [lia|done|done]. Qed.

(** A successful exchange with a scope had its nonce accepted on the way. *)
Lemma mint_checks_nonce (e : Engine) req s s' m sc :
  mint clock EncryptSecretBundle e req s = (s', Ok m) -> req_ExecutionScope req = Some sc ->
  exists sa sb, keeps s sa /\ keeps sb s' /\ es_tick sb = S (es_tick sa) /\
    Execution.check (clock (es_tick sa)) (Nonce sc) (es_nonces sa) = (es_nonces sb, Ok tt).
Proof using clock_mono.
  unfold mint. intros Hm Hsc.
  apply st_bind_ok in Hm as (s0 & [ct w] & Ha & Hm). injection Ha as <- Ha.
  apply st_bind_ok in Hm as (s1 & u1 & H1' & Hm). apply st_bind_ok in Hm as (s2 & u2 & H2' & Hm).
  apply st_bind_ok in Hm as (s3 & d & H3' & Hm). apply st_bind_ok in Hm as (s4 & deleg & H4' & Hm).
  apply st_bind_ok in Hm as (s5 & dpop & H5' & Hm). apply st_bind_ok in Hm as (s6 & sc' & H6' & Hm).
  exists s5, s6. apply keeps_of in H1', H2', H3', H4', H5'; auto with go.
  apply checkExecutionScope_ok in H6' as [-> Hc]. destruct (Hc _ Hsc) as (_ & n' & Hck & <- & Htk).
  split_and!; [by repeat (etrans; [eassumption|])| |done|done].
  eapply keeps_of; [|exact Hm]. cbn.
  repeat (apply respects_bind;
    [apply _|first [apply respects_lift; apply _|auto with go]|intros ?]).
  apply respects_ret; apply _.
Qed.

(** The state after more exchanges of the same engine, successful or not. *)
Fixpoint exchanges (e : Engine) (reqs : list TokenExchangeRequest) (s : EState) : EState :=
  match reqs with
  | [] => s
  | req :: reqs' => exchanges e reqs' (fst (exchange e req s))
  end.

Lemma exchanges_keeps (e : Engine) reqs s : keeps s (exchanges e reqs s).
Proof using clock_mono.
  revert s. induction reqs as [|req reqs IH]; intros s; cbn; [reflexivity|].
  etrans; [|apply IH]. apply Exchange_respects; auto with go.
Qed.

(** C9: no execution scope is granted twice. After a successful exchange with an execution scope,
    and any further exchanges, an exchange that asks for a scope with the same nonce does not
    return a token as long as it ends within the nonce window (60 s) of the first one's start. *)
Theorem exchange_rejects_replay (e : Engine) req s s1 resp sc reqs req2 sc2 s3 resp2 :
  Execution.maxAge (es_nonces s) = (Execution.ExecutionScopeTTL * 2)%Z ->
  exchange e req s = (s1, Ok resp) -> req_ExecutionScope req = Some sc ->
  req_ExecutionScope req2 = Some sc2 -> Nonce sc2 = Nonce sc ->
  (clock (es_tick s3) <= clock (es_tick s) + Execution.ExecutionScopeTTL * 2)%Z ->
  exchange e req2 (exchanges e reqs s1) <> (s3, Ok resp2).
Proof using clock_mono.
  intros Hage He1 Hsc Hsc2 Hn Ht He2.
  destruct (Exchange_ok _ _ _ _ _ He1) as (sm & m & Hm & [Htk Hnk] & _).
  destruct (Exchange_ok _ _ _ _ _ He2) as (sm2 & m2 & Hm2 & [Htk2 _] & _).
  destruct (mint_checks_nonce _ _ _ _ _ _ Hm Hsc) as (sa & sb & (Hsa & Hma & _) & Hsb & Htb & Hck).
  destruct (mint_checks_nonce _ _ _ _ _ _ Hm2 Hsc2) as (sx & sy & Hsx & (Hsy & _) & Hty & Hck2).
  assert (Hk : keeps sb sx).
  { etrans; [exact Hsb|]. etrans; [by apply (keeps_same sm s1)|].
    etrans; [apply (exchanges_keeps e reqs)|exact Hsx]. }
  pose proof (Execution.check_maxAge (clock (es_tick sa)) (Nonce sc) (es_nonces sa)) as Hmb.
  rewrite Hck in Hmb. cbn in Hmb. apply Execution.check_ok_seen in Hck.
  destruct Hk as (Htx & Hmx & Hkx).
  pose proof (clock_mono (es_tick s) (es_tick sa) Hsa).
  pose proof (clock_mono (es_tick sx) (es_tick s3) ltac:(lia)).
  assert (Hwin : (clock (es_tick sx) - clock (es_tick sa) <= Execution.maxAge (es_nonces sb))%Z).
  { rewrite Hmb, Hma, Hage. lia. }
  assert (Hmin : (minDuration <= Execution.maxAge (es_nonces sb))%Z) by (rewrite Hmb, Hma, Hage; done).
  pose proof (Hkx _ _ Hck Hwin Hmin) as Hseen.
  assert (Hrej : snd (Execution.check (clock (es_tick sx)) (Nonce sc) (es_nonces sx))
                 = Err (Execution.ErrNonceReplay (Nonce sc))).
  { eapply Execution.check_seen_rejects; [exact Hseen|by rewrite Hmx|by rewrite Hmx]. }
  rewrite <- Hn, Hck2 in Hrej. done.
Qed.
End Spec.

(** The same reading step for the files that build on this one. *)
Ltac read_minted_claim :=
  unfold tokenClaims; rewrite !last_claim_app;
  rewrite ?(last_claim_named _ _ _ (policyClaims_named _ _)) by reflexivity;
  rewrite ?(last_claim_named _ _ _ (delegationClaims_named _)) by reflexivity;
  rewrite ?(last_claim_named _ _ _ (dpopClaims_named _)) by reflexivity;
  rewrite ?(last_claim_named _ _ _ (attestationClaims_named _ _)) by reflexivity;
  rewrite ?(last_claim_named _ _ _ (executionClaims_named _)) by reflexivity;
  rewrite ?(last_claim_named _ _ _ (secretsClaims_named _)) by reflexivity.

(** * A concrete engine *)

#[local] Existing Instance JwtModel.lib.
#[local] Existing Instance JwtModel.laws.
#[local] Existing Instance DPoP.demo_jws.
#[local] Existing Instance key_order.
#[local] Existing Instance Revocation.InMemory_RevocationIndex.

Definition demo_clock (n : nat) : Time := ((100 + Z.of_nat n) * Second)%Z.
Definition demo_encrypt (b : gmap string string) (k : string) : result string string := Ok "jwe".

Definition demo_decision : PolicyDecision :=
  {| Allowed := true; pd_Reason := "";
     pd_Claims := <["caps" := VArr [VStr "read"]]> (<["delegation_depth" := VInt 2]> ∅) |}.

Definition demo_engine
    (rev : option (Time -> string -> result string (option RevocationEntry))) : Engine (EncKey:=string) :=
  {| e_identity := fun tok ct => Ok {| wi_ID := "wimse://td/" +:+ tok; wi_TrustDomain := "td";
                                       wi_Attestation := None; wi_Claims := ∅ |};
     e_policy := fun _ => Ok demo_decision;
     e_keyring := Some Keyring.demo_kr; e_signKey := Keyring.demo_k1; e_issuer := "starfly";
     e_ttl := (5 * Minute)%Z; e_syncBus := Some (fun _ => None); e_unitID := "u1";
     e_revocation := rev; e_onRevocationError := true;
     e_executionTTL := Execution.ExecutionScopeTTL; e_onExchange := true;
     e_secretSource := None; e_encryptionKeyStore := None; e_onSecretDelivery := false;
     e_devMode := false |}.

Definition demo_scope (nonce : string) : ExecutionScope :=
  {| Method := "POST"; URI := "https://api/x"; ExecAct := ""; InputHash := "h"; OutputHash := "";
     Target := ""; WorkflowID := ""; PayloadHash := ""; Nonce := nonce |}.

Definition demo_hw : ServerAttestHardware :=
  {| hw_Type := "tpm"; hw_Quote := []; hw_PCRs := ∅; hw_Firmware := ""; hw_Nonce := [];
     hw_Measurements := ∅ |}.
Definition demo_attestation : ServerAttestation :=
  {| att_Platform := {| pf_Source := "k8s"; pf_CredType := "k8s-sa"; pf_Metadata := None |};
     att_Hardware := [demo_hw]; att_Workload := None; att_AgentVersion := "1";
     att_Timestamp := (99 * Second)%Z |}.

Definition demo_req (actor nonce : string) : TokenExchangeRequest :=
  {| GrantType := grantTypeTokenExchange; SubjectToken := "agent";
     SubjectTokenType := subjectTokenTypeJWT; Audience := "aud"; Scope := ""; ActorToken := actor;
     ActorTokenType := ""; RequestedTokenType := ""; DPoPProof := "priv:k1";
     Attestation := Some demo_attestation; req_ExecutionScope := Some (demo_scope nonce) |}.

Definition demo_out : EState * result ExchangeErr TokenExchangeResponse :=
  Exchange demo_clock demo_encrypt (demo_engine None) (demo_req "" "n1") initState.
Definition out_resp (o : EState * result ExchangeErr TokenExchangeResponse) : TokenExchangeResponse :=
  match snd o with
  | Ok r => r
  | Err _ => {| AccessToken := ""; IssuedTokenType := ""; TokenType := ""; ExpiresIn := 0;
                resp_Scope := ""; DelegationDepth := 0 |}
  end.
Definition demo_actor : string := AccessToken (out_resp demo_out).
Definition demo_out2 : EState * result ExchangeErr TokenExchangeResponse :=
  Exchange demo_clock demo_encrypt (demo_engine None) (demo_req demo_actor "n2") (fst demo_out).
Definition demo_ks : list (@jwk_key JwtModel.lib) := ["pub:k1"].

Lemma out_ok o : is_ok (snd o) = true -> o = (fst o, Ok (out_resp o)).
Proof. by destruct o as [? [?|?]]. Qed.

Lemma demo_ok : demo_out = (fst demo_out, Ok (out_resp demo_out)).
Proof. apply out_ok. vm_compute. reflexivity. Qed.

Lemma demo_ok2 : demo_out2 = (fst demo_out2, Ok (out_resp demo_out2)).
Proof. apply out_ok. vm_compute. reflexivity. Qed.

Lemma demo_actor_nonempty : demo_actor <> "".
Proof. apply String.eqb_neq. vm_compute. reflexivity. Qed.

Lemma demo_mono i j : (i <= j)%nat -> (demo_clock i <= demo_clock j)%Z.
Proof. unfold demo_clock, Second. lia. Qed.

Lemma exchange_issues_only_authorised_witness :
  exists w d, e_policy (demo_engine None) (buildPolicyInput (demo_engine None) (demo_req "" "n1") w "k8s-sa")
    = Ok d /\ Allowed d = true.
Proof.
  destruct (exchange_issues_only_authorised demo_clock demo_encrypt (demo_engine None)
    (demo_req "" "n1") initState (fst demo_out) (out_resp demo_out) demo_ok)
    as (ct & w & d & k & t & n & Ha & Hp & Hal & _).
  exists w, d. vm_compute in Ha. injection Ha as <- <-. split; [exact Hp|exact Hal].
Defined.

Definition demo_index : Revocation.InMemoryRevocationIndex :=
  match Revocation.Revoke 0 "wimse://td/agent" "stolen" 0 Revocation.NewRevocationIndex with
  | Ok i => i
  | Err _ => Revocation.NewRevocationIndex
  end.

Lemma exchange_denies_revoked_witness :
  exists s' , Exchange demo_clock demo_encrypt
    (demo_engine (Some (fun t sub => ri_IsRevoked t sub demo_index))) (demo_req "" "n1") initState
    = (s', Err (ErrSubjectRevoked "wimse://td/agent")).
Proof.
  edestruct (exchange_denies_revoked demo_clock demo_encrypt
    (demo_engine (Some (fun t sub => ri_IsRevoked t sub demo_index))) (demo_req "" "n1") initState
    Revocation.NewRevocationIndex demo_index 0 "wimse://td/agent" "stolen" 0 "k8s-sa")
    as (ev & He & _); [reflexivity|reflexivity|reflexivity|reflexivity|by left|].
  eexists. exact He.
Defined.

Lemma exchange_caps_assurance_witness :
  exists n, during initState (fst demo_out) n /\ forall t1,
    (demo_clock n <= t1)%Z -> (t1 + Second <= demo_clock n + 30 * Second)%Z ->
    exists tok, jwt_Parse demo_ks t1 (AccessToken (out_resp demo_out)) = Some tok /\
      jwt_claim tok "assurance_level" = Some (VStr "software").
Proof.
  apply (exchange_caps_assurance demo_clock demo_encrypt (demo_engine None) (demo_req "" "n1")
    initState (fst demo_out) (out_resp demo_out) demo_ks); [reflexivity|reflexivity|exact demo_ok].
Defined.

Lemma exchange_refines_hop_witness :
  exists n dc, forall t1, (demo_clock n <= t1)%Z ->
    (t1 + Second <= demo_clock n + 30 * Second)%Z ->
    exists tok dc', jwt_Parse demo_ks t1 (AccessToken (out_resp demo_out2)) = Some tok /\
      Delegation.context_of tok dc' /\
      Delegation.OBOChain dc' = (Delegation.OBOChain dc ++ [VStr (Delegation.ParentSubject dc)])%list.
Proof.
  edestruct (exchange_refines_hop demo_clock demo_encrypt (demo_engine None) (demo_req demo_actor "n2")
    (fst demo_out) (fst demo_out2) (out_resp demo_out2) demo_ks "k8s-sa")
    as (n0 & n & actor & dc & _ & _ & Hp & Hd & Ht);
    [exact demo_ok2|exact demo_actor_nonempty|reflexivity|discriminate|reflexivity|].
  exists n, dc. intros t1 H1 H2. destruct (Ht t1 H1 H2) as (tok & dc' & Hpt & Hcx & [_ _ _ _ _ Ho] & _).
  exists tok, dc'. split; [exact Hpt|]. split; [exact Hcx|exact Ho].
Defined.

Lemma exchange_scope_roundtrip_witness :
  exists n, during initState (fst demo_out) n /\ forall t1, (demo_clock n <= t1)%Z ->
    (t1 + Second <= demo_clock n + 30 * Second)%Z ->
    exists tok, jwt_Parse demo_ks t1 (AccessToken (out_resp demo_out)) = Some tok /\
      Execution.VerifyExecutionScope tok (demo_scope "n1") = Ok tt.
Proof.
  edestruct (exchange_scope_roundtrip demo_clock demo_encrypt (demo_engine None) (demo_req "" "n1")
    initState (fst demo_out) (out_resp demo_out) demo_ks (demo_scope "n1"))
    as (n & Hn & Ht); [exact demo_ok|reflexivity|reflexivity|].
  exists n. split; [exact Hn|]. intros t1 H1 H2. destruct (Ht t1 H1 H2) as (tok & Hp & Hv & _).
  exists tok. split; [exact Hp|exact Hv].
Defined.

Lemma exchange_binds_dpop_key_witness :
  exists n0 jkt, DPoP.validateDPoP (demo_clock n0) (demo_clock (S n0)) "priv:k1" = Ok jkt.
Proof.
  edestruct (exchange_binds_dpop_key demo_clock demo_encrypt (demo_engine None) (demo_req "" "n1")
    initState (fst demo_out) (out_resp demo_out) demo_ks)
    as (n0 & n & jkt & _ & _ & Hv & _); [exact demo_ok|discriminate|reflexivity|].
  exists n0, jkt. exact Hv.
Defined.

Lemma exchange_rejects_replay_witness :
  Exchange demo_clock demo_encrypt (demo_engine None) (demo_req "" "n1")
    (exchanges demo_clock demo_encrypt (demo_engine None) [demo_req demo_actor "n2"] (fst demo_out))
  <> (fst demo_out2, Ok (out_resp demo_out)).
Proof.
  apply (exchange_rejects_replay demo_clock demo_encrypt demo_mono (demo_engine None)
    (demo_req "" "n1") initState (fst demo_out) (out_resp demo_out) (demo_scope "n1")
    [demo_req demo_actor "n2"] (demo_req "" "n1") (demo_scope "n1"));
    [reflexivity|exact demo_ok|reflexivity|reflexivity|reflexivity|vm_compute; discriminate].
Defined.
End ExchangeSpec.
