(* ===== verification/Workflow.v ===== *)
(** The workflow tracker of [pkg/mcp/workflow.go]: the DAG of execution context tokens of each
    workflow, its validation when a task is recorded, and the cleanup of old entries. *)
From Stdlib Require Import ZArith Lia.
From stdpp Require Import base gmap sets strings list relations.
From S2P Require Import Prelude.
From S2P Require Import GoLib.

#[local] Open Scope Z_scope.
#[local] Open Scope string_scope.

Module Workflow.

Definition DefaultWorkflowTTL : Duration := (1 * Hour)%Z.
Definition DefaultClockSkew : Duration := (30 * Second)%Z.
Definition MaxAncestorTraversal : nat := Z.to_nat 10000.

Record TaskRecord : Type := {
  JTI : string;
  IssuedAt : Time;
  ParentIDs : list string;
}.

Abbreviation Tasks := (gmap string TaskRecord) (only parsing).

Record Workflow : Type := {
  wf_ID : string;
  wf_Tasks : Tasks;
  CreatedAt : Time;
  UpdatedAt : Time;
}.

(** [WorkflowTracker]: every method runs under its lock, so a method is one step. *)
Record WorkflowTracker : Type := {
  workflows : gmap string Workflow;
  ttl : Duration;
  clockSkew : Duration;
  globalTasks : Tasks;
}.

Inductive DagErr : Type :=
| ErrDuplicateTaskID (jti : string)
| ErrParentNotFound (pid : string)
| ErrTemporalViolation (pid : string)
| ErrCycleDetected (jti : string).

(** The options [WithWorkflowTTL] and [WithClockSkew] *)
Inductive WorkflowTrackerOption : Type :=
| WithWorkflowTTL (d : Duration)
| WithClockSkew (d : Duration).

Definition applyOption (wt : WorkflowTracker) (o : WorkflowTrackerOption) : WorkflowTracker :=
  match o with
  | WithWorkflowTTL d => {| workflows := workflows wt; ttl := d; clockSkew := clockSkew wt;
                            globalTasks := globalTasks wt |}
  | WithClockSkew d => {| workflows := workflows wt; ttl := ttl wt; clockSkew := d;
                          globalTasks := globalTasks wt |}
  end.

(** [NewWorkflowTracker] *)
Definition NewWorkflowTracker (opts : list WorkflowTrackerOption) : WorkflowTracker :=
  foldl applyOption {| workflows := ∅; ttl := DefaultWorkflowTTL; clockSkew := DefaultClockSkew;
                       globalTasks := ∅ |} opts.

(** [tasksForScope]: reading a nil map finds nothing, so an unknown workflow is the empty map. *)
Definition tasksForScope (wt : WorkflowTracker) (workflowID : string) : Tasks :=
  if (workflowID =? "")%string then globalTasks wt
  else match workflows wt !! workflowID with
       | Some wf => wf_Tasks wf
       | None => ∅
       end.

(** The loop of [checkAcyclicity]: [fuel] is what is left of [MaxAncestorTraversal]. *)
Fixpoint traverse (fuel : nat) (tasks : Tasks) (newJTI : string) (visited : gset string)
    (queue : list string) : result DagErr unit :=
  match fuel, queue with
  | O, _ | _, [] => Ok tt
  | S fuel', current :: queue' =>
      if (current =? newJTI)%string then Err (ErrCycleDetected newJTI)
      else if bool_decide (current ∈ visited) then traverse fuel' tasks newJTI visited queue'
      else traverse fuel' tasks newJTI ({[ current ]} ∪ visited)
             (queue' ++ match tasks !! current with Some parent => ParentIDs parent | None => [] end)%list
  end.

(** [checkAcyclicity] *)
Definition checkAcyclicity (tasks : Tasks) (newJTI : string) (parentIDs : list string)
    : result DagErr unit :=
  traverse MaxAncestorTraversal tasks newJTI ∅ parentIDs.

(** The loops of steps 2 and 3: the first parent that is missing, or too late. *)
Definition missingParent (tasks : Tasks) (parentIDs : list string) : option string :=
  List.find (fun pid => negb (bool_decide (is_Some (tasks !! pid)))) parentIDs.
Definition lateParent (tasks : Tasks) (skew : Duration) (issuedAt : Time) (parentIDs : list string)
    : option string :=
  List.find (fun pid => match tasks !! pid with
                        | Some parent => After (IssuedAt parent) (issuedAt + skew)%Z
                        | None => false
                        end) parentIDs.

(** The guards of [RecordTask], in order. *)
Definition validateTask (wt : WorkflowTracker) (tasks : Tasks) (jti : string) (issuedAt : Time)
    (parentIDs : list string) : result DagErr unit :=
  let? _ := reject (bool_decide (is_Some (tasks !! jti))) (ErrDuplicateTaskID jti) in
  let? _ := match missingParent tasks parentIDs with
            | Some pid => Err (ErrParentNotFound pid)
            | None => Ok tt
            end in
  let? _ := match lateParent tasks (clockSkew wt) issuedAt parentIDs with
            | Some pid => Err (ErrTemporalViolation pid)
            | None => Ok tt
            end in
  checkAcyclicity tasks jti parentIDs.

(** [RecordTask] *)
Definition RecordTask (workflowID jti : string) (issuedAt : Time) (parentIDs : list string)
    (wt : WorkflowTracker) : result DagErr WorkflowTracker :=
  let? _ := validateTask wt (tasksForScope wt workflowID) jti issuedAt parentIDs in
  let record := {| JTI := jti; IssuedAt := issuedAt; ParentIDs := parentIDs |} in
  if str_nonempty workflowID then
    let wf := match workflows wt !! workflowID with
              | Some wf => wf
              | None => {| wf_ID := workflowID; wf_Tasks := ∅; CreatedAt := issuedAt; UpdatedAt := 0 |}
              end in
    let wf' := {| wf_ID := wf_ID wf; wf_Tasks := <[jti := record]> (wf_Tasks wf);
                  CreatedAt := CreatedAt wf; UpdatedAt := issuedAt |} in
    Ok {| workflows := <[workflowID := wf']> (workflows wt); ttl := ttl wt;
          clockSkew := clockSkew wt; globalTasks := globalTasks wt |}
  else
    Ok {| workflows := workflows wt; ttl := ttl wt; clockSkew := clockSkew wt;
          globalTasks := <[jti := record]> (globalTasks wt) |}.

(** [GetTask], [WorkflowSize], [ActiveWorkflows] *)
Definition GetTask (workflowID jti : string) (wt : WorkflowTracker) : option TaskRecord :=
  tasksForScope wt workflowID !! jti.
Definition WorkflowSize (workflowID : string) (wt : WorkflowTracker) : nat :=
  if (workflowID =? "")%string then size (globalTasks wt)
  else match workflows wt !! workflowID with Some wf => size (wf_Tasks wf) | None => O end.
Definition ActiveWorkflows (wt : WorkflowTracker) : nat := size (workflows wt).

(** [Cleanup] *)
Definition Cleanup (now : Time) (wt : WorkflowTracker) : WorkflowTracker * nat :=
  let cutoff := (now - ttl wt)%Z in
  let kept := purge (fun wf => Before (UpdatedAt wf) cutoff) (workflows wt) in
  ({| workflows := kept; ttl := ttl wt; clockSkew := clockSkew wt;
      globalTasks := purge (fun t => Before (IssuedAt t) cutoff) (globalTasks wt) |},
   (size (workflows wt) - size kept)%nat).

(** * The graph of a scope *)

(** [child] names [parent] among its parents. *)
Definition edge (tasks : Tasks) (child parent : string) : Prop :=
  exists r, tasks !! child = Some r /\ parent ∈ ParentIDs r.

Definition acyclic (tasks : Tasks) : Prop := forall j, ~ tc (edge tasks) j j.
Definition closed (tasks : Tasks) : Prop := forall c p, edge tasks c p -> is_Some (tasks !! p).
(** Parents are not issued after their children, up to the clock skew. *)
Definition ordered (skew : Duration) (tasks : Tasks) : Prop :=
  forall c p rc rp, tasks !! c = Some rc -> p ∈ ParentIDs rc -> tasks !! p = Some rp ->
    (IssuedAt rp <= IssuedAt rc + skew)%Z.

Lemma missingParent_None tasks ps : missingParent tasks ps = None <-> forall p, p ∈ ps -> is_Some (tasks !! p).
Proof.
  unfold missingParent. induction ps as [|q ps IH]; cbn; [set_solver|].
  case_bool_decide as Hq; cbn; [|set_solver]. rewrite IH. set_solver.
Qed.

Lemma lateParent_None tasks skew iat ps : lateParent tasks skew iat ps = None ->
  forall p r, p ∈ ps -> tasks !! p = Some r -> (IssuedAt r <= iat + skew)%Z.
Proof.
  unfold lateParent. intros Hf p r Hp Hr. apply list_elem_of_In in Hp.
  apply (find_none _ _ Hf) in Hp. rewrite Hr in Hp. unfold After in Hp. lia.
Qed.

Lemma validateTask_ok wt tasks jti iat ps :
  validateTask wt tasks jti iat ps = Ok tt ->
  tasks !! jti = None /\ (forall p, p ∈ ps -> is_Some (tasks !! p)) /\
  (forall p r, p ∈ ps -> tasks !! p = Some r -> (IssuedAt r <= iat + clockSkew wt)%Z) /\
  checkAcyclicity tasks jti ps = Ok tt.
Proof.
  unfold validateTask. case_bool_decide as Hd; [done|]. cbn.
  destruct (missingParent tasks ps) eqn:Hm; [done|]. cbn.
  destruct (lateParent _ _ _ _) eqn:Hl; [done|]. cbn. intros Hc.
  split_and!; [by apply eq_None_not_Some|by apply missingParent_None| |done].
  by eapply lateParent_None.
Qed.

Lemma edge_insert tasks jti r c p :
  tasks !! jti = None ->
  edge (<[jti := r]> tasks) c p <-> (c = jti /\ p ∈ ParentIDs r) \/ edge tasks c p.
Proof.
  intros Hn. unfold edge. split.
  - intros (r' & Hr & Hp). apply lookup_insert_Some in Hr as [[-> ->]|[_ Hr]]; eauto.
  - intros [[-> Hp]|(r' & Hr & Hp)]; [exists r; by rewrite lookup_insert_eq|].
    exists r'. rewrite lookup_insert_ne by congruence. done.
Qed.

(** Recording a new task whose parents do not lead to it keeps the graph acyclic. *)
Lemma acyclic_insert tasks jti r :
  tasks !! jti = None -> acyclic tasks ->
  (forall p, p ∈ ParentIDs r -> ~ rtc (edge tasks) p jti) ->
  acyclic (<[jti := r]> tasks).
Proof.
  intros Hn Ha Hp j Hj.
  assert (Hcut : forall x y, tc (edge (<[jti := r]> tasks)) x y ->
    tc (edge tasks) x y \/ (rtc (edge tasks) x jti /\ exists q, q ∈ ParentIDs r /\ rtc (edge tasks) q y)).
  { intros x y Hxy. induction Hxy as [x y [[-> Hy]|Hxy]%edge_insert|x y z [[-> Hy]|Hxy]%edge_insert Hyz IH];
      try done.
    - right. split; [apply rtc_refl|]. exists y. split; [done|apply rtc_refl].
    - left. by apply tc_once.
    - right. split; [apply rtc_refl|]. destruct IH as [IH|[_ IH]]; [|done].
      exists y. split; [done|by apply tc_rtc].
    - destruct IH as [IH|[IH Hq]]; [left; by eapply tc_l|right]. split; [by eapply rtc_l|done]. }
  destruct (Hcut j j Hj) as [Hj'|[Hj1 (q & Hq & Hj2)]]; [by eapply Ha|].
  eapply (Hp q Hq). by etrans.
Qed.

(** * The bounded traversal *)

(** Parent references of the tasks the traversal has not visited yet. *)
Definition pending (tasks : Tasks) (visited : gset string) : nat :=
  sum_list_with (fun kr => length (ParentIDs kr.2))
    (map_to_list (filter (fun kr => kr.1 ∉ visited) tasks)).

Lemma pending_visit tasks visited c r :
  c ∉ visited -> tasks !! c = Some r ->
  pending tasks visited = (length (ParentIDs r) + pending tasks ({[ c ]} ∪ visited))%nat.
Proof.
  intros Hc Hr. unfold pending.
  assert (Hf : filter (fun kr => kr.1 ∉ visited) tasks =
    <[c := r]> (filter (fun kr : string * TaskRecord => kr.1 ∉ ({[ c ]} ∪ visited : gset string)) tasks)).
  { apply map_eq. intros k. destruct (decide (k = c)) as [->|Hk].
    - rewrite lookup_insert_eq. by apply map_lookup_filter_Some.
    - rewrite lookup_insert_ne by done. apply option_eq. intros x.
      rewrite !map_lookup_filter_Some. cbn. set_solver. }
  rewrite Hf, map_to_list_insert; [done|]. apply map_lookup_filter_None. right. set_solver.
Qed.

Lemma pending_absent tasks visited c :
  tasks !! c = None -> pending tasks ({[ c ]} ∪ visited) = pending tasks visited.
Proof.
  intros Hr. unfold pending. do 2 f_equal. apply map_filter_ext. intros k x Hk. cbn.
  assert (k <> c) by congruence. set_solver.
Qed.

(** With enough fuel, a traversal that finds nothing has explored everything above the queue. *)
Lemma traverse_explores fuel tasks jti visited queue :
  (length queue + pending tasks visited <= fuel)%nat ->
  jti ∉ visited ->
  (forall v p, v ∈ visited -> edge tasks v p -> p ∈ visited \/ p ∈ queue) ->
  traverse fuel tasks jti visited queue = Ok tt ->
  exists V : gset string, visited ⊆ V /\ (forall q, q ∈ queue -> q ∈ V) /\ (jti ∉ V) /\
    (forall v p, v ∈ V -> edge tasks v p -> p ∈ V).
Proof.
  revert visited queue. induction fuel as [|fuel IH]; intros visited queue Hf Hj Hinv Ht.
  - assert (queue = []) as -> by (destruct queue; [done|cbn in *; lia]).
    exists visited. set_solver.
  - destruct queue as [|c queue]; [exists visited; set_solver|]. cbn in Ht.
    destruct (String.eqb_spec c jti) as [|Hcj]; [done|]. case_bool_decide as Hcv.
    + cbn in Hf. apply IH in Ht as (V & HV & Hq & HjV & Hcl); [|lia|done|set_solver].
      exists V. set_solver.
    + cbn in Hf. apply IH in Ht as (V & HV & Hq & HjV & Hcl).
      * exists V. split_and!; [set_solver| |done|done]. intros q Hq'. set_solver.
      * destruct (tasks !! c) as [r|] eqn:Hr.
        -- rewrite (pending_visit _ _ _ _ Hcv Hr) in Hf. rewrite length_app. lia.
        -- rewrite (pending_absent _ _ _ Hr), app_nil_r. lia.
      * set_solver.
      * intros v p Hv He. destruct (decide (v = c)) as [->|Hvc].
        -- destruct He as (r & Hr & Hp). rewrite Hr. right. apply elem_of_app. by right.
        -- destruct (Hinv v p) as [?|Hp]; [set_solver|done|set_solver|].
           apply elem_of_cons in Hp as [->|?]; [set_solver|]. right. apply elem_of_app. by left.
Qed.

(** The parent references a traversal may have to follow fit its limit. *)
Definition small (tasks : Tasks) (parentIDs : list string) : Prop :=
  (length parentIDs + pending tasks ∅ <= MaxAncestorTraversal)%nat.

Lemma checkAcyclicity_sound tasks jti ps p :
  small tasks ps -> checkAcyclicity tasks jti ps = Ok tt -> p ∈ ps -> ~ rtc (edge tasks) p jti.
Proof.
  unfold small, checkAcyclicity. generalize MaxAncestorTraversal as fuel. intros fuel Hs Hc Hp Hr.
  apply traverse_explores in Hc as (V & _ & Hq & Hj & Hcl); [|exact Hs|set_solver|set_solver].
  apply Hj. clear Hj. assert (HpV : p ∈ V) by auto. clear Hp. induction Hr; eauto.
Qed.

(** The traversal refuses nothing else: when no parent leads to the new task it succeeds. *)
Lemma checkAcyclicity_complete tasks jti ps :
  (forall p, p ∈ ps -> ~ rtc (edge tasks) p jti) -> checkAcyclicity tasks jti ps = Ok tt.
Proof.
  unfold checkAcyclicity. generalize MaxAncestorTraversal as fuel. generalize (∅ : gset string).
  intros visited fuel. revert visited ps.
  induction fuel as [|fuel IH]; intros visited [|c ps] Hp; cbn; try done.
  destruct (String.eqb_spec c jti) as [->|_]; [exfalso; apply (Hp jti); [set_solver|apply rtc_refl]|].
  case_bool_decide; apply IH; [set_solver|].
  intros p [Hin|Hin]%elem_of_app; [set_solver|]. intros Hr.
  destruct (tasks !! c) as [r|] eqn:Hc; [|set_solver].
  apply (Hp c); [set_solver|]. eapply rtc_l; [|exact Hr]. by exists r.
Qed.

(** * Histories *)

Inductive Op : Type :=
| OpRecord (workflowID jti : string) (issuedAt : Time) (parentIDs : list string)
| OpCleanup (now : Time).

(** A call that returns an error leaves the tracker as it was. *)
Definition step (o : Op) (wt : WorkflowTracker) : WorkflowTracker :=
  match o with
  | OpRecord wid jti iat ps => match RecordTask wid jti iat ps wt with Ok wt' => wt' | Err _ => wt end
  | OpCleanup now => fst (Cleanup now wt)
  end.

Definition run (os : list Op) (wt : WorkflowTracker) : WorkflowTracker := foldl (fun wt o => step o wt) wt os.

(** What holds of every named workflow. *)
Definition wf_named (wt : WorkflowTracker) : Prop :=
  forall wid wf, workflows wt !! wid = Some wf ->
    closed (wf_Tasks wf) /\ acyclic (wf_Tasks wf) /\ ordered (clockSkew wt) (wf_Tasks wf).

(** In a closed graph a task that is not recorded yet is nobody's ancestor. *)
Lemma closed_fresh tasks jti p :
  closed tasks -> tasks !! jti = None -> is_Some (tasks !! p) -> ~ rtc (edge tasks) p jti.
Proof.
  intros Hc Hn Hp Hr. assert (is_Some (tasks !! jti)) as [? ?]; [|congruence].
  induction Hr; eauto.
Qed.

Lemma record_valid wt tasks jti iat ps :
  closed tasks -> acyclic tasks -> ordered (clockSkew wt) tasks ->
  validateTask wt tasks jti iat ps = Ok tt ->
  let tasks' := <[jti := {| JTI := jti; IssuedAt := iat; ParentIDs := ps |}]> tasks in
  closed tasks' /\ acyclic tasks' /\ ordered (clockSkew wt) tasks'.
Proof.
  intros Hc Ha Ho (Hn & Hex & Hlate & _)%validateTask_ok. cbn. split_and!.
  - intros c p [[-> Hp]|He]%edge_insert; [| |done]; cbn in *; rewrite lookup_insert; case_decide; eauto.
  - apply acyclic_insert; [done|done|]. cbn. intros p Hp. by apply closed_fresh; auto.
  - intros c p rc rp Hrc Hp Hrp. apply lookup_insert_Some in Hrc as [[<- <-]|[Hne Hrc]]; cbn in *.
    + destruct (decide (p = jti)) as [->|Hpj].
      * destruct (Hex jti Hp). congruence.
      * rewrite lookup_insert_ne in Hrp by done. by eapply Hlate.
    + destruct (decide (p = jti)) as [->|Hpj].
      * destruct (Hc c jti) as [? ?]; [by exists rc|congruence].
      * rewrite lookup_insert_ne in Hrp by done. by eapply Ho.
Qed.

Lemma empty_valid skew : closed ∅ /\ acyclic ∅ /\ ordered skew ∅.
Proof.
  assert (He : forall c p, ~ edge ∅ c p) by (intros c p (r & Hr & _); by rewrite lookup_empty in Hr).
  split_and!.
  - intros c p Hcp. by apply He in Hcp.
  - intros j Hj. inversion Hj; by eapply He.
  - intros c p rc rp Hrc. by rewrite lookup_empty in Hrc.
Qed.

Lemma step_named o wt : wf_named wt -> wf_named (step o wt).
Proof.
  intros Hw. destruct o as [wid jti iat ps|now]; cbn.
  - destruct (RecordTask wid jti iat ps wt) as [wt'|] eqn:Hr; [|done]. unfold RecordTask in Hr.
    apply rbind_ok in Hr as ([] & Hv & Hr). unfold tasksForScope, str_nonempty in *.
    destruct (wid =? "")%string eqn:Hwid; cbn in Hr; injection Hr as <-; [done|].
    intros wid' wf'. cbn. intros [[<- <-]|[_ Hl]]%lookup_insert_Some; [|by eapply Hw]. cbn.
    destruct (workflows wt !! wid) as [wf|] eqn:Hwf; cbn.
    + destruct (Hw _ _ Hwf) as (? & ? & ?). by apply record_valid.
    + destruct (empty_valid (clockSkew wt)) as (? & ? & ?). by apply record_valid.
  - intros wid wf [Hl _]%lookup_purge. by eapply Hw.
Qed.

Lemma run_named os wt : wf_named wt -> wf_named (run os wt).
Proof. revert wt. induction os as [|o os IH]; intros wt Hw; [done|]. apply IH. by apply step_named. Qed.

Lemma new_named opts : wf_named (NewWorkflowTracker opts) /\ globalTasks (NewWorkflowTracker opts) = ∅.
Proof.
  assert (Hm : forall wt, workflows wt = ∅ -> globalTasks wt = ∅ ->
    workflows (foldl applyOption wt opts) = ∅ /\ globalTasks (foldl applyOption wt opts) = ∅).
  { induction opts as [|o opts IH]; intros wt H1 H2; [done|]. cbn. apply IH; by destruct o. }
  unfold NewWorkflowTracker, wf_named. edestruct Hm as [-> ->]; [done|done|].
  split; [|done]. intros wid wf Hl. by rewrite lookup_empty in Hl.
Qed.

(** C30: a named workflow is a DAG. Whatever tasks are offered to a tracker and whenever [Cleanup]
    runs, in every workflow each recorded parent is itself recorded, no task is its own ancestor,
    and no parent was issued after its child by more than the clock skew. *)
Theorem workflow_is_dag opts os wid wf :
  workflows (run os (NewWorkflowTracker opts)) !! wid = Some wf ->
  closed (wf_Tasks wf) /\ acyclic (wf_Tasks wf) /\
  ordered (clockSkew (run os (NewWorkflowTracker opts))) (wf_Tasks wf).
Proof. intros Hl. destruct (new_named opts) as [Hn _]. by eapply (run_named os _ Hn). Qed.

(** * The global scope *)

Lemma edge_subseteq tasks tasks' c p : tasks ⊆ tasks' -> edge tasks c p -> edge tasks' c p.
Proof. intros Hs (r & Hr & Hp). exists r. split; [by eapply lookup_weaken|done]. Qed.

Lemma acyclic_subseteq tasks tasks' : tasks ⊆ tasks' -> acyclic tasks' -> acyclic tasks.
Proof.
  intros Hs Ha j Hj. apply (Ha j). revert Hj. generalize j at 1 3. intros i Hi.
  induction Hi as [x y He|x y z He _ IH]; [apply tc_once|eapply tc_l; [|exact IH]];
    by eapply edge_subseteq.
Qed.

(** Every task recorded in the global scope was small enough for its traversal to be complete. *)
Fixpoint global_small (os : list Op) (wt : WorkflowTracker) : Prop :=
  match os with
  | [] => True
  | o :: os' =>
      match o with OpRecord "" _ _ ps => small (globalTasks wt) ps | _ => True end /\
      global_small os' (step o wt)
  end.

Lemma step_global o wt :
  match o with OpRecord "" _ _ ps => small (globalTasks wt) ps | _ => True end ->
  acyclic (globalTasks wt) -> acyclic (globalTasks (step o wt)).
Proof.
  intros Hs Ha. destruct o as [wid jti iat ps|now]; cbn.
  - destruct (RecordTask wid jti iat ps wt) as [wt'|] eqn:Hr; [|done]. unfold RecordTask in Hr.
    apply rbind_ok in Hr as ([] & Hv & Hr). destruct wid as [|a wid]; cbn in Hr; injection Hr as <-;
      [|done]. cbn. apply validateTask_ok in Hv as (Hn & _ & _ & Hc).
    apply acyclic_insert; [done|done|]. cbn. intros p Hp. by eapply checkAcyclicity_sound.
  - eapply acyclic_subseteq; [apply purge_subseteq|done].
Qed.

(** The global scope is acyclic while it is small. There [Cleanup] removes single tasks, so a
    removed task can be recorded again below its own descendants and only the traversal stands
    in the way: as long as the parent references it may have to follow fit
    [MaxAncestorTraversal], no cycle is ever recorded. *)
Theorem global_scope_acyclic opts os :
  global_small os (NewWorkflowTracker opts) ->
  acyclic (globalTasks (run os (NewWorkflowTracker opts))).
Proof.
  assert (Hrun : forall wt, acyclic (globalTasks wt) -> global_small os wt ->
    acyclic (globalTasks (run os wt))).
  { induction os as [|o os IH]; intros wt Ha Hs; [done|]. destruct Hs as [Hs Hs'].
    apply IH; [by apply step_global|done]. }
  intros Hs. apply Hrun; [|done]. destruct (new_named opts) as [_ ->]. apply (empty_valid 0).
Qed.

Definition edgeb (tasks : Tasks) (child parent : string) : bool :=
  match tasks !! child with Some r => str_mem parent (ParentIDs r) | None => false end.

Lemma edgeb_true tasks c p : edgeb tasks c p = true -> edge tasks c p.
Proof.
  unfold edgeb, edge. destruct (tasks !! c) as [r|]; [|done]. intros Hp%str_mem_true. eauto.
Qed.

(** A task ["b"] is recorded, then its child ["a"]; ["b"] ages out and is recorded again with
    [MaxAncestorTraversal] references to ["a"]. *)
Definition cyclic_history : list Op :=
  [OpRecord "" "b" 0 []; OpRecord "" "a" (10 * Hour) ["b"]; OpCleanup (10 * Hour);
   OpRecord "" "b" (10 * Hour) (replicate MaxAncestorTraversal "a")].
Definition cyclic_tasks : Tasks := globalTasks (run cyclic_history (NewWorkflowTracker [])).

Lemma cyclic_edges : edgeb cyclic_tasks "a" "b" && edgeb cyclic_tasks "b" "a" = true.
Proof. vm_compute. reflexivity. Qed.

(** Beyond the limit it is not. A task with [MaxAncestorTraversal] references to a parent whose
    own parent was cleaned up and is recorded again is accepted, and closes a cycle: the
    traversal stops before it reaches the task's own name. *)
Theorem global_cycle_beyond_limit :
  exists os, ~ acyclic (globalTasks (run os (NewWorkflowTracker []))).
Proof.
  exists cyclic_history. fold cyclic_tasks. intros Ha. apply (Ha "a").
  destruct (andb_prop _ _ cyclic_edges) as [Hab Hba].
  eapply (tc_l _ _ "b"); [|apply tc_once]; by apply edgeb_true.
Qed.

Definition demo_history : list Op :=
  [OpRecord "w" "t1" 10 []; OpRecord "w" "t2" 20 ["t1"]; OpRecord "w" "t1" 30 ["t2"];
   OpRecord "w" "t3" 30 ["t1"; "t2"]].
Definition demo_wf : Workflow :=
  {| wf_ID := "w"; CreatedAt := 10; UpdatedAt := 30;
     wf_Tasks := <["t3" := {| JTI := "t3"; IssuedAt := 30; ParentIDs := ["t1"; "t2"] |}]>
       (<["t2" := {| JTI := "t2"; IssuedAt := 20; ParentIDs := ["t1"] |}]>
       (<["t1" := {| JTI := "t1"; IssuedAt := 10; ParentIDs := [] |}]> ∅)) |}.

Lemma workflow_is_dag_witness : acyclic (wf_Tasks demo_wf).
Proof.
  apply (workflow_is_dag [] demo_history "w" demo_wf). vm_compute. reflexivity.
Defined.

Definition demo_global : list Op :=
  [OpRecord "" "b" 0 []; OpRecord "" "a" (10 * Hour) ["b"]; OpCleanup (10 * Hour);
   OpRecord "" "b" (10 * Hour) ["a"]].

Lemma global_scope_acyclic_witness : acyclic (globalTasks (run demo_global (NewWorkflowTracker []))).
Proof.
  apply (global_scope_acyclic [] demo_global).
  repeat split; apply Nat.leb_le; vm_compute; reflexivity.
Defined.
End Workflow.
