(* ===== verification/Mcp.v ===== *)
(** The MCP security middleware of [pkg/mcp]: the tool registry ([registry.go]), claim
    extraction and the verification pipeline of a tool call ([middleware.go], [dpop.go]). *)
From Stdlib Require Import ZArith QArith Lia Ascii.
From stdpp Require Import base gmap strings list.
From S2P Require Import Prelude.
From S2P Require Import GoLib.
From S2P Require Import JwtModel.
From S2P Require Import Core.
From S2P Require Import DPoP.

#[local] Open Scope Z_scope.
#[local] Open Scope string_scope.

Module Mcp.

(** * The tool registry *)

Record ToolEntry : Type := {
  ToolID : string;
  Name : string;
  Description : string;
  ResourceURI : string;
  RequiredCapabilities : list string;
  MaxBlastRadius : string;
  RequiresExecution : bool;
  AllowedOperations : list string;
  AllowedTargets : list string;
  OwnerCommune : string;
  ServerID : string;
  RegisteredAt : Time;
  UpdatedAt : Time;
}.

Definition stamp (e : ToolEntry) (registered updated : Time) : ToolEntry :=
  {| ToolID := ToolID e; Name := Name e; Description := Description e; ResourceURI := ResourceURI e;
     RequiredCapabilities := RequiredCapabilities e; MaxBlastRadius := MaxBlastRadius e;
     RequiresExecution := RequiresExecution e; AllowedOperations := AllowedOperations e;
     AllowedTargets := AllowedTargets e; OwnerCommune := OwnerCommune e; ServerID := ServerID e;
     RegisteredAt := registered; UpdatedAt := updated |}.

(** [Registry]; an entry is not changed by its caller after it was registered. *)
Abbreviation Registry := (gmap string ToolEntry) (only parsing).

Inductive RegistryErr : Type := ErrToolExists | ErrToolNotFound.

Definition NewRegistry : Registry := ∅.

(** [Register], [Update], [Deregister] *)
Definition Register (now : Time) (entry : ToolEntry) (r : Registry) : result RegistryErr Registry :=
  match r !! ToolID entry with
  | Some _ => Err ErrToolExists
  | None => Ok (<[ToolID entry := stamp entry now now]> r)
  end.

Definition Update (now : Time) (entry : ToolEntry) (r : Registry) : result RegistryErr Registry :=
  match r !! ToolID entry with
  | None => Err ErrToolNotFound
  | Some existing => Ok (<[ToolID entry := stamp entry (RegisteredAt existing) now]> r)
  end.

Definition Deregister (toolID : string) (r : Registry) : result RegistryErr Registry :=
  match r !! toolID with
  | None => Err ErrToolNotFound
  | Some _ => Ok (delete toolID r)
  end.

(** [Get], [List], [Count] *)
Definition Get (toolID : string) (r : Registry) : option ToolEntry := r !! toolID.
Definition List_ `{!RangeOrder} (r : Registry) : list ToolEntry := (range r).*2.
Definition Count_ (r : Registry) : nat := size r.

(** * Claims *)

Record Delegation : Type := {
  OnBehalfOf : string;
  Depth : Z;
}.

Record VerifiedClaims : Type := {
  vc_Subject : string;
  vc_Issuer : string;
  vc_Audience : string;
  vc_Capabilities : list string;
  vc_BlastRadius : string;
  vc_Delegation : option Delegation;
  vc_Execution : option ExecutionScope;
  vc_ExpiresAt : Time;
  vc_ToolID : string;
  vc_Resource : string;
  vc_CNFThumbprint : string;
}.

(** [VerifyOptions]; a nil body is [None]. *)
Record VerifyOptions : Type := {
  RequestBody : option string;
  opt_DPoPProof : string;
}.

Inductive McpErr : Type :=
| ErrInvalidToken (why : string)
| ErrMissingToken
| ErrTokenRevoked (reason : string)
| ErrToolNotRegistered (toolID : string)
| ErrCapabilityDenied (missing : list string)
| ErrBlastRadiusExceeded (token max : string)
| ErrAudienceMismatch (got want : string)
| ErrPolicyDenied (reason : string)
| ErrPolicyEvaluation (err : string)
| ErrExecOpMismatch (act : string)
| ErrExecPayloadMismatch (computed declared : string)
| ErrExecPayloadMissing
| ErrExecTargetMismatch (target : string)
| ErrExecBindingRequired (toolID : string)
| ErrDPoPMissing
| ErrDPoPMismatch (got want : string)
| ErrDPoPInvalid (err : DPoP.DPoPErr).

(** [resolveOpts]: the first option that is not nil *)
Fixpoint resolveOpts (opts : list (option VerifyOptions)) : option VerifyOptions :=
  match opts with
  | [] => None
  | Some o :: _ => Some o
  | None :: opts' => resolveOpts opts'
  end.

(** [stringInSlice] *)
Definition stringInSlice (s : string) (l : list string) : bool := existsb (fun v => (v =? s)%string) l.

(** [len(list) > 0 && s != "" && !stringInSlice(s, list)] *)
Definition notAllowed (s : string) (l : list string) : bool :=
  (0 <? length l)%nat && str_nonempty s && negb (stringInSlice s l).

(** [checkCapabilities] *)
Definition missingCaps (tokenCaps required : list string) : list string :=
  List.filter (fun r => negb (bool_decide (r ∈ (list_to_set tokenCaps : gset string)))) required.
Definition checkCapabilities (tokenCaps required : list string) : result McpErr unit :=
  match required with
  | [] => Ok tt
  | _ =>
      let missing := missingCaps tokenCaps required in
      match missing with
      | [] => Ok tt
      | _ => Err (ErrCapabilityDenied missing)
      end
  end.

(** [blastRadiusFits] *)
Definition blastRadiusFits (tokenBR maxBR : string) : bool :=
  if (maxBR =? "*")%string then true else
  match SplitN2 tokenBR ":", SplitN2 maxBR ":" with
  | [t0; t1], [m0; m1] =>
      if negb (t0 =? m0)%string then false
      else if (m1 =? "*")%string then true
      else (t1 =? m1)%string
  | _, _ => (tokenBR =? maxBR)%string
  end.

(** [extractTrustDomain] *)
Fixpoint trustDomainAfter (prefixes : list string) (uri : string) : string :=
  match prefixes with
  | [] => ""
  | prefix :: ps =>
      if HasPrefix uri prefix then
        let rest := TrimPrefix uri prefix in
        match cut_at "/" rest with
        | Some (td, _) => if str_nonempty td then td else rest
        | None => rest
        end
      else trustDomainAfter ps uri
  end.
Definition extractTrustDomain (uri : string) : string :=
  trustDomainAfter ["wimse://"; "spiffe://"] uri.

Lemma missingCaps_nil have required : missingCaps have required = [] <-> required ⊆ have.
Proof.
  unfold missingCaps. induction required as [|r rs IH]; cbn; [set_solver|].
  case_bool_decide as Hr; cbn; rewrite elem_of_list_to_set in Hr; [rewrite IH; set_solver|].
  split; [done|]. set_solver.
Qed.

Lemma checkCapabilities_ok have required :
  checkCapabilities have required = Ok tt <-> required ⊆ have.
Proof.
  unfold checkCapabilities. destruct required as [|r rs]; [set_solver|].
  rewrite <- missingCaps_nil. by destruct (missingCaps have (r :: rs)).
Qed.

Lemma stringInSlice_true s l : stringInSlice s l = true <-> s ∈ l.
Proof.
  unfold stringInSlice. rewrite existsb_exists. setoid_rewrite <- list_elem_of_In.
  split; [intros (x & ? & ->%String.eqb_eq)|intros ?; exists s; rewrite String.eqb_refl]; done.
Qed.

Lemma notAllowed_false s l : notAllowed s l = false <-> (l <> [] -> s <> "" -> s ∈ l).
Proof.
  unfold notAllowed. destruct l as [|x l]; [cbn; naive_solver|]. cbn [length Nat.ltb Nat.leb andb].
  destruct (str_nonempty s) eqn:Hs; cbn [andb].
  - apply str_nonempty_true in Hs. rewrite negb_false_iff, stringInSlice_true. naive_solver.
  - apply str_nonempty_false in Hs. naive_solver.
Qed.

Section Verify.
Context `{!JwtLib, !JwsLib}.

(** The dynamic type of a [crypto.PublicKey], and base64url(SHA-256) of a body. *)
Inductive KeyKind : Type := ECDSA | Ed25519 | RSA | OtherKey.
Variable key_kind : jwk_key -> KeyKind.
Variable sha256_b64 : string -> string.

(** [inferAlgorithm] *)
Definition inferAlgorithm (key : jwk_key) : string :=
  match key_kind key with
  | ECDSA => "ES256"
  | Ed25519 => "EdDSA"
  | RSA | OtherKey => "RS256"
  end.

(** [extractClaims]: the execution scope, when the token has any of its claims *)
Definition claim_or_empty (t : jwt_token) (name : string) : string :=
  match get_string t name with Some v => v | None => "" end.

Definition extractExecution (t : jwt_token) : option ExecutionScope :=
  let present name := bool_decide (is_Some (get_string t name)) in
  let hasExec := existsb present ["htm"; "htu"; "exec_act"; "inp_hash"] in
  let inp := claim_or_empty t "inp_hash" in
  let legacy := if (inp =? "")%string then get_string t "payload_hash" else None in
  let hasExec := hasExec || bool_decide (is_Some legacy) ||
                 existsb present ["out_hash"; "target"; "wid"; "nonce"] in
  if hasExec then
    Some {| Method := claim_or_empty t "htm"; URI := claim_or_empty t "htu";
            ExecAct := claim_or_empty t "exec_act";
            InputHash := match legacy with Some v => v | None => inp end;
            OutputHash := claim_or_empty t "out_hash"; Target := claim_or_empty t "target";
            WorkflowID := claim_or_empty t "wid";
            PayloadHash := match legacy with Some v => v | None => "" end;
            Nonce := claim_or_empty t "nonce" |}
  else None.

Definition extractDelegation (t : jwt_token) : option Delegation :=
  let d := match get_string t "obo" with
           | Some obo => Some {| OnBehalfOf := obo; Depth := 0 |}
           | None => None
           end in
  match get_float t "delegation_depth" with
  | Some dd => Some {| OnBehalfOf := match d with Some d => OnBehalfOf d | None => "" end;
                       Depth := trunc dd |}
  | None => d
  end.

Definition extractThumbprint (t : jwt_token) : string :=
  match get_object t "cnf" with
  | Some cnf => match cnf !! "jkt" with
                | Some v => match as_string v with Some jkt => jkt | None => "" end
                | None => ""
                end
  | None => ""
  end.

Definition firstAudience (t : jwt_token) : string :=
  match jwt_Audience t with Some (a :: _) => a | _ => "" end.

Definition extractClaims (t : jwt_token) : VerifiedClaims :=
  {| vc_Subject := match jwt_Subject t with Some s => s | None => "" end;
     vc_Issuer := match jwt_Issuer t with Some s => s | None => "" end;
     vc_Audience := firstAudience t;
     vc_Capabilities := match get_array t "caps" with Some l => strings_of l | None => [] end;
     vc_BlastRadius := match get_string t "blast_radius" with Some br => br | None => "" end;
     vc_Delegation := extractDelegation t;
     vc_Execution := extractExecution t;
     vc_ExpiresAt := match jwt_Expiration t with Some e => e | None => 0%Z end;
     vc_ToolID := ""; vc_Resource := "";
     vc_CNFThumbprint := extractThumbprint t |}.

Definition with_tool (c : VerifiedClaims) (toolID resource : string) : VerifiedClaims :=
  {| vc_Subject := vc_Subject c; vc_Issuer := vc_Issuer c; vc_Audience := vc_Audience c;
     vc_Capabilities := vc_Capabilities c; vc_BlastRadius := vc_BlastRadius c;
     vc_Delegation := vc_Delegation c; vc_Execution := vc_Execution c;
     vc_ExpiresAt := vc_ExpiresAt c; vc_ToolID := toolID; vc_Resource := resource;
     vc_CNFThumbprint := vc_CNFThumbprint c |}.

Definition with_thumbprint (c : VerifiedClaims) (jkt : string) : VerifiedClaims :=
  {| vc_Subject := vc_Subject c; vc_Issuer := vc_Issuer c; vc_Audience := vc_Audience c;
     vc_Capabilities := vc_Capabilities c; vc_BlastRadius := vc_BlastRadius c;
     vc_Delegation := vc_Delegation c; vc_Execution := vc_Execution c;
     vc_ExpiresAt := vc_ExpiresAt c; vc_ToolID := vc_ToolID c; vc_Resource := vc_Resource c;
     vc_CNFThumbprint := jkt |}.

(** [Config]: what the verification uses of it *)
Record Config : Type := {
  JWKSResolver : string -> string -> result string jwk_key;
  cfg_Registry : option Registry;
  RevocationChecker : option (Time -> string -> result string (option RevocationEntry));
  Policy : option (PolicyInput -> result string PolicyDecision);
  DevMode : bool;
}.

(** [verifyDPoP]: the claims with their thumbprint filled in *)
Definition verifyDPoP (cfg : Config) (now now' : Time) (claims : VerifiedClaims)
    (opts : option VerifyOptions) : result McpErr VerifiedClaims :=
  if DevMode cfg then Ok claims else
  let proof := match opts with Some o => opt_DPoPProof o | None => "" end in
  if (vc_CNFThumbprint claims =? "")%string && (proof =? "")%string then Ok claims else
  if negb (vc_CNFThumbprint claims =? "")%string && (proof =? "")%string then Err ErrDPoPMissing else
  match DPoP.validateDPoPProof now now' proof with
  | Err e => Err (ErrDPoPInvalid e)
  | Ok thumbprint =>
      if negb (vc_CNFThumbprint claims =? "")%string && negb (thumbprint =? vc_CNFThumbprint claims)%string
      then Err (ErrDPoPMismatch thumbprint (vc_CNFThumbprint claims))
      else Ok (with_thumbprint claims thumbprint)
  end.

(** [computeInputHash], and check 3 of [verifyExecutionBinding] *)
Definition computeInputHash (data : string) : string := sha256_b64 data.
Definition checkPayload (ex : ExecutionScope) (opts : option VerifyOptions) : result McpErr unit :=
  match opts ≫= RequestBody with
  | Some body =>
      reject (str_nonempty (InputHash ex) && negb (computeInputHash body =? InputHash ex)%string)
        (ErrExecPayloadMismatch (computeInputHash body) (InputHash ex))
  | None => Ok tt
  end.

(** [verifyExecutionBinding] *)
Definition verifyExecutionBinding (claims : VerifiedClaims) (tool : ToolEntry)
    (opts : option VerifyOptions) : result McpErr unit :=
  match vc_Execution claims with
  | None => reject (RequiresExecution tool) (ErrExecBindingRequired (ToolID tool))
  | Some ex =>
      let? _ := reject (notAllowed (ExecAct ex) (AllowedOperations tool)) (ErrExecOpMismatch (ExecAct ex)) in
      let? _ := checkPayload ex opts in
      let? _ := reject (RequiresExecution tool && (InputHash ex =? "")%string) ErrExecPayloadMissing in
      reject (notAllowed (Target ex) (AllowedTargets tool)) (ErrExecTargetMismatch (Target ex))
  end.

(** Phase 1: parsing and, outside dev mode, verification under the issuer's key ([extractKID] is
    always the empty string). *)
Definition verifyIdentity (cfg : Config) (now : Time) (tokenStr : string) : result McpErr jwt_token :=
  match jwt_ParseInsecure tokenStr with
  | None => Err (ErrInvalidToken "parse")
  | Some insecure =>
      let issuer := match jwt_Issuer insecure with Some i => i | None => "" end in
      if (issuer =? "")%string then Err (ErrInvalidToken "missing issuer claim") else
      if DevMode cfg then Ok insecure else
      match JWKSResolver cfg issuer "" with
      | Err e => Err (ErrInvalidToken e)
      | Ok pubKey =>
          match jwt_ParseWithKey (inferAlgorithm pubKey) pubKey now tokenStr with
          | None => Err (ErrInvalidToken "verify")
          | Some verified => Ok verified
          end
      end
  end.

(** The registry the call is checked against: none when the tool ID is empty. *)
Definition checkedRegistry (cfg : Config) (toolID : string) : option Registry :=
  if str_nonempty toolID then cfg_Registry cfg else None.

Definition resourceURI (tool : ToolEntry) : string :=
  if (ResourceURI tool =? "")%string then ToolID tool else ResourceURI tool.

(** Phase 2: audience, capabilities and blast radius of the tool. *)
Definition checkTool (cfg : Config) (toolID : string) (claims : VerifiedClaims)
    : result McpErr VerifiedClaims :=
  match checkedRegistry cfg toolID with
  | None => Ok claims
  | Some reg =>
      match Get toolID reg with
      | None => Err (ErrToolNotRegistered toolID)
      | Some tool =>
          let? _ := reject (negb (vc_Audience claims =? resourceURI tool)%string)
                      (ErrAudienceMismatch (vc_Audience claims) (resourceURI tool)) in
          let claims' := with_tool claims toolID (resourceURI tool) in
          let? _ := checkCapabilities (vc_Capabilities claims') (RequiredCapabilities tool) in
          let? _ := reject (str_nonempty (MaxBlastRadius tool) && str_nonempty (vc_BlastRadius claims') &&
                            negb (blastRadiusFits (vc_BlastRadius claims') (MaxBlastRadius tool)))
                      (ErrBlastRadiusExceeded (vc_BlastRadius claims') (MaxBlastRadius tool)) in
          Ok claims'
      end
  end.

(** Phase 4: revocation, failing open on an error. *)
Definition checkRevoked (cfg : Config) (now : Time) (claims : VerifiedClaims) : result McpErr unit :=
  match RevocationChecker cfg with
  | None => Ok tt
  | Some isRevoked =>
      match isRevoked now (vc_Subject claims) with
      | Ok (Some entry) => Err (ErrTokenRevoked (re_Reason entry))
      | Ok None | Err _ => Ok tt
      end
  end.

Definition policyInput (now : Time) (toolID : string) (claims : VerifiedClaims) : PolicyInput :=
  {| pi_Action := "mcp_tool_call";
     pi_Subject := {| wi_ID := vc_Subject claims; wi_TrustDomain := extractTrustDomain (vc_Subject claims);
                      wi_Attestation := Some {| ae_Method := "mcp-client"; ae_Timestamp := now;
                                                ae_NodeID := ""; ae_Namespace := "" |};
                      wi_Claims := ∅ |};
     pi_Target := toolID;
     pi_Context := <["capabilities" := VArr (VStr <$> vc_Capabilities claims)]>
       (<["blast_radius" := VStr (vc_BlastRadius claims)]>
       (<["audience" := VStr (vc_Audience claims)]>
       (<["issuer" := VStr (vc_Issuer claims)]>
       (<["resource" := VStr (vc_Resource claims)]> ∅)))) |}.

Definition checkPolicy (cfg : Config) (input : PolicyInput) : result McpErr unit :=
  match Policy cfg with
  | None => Ok tt
  | Some evaluate =>
      match evaluate input with
      | Err err => Err (ErrPolicyEvaluation err)
      | Ok decision => reject (negb (Allowed decision)) (ErrPolicyDenied (pd_Reason decision))
      end
  end.

(** Phase 3: execution binding. *)
Definition checkBinding (cfg : Config) (toolID : string) (claims : VerifiedClaims)
    (opts : option VerifyOptions) : result McpErr unit :=
  match checkedRegistry cfg toolID with
  | None => Ok tt
  | Some reg =>
      match Get toolID reg with
      | None => Ok tt
      | Some tool => verifyExecutionBinding claims tool opts
      end
  end.

(** [VerifyToolCall]; [now i] is the [i]-th reading of the clock. *)
Definition VerifyToolCall (cfg : Config) (now : nat -> Time) (tokenStr toolID : string)
    (opts : list (option VerifyOptions)) : result McpErr VerifiedClaims :=
  let? verified := verifyIdentity cfg (now 0%nat) tokenStr in
  let? c1 := verifyDPoP cfg (now 1%nat) (now 2%nat) (extractClaims verified) (resolveOpts opts) in
  let? c2 := checkTool cfg toolID c1 in
  let? _ := checkRevoked cfg (now 3%nat) c2 in
  let? _ := checkPolicy cfg (policyInput (now 4%nat) toolID c2) in
  let? _ := checkBinding cfg toolID c2 (resolveOpts opts) in
  Ok c2.

(** * What the checks mean *)

(** The conditions a tool puts on a call: the promise of phases 2 and 3. *)
(** A blast radius within the one a tool allows: anything under the wildcard, the same radius, or one of the same
    scope when the tool allows every member of the scope. *)
Definition within (radius max : string) : Prop :=
  max = "*" \/ radius = max \/ exists scope member, radius = scope +:+ ":" +:+ member /\ max = scope +:+ ":*".

Record tool_satisfied (tool : ToolEntry) (claims : VerifiedClaims) (body : option string) : Prop := {
  ts_audience : vc_Audience claims = if bool_decide (ResourceURI tool = "") then ToolID tool else ResourceURI tool;
  ts_caps : RequiredCapabilities tool ⊆ vc_Capabilities claims;
  ts_blast : MaxBlastRadius tool <> "" -> vc_BlastRadius claims <> "" ->
      within (vc_BlastRadius claims) (MaxBlastRadius tool);
  ts_exec : RequiresExecution tool = true ->
      exists ex, vc_Execution claims = Some ex /\ InputHash ex <> "";
  ts_binding : forall ex, vc_Execution claims = Some ex ->
      (AllowedOperations tool <> [] -> ExecAct ex <> "" -> ExecAct ex ∈ AllowedOperations tool) /\
      (forall b, body = Some b -> InputHash ex <> "" -> sha256_b64 b = InputHash ex) /\
      (AllowedTargets tool <> [] -> Target ex <> "" -> Target ex ∈ AllowedTargets tool);
}.

(** The claims a call is answered with are those of the verified token: its registered claims, its array of
    capabilities, its delegation and execution claims. *)
Record claims_of (verified : jwt_token) (claims : VerifiedClaims) : Prop := {
  co_subject : vc_Subject claims = default "" (jwt_Subject verified);
  co_issuer : vc_Issuer claims = default "" (jwt_Issuer verified);
  co_audience : vc_Audience claims = default "" (head (default [] (jwt_Audience verified)));
  co_expires : vc_ExpiresAt claims = default 0%Z (jwt_Expiration verified);
  co_caps : vc_Capabilities claims = strings_of (default [] (get_array verified "caps"));
  co_blast : vc_BlastRadius claims = default "" (get_string verified "blast_radius");
  co_obo : forall obo, get_string verified "obo" = Some obo -> (OnBehalfOf <$> vc_Delegation claims) = Some obo;
  co_depth : forall d, get_float verified "delegation_depth" = Some d -> (Depth <$> vc_Delegation claims) = Some (trunc d);
  co_act : forall v, get_string verified "exec_act" = Some v -> (ExecAct <$> vc_Execution claims) = Some v;
  co_target : forall v, get_string verified "target" = Some v -> (Target <$> vc_Execution claims) = Some v;
  co_hash : forall v, get_string verified "inp_hash" = Some v -> v <> "" -> (InputHash <$> vc_Execution claims) = Some v;
}.

Lemma extracted_claims_of verified tid res jkt :
  claims_of verified (with_tool (with_thumbprint (extractClaims verified) jkt) tid res) /\
  claims_of verified (with_thumbprint (extractClaims verified) jkt).
Proof using Type.
  clear key_kind sha256_b64. assert (Hx : forall v name (f : ExecutionScope -> string), get_string verified name = Some v ->
    name ∈ ["exec_act"; "target"] ->
    (forall ex, extractExecution verified = Some ex -> f ex = claim_or_empty verified name) ->
    f <$> extractExecution verified = Some v).
  { intros v name f Hv Hin Hf. destruct (extractExecution verified) as [ex|] eqn:He.
    - cbn. f_equal. rewrite (Hf _ eq_refl). unfold claim_or_empty. by rewrite Hv.
    - exfalso. unfold extractExecution in He. revert He. cbn [existsb].
      assert (Hp : bool_decide (is_Some (get_string verified name)) = true) by (apply bool_decide_true; eauto).
      apply elem_of_cons in Hin as [->|Hin%list_elem_of_singleton]; [|subst name]; rewrite Hp;
        by rewrite ?orb_true_r. }
  assert (Hf : forall ex, extractExecution verified = Some ex ->
    ExecAct ex = claim_or_empty verified "exec_act" /\ Target ex = claim_or_empty verified "target").
  { unfold extractExecution. intros ex. case_match; [|done]. by intros [= <-]. }
  assert (Hh : forall v, get_string verified "inp_hash" = Some v -> v <> "" ->
    InputHash <$> extractExecution verified = Some v).
  { intros v Hv Hne. unfold extractExecution, claim_or_empty. cbn [existsb]. rewrite Hv.
    assert (Hp : bool_decide (is_Some (Some v)) = true) by (apply bool_decide_true; eauto).
    rewrite Hp, ?orb_true_r, ?orb_true_l. by destruct (String.eqb_spec v ""). }
  assert (Hd : forall obo, get_string verified "obo" = Some obo ->
    OnBehalfOf <$> extractDelegation verified = Some obo).
  { intros obo Ho. unfold extractDelegation. rewrite Ho. by destruct (get_float _ _). }
  assert (Hdd : forall d, get_float verified "delegation_depth" = Some d ->
    Depth <$> extractDelegation verified = Some (trunc d)).
  { intros d Ho. unfold extractDelegation. by rewrite Ho. }
  assert (Ha : firstAudience verified = default "" (head (default [] (jwt_Audience verified)))).
  { unfold firstAudience. by destruct (jwt_Audience verified) as [[]|]. }
  split; constructor; cbn; try done; try (by destruct (get_array verified "caps"));
    intros v Hv; eapply Hx; try done; try set_solver; intros ex He; by apply Hf in He as [? ?].
Qed.

Lemma blastRadiusFits_within radius max : blastRadiusFits radius max = true -> within radius max.
Proof using.
  unfold blastRadiusFits, within. destruct (String.eqb_spec max "*") as [->|_]; [by left|]. intros Hf. right.
  unfold SplitN2 in Hf. destruct (cut_at ":" radius) as [[t0 t1]|] eqn:Ht, (cut_at ":" max) as [[m0 m1]|] eqn:Hm;
    try (left; by apply String.eqb_eq). apply cut_at_split in Ht, Hm.
  destruct (String.eqb_spec t0 m0) as [->|]; [cbn in Hf|done].
  destruct (String.eqb_spec m1 "*") as [->|_]; [right; by exists m0, t1|].
  left. apply String.eqb_eq in Hf as ->. congruence.
Qed.

Lemma checkPayload_ok ex opts :
  checkPayload ex opts = Ok tt <->
  (forall b, (opts ≫= RequestBody) = Some b -> InputHash ex <> "" -> sha256_b64 b = InputHash ex).
Proof.
  unfold checkPayload, computeInputHash. destruct (opts ≫= RequestBody) as [body|]; [|naive_solver].
  rewrite reject_ok. destruct (str_nonempty (InputHash ex)) eqn:Hs; cbn [andb].
  - apply str_nonempty_true in Hs. rewrite negb_false_iff, String.eqb_eq. naive_solver.
  - apply str_nonempty_false in Hs. naive_solver.
Qed.

Lemma verifyExecutionBinding_ok claims tool opts :
  verifyExecutionBinding claims tool opts = Ok tt <->
  (RequiresExecution tool = true -> exists ex, vc_Execution claims = Some ex /\ InputHash ex <> "") /\
  forall ex, vc_Execution claims = Some ex ->
    (AllowedOperations tool <> [] -> ExecAct ex <> "" -> ExecAct ex ∈ AllowedOperations tool) /\
    (forall b, (opts ≫= RequestBody) = Some b -> InputHash ex <> "" -> sha256_b64 b = InputHash ex) /\
    (AllowedTargets tool <> [] -> Target ex <> "" -> Target ex ∈ AllowedTargets tool).
Proof.
  unfold verifyExecutionBinding. destruct (vc_Execution claims) as [ex|].
  2:{ rewrite reject_ok. destruct (RequiresExecution tool); naive_solver. }
  transitivity (notAllowed (ExecAct ex) (AllowedOperations tool) = false /\
    checkPayload ex opts = Ok tt /\ RequiresExecution tool && (InputHash ex =? "")%string = false /\
    notAllowed (Target ex) (AllowedTargets tool) = false).
  { destruct (notAllowed (ExecAct ex) _), (checkPayload ex opts) as [[]|],
      (RequiresExecution tool && _), (notAllowed (Target ex) _); cbn; naive_solver. }
  rewrite !notAllowed_false, checkPayload_ok.
  destruct (RequiresExecution tool), (String.eqb_spec (InputHash ex) ""); cbn; naive_solver.
Qed.

Lemma checkTool_ok cfg toolID claims claims' :
  checkTool cfg toolID claims = Ok claims' ->
  match checkedRegistry cfg toolID with
  | None => claims' = claims
  | Some reg => exists tool, Get toolID reg = Some tool /\
      claims' = with_tool claims toolID (resourceURI tool) /\
      vc_Audience claims = resourceURI tool /\
      RequiredCapabilities tool ⊆ vc_Capabilities claims /\
      (MaxBlastRadius tool <> "" -> vc_BlastRadius claims <> "" ->
        blastRadiusFits (vc_BlastRadius claims) (MaxBlastRadius tool) = true)
  end.
Proof.
  unfold checkTool. destruct (checkedRegistry cfg toolID) as [reg|]; [|by intros [= <-]].
  destruct (Get toolID reg) as [tool|]; [|done]. intros Hc.
  apply rbind_ok in Hc as (u & Ha & Hc). apply reject_ok, negb_false_iff, String.eqb_eq in Ha.
  apply rbind_ok in Hc as ([] & Hcap & Hc). apply checkCapabilities_ok in Hcap.
  apply rbind_ok in Hc as (u' & Hb & Hc). apply reject_ok in Hb. injection Hc as <-.
  exists tool. split_and!; try done. intros Hm Hv. cbn in Hb.
  apply str_nonempty_true in Hm, Hv. rewrite Hm, Hv in Hb. cbn in Hb. by apply negb_false_iff.
Qed.

Lemma verifyDPoP_ok cfg t t' claims opts claims' :
  verifyDPoP cfg t t' claims opts = Ok claims' ->
  (exists jkt, claims' = with_thumbprint claims jkt) /\
  (DevMode cfg = false -> vc_CNFThumbprint claims <> "" ->
     exists o, opts = Some o /\ DPoP.validateDPoPProof t t' (opt_DPoPProof o) = Ok (vc_CNFThumbprint claims)).
Proof.
  assert (Hid : claims = with_thumbprint claims (vc_CNFThumbprint claims)) by (by destruct claims).
  unfold verifyDPoP. destruct (DevMode cfg); [intros [= <-]; split; [eauto|done]|].
  remember (match opts with Some o => opt_DPoPProof o | None => "" end) as proof eqn:Hproof.
  destruct (String.eqb_spec (vc_CNFThumbprint claims) "") as [He|He]; cbn.
  - destruct (proof =? "")%string; cbn; [intros [= <-]; split; [eauto|done]|].
    destruct (DPoP.validateDPoPProof t t' proof) as [tp|]; [|done]. cbn. intros [= <-].
    split; [eauto|done].
  - destruct (String.eqb_spec proof "") as [Hp|Hp]; cbn; [done|].
    destruct (DPoP.validateDPoPProof t t' proof) as [tp|] eqn:Hv; [|done].
    destruct (String.eqb_spec tp (vc_CNFThumbprint claims)) as [->|]; cbn; [|done].
    intros [= <-]. split; [eauto|]. intros _ _. destruct opts as [o|]; [|done]. subst proof. eauto.
Qed.

(** C13: a tool call that passes is authenticated and authorised. Outside dev mode, when
    [VerifyToolCall] returns claims, their subject, issuer, audience, expiry, capabilities, blast radius,
    delegation and execution scope are those of a token whose signature verified under the
    key of its issuer; with a registry and a tool named, the tool is registered and every condition it sets
    holds (audience, capabilities, blast radius, execution binding, and the payload hash when there is a
    body), whether or not options are given; the subject is not reported
    as revoked, the policy allowed the call, and a token bound to a DPoP key came with a proof
    made with that key. *)
Theorem tool_call_authorised cfg now tokenStr toolID opts claims :
  DevMode cfg = false -> VerifyToolCall cfg now tokenStr toolID opts = Ok claims ->
  exists insecure issuer key verified,
    jwt_ParseInsecure tokenStr = Some insecure /\ jwt_Issuer insecure = Some issuer /\
    JWKSResolver cfg issuer "" = Ok key /\
    jwt_ParseWithKey (inferAlgorithm key) key (now 0%nat) tokenStr = Some verified /\
    claims_of verified claims /\
    (forall reg, toolID <> "" -> cfg_Registry cfg = Some reg ->
       exists tool, Get toolID reg = Some tool /\
         tool_satisfied tool claims (resolveOpts opts ≫= RequestBody)) /\
    (forall isRevoked entry, RevocationChecker cfg = Some isRevoked ->
       isRevoked (now 3%nat) (vc_Subject claims) <> Ok (Some entry)) /\
    (forall evaluate, Policy cfg = Some evaluate ->
       exists d, evaluate (policyInput (now 4%nat) toolID claims) = Ok d /\ Allowed d = true) /\
    (extractThumbprint verified <> "" ->
       exists o, resolveOpts opts = Some o /\
         DPoP.validateDPoPProof (now 1%nat) (now 2%nat) (opt_DPoPProof o) = Ok (extractThumbprint verified)).
Proof.
  intros Hdev Hv. unfold VerifyToolCall in Hv.
  apply rbind_ok in Hv as (verified & Hid & Hv). apply rbind_ok in Hv as (c1 & Hd & Hv).
  apply rbind_ok in Hv as (c2 & Ht & Hv). apply rbind_ok in Hv as ([] & Hrev & Hv).
  apply rbind_ok in Hv as ([] & Hpol & Hv). apply rbind_ok in Hv as ([] & Hb & Hv). injection Hv as <-.
  unfold verifyIdentity in Hid. destruct (jwt_ParseInsecure tokenStr) as [insecure|]; [|done].
  destruct (jwt_Issuer insecure) as [issuer|] eqn:Hiss; [|done].
  destruct (issuer =? "")%string; [done|]. rewrite Hdev in Hid.
  destruct (JWKSResolver cfg issuer "") as [key|] eqn:Hkey; [|done].
  destruct (jwt_ParseWithKey _ _ _ _) as [vt|] eqn:Hvt; [|done]. injection Hid as ->.
  apply verifyDPoP_ok in Hd as [(jkt & ->) Hd]. apply checkTool_ok in Ht.
  exists insecure, issuer, key, verified. split_and!; try done.
  - destruct (checkedRegistry cfg toolID); [destruct Ht as (tool & _ & -> & _)|subst c2].
    + apply extracted_claims_of.
    + apply (extracted_claims_of verified "" "" jkt).
  - intros reg Hne Hreg. unfold checkBinding, checkedRegistry in *.
    apply str_nonempty_true in Hne. rewrite Hne, Hreg in Ht, Hb.
    destruct Ht as (tool & Hg & -> & Ha & Hc & Hbr). exists tool. split; [done|]. rewrite Hg in Hb.
    apply verifyExecutionBinding_ok in Hb as [Hx1 Hx2].
    constructor; [|done|intros ? ?; by apply blastRadiusFits_within, Hbr|done..].
    etrans; [exact Ha|]. unfold resourceURI. case_bool_decide; destruct (String.eqb_spec (ResourceURI tool) ""); done.
  - intros isRevoked entry He Hr. unfold checkRevoked in Hrev. rewrite He, Hr in Hrev. done.
  - intros evaluate He. unfold checkPolicy in Hpol. rewrite He in Hpol.
    destruct (evaluate _) as [d|]; [|done]. apply reject_ok, negb_false_iff in Hpol. eauto.
  - intros Hne. by apply Hd.
Qed.
End Verify.

(** * A concrete call *)

#[local] Existing Instance JwtModel.lib.
Definition demo_parse (k : string) (now : Time) (s : string) : option (@jwt_token JwtModel.lib) :=
  match JwtModel.decode_signed s with
  | Some (k', t) => if (k' =? k)%string && (now <? JwtModel.t_exp t)%Z then Some t else None
  | None => None
  end.
#[local] Instance demo_jws : JwsLib := {|
  jws_headers := string;
  jws_Parse p := None;
  hdr_Type _ := None;
  hdr_JWK p := None;
  hdr_Algorithm _ := None;
  raw_key := string;
  jwk_Export k := None;
  jwt_ParseWithKey _ k now s := demo_parse k now s;
  jwk_KeyType _ := "RSA";
  jwk_Members k := Err "";
  sha256_b64_json m := "";
|}.

Definition demo_token : @jwt_token JwtModel.lib :=
  ("wimse://td/agent", "https://unit", ["tool1"], 0%Z, (3600 * Second)%Z,
   [("caps", inr (inr (inl ["read"; "write"]))); ("inp_hash", inl "h"); ("exec_act", inl "run");
    ("blast_radius", inl "namespace:dev"); ("wid", inl "w1")]).
Definition demo_str : string := JwtModel.encode_signed "pub:k1" demo_token.
Definition demo_tool : ToolEntry :=
  {| ToolID := "tool1"; Name := "t"; Description := ""; ResourceURI := "";
     RequiredCapabilities := ["read"]; MaxBlastRadius := "namespace:*"; RequiresExecution := true;
     AllowedOperations := ["run"]; AllowedTargets := []; OwnerCommune := ""; ServerID := "";
     RegisteredAt := 0; UpdatedAt := 0 |}.
Definition demo_resolver (iss kid : string) : result string (@jwk_key JwtModel.lib) :=
  if (iss =? "https://unit")%string then Ok "pub:k1" else Err "unknown issuer".
Definition demo_cfg : Config :=
  {| JWKSResolver := demo_resolver;
     cfg_Registry := Some {[ "tool1" := demo_tool ]};
     RevocationChecker := Some (fun _ _ => Ok None);
     Policy := Some (fun _ => Ok {| Allowed := true; pd_Reason := ""; pd_Claims := ∅ |});
     DevMode := false |}.
Definition demo_opts : list (option VerifyOptions) :=
  [None; Some {| RequestBody := Some "h"; opt_DPoPProof := "" |}].
Definition demo_claims : VerifiedClaims :=
  with_tool (extractClaims demo_token) "tool1" "tool1".

Lemma demo_call : VerifyToolCall (fun _ => RSA) id demo_cfg (fun _ => (10 * Second)%Z) demo_str "tool1" demo_opts
  = Ok demo_claims.
Proof. vm_compute. reflexivity. Qed.

Lemma tool_call_authorised_witness : RequiredCapabilities demo_tool ⊆ vc_Capabilities demo_claims.
Proof.
  destruct (tool_call_authorised (fun _ => RSA) id demo_cfg (fun _ => (10 * Second)%Z) demo_str "tool1"
    demo_opts demo_claims eq_refl demo_call)
    as (_ & _ & _ & _ & _ & _ & _ & _ & _ & Ht & _).
  destruct (Ht {[ "tool1" := demo_tool ]}) as (tool & Hg & [_ Hc _ _ _]); [discriminate|reflexivity|].
  vm_compute in Hg. injection Hg as <-. exact Hc.
Defined.
End Mcp.
