(* ===== verification/McpMiddleware.v ===== *)
(** The HTTP middleware of [pkg/mcp/middleware.go] around tool handlers, with the execution
    context tokens of [pkg/mcp/ect.go]: what a request that fails verification gets, and what a
    completed call leaves in the workflow tracker, the ECT ledger and the audit log. *)
From Stdlib Require Import ZArith QArith Lia Ascii.
From stdpp Require Import base gmap strings list infinite.
From S2P Require Import Prelude.
From S2P Require Import GoLib.
From S2P Require Import JwtModel.
From S2P Require Import Core.
From S2P Require Import Ledger.
From S2P Require Import DPoP.
From S2P Require Import Workflow.
From S2P Require Import Mcp.

#[local] Open Scope Z_scope.
#[local] Open Scope string_scope.

Module McpMiddleware.

(** * HTTP, as the middleware uses [net/http]

    A handler is the list of operations it makes on its [http.ResponseWriter]. Headers are sent
    with the status line at the first [WriteHeader] or [Write]; later changes to the header map
    do not reach the client. *)

Record Request : Type := {
  r_Method : string;
  r_Path : string;
  r_Header : gmap string (list string);
  r_Body : option (result string string);
}.

Definition Header_Get (r : Request) (k : string) : string :=
  match r_Header r !! k with Some (v :: _) => v | _ => "" end.
Definition Header_Values (r : Request) (k : string) : list string :=
  match r_Header r !! k with Some l => l | None => [] end.

Record ResponseWriter : Type := {
  rw_header : gmap string string;
  rw_sent : option (Z * gmap string string);
  rw_body : string;
}.

Definition newResponse : ResponseWriter := {| rw_header := ∅; rw_sent := None; rw_body := "" |}.

Definition Header_Set (k v : string) (w : ResponseWriter) : ResponseWriter :=
  {| rw_header := <[k := v]> (rw_header w); rw_sent := rw_sent w; rw_body := rw_body w |}.
Definition WriteHeader (code : Z) (w : ResponseWriter) : ResponseWriter :=
  match rw_sent w with
  | Some _ => w
  | None => {| rw_header := rw_header w; rw_sent := Some (code, rw_header w); rw_body := rw_body w |}
  end.
Definition Write_ (b : string) (w : ResponseWriter) : ResponseWriter :=
  let w1 := WriteHeader 200 w in
  {| rw_header := rw_header w1; rw_sent := rw_sent w1; rw_body := rw_body w1 +:+ b |}.

(** When the handler returns, what was not sent yet is sent with status 200. *)
Definition finish (w : ResponseWriter) : ResponseWriter := WriteHeader 200 w.

Inductive WOp : Type :=
| OpHeaderSet (k v : string)
| OpWriteHeader (code : Z)
| OpWrite (b : string).

Definition apply_wop (w : ResponseWriter) (o : WOp) : ResponseWriter :=
  match o with
  | OpHeaderSet k v => Header_Set k v w
  | OpWriteHeader code => WriteHeader code w
  | OpWrite b => Write_ b w
  end.
Definition serve (ops : list WOp) (w : ResponseWriter) : ResponseWriter := foldl apply_wop w ops.

(** [responseCapture]: forwards every operation and keeps the written bytes and the status. *)
Record responseCapture : Type := {
  rc_w : ResponseWriter;
  rc_body : string;
  rc_statusCode : Z;
}.
Definition newResponseCapture (w : ResponseWriter) : responseCapture :=
  {| rc_w := w; rc_body := ""; rc_statusCode := 200 |}.
Definition rc_apply (rc : responseCapture) (o : WOp) : responseCapture :=
  {| rc_w := apply_wop (rc_w rc) o;
     rc_body := match o with OpWrite b => rc_body rc +:+ b | _ => rc_body rc end;
     rc_statusCode := match o with OpWriteHeader c => c | _ => rc_statusCode rc end |}.
Definition rc_serve (ops : list WOp) (rc : responseCapture) : responseCapture := foldl rc_apply rc ops.

(** * Execution context tokens *)

Record ECT : Type := {
  ect_Issuer : string;
  ect_Audience : list string;
  ect_JTI : string;
  ect_IssuedAt : Time;
  ect_Expires : Time;
  ect_ExecAct : string;
  ect_InputHash : string;
  ect_OutputHash : string;
  ect_Target : string;
  ect_WorkflowID : string;
  ect_ParentIDs : list string;
  ect_Extensions : gmap string value;
  ect_SignedToken : string;
}.

Record ECTRequest : Type := {
  er_Claims : Mcp.VerifiedClaims;
  er_ToolID : string;
  er_ResponseBody : string;
  er_DurationMS : Z;
  er_ParentIDs : list string;
}.

Definition DefaultECTExpiry : Duration := (5 * Minute)%Z.

(** The claims map [GenerateECT] signs. *)
Definition put_claim (k s : string) (m : gmap string value) : gmap string value :=
  if str_nonempty s then <[k := VStr s]> m else m.
Definition ectClaims (e : ECT) : gmap string value :=
  put_claim "wid" (ect_WorkflowID e) (put_claim "target" (ect_Target e)
  (put_claim "out_hash" (ect_OutputHash e) (put_claim "inp_hash" (ect_InputHash e)
  (<["iss" := VStr (ect_Issuer e)]> (<["aud" := VArr (VStr <$> ect_Audience e)]>
  (<["jti" := VStr (ect_JTI e)]> (<["iat" := VInt (Unix (ect_IssuedAt e))]>
  (<["exp" := VInt (Unix (ect_Expires e))]> (<["exec_act" := VStr (ect_ExecAct e)]>
  (<["par" := VArr (VStr <$> ect_ParentIDs e)]> (<["ext" := VObj (ect_Extensions e)]> ∅))))))))))).

Section Middleware.
Context `{!JwtLib, !JwsLib}.
Variable key_kind : jwk_key -> Mcp.KeyKind.
Variable sha256_b64 : string -> string.
(** Setting the claims of a fresh token and signing it with a [typ] and a [kid] header. *)
Context {Signer : Type}.
Variable sign_claims : gmap string value -> string -> string -> Signer -> result string string.
Variable json_Marshal : Ledger.ECTLedgerEntry -> result string (list Byte.byte).
Variable sha256_hex : list Byte.byte -> string.
(** The JSON of the map with the error code and the error's text. *)
Variable error_json : string -> Mcp.McpErr -> string.

(** [GenerateECT]; [uuid] is the outcome of [uuid.New()]. *)
Definition GenerateECT (now : Time) (uuid : string) (req : ECTRequest) (issuer : string)
    (signingKey : Signer) (kid : string) : result string ECT :=
  let ex := match Mcp.vc_Execution (er_Claims req) with Some ex => ex | None => emptyScope end in
  let ect signed :=
    {| ect_Issuer := issuer;
       ect_Audience := Mcp.vc_Subject (er_Claims req) ::
         (if str_nonempty issuer then [issuer +:+ "/audit-ledger"] else []);
       ect_JTI := uuid; ect_IssuedAt := now; ect_Expires := (now + DefaultECTExpiry)%Z;
       ect_ExecAct := ExecAct ex; ect_InputHash := InputHash ex;
       ect_OutputHash := if str_nonempty (er_ResponseBody req)
                         then sha256_b64 (er_ResponseBody req) else "";
       ect_Target := Target ex; ect_WorkflowID := WorkflowID ex;
       ect_ParentIDs := er_ParentIDs req;
       ect_Extensions := <["starfly.tool_id" := VStr (er_ToolID req)]>
                         (<["starfly.duration_ms" := VInt (er_DurationMS req)]> ∅);
       ect_SignedToken := signed |} in
  match sign_claims (ectClaims (ect "")) "wimse-exec+jwt" kid signingKey with
  | Err e => Err e
  | Ok signed => Ok (ect signed)
  end.

(** * The middleware *)

(** [extractBearerToken] *)
Definition extractBearerToken (r : Request) : result Mcp.McpErr string :=
  let auth := Header_Get r "Authorization" in
  if (auth =? "")%string then Err Mcp.ErrMissingToken else
  match SplitN2 auth " " with
  | [scheme; token] =>
      if EqualFold scheme "Bearer" then Ok token
      else Err (Mcp.ErrInvalidToken "expected Bearer scheme")
  | _ => Err (Mcp.ErrInvalidToken "expected Bearer scheme")
  end.

(** [extractToolID]: the header, or the path segment after ["tools"] *)
Fixpoint segmentAfterTools (parts : list string) : string :=
  match parts with
  | p :: ((q :: _) as parts') => if (p =? "tools")%string then q else segmentAfterTools parts'
  | _ => ""
  end.
Definition extractToolID (r : Request) : string :=
  let id := Header_Get r "X-MCP-Tool-ID" in
  if str_nonempty id then id else segmentAfterTools (Split (r_Path r) "/").

(** [extractParentECTJTIs] *)
Definition parentJTI (h : string) : option string :=
  match jwt_ParseInsecure h with
  | None => None
  | Some token =>
      match jwt_JwtID token with
      | Some jti => if (jti =? "")%string then None else Some jti
      | None => None
      end
  end.
Definition extractParentECTJTIs (r : Request) : list string :=
  omap parentJTI (Header_Values r "Execution-Context").

(** The status and code of a verification error. *)
Definition errorStatus (err : Mcp.McpErr) : Z * string :=
  match err with
  | Mcp.ErrTokenRevoked _ => (403, "token_revoked")
  | Mcp.ErrCapabilityDenied _ | Mcp.ErrBlastRadiusExceeded _ _ | Mcp.ErrPolicyDenied _ =>
      (403, "access_denied")
  | Mcp.ErrAudienceMismatch _ _ => (403, "audience_mismatch")
  | Mcp.ErrDPoPMissing | Mcp.ErrDPoPMismatch _ _ | Mcp.ErrDPoPInvalid _ => (401, "invalid_dpop_proof")
  | Mcp.ErrExecOpMismatch _ | Mcp.ErrExecPayloadMismatch _ _ | Mcp.ErrExecPayloadMissing
  | Mcp.ErrExecTargetMismatch _ | Mcp.ErrExecBindingRequired _ => (403, "execution_binding_failed")
  | Mcp.ErrInvalidToken _ | Mcp.ErrMissingToken | Mcp.ErrToolNotRegistered _
  | Mcp.ErrPolicyEvaluation _ => (401, "invalid_token")
  end.

(** [writeError] *)
Definition writeError (status : Z) (code : string) (err : Mcp.McpErr) (w : ResponseWriter)
    : ResponseWriter :=
  Write_ (error_json code err) (WriteHeader status (Header_Set "Content-Type" "application/json" w)).

(** The collaborators the middleware changes. *)
Record MState : Type := {
  ms_tracker : option Workflow.WorkflowTracker;
  ms_heap : gmap positive Ledger.ECTLedgerEntry;
  ms_ledger : option Ledger.ECTLedger;
  ms_audit : list (AuditEvent Mcp.McpErr);
}.

Record MConfig : Type := {
  mc_verify : Mcp.Config;
  mc_Auditor : bool;
  mc_UnitID : string;
  mc_SigningKey : option Signer;
  mc_SigningKeyID : string;
  mc_Issuer : string;
}.

(** [logAudit] *)
Definition logAudit (cfg : MConfig) (r : Request) (subject toolID decision : string)
    (reason : Reason Mcp.McpErr) (durationMS : Z) (s : MState) : MState :=
  if mc_Auditor cfg then
    {| ms_tracker := ms_tracker s; ms_heap := ms_heap s; ms_ledger := ms_ledger s;
       ms_audit := (ms_audit s ++
         [{| au_Type := "mcp"; au_Action := "tool_call_verified"; au_Subject := subject;
             au_Target := toolID; au_Decision := decision; au_Reason := reason;
             au_Metadata := <["method" := VStr (r_Method r)]> (<["path" := VStr (r_Path r)]>
               (<["duration_ms" := VInt durationMS]> ∅));
             au_UnitID := mc_UnitID cfg |}])%list |}
  else s.

(** The entry and the records of a generated ECT. *)
Definition recordTask (ect : ECT) (wid : string) (s : MState) : MState :=
  match ms_tracker s with
  | None => s
  | Some wt =>
      {| ms_tracker := Some match Workflow.RecordTask wid (ect_JTI ect) (ect_IssuedAt ect)
                                    (ect_ParentIDs ect) wt with
                            | Ok wt' => wt'
                            | Err _ => wt
                            end;
         ms_heap := ms_heap s; ms_ledger := ms_ledger s; ms_audit := ms_audit s |}
  end.

Definition ledgerEntry (ect : ECT) (claims : Mcp.VerifiedClaims) (toolID : string)
    : Ledger.ECTLedgerEntry :=
  {| Ledger.Sequence := 0; Ledger.JTI := ect_JTI ect; Ledger.PrevHash := "";
     Ledger.ECTToken := ect_SignedToken ect; Ledger.Issuer := ect_Issuer ect;
     Ledger.Subject := Mcp.vc_Subject claims; Ledger.ToolID := toolID;
     Ledger.ExecAct := ect_ExecAct ect; Ledger.WorkflowID := ect_WorkflowID ect;
     Ledger.RecordedAt := 0 |}.

Definition appendLedger (now : Time) (ect : ECT) (claims : Mcp.VerifiedClaims) (toolID : string)
    (s : MState) : MState :=
  match ms_ledger s with
  | None => s
  | Some l =>
      let p := fresh (dom (ms_heap s)) in
      let h := <[p := ledgerEntry ect claims toolID]> (ms_heap s) in
      match Ledger.Append json_Marshal sha256_hex now p h l with
      | (h', l', _) =>
          {| ms_tracker := ms_tracker s; ms_heap := h'; ms_ledger := Some l'; ms_audit := ms_audit s |}
      end
  end.

Definition auditECT (cfg : MConfig) (ect : ECT) (claims : Mcp.VerifiedClaims) (toolID : string)
    (durationMS : Z) (s : MState) : MState :=
  if mc_Auditor cfg then
    {| ms_tracker := ms_tracker s; ms_heap := ms_heap s; ms_ledger := ms_ledger s;
       ms_audit := (ms_audit s ++
         [{| au_Type := "ect"; au_Action := "ect_generated"; au_Subject := Mcp.vc_Subject claims;
             au_Target := toolID; au_Decision := "recorded"; au_Reason := RText (ect_JTI ect);
             au_Metadata := <["exec_act" := VStr (ect_ExecAct ect)]>
               (<["inp_hash" := VStr (ect_InputHash ect)]> (<["out_hash" := VStr (ect_OutputHash ect)]>
               (<["target" := VStr (ect_Target ect)]> (<["wid" := VStr (ect_WorkflowID ect)]>
               (<["duration_ms" := VInt durationMS]> ∅)))));
             au_UnitID := mc_UnitID cfg |}])%list |}
  else s.

(** What the environment decides during a request: clock readings, a UUID, a duration. *)
Record Env : Type := {
  env_now : nat -> Time;
  env_uuid : string;
  env_ms : Z;
}.

Definition requestBody (r : Request) : option string :=
  match r_Body r with
  | Some (Ok body) => if str_nonempty body then Some body else None
  | _ => None
  end.

(** [Middleware]: [next] is the protected handler. *)
Definition Middleware (cfg : MConfig) (next : Request -> Mcp.VerifiedClaims -> list WOp) (env : Env)
    (r : Request) (s : MState) : MState * ResponseWriter :=
  let w := newResponse in
  match extractBearerToken r with
  | Err err => (logAudit cfg r "" "" "denied" (RErr err) (env_ms env) s,
                finish (writeError 401 "invalid_token" err w))
  | Ok token =>
      let toolID := extractToolID r in
      let opts := {| Mcp.RequestBody := requestBody r; Mcp.opt_DPoPProof := Header_Get r "DPoP" |} in
      let parentJTIs := extractParentECTJTIs r in
      match Mcp.VerifyToolCall key_kind sha256_b64 (mc_verify cfg) (env_now env) token toolID [Some opts] with
      | Err err =>
          let sc := errorStatus err in
          (logAudit cfg r "" toolID "denied" (RErr err) (env_ms env) s, finish (writeError sc.1 sc.2 err w))
      | Ok claims =>
          let s1 := logAudit cfg r (Mcp.vc_Subject claims) toolID "allowed"
                      (RText "all checks passed") (env_ms env) s in
          match mc_SigningKey cfg, Mcp.vc_Execution claims with
          | Some key, Some ex =>
              let rc := rc_serve (next r claims) (newResponseCapture w) in
              match GenerateECT (env_now env 5%nat) (env_uuid env)
                      {| er_Claims := claims; er_ToolID := toolID; er_ResponseBody := rc_body rc;
                         er_DurationMS := env_ms env; er_ParentIDs := parentJTIs |}
                      (mc_Issuer cfg) key (mc_SigningKeyID cfg) with
              | Err _ => (s1, finish (rc_w rc))
              | Ok ect =>
                  let s2 := recordTask ect (WorkflowID ex) s1 in
                  let s3 := appendLedger (env_now env 6%nat) ect claims toolID s2 in
                  let w' := Header_Set "Execution-Context" (ect_SignedToken ect) (rc_w rc) in
                  (auditECT cfg ect claims toolID (env_ms env) s3, finish w')
              end
          | _, _ => (s1, finish (serve (next r claims) w))
          end
      end
  end.

(** * Theorems *)

(** The answer that is due to each reason of a refusal: 401 where no identity was established (no usable
    token, or no proof of the key it is bound to) or the check itself broke, 403 where the caller is known but
    may not make this call. *)
Inductive denied_with : Mcp.McpErr -> Z -> string -> Prop :=
| dw_token why : denied_with (Mcp.ErrInvalidToken why) 401 "invalid_token"
| dw_missing : denied_with Mcp.ErrMissingToken 401 "invalid_token"
| dw_tool id : denied_with (Mcp.ErrToolNotRegistered id) 401 "invalid_token"
| dw_evaluation e : denied_with (Mcp.ErrPolicyEvaluation e) 401 "invalid_token"
| dw_no_proof : denied_with Mcp.ErrDPoPMissing 401 "invalid_dpop_proof"
| dw_other_key got want : denied_with (Mcp.ErrDPoPMismatch got want) 401 "invalid_dpop_proof"
| dw_bad_proof e : denied_with (Mcp.ErrDPoPInvalid e) 401 "invalid_dpop_proof"
| dw_revoked reason : denied_with (Mcp.ErrTokenRevoked reason) 403 "token_revoked"
| dw_audience got want : denied_with (Mcp.ErrAudienceMismatch got want) 403 "audience_mismatch"
| dw_capability missing : denied_with (Mcp.ErrCapabilityDenied missing) 403 "access_denied"
| dw_radius got max : denied_with (Mcp.ErrBlastRadiusExceeded got max) 403 "access_denied"
| dw_policy reason : denied_with (Mcp.ErrPolicyDenied reason) 403 "access_denied"
| dw_operation act : denied_with (Mcp.ErrExecOpMismatch act) 403 "execution_binding_failed"
| dw_payload got want : denied_with (Mcp.ErrExecPayloadMismatch got want) 403 "execution_binding_failed"
| dw_no_payload : denied_with Mcp.ErrExecPayloadMissing 403 "execution_binding_failed"
| dw_target t : denied_with (Mcp.ErrExecTargetMismatch t) 403 "execution_binding_failed"
| dw_unbound id : denied_with (Mcp.ErrExecBindingRequired id) 403 "execution_binding_failed".

Lemma errorStatus_due err : denied_with err (errorStatus err).1 (errorStatus err).2.
Proof using. destruct err; constructor. Qed.

(** Why a request is refused: its bearer token is missing or malformed, or the verification of the call fails. *)
Definition refusal (cfg : MConfig) (env : Env) (r : Request) : option Mcp.McpErr :=
  match extractBearerToken r with
  | Err err => Some err
  | Ok token =>
      match Mcp.VerifyToolCall key_kind sha256_b64 (mc_verify cfg) (env_now env) token (extractToolID r)
              [Some {| Mcp.RequestBody := requestBody r; Mcp.opt_DPoPProof := Header_Get r "DPoP" |}] with
      | Err err => Some err
      | Ok _ => None
      end
  end.

Lemma bearer_errors r err : extractBearerToken r = Err err -> denied_with err 401 "invalid_token".
Proof using.
  unfold extractBearerToken. destruct (_ =? "")%string; [intros [= <-]; constructor|].
  repeat (case_match; try done); intros [= <-]; constructor.
Qed.

(** C34: an unverified call never reaches the tool. When the bearer token is missing or malformed, or the
    verification of the call fails, the outcome does not depend on the handler at all; the client gets a JSON
    error with the status and code due to the reason (401 where no identity was established, 403 where the caller may not make the call),
    the workflow tracker and the ledger are as before, and exactly one denied event with the reason and without a
    subject is logged when an auditor is configured (none otherwise). *)
Theorem middleware_denies cfg next env r s err :
  refusal cfg env r = Some err ->
  let out := Middleware cfg next env r s in
  (forall next', Middleware cfg next' env r s = out) /\
  (exists status code, denied_with err status code /\
     rw_sent (snd out) = Some (status, {[ "Content-Type" := "application/json" ]}) /\
     rw_body (snd out) = error_json code err) /\
  ms_tracker (fst out) = ms_tracker s /\ ms_heap (fst out) = ms_heap s /\
  ms_ledger (fst out) = ms_ledger s /\
  (if mc_Auditor cfg then exists ev, ms_audit (fst out) = (ms_audit s ++ [ev])%list /\
     au_Decision ev = "denied" /\ au_Reason ev = RErr err /\ au_Subject ev = ""
   else ms_audit (fst out) = ms_audit s).
Proof using All.
  unfold refusal, Middleware, logAudit. intros Hr.
  destruct (extractBearerToken r) as [token|e] eqn:Ht; cbn zeta in *.
  - destruct (Mcp.VerifyToolCall _ _ _ _ _ _ _) as [claims|e] eqn:Hv; [done|]. injection Hr as ->.
    split; [done|]. split; [eexists _, _; split; [apply errorStatus_due|by destruct (mc_Auditor cfg)]|].
    destruct (mc_Auditor cfg); cbn; split_and!; try done. by eexists.
  - injection Hr as ->. split; [done|]. apply bearer_errors in Ht.
    split; [eexists _, _; split; [exact Ht|by destruct (mc_Auditor cfg)]|].
    destruct (mc_Auditor cfg); cbn; split_and!; try done. by eexists.
Qed.

(** Writes by the handler only ever send headers that were set before. *)
Lemma rc_serve_w ops rc : rc_w (rc_serve ops rc) = serve ops (rc_w rc).
Proof. revert rc. induction ops as [|o ops IH]; intros rc; [done|]. cbn. apply IH. Qed.

Lemma appendLedger_ok now ect claims toolID s l :
  (forall e, is_ok (json_Marshal e) = true) ->
  ms_ledger s = Some l -> Ledger.wf json_Marshal sha256_hex (ms_heap s) l ->
  (Z.of_nat (Ledger.Len l) + 1 < two64)%Z -> Ledger.index l !! ect_JTI ect = None ->
  let s' := appendLedger now ect claims toolID s in
  ms_tracker s' = ms_tracker s /\
  exists l' p e, ms_ledger s' = Some l' /\
    Ledger.Verify json_Marshal sha256_hex (ms_heap s') l' = Ok tt /\
    Ledger.Len l' = S (Ledger.Len l) /\
    Ledger.Lookup (ect_JTI ect) l' = Some p /\ ms_heap s' !! p = Some e /\
    Ledger.JTI e = ect_JTI ect /\ Ledger.Subject e = Mcp.vc_Subject claims /\
    Ledger.ToolID e = toolID /\ Ledger.ECTToken e = ect_SignedToken ect.
Proof.
  intros Hmar Hl Hwf Hlen Hidx. cbn. unfold appendLedger. rewrite Hl.
  set (p := fresh (dom (ms_heap s))). set (h := <[p := ledgerEntry ect claims toolID]> (ms_heap s)).
  assert (Hnp : ms_heap s !! p = None) by (apply not_elem_of_dom, is_fresh).
  assert (Hfr : p ∉ Ledger.entries l).
  { intros Hin. destruct (Ledger.wf_in_heap _ _ _ _ _ Hwf Hin). congruence. }
  assert (Hwf' : Ledger.wf json_Marshal sha256_hex h l).
  { eapply Ledger.wf_frame; [|exact Hwf]. intros q Hq. apply lookup_insert_ne. by intros ->. }
  destruct (Ledger.Append json_Marshal sha256_hex now p h l) as [[h' l'] [sq|x]] eqn:HA.
  2:{ exfalso. revert HA. unfold Ledger.Append, Ledger.hashEntry, h. rewrite lookup_insert_eq. cbn.
      rewrite Hidx. specialize (Hmar (Ledger.stamp (ledgerEntry ect claims toolID)
        (u64 (Ledger.seq l + 1)) (Ledger.lastHash l) now)).
      by destruct (json_Marshal _). }
  destruct (Ledger.wf_append _ _ _ _ _ _ _ _ _ Hwf' Hfr Hlen HA) as (Hw2 & _ & _).
  destruct (Ledger.Append_ok _ _ _ _ _ _ _ _ _ HA) as (e0 & hsh & Hp & _ & _ & -> & _ & ->).
  unfold h in Hp. rewrite lookup_insert_eq in Hp. injection Hp as <-. cbn. split; [done|].
  do 3 eexists. split; [reflexivity|]. split; [by eapply Ledger.chain_verify, Ledger.wf_chain|].
  split; [unfold Ledger.Len; cbn; rewrite length_app; cbn; lia|].
  split; [|split; [apply lookup_insert_eq|done]].
  eapply Ledger.Lookup_wf; [exact Hw2|]. eexists. cbn. split; [apply elem_of_app; right; constructor|].
  split; [apply lookup_insert_eq|done].
Qed.

(** Completed calls are accounted for. When a verified call carries an execution scope and the
    unit signs ECTs, then with a well-formed ledger and a fresh token id the ledger afterwards
    still verifies, is one longer, and holds under that id an entry with the caller's subject, the
    tool and the signed ECT; the task was offered to the workflow tracker under the token's
    workflow with the parents of the request. *)
Theorem middleware_accounts cfg next env r s token claims key ex signed l :
  extractBearerToken r = Ok token ->
  Mcp.VerifyToolCall key_kind sha256_b64 (mc_verify cfg) (env_now env) token (extractToolID r)
    [Some {| Mcp.RequestBody := requestBody r; Mcp.opt_DPoPProof := Header_Get r "DPoP" |}] = Ok claims ->
  mc_SigningKey cfg = Some key -> Mcp.vc_Execution claims = Some ex ->
  (forall m typ kid, sign_claims m typ kid key = Ok signed) ->
  (forall e, is_ok (json_Marshal e) = true) ->
  ms_ledger s = Some l -> Ledger.wf json_Marshal sha256_hex (ms_heap s) l ->
  (Z.of_nat (Ledger.Len l) + 1 < two64)%Z -> Ledger.index l !! env_uuid env = None ->
  let out := fst (Middleware cfg next env r s) in
  exists l' p e, ms_ledger out = Some l' /\
    Ledger.Verify json_Marshal sha256_hex (ms_heap out) l' = Ok tt /\
    Ledger.Len l' = S (Ledger.Len l) /\
    Ledger.Lookup (env_uuid env) l' = Some p /\ ms_heap out !! p = Some e /\
    Ledger.JTI e = env_uuid env /\ Ledger.Subject e = Mcp.vc_Subject claims /\
    Ledger.ToolID e = extractToolID r /\ Ledger.ECTToken e = signed /\
    ms_tracker out = (fun wt => match Workflow.RecordTask (WorkflowID ex) (env_uuid env)
                         (env_now env 5%nat) (extractParentECTJTIs r) wt with
                       | Ok wt' => wt' | Err _ => wt end) <$> ms_tracker s.
Proof.
  intros Ht Hv Hk Hex Hsign Hmar Hl Hwf Hseq Hidx. cbn.
  unfold Middleware, GenerateECT. rewrite Ht. cbn. rewrite Hv, Hk, Hex, Hsign. cbn.
  match goal with |- context [auditECT cfg ?e claims ?tid _ (appendLedger ?t _ _ _ (recordTask _ _ ?s1))] =>
    set (ect := e); set (sx := recordTask ect (WorkflowID ex) s1) end.
  assert (Hsx : ms_ledger sx = Some l /\ ms_heap sx = ms_heap s /\
    ms_tracker sx = (fun wt => match Workflow.RecordTask (WorkflowID ex) (env_uuid env)
      (env_now env 5%nat) (extractParentECTJTIs r) wt with Ok wt' => wt' | Err _ => wt end) <$> ms_tracker s).
  { unfold sx, recordTask, logAudit. destruct (mc_Auditor cfg); cbn;
    destruct (ms_tracker s) as [wt|] eqn:Etr; cbn; split_and!; first [done|by rewrite Etr]. }
  destruct Hsx as (Hlx & Hhx & Htx). rewrite <- Hhx in Hwf.
  destruct (appendLedger_ok (env_now env 6%nat) ect claims (extractToolID r) sx l Hmar Hlx Hwf Hseq Hidx)
    as (Htr & l' & p & e & H1' & H2' & H3' & H4' & H5' & H6' & H7' & H8' & H9').
  exists l', p, e. unfold auditECT. destruct (mc_Auditor cfg); cbn; rewrite Htr; done.
Qed.

(** The [Execution-Context] header of a call that wrote a response is lost. The middleware sets
    it after the handler returned; as soon as the handler wrote a status or a body, the headers
    the client received are those the handler had set, and the signed ECT is not among them
    unless the handler put it there itself. *)
Theorem middleware_header_lost cfg next env r s token claims code hdr :
  extractBearerToken r = Ok token ->
  Mcp.VerifyToolCall key_kind sha256_b64 (mc_verify cfg) (env_now env) token (extractToolID r)
    [Some {| Mcp.RequestBody := requestBody r; Mcp.opt_DPoPProof := Header_Get r "DPoP" |}] = Ok claims ->
  rw_sent (serve (next r claims) newResponse) = Some (code, hdr) ->
  rw_sent (snd (Middleware cfg next env r s)) = Some (code, hdr).
Proof.
  intros Ht Hv Hs. unfold Middleware. rewrite Ht. cbn. rewrite Hv.
  destruct (mc_SigningKey cfg) as [key|], (Mcp.vc_Execution claims) as [ex|]; cbn;
    try (by unfold finish, WriteHeader; rewrite Hs).
  destruct (GenerateECT _ _ _ _ _ _); cbn; unfold finish, WriteHeader; cbn; rewrite rc_serve_w; cbn;
    by rewrite !Hs.
Qed.
End Middleware.

(** * A concrete request *)

#[local] Existing Instance JwtModel.lib.
#[local] Existing Instance Mcp.demo_jws.

Definition demo_request (auth body : string) : Request :=
  {| r_Method := "POST"; r_Path := "/v1/mcp/tools/tool1/call";
     r_Header := {[ "Authorization" := [auth] ]}; r_Body := Some (Ok body) |}.
Definition demo_env : Env :=
  {| env_now := fun _ => (10 * Second)%Z; env_uuid := "ect-1"; env_ms := 5 |}.
Definition demo_mcfg : MConfig (Signer:=string) :=
  {| mc_verify := Mcp.demo_cfg; mc_Auditor := true; mc_UnitID := "u1"; mc_SigningKey := Some "sk";
     mc_SigningKeyID := "kid"; mc_Issuer := "https://unit" |}.
Definition demo_sign (m : gmap string value) (typ kid : string) (k : string) : result string string :=
  Ok "signed-ect".
Definition demo_marshal (e : Ledger.ECTLedgerEntry) : result string (list Byte.byte) := Ok [].
Definition demo_state : MState :=
  {| ms_tracker := Some (Workflow.NewWorkflowTracker []); ms_heap := ∅;
     ms_ledger := Some Ledger.NewECTLedger; ms_audit := [] |}.
Definition demo_next (r : Request) (c : Mcp.VerifiedClaims) : list WOp := [OpWrite "result"].
Definition demo_json (code : string) (err : Mcp.McpErr) : string := code.
Abbreviation demo_mw :=
  (Middleware (fun _ => Mcp.RSA) id demo_sign demo_marshal (fun _ => "hash") demo_json) (only parsing).
Definition demo_auth : string := "Bearer " +:+ Mcp.demo_str.

Lemma demo_bearer body : extractBearerToken (demo_request demo_auth body) = Ok Mcp.demo_str.
Proof. vm_compute. reflexivity. Qed.

Lemma middleware_denies_witness :
  rw_body (snd (demo_mw demo_mcfg demo_next demo_env (demo_request demo_auth "other") demo_state))
    = "execution_binding_failed" /\
  rw_body (snd (demo_mw demo_mcfg demo_next demo_env (demo_request "Basic x" "other") demo_state)) = "invalid_token".
Proof.
  split.
  - destruct (middleware_denies (fun _ => Mcp.RSA) id demo_sign demo_marshal (fun _ => "hash") demo_json demo_mcfg
      demo_next demo_env (demo_request demo_auth "other") demo_state
      (Mcp.ErrExecPayloadMismatch "other" "h")) as (_ & (status & code & Hd & _ & Hb) & _);
      [vm_compute; reflexivity|]. inversion Hd; subst. exact Hb.
  - destruct (middleware_denies (fun _ => Mcp.RSA) id demo_sign demo_marshal (fun _ => "hash") demo_json demo_mcfg
      demo_next demo_env (demo_request "Basic x" "other") demo_state
      (Mcp.ErrInvalidToken "expected Bearer scheme")) as (_ & (status & code & Hd & _ & Hb) & _);
      [vm_compute; reflexivity|]. inversion Hd; subst. exact Hb.
Defined.

Lemma demo_verified :
  Mcp.VerifyToolCall (fun _ => Mcp.RSA) id (mc_verify demo_mcfg) (env_now demo_env) Mcp.demo_str
    (extractToolID (demo_request demo_auth "h"))
    [Some {| Mcp.RequestBody := requestBody (demo_request demo_auth "h");
             Mcp.opt_DPoPProof := Header_Get (demo_request demo_auth "h") "DPoP" |}]
  = Ok Mcp.demo_claims.
Proof. vm_compute. reflexivity. Qed.

Lemma middleware_accounts_witness :
  exists l' p, ms_ledger (fst (demo_mw demo_mcfg demo_next demo_env (demo_request demo_auth "h") demo_state))
    = Some l' /\ Ledger.Lookup "ect-1" l' = Some p.
Proof.
  edestruct (middleware_accounts (fun _ => Mcp.RSA) id demo_sign demo_marshal (fun _ => "hash") demo_json demo_mcfg
    demo_next demo_env (demo_request demo_auth "h") demo_state Mcp.demo_str Mcp.demo_claims)
    as (l' & p & e & Hl & _ & _ & Hp & _);
    [apply demo_bearer|exact demo_verified|reflexivity|vm_compute; reflexivity|reflexivity|reflexivity
    |reflexivity|apply Ledger.wf_new|reflexivity|reflexivity|].
  exists l', p. split; [exact Hl|exact Hp].
Defined.

Lemma middleware_header_lost_witness :
  rw_sent (snd (demo_mw demo_mcfg demo_next demo_env (demo_request demo_auth "h") demo_state))
  = Some (200%Z, ∅).
Proof.
  eapply (middleware_header_lost (fun _ => Mcp.RSA) id demo_sign demo_marshal (fun _ => "hash") demo_json demo_mcfg
    demo_next demo_env (demo_request demo_auth "h") demo_state Mcp.demo_str Mcp.demo_claims);
    [apply demo_bearer|exact demo_verified|reflexivity].
Defined.
End McpMiddleware.
