(* ===== verification/Interop.v ===== *)
(** The exchange engine and the MCP middleware together: what the verifier of a tool call reads
    from a token the engine minted. *)
From Stdlib Require Import ZArith QArith Lia.
From stdpp Require Import base gmap strings list.
From S2P Require Import Prelude.
From S2P Require Import GoLib.
From S2P Require Import JwtModel.
From S2P Require Import Core.
From S2P Require Import Execution.
From S2P Require Import Keyring.
From S2P Require Import Delegation.
From S2P Require Import DPoP.
From S2P Require Import Exchange.
From S2P Require Import ExchangeSpec.
From S2P Require Import Mcp.

#[local] Open Scope Z_scope.
#[local] Open Scope string_scope.

Module Interop.
Import Exchange ExchangeSpec.

(** A requested scope as it comes back from the token: the payload hash under its new name. *)
Definition scope_seen (sc : ExecutionScope) : ExecutionScope :=
  {| Method := Method sc; URI := URI sc; ExecAct := ExecAct sc; InputHash := Execution.scopeHash sc;
     OutputHash := ""; Target := Target sc; WorkflowID := WorkflowID sc; PayloadHash := "";
     Nonce := Nonce sc |}.

Section Interop.
Context `{!JwtLib, !JwsLib, !RangeOrder}.
Context {EncKey : Type}.
Variable clock : nat -> Time.
Variable EncryptSecretBundle : gmap string string -> EncKey -> result string string.

Definition nonempty (s : string) : option string := if str_nonempty s then Some s else None.

Lemma nonempty_default s : match nonempty s with Some v => v | None => "" end = s.
Proof.
  unfold nonempty. destruct (str_nonempty s) eqn:Hs; [done|]. by apply str_nonempty_false in Hs.
Qed.

(** The string claims of a minted token that concern execution. *)
Lemma execution_strings (e : Engine (EncKey:=EncKey)) req w d deleg dpop sc sec tok :
  (forall k, k ∉ registered_claims ->
     jwt_claim tok k = last_claim k (tokenClaims e req w d deleg dpop sc sec)) ->
  let want (f : ExecutionScope -> option string) := sc ≫= f in
  get_string tok "htm" = want (fun s => Some (Method s)) /\
  get_string tok "htu" = want (fun s => Some (URI s)) /\
  get_string tok "inp_hash" = want (fun s => nonempty (Execution.scopeHash s)) /\
  get_string tok "exec_act" = want (fun s => nonempty (ExecAct s)) /\
  get_string tok "target" = want (fun s => nonempty (Target s)) /\
  get_string tok "wid" = want (fun s => nonempty (WorkflowID s)) /\
  get_string tok "nonce" = want (fun s => Some (Nonce s)) /\
  get_string tok "payload_hash" = None /\ get_string tok "out_hash" = None.
Proof.
  intros Hc. cbn.
  assert (Hr : forall k, str_mem k registered_claims = false -> k ∉ registered_claims)
    by (intros k Hk Hin%str_mem_true; congruence).
  unfold get_string. rewrite !Hc by (by apply Hr).
  split_and!; read_minted_claim; unfold executionClaims, nonempty_claim, nonempty;
    (destruct sc as [sc|]; [|reflexivity]); cbn [mbind option_bind];
    destruct (str_nonempty (Execution.scopeHash sc)), (str_nonempty (ExecAct sc)),
      (str_nonempty (Target sc)), (str_nonempty (WorkflowID sc)); reflexivity.
Qed.

Lemma execution_extracted (e : Engine (EncKey:=EncKey)) req w d deleg dpop sc sec tok :
  (forall k, k ∉ registered_claims ->
     jwt_claim tok k = last_claim k (tokenClaims e req w d deleg dpop sc sec)) ->
  Mcp.extractExecution tok = scope_seen <$> sc.
Proof.
  intros (H1' & H2' & H3' & H4' & H5' & H6' & H7' & H8' & H9')%execution_strings.
  unfold Mcp.extractExecution, Mcp.claim_or_empty. cbn [existsb].
  rewrite H1', H2', H3', H4', H5', H6', H7', H8', H9'. destruct sc as [sc|]; [|reflexivity].
  cbn [mbind option_bind existsb orb]. rewrite bool_decide_true by eauto. cbn [orb fmap option_fmap option_map].
  rewrite !nonempty_default. by destruct (Execution.scopeHash sc =? "")%string.
Qed.

(** C14: the engine and the middleware agree on claims. The claims the MCP verifier extracts from
    the token of a successful exchange are the ones requested: subject, audience, the whole
    execution scope (with a legacy payload hash read back as the input hash), and the thumbprint
    of the DPoP key when a proof was sent. *)
Theorem exchange_claims_extracted `{!JwtLaws} (e : Engine (EncKey:=EncKey)) req s s' resp ks credType w :
  Exchange clock EncryptSecretBundle e req s = (s', Ok resp) -> PublicKeySet e = Some ks ->
  authenticate e req = Ok (credType, w) ->
  exists n, during s s' n /\ forall t1, (clock n <= t1)%Z ->
    (t1 + Second <= clock n + tokenTTL e (req_ExecutionScope req))%Z ->
    exists tok, jwt_Parse ks t1 (AccessToken resp) = Some tok /\
      let claims := Mcp.extractClaims tok in
      Mcp.vc_Subject claims = wi_ID w /\ Mcp.vc_Audience claims = Audience req /\
      Mcp.vc_Execution claims = scope_seen <$> req_ExecutionScope req /\
      (DPoPProof req = "" -> Mcp.vc_CNFThumbprint claims = "") /\
      (DPoPProof req <> "" -> exists n0,
         DPoP.validateDPoP (clock n0) (clock (S n0)) (DPoPProof req) = Ok (Mcp.vc_CNFThumbprint claims)).
Proof.
  intros (s1 & m & (d & dpop & now & t & Hi)%mint_ok & [Htick _] & ->)%Exchange_ok Hks Hau.
  pose proof Hi as [(ct & Ha & _) _ _ _ _ (n0 & _ & Hdp) Hsc _ (n & Hn & ->) _ _].
  assert (m_workload m = w) as Hmw by congruence. exists n.
  split; [unfold during in *; lia|]. intros t1 Hn1 Hn2. rewrite <- Hsc in Hn2.
  destruct (issued_parses _ _ _ _ _ _ _ _ _ _ _ _ Hi Hks Hn1 Hn2) as (tok & Hpt & [Hsub Haud] & Hc).
  exists tok. split; [done|]. cbn. unfold Mcp.firstAudience. rewrite Hsub, Haud, Hmw.
  split; [done|]. split; [done|].
  split; [rewrite <- Hsc; by eapply execution_extracted|].
  assert (Hcnf : Mcp.extractThumbprint tok = match dpop with Some jkt => jkt | None => "" end).
  { unfold Mcp.extractThumbprint, get_object. rewrite Hc by (by apply private_not_registered).
    read_minted_claim. destruct dpop as [jkt|]; [|done]. cbn. by rewrite lookup_singleton_eq. }
  rewrite Hcnf. destruct dpop as [jkt|]; cbn in Hdp; [|done]. destruct Hdp. split; [done|eauto].
Qed.

(** The verifier does not see on whose behalf a delegated call is made. The engine writes the
    on-behalf-of chain as an array and the verifier reads a string, so the claims it extracts
    from the token of a successful delegated exchange name no principal. *)
Theorem delegation_principal_lost `{!JwtLaws} (e : Engine (EncKey:=EncKey)) req s s' resp ks :
  Exchange clock EncryptSecretBundle e req s = (s', Ok resp) -> PublicKeySet e = Some ks ->
  ActorToken req <> "" ->
  exists n, during s s' n /\ forall t1, (clock n <= t1)%Z ->
    (t1 + Second <= clock n + tokenTTL e (req_ExecutionScope req))%Z ->
    exists tok principals, jwt_Parse ks t1 (AccessToken resp) = Some tok /\
      get_array tok "obo" = Some principals /\ principals <> [] /\
      forall dg, Mcp.vc_Delegation (Mcp.extractClaims tok) = Some dg -> Mcp.OnBehalfOf dg = "".
Proof.
  intros (s1 & m & (d & dpop & now & t & Hi)%mint_ok & [Htick _] & ->)%Exchange_ok Hks Hact.
  pose proof Hi as [_ _ _ _ (n0 & _ & Hdc) _ Hsc _ (n & Hn & ->) _ _]. exists n.
  destruct (m_delegation m) as [dc|] eqn:Hmd; [|done].
  split; [unfold during in *; lia|]. intros t1 Hn1 Hn2. rewrite <- Hsc in Hn2.
  destruct (issued_parses _ _ _ _ _ _ _ _ _ _ _ _ Hi Hks Hn1 Hn2) as (tok & Hpt & _ & Hc).
  assert (Hobo : jwt_claim tok "obo" = Some (VArr (Delegation.buildOBOChain dc))).
  { rewrite Hc, Hmd by (by apply private_not_registered). read_minted_claim.
    unfold delegationClaims. by destruct (0 <=? Delegation.newDepth dc)%Z. }
  exists tok, (Delegation.buildOBOChain dc). split; [done|]. unfold get_array. rewrite Hobo.
  split; [done|]. split; [unfold Delegation.buildOBOChain; by destruct (Delegation.OBOChain dc)|].
  cbn. unfold Mcp.extractDelegation, get_string. rewrite Hobo. cbn.
  intros dg. by case_match; intros [= <-].
Qed.
End Interop.

#[local] Existing Instance JwtModel.lib.
#[local] Existing Instance JwtModel.laws.
#[local] Existing Instance DPoP.demo_jws.
#[local] Existing Instance key_order.

Lemma exchange_claims_extracted_witness :
  exists n, forall t1, (demo_clock n <= t1)%Z -> (t1 + Second <= demo_clock n + 30 * Second)%Z ->
    exists tok, jwt_Parse demo_ks t1 (AccessToken (out_resp demo_out)) = Some tok /\
      Mcp.vc_Execution (Mcp.extractClaims tok) = Some (scope_seen (demo_scope "n1")).
Proof.
  edestruct (exchange_claims_extracted demo_clock demo_encrypt (demo_engine None) (demo_req "" "n1")
    initState (fst demo_out) (out_resp demo_out) demo_ks "k8s-sa") as (n & _ & Ht);
    [exact demo_ok|reflexivity|reflexivity|].
  exists n. intros t1 Hn1 Hn2. destruct (Ht t1 Hn1 Hn2) as (tok & Hp & _ & _ & Hx & _).
  exists tok. split; [exact Hp|exact Hx].
Defined.

Lemma delegation_principal_lost_witness :
  exists n, forall t1, (demo_clock n <= t1)%Z -> (t1 + Second <= demo_clock n + 30 * Second)%Z ->
    exists tok principals, jwt_Parse demo_ks t1 (AccessToken (out_resp demo_out2)) = Some tok /\
      get_array tok "obo" = Some principals /\ principals <> [].
Proof.
  edestruct (delegation_principal_lost demo_clock demo_encrypt (demo_engine None) (demo_req demo_actor "n2")
    (fst demo_out) (fst demo_out2) (out_resp demo_out2) demo_ks) as (n & _ & Ht);
    [exact demo_ok2|reflexivity|exact demo_actor_nonempty|].
  exists n. intros t1 Hn1 Hn2. destruct (Ht t1 Hn1 Hn2) as (tok & ps & Hp & Ho & Hne & _).
  exists tok, ps. split; [exact Hp|]. split; [exact Ho|exact Hne].
Defined.
End Interop.
