(* ===== verification/Toolcall.v ===== *)
(** The protocol-agnostic tool-call layer of [pkg/toolcall]: protocol names ([types.go]), the
    multi-protocol registry ([registry.go]) and the universal verifier ([verifier.go]), with its
    relation to the MCP verifier it generalises. *)
From Stdlib Require Import ZArith QArith Lia Ascii.
From stdpp Require Import base gmap strings list.
From S2P Require Import Prelude.
From S2P Require Import GoLib.
From S2P Require Import JwtModel.
From S2P Require Import Core.
From S2P Require Import DPoP.
From S2P Require Import Mcp.

#[local] Open Scope Z_scope.
#[local] Open Scope string_scope.

Module Toolcall.

(** * Protocols *)

Definition ProtocolMCP : string := "mcp".
Definition ProtocolHTTP : string := "http".
Definition ProtocolA2A : string := "a2a".

(** [ParseProtocol] and [FormatProtocol] *)
Definition ParseProtocol (p : string) : string * string :=
  match cut_at "/" p with
  | Some (name, version) => (name, version)
  | None => (p, "")
  end.
Definition FormatProtocol (name version : string) : string :=
  if (version =? "")%string then name else name +:+ "/" +:+ version.

(** * The registry *)

Record ToolEntry : Type := {
  ToolID : string;
  Name : string;
  Description : string;
  ResourceURI : string;
  Protocols : list string;
  ProtocolMeta : gmap string (gmap string string);
  RequiredCapabilities : list string;
  MaxBlastRadius : string;
  RequiresExecution : bool;
  AllowedOperations : list string;
  AllowedTargets : list string;
  OwnerCommune : string;
  ServerID : string;
  RegisteredAt : Time;
  UpdatedAt : Time;
}.

(** The entry with the fields the registry fills in. *)
Definition stamp (e : ToolEntry) (protocols : list string) (registered updated : Time) : ToolEntry :=
  {| ToolID := ToolID e; Name := Name e; Description := Description e; ResourceURI := ResourceURI e;
     Protocols := protocols; ProtocolMeta := ProtocolMeta e;
     RequiredCapabilities := RequiredCapabilities e; MaxBlastRadius := MaxBlastRadius e;
     RequiresExecution := RequiresExecution e; AllowedOperations := AllowedOperations e;
     AllowedTargets := AllowedTargets e; OwnerCommune := OwnerCommune e; ServerID := ServerID e;
     RegisteredAt := registered; UpdatedAt := updated |}.

(** [SupportsProtocol] *)
Definition SupportsProtocol (e : ToolEntry) (p : string) : bool :=
  match Protocols e with
  | [] => true
  | ps => existsb (fun ep => (fst (ParseProtocol ep) =? fst (ParseProtocol p))%string) ps
  end.

Abbreviation Registry := (gmap string ToolEntry) (only parsing).

Inductive RegistryErr : Type := ErrToolExists | ErrToolNotFound.

(** [Register]: an entry with no protocols gets ["mcp"]; the stored entry is a copy. *)
Definition Register (now : Time) (entry : ToolEntry) (r : Registry) : result RegistryErr Registry :=
  match r !! ToolID entry with
  | Some _ => Err ErrToolExists
  | None =>
      let protocols := match Protocols entry with [] => [ProtocolMCP] | ps => ps end in
      Ok (<[ToolID entry := stamp entry protocols now now]> r)
  end.

(** [Update], [Deregister] *)
Definition Update (now : Time) (entry : ToolEntry) (r : Registry) : result RegistryErr Registry :=
  match r !! ToolID entry with
  | None => Err ErrToolNotFound
  | Some existing => Ok (<[ToolID entry := stamp entry (Protocols entry) (RegisteredAt existing) now]> r)
  end.
Definition Deregister (toolID : string) (r : Registry) : result RegistryErr Registry :=
  match r !! toolID with
  | None => Err ErrToolNotFound
  | Some _ => Ok (delete toolID r)
  end.

(** [Get], [List], [Count] *)
Definition Get (toolID : string) (r : Registry) : option ToolEntry := r !! toolID.
Definition List_ `{!RangeOrder} (protocol : option string) (r : Registry) : list ToolEntry :=
  List.filter (fun e => match protocol with Some p => SupportsProtocol e p | None => true end) (range r).*2.
Definition Count_ (r : Registry) : nat := size r.

(** * The verifier *)

Record Delegation : Type := {
  OnBehalfOf : string;
  Depth : Z;
}.

(** [ToolCallRequest]: what the verifier uses of it *)
Record ToolCallRequest : Type := {
  tr_Protocol : string;
  tr_ToolID : string;
  tr_Token : string;
  tr_RequestBody : option string;
}.

Record VerifiedIdentity : Type := {
  vi_Subject : string;
  vi_Issuer : string;
  vi_Capabilities : list string;
  vi_BlastRadius : string;
  vi_Delegation : option Delegation;
  vi_Execution : option ExecutionScope;
  vi_Protocol : string;
  vi_ExpiresAt : Time;
  vi_ToolID : string;
  vi_Resource : string;
}.

Inductive ToolErr : Type :=
| ErrMissingToken
| ErrInvalidToken (why : string)
| ErrTokenRevoked (reason : string)
| ErrToolNotRegistered (toolID : string)
| ErrCapabilityDenied (missing : list string)
| ErrBlastRadiusExceeded (token max : string)
| ErrAudienceMismatch (got want : string)
| ErrPolicyDenied (reason : string)
| ErrPolicyEvaluation (err : string)
| ErrProtocolDenied (toolID protocol : string)
| ErrExecOpMismatch (act : string)
| ErrExecPayloadMismatch (computed declared : string)
| ErrExecPayloadMissing
| ErrExecTargetMismatch (target : string)
| ErrExecBindingRequired (toolID : string).

(** [strIn] *)
Definition strIn (s : string) (l : list string) : bool := existsb (fun v => (v =? s)%string) l.

(** [checkCaps] *)
Definition checkCaps (tokenCaps required : list string) : result ToolErr unit :=
  match required with
  | [] => Ok tt
  | _ =>
      match List.filter (fun r => negb (bool_decide (r ∈ (list_to_set tokenCaps : gset string)))) required with
      | [] => Ok tt
      | missing => Err (ErrCapabilityDenied missing)
      end
  end.

(** [blastRadiusFits] of pkg/toolcall *)
Definition blastRadiusFits (tokenBR maxBR : string) : bool :=
  if (maxBR =? "*")%string then true else
  match SplitN2 tokenBR ":", SplitN2 maxBR ":" with
  | [t0; t1], [m0; m1] =>
      if negb (t0 =? m0)%string then false
      else if (m1 =? "*")%string then true
      else (t1 =? m1)%string
  | _, _ => (tokenBR =? maxBR)%string
  end.

(** [extractTrustDomain] of pkg/toolcall *)
Definition extractTrustDomain (uri : string) : string :=
  let domain rest := match cut_at "/" rest with
                     | Some (td, _) => if str_nonempty td then td else rest
                     | None => rest
                     end in
  if HasPrefix uri "wimse://" then domain (TrimPrefix uri "wimse://")
  else if HasPrefix uri "spiffe://" then domain (TrimPrefix uri "spiffe://")
  else "".

Section Verify.
Context `{!JwtLib, !JwsLib}.
Variable key_kind : jwk_key -> Mcp.KeyKind.
Variable sha256_b64 : string -> string.

(** [inferAlg] and [inputHash] *)
Definition inferAlg (key : jwk_key) : string :=
  match key_kind key with
  | Mcp.ECDSA => "ES256"
  | Mcp.Ed25519 => "EdDSA"
  | Mcp.RSA | Mcp.OtherKey => "RS256"
  end.
Definition inputHash (data : string) : string := sha256_b64 data.

Record VerifierConfig : Type := {
  JWKSResolver : string -> string -> result string jwk_key;
  cfg_Registry : option Registry;
  RevocationChecker : option (Time -> string -> result string (option RevocationEntry));
  Policy : option (PolicyInput -> result string PolicyDecision);
  DevMode : bool;
}.

Definition str_claim (t : jwt_token) (name : string) : string :=
  match get_string t name with Some s => s | None => "" end.

(** The claims of the execution scope that are copied by name. *)
Definition execClaims : list string :=
  ["htm"; "htu"; "exec_act"; "inp_hash"; "out_hash"; "target"; "wid"; "nonce"].

(** [extractIdentity]: the identity and the audience; the order in which the map of claims is
    visited does not matter, every claim has its own destination. *)
Definition extractScope (t : jwt_token) : option ExecutionScope :=
  let hasExec := existsb (fun c => bool_decide (is_Some (get_string t c))) execClaims in
  let legacy := if (str_claim t "inp_hash" =? "")%string then get_string t "payload_hash" else None in
  if hasExec || bool_decide (is_Some legacy) then
    Some {| Method := str_claim t "htm"; URI := str_claim t "htu"; ExecAct := str_claim t "exec_act";
            InputHash := match legacy with Some ph => ph | None => str_claim t "inp_hash" end;
            OutputHash := str_claim t "out_hash"; Target := str_claim t "target";
            WorkflowID := str_claim t "wid";
            PayloadHash := match legacy with Some ph => ph | None => "" end;
            Nonce := str_claim t "nonce" |}
  else None.

Definition extractDelegation (t : jwt_token) : option Delegation :=
  let d := (fun obo => {| OnBehalfOf := obo; Depth := 0 |}) <$> get_string t "obo" in
  match get_float t "delegation_depth" with
  | Some dd => Some {| OnBehalfOf := match d with Some d => OnBehalfOf d | None => "" end;
                       Depth := trunc dd |}
  | None => d
  end.

Definition extractIdentity (t : jwt_token) (protocol : string) : VerifiedIdentity * string :=
  ({| vi_Subject := match jwt_Subject t with Some s => s | None => "" end;
      vi_Issuer := match jwt_Issuer t with Some s => s | None => "" end;
      vi_Capabilities := match get_array t "caps" with Some l => strings_of l | None => [] end;
      vi_BlastRadius := match get_string t "blast_radius" with Some br => br | None => "" end;
      vi_Delegation := extractDelegation t;
      vi_Execution := extractScope t;
      vi_Protocol := protocol;
      vi_ExpiresAt := match jwt_Expiration t with Some e => e | None => 0%Z end;
      vi_ToolID := ""; vi_Resource := "" |},
   match jwt_Audience t with Some (a :: _) => a | _ => "" end).

(** [verifyExecBinding] *)
Definition verifyExecBinding (identity : VerifiedIdentity) (tool : ToolEntry) (body : option string)
    : result ToolErr unit :=
  match vi_Execution identity with
  | None => reject (RequiresExecution tool) (ErrExecBindingRequired (ToolID tool))
  | Some ex =>
      let? _ := reject ((0 <? length (AllowedOperations tool))%nat && str_nonempty (ExecAct ex) &&
                        negb (strIn (ExecAct ex) (AllowedOperations tool)))
                  (ErrExecOpMismatch (ExecAct ex)) in
      let? _ := match body with
                | Some b => reject (str_nonempty (InputHash ex) && negb (inputHash b =? InputHash ex)%string)
                              (ErrExecPayloadMismatch (inputHash b) (InputHash ex))
                | None => Ok tt
                end in
      let? _ := reject (RequiresExecution tool && (InputHash ex =? "")%string) ErrExecPayloadMissing in
      reject ((0 <? length (AllowedTargets tool))%nat && str_nonempty (Target ex) &&
              negb (strIn (Target ex) (AllowedTargets tool)))
        (ErrExecTargetMismatch (Target ex))
  end.

(** Phase 1 of [Verify] *)
Definition verifyToken (cfg : VerifierConfig) (now : Time) (token : string) : result ToolErr jwt_token :=
  match jwt_ParseInsecure token with
  | None => Err (ErrInvalidToken "parse")
  | Some insecure =>
      let issuer := match jwt_Issuer insecure with Some i => i | None => "" end in
      if (issuer =? "")%string then Err (ErrInvalidToken "missing issuer claim") else
      if DevMode cfg then Ok insecure else
      match JWKSResolver cfg issuer "" with
      | Err e => Err (ErrInvalidToken e)
      | Ok pubKey =>
          match jwt_ParseWithKey (inferAlg pubKey) pubKey now token with
          | None => Err (ErrInvalidToken "verify")
          | Some verified => Ok verified
          end
      end
  end.

Definition with_tool (i : VerifiedIdentity) (toolID resource : string) : VerifiedIdentity :=
  {| vi_Subject := vi_Subject i; vi_Issuer := vi_Issuer i; vi_Capabilities := vi_Capabilities i;
     vi_BlastRadius := vi_BlastRadius i; vi_Delegation := vi_Delegation i;
     vi_Execution := vi_Execution i; vi_Protocol := vi_Protocol i; vi_ExpiresAt := vi_ExpiresAt i;
     vi_ToolID := toolID; vi_Resource := resource |}.

(** The entry the request is checked against; an unknown tool is an error. *)
Definition lookupTool (cfg : VerifierConfig) (toolID : string) : result ToolErr (option ToolEntry) :=
  match (if str_nonempty toolID then cfg_Registry cfg else None) with
  | None => Ok None
  | Some reg => match Get toolID reg with
                | None => Err (ErrToolNotRegistered toolID)
                | Some tool => Ok (Some tool)
                end
  end.

(** Phase 2 of [Verify] *)
Definition authorise (cfg : VerifierConfig) (req : ToolCallRequest) (identity : VerifiedIdentity)
    (aud : string) (tool : option ToolEntry) : result ToolErr VerifiedIdentity :=
  match tool with
  | None => Ok identity
  | Some tool =>
      let? _ := reject (negb (SupportsProtocol tool (tr_Protocol req)))
                  (ErrProtocolDenied (tr_ToolID req) (tr_Protocol req)) in
      let resourceURI := if (ResourceURI tool =? "")%string then ToolID tool else ResourceURI tool in
      let? _ := reject (negb (aud =? resourceURI)%string) (ErrAudienceMismatch aud resourceURI) in
      let identity' := with_tool identity (tr_ToolID req) resourceURI in
      let? _ := checkCaps (vi_Capabilities identity') (RequiredCapabilities tool) in
      let? _ := reject (str_nonempty (MaxBlastRadius tool) && str_nonempty (vi_BlastRadius identity') &&
                        negb (blastRadiusFits (vi_BlastRadius identity') (MaxBlastRadius tool)))
                  (ErrBlastRadiusExceeded (vi_BlastRadius identity') (MaxBlastRadius tool)) in
      Ok identity'
  end.

(** Phase 4 of [Verify] *)
Definition checkRevocation (cfg : VerifierConfig) (now : Time) (subject : string) : result ToolErr unit :=
  match RevocationChecker cfg with
  | None => Ok tt
  | Some isRevoked =>
      match isRevoked now subject with
      | Ok (Some entry) => Err (ErrTokenRevoked (re_Reason entry))
      | Ok None | Err _ => Ok tt
      end
  end.

Definition policyInput (now : Time) (req : ToolCallRequest) (i : VerifiedIdentity) (aud : string)
    : PolicyInput :=
  {| pi_Action := "tool_call";
     pi_Subject := {| wi_ID := vi_Subject i; wi_TrustDomain := extractTrustDomain (vi_Subject i);
                      wi_Attestation := Some {| ae_Method := "mcp-client"; ae_Timestamp := now;
                                                ae_NodeID := ""; ae_Namespace := "" |};
                      wi_Claims := ∅ |};
     pi_Target := tr_ToolID req;
     pi_Context := <["capabilities" := VArr (VStr <$> vi_Capabilities i)]>
       (<["blast_radius" := VStr (vi_BlastRadius i)]> (<["audience" := VStr aud]>
       (<["issuer" := VStr (vi_Issuer i)]> (<["resource" := VStr (vi_Resource i)]>
       (<["protocol" := VStr (tr_Protocol req)]> ∅))))) |}.

Definition evaluatePolicy (cfg : VerifierConfig) (input : PolicyInput) : result ToolErr unit :=
  match Policy cfg with
  | None => Ok tt
  | Some evaluate =>
      match evaluate input with
      | Err err => Err (ErrPolicyEvaluation err)
      | Ok decision => reject (negb (Allowed decision)) (ErrPolicyDenied (pd_Reason decision))
      end
  end.

(** [Verify]; [now i] is the [i]-th reading of the clock. *)
Definition Verify (cfg : VerifierConfig) (now : nat -> Time) (req : ToolCallRequest)
    : result ToolErr VerifiedIdentity :=
  if (tr_Token req =? "")%string then Err ErrMissingToken else
  let? verified := verifyToken cfg (now 0%nat) (tr_Token req) in
  let ia := extractIdentity verified (tr_Protocol req) in
  let? tool := lookupTool cfg (tr_ToolID req) in
  let? identity := authorise cfg req ia.1 ia.2 tool in
  let? _ := checkRevocation cfg (now 1%nat) (vi_Subject identity) in
  let? _ := evaluatePolicy cfg (policyInput (now 2%nat) req identity ia.2) in
  let? _ := match tool with
            | Some tool => verifyExecBinding identity tool (tr_RequestBody req)
            | None => Ok tt
            end in
  Ok identity.

(** * Agreement with the MCP verifier *)

(** The MCP view of an entry, an identity and an error. *)
Definition mcp_tool (e : ToolEntry) : Mcp.ToolEntry :=
  {| Mcp.ToolID := ToolID e; Mcp.Name := Name e; Mcp.Description := Description e;
     Mcp.ResourceURI := ResourceURI e; Mcp.RequiredCapabilities := RequiredCapabilities e;
     Mcp.MaxBlastRadius := MaxBlastRadius e; Mcp.RequiresExecution := RequiresExecution e;
     Mcp.AllowedOperations := AllowedOperations e; Mcp.AllowedTargets := AllowedTargets e;
     Mcp.OwnerCommune := OwnerCommune e; Mcp.ServerID := ServerID e;
     Mcp.RegisteredAt := RegisteredAt e; Mcp.UpdatedAt := UpdatedAt e |}.

Definition identity_of (protocol : string) (c : Mcp.VerifiedClaims) : VerifiedIdentity :=
  {| vi_Subject := Mcp.vc_Subject c; vi_Issuer := Mcp.vc_Issuer c;
     vi_Capabilities := Mcp.vc_Capabilities c; vi_BlastRadius := Mcp.vc_BlastRadius c;
     vi_Delegation := (fun d => {| OnBehalfOf := Mcp.OnBehalfOf d; Depth := Mcp.Depth d |})
                      <$> Mcp.vc_Delegation c;
     vi_Execution := Mcp.vc_Execution c; vi_Protocol := protocol; vi_ExpiresAt := Mcp.vc_ExpiresAt c;
     vi_ToolID := Mcp.vc_ToolID c; vi_Resource := Mcp.vc_Resource c |}.

Definition error_of (e : Mcp.McpErr) : option ToolErr :=
  match e with
  | Mcp.ErrInvalidToken w => Some (ErrInvalidToken w)
  | Mcp.ErrMissingToken => Some ErrMissingToken
  | Mcp.ErrTokenRevoked r => Some (ErrTokenRevoked r)
  | Mcp.ErrToolNotRegistered t => Some (ErrToolNotRegistered t)
  | Mcp.ErrCapabilityDenied m => Some (ErrCapabilityDenied m)
  | Mcp.ErrBlastRadiusExceeded a b => Some (ErrBlastRadiusExceeded a b)
  | Mcp.ErrAudienceMismatch a b => Some (ErrAudienceMismatch a b)
  | Mcp.ErrPolicyDenied r => Some (ErrPolicyDenied r)
  | Mcp.ErrPolicyEvaluation r => Some (ErrPolicyEvaluation r)
  | Mcp.ErrExecOpMismatch a => Some (ErrExecOpMismatch a)
  | Mcp.ErrExecPayloadMismatch a b => Some (ErrExecPayloadMismatch a b)
  | Mcp.ErrExecPayloadMissing => Some ErrExecPayloadMissing
  | Mcp.ErrExecTargetMismatch t => Some (ErrExecTargetMismatch t)
  | Mcp.ErrExecBindingRequired t => Some (ErrExecBindingRequired t)
  | Mcp.ErrDPoPMissing | Mcp.ErrDPoPMismatch _ _ | Mcp.ErrDPoPInvalid _ => None
  end.

(** Two results are the same up to the views above. *)
Inductive same {A B} (f : A -> B) : result Mcp.McpErr A -> result ToolErr B -> Prop :=
| same_ok a : same f (Ok a) (Ok (f a))
| same_err e e' : error_of e = Some e' -> same f (Err e) (Err e').

Lemma same_bind {A B A' B'} (f : A -> B) (g : A' -> B') m m' k k' :
  same f m m' -> (forall a, m = Ok a -> same g (k a) (k' (f a))) -> same g (rbind m k) (rbind m' k').
Proof. intros [a|e e' He] Hk; cbn; [by apply Hk|by constructor]. Qed.

Lemma same_reject c e e' : error_of e = Some e' -> same id (reject c e) (reject c e').
Proof. intros He. destruct c; cbn; [by constructor|]. apply (same_ok id tt). Qed.

(** The MCP configuration with the same resolver, revocation index, mode and tools. *)
Definition mcp_config (cfg : VerifierConfig) : Mcp.Config :=
  {| Mcp.JWKSResolver := JWKSResolver cfg;
     Mcp.cfg_Registry := match cfg_Registry cfg with
                         | Some reg => Some (mcp_tool <$> reg)
                         | None => None
                         end;
     Mcp.RevocationChecker := RevocationChecker cfg; Mcp.Policy := None; Mcp.DevMode := DevMode cfg |}.

Lemma token_agrees cfg now token :
  same id (Mcp.verifyIdentity key_kind (mcp_config cfg) now token) (verifyToken cfg now token).
Proof.
  unfold Mcp.verifyIdentity, verifyToken. cbn.
  destruct (jwt_ParseInsecure token) as [t|]; [|by constructor].
  destruct (_ =? _)%string; [by constructor|]. destruct (DevMode cfg); [apply (same_ok id)|].
  destruct (JWKSResolver cfg _ _); [|by constructor].
  unfold Mcp.inferAlgorithm, inferAlg.
  destruct (jwt_ParseWithKey _ _ _ _); [apply (same_ok id)|by constructor].
Qed.

Lemma scope_agrees t : extractScope t = Mcp.extractExecution t.
Proof.
  unfold extractScope, Mcp.extractExecution, execClaims, str_claim, Mcp.claim_or_empty.
  cbn [existsb].
  destruct (get_string t "htm"), (get_string t "htu"), (get_string t "exec_act"),
    (get_string t "inp_hash"); cbn [bool_decide_true orb];
    repeat (rewrite (bool_decide_true (is_Some (Some _))) by eauto);
    repeat (rewrite (bool_decide_false (is_Some None)) by (by intros []));
    cbn [orb]; try reflexivity.
  cbn. rewrite orb_false_r, (orb_comm (bool_decide (is_Some (get_string t "payload_hash")))). done.
Qed.

Lemma identity_agrees t protocol :
  extractIdentity t protocol = (identity_of protocol (Mcp.extractClaims t), Mcp.vc_Audience (Mcp.extractClaims t)).
Proof.
  unfold extractIdentity, identity_of, Mcp.extractClaims, Mcp.firstAudience. cbn.
  rewrite scope_agrees. f_equal. f_equal. unfold extractDelegation, Mcp.extractDelegation.
  by destruct (get_string t "obo"), (get_float t "delegation_depth").
Qed.

Lemma caps_agree have required :
  same id (Mcp.checkCapabilities have required) (checkCaps have required).
Proof.
  unfold Mcp.checkCapabilities, checkCaps, Mcp.missingCaps. destruct required as [|r rs]; [apply (same_ok id tt)|].
  destruct (List.filter _ _); [apply (same_ok id tt)|by constructor].
Qed.

Lemma binding_agrees protocol claims tool body :
  same id (Mcp.verifyExecutionBinding sha256_b64 claims (mcp_tool tool)
             (Some {| Mcp.RequestBody := body; Mcp.opt_DPoPProof := "" |}))
    (verifyExecBinding (identity_of protocol claims) tool body).
Proof.
  unfold Mcp.verifyExecutionBinding, verifyExecBinding. cbn.
  destruct (Mcp.vc_Execution claims) as [ex|]; [|by apply same_reject].
  apply (same_bind id); [by apply same_reject|intros _ _].
  apply (same_bind id); [|intros _ _].
  { unfold Mcp.checkPayload. cbn. destruct body; [by apply same_reject|apply (same_ok id tt)]. }
  apply (same_bind id); [by apply same_reject|intros _ _]. by apply same_reject.
Qed.

Lemma revocation_agrees cfg now claims protocol :
  same id (Mcp.checkRevoked (mcp_config cfg) now claims)
    (checkRevocation cfg now (vi_Subject (identity_of protocol claims))).
Proof.
  unfold Mcp.checkRevoked, checkRevocation. cbn. destruct (RevocationChecker cfg) as [f|]; [|apply (same_ok id tt)].
  destruct (f _ _) as [[en|]|]; [by constructor|apply (same_ok id tt)|apply (same_ok id tt)].
Qed.

(** The common end of both pipelines: revocation, no policy, execution binding. *)
Lemma tail_agrees cfg t req claims toolID (mb : result Mcp.McpErr unit) (tb : result ToolErr unit) :
  Policy cfg = None -> same id mb tb ->
  same (identity_of (tr_Protocol req))
    (let? _ := Mcp.checkRevoked (mcp_config cfg) t claims in
     let? _ := Mcp.checkPolicy (mcp_config cfg) (Mcp.policyInput t toolID claims) in
     let? _ := mb in Ok claims)
    (let? _ := checkRevocation cfg t (vi_Subject (identity_of (tr_Protocol req) claims)) in
     let? _ := evaluatePolicy cfg (policyInput t req (identity_of (tr_Protocol req) claims)
                                     (Mcp.vc_Audience claims)) in
     let? _ := tb in Ok (identity_of (tr_Protocol req) claims)).
Proof.
  intros Hp Hb. apply (same_bind id); [apply revocation_agrees|intros _ _].
  unfold evaluatePolicy. rewrite Hp. cbn. apply (same_bind id); [done|]. intros _ _. constructor.
Qed.

(** C31: the universal verifier generalises the MCP one. Without a policy engine in either configuration, for a
    non-empty token that, if it verifies, is not bound to a DPoP key, and for a protocol the tool (if it is
    registered) supports, [Verify] and [VerifyToolCall] called without a DPoP proof on the same
    tools at the same time return the same identity or the same error, in every case. *)
Theorem verifier_agrees_with_mcp cfg t req :
  Policy cfg = None -> tr_Token req <> "" ->
  (forall tool, lookupTool cfg (tr_ToolID req) = Ok (Some tool) ->
     SupportsProtocol tool (tr_Protocol req) = true) ->
  (forall tok, verifyToken cfg t (tr_Token req) = Ok tok -> Mcp.extractThumbprint tok = "") ->
  same (identity_of (tr_Protocol req))
    (Mcp.VerifyToolCall key_kind sha256_b64 (mcp_config cfg) (fun _ => t) (tr_Token req) (tr_ToolID req)
       [Some {| Mcp.RequestBody := tr_RequestBody req; Mcp.opt_DPoPProof := "" |}])
    (Verify cfg (fun _ => t) req).
Proof.
  intros Hpol Htok Hproto Hcnf. unfold Verify, Mcp.VerifyToolCall.
  destruct (String.eqb_spec (tr_Token req) ""); [done|].
  apply (same_bind id).
  { apply token_agrees. }
  intros tok Htk. assert (Ht : verifyToken cfg t (tr_Token req) = Ok tok).
  { pose proof (token_agrees cfg t (tr_Token req)) as Hs. rewrite Htk in Hs. by inversion Hs. }
  rewrite identity_agrees. cbn [fst snd]. set (claims := Mcp.extractClaims tok).
  assert (Hd : Mcp.verifyDPoP (mcp_config cfg) t t claims
    (Mcp.resolveOpts [Some {| Mcp.RequestBody := tr_RequestBody req; Mcp.opt_DPoPProof := "" |}]) = Ok claims).
  { unfold Mcp.verifyDPoP. destruct (Mcp.DevMode _); [done|]. cbn. by rewrite (Hcnf tok Ht). }
  rewrite Hd. cbn [rbind]. unfold lookupTool, Mcp.checkTool, Mcp.checkBinding, Mcp.checkedRegistry in *.
  cbn [Mcp.cfg_Registry mcp_config].
  destruct (str_nonempty (tr_ToolID req)), (cfg_Registry cfg) as [reg|]; cbn [rbind];
    try (by apply (tail_agrees cfg t req claims _ (Ok tt) (Ok tt)); [|apply (same_ok id tt)]).
  unfold Get, Mcp.Get in *. rewrite lookup_fmap.
  destruct (reg !! tr_ToolID req) as [tool|] eqn:Hg; cbn [fmap option_fmap option_map rbind];
    [|by constructor].
  unfold authorise. rewrite (Hproto tool) by done. cbn [reject negb rbind].
  change (if (ResourceURI tool =? "")%string then ToolID tool else ResourceURI tool)
    with (Mcp.resourceURI (mcp_tool tool)).
  rewrite ?rbind_assoc. apply (same_bind id); [by apply same_reject|intros _ _].
  rewrite ?rbind_assoc. apply (same_bind id); [apply caps_agree|intros _ _].
  rewrite ?rbind_assoc. apply (same_bind id); [by apply same_reject|intros _ _]. cbn [rbind].
  apply (tail_agrees cfg t req (Mcp.with_tool claims (tr_ToolID req) (Mcp.resourceURI (mcp_tool tool))));
    [done|]. apply binding_agrees.
Qed.
End Verify.

(** * Protocol names and tool registration *)

(** Protocol identifiers round trip: parsing a formatted name and version gives them back,
    whatever the version contains, as long as the name has no slash. *)
Theorem protocol_roundtrip name version :
  cut_at "/" name = None -> ParseProtocol (FormatProtocol name version) = (name, version).
Proof.
  intros Hn. unfold ParseProtocol, FormatProtocol.
  destruct (String.eqb_spec version "") as [->|]; [by rewrite Hn|]. 
  change ("/" +:+ version) with (String "/" version). by rewrite (cut_at_app name version Hn).
Qed.

Lemma protocol_roundtrip_witness : ParseProtocol (FormatProtocol "a2a" "2026/draft") = ("a2a", "2026/draft").
Proof. apply (protocol_roundtrip "a2a" "2026/draft"). reflexivity. Defined.

(** The gate of a registered tool ignores versions and never opens to every protocol. *)
Lemma Register_gate now entry r r' p tool :
  Register now entry r = Ok r' -> Get (ToolID entry) r' = Some tool ->
  SupportsProtocol tool p = true <->
  exists q, q ∈ (match Protocols entry with [] => [ProtocolMCP] | ps => ps end) /\
    fst (ParseProtocol q) = fst (ParseProtocol p).
Proof.
  unfold Register, Get. destruct (r !! ToolID entry); [done|]. intros [= <-].
  rewrite lookup_insert_eq. intros [= <-]. unfold SupportsProtocol. cbn.
  assert (Hx : forall ps, existsb (fun ep => (fst (ParseProtocol ep) =? fst (ParseProtocol p))%string) ps = true
    <-> exists q, q ∈ ps /\ fst (ParseProtocol q) = fst (ParseProtocol p)).
  { intros ps. rewrite existsb_exists. setoid_rewrite <- list_elem_of_In. by setoid_rewrite String.eqb_eq. }
  destruct (Protocols entry) as [|x ps]; [apply (Hx [ProtocolMCP])|apply (Hx (x :: ps))].
Qed.

(** An update can open a tool to every protocol. Registering an entry without protocols
    restricts it to MCP, but updating it with an entry without protocols leaves the list empty,
    which the gate reads as "every protocol". *)
Theorem update_opens_every_protocol now now' entry r r1 r2 tool p :
  Protocols entry = [] -> Register now entry r = Ok r1 -> Update now' entry r1 = Ok r2 ->
  Get (ToolID entry) r2 = Some tool ->
  SupportsProtocol tool p = true /\
  (fst (ParseProtocol p) <> ProtocolMCP -> forall tool1, Get (ToolID entry) r1 = Some tool1 ->
     SupportsProtocol tool1 p = false).
Proof.
  intros Hp Hr Hu Hg. unfold Update in Hu. destruct (r1 !! ToolID entry) as [ex|] eqn:He; [|done].
  injection Hu as <-. unfold Get in Hg. rewrite lookup_insert_eq in Hg. injection Hg as <-.
  unfold SupportsProtocol at 1. cbn. rewrite Hp. split; [done|]. intros Hne tool1 Ht1.
  apply not_true_is_false. rewrite (Register_gate _ _ _ _ p _ Hr Ht1), Hp.
  intros (q & Hq & Hqe). apply list_elem_of_singleton in Hq as ->. by apply Hne.
Qed.

(** * A concrete call *)

#[local] Existing Instance JwtModel.lib.
#[local] Existing Instance Mcp.demo_jws.

Definition demo_entry : ToolEntry :=
  {| ToolID := "tool1"; Name := "t"; Description := ""; ResourceURI := ""; Protocols := [];
     ProtocolMeta := ∅; RequiredCapabilities := ["read"]; MaxBlastRadius := "namespace:*";
     RequiresExecution := true; AllowedOperations := ["run"]; AllowedTargets := [];
     OwnerCommune := ""; ServerID := ""; RegisteredAt := 0; UpdatedAt := 0 |}.
Definition demo_reg : Registry := {[ "tool1" := stamp demo_entry [ProtocolMCP] 0 0 ]}.
Definition demo_vcfg : VerifierConfig :=
  {| JWKSResolver := Mcp.demo_resolver; cfg_Registry := Some demo_reg; RevocationChecker := None;
     Policy := None; DevMode := false |}.
Definition demo_treq (tok : string) : ToolCallRequest :=
  {| tr_Protocol := "mcp/v2"; tr_ToolID := "tool1"; tr_Token := tok; tr_RequestBody := Some "h" |}.

Lemma update_opens_every_protocol_witness : SupportsProtocol (stamp demo_entry [] 0 1) "a2a" = true.
Proof.
  eapply (update_opens_every_protocol 0 1 demo_entry ∅ demo_reg
    (<["tool1" := stamp demo_entry [] 0 1]> demo_reg)); reflexivity.
Defined.

Lemma demo_thumbprint tok :
  verifyToken (fun _ => Mcp.RSA) demo_vcfg (10 * Second) Mcp.demo_str = Ok tok ->
  Mcp.extractThumbprint tok = "".
Proof. intros Ht. vm_compute in Ht. injection Ht as <-. reflexivity. Qed.

Lemma verifier_agrees_with_mcp_witness :
  same (identity_of "mcp/v2")
    (Mcp.VerifyToolCall (fun _ => Mcp.RSA) id (mcp_config demo_vcfg) (fun _ => (10 * Second)%Z) Mcp.demo_str
       "tool1" [Some {| Mcp.RequestBody := Some "h"; Mcp.opt_DPoPProof := "" |}])
    (Verify (fun _ => Mcp.RSA) id demo_vcfg (fun _ => (10 * Second)%Z) (demo_treq Mcp.demo_str)).
Proof.
  apply (verifier_agrees_with_mcp (fun _ => Mcp.RSA) id demo_vcfg (10 * Second) (demo_treq Mcp.demo_str)).
  - reflexivity.
  - apply String.eqb_neq. vm_compute. reflexivity.
  - intros tool Ht. vm_compute in Ht. injection Ht as <-. reflexivity.
  - exact demo_thumbprint.
Defined.

(** A token bound to a DPoP key, presented without a proof. *)
Definition bound_token : @jwt_token JwtModel.lib :=
  (Mcp.demo_token.1, ("cnf", inr (inr (inr [("jkt", inl "thumb")]))) :: Mcp.demo_token.2).
Definition bound_str : string := JwtModel.encode_signed "pub:k1" bound_token.

(** The verifiers differ on sender-constrained tokens. A token bound to a DPoP key and presented
    without a proof is refused by the MCP verifier and accepted by the universal one, under the
    same configuration. *)
Theorem universal_verifier_ignores_dpop :
  Mcp.VerifyToolCall (fun _ => Mcp.RSA) id (mcp_config demo_vcfg) (fun _ => (10 * Second)%Z) bound_str
    "tool1" [Some {| Mcp.RequestBody := Some "h"; Mcp.opt_DPoPProof := "" |}] = Err Mcp.ErrDPoPMissing /\
  is_ok (Verify (fun _ => Mcp.RSA) id demo_vcfg (fun _ => (10 * Second)%Z) (demo_treq bound_str)) = true.
Proof. split; vm_compute; reflexivity. Qed.
End Toolcall.
