(* ===== verification/Adapters.v ===== *)
(** The protocol adapters of the universal tool-call layer ([pkg/toolcall/types.go],
    [pkg/toolcall/adapters/mcp], [a2a] and [httpgeneric]): how each one recognises a request, what
    it extracts for the verifier, what it leaves of the request for the handler, and how it
    reports an error. [LawfulAdapter] is the contract of the interface, which the middleware and
    the conformance suite rely on; each adapter is shown to keep it. *)
From Stdlib Require Import ZArith QArith Lia Ascii.
From stdpp Require Import base gmap strings list.
From S2P Require Import Prelude.
From S2P Require Import GoLib.
From S2P Require Import Core.
From S2P Require Import Toolcall.

#[local] Open Scope string_scope.
#[local] Open Scope list_scope.
#[local] Open Scope Z_scope.

Module Adapters.
Import Toolcall.

(** * Requests *)

(** A request body: absent, readable to its end, or with a failure after some bytes. *)
Inductive Body : Type := NoBody | Full (s : string) | Broken (s : string).

Record Request : Type := {
  rq_Method : string;
  rq_Path : string;
  (** [Header.Get] *)
  rq_Header : string -> string;
  rq_Body : Body;
}.

Definition setBody (r : Request) (b : Body) : Request :=
  {| rq_Method := rq_Method r; rq_Path := rq_Path r; rq_Header := rq_Header r; rq_Body := b |}.

Lemma setBody_same r : setBody r (rq_Body r) = r.
Proof. by destruct r. Qed.

Record TransportMeta : Type := {
  OriginalHeaders : option (string -> string);
  A2AAgentCard : option (gmap string value);
  MCPTransport : string;
  Custom : gmap string value;
}.

(** [ToolCallRequest]: [tc_call] is the part the verifier reads. *)
Record ToolCall : Type := {
  tc_call : ToolCallRequest;
  tc_Operation : string;
  tc_Params : gmap string value;
  tc_Meta : option TransportMeta;
}.

(** [MatchConfidence] *)
Definition MatchNone : Z := 0.
Definition MatchPossible : Z := 50.
Definition MatchLikely : Z := 75.
Definition MatchDefinitive : Z := 100.

Record MatchResult : Type := {
  Confidence : Z;
  mr_Request : option ToolCall;
}.
Definition noMatch : MatchResult := {| Confidence := MatchNone; mr_Request := None |}.

(** What an error response writes: status, [Content-Type] and the JSON body. *)
Record Written : Type := {
  w_Status : Z;
  w_ContentType : string;
  w_Body : option value;
}.

(** [Adapter]: an extraction returns the request as it leaves it, and an error or a result, which
    may be [nil]. *)
Record Adapter : Type := {
  Protocol : string;
  ExtractFromHTTP : Request -> Request * result string (option MatchResult);
  ExtractFromMessage : string -> result string (option MatchResult);
  FormatError : string -> string -> Z -> Written;
}.

(** * Shared pieces *)

(** [extractBearer] *)
Definition extractBearer (r : Request) : string :=
  let auth := rq_Header r "Authorization" in
  if (auth =? "")%string then "" else
  match SplitN2 auth " " with
  | [scheme; token] => if EqualFold scheme "Bearer" then token else ""
  | _ => ""
  end.

(** [mcpErrorCode] and [a2aErrorCode] *)
Definition rpcErrorCode (httpStatus : Z) : Z :=
  if httpStatus =? 401 then -32001
  else if httpStatus =? 403 then -32002
  else if httpStatus =? 404 then -32601
  else -32603.

(** The JSON-RPC error object of both JSON-RPC adapters. *)
Definition rpcError (code : Z) (message : string) (data : gmap string value) : value :=
  VObj (<["jsonrpc" := VStr "2.0"]> (<["error" := VObj (<["code" := VInt code]>
    (<["message" := VStr message]> (<["data" := VObj data]> ∅)))]> (<["id" := VNull]> ∅))).

Definition ok (r : Request) (m : MatchResult) : Request * result string (option MatchResult) := (r, Ok (Some m)).

(** [io.ReadAll] and the restored body of the JSON-RPC adapters: the bytes, or a failure that
    leaves the body drained. *)
Definition readJSON (r : Request) : Request * option string :=
  match rq_Body r with
  | NoBody => (r, None)
  | Full b => (setBody r (Full b), Some b)
  | Broken _ => (setBody r (Broken ""), None)
  end.

(** The end of both extractions: the body is read and judged by [g]. *)
Definition withJSON (r : Request) (g : string -> MatchResult) : Request * result string (option MatchResult) :=
  match readJSON r with
  | (r', None) => ok r' noMatch
  | (r', Some body) => ok r' (g body)
  end.

(** * MCP *)

Module MCP.
Record mcpRequest : Type := {
  mq_JSONRPC : string;
  mq_Method : string;
  mq_Name : string;
  mq_Arguments : gmap string value;
}.

(** [extractPathToolID] *)
Fixpoint toolSegment (parts : list string) : string :=
  match parts with
  | [] => ""
  | p :: rest =>
      match rest with
      | id :: after =>
          if (p =? "tools")%string then
            match after with
            | [] => id
            | next :: _ => if (next =? "call")%string then id else toolSegment rest
            end
          else toolSegment rest
      | [] => ""
      end
  end.
Definition extractPathToolID (path : string) : string := toolSegment (Split path "/").

Section Adapter.
Variable json_Unmarshal : string -> option mcpRequest.

Definition isToolCall (rpc : mcpRequest) : bool :=
  (mq_JSONRPC rpc =? "2.0")%string && (mq_Method rpc =? "tools/call")%string.

(** The request of a JSON-RPC call. *)
Definition rpcCall (rpc : mcpRequest) (token body : string) (meta : TransportMeta) : ToolCall :=
  {| tc_call := {| tr_Protocol := ProtocolMCP; tr_ToolID := mq_Name rpc; tr_Token := token;
                   tr_RequestBody := Some body |};
     tc_Operation := "call"; tc_Params := mq_Arguments rpc; tc_Meta := Some meta |}.

Definition httpMeta (r : Request) (transport : string) : TransportMeta :=
  {| OriginalHeaders := Some (rq_Header r); A2AAgentCard := None; MCPTransport := transport; Custom := ∅ |}.

(** The match on the JSON-RPC request of a body *)
Definition bodyMatch (token : string) (meta : TransportMeta) (body : string) : MatchResult :=
  match json_Unmarshal body with
  | None => noMatch
  | Some rpc =>
      if negb (isToolCall rpc) then noMatch
      else {| Confidence := MatchDefinitive; mr_Request := Some (rpcCall rpc token body meta) |}
  end.

(** The call found in the path: a body that breaks off is taken as it is, and the handler is
    given the same bytes. *)
Definition pathCall (r : Request) (toolID token : string) : Request * result string (option MatchResult) :=
  let rb := match rq_Body r with
            | NoBody => (r, None)
            | Full b | Broken b => (setBody r (Full b), Some b)
            end in
  let id := rq_Header r "X-MCP-Tool-ID" in
  ok rb.1 {| Confidence := MatchLikely;
             mr_Request := Some {| tc_call := {| tr_Protocol := ProtocolMCP;
                                                tr_ToolID := if str_nonempty id then id else toolID;
                                                tr_Token := token; tr_RequestBody := rb.2 |};
                                   tc_Operation := "call"; tc_Params := ∅;
                                   tc_Meta := Some (httpMeta r "http") |} |}.

(** [ExtractFromHTTP] *)
Definition mcpExtractFromHTTP (r : Request) : Request * result string (option MatchResult) :=
  if negb (rq_Method r =? "POST")%string then ok r noMatch else
  let token := extractBearer r in
  let toolID := extractPathToolID (rq_Path r) in
  if str_nonempty toolID then pathCall r toolID token else
  if negb (Contains (rq_Header r "Content-Type") "application/json") then ok r noMatch else
  withJSON r (bodyMatch token (httpMeta r "http")).

(** [ExtractFromMessage] *)
Definition mcpExtractFromMessage (msg : string) : result string (option MatchResult) :=
  Ok (Some (bodyMatch "" {| OriginalHeaders := None; A2AAgentCard := None; MCPTransport := "stdio"; Custom := ∅ |} msg)).

(** [FormatError] *)
Definition mcpFormatError (code description : string) (status : Z) : Written :=
  {| w_Status := status; w_ContentType := "application/json";
     w_Body := Some (rpcError (rpcErrorCode status) description (<["error" := VStr code]> ∅)) |}.

Definition NewMCP : Adapter :=
  {| Protocol := ProtocolMCP; ExtractFromHTTP := mcpExtractFromHTTP; ExtractFromMessage := mcpExtractFromMessage;
     FormatError := mcpFormatError |}.
End Adapter.
End MCP.

(** * A2A *)

Module A2A.
Definition SpecRevision : string := "2025-draft-01".

Record a2aRequest : Type := {
  aq_JSONRPC : string;
  aq_Method : string;
  aq_Params : string;
  aq_ID : value;
}.
Record a2aTaskParams : Type := {
  tp_AgentCard : string;
  tp_TaskType : string;
}.

Section Adapter.
Variable json_Unmarshal : string -> option a2aRequest.
(** The parameters as far as they could be decoded: the error is ignored. *)
Variable json_Params : string -> a2aTaskParams.
Variable json_Object : string -> option (gmap string value).
Variable sha256_hex : string -> string.
Variable specRevision : string.

Definition protocol : string := "a2a/" +:+ specRevision.

(** [parseAgentCard] *)
Definition parseAgentCard (raw : string) : string * option (gmap string value) :=
  if (raw =? "")%string then ("", None) else (sha256_hex raw, json_Object raw).

Definition isTask (rpc : a2aRequest) : bool :=
  (aq_JSONRPC rpc =? "2.0")%string && HasPrefix (aq_Method rpc) "a2a/".

Definition call (token : string) (body : option string) : ToolCallRequest :=
  {| tr_Protocol := protocol; tr_ToolID := ""; tr_Token := token; tr_RequestBody := body |}.

(** The match on the version header, without reading the body *)
Definition headerMatch (r : Request) : MatchResult :=
  {| Confidence := MatchPossible;
     mr_Request := Some {| tc_call := call (extractBearer r) None; tc_Operation := ""; tc_Params := ∅;
       tc_Meta := Some {| OriginalHeaders := Some (rq_Header r); A2AAgentCard := None; MCPTransport := "";
                          Custom := <["a2a_version" := VStr (rq_Header r "X-A2A-Version")]> ∅ |} |} |}.

(** The match on a task of the body *)
Definition taskMatch (r : Request) (rpc : a2aRequest) (body : string) : MatchResult :=
  let params := json_Params (aq_Params rpc) in
  let card := parseAgentCard (tp_AgentCard params) in
  {| Confidence := MatchLikely;
     mr_Request := Some {| tc_call := call (extractBearer r) (Some body);
       tc_Operation := if (tp_TaskType params =? "")%string then aq_Method rpc else tp_TaskType params;
       tc_Params := ∅;
       tc_Meta := Some {| OriginalHeaders := Some (rq_Header r); A2AAgentCard := card.2; MCPTransport := "";
                          Custom := <["a2a_card_hash" := VStr card.1]> (<["spec_revision" := VStr specRevision]>
                            (<["a2a_jsonrpc_id" := aq_ID rpc]> (<["a2a_method" := VStr (aq_Method rpc)]> ∅))) |} |} |}.

(** [ExtractFromHTTP] *)
Definition a2aExtractFromHTTP (r : Request) : Request * result string (option MatchResult) :=
  let isJSON := Contains (rq_Header r "Content-Type") "application/json" in
  if negb (rq_Method r =? "POST")%string then ok r noMatch else
  if str_nonempty (rq_Header r "X-A2A-Version") && isJSON then ok r (headerMatch r) else
  if negb isJSON then ok r noMatch else
  withJSON r (fun body =>
    match json_Unmarshal body with
    | None => noMatch
    | Some rpc => if negb (isTask rpc) then noMatch else taskMatch r rpc body
    end).

(** [ExtractFromMessage] *)
Definition a2aExtractFromMessage (msg : string) : result string (option MatchResult) :=
  match json_Unmarshal msg with
  | None => Ok (Some noMatch)
  | Some rpc =>
      if negb (isTask rpc) then Ok (Some noMatch) else
      let params := json_Params (aq_Params rpc) in
      let card := parseAgentCard (tp_AgentCard params) in
      Ok (Some {| Confidence := MatchLikely;
        mr_Request := Some {| tc_call := call "" (Some msg); tc_Operation := tp_TaskType params; tc_Params := ∅;
          tc_Meta := Some {| OriginalHeaders := None; A2AAgentCard := card.2; MCPTransport := "";
                             Custom := <["a2a_card_hash" := VStr card.1]>
                               (<["spec_revision" := VStr specRevision]> ∅) |} |} |})
  end.

(** [FormatError] *)
Definition a2aFormatError (code description : string) (status : Z) : Written :=
  {| w_Status := status; w_ContentType := "application/json";
     w_Body := Some (rpcError (rpcErrorCode status) description
       (<["error" := VStr code]> (<["spec_revision" := VStr specRevision]> ∅))) |}.

Definition NewA2A : Adapter :=
  {| Protocol := protocol; ExtractFromHTTP := a2aExtractFromHTTP; ExtractFromMessage := a2aExtractFromMessage;
     FormatError := a2aFormatError |}.
End Adapter.
End A2A.

(** * Generic HTTP *)

Module HTTP.
Record ToolIDMapping : Type := {
  PathPrefix : string;
  tm_ToolID : string;
}.

(** The loop of [resolveToolID]: the best tool so far and the length of its prefix. *)
Fixpoint bestMapping (path : string) (mappings : list ToolIDMapping) (best : string) (bestLen : nat) : string * nat :=
  match mappings with
  | [] => (best, bestLen)
  | m :: ms =>
      if HasPrefix path (PathPrefix m) && (bestLen <? String.length (PathPrefix m))%nat
      then bestMapping path ms (tm_ToolID m) (String.length (PathPrefix m))
      else bestMapping path ms best bestLen
  end.
(** [resolveToolID] *)
Definition resolveToolID (mappings : list ToolIDMapping) (path : string) : string * Z :=
  let best := (bestMapping path mappings "" 0).1 in
  if str_nonempty best then (best, MatchDefinitive) else ("", MatchLikely).

(** [strings.Trim(s, "/")] *)
Fixpoint trimLeft (s : string) : string :=
  match s with
  | String a s' => if Ascii.eqb a "/" then trimLeft s' else s
  | EmptyString => s
  end.
Fixpoint trimRight (s : string) : string :=
  match s with
  | EmptyString => EmptyString
  | String a s' => match trimRight s' with
                   | EmptyString => if Ascii.eqb a "/" then EmptyString else String a EmptyString
                   | t => String a t
                   end
  end.

(** [operationFromRequest] *)
Definition operationFromRequest (r : Request) : string :=
  let method := ToLower (rq_Method r) in
  let last := List.last (Split (trimRight (trimLeft (rq_Path r))) "/") "" in
  if (last =? "")%string || (last =? "call")%string || (last =? "invoke")%string then method
  else method +:+ ":" +:+ last.

Section Adapter.
Variable mappings : list ToolIDMapping.

(** [ExtractFromHTTP] *)
Definition httpExtractFromHTTP (r : Request) : Request * result string (option MatchResult) :=
  let token := extractBearer r in
  if (token =? "")%string then ok r noMatch else
  let tool := resolveToolID mappings (rq_Path r) in
  ok r {| Confidence := tool.2;
          mr_Request := Some {| tc_call := {| tr_Protocol := ProtocolHTTP; tr_ToolID := tool.1; tr_Token := token;
                                             tr_RequestBody := None |};
            tc_Operation := operationFromRequest r; tc_Params := ∅;
            tc_Meta := Some {| OriginalHeaders := Some (rq_Header r); A2AAgentCard := None; MCPTransport := "";
              Custom := if Contains (rq_Header r "Content-Type") "application/grpc"
                        then <["grpc" := VBool true]> ∅ else ∅ |} |} |}.

(** [ExtractFromMessage] and [FormatError] *)
Definition httpExtractFromMessage (msg : string) : result string (option MatchResult) := Ok (Some noMatch).
Definition httpFormatError (code description : string) (status : Z) : Written :=
  {| w_Status := status; w_ContentType := "application/json";
     w_Body := Some (VObj (<["error" := VStr code]> (<["error_description" := VStr description]> ∅))) |}.

Definition NewHTTP : Adapter :=
  {| Protocol := ProtocolHTTP; ExtractFromHTTP := httpExtractFromHTTP; ExtractFromMessage := httpExtractFromMessage;
     FormatError := httpFormatError |}.
End Adapter.

(** A mapped path gets the tool of its longest matching prefix. *)
Lemma bestMapping_longest path ms best n :
  let r := bestMapping path ms best n in
  (r = (best, n) \/ exists m, m ∈ ms /\ HasPrefix path (PathPrefix m) = true /\
     r = (tm_ToolID m, String.length (PathPrefix m))) /\
  (n <= r.2)%nat /\
  forall m, m ∈ ms -> HasPrefix path (PathPrefix m) = true -> (String.length (PathPrefix m) <= r.2)%nat.
Proof.
  revert best n. induction ms as [|m ms IH]; intros best n; cbv zeta in *; cbn [bestMapping].
  - split; [by left|]. split; [cbn; lia|]. intros m Hm. by apply not_elem_of_nil in Hm.
  - destruct (HasPrefix path (PathPrefix m) && (n <? String.length (PathPrefix m))%nat) eqn:Hc.
    + apply andb_true_iff in Hc as [Hp Hlt%Nat.ltb_lt].
      destruct (IH (tm_ToolID m) (String.length (PathPrefix m))) as (Hr & Hn & Hall).
      split; [|split; [etransitivity; [apply Nat.lt_le_incl, Hlt|exact Hn]|]].
      * right. destruct Hr as [Hr|(m' & Hin & Hr)]; [exists m|exists m']; rewrite elem_of_cons; auto.
      * intros m' [->|Hin]%elem_of_cons Hpm; [done|by apply Hall].
    + destruct (IH best n) as (Hr & Hn & Hall). split; [|split; [done|]].
      * destruct Hr as [Hr|(m' & Hin & Hr)]; [by left|]. right. exists m'. rewrite elem_of_cons. auto.
      * intros m' [->|Hin]%elem_of_cons Hpm; [|by apply Hall]. rewrite Hpm in Hc. cbn in Hc.
        apply Nat.ltb_ge in Hc. lia.
Qed.

Lemma resolveToolID_longest ms path id :
  resolveToolID ms path = (id, MatchDefinitive) ->
  exists m, m ∈ ms /\ tm_ToolID m = id /\ HasPrefix path (PathPrefix m) = true /\
    forall m', m' ∈ ms -> HasPrefix path (PathPrefix m') = true ->
      (String.length (PathPrefix m') <= String.length (PathPrefix m))%nat.
Proof.
  unfold resolveToolID. destruct (bestMapping_longest path ms "" 0) as ([Hr|(m & Hin & Hp & Hr)] & _ & Hall);
    rewrite Hr in *; cbn in *; [done|].
  destruct (str_nonempty (tm_ToolID m)); intros [= <-]. exists m. split; [done|]. split; [done|]. split; [done|].
  exact Hall.
Qed.
End HTTP.

(** * The contract of an adapter *)

Class LawfulAdapter (a : Adapter) : Prop := {
  law_protocol : Protocol a <> "";
  (** an extraction never fails *)
  law_total r : exists r' m, ExtractFromHTTP a r = (r', Ok (Some m)) /\ MatchNone <= Confidence m <= MatchDefinitive;
  (** a match carries a request of the adapter's protocol with its transport *)
  law_match r r' m : ExtractFromHTTP a r = (r', Ok (Some m)) -> MatchNone < Confidence m ->
    exists tc, mr_Request m = Some tc /\ tr_Protocol (tc_call tc) = Protocol a /\ is_Some (tc_Meta tc);
  (** the request is left as it was, but for a body that cannot be read to its end *)
  law_keeps r : exists b, fst (ExtractFromHTTP a r) = setBody r b;
  law_body r : (forall p, rq_Body r <> Broken p) -> fst (ExtractFromHTTP a r) = r;
  (** a second look at the request finds the same *)
  law_stable r r1 m1 r2 m2 : ExtractFromHTTP a r = (r1, Ok (Some m1)) ->
    ExtractFromHTTP a r1 = (r2, Ok (Some m2)) -> Confidence m2 = Confidence m1;
  (** a GET without headers is no tool call *)
  law_plain r m : rq_Method r = "GET" -> rq_Path r = "/" -> (forall h, rq_Header r h = "") ->
    snd (ExtractFromHTTP a r) = Ok (Some m) -> Confidence m = MatchNone;
  law_message msg : exists m, ExtractFromMessage a msg = Ok (Some m) /\
    (MatchNone < Confidence m -> is_Some (mr_Request m));
  law_garbage msg m : msg = "" \/ msg = "not json" -> ExtractFromMessage a msg = Ok (Some m) ->
    Confidence m = MatchNone;
  law_error code description status : w_Status (FormatError a code description status) = status /\
    w_ContentType (FormatError a code description status) <> "" /\
    is_Some (w_Body (FormatError a code description status));
}.

Lemma withJSON_total r g : (forall b, MatchNone <= Confidence (g b) <= MatchDefinitive) ->
  exists r' m, withJSON r g = (r', Ok (Some m)) /\ MatchNone <= Confidence m <= MatchDefinitive.
Proof. intros Hg. unfold withJSON, ok. destruct (readJSON r) as [r' [b|]]; [eauto|]. by exists r', noMatch. Qed.

Lemma withJSON_match r g r' m : withJSON r g = (r', Ok (Some m)) -> MatchNone < Confidence m ->
  exists b, rq_Body r = Full b /\ r' = r /\ m = g b.
Proof.
  unfold withJSON, readJSON, ok. destruct (rq_Body r) eqn:Hb; intros [= <- <-] Hc; [by cbn in Hc| |by cbn in Hc].
  exists s. split; [done|]. split; [|done]. by rewrite <- Hb, setBody_same.
Qed.

Lemma withJSON_keeps r g : exists b, fst (withJSON r g) = setBody r b.
Proof.
  unfold withJSON, readJSON, ok. destruct (rq_Body r) eqn:Hb; cbn; eauto.
  exists NoBody. by rewrite <- Hb, setBody_same.
Qed.

Lemma withJSON_body r g : (forall p, rq_Body r <> Broken p) -> fst (withJSON r g) = r.
Proof.
  intros Hr. unfold withJSON, readJSON, ok. destruct (rq_Body r) eqn:Hb; cbn; [done| |by destruct (Hr s)].
  by rewrite <- Hb, setBody_same.
Qed.

Lemma withJSON_stable r g g' r1 m1 r2 m2 : (forall b, Confidence (g' b) = Confidence (g b)) ->
  withJSON r g = (r1, Ok (Some m1)) -> withJSON r1 g' = (r2, Ok (Some m2)) -> Confidence m2 = Confidence m1.
Proof.
  intros Hg. unfold withJSON, readJSON, ok. destruct (rq_Body r) eqn:Hb; intros [= <- <-]; cbn;
    rewrite ?Hb; intros [= <- <-]; [done|apply Hg|done].
Qed.

Lemma bodyMatch_conf json token meta token' meta' b :
  Confidence (MCP.bodyMatch json token' meta' b) = Confidence (MCP.bodyMatch json token meta b).
Proof. unfold MCP.bodyMatch. by repeat case_match. Qed.

Lemma bodyMatch_match json token meta b : MatchNone < Confidence (MCP.bodyMatch json token meta b) ->
  exists rpc, json b = Some rpc /\ MCP.isToolCall rpc = true /\
    mr_Request (MCP.bodyMatch json token meta b) = Some (MCP.rpcCall rpc token b meta).
Proof.
  unfold MCP.bodyMatch. destruct (json b) as [rpc|] eqn:Hj; [|done].
  destruct (MCP.isToolCall rpc) eqn:Ht; cbn; [|done]. eauto.
Qed.

(** ** MCP *)

Lemma mcp_keeps json r : exists b, fst (MCP.mcpExtractFromHTTP json r) = setBody r b.
Proof.
  unfold MCP.mcpExtractFromHTTP, MCP.pathCall. destruct (negb _).
  { exists (rq_Body r). cbn. by rewrite setBody_same. }
  destruct (str_nonempty _).
  { destruct (rq_Body r) eqn:Hb; cbn; eauto. exists NoBody. by rewrite <- Hb, setBody_same. }
  destruct (negb _); [|apply withJSON_keeps]. exists (rq_Body r). cbn. by rewrite setBody_same.
Qed.

Lemma mcp_stable json r r1 m1 r2 m2 :
  MCP.mcpExtractFromHTTP json r = (r1, Ok (Some m1)) -> MCP.mcpExtractFromHTTP json r1 = (r2, Ok (Some m2)) ->
  Confidence m2 = Confidence m1.
Proof.
  intros H1 H2. destruct (mcp_keeps json r) as [b Hb]. rewrite H1 in Hb. cbn in Hb. subst r1.
  unfold MCP.mcpExtractFromHTTP, MCP.pathCall in *. cbn [rq_Method rq_Path rq_Header setBody] in H2.
  destruct (negb _); [unfold ok in *; congruence|].
  destruct (str_nonempty _); [unfold ok in *; by simplify_eq|].
  destruct (negb _); [unfold ok in *; congruence|].
  eapply withJSON_stable; [|exact H1|exact H2]. intros. apply bodyMatch_conf.
Qed.

#[export] Instance MCP_lawful json :
  TCEq (json "") None -> TCEq (json "not json") None -> LawfulAdapter (MCP.NewMCP json).
Proof.
  rewrite !TCEq_eq. intros J1 J2. split; cbn [MCP.NewMCP Protocol ExtractFromHTTP ExtractFromMessage FormatError].
  - done.
  - intros r. unfold MCP.mcpExtractFromHTTP, MCP.pathCall, ok.
    repeat (case_match; [by eexists _, _|]). apply withJSON_total.
    intros b. unfold MCP.bodyMatch. by repeat case_match.
  - intros r r' m. unfold MCP.mcpExtractFromHTTP, MCP.pathCall, ok.
    case_match; [by intros [= <- <-]|]. case_match; [intros [= <- <-] _; by eexists|].
    case_match; [by intros [= <- <-]|]. intros H' Hc.
    destruct (withJSON_match _ _ _ _ H' Hc) as (b & _ & _ & ->).
    apply bodyMatch_match in Hc as (rpc & _ & _ & ->). by eexists.
  - apply mcp_keeps.
  - intros r Hr. unfold MCP.mcpExtractFromHTTP, MCP.pathCall, ok. case_match; [done|]. case_match.
    { cbn. destruct (rq_Body r) eqn:Hb; cbn; [done| |by destruct (Hr s)]. by rewrite <- Hb, setBody_same. }
    case_match; [done|]. by apply withJSON_body.
  - apply mcp_stable.
  - intros r m Hm _ _. unfold MCP.mcpExtractFromHTTP. rewrite Hm. cbn. by intros [= <-].
  - intros msg. eexists. split; [done|]. intros (rpc & _ & _ & ->)%bodyMatch_match. by eexists.
  - intros msg m Hmsg [= <-]. unfold MCP.bodyMatch. destruct Hmsg as [->| ->]; by rewrite ?J1, ?J2.
  - intros code d st. cbn. by eauto.
Qed.

(** ** A2A *)

Lemma a2a_keeps json params obj sha rev r : exists b, fst (A2A.a2aExtractFromHTTP json params obj sha rev r) = setBody r b.
Proof.
  unfold A2A.a2aExtractFromHTTP. repeat (case_match; [exists (rq_Body r); cbn; by rewrite setBody_same|]).
  apply withJSON_keeps.
Qed.

Lemma a2a_stable json params obj sha rev r r1 m1 r2 m2 :
  A2A.a2aExtractFromHTTP json params obj sha rev r = (r1, Ok (Some m1)) ->
  A2A.a2aExtractFromHTTP json params obj sha rev r1 = (r2, Ok (Some m2)) -> Confidence m2 = Confidence m1.
Proof.
  intros H1 H2. destruct (a2a_keeps json params obj sha rev r) as [b Hb]. rewrite H1 in Hb. cbn in Hb. subst r1.
  unfold A2A.a2aExtractFromHTTP in *. cbn [rq_Method rq_Path rq_Header setBody] in H2.
  destruct (negb (rq_Method r =? "POST")%string); [unfold ok in *; congruence|].
  destruct (_ && _); [unfold ok in *; by simplify_eq|].
  destruct (negb (Contains _ _)); [unfold ok in *; congruence|].
  eapply withJSON_stable; [|exact H1|exact H2]. intros body. cbn. by repeat case_match.
Qed.

#[export] Instance A2A_lawful json params obj sha rev :
  TCEq (json "") None -> TCEq (json "not json") None -> LawfulAdapter (A2A.NewA2A json params obj sha rev).
Proof.
  rewrite !TCEq_eq. intros J1 J2. split; cbn [A2A.NewA2A Protocol ExtractFromHTTP ExtractFromMessage FormatError].
  - done.
  - intros r. unfold A2A.a2aExtractFromHTTP, ok. repeat (case_match; [by eexists _, _|]). apply withJSON_total.
    intros b. by repeat case_match.
  - intros r r' m. unfold A2A.a2aExtractFromHTTP, ok.
    case_match; [by intros [= <- <-]|]. case_match; [intros [= <- <-] _; cbn; eauto|].
    case_match; [by intros [= <- <-]|]. intros H' Hc.
    destruct (withJSON_match _ _ _ _ H' Hc) as (b & _ & _ & ->).
    cbv beta in *. destruct (json b) as [rpc|]; [|done]. destruct (negb (A2A.isTask rpc)); [done|].
    eexists. split; [reflexivity|]. split; [reflexivity|]. by eexists.
  - apply a2a_keeps.
  - intros r Hr. unfold A2A.a2aExtractFromHTTP, ok. repeat (case_match; [done|]). by apply withJSON_body.
  - apply a2a_stable.
  - intros r m Hm _ _. unfold A2A.a2aExtractFromHTTP. rewrite Hm. cbn. by intros [= <-].
  - intros msg. unfold A2A.a2aExtractFromMessage. repeat case_match; eexists; (split; [done|]); cbn; eauto; done.
  - intros msg m Hmsg. unfold A2A.a2aExtractFromMessage. destruct Hmsg as [->| ->]; rewrite ?J1, ?J2; by intros [= <-].
  - intros code d st. cbn. by eauto.
Qed.

(** ** Generic HTTP *)

#[export] Instance HTTP_lawful mappings : LawfulAdapter (HTTP.NewHTTP mappings).
Proof.
  split; cbn [HTTP.NewHTTP Protocol ExtractFromHTTP ExtractFromMessage FormatError]; unfold HTTP.httpExtractFromHTTP, ok.
  - done.
  - intros r. unfold HTTP.resolveToolID. repeat case_match; by eexists _, _.
  - intros r r' m. case_match; [by intros [= <- <-]|]. intros [= <- <-] _. by eexists.
  - intros r. exists (rq_Body r). rewrite setBody_same. by case_match.
  - intros r _. by case_match.
  - intros r r1 m1 r2 m2. case_match eqn:Ht; intros [= <- <-]; rewrite Ht; by intros [= <- <-].
  - intros r m _ _ Hh. unfold extractBearer. rewrite Hh. cbn. by intros [= <-].
  - intros msg. by eexists.
  - intros msg m _ [= <-]. done.
  - intros code d st. cbn. by eauto.
Qed.
End Adapters.
