(* ===== verification/ToolMiddleware.v ===== *)
(** The universal tool-call middleware ([pkg/toolcall/middleware.go]) over the adapters of
    [Adapters] and the verifier of [Toolcall]: which adapter decides, when the handler is reached
    and for whom, and what the choice of adapter leaves unchecked. *)
From Stdlib Require Import ZArith QArith Lia Ascii.
From stdpp Require Import base gmap strings list sorting.
From S2P Require Import Prelude.
From S2P Require Import GoLib.
From S2P Require Import JwtModel.
From S2P Require Import Core.
From S2P Require Import DPoP.
From S2P Require Import Mcp.
From S2P Require Import Toolcall.
From S2P Require Import Adapters.

#[local] Open Scope string_scope.
#[local] Open Scope list_scope.
#[local] Open Scope Z_scope.

Module ToolMiddleware.
Import Toolcall Adapters.Adapters.

(** * Choosing an adapter *)

(** [candidate] and [adapterMatch] *)
Record Candidate : Type := {
  cd_adapter : Adapter;
  cd_result : MatchResult;
  cd_idx : nat;
}.
Definition conf (c : Candidate) : Z := Confidence (cd_result c).

(** The loop of [selectAdapter]: the adapters see the request one after the other, each as the
    one before left it. *)
Fixpoint candidates (i : nat) (r : Request) (adapters : list Adapter) : Request * list Candidate :=
  match adapters with
  | [] => (r, [])
  | a :: rest =>
      let x := ExtractFromHTTP a r in
      let later := candidates (S i) x.1 rest in
      match x.2 with
      | Ok (Some m) => (later.1, {| cd_adapter := a; cd_result := m; cd_idx := i |} :: later.2)
      | Ok None | Err _ => later
      end
  end.

(** The order of the sort: higher confidence first, then the place in the list. *)
Definition precedes (c d : Candidate) : Prop := conf d < conf c \/ (conf c = conf d /\ (cd_idx c <= cd_idx d)%nat).
#[local] Instance precedes_dec c d : Decision (precedes c d).
Proof. unfold precedes. apply _. Defined.
#[local] Instance precedes_total : Total precedes.
Proof. intros c d. unfold precedes. lia. Qed.
#[local] Instance precedes_trans : Transitive precedes.
Proof. intros c d e. unfold precedes. lia. Qed.

(** [selectAdapter]: the request, the match and whether there is a tie. *)
Definition selectAdapter (r : Request) (adapters : list Adapter) : Request * option Candidate * bool :=
  let cs := candidates 0 r adapters in
  match merge_sort precedes cs.2 with
  | [] => (cs.1, None, false)
  | top :: rest => (cs.1, Some top, match rest with c :: _ => conf c =? conf top | [] => false end)
  end.

(** * Errors *)

(** [classifyVerifyError]: code, description and status *)
Definition classifyVerifyError (text : ToolErr -> string) (err : ToolErr) : string * string * Z :=
  match err with
  | ErrMissingToken => ("missing_token", "authorization token required", 401)
  | ErrInvalidToken _ => ("invalid_token", "token signature or format invalid", 401)
  | ErrTokenRevoked _ => ("token_revoked", "credential has been revoked", 401)
  | ErrToolNotRegistered _ => ("tool_not_found", "tool is not registered", 404)
  | ErrCapabilityDenied _ => ("insufficient_capabilities", "token lacks required capabilities", 403)
  | ErrBlastRadiusExceeded _ _ => ("blast_radius_exceeded", "operation exceeds authorized blast radius", 403)
  | ErrAudienceMismatch _ _ => ("audience_mismatch", "token audience does not match tool resource", 403)
  | ErrPolicyDenied _ => ("policy_denied", "request denied by policy", 403)
  | ErrProtocolDenied _ _ => ("protocol_denied", "tool does not accept this protocol", 403)
  | ErrExecBindingRequired _ | ErrExecPayloadMissing | ErrExecPayloadMismatch _ _ | ErrExecOpMismatch _
  | ErrExecTargetMismatch _ => ("exec_binding_invalid", text err, 403)
  | ErrPolicyEvaluation _ => ("internal_error", "verification failed", 500)
  end.

(** * The middleware *)

(** [MiddlewareMetrics]: which hooks are set *)
Record MiddlewareMetrics : Type := {
  RecordCall : bool;
  ObserveDuration : bool;
  IncTie : bool;
}.

(** [MiddlewareConfig] *)
Record MiddlewareConfig : Type := {
  mc_Adapters : list Adapter;
  mc_Verify : ToolCallRequest -> result ToolErr VerifiedIdentity;
  MinConfidence : Z;
  PassThrough : bool;
  Metrics : option MiddlewareMetrics;
}.

(** What the hooks are told *)
Inductive Metric : Type :=
| TieCounted
| DurationObserved (protocol : string)
| CallRecorded (protocol decision : string).

Definition hook (cfg : MiddlewareConfig) (which : MiddlewareMetrics -> bool) (m : Metric) : list Metric :=
  match Metrics cfg with Some h => if which h then [m] else [] | None => [] end.

(** The handler is reached, with the identity in its context or without one, and with the request
    as the adapters left it; an error is written; or a [nil] request is handed to the verifier. *)
Inductive Outcome : Type :=
| Next (identity : option VerifiedIdentity) (r : Request)
| Refused (w : Written)
| Panic.

Definition minConf (cfg : MiddlewareConfig) : Z := if MinConfidence cfg =? 0 then MatchPossible else MinConfidence cfg.

(** [Middleware] for a request no adapter claims *)
Definition unclaimed (cfg : MiddlewareConfig) (r : Request) : Outcome :=
  if PassThrough cfg then Next None r else
  match mc_Adapters cfg with
  | a :: _ => Refused (FormatError a "unauthorized" "no recognized tool-call protocol" 401)
  | [] => Refused {| w_Status := 401; w_ContentType := "text/plain; charset=utf-8"; w_Body := Some (VStr "unauthorized") |}
  end.

(** [Middleware] for a request with a match: what is measured and where the request ends *)
Definition claimed (text : ToolErr -> string) (cfg : MiddlewareConfig) (best : Candidate) (r : Request)
    : list Metric * Outcome :=
  let proto := Protocol (cd_adapter best) in
  match mr_Request (cd_result best) with
  | None => ([], Panic)
  | Some tc =>
      match mc_Verify cfg (tc_call tc) with
      | Err err =>
          let '(code, description, status) := classifyVerifyError text err in
          (hook cfg ObserveDuration (DurationObserved proto) ++ hook cfg RecordCall (CallRecorded proto "denied"),
           Refused (FormatError (cd_adapter best) code description status))
      | Ok verified =>
          (hook cfg ObserveDuration (DurationObserved proto) ++ hook cfg RecordCall (CallRecorded proto "allowed"),
           Next (Some verified) r)
      end
  end.

(** [Middleware] *)
Definition Middleware (text : ToolErr -> string) (cfg : MiddlewareConfig) (r : Request) : list Metric * Outcome :=
  let '(r', best, hasTie) := selectAdapter r (mc_Adapters cfg) in
  let tie := if hasTie then hook cfg IncTie TieCounted else [] in
  match best with
  | None => (tie, unclaimed cfg r')
  | Some best =>
      if conf best <? minConf cfg then (tie, unclaimed cfg r')
      else let out := claimed text cfg best r' in (tie ++ out.1, out.2)
  end.

(** * Which adapter decides *)

(** A request whose body can be read is left as it was, and every lawful adapter is a candidate
    with what it makes of the request. *)
Lemma candidates_lawful adapters r i :
  Forall LawfulAdapter adapters -> (forall p, rq_Body r <> Broken p) ->
  (candidates i r adapters).1 = r /\
  forall c, c ∈ (candidates i r adapters).2 <->
    exists j, cd_idx c = (i + j)%nat /\ adapters !! j = Some (cd_adapter c) /\
      ExtractFromHTTP (cd_adapter c) r = (r, Ok (Some (cd_result c))).
Proof.
  intros Hall Hr. revert i. induction Hall as [|a rest Ha _ IH]; intros i; cbn.
  { split; [done|]. intros c. split; [by intros ?%not_elem_of_nil|]. by intros (? & _ & ? & _). }
  destruct (law_total (LawfulAdapter:=Ha) r) as (r' & m & He & _).
  assert (r' = r) as ->. { pose proof (law_body (LawfulAdapter:=Ha) r Hr) as Hb. by rewrite He in Hb. }
  rewrite He. cbn. destruct (IH (S i)) as [H1 H2]. split; [done|]. intros c. rewrite elem_of_cons, H2. split.
  - intros [->|(j & Hi & Hj & Hx)]; cbn; [exists 0%nat; split; [lia|done]|].
    exists (S j). split; [lia|done].
  - intros ([|j] & Hi & Hj & Hx); cbn in Hj.
    + left. injection Hj as ->. rewrite He in Hx. injection Hx as Hx. rewrite Nat.add_0_r in Hi.
      destruct c; cbn in *; congruence.
    + right. exists j. split; [lia|done].
Qed.

(** The first of the candidates in the order of the sort. *)
Lemma selectAdapter_first r adapters r' c tie :
  selectAdapter r adapters = (r', Some c, tie) ->
  r' = (candidates 0 r adapters).1 /\ c ∈ (candidates 0 r adapters).2 /\
  (forall d, d ∈ (candidates 0 r adapters).2 -> precedes c d).
Proof.
  unfold selectAdapter. pose proof (merge_sort_Permutation precedes (candidates 0 r adapters).2) as Hp.
  pose proof (StronglySorted_merge_sort precedes (candidates 0 r adapters).2) as Hs.
  destruct (merge_sort _ _) as [|top rest]; [done|]. intros [= <- <- _].
  apply StronglySorted_inv in Hs as [_ Hs]. split; [done|]. split; [rewrite <- Hp; by left|].
  intros d. rewrite <- Hp, elem_of_cons. intros [->|Hd]; [unfold precedes; lia|].
  by eapply Forall_forall in Hs.
Qed.

Lemma selectAdapter_none r adapters r' tie :
  selectAdapter r adapters = (r', None, tie) -> r' = (candidates 0 r adapters).1 /\ (candidates 0 r adapters).2 = [].
Proof.
  unfold selectAdapter. pose proof (merge_sort_Permutation precedes (candidates 0 r adapters).2) as Hp.
  destruct (merge_sort _ _); [|done]. intros [= <- _]. split; [done|]. by apply Permutation_nil_r.
Qed.

(** The decision of a list of lawful adapters: the [i]-th one makes [m] of the request, no other
    one is more confident and none before it is as confident. *)
Definition decides (adapters : list Adapter) (r : Request) (i : nat) (a : Adapter) (m : MatchResult) : Prop :=
  adapters !! i = Some a /\ ExtractFromHTTP a r = (r, Ok (Some m)) /\
  forall j b mb, adapters !! j = Some b -> ExtractFromHTTP b r = (r, Ok (Some mb)) ->
    Confidence mb < Confidence m \/ (Confidence mb = Confidence m /\ (i <= j)%nat).

Lemma selectAdapter_decides r adapters r' c tie :
  Forall LawfulAdapter adapters -> (forall p, rq_Body r <> Broken p) ->
  selectAdapter r adapters = (r', Some c, tie) ->
  r' = r /\ decides adapters r (cd_idx c) (cd_adapter c) (cd_result c).
Proof.
  intros Hall Hr (-> & Hc & Hfirst)%selectAdapter_first. destruct (candidates_lawful adapters r 0 Hall Hr) as [H1 H2].
  split; [done|]. apply H2 in Hc as (j & Hi & Hj & Hx). cbn in Hi. rewrite <- Hi in Hj. split; [done|]. split; [done|].
  intros k b mb Hb Hxb.
  assert (Hd : {| cd_adapter := b; cd_result := mb; cd_idx := k |} ∈ (candidates 0 r adapters).2).
  { apply H2. exists k. by cbn. }
  apply Hfirst in Hd. unfold precedes, conf in Hd. cbn in Hd. lia.
Qed.

Lemma decides_unique adapters r i a m j b mb :
  decides adapters r i a m -> decides adapters r j b mb -> i = j /\ a = b /\ m = mb.
Proof.
  intros (Hi & Ha & Hmax) (Hj & Hb & Hmax'). specialize (Hmax _ _ _ Hj Hb). specialize (Hmax' _ _ _ Hi Ha).
  assert (i = j) as -> by lia. rewrite Hi in Hj. injection Hj as ->. rewrite Ha in Hb. by injection Hb as ->.
Qed.

(** The two ways of a request through the middleware. *)
Lemma Middleware_cases text cfg r :
  Forall LawfulAdapter (mc_Adapters cfg) -> (forall p, rq_Body r <> Broken p) ->
  (exists i a m, decides (mc_Adapters cfg) r i a m /\ minConf cfg <= Confidence m /\
     (Middleware text cfg r).2 = (claimed text cfg {| cd_adapter := a; cd_result := m; cd_idx := i |} r).2) \/
  ((forall a m, a ∈ mc_Adapters cfg -> ExtractFromHTTP a r = (r, Ok (Some m)) -> Confidence m < minConf cfg) /\
   (Middleware text cfg r).2 = unclaimed cfg r).
Proof.
  intros Hall Hr. unfold Middleware.
  destruct (selectAdapter r (mc_Adapters cfg)) as [[r0 [c|]] tie] eqn:Hs.
  - destruct (selectAdapter_decides _ _ _ _ _ Hall Hr Hs) as [-> Hd].
    destruct (Z.ltb_spec (conf c) (minConf cfg)) as [Hlt|Hge].
    + right. split; [|done]. intros a m [j Hj]%list_elem_of_lookup Ha. destruct Hd as (_ & _ & Hmax).
      specialize (Hmax _ _ _ Hj Ha). unfold conf in Hlt. lia.
    + left. exists (cd_idx c), (cd_adapter c), (cd_result c). split; [done|]. split; [done|]. by destruct c.
  - apply selectAdapter_none in Hs as [-> Hnil]. right.
    destruct (candidates_lawful (mc_Adapters cfg) r 0 Hall Hr) as [-> Hcs]. split; [|done].
    intros a m [j Hj]%list_elem_of_lookup Ha. exfalso.
    apply (not_elem_of_nil {| cd_adapter := a; cd_result := m; cd_idx := j |}).
    rewrite <- Hnil. apply Hcs. by exists j.
Qed.

(** The handler is reached only for a verified call. With lawful adapters and a positive
    threshold the middleware never hands the verifier a [nil] request, and it never changes a
    request whose body can be read. The handler sees an identity exactly when the adapter that
    decides is confident enough and the verifier accepts what that adapter extracted; without an
    identity it is reached only when pass-through is configured and every adapter stays below the
    threshold. *)
Theorem handler_reached_only_verified text cfg r :
  Forall LawfulAdapter (mc_Adapters cfg) -> (forall p, rq_Body r <> Broken p) -> 0 <= MinConfidence cfg ->
  let out := (Middleware text cfg r).2 in
  out <> Panic /\
  (forall r', out = Next None r' <->
     r' = r /\ PassThrough cfg = true /\
     forall a m, a ∈ mc_Adapters cfg -> ExtractFromHTTP a r = (r, Ok (Some m)) -> Confidence m < minConf cfg) /\
  (forall vi r', out = Next (Some vi) r' <->
     r' = r /\ exists i a m tc, decides (mc_Adapters cfg) r i a m /\ minConf cfg <= Confidence m /\
       mr_Request m = Some tc /\ mc_Verify cfg (tc_call tc) = Ok vi).
Proof.
  intros Hall Hr Hmin out.
  assert (Hpos : MatchNone < minConf cfg).
  { unfold minConf, MatchPossible, MatchNone. destruct (Z.eqb_spec (MinConfidence cfg) 0); lia. }
  unfold out. destruct (Middleware_cases text cfg r Hall Hr) as [(i & a & m & Hd & Hge & ->)|[Hlow ->]].
  - pose proof Hd as (Hi & Ha & _).
    assert (Hin : a ∈ mc_Adapters cfg) by (by eapply list_elem_of_lookup_2).
    pose proof (proj1 (Forall_forall _ _) Hall a Hin) as La.
    destruct (law_match _ _ _ Ha) as (tc & Htc & _); [lia|].
    unfold claimed. cbn. rewrite Htc. split; [repeat case_match; done|]. split.
    + intros r'. split; [repeat case_match; done|]. intros (_ & _ & Hlow). specialize (Hlow a m Hin Ha). lia.
    + intros vi r'. split.
      * destruct (mc_Verify cfg (tc_call tc)) as [v|e] eqn:Hv; [|by repeat case_match]. intros [= <- <-].
        split; [done|]. by exists i, a, m, tc.
      * intros (-> & j & b & mb & tcb & Hdb & _ & Htcb & Hv).
        destruct (decides_unique _ _ _ _ _ _ _ _ Hd Hdb) as (_ & _ & ->). rewrite Htc in Htcb.
        injection Htcb as ->. by rewrite Hv.
  - unfold unclaimed. split; [by repeat case_match|]. split.
    + intros r'. destruct (PassThrough cfg); [|split; [by case_match|by intros (_ & ? & _)]].
      split; [intros [= ->]; auto|]. by intros (-> & _).
    + intros vi r'. split; [by repeat case_match|]. intros (_ & i & a & m & tc & (Hi & Ha & _) & Hge & _).
      exfalso. specialize (Hlow a m (list_elem_of_lookup_2 _ _ _ Hi) Ha). lia.
Qed.

(** A tie is reported whenever no adapter recognises a request and there is more than one: every
    adapter then answers [MatchNone], and equal confidences at the top count as a tie. *)
Lemma unrecognised_counts_as_tie adapters r :
  Forall LawfulAdapter adapters -> (forall p, rq_Body r <> Broken p) -> (2 <= length adapters)%nat ->
  (forall a m, a ∈ adapters -> ExtractFromHTTP a r = (r, Ok (Some m)) -> Confidence m = MatchNone) ->
  exists c, selectAdapter r adapters = (r, Some c, true) /\ conf c = MatchNone.
Proof.
  intros Hall Hr Hlen Hnone. destruct (candidates_lawful adapters r 0 Hall Hr) as [Hreq Hcs].
  assert (Hc : forall c, c ∈ (candidates 0 r adapters).2 -> conf c = MatchNone).
  { intros c (j & _ & Hj & Hx)%Hcs. eapply Hnone; [by eapply list_elem_of_lookup_2|done]. }
  assert (Hl : length (candidates 0 r adapters).2 = length adapters).
  { clear -Hall Hr. generalize 0%nat. induction Hall as [|a rest La _ IH]; intros i; [done|]. cbn.
    destruct (law_total r) as (r0 & m & He & _). pose proof (law_body r Hr) as Hb. rewrite He in Hb.
    cbn in Hb. subst r0. rewrite He. cbn. by rewrite IH. }
  unfold selectAdapter. rewrite Hreq. pose proof (merge_sort_Permutation precedes (candidates 0 r adapters).2) as Hp.
  destruct (merge_sort _ _) as [|c [|d rest]]; [apply Permutation_length in Hp; cbn in Hp; lia..|].
  exists c. assert (conf c = MatchNone) as Hcc by (apply Hc; rewrite <- Hp; by left).
  assert (conf d = MatchNone) as Hcd by (apply Hc; rewrite <- Hp; right; by left).
  rewrite Hcc, Hcd. done.
Qed.

(** * With the verifier *)

Section WithVerifier.
Context `{!JwtLib, !JwsLib}.
Variable key_kind : jwk_key -> Mcp.KeyKind.
Variable sha256_b64 : string -> string.
Variable text : ToolErr -> string.
Variable vcfg : VerifierConfig.
Variable now : nat -> Time.

(** What acceptance by the verifier means. *)
Record accepted (req : ToolCallRequest) (tok : jwt_token) (tool : option ToolEntry) (vi : VerifiedIdentity) : Prop := {
  acc_token : verifyToken key_kind vcfg (now 0) (tr_Token req) = Ok tok;
  acc_tool : lookupTool vcfg (tr_ToolID req) = Ok tool;
  acc_subject : vi_Subject vi = default "" (jwt_Subject tok);
  acc_scope : vi_Execution vi = extractScope tok;
  acc_revoked : checkRevocation vcfg (now 1) (vi_Subject vi) = Ok tt;
  acc_policy : exists input, evaluatePolicy vcfg input = Ok tt;
  acc_entry : forall e, tool = Some e ->
    SupportsProtocol e (tr_Protocol req) = true /\
    (extractIdentity tok (tr_Protocol req)).2 = (if (ResourceURI e =? "")%string then ToolID e else ResourceURI e) /\
    checkCaps (vi_Capabilities vi) (RequiredCapabilities e) = Ok tt /\
    verifyExecBinding sha256_b64 vi e (tr_RequestBody req) = Ok tt;
}.

Lemma Verify_accepted req vi :
  Verify key_kind sha256_b64 vcfg now req = Ok vi -> exists tok tool, accepted req tok tool vi.
Proof.
  unfold Verify. destruct (tr_Token req =? "")%string; [done|].
  intros (tok & Ht & (tool & Hl & (i & Ha & ([] & Hr & ([] & Hp & ([] & Hb & [= <-])%rbind_ok)%rbind_ok)%rbind_ok)%rbind_ok)%rbind_ok)%rbind_ok.
  exists tok, tool. unfold authorise in Ha. destruct tool as [e|].
  - apply rbind_ok in Ha as ([] & Hs & Ha). apply rbind_ok in Ha as ([] & Hau & Ha).
    apply rbind_ok in Ha as ([] & Hc & Ha). apply rbind_ok in Ha as ([] & Hbr & Ha). injection Ha as <-.
    split; cbn; eauto. intros e' [= <-]. apply reject_ok in Hs, Hau.
    apply negb_false_iff in Hs. apply negb_false_iff, String.eqb_eq in Hau. done.
  - injection Ha as <-. split; cbn; eauto. done.
Qed.

(** The execution binding of a call whose body was handed over. *)
Lemma binding_payload vi e b :
  verifyExecBinding sha256_b64 vi e (Some b) = Ok tt ->
  (forall ex, vi_Execution vi = Some ex -> InputHash ex <> "" -> sha256_b64 b = InputHash ex) /\
  (RequiresExecution e = true -> exists ex, vi_Execution vi = Some ex /\ sha256_b64 b = InputHash ex).
Proof.
  unfold verifyExecBinding. destruct (vi_Execution vi) as [ex|].
  - intros ([] & _ & ([] & Hh & ([] & Hm & _)%rbind_ok)%rbind_ok)%rbind_ok. unfold inputHash in Hh.
    apply reject_ok in Hh, Hm.
    assert (HI : InputHash ex <> "" -> sha256_b64 b = InputHash ex).
    { intros Hne. apply str_nonempty_true in Hne. rewrite Hne in Hh. cbn in Hh.
      by apply negb_false_iff, String.eqb_eq in Hh. }
    split; [intros ex' [= <-]; exact HI|]. intros Hreq. exists ex. split; [done|]. apply HI.
    rewrite Hreq in Hm. cbn in Hm. by apply String.eqb_neq in Hm.
  - intros Hq%reject_ok. split; [done|]. by rewrite Hq.
Qed.

(** A configuration whose verifier is the universal one. *)
Definition verifies (cfg : MiddlewareConfig) : Prop :=
  forall req, mc_Verify cfg req = Verify key_kind sha256_b64 vcfg now req.

(** A JSON-RPC tool call posted to a path that has no tools segment: for a path like /v1/mcp/tools/x/call the
    adapter reads the tool off the path and not off the body ([path_overrides_body]). *)
Record toolCall (json : string -> option MCP.mcpRequest) (r : Request) (body : string) (rpc : MCP.mcpRequest)
    : Prop := {
  jc_method : rq_Method r = "POST";
  jc_path : MCP.extractPathToolID (rq_Path r) = "";
  jc_type : Contains (rq_Header r "Content-Type") "application/json" = true;
  jc_body : rq_Body r = Full body;
  jc_json : json body = Some rpc;
  jc_call : MCP.isToolCall rpc = true;
}.

Lemma mcp_extracts json r body rpc : toolCall json r body rpc ->
  ExtractFromHTTP (MCP.NewMCP json) r =
    (r, Ok (Some {| Confidence := MatchDefinitive;
                    mr_Request := Some (MCP.rpcCall rpc (extractBearer r) body (MCP.httpMeta r "http")) |})).
Proof.
  intros [Hm Hp Ht Hb Hj Hc]. cbn. unfold MCP.mcpExtractFromHTTP, withJSON, readJSON, MCP.bodyMatch, ok.
  rewrite Hm, Hp, Ht, Hb. cbn. rewrite Hj, Hc. cbn. by rewrite <- Hb, setBody_same.
Qed.

Lemma mcp_decides adapters json r body rpc i a m :
  Forall LawfulAdapter adapters -> adapters !! 0%nat = Some (MCP.NewMCP json) -> toolCall json r body rpc ->
  decides adapters r i a m ->
  mr_Request m = Some (MCP.rpcCall rpc (extractBearer r) body (MCP.httpMeta r "http")).
Proof.
  intros Hall Hfst Hc (Hi & Ha & Hmax). pose proof (mcp_extracts _ _ _ _ Hc) as Hx.
  specialize (Hmax _ _ _ Hfst Hx). cbn in Hmax.
  pose proof (proj1 (Forall_forall _ _) Hall a (list_elem_of_lookup_2 _ _ _ Hi)) as La.
  destruct (law_total r) as (r' & m' & Ha' & Hle). rewrite Ha in Ha'. injection Ha' as <- <-.
  assert (i = 0%nat) as -> by lia. rewrite Hfst in Hi. injection Hi as <-. rewrite Hx in Ha. injection Ha as <-. done.
Qed.


(** ** What the choice of the adapter leaves out *)

(** A request without a tool is verified without the registry: audience, capabilities, blast
    radius and execution binding of the token play no role. *)
Lemma no_tool_no_checks req tok :
  tr_ToolID req = "" -> tr_Token req <> "" -> verifyToken key_kind vcfg (now 0) (tr_Token req) = Ok tok ->
  RevocationChecker vcfg = None -> Policy vcfg = None ->
  Verify key_kind sha256_b64 vcfg now req = Ok (extractIdentity tok (tr_Protocol req)).1.
Proof.
  intros Ht Hne Hv Hr Hp. unfold Verify. apply String.eqb_neq in Hne. rewrite Hne, Hv. cbn [rbind].
  unfold lookupTool. rewrite Ht. cbn [str_nonempty String.eqb negb rbind authorise].
  unfold checkRevocation, evaluatePolicy. by rewrite Hr, Hp.
Qed.

(** So every A2A request is: the adapter extracts no tool, in any case. *)
Lemma a2a_names_no_tool json params obj sha rev r r' m tc :
  ExtractFromHTTP (A2A.NewA2A json params obj sha rev) r = (r', Ok (Some m)) -> mr_Request m = Some tc ->
  tr_ToolID (tc_call tc) = "".
Proof.
  cbn. unfold A2A.a2aExtractFromHTTP, withJSON, ok. repeat case_match; intros [= <- <-]; try done; by intros [= <-].
Qed.

(** And every request with a token to a path without a mapping, when the generic adapter decides. *)
Lemma unmapped_names_no_tool mappings r r' m tc :
  (forall mp, mp ∈ mappings -> HasPrefix (rq_Path r) (HTTP.PathPrefix mp) = false) ->
  ExtractFromHTTP (HTTP.NewHTTP mappings) r = (r', Ok (Some m)) -> mr_Request m = Some tc ->
  tr_ToolID (tc_call tc) = "".
Proof.
  intros Hm. cbn. unfold HTTP.httpExtractFromHTTP, ok. case_match; [by intros [= <- <-]|]. intros [= <- <-] [= <-]. cbn.
  unfold HTTP.resolveToolID.
  destruct (HTTP.bestMapping_longest (rq_Path r) mappings "" 0) as ([Hr|(mp & Hin & Hp & _)] & _).
  - by rewrite Hr.
  - by rewrite (Hm mp Hin) in Hp.
Qed.

(** The generic adapter hands over no body: what it extracts, and so the verdict, is the same for
    every payload, whatever payload the token is for. *)
Lemma generic_ignores_payload mappings r b :
  ExtractFromHTTP (HTTP.NewHTTP mappings) (setBody r b) =
    (setBody r b, snd (ExtractFromHTTP (HTTP.NewHTTP mappings) r)).
Proof. cbn. unfold HTTP.httpExtractFromHTTP, ok. change (extractBearer (setBody r b)) with (extractBearer r). by case_match. Qed.

(** The header of a request to the path of one tool makes the verifier check another one. *)
Lemma header_overrides_path json r r' m tc :
  rq_Method r = "POST" -> MCP.extractPathToolID (rq_Path r) <> "" -> rq_Header r "X-MCP-Tool-ID" <> "" ->
  ExtractFromHTTP (MCP.NewMCP json) r = (r', Ok (Some m)) -> mr_Request m = Some tc ->
  tr_ToolID (tc_call tc) = rq_Header r "X-MCP-Tool-ID".
Proof.
  intros Hm Hp Hh. cbn. unfold MCP.mcpExtractFromHTTP, MCP.pathCall, ok. rewrite Hm.
  apply str_nonempty_true in Hp. rewrite Hp. cbn. intros [= <- <-] [= <-]. cbn.
  apply str_nonempty_true in Hh. by rewrite Hh.
Qed.

(** A request to the path of one tool is checked for that tool, whichever tool its JSON-RPC body names. *)
Lemma path_overrides_body json r b :
  rq_Method r = "POST" -> MCP.extractPathToolID (rq_Path r) <> "" -> rq_Header r "X-MCP-Tool-ID" = "" ->
  exists r' m tc, ExtractFromHTTP (MCP.NewMCP json) (setBody r b) = (r', Ok (Some m)) /\ mr_Request m = Some tc /\
    tr_ToolID (tc_call tc) = MCP.extractPathToolID (rq_Path r).
Proof.
  intros Hm Hp Hh. cbn. unfold MCP.mcpExtractFromHTTP, MCP.pathCall, ok.
  cbn [rq_Method rq_Path rq_Header setBody]. rewrite Hm.
  apply str_nonempty_true in Hp. rewrite Hp. cbn. eexists _, _, _. split; [done|]. split; [done|]. cbn. by rewrite Hh.
Qed.
End WithVerifier.

(** * A concrete call *)

#[local] Existing Instance JwtModel.lib.
#[local] Existing Instance Mcp.demo_jws.

Definition demo_rpc : MCP.mcpRequest :=
  {| MCP.mq_JSONRPC := "2.0"; MCP.mq_Method := "tools/call"; MCP.mq_Name := "tool1"; MCP.mq_Arguments := ∅ |}.
Definition demo_json (body : string) : option MCP.mcpRequest := if (body =? "h")%string then Some demo_rpc else None.
Definition demo_call : Request :=
  {| rq_Method := "POST"; rq_Path := "/";
     rq_Header := fun h => if (h =? "Authorization")%string then "Bearer " +:+ Mcp.demo_str
                           else if (h =? "Content-Type")%string then "application/json" else "";
     rq_Body := Full "h" |}.
Definition demo_middleware : MiddlewareConfig :=
  {| mc_Adapters := [MCP.NewMCP demo_json; HTTP.NewHTTP []];
     mc_Verify := Verify (fun _ => Mcp.RSA) id demo_vcfg (fun _ => 10 * Second);
     MinConfidence := 0; PassThrough := true; Metrics := None |}.

Lemma demo_lawful : Forall LawfulAdapter (mc_Adapters demo_middleware).
Proof.
  apply Forall_cons. split; [apply MCP_lawful; by apply TCEq_eq|]. apply Forall_cons. split; [apply _|apply Forall_nil_2].
Qed.

Lemma demo_readable p : rq_Body demo_call <> Broken p.
Proof. done. Qed.

(** Whether the handler is reached, and whether for an identity. *)
Definition reached (o : Outcome) : option bool :=
  match o with Next i _ => Some (bool_decide (is_Some i)) | Refused _ | Panic => None end.

Lemma demo_reached : reached (Middleware (fun _ => "") demo_middleware demo_call).2 = Some true.
Proof. vm_compute. reflexivity. Qed.

Lemma handler_reached_only_verified_witness :
  (Middleware (fun _ => "") demo_middleware demo_call).2 <> Panic.
Proof.
  apply (handler_reached_only_verified (fun _ => "") demo_middleware demo_call demo_lawful demo_readable).
  vm_compute. discriminate.
Defined.

End ToolMiddleware.
