(* ===== verification/Conformance.v ===== *)
(** The conformance suite for tool-call adapters ([pkg/toolcall/conformance/suite.go]): the
    recorder, the checks, the report, and the exact meaning of a report without failures. Every
    adapter that keeps the contract [LawfulAdapter] passes, for every configuration that gives it
    a request of its own. *)
From Stdlib Require Import ZArith QArith Lia Ascii.
From stdpp Require Import base gmap strings list.
From S2P Require Import Prelude.
From S2P Require Import GoLib.
From S2P Require Import Core.
From S2P Require Import Toolcall.
From S2P Require Import Adapters.

#[local] Open Scope string_scope.
#[local] Open Scope list_scope.
#[local] Open Scope Z_scope.

Module Conformance.
Import Toolcall Adapters.Adapters.

(** [Config]; the constructors and payloads are functions that return the same value each time. *)
Record Config : Type := {
  NewAdapter : option Adapter;
  cf_Protocol : string;
  ValidHTTPRequest : option Request;
  InvalidHTTPRequest : option Request;
  ValidMessagePayload : option string;
  ExpectMessageSupport : bool;
}.

(** * The recorder *)

(** [checkRecorder]; the detail is the format of the first message. *)
Record checkRecorder : Type := {
  failed : bool;
  skipped : bool;
  detail : string;
  stopped : bool;
}.
Definition fresh : checkRecorder := {| failed := false; skipped := false; detail := ""; stopped := false |}.

Definition firstDetail (rec : checkRecorder) (msg : string) : string := if (detail rec =? "")%string then msg else detail rec.

Definition Errorf (msg : string) (rec : checkRecorder) : checkRecorder :=
  if stopped rec then rec
  else {| failed := true; skipped := skipped rec; detail := firstDetail rec msg; stopped := stopped rec |}.
Definition Fatalf (msg : string) (rec : checkRecorder) : checkRecorder :=
  if stopped rec then rec
  else {| failed := true; skipped := skipped rec; detail := firstDetail rec msg; stopped := true |}.
Definition Skip (msg : string) (rec : checkRecorder) : checkRecorder :=
  if stopped rec then rec
  else {| failed := failed rec; skipped := true; detail := firstDetail rec msg; stopped := true |}.
Definition errorIf (c : bool) (msg : string) (rec : checkRecorder) : checkRecorder := if c then Errorf msg rec else rec.

(** * The checks *)

(** A check runs on a recorder; [None] is a panic, on a [nil] constructor or result. *)
Definition run_ : Type := Config -> checkRecorder -> option checkRecorder.

Definition withAdapter (cfg : Config) (f : Adapter -> option checkRecorder) : option checkRecorder :=
  match NewAdapter cfg with Some a => f a | None => None end.
Definition withValid (cfg : Config) (rec : checkRecorder) (f : Adapter -> Request -> option checkRecorder)
    : option checkRecorder :=
  match ValidHTTPRequest cfg with
  | None => Some (Skip "ValidHTTPRequest not provided" rec)
  | Some r => withAdapter cfg (fun a => f a r)
  end.
(** [result, _ := ...] followed by a use of the result *)
Definition deref (x : result string (option MatchResult)) (f : MatchResult -> option checkRecorder)
    : option checkRecorder :=
  match x with Ok (Some m) => f m | Ok None | Err _ => None end.
(** The error and the [nil] result of an extraction are reported. *)
Definition reported (x : result string (option MatchResult)) (onErr onNil : string) (rec : checkRecorder)
    (f : MatchResult -> checkRecorder) : option checkRecorder :=
  match x with
  | Err _ => Some (Fatalf onErr rec)
  | Ok None => Some (Fatalf onNil rec)
  | Ok (Some m) => Some (f m)
  end.
(** A [nil] result is reported, an error ignored. *)
Definition notNil (x : result string (option MatchResult)) (rec : checkRecorder) (f : MatchResult -> checkRecorder)
    : option checkRecorder :=
  match x with
  | Ok (Some m) => Some (f m)
  | Ok None | Err _ => Some (Fatalf "result must not be nil" rec)
  end.

Definition isNone {A} (o : option A) : bool := match o with None => true | Some _ => false end.
Definition matched (m : MatchResult) : bool := MatchNone <? Confidence m.

(** [httptest.NewRequest("GET", "/", nil)] *)
Definition plainGET : Request :=
  {| rq_Method := "GET"; rq_Path := "/"; rq_Header := fun _ => ""; rq_Body := Full "" |}.

Definition check_protocol_nonempty : run_ := fun cfg rec =>
  withAdapter cfg (fun a => Some (errorIf (Protocol a =? "")%string
    "Protocol() must return a non-empty Protocol value" rec)).
Definition check_protocol_expected : run_ := fun cfg rec =>
  if (cf_Protocol cfg =? "")%string then Some (Skip "Protocol not specified in Config" rec) else
  withAdapter cfg (fun a =>
    Some (errorIf (negb (fst (ParseProtocol (Protocol a)) =? fst (ParseProtocol (cf_Protocol cfg)))%string)
      "Protocol() name: got %q, want prefix %q" rec)).
Definition check_http_non_nil : run_ := fun cfg rec =>
  withValid cfg rec (fun a r => reported (ExtractFromHTTP a r).2 "ExtractFromHTTP returned error: %v"
    "ExtractFromHTTP must not return nil MatchResult" rec (fun _ => rec)).
Definition check_http_above_none : run_ := fun cfg rec =>
  withValid cfg rec (fun a r => deref (ExtractFromHTTP a r).2 (fun m =>
    Some (errorIf (Confidence m <=? MatchNone)
      "valid HTTP request should return confidence > MatchNone, got %d" rec))).
Definition check_http_request : run_ := fun cfg rec =>
  withValid cfg rec (fun a r => deref (ExtractFromHTTP a r).2 (fun m =>
    Some (errorIf (matched m && isNone (mr_Request m))
      "MatchResult.Request must not be nil when Confidence > MatchNone" rec))).
Definition check_http_protocol : run_ := fun cfg rec =>
  withValid cfg rec (fun a r => deref (ExtractFromHTTP a r).2 (fun m =>
    Some match mr_Request m with
         | Some tc => errorIf (matched m && (tr_Protocol (tc_call tc) =? "")%string)
             "ToolCallRequest.Protocol must be set when Confidence > MatchNone" rec
         | None => rec
         end)).
Definition check_http_meta : run_ := fun cfg rec =>
  withValid cfg rec (fun a r => deref (ExtractFromHTTP a r).2 (fun m =>
    Some match mr_Request m with
         | Some tc => errorIf (matched m && isNone (tc_Meta tc))
             "ToolCallRequest.TransportMeta must not be nil for HTTP requests" rec
         | None => rec
         end)).
Definition check_http_invalid : run_ := fun cfg rec =>
  withAdapter cfg (fun a =>
    reported (ExtractFromHTTP a (default plainGET (InvalidHTTPRequest cfg))).2
      "ExtractFromHTTP returned error on invalid request: %v"
      "ExtractFromHTTP must not return nil MatchResult (even for invalid)" rec
      (fun m => errorIf (negb (Confidence m =? MatchNone)) "invalid request should return MatchNone, got %d" rec)).
Definition check_http_idempotent : run_ := fun cfg rec =>
  withValid cfg rec (fun a r =>
    let x1 := ExtractFromHTTP a r in
    let x2 := ExtractFromHTTP a x1.1 in
    match x1.2, x2.2 with
    | Err _, _ | _, Err _ => Some (Fatalf "second ExtractFromHTTP call errored: %v / %v" rec)
    | Ok (Some m1), Ok (Some m2) =>
        Some (errorIf (negb (Confidence m1 =? Confidence m2))
          "ExtractFromHTTP not idempotent: first=%d second=%d" rec)
    | _, _ => None
    end).
Definition check_message_non_nil : run_ := fun cfg rec =>
  withAdapter cfg (fun a => reported (ExtractFromMessage a "{}") "ExtractFromMessage returned error: %v"
    "ExtractFromMessage must not return nil MatchResult" rec (fun _ => rec)).
Definition check_message_invalid : run_ := fun cfg rec =>
  withAdapter cfg (fun a => notNil (ExtractFromMessage a "not json") rec
    (fun m => errorIf (negb (Confidence m =? MatchNone)) "invalid JSON should return MatchNone, got %d" rec)).
Definition check_message_empty : run_ := fun cfg rec =>
  withAdapter cfg (fun a => notNil (ExtractFromMessage a "") rec
    (fun m => errorIf (negb (Confidence m =? MatchNone)) "nil input should return MatchNone, got %d" rec)).
Definition check_message_valid : run_ := fun cfg rec =>
  if negb (ExpectMessageSupport cfg) then Some (Skip "ExpectMessageSupport=false" rec) else
  match ValidMessagePayload cfg with
  | None => Some (Fatalf "ExpectMessageSupport=true but ValidMessagePayload not provided" rec)
  | Some msg => withAdapter cfg (fun a => deref (ExtractFromMessage a msg) (fun m =>
      Some (errorIf (isNone (mr_Request m)) "MatchResult.Request must not be nil when Confidence > MatchNone"
        (errorIf (Confidence m <=? MatchNone) "valid message should return confidence > MatchNone, got %d" rec))))
  end.
Definition check_error_status : run_ := fun cfg rec =>
  withAdapter cfg (fun a =>
    Some (errorIf (negb (w_Status (FormatError a "test_error" "test description" 403) =? 403))
      "FormatError status: got %d, want 403" rec)).
Definition check_error_body : run_ := fun cfg rec =>
  withAdapter cfg (fun a => Some (errorIf (isNone (w_Body (FormatError a "test_error" "description" 401)))
    "FormatError must write a non-empty response body" rec)).
Definition check_error_content_type : run_ := fun cfg rec =>
  withAdapter cfg (fun a => Some (errorIf (w_ContentType (FormatError a "err" "desc" 403) =? "")%string
    "FormatError must set Content-Type header" rec)).

(** [allChecks] *)
Definition allChecks : list (string * run_) :=
  [("Protocol/returns_non_empty", check_protocol_nonempty);
   ("Protocol/matches_expected", check_protocol_expected);
   ("ExtractFromHTTP/returns_non_nil", check_http_non_nil);
   ("ExtractFromHTTP/valid_request_above_none", check_http_above_none);
   ("ExtractFromHTTP/valid_request_has_request_struct", check_http_request);
   ("ExtractFromHTTP/valid_request_sets_protocol", check_http_protocol);
   ("ExtractFromHTTP/valid_request_has_transport_meta", check_http_meta);
   ("ExtractFromHTTP/invalid_request_returns_none", check_http_invalid);
   ("ExtractFromHTTP/idempotent_on_same_request", check_http_idempotent);
   ("ExtractFromMessage/returns_non_nil", check_message_non_nil);
   ("ExtractFromMessage/invalid_json_returns_none", check_message_invalid);
   ("ExtractFromMessage/empty_input_returns_none", check_message_empty);
   ("ExtractFromMessage/valid_payload_above_none", check_message_valid);
   ("FormatError/writes_status_code", check_error_status);
   ("FormatError/writes_non_empty_body", check_error_body);
   ("FormatError/sets_content_type", check_error_content_type)].

(** * The report *)

Record CheckResult : Type := {
  cr_Name : string;
  cr_Passed : bool;
  cr_Skipped : bool;
  cr_Detail : string;
}.
Record ConformanceReport : Type := {
  AdapterProtocol : string;
  Total : Z;
  Passed : Z;
  Failed : Z;
  Skipped : Z;
  Results : list CheckResult;
}.

Definition record (rp : ConformanceReport) (name : string) (rec : checkRecorder) : ConformanceReport :=
  {| AdapterProtocol := AdapterProtocol rp;
     Total := Total rp + 1;
     Passed := if skipped rec || failed rec then Passed rp else Passed rp + 1;
     Failed := if negb (skipped rec) && failed rec then Failed rp + 1 else Failed rp;
     Skipped := if skipped rec then Skipped rp + 1 else Skipped rp;
     Results := Results rp ++ [{| cr_Name := name; cr_Passed := negb (failed rec) && negb (skipped rec);
                                  cr_Skipped := skipped rec; cr_Detail := detail rec |}] |}.

Fixpoint runChecks (cfg : Config) (checks : list (string * run_)) (rp : ConformanceReport) : option ConformanceReport :=
  match checks with
  | [] => Some rp
  | (name, run) :: rest =>
      match run cfg fresh with
      | None => None
      | Some rec => runChecks cfg rest (record rp name rec)
      end
  end.

(** [RunReport] *)
Definition RunReport (cfg : Config) : option ConformanceReport :=
  runChecks cfg allChecks
    {| AdapterProtocol := match NewAdapter cfg with Some a => Protocol a | None => "" end;
       Total := 0; Passed := 0; Failed := 0; Skipped := 0; Results := [] |}.

(** [Assert]: the names of the checks it reports *)
Definition Assert (rp : ConformanceReport) : list string :=
  cr_Name <$> List.filter (fun c => negb (cr_Passed c) && negb (cr_Skipped c)) (Results rp).

(** * What a report says *)

(** The outcome of one check *)
Definition passes (cfg : Config) (c : string * run_) : bool :=
  match snd c cfg fresh with Some rec => skipped rec || negb (failed rec) | None => false end.

(** The counters of a report agree with its results, and [Assert] names the failures. *)
Record consistent (rp : ConformanceReport) : Prop := {
  co_total : Total rp = Z.of_nat (length (Results rp));
  co_sum : Total rp = Passed rp + Failed rp + Skipped rp;
  co_passed : Passed rp = Z.of_nat (length (List.filter cr_Passed (Results rp)));
  co_failed : Failed rp = Z.of_nat (length (Assert rp));
}.

Lemma record_consistent rp name rec : consistent rp -> consistent (record rp name rec).
Proof.
  intros [Ht Hs Hp Hf]. split; cbn; unfold Assert in *; cbn.
  - rewrite Ht, length_app. cbn. lia.
  - destruct (skipped rec), (failed rec); cbn; lia.
  - rewrite List.filter_app, length_app, Nat2Z.inj_add, <- Hp. cbn. destruct (skipped rec), (failed rec); cbn; lia.
  - rewrite List.filter_app, fmap_app, length_app, Nat2Z.inj_add, <- Hf. cbn.
    destruct (skipped rec), (failed rec); cbn; lia.
Qed.

Lemma runChecks_spec cfg checks rp :
  consistent rp ->
  match runChecks cfg checks rp with
  | Some rp' => consistent rp' /\ cr_Name <$> Results rp' = (cr_Name <$> Results rp) ++ checks.*1 /\
                Failed rp <= Failed rp' /\ (Failed rp' = Failed rp <-> forallb (passes cfg) checks = true)
  | None => forallb (passes cfg) checks = false
  end.
Proof.
  revert rp. induction checks as [|[name run] rest IH]; intros rp Hc; cbn.
  { rewrite app_nil_r. split; [done|]. split; [done|]. split; [lia|done]. }
  destruct (run cfg fresh) as [rec|] eqn:Hr; [|unfold passes at 1; cbn; by rewrite Hr].
  specialize (IH (record rp name rec) (record_consistent _ _ _ Hc)).
  assert (passes cfg (name, run) = skipped rec || negb (failed rec)) as -> by (unfold passes; cbn; by rewrite Hr).
  destruct (runChecks cfg rest _) as [rp'|]; [|by rewrite IH, andb_false_r].
  destruct IH as (H1 & H2 & H3 & H4). split; [done|]. split; [rewrite H2; cbn; by rewrite fmap_app, <- app_assoc|].
  cbn in H3, H4. destruct (skipped rec), (failed rec); cbn in *; (split; [lia|]); rewrite ?H4; try done.
  split; [lia|done].
Qed.

(** The report lists every check in order, its counters add up, and [Assert] fails the test for
    exactly as many checks as are counted as failed. *)
Lemma report_consistent cfg rp :
  RunReport cfg = Some rp ->
  cr_Name <$> Results rp = allChecks.*1 /\ Total rp = 16 /\ Total rp = Passed rp + Failed rp + Skipped rp /\
  Failed rp = Z.of_nat (length (Assert rp)).
Proof.
  intros Hr. unfold RunReport in Hr.
  match type of Hr with runChecks _ _ ?rp0 = _ => pose proof (runChecks_spec cfg allChecks rp0) as Hs end.
  rewrite Hr in Hs. destruct Hs as ([Ht Hsum _ Hf] & Hn & _); [by split|]. cbn in Hn.
  split; [exact Hn|]. split; [|done]. rewrite Ht, <- (length_fmap cr_Name), Hn. done.
Qed.

Lemma clean_report cfg :
  (exists rp, RunReport cfg = Some rp /\ Failed rp = 0) <-> forallb (passes cfg) allChecks = true.
Proof.
  unfold RunReport.
  match goal with |- context [runChecks _ _ ?rp0] => pose proof (runChecks_spec cfg allChecks rp0) as Hs end.
  destruct (runChecks _ _ _) as [rp|].
  - destruct Hs as (_ & _ & _ & H4); [by split|]. cbn [Failed] in H4. rewrite <- H4.
    split; [by intros (? & [= <-] & ?)|eauto].
  - rewrite Hs by (by split). split; [by intros (? & ? & _)|done].
Qed.

(** * What the suite tests *)

Record conforms (cfg : Config) (a : Adapter) : Prop := {
  cf_nonempty : Protocol a <> "";
  cf_expected : cf_Protocol cfg <> "" -> fst (ParseProtocol (Protocol a)) = fst (ParseProtocol (cf_Protocol cfg));
  cf_valid r : ValidHTTPRequest cfg = Some r ->
    exists r1 m1 tc r2 m2, ExtractFromHTTP a r = (r1, Ok (Some m1)) /\ MatchNone < Confidence m1 /\
      mr_Request m1 = Some tc /\ tr_Protocol (tc_call tc) <> "" /\ is_Some (tc_Meta tc) /\
      ExtractFromHTTP a r1 = (r2, Ok (Some m2)) /\ Confidence m2 = Confidence m1;
  cf_invalid : exists m, snd (ExtractFromHTTP a (default plainGET (InvalidHTTPRequest cfg))) = Ok (Some m) /\
    Confidence m = MatchNone;
  cf_message : exists m, ExtractFromMessage a "{}" = Ok (Some m);
  cf_garbage msg : msg = "not json" \/ msg = "" -> exists m, ExtractFromMessage a msg = Ok (Some m) /\
    Confidence m = MatchNone;
  cf_supported : ExpectMessageSupport cfg = true ->
    exists msg m, ValidMessagePayload cfg = Some msg /\ ExtractFromMessage a msg = Ok (Some m) /\
      MatchNone < Confidence m /\ is_Some (mr_Request m);
  cf_status : w_Status (FormatError a "test_error" "test description" 403) = 403;
  cf_body : is_Some (w_Body (FormatError a "test_error" "description" 401));
  cf_content_type : w_ContentType (FormatError a "err" "desc" 403) <> "";
}.

Definition fine (rec : option checkRecorder) : bool :=
  match rec with Some rec => skipped rec || negb (failed rec) | None => false end.

Lemma fine_errorIf c msg : fine (Some (errorIf c msg fresh)) = negb c.
Proof. by destruct c. Qed.

Lemma fine_reported x onErr onNil f :
  fine (reported x onErr onNil fresh f) = true <-> exists m, x = Ok (Some m) /\ fine (Some (f m)) = true.
Proof. destruct x as [[m|]|e]; cbn [reported]; split; naive_solver. Qed.

Lemma fine_notNil x f : fine (notNil x fresh f) = true <-> exists m, x = Ok (Some m) /\ fine (Some (f m)) = true.
Proof. destruct x as [[m|]|e]; cbn [notNil]; split; naive_solver. Qed.

Lemma fine_deref x f : fine (deref x f) = true <-> exists m, x = Ok (Some m) /\ fine (f m) = true.
Proof. destruct x as [[m|]|e]; cbn [deref]; split; naive_solver. Qed.

Section Exact.
Variable cfg : Config.
Variable a : Adapter.
Hypothesis Hnew : NewAdapter cfg = Some a.

Lemma fine_adapter f : fine (withAdapter cfg f) = fine (f a).
Proof using All. unfold withAdapter. by rewrite Hnew. Qed.

Lemma fine_valid f : fine (withValid cfg fresh f) = true <->
  forall r, ValidHTTPRequest cfg = Some r -> fine (f a r) = true.
Proof using All. unfold withValid. destruct (ValidHTTPRequest cfg); rewrite ?fine_adapter; naive_solver. Qed.

(** The six checks of a valid request together *)
Lemma valid_checks :
  fine (check_http_non_nil cfg fresh) = true /\ fine (check_http_above_none cfg fresh) = true /\
  fine (check_http_request cfg fresh) = true /\ fine (check_http_protocol cfg fresh) = true /\
  fine (check_http_meta cfg fresh) = true /\ fine (check_http_idempotent cfg fresh) = true <->
  forall r, ValidHTTPRequest cfg = Some r ->
    exists r1 m1 tc r2 m2, ExtractFromHTTP a r = (r1, Ok (Some m1)) /\ MatchNone < Confidence m1 /\
      mr_Request m1 = Some tc /\ tr_Protocol (tc_call tc) <> "" /\ is_Some (tc_Meta tc) /\
      ExtractFromHTTP a r1 = (r2, Ok (Some m2)) /\ Confidence m2 = Confidence m1.
Proof using All.
  unfold check_http_non_nil, check_http_above_none, check_http_request, check_http_protocol, check_http_meta,
    check_http_idempotent. rewrite !fine_valid. split.
  - intros (_ & H2 & H3 & H4 & H5 & H6) r Hr. specialize (H2 r Hr). specialize (H3 r Hr). specialize (H4 r Hr).
    specialize (H5 r Hr). specialize (H6 r Hr). cbv zeta in H6. destruct (ExtractFromHTTP a r) as [r1 x1]. cbn [fst snd] in *.
    apply fine_deref in H2 as (m & -> & H2). rewrite fine_errorIf in H2. cbn [deref] in *.
    apply negb_true_iff, Z.leb_gt in H2. unfold matched in *. rewrite (proj2 (Z.ltb_lt _ _) H2) in *.
    destruct (mr_Request m) as [tc|] eqn:Hm; [|by rewrite fine_errorIf in H3]. cbn [andb] in *.
    rewrite fine_errorIf in H4, H5. destruct (ExtractFromHTTP a r1) as [r2 [[m2|]|]] eqn:He2; cbn [snd] in *; [|done..].
    rewrite fine_errorIf, negb_involutive in H6. apply Z.eqb_eq in H6.
    exists r1, m, tc, r2, m2. split; [done|]. split; [done|]. split; [done|].
    split; [by apply negb_true_iff, String.eqb_neq in H4|].
    split; [destruct (tc_Meta tc); [by eexists|done]|]. done.
  - intros H. repeat split; intros r Hr; destruct (H r Hr) as (r1 & m1 & tc & r2 & m2 & -> & Hc & Ht & Hp & [mt Hmt] & He & Hs);
      cbn [fst snd deref reported]; rewrite ?Ht, ?fine_errorIf; cbn [isNone]; rewrite ?andb_false_r; try done.
    + apply negb_true_iff, Z.leb_gt. lia.
    + apply String.eqb_neq in Hp. by rewrite Hp, andb_false_r.
    + by rewrite Hmt, andb_false_r.
    + rewrite He. cbn. rewrite Hs, Z.eqb_refl. done.
Qed.

Lemma message_checks :
  fine (check_message_non_nil cfg fresh) = true /\ fine (check_message_invalid cfg fresh) = true /\
  fine (check_message_empty cfg fresh) = true <->
  (exists m, ExtractFromMessage a "{}" = Ok (Some m)) /\
  forall msg, msg = "not json" \/ msg = "" -> exists m, ExtractFromMessage a msg = Ok (Some m) /\ Confidence m = MatchNone.
Proof using All.
  unfold check_message_non_nil, check_message_invalid, check_message_empty.
  rewrite !fine_adapter, fine_reported, !fine_notNil.
  setoid_rewrite fine_errorIf. setoid_rewrite negb_involutive. setoid_rewrite Z.eqb_eq. split.
  - intros ((m & Hm & _) & H1 & H2). split; [eauto|]. intros msg [->| ->]; assumption.
  - intros ((m & Hm) & H). split; [eauto|]. split; apply H; auto.
Qed.

Lemma supported_check :
  fine (check_message_valid cfg fresh) = true <->
  (ExpectMessageSupport cfg = true -> exists msg m, ValidMessagePayload cfg = Some msg /\
     ExtractFromMessage a msg = Ok (Some m) /\ MatchNone < Confidence m /\ is_Some (mr_Request m)).
Proof using All.
  unfold check_message_valid. destruct (ExpectMessageSupport cfg); cbn [negb]; [|split; [done|reflexivity]].
  destruct (ValidMessagePayload cfg) as [msg|]; [|by split; [|intros H; destruct H as (? & ? & ? & _)]].
  rewrite fine_adapter, fine_deref. split.
  - intros (m & He & Hf) _. exists msg, m. split; [done|]. split; [done|].
    destruct (Z.leb_spec (Confidence m) MatchNone), (mr_Request m); cbn in Hf; done.
  - intros H. destruct H as (msg' & m & [= <-] & He & Hc & [tc Htc]); [done|]. exists m. split; [done|].
    rewrite Htc. cbn. rewrite (proj2 (Z.leb_gt _ _)); [done|lia].
Qed.

(** The suite reports no failure exactly for the adapters that conform to its configuration. *)
Lemma suite_exact_aux : forallb (passes cfg) allChecks = true <-> conforms cfg a.
Proof using All.
  change (forallb (passes cfg) allChecks) with (forallb (fun c => fine (snd c cfg fresh)) allChecks).
  cbn [forallb allChecks snd]. rewrite !andb_true_iff.
  pose proof valid_checks as Hv. pose proof message_checks as Hm. pose proof supported_check as Hs.
  assert (H1 : fine (check_protocol_nonempty cfg fresh) = true <-> Protocol a <> "").
  { unfold check_protocol_nonempty. by rewrite fine_adapter, fine_errorIf, negb_true_iff, String.eqb_neq. }
  assert (H2 : fine (check_protocol_expected cfg fresh) = true <->
    (cf_Protocol cfg <> "" -> fst (ParseProtocol (Protocol a)) = fst (ParseProtocol (cf_Protocol cfg)))).
  { unfold check_protocol_expected. destruct (String.eqb_spec (cf_Protocol cfg) ""); [split; [done|reflexivity]|].
    rewrite fine_adapter, fine_errorIf, negb_involutive, String.eqb_eq. naive_solver. }
  assert (H3 : fine (check_http_invalid cfg fresh) = true <->
    exists m, snd (ExtractFromHTTP a (default plainGET (InvalidHTTPRequest cfg))) = Ok (Some m) /\ Confidence m = MatchNone).
  { unfold check_http_invalid. rewrite fine_adapter, fine_reported. setoid_rewrite fine_errorIf.
    setoid_rewrite negb_involutive. by setoid_rewrite Z.eqb_eq. }
  assert (H4 : fine (check_error_status cfg fresh) = true <->
    w_Status (FormatError a "test_error" "test description" 403) = 403).
  { unfold check_error_status. by rewrite fine_adapter, fine_errorIf, negb_involutive, Z.eqb_eq. }
  assert (H5 : fine (check_error_body cfg fresh) = true <-> is_Some (w_Body (FormatError a "test_error" "description" 401))).
  { unfold check_error_body. rewrite fine_adapter, fine_errorIf. destruct (w_Body _); cbn; [split; eauto|].
    split; [done|by intros []]. }
  assert (H6 : fine (check_error_content_type cfg fresh) = true <-> w_ContentType (FormatError a "err" "desc" 403) <> "").
  { unfold check_error_content_type. by rewrite fine_adapter, fine_errorIf, negb_true_iff, String.eqb_neq. }
  rewrite H1, H2, H3, H4, H5, H6, Hs. split.
  - intros (P1 & P2 & V1 & V2 & V3 & V4 & V5 & P3 & V6 & M1 & M2 & M3 & P4 & P5 & P6 & P7 & _).
    destruct (proj1 Hm) as [Q1 Q2]; [done|]. split; try done. apply Hv. done.
  - intros [C1 C2 C3 C4 C5 C6 C7 C8 C9 C10]. apply Hv in C3 as (V1 & V2 & V3 & V4 & V5 & V6).
    destruct (proj2 Hm) as (M1 & M2 & M3); [by split|]. done.
Qed.
End Exact.

(** What the sixteen checks ask for, taken together. For a configuration that constructs an adapter the report exists
    and counts no failure exactly when the adapter names the expected protocol, recognises the valid request with a complete
    tool call and again the second time, does not recognise the invalid one nor garbage, supports messages where that
    is expected, and writes errors with their status, a body and a content type. Any confidence above [MatchNone] counts. *)
Lemma suite_exact cfg a :
  NewAdapter cfg = Some a ->
  ((exists rp, RunReport cfg = Some rp /\ Failed rp = 0) <-> conforms cfg a).
Proof. intros Hnew. rewrite clean_report. by apply suite_exact_aux. Qed.

(** Every adapter that keeps the contract passes, for requests and messages of its own. *)
Lemma lawful_passes cfg a `{!LawfulAdapter a} :
  NewAdapter cfg = Some a ->
  (cf_Protocol cfg <> "" -> fst (ParseProtocol (Protocol a)) = fst (ParseProtocol (cf_Protocol cfg))) ->
  (forall r r' m, ValidHTTPRequest cfg = Some r -> ExtractFromHTTP a r = (r', Ok (Some m)) -> MatchNone < Confidence m) ->
  (forall r m, InvalidHTTPRequest cfg = Some r -> snd (ExtractFromHTTP a r) = Ok (Some m) -> Confidence m = MatchNone) ->
  (ExpectMessageSupport cfg = true -> exists msg, ValidMessagePayload cfg = Some msg /\
     forall m, ExtractFromMessage a msg = Ok (Some m) -> MatchNone < Confidence m) ->
  exists rp, RunReport cfg = Some rp /\ Failed rp = 0 /\ Assert rp = [].
Proof.
  intros Hnew Hproto Hvalid Hinvalid Hmsg.
  assert (Hc : conforms cfg a).
  { split; try done; try apply law_error.
    - apply law_protocol.
    - intros r Hr. destruct (law_total r) as (r1 & m1 & He & _). pose proof (Hvalid _ _ _ Hr He) as Hpos.
      destruct (law_match _ _ _ He Hpos) as (tc & Htc & Htp & Hmeta). destruct (law_total r1) as (r2 & m2 & He2 & _).
      exists r1, m1, tc, r2, m2. rewrite Htp. split; [done|]. split; [done|]. split; [done|].
      split; [apply law_protocol|]. split; [done|]. split; [done|]. by eapply law_stable.
    - destruct (law_total (default plainGET (InvalidHTTPRequest cfg))) as (r1 & m & He & _). exists m.
      rewrite He. split; [done|]. destruct (InvalidHTTPRequest cfg) as [r|] eqn:Hi.
      + eapply Hinvalid; [done|]. cbn in He. by rewrite He.
      + eapply (law_plain plainGET); [done..|]. cbn [default] in He. by rewrite He.
    - destruct (law_message "{}") as (m & Hm & _). eauto.
    - intros msg Hg. destruct (law_message msg) as (m & Hm & _). exists m. split; [done|].
      eapply law_garbage; [|done]. by destruct Hg; [right|left].
    - intros He. destruct (Hmsg He) as (msg & Hp & Hpos). destruct (law_message msg) as (m & Hm & Hreq).
      exists msg, m. split; [done|]. split; [done|]. split; [by apply Hpos|]. by apply Hreq, Hpos. }
  apply (suite_exact_aux cfg a Hnew), clean_report in Hc as (rp & Hr & Hf). exists rp. split; [done|]. split; [done|].
  destruct (report_consistent cfg rp Hr) as (_ & _ & _ & Hl). rewrite Hf in Hl. by destruct (Assert rp).
Qed.

(** The generic adapter as its own tests configure the suite. *)
Definition demo_config : Config :=
  {| NewAdapter := Some (HTTP.NewHTTP [{| HTTP.PathPrefix := "/api"; HTTP.tm_ToolID := "api-tool" |}]);
     cf_Protocol := ProtocolHTTP;
     ValidHTTPRequest := Some {| rq_Method := "GET"; rq_Path := "/api/resource";
       rq_Header := fun h => if (h =? "Authorization")%string then "Bearer tok" else ""; rq_Body := Full "" |};
     InvalidHTTPRequest := Some {| rq_Method := "GET"; rq_Path := "/api/resource"; rq_Header := fun _ => "";
       rq_Body := Full "" |};
     ValidMessagePayload := None; ExpectMessageSupport := false |}.

Lemma suite_exact_witness :
  conforms demo_config (HTTP.NewHTTP [{| HTTP.PathPrefix := "/api"; HTTP.tm_ToolID := "api-tool" |}]).
Proof. apply suite_exact; [reflexivity|]. eexists. split; vm_compute; reflexivity. Defined.
End Conformance.
