(* ===== verification/Receiver.v ===== *)
(** The shared-signals receiver of [pkg/signals/receiver.go]: parsing of Security Event Tokens,
    deduplication by JTI, policy evaluation, and revocation of the subject. The receiver is
    written against the revocation index interface of [Core]. *)
From Stdlib Require Import ZArith QArith Lia.
From stdpp Require Import base gmap strings list.
From S2P Require Import Prelude.
From S2P Require Import GoLib.
From S2P Require Import JwtModel.
From S2P Require Import Core.
From S2P Require Import DPoP.
From S2P Require Import Revocation.

#[local] Open Scope Z_scope.
#[local] Open Scope string_scope.

Module Receiver.

Definition defaultJTITTL : Duration := (24 * Hour)%Z.
Definition jtiCleanupInterval : Z := 256.

Inductive RxErr : Type :=
| ErrUnknownIssuer (issuer why : string)
| ErrInvalidSET (why : string)
| ErrSignalDenied (reason : string)
| ErrDuplicateJTI (jti : string)
| ErrEvaluatingPolicy (err : string).

Inductive RxEffect : Type :=
| RxAudit (ev : AuditEvent RxErr)
| RxFlash (sig : Signal)
| RxOnSignal (eventType subject res : string).

(** The orders in which one call iterates over the event map: each loop picks its own. *)
Record Orders : Type := {
  ord_types : RangeOrder;
  ord_context : RangeOrder;
  ord_reason : RangeOrder;
  ord_flash : RangeOrder;
  ord_signal : RangeOrder;
}.

Definition keys_in (o : RangeOrder) {V} (m : gmap string V) : list string := @range_keys o V m.

Section Rx.
Context {I : Type} `{!RevocationIndex I}.
Context `{!JwtLib, !JwsLib}.
(** The key type of the resolver, [jwk.Import] of such a key, and the [kid] header. *)
Context {PubKey : Type}.
Variable import_key : PubKey -> option jwk_key.
Variable hdr_KeyID : jws_headers -> option string.

(** The part of [Receiver] that changes. *)
Record RxState : Type := {
  jtiSeen : gmap string Time;
  jtiWriteCount : Z;
  rx_index : option I;
  rx_tick : nat;
  rx_trace : list RxEffect;
}.

(** The part that is configured; a nil collaborator or callback is [None] or [false]. *)
Record Receiver : Type := {
  rx_jwksResolver : option (string -> string -> result string PubKey);
  rx_policy : option (PolicyInput -> result string PolicyDecision);
  rx_syncBus : option (Signal -> option string);
  rx_auditor : bool;
  rx_unitID : string;
  rx_devMode : bool;
  rx_revocationGrace : Duration;
  rx_onSignal : bool;
  rx_jtiTTL : Duration;
}.

Variable clock : nat -> Time.
Abbreviation Rx A := (M RxState RxErr A) (only parsing).

Definition rx_now : Rx Time := fun s =>
  ({| jtiSeen := jtiSeen s; jtiWriteCount := jtiWriteCount s; rx_index := rx_index s;
      rx_tick := S (rx_tick s); rx_trace := rx_trace s |}, Ok (clock (rx_tick s))).
Definition rx_emit (ef : RxEffect) : Rx unit := fun s =>
  ({| jtiSeen := jtiSeen s; jtiWriteCount := jtiWriteCount s; rx_index := rx_index s;
      rx_tick := rx_tick s; rx_trace := (rx_trace s ++ [ef])%list |}, Ok tt).

(** [audit] *)
Definition audit (rx : Receiver) (typ action subject target decision reason : string) : Rx unit :=
  if rx_auditor rx then
    rx_emit (RxAudit {| au_Type := typ; au_Action := action; au_Subject := subject;
                        au_Target := target; au_Decision := decision; au_Reason := RText reason;
                        au_Metadata := ∅; au_UnitID := rx_unitID rx |})
  else st_ret tt.

(** [exp, seen := rx.jtiSeen[jti]; seen && now.Before(exp)] *)
Definition seenRecently (now : Time) (jti : string) (seen : gmap string Time) : bool :=
  match seen !! jti with Some exp => Before now exp | None => false end.

(** [checkAndMarkJTI]: the body under the lock, at [now] *)
Definition markJTI (rx : Receiver) (now : Time) (jti : string) (seen : gmap string Time) (count : Z)
    : result RxErr (gmap string Time * Z) :=
  if seenRecently now jti seen
  then Err (ErrDuplicateJTI jti)
  else
    let seen1 := <[jti := (now + rx_jtiTTL rx)%Z]> seen in
    let count1 := (count + 1)%Z in
    if (jtiCleanupInterval <=? count1)%Z
    then Ok (purge (fun exp => After now exp) seen1, 0%Z)
    else Ok (seen1, count1).

Definition checkAndMarkJTI (rx : Receiver) (jti : string) : Rx unit :=
  if (rx_jtiTTL rx =? 0)%Z || (jti =? "")%string then st_ret tt else
  do now <- rx_now ;;
  fun s => match markJTI rx now jti (jtiSeen s) (jtiWriteCount s) with
           | Err e => (s, Err e)
           | Ok (seen, count) =>
               ({| jtiSeen := seen; jtiWriteCount := count; rx_index := rx_index s;
                   rx_tick := rx_tick s; rx_trace := rx_trace s |}, Ok tt)
           end.

(** [evaluatePolicy]: the input it builds *)
Definition policySubject (event : SecurityEvent) : string :=
  match ev_SubjectID event with
  | Some sid => if str_nonempty (si_SpiffeID sid) then si_SpiffeID sid
                else if str_nonempty (si_URI sid) then si_URI sid else ev_Issuer event
  | None => ev_Issuer event
  end.

(** The claims of the first event visited. *)
Definition firstEvent (o : RangeOrder) (event : SecurityEvent) : gmap string value :=
  match @range o _ (ev_Events event) with (_, claims) :: _ => claims | [] => ∅ end.

Definition policyInput (os : Orders) (now : option Time) (event : SecurityEvent) : PolicyInput :=
  {| pi_Action := "signal";
     pi_Subject := {| wi_ID := policySubject event; wi_TrustDomain := "";
                      wi_Attestation := (fun t => {| ae_Method := "ssf-event"; ae_Timestamp := t;
                                                     ae_NodeID := ""; ae_Namespace := "" |}) <$> now;
                      wi_Claims := ∅ |};
     pi_Target := ev_Audience event;
     pi_Context := firstEvent (ord_context os) event ∪
       (<["event_types" := VArr (VStr <$> keys_in (ord_types os) (ev_Events event))]>
       (<["jti" := VStr (ev_JTI event)]> ∅)) |}.

(** The subject and the reason of [handleRevocation] *)
Definition revocationSubject (event : SecurityEvent) : string :=
  match ev_SubjectID event with
  | Some sid => if str_nonempty (si_SpiffeID sid) then si_SpiffeID sid
                else if str_nonempty (si_URI sid) then si_URI sid else ""
  | None => ""
  end.
Definition revocationReason (os : Orders) (event : SecurityEvent) : string :=
  match keys_in (ord_reason os) (ev_Events event) with et :: _ => et | [] => "caep-event" end.

(** [handleRevocation] *)
Definition handleRevocation (rx : Receiver) (os : Orders) (event : SecurityEvent) : Rx unit := fun s =>
  match rx_index s with
  | None => (s, Ok tt)
  | Some idx =>
      let subjectID := revocationSubject event in
      if (subjectID =? "")%string then (s, Ok tt) else
      let reason := revocationReason os event in
      (do now <- rx_now ;;
       do now' <- rx_now ;;
       fun s1 =>
         match ri_Revoke now' subjectID reason (now + rx_revocationGrace rx)%Z idx with
         | Err _ => (s1, Ok tt)
         | Ok idx' =>
             audit rx "signal" "token_revoked" subjectID (ev_Issuer event) "allowed" reason
               {| jtiSeen := jtiSeen s1; jtiWriteCount := jtiWriteCount s1; rx_index := Some idx';
                  rx_tick := rx_tick s1; rx_trace := rx_trace s1 |}
         end) s
  end.

(** [decision.Claims["revoke_tokens"]] is the boolean true *)
Definition wantsRevocation (d : PolicyDecision) : bool :=
  match pd_Claims d !! "revoke_tokens" with
  | Some v => match as_bool v with Some b => b | None => false end
  | None => false
  end.

(** [evaluatePolicy]: the clock is read when the event has a subject *)
Definition evaluatePolicy (evaluate : PolicyInput -> result string PolicyDecision) (os : Orders)
    (event : SecurityEvent) : Rx PolicyDecision :=
  do now <- match ev_SubjectID event with
            | Some _ => do t <- rx_now ;; st_ret (Some t)
            | None => st_ret None
            end ;;
  match evaluate (policyInput os now event) with
  | Err err => st_fail (ErrEvaluatingPolicy err)
  | Ok decision => st_ret decision
  end.

Definition applyPolicy (rx : Receiver) (os : Orders) (event : SecurityEvent) : Rx unit :=
  match rx_policy rx with
  | None => st_ret tt
  | Some evaluate =>
      do decision <- evaluatePolicy evaluate os event ;;
      if negb (Allowed decision) then
        do _ <- audit rx "signal" "event_denied" (ev_JTI event) (ev_Issuer event) "denied"
                  (pd_Reason decision) ;;
        st_fail (ErrSignalDenied (pd_Reason decision))
      else if wantsRevocation decision then handleRevocation rx os event
      else st_ret tt
  end.

Definition propagate (rx : Receiver) (os : Orders) (event : SecurityEvent) : Rx unit :=
  match rx_syncBus rx with
  | None => st_ret tt
  | Some _ =>
      rx_emit (RxFlash {| sig_Type := "caep_signal"; sig_Source := rx_unitID rx; sig_Timestamp := 0;
        sig_Payload := <["jti" := VStr (ev_JTI event)]> (<["issuer" := VStr (ev_Issuer event)]>
          (<["event_types" := VArr (VStr <$> keys_in (ord_flash os) (ev_Events event))]>
          (<["action" := VStr "received"]> ∅))) |})
  end.

(** The callback gets the first event type and the URI, else the SPIFFE ID, of the subject. *)
Definition notifySubject (event : SecurityEvent) : string :=
  match ev_SubjectID event with
  | Some sid => if str_nonempty (si_URI sid) then si_URI sid
                else if str_nonempty (si_SpiffeID sid) then si_SpiffeID sid else ev_Issuer event
  | None => ev_Issuer event
  end.
Definition notify (rx : Receiver) (os : Orders) (event : SecurityEvent) : Rx unit :=
  if rx_onSignal rx then
    match keys_in (ord_signal os) (ev_Events event) with
    | et :: _ => rx_emit (RxOnSignal et (notifySubject event) "accepted")
    | [] => st_ret tt
    end
  else st_ret tt.

(** [ReceiveEvent]; a nil event is [None]. *)
Definition ReceiveEvent (rx : Receiver) (os : Orders) (event : option SecurityEvent) : Rx unit :=
  match event with
  | None => st_fail (ErrInvalidSET "nil event")
  | Some event =>
      if (size (ev_Events event) =? 0)%nat then st_fail (ErrInvalidSET "no events in SET") else
      do _ <- checkAndMarkJTI rx (ev_JTI event) ;;
      do _ <- applyPolicy rx os event ;;
      do _ <- propagate rx os event ;;
      do _ <- audit rx "signal" "event_received" (ev_JTI event) (ev_Issuer event) "allowed" "" ;;
      notify rx os event
  end.

(** [parseSET] outside dev mode: the token, verified under the key of its issuer *)
Definition verifySET (rx : Receiver) (rawSET : string) : Rx jwt_token :=
  match rx_jwksResolver rx with
  | None => st_fail (ErrInvalidSET "no JWKS resolver configured")
  | Some ResolveKey =>
  match jwt_ParseInsecure rawSET with
  | None => st_fail (ErrInvalidSET "parsing")
  | Some insecure =>
      let issuer := match jwt_Issuer insecure with Some i => i | None => "" end in
      if (issuer =? "")%string then st_fail (ErrInvalidSET "missing issuer") else
      match jws_Parse rawSET with
      | None => st_fail (ErrInvalidSET "parsing JWS")
      | Some [] => st_fail (ErrInvalidSET "no signatures")
      | Some (hdr :: _) =>
          let kid := match hdr_KeyID hdr with Some k => k | None => "" end in
          match ResolveKey issuer kid with
          | Err why => st_fail (ErrUnknownIssuer issuer why)
          | Ok pubKey =>
              match import_key pubKey with
              | None => st_fail (ErrInvalidSET "importing resolved key")
              | Some jwkKey =>
                  let alg := match hdr_Algorithm hdr with Some a => a | None => "" end in
                  do now <- rx_now ;;
                  match jwt_ParseWithKey alg jwkKey now rawSET with
                  | None => st_fail (ErrInvalidSET "signature verification failed")
                  | Some token => st_ret token
                  end
              end
          end
      end
  end
  end.

(** [parseSET]: the event built from the token *)
Definition subjectOf (m : gmap string value) : SubjectIdentifier :=
  let field k := match m !! k ≫= as_string with Some s => s | None => "" end in
  {| si_Format := field "format"; si_SpiffeID := field "spiffe_id"; si_Email := field "email";
     si_URI := field "uri" |}.
Definition eventOf (token : jwt_token) : SecurityEvent :=
  {| ev_Issuer := match jwt_Issuer token with Some i => i | None => "" end;
     ev_JTI := match jwt_JwtID token with Some j => j | None => "" end;
     ev_IssuedAt := Unix match jwt_IssuedAt token with Some t => t | None => 0%Z end;
     ev_Audience := match jwt_Audience token with Some (a :: _) => a | _ => "" end;
     ev_SubjectID := subjectOf <$> get_object token "sub_id";
     ev_Events := match get_object token "events" with
                  | Some events =>
                      (fun v => match as_object v with Some m => m | None => ∅ end) <$> events
                  | None => ∅
                  end;
     ev_TransactionID := match get_string token "txn" with Some t => t | None => "" end |}.

(** [parseSET] *)
Definition parseSET (rx : Receiver) (rawSET : string) : Rx SecurityEvent :=
  do token <- (if rx_devMode rx then
                 match jwt_ParseInsecure rawSET with
                 | None => st_fail (ErrInvalidSET "parsing")
                 | Some token => st_ret token
                 end
               else verifySET rx rawSET) ;;
  st_ret (eventOf token).

(** [ReceiveSET] *)
Definition ReceiveSET (rx : Receiver) (os : Orders) (rawSET : string) : Rx unit :=
  do event <- parseSET rx rawSET ;;
  ReceiveEvent rx os (Some event).

(** [ReceiverOption] and its constructors; a nil argument is [None] or [false]. *)
Inductive ReceiverOption : Type :=
| WithReceiverJWKS (r : option (string -> string -> result string PubKey))
| WithReceiverPolicy (p : option (PolicyInput -> result string PolicyDecision))
| WithReceiverSyncBus (bus : option (Signal -> option string)) (unitID : string)
| WithReceiverAuditor (a : bool)
| WithReceiverRevocation (idx : option I)
| WithReceiverDevMode (dev : bool)
| WithReceiverOnSignal (fn : bool)
| WithReceiverRevocationGrace (d : Duration)
| WithReceiverJTITTL (d : Duration).

Definition applyOption (rs : Receiver * RxState) (o : ReceiverOption) : Receiver * RxState :=
  let '(Build_Receiver r p b a u dev g fn ttl, s) := rs in
  match o with
  | WithReceiverJWKS r' => (Build_Receiver r' p b a u dev g fn ttl, s)
  | WithReceiverPolicy p' => (Build_Receiver r p' b a u dev g fn ttl, s)
  | WithReceiverSyncBus b' u' => (Build_Receiver r p b' a u' dev g fn ttl, s)
  | WithReceiverAuditor a' => (Build_Receiver r p b a' u dev g fn ttl, s)
  | WithReceiverRevocation idx =>
      (fst rs, {| jtiSeen := jtiSeen s; jtiWriteCount := jtiWriteCount s; rx_index := idx;
                  rx_tick := rx_tick s; rx_trace := rx_trace s |})
  | WithReceiverDevMode dev' => (Build_Receiver r p b a u dev' g fn ttl, s)
  | WithReceiverOnSignal fn' => (Build_Receiver r p b a u dev g fn' ttl, s)
  | WithReceiverRevocationGrace g' => (Build_Receiver r p b a u dev g' fn ttl, s)
  | WithReceiverJTITTL ttl' => (Build_Receiver r p b a u dev g fn ttl', s)
  end.

(** [NewReceiver] *)
Definition NewReceiver (opts : list ReceiverOption) : Receiver * RxState :=
  fold_left applyOption opts
    ({| rx_jwksResolver := None; rx_policy := None; rx_syncBus := None; rx_auditor := false;
        rx_unitID := ""; rx_devMode := false; rx_revocationGrace := (1 * Hour)%Z;
        rx_onSignal := false; rx_jtiTTL := defaultJTITTL |},
     {| jtiSeen := ∅; jtiWriteCount := 0; rx_index := None; rx_tick := 0; rx_trace := [] |}).

(** What a receiver can be asked to do. *)
Inductive Call : Type :=
| CallEvent (os : Orders) (event : option SecurityEvent)
| CallSET (os : Orders) (rawSET : string).
Definition call (rx : Receiver) (c : Call) : Rx unit :=
  match c with
  | CallEvent os event => ReceiveEvent rx os event
  | CallSET os rawSET => ReceiveSET rx os rawSET
  end.
Fixpoint calls (rx : Receiver) (cs : list Call) (s : RxState) : RxState :=
  match cs with
  | [] => s
  | c :: cs' => calls rx cs' (fst (call rx c s))
  end.

(** The rest of [ReceiveEvent] after the JTI was accepted, and after the policy. *)
Definition finish (rx : Receiver) (os : Orders) (event : SecurityEvent) : Rx unit :=
  do _ <- propagate rx os event ;;
  do _ <- audit rx "signal" "event_received" (ev_JTI event) (ev_Issuer event) "allowed" "" ;;
  notify rx os event.
Definition afterCheck (rx : Receiver) (os : Orders) (event : SecurityEvent) : Rx unit :=
  do _ <- applyPolicy rx os event ;; finish rx os event.

(** * State relations that every call respects *)

Section Respects.
Context (R : RxState -> RxState -> Prop) `{!Reflexive R, !Transitive R}.
Variable rx : Receiver.
Hypothesis R_now : respects R rx_now.
Hypothesis R_emit : forall ef, respects R (rx_emit ef).
Hypothesis R_check : forall jti, respects R (checkAndMarkJTI rx jti).
Hypothesis R_revoke : forall os event, respects R (handleRevocation rx os event).

Ltac stage :=
  repeat first
    [ apply respects_ret; apply _ | apply respects_fail; apply _ | done | apply R_emit
    | apply R_revoke | apply respects_bind; [apply _| |intros ?] | case_match ].

Lemma finish_respects os event : respects R (finish rx os event).
Proof using Reflexive0 Transitive0 R_emit. unfold finish, propagate, audit, notify. stage. Qed.
Lemma afterCheck_respects os event : respects R (afterCheck rx os event).
Proof using Reflexive0 Transitive0 R_now R_emit R_revoke.
  unfold afterCheck. apply respects_bind; [apply _| |intros _; apply finish_respects].
  unfold applyPolicy, evaluatePolicy, audit. stage.
Qed.
Lemma ReceiveEvent_respects os event : respects R (ReceiveEvent rx os event).
Proof using All.
  destruct event as [event|]; [|apply respects_fail; apply _]. unfold ReceiveEvent.
  case_match; [apply respects_fail; apply _|].
  apply respects_bind; [apply _|apply R_check|intros _; apply afterCheck_respects].
Qed.
Lemma call_respects c : respects R (call rx c).
Proof using All.
  destruct c as [os event|os raw]; [apply ReceiveEvent_respects|]. cbn. unfold ReceiveSET, parseSET, verifySET.
  repeat first [apply ReceiveEvent_respects | progress stage].
Qed.
Lemma calls_respects cs s : R s (calls rx cs s).
Proof using All.
  revert s. induction cs as [|c cs IH]; intros s; cbn; [reflexivity|].
  etrans; [apply call_respects|apply IH].
Qed.
End Respects.

(** * Deduplication *)

(** Readings of the clock do not go back. *)
Definition monotone : Prop := forall m n, (m <= n)%nat -> (clock m <= clock n)%Z.

(** A JTI is refused until [x]. *)
Definition blocked (x : Time) (jti : string) (s : RxState) : Prop :=
  (clock (rx_tick s) < x)%Z -> exists exp, jtiSeen s !! jti = Some exp /\ (x <= exp)%Z.
Definition keeps_blocked (s s' : RxState) : Prop := forall x jti, blocked x jti s -> blocked x jti s'.

Lemma blocked_frame x jti s s' : monotone ->
  jtiSeen s' = jtiSeen s -> (rx_tick s <= rx_tick s')%nat -> blocked x jti s -> blocked x jti s'.
Proof.
  unfold blocked. intros Hm -> Ht Hb Hx. apply Hb. pose proof (Hm _ _ Ht). lia.
Qed.

Lemma blocked_mark rx jti : monotone -> respects keeps_blocked (checkAndMarkJTI rx jti).
Proof.
  intros Hm s x j Hb. unfold checkAndMarkJTI. case_match; [done|]. cbn.
  pose proof (Hm (rx_tick s) (S (rx_tick s)) ltac:(lia)) as Ht. unfold markJTI.
  assert (Hnew : jti = j -> (clock (rx_tick s) < x)%Z ->
    seenRecently (clock (rx_tick s)) jti (jtiSeen s) = true).
  { intros -> Hx. unfold seenRecently. destruct (Hb Hx) as (exp & -> & ?). unfold Before. lia. }
  destruct (seenRecently _ jti _) eqn:E.
  { by apply (blocked_frame _ _ s); [|..|cbn; lia|]. }
  assert (Hins : (clock (S (rx_tick s)) < x)%Z -> exists exp,
    <[jti := (clock (rx_tick s) + rx_jtiTTL rx)%Z]> (jtiSeen s) !! j = Some exp /\ (x <= exp)%Z).
  { intros Hx. assert (Hx' : (clock (rx_tick s) < x)%Z) by lia.
    destruct (decide (jti = j)) as [Heq|Hne]; [by specialize (Hnew Heq Hx')|].
    rewrite lookup_insert_ne by done. apply (Hb Hx'). }
  destruct (jtiCleanupInterval <=? _)%Z; unfold blocked; cbn; [|exact Hins].
  intros Hx. destruct (Hins Hx) as (exp & Hl & Hle). exists exp. split; [|done].
  apply lookup_purge. split; [done|]. unfold After. lia.
Qed.

Lemma blocked_revoke rx os event : monotone -> respects keeps_blocked (handleRevocation rx os event).
Proof.
  intros Hm s x j Hb. unfold handleRevocation. destruct (rx_index s) as [idx|]; [|done].
  case_match; [done|]. cbn. case_match; [|by apply (blocked_frame _ _ s); [|..|cbn; lia|]].
  unfold audit. case_match; (by apply (blocked_frame _ _ s); [|..|cbn; lia|]).
Qed.

#[local] Instance keeps_blocked_refl : Reflexive keeps_blocked.
Proof. intros s x j. done. Qed.
#[local] Instance keeps_blocked_trans : Transitive keeps_blocked.
Proof. intros a b c H1 H2 x j Hx. by apply H2, H1. Qed.

Lemma blocked_now : monotone -> respects keeps_blocked rx_now.
Proof. intros Hm s x j Hb. by apply (blocked_frame _ _ s); [|..|cbn; lia|]. Qed.
Lemma blocked_emit ef : monotone -> respects keeps_blocked (rx_emit ef).
Proof. intros Hm s x j Hb. by apply (blocked_frame _ _ s); [|..|cbn; lia|]. Qed.
#[local] Hint Resolve blocked_now blocked_emit blocked_mark blocked_revoke : go.

(** A JTI that was marked is blocked for the whole TTL. *)
Lemma mark_blocks rx jti s s' : (0 < rx_jtiTTL rx)%Z -> jti <> "" ->
  checkAndMarkJTI rx jti s = (s', Ok tt) -> blocked (clock (rx_tick s) + rx_jtiTTL rx)%Z jti s'.
Proof.
  intros Httl Hj. unfold checkAndMarkJTI.
  destruct (Z.eqb_spec (rx_jtiTTL rx) 0); [lia|]. apply String.eqb_neq in Hj. rewrite Hj. cbn.
  unfold markJTI. destruct (seenRecently _ jti _); [discriminate|].
  destruct (jtiCleanupInterval <=? _)%Z; intros [= <-] _; cbn; eexists; (split; [|reflexivity]).
  - apply lookup_purge. rewrite lookup_insert_eq. split; [done|]. unfold After. lia.
  - apply lookup_insert_eq.
Qed.

Lemma ReceiveEvent_unfold rx os event : ev_Events event <> ∅ ->
  ReceiveEvent rx os (Some event) =
  (do _ <- checkAndMarkJTI rx (ev_JTI event) ;; afterCheck rx os event).
Proof.
  intros Hev. unfold ReceiveEvent. destruct (Nat.eqb_spec (size (ev_Events event)) 0) as [Hs|]; [|done].
  by apply map_size_empty_inv in Hs.
Qed.

Lemma checkAndMarkJTI_err rx jti s s' e : checkAndMarkJTI rx jti s = (s', Err e) -> e = ErrDuplicateJTI jti.
Proof.
  unfold checkAndMarkJTI. case_match; [discriminate|]. cbn. unfold markJTI.
  destruct (seenRecently _ jti _); [by intros [= _ <-]|]. by destruct (jtiCleanupInterval <=? _)%Z.
Qed.

Lemma blocked_refused rx jti x s : (0 < rx_jtiTTL rx)%Z -> jti <> "" ->
  blocked x jti s -> (clock (rx_tick s) < x)%Z ->
  checkAndMarkJTI rx jti s = (fst (rx_now s), Err (ErrDuplicateJTI jti)).
Proof.
  intros Httl Hj Hb Hx. destruct (Hb Hx) as (exp & Hl & Hle). unfold checkAndMarkJTI.
  destruct (Z.eqb_spec (rx_jtiTTL rx) 0); [lia|]. apply String.eqb_neq in Hj. rewrite Hj. cbn.
  unfold markJTI, seenRecently. rewrite Hl. unfold Before.
  by destruct (Z.ltb_spec (clock (rx_tick s)) exp); [|lia].
Qed.

(** C6: A delivered event is not processed twice. Once an event was taken in, whatever became of
    it (also when the policy refused it or could not be evaluated) and whatever the receiver was
    asked to do since, another event with its JTI is refused as a duplicate for the whole TTL,
    and the refusal changes nothing but the reading of the clock. *)
Theorem receiver_rejects_replay rx os event s s1 r cs os' event' :
  monotone -> (0 < rx_jtiTTL rx)%Z -> ev_JTI event <> "" -> ev_Events event <> ∅ ->
  ReceiveEvent rx os (Some event) s = (s1, r) -> r <> Err (ErrDuplicateJTI (ev_JTI event)) ->
  ev_JTI event' = ev_JTI event -> ev_Events event' <> ∅ ->
  (clock (rx_tick (calls rx cs s1)) < clock (rx_tick s) + rx_jtiTTL rx)%Z ->
  ReceiveEvent rx os' (Some event') (calls rx cs s1)
  = (fst (rx_now (calls rx cs s1)), Err (ErrDuplicateJTI (ev_JTI event))).
Proof.
  intros Hm Httl Hj Hev Hr Hnd Hj' Hev' Hx. rewrite ReceiveEvent_unfold in Hr by done.
  unfold st_bind in Hr. destruct (checkAndMarkJTI _ _ s) as [s0 [[]|e]] eqn:Hc; cycle 1.
  { injection Hr as <- <-. by apply checkAndMarkJTI_err in Hc as ->. }
  assert (Hb : blocked (clock (rx_tick s) + rx_jtiTTL rx)%Z (ev_JTI event) (calls rx cs s1)).
  { apply (calls_respects keeps_blocked rx); auto with go.
    replace s1 with (fst (afterCheck rx os event s0)) by by rewrite Hr.
    apply (afterCheck_respects keeps_blocked rx); auto with go. by eapply mark_blocks. }
  rewrite ReceiveEvent_unfold by done. rewrite Hj'. unfold st_bind.
  by erewrite blocked_refused.
Qed.

(** * Revocation *)

Definition ticks (s s' : RxState) : Prop := (rx_tick s <= rx_tick s')%nat.
#[local] Instance ticks_refl : Reflexive ticks.
Proof. intros s. unfold ticks. lia. Qed.
#[local] Instance ticks_trans : Transitive ticks.
Proof. unfold ticks. intros a b c. lia. Qed.

(** The index reports the subject at every time up to [x]. *)
Definition revoked_until (x : Time) (sub : string) (s : RxState) : Prop :=
  exists idx, rx_index s = Some idx /\
    forall t, (t <= x)%Z -> exists entry, ri_IsRevoked t sub idx = Ok (Some entry).
Definition keeps_revoked (rx : Receiver) (s s' : RxState) : Prop :=
  ticks s s' /\ forall sub x, (x <= clock (rx_tick s) + rx_revocationGrace rx)%Z ->
    revoked_until x sub s -> revoked_until x sub s'.

(** [handleRevocation] with an index and a subject. *)
Lemma handleRevocation_spec rx os event s idx :
  rx_index s = Some idx -> revocationSubject event <> "" ->
  exists idx' s', handleRevocation rx os event s = (s', Ok tt) /\ rx_index s' = Some idx' /\
    rx_tick s' = S (S (rx_tick s)) /\
    ri_Revoke (clock (S (rx_tick s))) (revocationSubject event) (revocationReason os event)
      (clock (rx_tick s) + rx_revocationGrace rx)%Z idx = Ok idx'.
Proof.
  intros Hi Hs. unfold handleRevocation. rewrite Hi. pose proof Hs as Hs'.
  apply String.eqb_neq in Hs' as ->. cbn.
  destruct (ri_revoke_accepts (clock (S (rx_tick s))) _ (revocationReason os event)
    (clock (rx_tick s) + rx_revocationGrace rx)%Z idx Hs) as [idx' Hr].
  rewrite Hr. unfold audit. destruct (rx_auditor rx); repeat eexists.
Qed.

Lemma handleRevocation_none rx os event s :
  rx_index s = None \/ revocationSubject event = "" -> handleRevocation rx os event s = (s, Ok tt).
Proof.
  unfold handleRevocation. intros [->| ->]; [done|]. by destruct (rx_index s).
Qed.

Lemma revocation_cases (s : RxState) event :
  (rx_index s = None \/ revocationSubject event = "") \/
  exists idx, rx_index s = Some idx /\ revocationSubject event <> "".
Proof.
  destruct (rx_index s) as [idx|]; [|by left; left].
  destruct (decide (revocationSubject event = "")); [by left; right|eauto].
Qed.

Lemma revoke_until_hit now sub reason x idx idx' s :
  ri_Revoke now sub reason x idx = Ok idx' -> rx_index s = Some idx' -> revoked_until x sub s.
Proof.
  intros Hr Hi. exists idx'. split; [done|]. intros t Ht.
  destruct (ri_revoke_hit _ _ _ _ _ _ t Hr (or_intror Ht)) as (en & Hen & _). eauto.
Qed.

Lemma revoked_weaken x y sub s : (y <= x)%Z -> revoked_until x sub s -> revoked_until y sub s.
Proof. intros Hy (idx & Hi & Hr). exists idx. split; [done|]. intros t Ht. apply Hr. lia. Qed.

Lemma revoked_revoke rx os event : respects (keeps_revoked rx) (handleRevocation rx os event).
Proof.
  intros s. destruct (revocation_cases s event) as [Hn|(idx & Hi & Hs)].
  { rewrite handleRevocation_none by done. split; [apply ticks_refl|done]. }
  destruct (handleRevocation_spec rx os event s idx Hi Hs) as (idx' & s' & -> & Hi' & Ht & Hr).
  split; [unfold ticks; cbn; lia|]. cbn. intros sub x Hx Hrev.
  destruct (decide (sub = revocationSubject event)) as [->|Hne].
  - eapply revoked_weaken; [exact Hx|]. by eapply revoke_until_hit.
  - destruct Hrev as (idx0 & Hi0 & Hrev). assert (idx0 = idx) as -> by congruence.
    exists idx'. split; [done|]. intros t Htx.
    rewrite (ri_revoke_frame _ _ _ _ _ _ _ t Hr) by congruence. by apply Hrev.
Qed.

Lemma revoked_frame rx s s' : ticks s s' -> rx_index s' = rx_index s -> keeps_revoked rx s s'.
Proof.
  intros Ht Hi. split; [done|]. intros sub x _ (idx & Hx & Hr). exists idx. by rewrite Hi.
Qed.
Lemma revoked_now rx : respects (keeps_revoked rx) rx_now.
Proof. intros s. apply revoked_frame; [unfold ticks; cbn; lia|done]. Qed.
Lemma revoked_emit rx ef : respects (keeps_revoked rx) (rx_emit ef).
Proof. intros s. apply revoked_frame; [unfold ticks; cbn; lia|done]. Qed.
Lemma check_index rx jti s : ticks s (fst (checkAndMarkJTI rx jti s)) /\
  rx_index (fst (checkAndMarkJTI rx jti s)) = rx_index s /\
  rx_trace (fst (checkAndMarkJTI rx jti s)) = rx_trace s.
Proof.
  unfold checkAndMarkJTI. case_match; [by split; [apply ticks_refl|]|]. cbn. unfold markJTI.
  destruct (seenRecently _ jti _); [|destruct (jtiCleanupInterval <=? _)%Z];
    (split; [unfold ticks; cbn; lia|done]).
Qed.
Lemma revoked_check rx jti : respects (keeps_revoked rx) (checkAndMarkJTI rx jti).
Proof. intros s. destruct (check_index rx jti s) as (? & ? & _). by apply revoked_frame. Qed.
#[local] Hint Resolve revoked_now revoked_emit revoked_check revoked_revoke : go.

#[local] Instance keeps_revoked_refl rx : Reflexive (keeps_revoked rx).
Proof. intros s. split; [apply ticks_refl|done]. Qed.
Lemma keeps_revoked_trans rx : monotone -> Transitive (keeps_revoked rx).
Proof.
  intros Hm a b c [T1 H1] [T2 H2]. split; [by etrans|]. intros sub x Hx Hr.
  apply H2; [|by apply H1]. pose proof (Hm _ _ T1). lia.
Qed.

Lemma evaluatePolicy_rx_ok evaluate os event s s' d :
  evaluatePolicy evaluate os event s = (s', Ok d) ->
  ticks s s' /\ rx_index s' = rx_index s /\ rx_trace s' = rx_trace s /\
  exists now, evaluate (policyInput os now event) = Ok d.
Proof.
  unfold evaluatePolicy, ticks. intros (s1 & now & Hn & He)%st_bind_ok.
  destruct (evaluate _) eqn:Hd; [|done]. injection He as <- <-.
  destruct (ev_SubjectID event); [|injection Hn as <- <-; eauto].
  injection Hn as <- <-. cbn. eauto 6.
Qed.

(** What happened before a successful event was announced. *)
Lemma ReceiveEvent_ok rx os event s s' :
  ReceiveEvent rx os (Some event) s = (s', Ok tt) -> ev_Events event <> ∅ ->
  exists s0 s1, checkAndMarkJTI rx (ev_JTI event) s = (s0, Ok tt) /\
    applyPolicy rx os event s0 = (s1, Ok tt) /\ finish rx os event s1 = (s', Ok tt).
Proof.
  intros Hr Hev. rewrite ReceiveEvent_unfold in Hr by done.
  apply st_bind_ok in Hr as (s0 & [] & Hc & Hr). apply st_bind_ok in Hr as (s1 & [] & Hp & Hf). eauto.
Qed.

(** When an event with a subject is accepted under a policy that orders revocation for it, then
    after any further calls the index still reports the subject up to the end of the grace
    period, counted from a reading of the clock during the call. *)
Lemma ReceiveEvent_revokes rx os event s s' evaluate idx :
  monotone -> ReceiveEvent rx os (Some event) s = (s', Ok tt) ->
  rx_policy rx = Some evaluate ->
  (forall now d, evaluate (policyInput os now event) = Ok d -> wantsRevocation d = true) ->
  rx_index s = Some idx -> revocationSubject event <> "" ->
  exists n, (rx_tick s <= n < rx_tick s')%nat /\ forall cs,
    revoked_until (clock n + rx_revocationGrace rx)%Z (revocationSubject event) (calls rx cs s').
Proof.
  intros Hm Hr Hpol Hw Hi Hs. pose proof (keeps_revoked_trans rx Hm) as Htr.
  assert (Hev : ev_Events event <> ∅)
    by (intros He; unfold ReceiveEvent in Hr; rewrite He in Hr; discriminate).
  destruct (ReceiveEvent_ok _ _ _ _ _ Hr Hev) as (s0 & s1 & Hc & Hp & Hf).
  destruct (check_index rx (ev_JTI event) s) as (Ht0 & Hi0 & _). rewrite Hc in Ht0, Hi0. cbn in *.
  unfold applyPolicy in Hp. rewrite Hpol in Hp. apply st_bind_ok in Hp as (s2 & d & He & Hp).
  apply evaluatePolicy_rx_ok in He as (Ht2 & Hi2 & _ & now & He). rewrite (Hw _ _ He) in Hp.
  destruct (Allowed d); cbn [negb] in Hp; cycle 1.
  { apply st_bind_ok in Hp as (? & ? & _ & ?). discriminate. }
  destruct (handleRevocation_spec rx os event s2 idx) as (idx' & s3 & Hh & Hi3 & Ht3 & Hrv);
    [congruence|done|]. rewrite Hh in Hp. injection Hp as <-.
  assert (Hk : keeps_revoked rx s3 s').
  { replace s' with (fst (finish rx os event s3)) by by rewrite Hf. apply finish_respects; auto with go typeclass_instances. }
  exists (rx_tick s2). unfold ticks in *. split; [destruct Hk as [? _]; unfold ticks in *; lia|]. intros cs.
  pose proof (Hm (rx_tick s2) (rx_tick s3) ltac:(lia)).
  assert (Hcalls : keeps_revoked rx s3 (calls rx cs s')).
  { etrans; [exact Hk|]. apply calls_respects; auto with go typeclass_instances. }
  apply Hcalls; [lia|]. by eapply revoke_until_hit.
Qed.

(** [finish] and [handleRevocation] cannot fail. *)
Lemma finish_ok rx os event s : exists s', finish rx os event s = (s', Ok tt).
Proof.
  unfold finish, propagate, audit, notify, st_bind.
  destruct (rx_syncBus rx), (rx_auditor rx), (rx_onSignal rx), (keys_in (ord_signal os) (ev_Events event));
    cbn; eauto.
Qed.
Lemma handleRevocation_ok rx os event s : exists s', handleRevocation rx os event s = (s', Ok tt).
Proof.
  destruct (revocation_cases s event) as [Hn|(idx & Hi & Hs)].
  - rewrite handleRevocation_none by done. eauto.
  - destruct (handleRevocation_spec rx os event s idx Hi Hs) as (? & ? & ? & _). eauto.
Qed.

(** An event whose JTI was not seen recently and that the policy allows is accepted. *)
Lemma ReceiveEvent_accepts rx os event s evaluate :
  ev_Events event <> ∅ -> seenRecently (clock (rx_tick s)) (ev_JTI event) (jtiSeen s) = false ->
  rx_policy rx = Some evaluate ->
  (forall now, exists d, evaluate (policyInput os now event) = Ok d /\ Allowed d = true) ->
  exists s', ReceiveEvent rx os (Some event) s = (s', Ok tt).
Proof.
  intros Hev Hj Hpol Hal. rewrite ReceiveEvent_unfold by done. unfold st_bind at 1.
  assert (Hc : exists s0, checkAndMarkJTI rx (ev_JTI event) s = (s0, Ok tt)).
  { unfold checkAndMarkJTI. case_match; [by eexists|]. cbn. unfold markJTI. rewrite Hj.
    destruct (jtiCleanupInterval <=? _)%Z; by eexists. }
  destruct Hc as [s0 ->]. unfold afterCheck, applyPolicy. rewrite Hpol.
  assert (Hp : exists s1 d, evaluatePolicy evaluate os event s0 = (s1, Ok d) /\ Allowed d = true).
  { unfold evaluatePolicy, st_bind. destruct (ev_SubjectID event); cbn.
    - destruct (Hal (Some (clock (rx_tick s0)))) as (d & -> & ?). by repeat eexists.
    - destruct (Hal None) as (d & -> & ?). by repeat eexists. }
  destruct Hp as (s1 & d & Hd & Ha). unfold st_bind. rewrite Hd, Ha. cbn [negb].
  destruct (wantsRevocation d); [|apply finish_ok].
  destruct (handleRevocation_ok rx os event s1) as [s2 ->]. apply finish_ok.
Qed.

Definition same_index (s s' : RxState) : Prop := rx_index s' = rx_index s.
#[local] Instance same_index_refl : Reflexive same_index.
Proof. done. Qed.
#[local] Instance same_index_trans : Transitive same_index.
Proof. unfold same_index. intros a b c. congruence. Qed.

Lemma finish_index rx os event s : rx_index (fst (finish rx os event s)) = rx_index s.
Proof. by apply (finish_respects same_index rx); [apply _..|intros ef ?]. Qed.

(** The audit records a failed event leaves. *)
Definition denialRecord (rx : Receiver) (event : SecurityEvent) (e : RxErr) : list RxEffect :=
  match e with
  | ErrSignalDenied reason =>
      if rx_auditor rx then
        [RxAudit {| au_Type := "signal"; au_Action := "event_denied"; au_Subject := ev_JTI event;
                    au_Target := ev_Issuer event; au_Decision := "denied"; au_Reason := RText reason;
                    au_Metadata := ∅; au_UnitID := rx_unitID rx |}]
      else []
  | _ => []
  end.

Lemma applyPolicy_err rx os event s s' e : applyPolicy rx os event s = (s', Err e) ->
  rx_index s' = rx_index s /\ rx_trace s' = (rx_trace s ++ denialRecord rx event e)%list.
Proof.
  unfold applyPolicy. destruct (rx_policy rx) as [evaluate|]; [|discriminate].
  intros [Hp|(s1 & d & He & Hp)]%st_bind_err.
  - unfold evaluatePolicy, st_bind in Hp.
    destruct (ev_SubjectID event); cbn in Hp; destruct (evaluate _); try discriminate;
      injection Hp as <- <-; cbn; by rewrite app_nil_r.
  - apply evaluatePolicy_rx_ok in He as (_ & Hi & Htr & _). rewrite <- Hi, <- Htr.
    destruct (Allowed d); cbn [negb] in Hp.
    + destruct (wantsRevocation d); [|discriminate].
      destruct (handleRevocation_ok rx os event s1) as [? Hh]. congruence.
    + unfold audit, st_bind in Hp.
      destruct (rx_auditor rx) eqn:Ha; injection Hp as <- <-; cbn; rewrite Ha; [done|].
      by rewrite app_nil_r.
Qed.

Lemma ReceiveEvent_err rx os event s s' e :
  ReceiveEvent rx os (Some event) s = (s', Err e) ->
  rx_index s' = rx_index s /\ rx_trace s' = (rx_trace s ++ denialRecord rx event e)%list.
Proof.
  destruct (decide (ev_Events event = ∅)) as [Hev|Hev].
  { unfold ReceiveEvent. rewrite Hev. intros [= <- <-]. by rewrite app_nil_r. }
  rewrite ReceiveEvent_unfold by done. destruct (check_index rx (ev_JTI event) s) as (_ & Hi & Ht).
  intros [Hc|(s0 & [] & Hc & Ha)]%st_bind_err; rewrite Hc in Hi, Ht; cbn in Hi, Ht.
  - apply checkAndMarkJTI_err in Hc as ->. cbn. by rewrite app_nil_r.
  - rewrite <- Hi, <- Ht. apply st_bind_err in Ha as [Hp|(s1 & [] & _ & Hf)].
    + by eapply applyPolicy_err.
    + destruct (finish_ok rx os event s1) as [? ?]. congruence.
Qed.

(** The receiver only revokes what its policy ordered. If a call changes the index, the event
    was accepted, the policy allowed it and ordered revocation, and only the answer for the
    event's own subject may have changed. An event that ends in an error changes nothing in the
    index, is not propagated and runs no callback: the only record is the audited denial when
    the policy refused it. *)
Theorem receiver_revokes_only_when_ordered rx os event s s' r :
  ReceiveEvent rx os (Some event) s = (s', r) ->
  (forall e, r = Err e -> rx_index s' = rx_index s /\
     rx_trace s' = (rx_trace s ++ denialRecord rx event e)%list) /\
  (rx_index s' = rx_index s \/
  r = Ok tt /\ exists evaluate now d idx idx',
    rx_policy rx = Some evaluate /\ evaluate (policyInput os now event) = Ok d /\
    Allowed d = true /\ wantsRevocation d = true /\
    rx_index s = Some idx /\ rx_index s' = Some idx' /\
    forall sub t, sub <> revocationSubject event -> ri_IsRevoked t sub idx' = ri_IsRevoked t sub idx).
Proof.
  destruct r as [[]|e]; intros Hr; cycle 1.
  { apply ReceiveEvent_err in Hr as Hi. split; [by intros ? [= <-]|by left; destruct Hi]. }
  split; [done|].
  assert (Hev : ev_Events event <> ∅)
    by (intros He; unfold ReceiveEvent in Hr; rewrite He in Hr; discriminate).
  destruct (ReceiveEvent_ok _ _ _ _ _ Hr Hev) as (s0 & s1 & Hc & Hp & Hf).
  destruct (check_index rx (ev_JTI event) s) as (_ & Hi0 & _). rewrite Hc in Hi0. cbn in Hi0.
  assert (Hif : rx_index s' = rx_index s1) by (rewrite <- (finish_index rx os event s1); by rewrite Hf).
  unfold applyPolicy in Hp. destruct (rx_policy rx) as [evaluate|]; [|injection Hp as <-; left; congruence].
  apply st_bind_ok in Hp as (s2 & d & He & Hp).
  apply evaluatePolicy_rx_ok in He as (_ & Hi2 & _ & now & He).
  destruct (Allowed d) eqn:Hal; cbn [negb] in Hp; cycle 1.
  { apply st_bind_ok in Hp as (? & ? & _ & ?). discriminate. }
  destruct (wantsRevocation d) eqn:Hw; [|injection Hp as <-; left; congruence].
  destruct (revocation_cases s2 event) as [Hn|(idx & Hi & Hs)].
  { rewrite handleRevocation_none in Hp by done. injection Hp as <-. left. congruence. }
  destruct (handleRevocation_spec rx os event s2 idx Hi Hs) as (idx' & s3 & Hh & Hi3 & _ & Hrv).
  rewrite Hh in Hp. injection Hp as <-. right. split; [done|].
  exists evaluate, now, d, idx, idx'. split_and!; try done; try congruence.
  intros sub t Hne. by eapply ri_revoke_frame.
Qed.

(** * Signed events *)

(** The token verifies under the key its own issuer publishes for its [kid]. *)
Definition verified (rx : Receiver) (raw : string) (now : Time) (token : jwt_token) : Prop :=
  exists resolve issuer hdr hdrs pub key,
    rx_jwksResolver rx = Some resolve /\ issuer <> "" /\ jws_Parse raw = Some (hdr :: hdrs) /\
    (exists insecure, jwt_ParseInsecure raw = Some insecure /\ jwt_Issuer insecure = Some issuer) /\
    resolve issuer (match hdr_KeyID hdr with Some k => k | None => "" end) = Ok pub /\
    import_key pub = Some key /\
    jwt_ParseWithKey (match hdr_Algorithm hdr with Some a => a | None => "" end) key now raw = Some token.

Lemma verifySET_cases rx raw s s' r : verifySET rx raw s = (s', r) ->
  rx_index s' = rx_index s /\ rx_trace s' = rx_trace s /\ jtiSeen s' = jtiSeen s /\
  jtiWriteCount s' = jtiWriteCount s /\
  (forall token, r = Ok token -> verified rx raw (clock (rx_tick s)) token).
Proof.
  unfold verifySET, verified. intros Hv.
  destruct (rx_jwksResolver rx) as [resolve|]; [|by injection Hv as <- <-].
  destruct (jwt_ParseInsecure raw) as [insecure|]; [|by injection Hv as <- <-].
  destruct (String.eqb_spec match jwt_Issuer insecure with Some i => i | None => "" end "") as [|Hne];
    [by injection Hv as <- <-|].
  destruct (jwt_Issuer insecure) as [issuer|] eqn:Hiss; [|done].
  destruct (jws_Parse raw) as [[|hdr hdrs]|]; [by injection Hv as <- <-| |by injection Hv as <- <-].
  destruct (resolve issuer _) as [pub|] eqn:Hres; [|by injection Hv as <- <-].
  destruct (import_key pub) as [key|] eqn:Himp; [|by injection Hv as <- <-].
  cbn in Hv. destruct (jwt_ParseWithKey _ key _ raw) as [token|] eqn:Hp; injection Hv as <- <-; [|done].
  split_and!; [done..|]. intros token' [= <-]. exists resolve, issuer, hdr, hdrs, pub, key.
  split_and!; eauto.
Qed.

(** C33: Only authentic events have effects. Outside dev mode a raw event token changes the index,
    the seen JTIs or the trace only after it verified under the key that the resolver returned
    for the issuer the token names, and what is processed is the event of the verified token,
    from that issuer. *)
Theorem received_set_authentic rx os raw s s' r :
  rx_devMode rx = false -> ReceiveSET rx os raw s = (s', r) ->
  (forall alg key now t t', jwt_ParseWithKey alg key now raw = Some t ->
     jwt_ParseInsecure raw = Some t' -> jwt_Issuer t = jwt_Issuer t') ->
  (rx_index s' = rx_index s /\ rx_trace s' = rx_trace s /\ jtiSeen s' = jtiSeen s /\
     exists e, r = Err e) \/
  exists token s1, verified rx raw (clock (rx_tick s)) token /\
    (exists resolve kid pub, rx_jwksResolver rx = Some resolve /\
       resolve (ev_Issuer (eventOf token)) kid = Ok pub) /\
    rx_index s1 = rx_index s /\ rx_trace s1 = rx_trace s /\ jtiSeen s1 = jtiSeen s /\
    ReceiveEvent rx os (Some (eventOf token)) s1 = (s', r).
Proof.
  intros Hdev Hr Hlib. unfold ReceiveSET, parseSET in Hr. rewrite Hdev in Hr. unfold st_bind in Hr.
  destruct (verifySET rx raw s) as [s1 [token|e]] eqn:Hv;
    apply verifySET_cases in Hv as (Hi & Ht & Hj & _ & Hok); cbn in Hr.
  - right. exists token, s1. pose proof (Hok _ eq_refl) as Hver. split; [done|].
    split; [|done]. destruct Hver as (resolve & issuer & hdr & ? & pub & key & Hrs & _ & _ &
      (insecure & Hins & Hiss) & Hres & _ & Hp).
    exists resolve, (match hdr_KeyID hdr with Some k => k | None => "" end), pub. split; [done|].
    cbn. by rewrite (Hlib _ _ _ _ _ Hp Hins), Hiss.
  - left. injection Hr as <- <-. eauto.
Qed.
End Rx.

(** * A concrete receiver *)

#[local] Existing Instance JwtModel.lib.
(** SETs in the concrete JWT library: the header only states the algorithm. *)
Definition demo_jws : JwsLib := {|
  jws_headers := string;
  jws_Parse p := match JwtModel.decode_signed p with Some (k, _) => Some [k] | None => None end;
  hdr_Type _ := None;
  hdr_JWK _ := None;
  hdr_Algorithm _ := Some "RS256";
  raw_key := string;
  jwk_Export k := Some (Some k);
  jwt_ParseWithKey _ k now s := match JwtModel.decode_signed s with
    | Some (k', t) => if (k' =? k)%string && (JwtModel.t_iat t <=? now)%Z then Some t else None
    | None => None
    end;
  jwk_KeyType _ := "RSA";
  jwk_Members k := Err "unused";
  sha256_b64_json m := "unused";
|}.
#[local] Existing Instance demo_jws.
#[local] Existing Instance Revocation.InMemory_RevocationIndex.
Definition demo_import (k : string) : option (@jwk_key JwtModel.lib) := Some k.
Definition demo_kid (h : @jws_headers _ demo_jws) : option string := Some "starfly-ssf-1".
Definition demo_clock (n : nat) : Time := ((100 + Z.of_nat n) * Second)%Z.
Definition demo_policy (pi : PolicyInput) : result string PolicyDecision :=
  Ok {| Allowed := negb (wi_ID (pi_Subject pi) =? "spiffe://td/admin")%string; pd_Reason := "rule";
        pd_Claims := {[ "revoke_tokens" := VBool true ]} |}.
Definition demo_setup := @NewReceiver Revocation.InMemoryRevocationIndex string
  [ WithReceiverJWKS (Some (fun iss kid => if (iss =? "https://idp")%string then Ok "pub:k" else Err "unknown"));
    WithReceiverPolicy (Some demo_policy); WithReceiverSyncBus (Some (fun _ => None)) "unit-1";
    WithReceiverAuditor true; WithReceiverRevocation (Some Revocation.NewRevocationIndex) ].
Definition demo_rx := fst demo_setup.
Definition demo_s0 := snd demo_setup.
Definition demo_event (jti sub : string) : SecurityEvent :=
  {| ev_Issuer := "https://idp"; ev_JTI := jti; ev_IssuedAt := 0; ev_Audience := "fabric";
     ev_SubjectID := Some {| si_Format := "spiffe_id"; si_SpiffeID := sub; si_Email := ""; si_URI := "" |};
     ev_Events := {[ "session-revoked" := ∅ ]}; ev_TransactionID := "" |}.
Definition demo_orders : Orders :=
  {| ord_types := key_order; ord_context := key_order; ord_reason := key_order;
     ord_flash := key_order; ord_signal := key_order |}.
Definition demo_receive jti sub (s : RxState (I:=Revocation.InMemoryRevocationIndex)) :=
  ReceiveEvent demo_clock demo_rx demo_orders (Some (demo_event jti sub)) s.
Definition demo_s1 := fst (demo_receive "j1" "spiffe://td/agent" demo_s0).
Definition demo_calls : list Call :=
  [ CallEvent demo_orders (Some (demo_event "j2" "spiffe://td/other"));
    CallEvent demo_orders (Some (demo_event "j3" "spiffe://td/admin")) ].

Lemma demo_monotone : monotone demo_clock.
Proof. intros m n Hmn. unfold demo_clock, Second. lia. Qed.
Lemma demo_events_nonempty jti sub : ev_Events (demo_event jti sub) <> ∅.
Proof. cbn. apply map_non_empty_singleton. Qed.

Lemma receiver_rejects_replay_witness :
  snd (demo_receive "j1" "spiffe://td/agent" (calls demo_import demo_kid demo_clock demo_rx demo_calls demo_s1))
  = Err (ErrDuplicateJTI "j1").
Proof.
  unfold demo_receive.
  rewrite (receiver_rejects_replay demo_import demo_kid demo_clock demo_rx demo_orders
    (demo_event "j1" "spiffe://td/agent") demo_s0 demo_s1 (Ok tt) demo_calls demo_orders
    (demo_event "j1" "spiffe://td/agent"));
    [reflexivity|apply demo_monotone|reflexivity|done|apply demo_events_nonempty|
     vm_compute; reflexivity|done|reflexivity|apply demo_events_nonempty|vm_compute; reflexivity].
Defined.

Lemma receiver_revokes_only_when_ordered_witness :
  rx_index (fst (demo_receive "j3" "spiffe://td/admin" demo_s0)) = rx_index demo_s0.
Proof.
  destruct (receiver_revokes_only_when_ordered demo_clock demo_rx demo_orders
    (demo_event "j3" "spiffe://td/admin") demo_s0 (fst (demo_receive "j3" "spiffe://td/admin" demo_s0))
    (Err (ErrSignalDenied "rule"))) as [He _]; [vm_compute; reflexivity|].
  by destruct (He (ErrSignalDenied "rule")).
Defined.

Definition demo_token : @jwt_token JwtModel.lib :=
  ("", "https://idp", ["fabric"], (50 * Second)%Z, 0%Z,
   [ ("jti", inl "j1"); ("sub_id", inr (inr (inr [("spiffe_id", inl "spiffe://td/agent")])));
     ("events", inr (inr (inr [("session-revoked", inr [])]))) ]).
Definition demo_raw : string := JwtModel.encode_signed "pub:k" demo_token.
Definition demo_receive_set := ReceiveSET demo_import demo_kid demo_clock demo_rx demo_orders demo_raw demo_s0.

Lemma demo_receive_set_eq :
  ReceiveSET demo_import demo_kid demo_clock demo_rx demo_orders demo_raw demo_s0
  = (fst demo_receive_set, snd demo_receive_set).
Proof. unfold demo_receive_set. apply surjective_pairing. Qed.

Lemma received_set_authentic_witness : exists token,
  verified demo_import demo_kid demo_rx demo_raw (demo_clock 0) token.
Proof.
  destruct (received_set_authentic demo_import demo_kid demo_clock demo_rx demo_orders demo_raw demo_s0
    (fst demo_receive_set) (snd demo_receive_set)) as [(_ & _ & _ & e & He)|(token & s1 & Hv & _)];
    [exact eq_refl|exact demo_receive_set_eq| | |exists token; exact Hv].
  - intros alg key now t t'. cbn [jwt_ParseWithKey jwt_ParseInsecure demo_jws JwtModel.lib].
    destruct (JwtModel.decode_signed demo_raw) as [[k u]|]; [|discriminate].
    case_match; [|discriminate]. by intros [= <-] [= <-].
  - assert (is_ok (snd demo_receive_set) = true) as Hok by (vm_compute; reflexivity).
    rewrite He in Hok. discriminate.
Defined.

End Receiver.
