(* ===== verification/Transmitter.v ===== *)
(** The shared-signals transmitter of [pkg/signals/transmitter.go] and the event types of
    [types.go]: streams, signing of Security Event Tokens, and delivery. Random bytes, URL
    parsing and the JWT library are arguments; a delivery is the HTTP request it sends. *)
From Stdlib Require Import ZArith QArith Lia Ascii.
From stdpp Require Import base gmap strings list.
From S2P Require Import Prelude.
From S2P Require Import GoLib.
From S2P Require Import JwtModel.
From S2P Require Import Core.

#[local] Open Scope Z_scope.
#[local] Open Scope string_scope.

Module Transmitter.

(** * [types.go] *)

Definition caep (n : string) : string := "https://schemas.openid.net/secevent/caep/event-type/" +:+ n.
Definition risc (n : string) : string := "https://schemas.openid.net/secevent/risc/event-type/" +:+ n.
Definition starfly (n : string) : string := "https://starfly.dev/secevent/event-type/" +:+ n.

Definition EventCredentialChange := caep "credential-change".
Definition EventDeviceComplianceChange := caep "device-compliance-change".
Definition EventSessionRevoked := caep "session-revoked".
Definition EventAssuranceLevelChange := caep "assurance-level-change".
Definition EventTokenClaimsChange := caep "token-claims-change".
Definition EventAccountDisabled := risc "account-disabled".
Definition EventAccountEnabled := risc "account-enabled".
Definition EventAccountCredChange := risc "account-credential-change-required".
Definition EventIdentifierChanged := risc "identifier-changed".
Definition EventTokenRevoked := starfly "token-revoked".
Definition EventPolicyViolation := starfly "policy-violation".
Definition EventMCPToolCompromised := starfly "mcp-tool-compromised".
Definition EventMCPServerDeregistered := starfly "mcp-server-deregistered".
Definition EventMCPPermissionChanged := starfly "mcp-permission-changed".

(** [EventTypes] *)
Definition EventTypes : list string :=
  [ EventCredentialChange; EventDeviceComplianceChange; EventSessionRevoked;
    EventAssuranceLevelChange; EventTokenClaimsChange; EventAccountDisabled; EventAccountEnabled;
    EventAccountCredChange; EventIdentifierChanged; EventTokenRevoked; EventPolicyViolation;
    EventMCPToolCompromised; EventMCPServerDeregistered; EventMCPPermissionChanged ].

Definition DeliveryPush : string := "https://schemas.openid.net/secevent/risc/delivery-method/push".
Definition DeliveryPoll : string := "https://schemas.openid.net/secevent/risc/delivery-method/poll".

Definition StreamStatusEnabled : string := "enabled".
Definition StreamStatusPaused : string := "paused".
Definition StreamStatusDisabled : string := "disabled".

(** [hex.EncodeToString] *)
Definition hex_digit (n : N) : ascii := ascii_of_N (if (n <? 10)%N then 48 + n else 87 + n).
Fixpoint EncodeToString (b : list Byte.byte) : string :=
  match b with
  | [] => ""
  | x :: b' => let n := Byte.to_N x in
      String (hex_digit (n / 16)) (String (hex_digit (n mod 16)) (EncodeToString b'))
  end.

(** [generateJTI] of the 16 bytes [rand.Read] filled in *)
Definition generateJTI (b : list Byte.byte) : string := EncodeToString b.

(** [NewSecurityEvent] and [AddEvent] *)
Definition NewSecurityEvent (b : list Byte.byte) (now : Time) (issuer audience : string)
    (subID : option SubjectIdentifier) : SecurityEvent :=
  {| ev_Issuer := issuer; ev_JTI := generateJTI b; ev_IssuedAt := Unix now; ev_Audience := audience;
     ev_SubjectID := subID; ev_Events := ∅; ev_TransactionID := "" |}.
Definition AddEvent (evt : SecurityEvent) (eventType : string) (claims : gmap string value) : SecurityEvent :=
  {| ev_Issuer := ev_Issuer evt; ev_JTI := ev_JTI evt; ev_IssuedAt := ev_IssuedAt evt;
     ev_Audience := ev_Audience evt; ev_SubjectID := ev_SubjectID evt;
     ev_Events := <[eventType := claims]> (ev_Events evt); ev_TransactionID := ev_TransactionID evt |}.

(** * Streams *)

(** [core.StreamConfig], [core.Stream] and [core.StreamStatus] *)
Record StreamConfig : Type := {
  sc_Issuer : string;
  sc_Audience : string;
  sc_EventsRequested : list string;
  sc_EventsDelivered : list string;
  sc_DeliveryMethod : string;
  sc_EndpointURL : string;
}.
Record Stream : Type := {
  st_ID : string;
  st_Issuer : string;
  st_Audience : string;
  st_EventsSupported : list string;
  st_Status : string;
}.
Record StreamStatus : Type := {
  ss_StreamID : string;
  ss_Status : string;
  ss_Subject : string;
}.
Record streamState : Type := {
  stream : Stream;
  config : StreamConfig;
  created : Time;
}.
Record StreamInfo : Type := {
  in_StreamID : string;
  in_Audience : string;
  in_Status : string;
  in_EventsRequested : list string;
  in_EndpointURL : string;
  in_Created : Time;
}.

(** What the source reads of a parsed URL: [u.Scheme] and [u.Hostname()]. *)
Record URL : Type := { Scheme : string; Hostname : string }.

Inductive TxErr : Type :=
| ErrGeneratingKey (err : string)
| ErrImportingKey
| ErrSettingKid
| ErrSettingAlg
| ErrExtractingPublicKey
| ErrAddingKey
| ErrMissingAudience
| ErrInvalidEndpoint (err : string)
| ErrEndpointNotHTTPS (endpoint : string)
| ErrStreamNotFound (streamID : string)
| ErrBuildingSET
| ErrSettingClaim (name : string)
| ErrSigningSET.

(** What a transmission leaves behind: [TxGo] is [go tx.deliverSET(ctx, s, signed, jti)], a delivery that was only started. *)
Inductive TxEffect : Type :=
| TxGo (s : streamState) (signed jti : string)
| TxFlash (sig : Signal)
| TxAudit (ev : AuditEvent TxErr).

Section Tx.
Context `{!JwtLib}.
Variable clock : nat -> Time.
(** The bytes of the n-th [rand.Read]. *)
Variable random : nat -> list Byte.byte.
Variable url_Parse : string -> result string URL.
(** [jwt.NewBuilder().Issuer().Audience().IssuedAt().JwtID().Build()] *)
Variable set_Build : string -> list string -> Time -> string -> option jwt_token.

(** The part of [Transmitter] that changes. *)
Record TxState : Type := {
  streams : gmap string streamState;
  tx_tick : nat;
  tx_rand : nat;
  tx_trace : list TxEffect;
}.
Record Transmitter : Type := {
  tx_signKey : jwk_key;
  tx_issuer : string;
  tx_syncBus : option (Signal -> option string);
  tx_auditor : bool;
  tx_store : bool;
  tx_unitID : string;
  (** the timeout of the HTTP client *)
  tx_client : Duration;
}.
Abbreviation Tx A := (M TxState TxErr A) (only parsing).

Definition tx_now : Tx Time := fun s =>
  ({| streams := streams s; tx_tick := S (tx_tick s); tx_rand := tx_rand s; tx_trace := tx_trace s |},
   Ok (clock (tx_tick s))).
Definition tx_newID : Tx string := fun s =>
  ({| streams := streams s; tx_tick := tx_tick s; tx_rand := S (tx_rand s); tx_trace := tx_trace s |},
   Ok (generateJTI (random (tx_rand s)))).
Definition tx_emit (ef : TxEffect) : Tx unit := fun s =>
  ({| streams := streams s; tx_tick := tx_tick s; tx_rand := tx_rand s;
      tx_trace := (tx_trace s ++ [ef])%list |}, Ok tt).
Definition tx_streams (f : gmap string streamState -> gmap string streamState) : Tx unit := fun s =>
  ({| streams := f (streams s); tx_tick := tx_tick s; tx_rand := tx_rand s; tx_trace := tx_trace s |}, Ok tt).

(** [audit] *)
Definition audit (tx : Transmitter) (typ action subject target : string) : Tx unit :=
  if tx_auditor tx then
    tx_emit (TxAudit {| au_Type := typ; au_Action := action; au_Subject := subject;
                        au_Target := target; au_Decision := ""; au_Reason := RText "";
                        au_Metadata := ∅; au_UnitID := tx_unitID tx |})
  else st_ret tt.

(** [TransmitterOption]; a nil collaborator is [None] or [false]. *)
Inductive TransmitterOption : Type :=
| WithTransmitterSyncBus (bus : option (Signal -> option string)) (unitID : string)
| WithTransmitterAuditor (a : bool)
| WithTransmitterStore (s : bool)
| WithTransmitterIssuer (issuer : string)
| WithTransmitterHTTPTimeout (d : Duration).
Definition applyOption (t : Transmitter) (o : TransmitterOption) : Transmitter :=
  let '(Build_Transmitter k i b a s u c) := t in
  match o with
  | WithTransmitterSyncBus b' u' => Build_Transmitter k i b' a s u' c
  | WithTransmitterAuditor a' => Build_Transmitter k i b a' s u c
  | WithTransmitterStore s' => Build_Transmitter k i b a s' u c
  | WithTransmitterIssuer i' => Build_Transmitter k i' b a s u c
  | WithTransmitterHTTPTimeout d => Build_Transmitter k i b a s u d
  end.

(** [core.DefaultHTTPTimeout] *)
Definition DefaultHTTPTimeout : Duration := (10 * Second)%Z.

(** [NewTransmitter], given the outcome of [rsa.GenerateKey] *)
Definition NewTransmitter (generated : result string crypto_Signer) (opts : list TransmitterOption)
    : result TxErr (Transmitter * TxState) :=
  match generated with
  | Err err => Err (ErrGeneratingKey err)
  | Ok privKey =>
  match jwk_Import privKey with
  | None => Err ErrImportingKey
  | Some key =>
  match jwk_Set key "kid" "starfly-ssf-1" with
  | None => Err ErrSettingKid
  | Some key =>
  match jwk_Set key "alg" "RS256" with
  | None => Err ErrSettingAlg
  | Some key =>
      Ok (fold_left applyOption opts
            {| tx_signKey := key; tx_issuer := "starfly"; tx_syncBus := None; tx_auditor := false;
               tx_store := false; tx_unitID := ""; tx_client := DefaultHTTPTimeout |},
          {| streams := ∅; tx_tick := 0; tx_rand := 0; tx_trace := [] |})
  end end end end.

(** [PublicKeySet] *)
Definition PublicKeySet (tx : Transmitter) : result TxErr (list jwk_key) :=
  match jwk_PublicKey (tx_signKey tx) with
  | None => Err ErrExtractingPublicKey
  | Some pub => match jwkset_AddKey [] pub with None => Err ErrAddingKey | Some set => Ok set end
  end.

(** The endpoint check of [CreateStream] *)
Definition local_or_https (u : URL) : bool :=
  (Scheme u =? "https")%string || (Hostname u =? "localhost")%string || (Hostname u =? "127.0.0.1")%string.
Definition checkEndpoint (endpoint : string) : result TxErr unit :=
  if (endpoint =? "")%string then Ok tt else
  match url_Parse endpoint with
  | Err err => Err (ErrInvalidEndpoint err)
  | Ok u => reject (negb (local_or_https u)) (ErrEndpointNotHTTPS endpoint)
  end.

(** The events [CreateStream] reports as delivered *)
Definition deliveredEvents (requested : list string) : list string :=
  match List.filter (fun req => str_mem req EventTypes) requested with
  | [] => EventTypes
  | delivered => delivered
  end.

(** [CreateStream] *)
Definition CreateStream (tx : Transmitter) (cfg : StreamConfig) : Tx Stream :=
  if (sc_Audience cfg =? "")%string then st_fail ErrMissingAudience else
  do _ <- st_lift (checkEndpoint (sc_EndpointURL cfg)) ;;
  do streamID <- tx_newID ;;
  do now <- tx_now ;;
  do _ <- tx_streams (fun m =>
    <[streamID := {| stream := {| st_ID := streamID; st_Issuer := tx_issuer tx;
                                  st_Audience := sc_Audience cfg; st_EventsSupported := EventTypes;
                                  st_Status := StreamStatusEnabled |};
                     config := cfg; created := now |}]> m) ;;
  do _ <- audit tx "signal" "stream_created" streamID (sc_Audience cfg) ;;
  st_ret {| st_ID := streamID; st_Issuer := tx_issuer tx; st_Audience := sc_Audience cfg;
            st_EventsSupported := EventTypes; st_Status := StreamStatusEnabled |}.

(** [DeleteStream] *)
Definition DeleteStream (tx : Transmitter) (streamID : string) : Tx unit := fun s =>
  match streams s !! streamID with
  | None => (s, Err (ErrStreamNotFound streamID))
  | Some state =>
      (do _ <- tx_streams (delete streamID) ;;
       audit tx "signal" "stream_deleted" streamID (sc_Audience (config state))) s
  end.

(** [GetStreamStatus] *)
Definition GetStreamStatus (streamID : string) (s : TxState) : result TxErr StreamStatus :=
  match streams s !! streamID with
  | None => Err (ErrStreamNotFound streamID)
  | Some state => Ok {| ss_StreamID := streamID; ss_Status := st_Status (stream state); ss_Subject := "" |}
  end.

(** [StreamCount] and [ListStreams] *)
Definition StreamCount (s : TxState) : nat := size (streams s).
Definition streamInfo (s : streamState) : StreamInfo :=
  {| in_StreamID := st_ID (stream s); in_Audience := st_Audience (stream s);
     in_Status := st_Status (stream s); in_EventsRequested := sc_EventsRequested (config s);
     in_EndpointURL := sc_EndpointURL (config s); in_Created := created s |}.
Definition ListStreams `{!RangeOrder} (s : TxState) : list StreamInfo := streamInfo <$> (range (streams s)).*2.
(** * Signing *)

(** The JSON of a [core.SubjectIdentifier]: every field but the format is left out when empty. *)
Definition put (k v : string) (m : gmap string value) : gmap string value :=
  if str_nonempty v then <[k := VStr v]> m else m.
Definition subjectJSON (sid : SubjectIdentifier) : value :=
  VObj (<["format" := VStr (si_Format sid)]>
    (put "spiffe_id" (si_SpiffeID sid) (put "email" (si_Email sid) (put "uri" (si_URI sid) ∅)))).
Definition eventsJSON (events : gmap string (gmap string value)) : value := VObj (VObj <$> events).

Definition set_claim (t : jwt_token) (name : string) (v : value) : Tx jwt_token :=
  match jwt_Set t name v with Some t' => st_ret t' | None => st_fail (ErrSettingClaim name) end.

(** [signSET] *)
Definition signSET (tx : Transmitter) (event : SecurityEvent) : Tx string :=
  do now <- tx_now ;;
  match set_Build (ev_Issuer event) [ev_Audience event] now (ev_JTI event) with
  | None => st_fail ErrBuildingSET
  | Some token =>
      do token <- match ev_SubjectID event with
                  | Some sid => set_claim token "sub_id" (subjectJSON sid)
                  | None => st_ret token
                  end ;;
      do token <- set_claim token "events" (eventsJSON (ev_Events event)) ;;
      do token <- (if str_nonempty (ev_TransactionID event)
                   then set_claim token "txn" (VStr (ev_TransactionID event)) else st_ret token) ;;
      match jwt_Sign (tx_signKey tx) token with
      | None => st_fail ErrSigningSET
      | Some signed => st_ret signed
      end
  end.

(** * Delivery *)

(** The defaults [TransmitEvent] writes into the caller's event. *)
Definition with_ids (event : SecurityEvent) (jti : string) (iat : Z) (issuer : string) : SecurityEvent :=
  {| ev_Issuer := issuer; ev_JTI := jti; ev_IssuedAt := iat; ev_Audience := ev_Audience event;
     ev_SubjectID := ev_SubjectID event; ev_Events := ev_Events event;
     ev_TransactionID := ev_TransactionID event |}.
Definition fillDefaults (tx : Transmitter) (event : SecurityEvent) : Tx SecurityEvent :=
  do jti <- (if (ev_JTI event =? "")%string then tx_newID else st_ret (ev_JTI event)) ;;
  do iat <- (if (ev_IssuedAt event =? 0)%Z then do now <- tx_now ;; st_ret (Unix now)
             else st_ret (ev_IssuedAt event)) ;;
  st_ret (with_ids event jti iat
            (if (ev_Issuer event =? "")%string then tx_issuer tx else ev_Issuer event)).

(** The streams the SET is delivered to: the filter of the copying loop, then the two tests of
    the delivery loop. *)
Definition enabled (s : streamState) : bool := (st_Status (stream s) =? StreamStatusEnabled)%string.
Definition pushable (s : streamState) : bool :=
  str_nonempty (sc_EndpointURL (config s)) &&
  ((sc_DeliveryMethod (config s) =? "")%string || (sc_DeliveryMethod (config s) =? "push")%string).

(** [deliverSET], the body of a started delivery: the request it hands to the HTTP client, if it comes to that, and
    what it logs. Whether the request arrives is up to the client: the network may fail, and the context is the one
    of the caller of [TransmitEvent], whose end cancels it. *)
Record SetRequest : Type := { sr_method : string; sr_url : string; sr_contentType : string; sr_body : string }.
Inductive DeliveryLog : Type :=
| LogRequestError (err endpoint : string)
| LogFailed (err streamID endpoint : string)
| LogDelivered (streamID jti : string) (status : Z)
| LogNonSuccess (streamID jti : string) (status : Z).
Definition deliverSET (NewRequest : string -> option string) (Do : SetRequest -> result string Z)
    (s : streamState) (signed jti : string) : option SetRequest * DeliveryLog :=
  match NewRequest (sc_EndpointURL (config s)) with
  | Some err => (None, LogRequestError err (sc_EndpointURL (config s)))
  | None =>
      let req := {| sr_method := "POST"; sr_url := sc_EndpointURL (config s);
                    sr_contentType := "application/secevent+jwt"; sr_body := signed |} in
      (Some req,
       match Do req with
       | Err err => LogFailed err (st_ID (stream s)) (sc_EndpointURL (config s))
       | Ok status => if (200 <=? status)%Z && (status <? 300)%Z then LogDelivered (st_ID (stream s)) jti status
                      else LogNonSuccess (st_ID (stream s)) jti status
       end)
  end.
(** The loop that starts the deliveries *)
Fixpoint deliverAll (signed jti : string) (l : list streamState) : Tx unit :=
  match l with
  | [] => st_ret tt
  | s :: l' => do _ <- (if pushable s then tx_emit (TxGo s signed jti) else st_ret tt) ;; deliverAll signed jti l'
  end.

(** [TransmitEvent]: the event as it was filled in, with the outcome. The loops over the event
    types and over the streams choose their own order. *)
Definition transmit (ord_types ord_streams : RangeOrder) (tx : Transmitter) (event : SecurityEvent) : Tx unit :=
  do signed <- signSET tx event ;;
  do _ <- (fun s => deliverAll signed (ev_JTI event) (List.filter enabled (@range ord_streams _ (streams s)).*2) s) ;;
  do _ <- match tx_syncBus tx with
          | None => st_ret tt
          | Some _ =>
              tx_emit (TxFlash {| sig_Type := "caep_signal"; sig_Source := tx_unitID tx; sig_Timestamp := 0;
                sig_Payload := <["jti" := VStr (ev_JTI event)]>
                  (<["event_types" := VArr (VStr <$> @range_keys ord_types _ (ev_Events event))]> ∅) |})
          end ;;
  audit tx "signal" "event_transmitted" (ev_JTI event) (ev_Audience event).
Definition TransmitEvent (ord_types ord_streams : RangeOrder) (tx : Transmitter) (event : SecurityEvent)
    (s : TxState) : TxState * (result TxErr unit * SecurityEvent) :=
  match fillDefaults tx event s with
  | (s1, Ok event') => let '(s2, r) := transmit ord_types ord_streams tx event' s1 in (s2, (r, event'))
  | (s1, Err e) => (s1, (Err e, event))
  end.

(** What a transmitter can be asked to do. *)
Inductive Request : Type :=
| ReqCreate (cfg : StreamConfig)
| ReqDelete (streamID : string)
| ReqTransmit (ord_types ord_streams : RangeOrder) (event : SecurityEvent).
Definition request (tx : Transmitter) (q : Request) (s : TxState) : TxState :=
  match q with
  | ReqCreate cfg => fst (CreateStream tx cfg s)
  | ReqDelete id => fst (DeleteStream tx id s)
  | ReqTransmit ot os event => fst (TransmitEvent ot os tx event s)
  end.
Inductive reachable (tx : Transmitter) : TxState -> Prop :=
| reach_init s : streams s = ∅ -> tx_trace s = [] -> reachable tx s
| reach_step q s : reachable tx s -> reachable tx (request tx q s).

(** A delivery that hands a request to the client hands it the token, for the endpoint of its stream. *)
Lemma deliverSET_sends NewRequest Do st signed jti req log :
  deliverSET NewRequest Do st signed jti = (Some req, log) ->
  req = {| sr_method := "POST"; sr_url := sc_EndpointURL (config st);
           sr_contentType := "application/secevent+jwt"; sr_body := signed |}.
Proof. unfold deliverSET. destruct (NewRequest _); [done|]. by intros [= <- _]. Qed.

(** * Streams are well formed and only secure endpoints are contacted *)

Definition secure (endpoint : string) : Prop :=
  exists u, url_Parse endpoint = Ok u /\ local_or_https u = true.
Definition wf_stream (id : string) (st : streamState) : Prop :=
  st_ID (stream st) = id /\ st_Status (stream st) = StreamStatusEnabled /\
  sc_Audience (config st) <> "" /\ st_Audience (stream st) = sc_Audience (config st) /\
  (sc_EndpointURL (config st) = "" \/ secure (sc_EndpointURL (config st))).
Definition secure_effect (ef : TxEffect) : Prop :=
  match ef with TxGo st _ _ => secure (sc_EndpointURL (config st)) | _ => True end.
Definition tx_inv (s : TxState) : Prop :=
  map_Forall wf_stream (streams s) /\ Forall secure_effect (tx_trace s).
Definition keeps_inv (s s' : TxState) : Prop := tx_inv s -> tx_inv s'.
#[local] Instance keeps_inv_refl : Reflexive keeps_inv.
Proof. intros s Hi. exact Hi. Qed.
#[local] Instance keeps_inv_trans : Transitive keeps_inv.
Proof. unfold keeps_inv. intros a b c. auto. Qed.

Lemma keeps_now : respects keeps_inv tx_now.
Proof. intros s Hi. exact Hi. Qed.
Lemma keeps_newID : respects keeps_inv tx_newID.
Proof. intros s Hi. exact Hi. Qed.
Lemma keeps_tx_emit ef : secure_effect ef -> respects keeps_inv (tx_emit ef).
Proof. intros He s [Hs Ht]. split; [done|]. cbn. apply Forall_app. by rewrite Forall_singleton. Qed.
Lemma keeps_audit tx a b c d : respects keeps_inv (audit tx a b c d).
Proof. unfold audit. destruct (tx_auditor tx); [by apply keeps_tx_emit|apply respects_ret; apply _]. Qed.
#[local] Hint Resolve keeps_now keeps_newID keeps_audit : go.

Lemma checkEndpoint_ok endpoint u : checkEndpoint endpoint = Ok u -> endpoint = "" \/ secure endpoint.
Proof.
  unfold checkEndpoint. destruct (String.eqb_spec endpoint "") as [->|_]; [by left|].
  destruct (url_Parse endpoint) as [l|] eqn:Hu; [|discriminate].
  intros Hok%reject_ok%negb_false_iff. right. exists l. done.
Qed.

Lemma CreateStream_keeps tx cfg : respects keeps_inv (CreateStream tx cfg).
Proof.
  unfold CreateStream. destruct (String.eqb_spec (sc_Audience cfg) "") as [|Ha];
    [apply respects_fail; apply _|].
  destruct (checkEndpoint (sc_EndpointURL cfg)) as [[]|e] eqn:He; [|by intros s Hi].
  apply checkEndpoint_ok in He. apply respects_bind; [apply _|apply respects_lift; apply _|intros _].
  apply respects_bind; [apply _|auto with go|intros id].
  apply respects_bind; [apply _|auto with go|intros now].
  apply respects_bind; [apply _| |intros _; apply respects_bind; [apply _|auto with go|intros _; apply respects_ret; apply _]].
  intros s [Hs Ht]. split; [|exact Ht]. cbn. apply map_Forall_insert_2; [|exact Hs].
  unfold wf_stream. cbn. done.
Qed.

Lemma DeleteStream_keeps tx id : respects keeps_inv (DeleteStream tx id).
Proof.
  intros s Hi. unfold DeleteStream. destruct (streams s !! id) as [st|]; [|exact Hi].
  apply (respects_bind keeps_inv); [|intros _; apply keeps_audit|exact Hi].
  intros s' [Hs Ht]. split; [|exact Ht]. cbn. by apply map_Forall_delete.
Qed.

Ltac stage :=
  repeat first
    [ apply respects_ret; apply _ | apply respects_fail; apply _ | apply keeps_now | apply keeps_newID
    | apply keeps_audit | by apply keeps_tx_emit | apply respects_bind; [apply _| |intros ?] | case_match ].

Lemma fillDefaults_keeps tx event : respects keeps_inv (fillDefaults tx event).
Proof. unfold fillDefaults. stage. Qed.
Lemma signSET_keeps tx event : respects keeps_inv (signSET tx event).
Proof. unfold signSET, set_claim. stage. Qed.

Lemma wf_pushable st id : wf_stream id st -> pushable st = true -> secure (sc_EndpointURL (config st)).
Proof.
  intros (_ & _ & _ & _ & [He|He]) [Hp _]%andb_true_iff; [|done].
  by apply str_nonempty_true in Hp.
Qed.

Lemma deliverAll_keeps signed jti l :
  Forall (fun st => exists id, wf_stream id st) l -> respects keeps_inv (deliverAll signed jti l).
Proof.
  induction 1 as [|st l [id Hst] _ IH]; cbn; [stage|].
  destruct (pushable st) eqn:Hp; [|stage; exact IH].
  apply respects_bind; [apply _| |intros _; exact IH].
  apply keeps_tx_emit. by eapply wf_pushable.
Qed.

Lemma transmit_keeps ot os tx event : respects keeps_inv (transmit ot os tx event).
Proof.
  unfold transmit. apply respects_bind; [apply _|apply signSET_keeps|intros signed].
  apply respects_bind; [apply _| |intros _; stage].
  intros s Hi. apply deliverAll_keeps; [|exact Hi]. destruct Hi as [Hs _].
  apply Forall_forall. intros st Hst. apply list_elem_of_In, filter_In in Hst as [Hst _].
  apply list_elem_of_In, list_elem_of_fmap in Hst as ([id st'] & -> & Hin%elem_of_range).
  exists id. by apply Hs.
Qed.

Lemma request_keeps tx q s : tx_inv s -> tx_inv (request tx q s).
Proof.
  intros Hi. destruct q; cbn; [by apply CreateStream_keeps|by apply DeleteStream_keeps|].
  unfold TransmitEvent. pose proof (fillDefaults_keeps tx event s Hi) as Hf.
  destruct (fillDefaults tx event s) as [s1 [ev'|e]]; [|exact Hf]. cbn in Hf.
  pose proof (transmit_keeps ord_types ord_streams tx ev' s1 Hf) as Ht.
  by destruct (transmit ord_types ord_streams tx ev' s1).
Qed.

Lemma reachable_inv tx s : reachable tx s -> tx_inv s.
Proof.
  induction 1 as [s Hs Ht|q s _ IH]; [|by apply request_keeps].
  split; [rewrite Hs; apply map_Forall_empty|by rewrite Ht].
Qed.

(** Event tokens only leave over HTTPS or to the local host. Whatever streams are created and
    deleted and whatever events are transmitted, every request a started delivery sends goes to an
    endpoint whose parsed URL is HTTPS or local, and every stream it holds is enabled, has an
    audience and is stored under its own identifier. *)
Theorem transmitter_endpoints_secure tx s :
  reachable tx s ->
  map_Forall wf_stream (streams s) /\
  forall st signed jti NewRequest Do req log, TxGo st signed jti ∈ tx_trace s ->
    deliverSET NewRequest Do st signed jti = (Some req, log) -> secure (sr_url req).
Proof.
  intros [Hw Ht]%reachable_inv. split; [exact Hw|]. intros st signed jti NewRequest Do req log Hin Hd.
  rewrite Forall_forall in Ht. apply deliverSET_sends in Hd as ->. exact (Ht _ Hin).
Qed.

(** * Exact delivery *)

(** Steps that read the clock or draw an identifier. *)
Definition quiet (s s' : TxState) : Prop :=
  streams s' = streams s /\ tx_trace s' = tx_trace s /\ (tx_tick s <= tx_tick s')%nat.
#[local] Instance quiet_refl : Reflexive quiet.
Proof. done. Qed.
#[local] Instance quiet_trans : Transitive quiet.
Proof. unfold quiet. intros a b c (? & ? & ?) (? & ? & ?). split_and!; [congruence..|lia]. Qed.

Ltac quiet_stage :=
  repeat first
    [ apply respects_ret; apply _ | apply respects_fail; apply _ | by intros ?; unfold quiet; cbn; auto
    | apply respects_bind; [apply _| |intros ?] | case_match ].
Lemma fillDefaults_quiet tx event : respects quiet (fillDefaults tx event).
Proof. unfold fillDefaults. quiet_stage. Qed.
Lemma signSET_quiet tx event : respects quiet (signSET tx event).
Proof. unfold signSET, set_claim. quiet_stage. Qed.

(** Signing reads the clock first. *)
Lemma signSET_tick tx event s s' r : signSET tx event s = (s', r) -> (tx_tick s < tx_tick s')%nat.
Proof.
  assert (Hk : forall {A B} (m : Tx A) (k : A -> Tx B) s s' r, (forall a, respects quiet (k a)) ->
    (tx_tick s < tx_tick (fst (m s)))%nat -> st_bind m k s = (s', r) -> (tx_tick s < tx_tick s')%nat).
  { intros A B m k s0 s0' r0 Hq Hm Hb. unfold st_bind in Hb.
    destruct (m s0) as [s1 [a|e]]; [|injection Hb as <- _; exact Hm].
    destruct (Hq a s1) as (_ & _ & Hle). rewrite Hb in Hle. cbn in *. lia. }
  apply Hk; [|cbn; lia]. intros now. unfold set_claim. quiet_stage.
Qed.

Definition postOf (signed jti : string) (st : streamState) : TxEffect := TxGo st signed jti.
Definition is_post (ef : TxEffect) : bool := match ef with TxGo _ _ _ => true | _ => false end.

Lemma deliverAll_spec signed jti l s : exists s', deliverAll signed jti l s = (s', Ok tt) /\
  streams s' = streams s /\ tx_tick s' = tx_tick s /\
  tx_trace s' = (tx_trace s ++ (postOf signed jti <$> List.filter pushable l))%list.
Proof.
  revert s. induction l as [|st l IH]; intros s; cbn; [exists s; by rewrite app_nil_r|].
  destruct (pushable st).
  - cbn. destruct (IH (fst (tx_emit (TxGo st signed jti) s))) as (s' & He & Hs & Hk & Ht). exists s'.
    split; [exact He|]. split; [exact Hs|]. split; [exact Hk|]. rewrite Ht. cbn. by rewrite <- app_assoc.
  - cbn. apply IH.
Qed.

(** The trace of the steps after the delivery has no request. *)
Definition no_posts (s s' : TxState) : Prop :=
  streams s' = streams s /\ tx_tick s' = tx_tick s /\ exists tr, tx_trace s' = (tx_trace s ++ tr)%list /\ Forall (fun ef => is_post ef = false) tr.
Lemma no_posts_tail tx ot event s :
  no_posts s (fst ((do _ <- match tx_syncBus tx with
          | None => st_ret tt
          | Some _ =>
              tx_emit (TxFlash {| sig_Type := "caep_signal"; sig_Source := tx_unitID tx; sig_Timestamp := 0;
                sig_Payload := <["jti" := VStr (ev_JTI event)]>
                  (<["event_types" := VArr (VStr <$> @range_keys ot _ (ev_Events event))]> ∅) |})
          end ;;
  audit tx "signal" "event_transmitted" (ev_JTI event) (ev_Audience event)) s)).
Proof.
  unfold audit. destruct (tx_syncBus tx), (tx_auditor tx); (split; [done|]); (split; [done|]); cbn.
  - eexists. rewrite <- app_assoc. by split; [reflexivity|repeat constructor].
  - eexists. by split; [reflexivity|repeat constructor].
  - eexists. by split; [reflexivity|repeat constructor].
  - exists []. by rewrite app_nil_r.
Qed.

Lemma fillDefaults_ok tx event s : exists s1 event', fillDefaults tx event s = (s1, Ok event').
Proof. unfold fillDefaults, st_bind. repeat case_match; simplify_eq; cbn; eauto. Qed.

#[local] Instance filter_Permutation {A} (p : A -> bool) : Proper (Permutation ==> Permutation) (List.filter p).
Proof.
  induction 1 as [|x l l' _ IH|x y l|l1 l2 l3 _ IH1 _ IH2]; cbn; [done| | |by etrans].
  - by destruct (p x); [constructor|].
  - destruct (p x), (p y); try done. constructor.
Qed.

Lemma filter_pushable_perm {ro : RangeOrder} (m : gmap string streamState) :
  Permutation (List.filter pushable (List.filter enabled (range m).*2))
    (List.filter (fun st => enabled st && pushable st) (map_to_list m).*2).
Proof.
  rewrite <- (range_perm m). generalize ((range m).*2). intros l.
  induction l as [|st l IH]; cbn; [done|].
  destruct (enabled st); cbn; [|exact IH]. destruct (pushable st); cbn; [by constructor|exact IH].
Qed.

(** The token is signed once and posted to the enabled push streams, in some order. *)
Lemma TransmitEvent_delivers ot os tx event s :
  let '(s', (r, event')) := TransmitEvent ot os tx event s in
  streams s' = streams s /\
  match r with
  | Err _ => tx_trace s' = tx_trace s
  | Ok _ => exists s1 s2 signed posts rest, signSET tx event' s1 = (s2, Ok signed) /\
      (tx_tick s <= tx_tick s1 < tx_tick s')%nat /\
      tx_trace s' = (tx_trace s ++ posts ++ rest)%list /\
      Forall (fun ef => is_post ef = false) rest /\
      Permutation posts (postOf signed (ev_JTI event') <$>
        List.filter (fun st => enabled st && pushable st) (map_to_list (streams s)).*2)
  end.
Proof.
  unfold TransmitEvent. destruct (fillDefaults_ok tx event s) as (s1 & event' & Hf). rewrite Hf.
  destruct (fillDefaults_quiet tx event s) as (Hs1 & Ht1 & Hk1). rewrite Hf in Hs1, Ht1, Hk1. cbn in Hs1, Ht1, Hk1.
  unfold transmit. rewrite <- Hs1, <- Ht1. unfold st_bind at 1.
  destruct (signSET_quiet tx event' s1) as (Hs2 & Ht2 & _).
  destruct (signSET tx event' s1) as [s2 [signed|e]] eqn:Hsg; cbn [fst] in Hs2, Ht2; [|done].
  rewrite <- Hs2, <- Ht2. unfold st_bind at 1.
  destruct (deliverAll_spec signed (ev_JTI event') (List.filter enabled (range (streams s2)).*2) s2) as (s3 & -> & Hs3 & Hk3 & Ht3).
  destruct (no_posts_tail tx ot event' s3) as (Hs4 & Hk4 & tr & Ht4 & Hnp).
  destruct (st_bind _ _ s3) as [s4 r] eqn:Htail. cbn [fst] in Hs4, Ht4, Hk4. split; [congruence|].
  destruct r as [[]|e].
  - exists s1, s2, signed, (postOf signed (ev_JTI event') <$> List.filter pushable (List.filter enabled (range (streams s2)).*2)), tr.
    split; [done|]. split; [rewrite Hk4, Hk3; apply signSET_tick in Hsg; lia|]. split; [by rewrite Ht4, Ht3, <- app_assoc|]. split; [done|].
    apply fmap_Permutation, filter_pushable_perm.
  - unfold audit, st_bind in Htail. destruct (tx_syncBus tx), (tx_auditor tx); discriminate.
Qed.

(** The requests sent to one stream. *)
Definition posts_to (id : string) (ef : TxEffect) : bool :=
  match ef with TxGo st _ _ => (st_ID (stream st) =? id)%string | _ => false end.

Lemma count_posts_to id signed jti (l : list (string * streamState)) :
  (forall k st, (k, st) ∈ l -> st_ID (stream st) = k) -> NoDup l.*1 ->
  forall st, (id, st) ∈ l ->
  List.filter (posts_to id) (postOf signed jti <$> List.filter (fun st => enabled st && pushable st) l.*2)
  = if enabled st && pushable st then [postOf signed jti st] else [].
Proof.
  assert (Hnone : forall l : list (string * streamState),
    (forall k st, (k, st) ∈ l -> st_ID (stream st) = k) -> id ∉ l.*1 ->
    List.filter (posts_to id) (postOf signed jti <$> List.filter (fun st => enabled st && pushable st) l.*2) = []).
  { clear l. intros l Hid. induction l as [|[k st'] l IH]; cbn; [done|].
    rewrite not_elem_of_cons. intros [Hne Hni].
    assert (IH' := IH ltac:(intros; apply Hid; by constructor) Hni).
    destruct (enabled st' && pushable st'); [|exact IH']. cbn.
    rewrite (Hid k st') by constructor. by apply not_eq_sym, String.eqb_neq in Hne as ->. }
  induction l as [|[k st'] l IH]; cbn; [by intros _ _ st ?%elem_of_nil|].
  intros Hid [Hni Hnd]%NoDup_cons st Hin.
  assert (Hid' : forall k st, (k, st) ∈ l -> st_ID (stream st) = k) by (intros; apply Hid; by constructor).
  apply elem_of_cons in Hin as [[= -> ->]|Hin].
  - destruct (enabled st' && pushable st'); [|by apply Hnone]. cbn.
    rewrite (Hid k st') by constructor. rewrite String.eqb_refl. f_equal. by apply Hnone.
  - assert (k <> id) as Hne.
    { intros ->. apply Hni. apply list_elem_of_fmap. by exists (id, st). }
    rewrite <- (IH Hid' Hnd st Hin). destruct (enabled st' && pushable st'); [|done]. cbn.
    rewrite (Hid k st') by constructor. by apply String.eqb_neq in Hne as ->.
Qed.

(** Delivery is exact. In a transmitter that only served its own operations, a successful
    transmission signs the event once and starts exactly one delivery of that token to each stream that has
    an endpoint and whose delivery method is empty or the word "push" (so not the URI
    [DeliveryPush]), and not at all to the others; the event types a stream requested play no
    part. A failed transmission starts and records nothing. *)
Theorem transmit_once_per_push_stream ot os tx event s s' r event' :
  reachable tx s -> TransmitEvent ot os tx event s = (s', (r, event')) ->
  streams s' = streams s /\
  exists tr, tx_trace s' = (tx_trace s ++ tr)%list /\
  match r with
  | Err _ => tr = []
  | Ok _ => exists s1 s2 signed, signSET tx event' s1 = (s2, Ok signed) /\
      forall id st, streams s !! id = Some st ->
        let cfg := config st in
        List.filter (posts_to id) tr =
          if str_nonempty (sc_EndpointURL cfg) && str_mem (sc_DeliveryMethod cfg) [""; "push"]
          then [TxGo st signed (ev_JTI event')] else []
  end.
Proof.
  intros [Hw _]%reachable_inv Ht. pose proof (TransmitEvent_delivers ot os tx event s) as Hd.
  rewrite Ht in Hd. destruct Hd as [Hs Hd]. split; [done|]. destruct r as [u|e]; cycle 1.
  { exists []. by rewrite app_nil_r. }
  destruct Hd as (s1 & s2 & signed & posts & rest & Hsg & _ & Htr & Hnp & Hp).
  exists (posts ++ rest)%list. split; [done|]. exists s1, s2, signed. split; [done|].
  intros id st Hst. cbn. pose proof (Hw _ _ Hst) as (Hid & Hen & _).
  assert (Hrest : List.filter (posts_to id) rest = []).
  { clear Htr. induction Hnp as [|ef rest Hef _ IH]; [done|]. cbn. by destruct ef. }
  rewrite List.filter_app, Hrest, app_nil_r.
  assert (Hc := count_posts_to id signed (ev_JTI event') (map_to_list (streams s))
    ltac:(intros k st' Hk%elem_of_map_to_list; exact (proj1 (Hw _ _ Hk)))
    (NoDup_fst_map_to_list _) st ltac:(by apply elem_of_map_to_list)).
  assert (Hpp : Permutation (List.filter (posts_to id) posts)
    (if enabled st && pushable st then [postOf signed (ev_JTI event') st] else [])) by (rewrite Hp, Hc; done).
  unfold enabled in Hpp. rewrite Hen, String.eqb_refl in Hpp. unfold pushable in Hpp. cbn [andb] in Hpp.
  unfold str_mem. cbn [existsb]. rewrite orb_false_r.
  symmetry in Hpp. destruct (str_nonempty _ && _);
    [apply Permutation_length_1_inv in Hpp|apply Permutation_nil in Hpp]; by rewrite Hpp.
Qed.

End Tx.

(** * A concrete transmitter *)

#[local] Existing Instance JwtModel.lib.
Definition demo_build (iss : string) (aud : list string) (iat : Time) (jti : string)
    : option (@jwt_token JwtModel.lib) := Some ("", iss, aud, iat, 0%Z, [("jti", inl jti)]).
Definition demo_clock (n : nat) : Time := ((50 + Z.of_nat n) * Second)%Z.
Definition demo_random (n : nat) : list Byte.byte := [match Byte.of_N (N.of_nat n) with Some b => b | None => Byte.x00 end].
Definition demo_url (s : string) : result string URL :=
  if HasPrefix s "https://" then Ok {| Scheme := "https"; Hostname := TrimPrefix s "https://" |}
  else if HasPrefix s "http://" then Ok {| Scheme := "http"; Hostname := TrimPrefix s "http://" |}
  else Err "no scheme".
Definition demo_tx : @Transmitter JwtModel.lib :=
  {| tx_signKey := "k"; tx_issuer := "https://idp"; tx_syncBus := None; tx_auditor := true;
     tx_store := false; tx_unitID := "u"; tx_client := DefaultHTTPTimeout |}.
Definition demo_cfg (method endpoint : string) : StreamConfig :=
  {| sc_Issuer := ""; sc_Audience := "fabric"; sc_EventsRequested := [EventTokenRevoked];
     sc_EventsDelivered := []; sc_DeliveryMethod := method; sc_EndpointURL := endpoint |}.
Definition demo_event : SecurityEvent :=
  AddEvent (NewSecurityEvent [Byte.x6a] (40 * Second) "" "fabric"
    (Some {| si_Format := "uri"; si_SpiffeID := ""; si_Email := ""; si_URI := "wimse://td/agent" |}))
    EventSessionRevoked ∅.
Definition demo_init : TxState := {| streams := ∅; tx_tick := 0; tx_rand := 0; tx_trace := [] |}.
Definition demo_step := request demo_clock demo_random demo_url demo_build demo_tx.
Definition demo_state : TxState :=
  demo_step (ReqTransmit key_order key_order demo_event)
    (demo_step (ReqCreate (demo_cfg "push" "http://evil"))
      (demo_step (ReqCreate (demo_cfg DeliveryPush "https://siem"))
        (demo_step (ReqCreate (demo_cfg "push" "https://rx")) demo_init))).

(** The plain-HTTP stream was refused, and only the stream named "push" got the token. *)
Lemma demo_state_posts :
  (fun ef => match ef with TxGo st _ _ => Some (st_ID (stream st), sc_EndpointURL (config st)) | _ => None end) <$> List.filter is_post (tx_trace demo_state)
  = [Some ("00", "https://rx")] /\ StreamCount demo_state = 2%nat.
Proof. vm_compute. split; reflexivity. Qed.

Lemma transmitter_endpoints_secure_witness :
  map_Forall (wf_stream demo_url) (streams demo_state).
Proof.
  apply (transmitter_endpoints_secure demo_clock demo_random demo_url demo_build demo_tx demo_state).
  repeat apply reach_step. apply reach_init; reflexivity.
Defined.

Definition demo_before : TxState :=
  demo_step (ReqCreate (demo_cfg DeliveryPush "https://siem"))
    (demo_step (ReqCreate (demo_cfg "push" "https://rx")) demo_init).
Definition demo_sent := TransmitEvent demo_clock demo_random demo_build key_order key_order demo_tx demo_event demo_before.

Lemma sent_ok (p : TxState * (result TxErr unit * SecurityEvent)) :
  is_ok (fst (snd p)) = true -> p = (fst p, (Ok tt, snd (snd p))).
Proof. by destruct p as [? [[[]|?] ?]]. Qed.
Lemma demo_sent_ok :
  TransmitEvent demo_clock demo_random demo_build key_order key_order demo_tx demo_event demo_before
  = (fst demo_sent, (Ok tt, snd (snd demo_sent))).
Proof. change (demo_sent = (fst demo_sent, (Ok tt, snd (snd demo_sent)))). apply sent_ok. vm_compute. reflexivity. Qed.

Lemma transmit_once_per_push_stream_witness : exists tr,
  tx_trace (fst demo_sent) = (tx_trace demo_before ++ tr)%list /\ List.filter (posts_to "01") tr = [].
Proof.
  destruct (transmit_once_per_push_stream demo_clock demo_random demo_url demo_build key_order key_order
    demo_tx demo_event demo_before (fst demo_sent) (Ok tt) (snd (snd demo_sent))) as (_ & tr & Htr & Hc);
    [repeat apply reach_step; apply reach_init; reflexivity|exact demo_sent_ok|].
  exists tr. split; [exact Htr|]. destruct Hc as (s1 & s2 & signed & _ & Hc).
  rewrite (Hc "01" {| stream := {| st_ID := "01"; st_Issuer := "https://idp"; st_Audience := "fabric";
    st_EventsSupported := EventTypes; st_Status := "enabled" |};
    config := demo_cfg DeliveryPush "https://siem"; created := (51 * Second)%Z |});
    vm_compute; reflexivity.
Defined.

End Transmitter.
