(* ===== verification/SignalFlow.v ===== *)
(** Revocation across fabrics: a security event signed by the transmitter of one fabric, received
    by another one that trusts its key, and the token exchange that consults the index. *)
From Stdlib Require Import ZArith QArith Lia.
From stdpp Require Import base gmap strings list.
From S2P Require Import Prelude.
From S2P Require Import GoLib.
From S2P Require Import JwtModel.
From S2P Require Import Core.
From S2P Require Import DPoP.
From S2P Require Import Revocation.
From S2P Require Import Exchange.
From S2P Require Import ExchangeSpec.
From S2P Require Import Receiver.
From S2P Require Import Transmitter.

#[local] Open Scope Z_scope.
#[local] Open Scope string_scope.

Module SignalFlow.
Import Receiver Transmitter.

(** A token extended with private claims. *)
Inductive extends `{!JwtLib} (t0 : jwt_token) : jwt_token -> Prop :=
| ext_refl : extends t0 t0
| ext_set t k v t' : extends t0 t -> k ∉ registered_claims -> jwt_Set t k v = Some t' -> extends t0 t'.

(** What the JWT library documents of tokens without expiry, as SETs are: the builder stores what
    it is given, private claims do not change the JTI, and a signed token parses back, with its
    issuer readable before verification, the signing key's [kid] and algorithm in the header, and
    times in whole seconds. *)
Class SetLaws `{!JwtLib, !JwsLib} (set_Build : string -> list string -> Time -> string -> option jwt_token)
    (hdr_KeyID : jws_headers -> option string) : Prop := {
  set_build_std : forall iss aud iat jti t, set_Build iss aud iat jti = Some t ->
      jwt_Issuer t = Some iss /\ jwt_Audience t = Some aud /\ jwt_IssuedAt t = Some iat /\
      jwt_JwtID t = Some jti /\ (forall k, k ∉ registered_claims -> jwt_claim t k = None);
  set_jti : forall t k v t', k ∉ registered_claims -> jwt_Set t k v = Some t' ->
      jwt_JwtID t' = jwt_JwtID t;
  set_parse : forall iss aud iat jti t0 t key pk raw now,
      set_Build iss aud iat jti = Some t0 -> extends t0 t -> jwt_Sign key t = Some raw ->
      jwk_PublicKey key = Some pk -> iat <= now ->
      exists hdr ti t' iat', jws_Parse raw = Some [hdr] /\ hdr_Algorithm hdr = Some "RS256" /\
        hdr_KeyID hdr = jwk_KeyID key /\
        jwt_ParseInsecure raw = Some ti /\ jwt_Issuer ti = jwt_Issuer t /\
        jwt_ParseWithKey "RS256" pk now raw = Some t' /\
        jwt_Issuer t' = jwt_Issuer t /\ jwt_Audience t' = jwt_Audience t /\
        jwt_JwtID t' = jwt_JwtID t /\ jwt_IssuedAt t' = Some iat' /\ Unix iat' = Unix iat /\
        (forall n, n ∉ registered_claims -> jwt_claim t' n = jwt_claim t n);
}.

(** The claims of a SET are private. *)
Lemma private k : str_mem k registered_claims = false -> k ∉ registered_claims.
Proof. intros Hk Hin%str_mem_true. congruence. Qed.

(** Reading back what the transmitter writes. *)
Lemma lookup_put k k' v m :
  put k v m !! k' = if (k =? k')%string && str_nonempty v then Some (VStr v) else m !! k'.
Proof.
  unfold put. destruct (str_nonempty v); [|by rewrite andb_false_r].
  destruct (String.eqb_spec k k') as [->|Hne]; cbn; [apply lookup_insert_eq|by apply lookup_insert_ne].
Qed.

Lemma subjectOf_JSON sid : subjectOf <$> as_object (subjectJSON sid) = Some sid.
Proof.
  unfold subjectJSON. cbn [as_object fmap option_fmap option_map]. f_equal. destruct sid as [f sp em u].
  unfold subjectOf. cbn [si_Format si_SpiffeID si_Email si_URI].
  rewrite lookup_insert_eq, !lookup_insert_ne by done. rewrite !lookup_put. cbn [String.eqb Ascii.eqb Bool.eqb].
  rewrite lookup_empty.
  f_equal; cbn [andb mbind option_bind as_string];
    match goal with |- context [str_nonempty ?v] => destruct (str_nonempty v) eqn:Hv; [done|] end;
    by apply str_nonempty_false in Hv.
Qed.

Lemma events_JSON events : exists m, as_object (eventsJSON events) = Some m /\
  (fun v => match as_object v with Some m => m | None => ∅ end) <$> m = events.
Proof.
  eexists. split; [reflexivity|]. rewrite <- map_fmap_compose.
  rewrite <- (map_fmap_id events) at 2. by apply map_fmap_ext.
Qed.
Section Flow.
Context `{!JwtLib, !JwsLib} {jwt_laws : JwtLaws}.
Variable tx_clock : nat -> Time.
Variable random : nat -> list Byte.byte.
Variable set_Build : string -> list string -> Time -> string -> option jwt_token.
Variable hdr_KeyID : jws_headers -> option string.
Context {set_laws : SetLaws set_Build hdr_KeyID}.

(** The standard claims of a token survive private claims. *)
Lemma extends_std t0 t : extends t0 t ->
  jwt_Issuer t = jwt_Issuer t0 /\ jwt_Audience t = jwt_Audience t0 /\ jwt_JwtID t = jwt_JwtID t0.
Proof using jwt_laws set_laws.
  induction 1 as [|t k v t' _ (IH1 & IH2 & IH3) Hk Hs]; [done|].
  destruct (jwt_set_std _ _ _ _ Hk Hs) as (_ & -> & -> & _). by rewrite (set_jti _ _ _ _ Hk Hs).
Qed.

(** The claims of a signed SET. *)
Record set_token (event : SecurityEvent) (iat : Time) (t : jwt_token) : Prop := {
  tk_build : exists t0, set_Build (ev_Issuer event) [ev_Audience event] iat (ev_JTI event) = Some t0 /\ extends t0 t;
  tk_sub : jwt_claim t "sub_id" = subjectJSON <$> ev_SubjectID event;
  tk_events : jwt_claim t "events" = Some (eventsJSON (ev_Events event));
  tk_txn : jwt_claim t "txn" = if str_nonempty (ev_TransactionID event)
                              then Some (VStr (ev_TransactionID event)) else None;
}.

Lemma set_claim_ok t k v s s' t' : set_claim t k v s = (s', Ok t') -> jwt_Set t k v = Some t'.
Proof. unfold set_claim. destruct (jwt_Set t k v) as [u|]; [|discriminate]. by intros [= _ <-]. Qed.

Lemma signSET_ok tx event s s' raw :
  signSET tx_clock set_Build tx event s = (s', Ok raw) ->
  exists t, set_token event (tx_clock (tx_tick s)) t /\ jwt_Sign (tx_signKey tx) t = Some raw.
Proof using jwt_laws set_laws.
  unfold signSET. intros (s1 & now & [= <- <-] & H1)%st_bind_ok.
  destruct (set_Build _ _ _ _) as [t0|] eqn:Hb; [|discriminate].
  apply st_bind_ok in H1 as (s2 & t1 & Hsub & H2). apply st_bind_ok in H2 as (s3 & t2 & Hev & H3).
  apply st_bind_ok in H3 as (s4 & t3 & Htxn & Hsg). apply set_claim_ok in Hev.
  destruct (jwt_Sign (tx_signKey tx) t3) as [raw'|] eqn:Hraw; [|discriminate]. injection Hsg as _ <-.
  exists t3. split; [|done]. destruct (set_build_std _ _ _ _ _ Hb) as (_ & _ & _ & _ & Hnone).
  assert (H1 : extends t0 t1 /\ jwt_claim t1 "sub_id" = subjectJSON <$> ev_SubjectID event /\
    jwt_claim t1 "txn" = None).
  { destruct (ev_SubjectID event) as [sid|].
    - apply set_claim_ok in Hsub. split; [exact (ext_set _ _ _ _ _ (ext_refl _) (private "sub_id" eq_refl) Hsub)|].
      split; [exact (jwt_claim_set_eq _ _ _ _ (private "sub_id" eq_refl) Hsub)|].
      rewrite (jwt_claim_set_ne _ _ _ _ _ Hsub) by done. by apply Hnone, private.
    - injection Hsub as _ <-. split; [apply ext_refl|]. split; by apply Hnone, private. }
  destruct H1 as (Hx1 & Hs1 & Ht1).
  assert (Hx2 : extends t0 t2) by exact (ext_set _ _ _ _ _ Hx1 (private "events" eq_refl) Hev).
  assert (He2 : jwt_claim t2 "events" = Some (eventsJSON (ev_Events event)))
    by exact (jwt_claim_set_eq _ _ _ _ (private "events" eq_refl) Hev).
  assert (Hs2 : jwt_claim t2 "sub_id" = subjectJSON <$> ev_SubjectID event)
    by by rewrite (jwt_claim_set_ne _ _ _ _ _ Hev).
  assert (Ht2 : jwt_claim t2 "txn" = None) by by rewrite (jwt_claim_set_ne _ _ _ _ _ Hev).
  destruct (str_nonempty (ev_TransactionID event)) eqn:Hn.
  - apply set_claim_ok in Htxn. split; rewrite ?Hn.
    + exists t0. split; [done|]. exact (ext_set _ _ _ _ _ Hx2 (private "txn" eq_refl) Htxn).
    + by rewrite (jwt_claim_set_ne _ _ _ _ _ Htxn).
    + by rewrite (jwt_claim_set_ne _ _ _ _ _ Htxn).
    + exact (jwt_claim_set_eq _ _ _ _ (private "txn" eq_refl) Htxn).
  - injection Htxn as _ <-. split; rewrite ?Hn; eauto.
Qed.

(** The event as the receiver reads it: the issue time is the time of signing. *)
Definition as_received (event : SecurityEvent) (iat : Time) : SecurityEvent :=
  with_ids event (ev_JTI event) (Unix iat) (ev_Issuer event).

Lemma eventOf_parsed event iat iat' t t' :
  set_token event iat t ->
  jwt_Issuer t' = jwt_Issuer t -> jwt_Audience t' = jwt_Audience t -> jwt_JwtID t' = jwt_JwtID t ->
  jwt_IssuedAt t' = Some iat' -> Unix iat' = Unix iat ->
  (forall n, n ∉ registered_claims -> jwt_claim t' n = jwt_claim t n) ->
  eventOf t' = as_received event iat.
Proof using jwt_laws set_laws.
  intros [(t0 & Hb & Hx) Hs He Ht] H1 H2 H3 H4 H5 Hc.
  destruct (extends_std _ _ Hx) as (X1 & X2 & X3).
  destruct (set_build_std _ _ _ _ _ Hb) as (B1 & B2 & _ & B4 & _).
  unfold eventOf, get_object, get_string. rewrite !Hc by (by apply private).
  rewrite H1, X1, B1, H2, X2, B2, H3, X3, B4, H4, H5, Hs, He, Ht.
  destruct (events_JSON (ev_Events event)) as (m & Hm & Hev). cbn [mbind option_bind]. rewrite Hm, Hev.
  unfold as_received, with_ids. destruct event as [iss jti ia aud sid evs txn].
  cbn [ev_Issuer ev_JTI ev_IssuedAt ev_Audience ev_SubjectID ev_Events ev_TransactionID].
  f_equal.
  - destruct sid as [sid|]; [|done]. cbn [fmap option_fmap option_map mbind option_bind]. apply subjectOf_JSON.
  - destruct (str_nonempty txn) eqn:Hn; [done|]. by apply str_nonempty_false in Hn.
Qed.
(** * The receiving side *)

Context {I : Type} `{!RevocationIndex I} {PubKey : Type}.
Variable import_key : PubKey -> option jwk_key.
Variable rx_clock : nat -> Time.

(** The receiver's resolver publishes the transmitter's key for this issuer. *)
Definition trusts (rx : Receiver (PubKey:=PubKey)) (tx : Transmitter) (issuer : string) : Prop :=
  exists resolve pub pk, rx_jwksResolver rx = Some resolve /\
    resolve issuer (match jwk_KeyID (tx_signKey tx) with Some k => k | None => "" end) = Ok pub /\
    import_key pub = Some pk /\ jwk_PublicKey (tx_signKey tx) = Some pk.

Lemma parse_signed tx rx event s s' raw (r : RxState (I:=I)) :
  signSET tx_clock set_Build tx event s = (s', Ok raw) ->
  rx_devMode rx = false -> trusts rx tx (ev_Issuer event) -> ev_Issuer event <> "" ->
  (tx_clock (tx_tick s) <= rx_clock (rx_tick r))%Z ->
  parseSET import_key hdr_KeyID rx_clock rx raw r
  = (fst (rx_now rx_clock r), Ok (as_received event (tx_clock (tx_tick s)))).
Proof using jwt_laws set_laws.
  intros (t & Htok & Hsg)%signSET_ok Hdev (resolve & pub & pk & Hrs & Hres & Himp & Hpk) Hne Hle.
  pose proof Htok as [(t0 & Hb & Hx) _ _ _].
  destruct (set_parse _ _ _ _ _ _ _ _ _ _ Hb Hx Hsg Hpk Hle)
    as (hdr & ti & t' & iat' & P1 & P2 & P3 & P4 & P5 & P6 & P7 & P8 & P9 & P10 & P11 & P12).
  pose proof (extends_std _ _ Hx) as (X1 & _). destruct (set_build_std _ _ _ _ _ Hb) as (B1 & _).
  unfold parseSET, verifySET. rewrite Hdev, Hrs, P4, P5, X1, B1, P1, P2, P3.
  apply String.eqb_neq in Hne. rewrite Hne, Hres, Himp. unfold st_bind. cbn. rewrite P6. cbn.
  by rewrite (eventOf_parsed _ _ _ _ _ Htok P7 P8 P9 P10 P11 P12).
Qed.

(** Events survive the wire. Every delivery a successful transmission starts carries one and the
    same token, and any receiver outside dev mode that trusts the transmitter's key for the
    event's issuer parses it back, whenever it reads the clock after the signing, to the event
    that was sent: issuer, JTI, audience, subject, events and transaction, with the signing time
    as issue time. *)
Theorem set_roundtrip ot os tx event st st' event' :
  TransmitEvent tx_clock random set_Build ot os tx event st = (st', (Ok tt, event')) ->
  ev_Issuer event' <> "" ->
  exists raw n tr, tx_trace st' = (tx_trace st ++ tr)%list /\ (tx_tick st <= n < tx_tick st')%nat /\
    (forall stm signed jti, TxGo stm signed jti ∈ tr -> signed = raw) /\
    forall rx (r : RxState (I:=I)), rx_devMode rx = false -> trusts rx tx (ev_Issuer event') ->
      (tx_clock n <= rx_clock (rx_tick r))%Z ->
      exists r', parseSET import_key hdr_KeyID rx_clock rx raw r = (r', Ok (as_received event' (tx_clock n))).
Proof using jwt_laws set_laws.
  intros Ht Hne. pose proof (TransmitEvent_delivers tx_clock random set_Build ot os tx event st) as Hd.
  rewrite Ht in Hd. destruct Hd as (_ & s1 & s2 & raw & posts & rest & Hsg & Hk & Htr & Hnp & Hp).
  exists raw, (tx_tick s1), (posts ++ rest)%list. split; [done|]. split; [lia|]. split.
  - intros stm signed jti [Hin|Hin]%elem_of_app.
    + rewrite Hp in Hin. apply list_elem_of_fmap in Hin as (stm' & Heq & _). by injection Heq.
    + rewrite Forall_forall in Hnp. by specialize (Hnp _ Hin).
  - intros rx r Hdev Htr' Hle. eexists. by eapply (parse_signed tx rx event' s1 s2).
Qed.

(** * The exchange *)

Context `{!RangeOrder} {EncKey : Type}.
Variable ex_clock : nat -> Time.
Variable EncryptSecretBundle : gmap string string -> EncKey -> result string string.

(** C5: A revocation that arrives reaches the token exchange of another fabric. A successful transmission starts a
    delivery to every enabled push stream; the delivery may fail or be cancelled, which only a log line tells, and
    a request it does send is a POST of the signed token to the stream's endpoint. When the receiver gets that
    token, trusts the sender's key for the event's issuer outside dev mode, has not seen the event's JTI within its
    window, reads clocks that do not run backwards and are not behind the sender's, and has a policy that allows
    the event and orders revocation, it accepts the token; and from then on, whatever else this receiver is asked
    to do (its index having no other writer) and until the grace period ends, a token exchange that consults the
    index refuses every credential of the event's subject. *)
Theorem revocation_reaches_exchange ot os tx event st st' event' id stm rx ords s idx evaluate :
  TransmitEvent tx_clock random set_Build ot os tx event st = (st', (Ok tt, event')) ->
  streams st !! id = Some stm -> enabled stm = true -> pushable stm = true ->
  ev_Issuer event' <> "" -> ev_Events event' <> ∅ -> revocationSubject event' <> "" ->
  rx_devMode rx = false -> trusts rx tx (ev_Issuer event') -> monotone rx_clock ->
  (forall n, (n < tx_tick st')%nat -> (tx_clock n <= rx_clock (rx_tick s))%Z) ->
  seenRecently (rx_clock (S (rx_tick s))) (ev_JTI event') (jtiSeen s) = false ->
  rx_policy rx = Some evaluate ->
  (forall now, exists d, evaluate (policyInput ords now event') = Ok d /\ Allowed d = true /\
     wantsRevocation d = true) ->
  rx_index s = Some idx ->
  exists raw s1 n,
    TxGo stm raw (ev_JTI event') ∈ tx_trace st' /\
    (forall NewRequest Do req log, deliverSET NewRequest Do stm raw (ev_JTI event') = (Some req, log) ->
       req = {| sr_method := "POST"; sr_url := sc_EndpointURL (config stm);
                sr_contentType := "application/secevent+jwt"; sr_body := raw |}) /\
    ReceiveSET import_key hdr_KeyID rx_clock rx ords raw s = (s1, Ok tt) /\
    (rx_tick s <= n < rx_tick s1)%nat /\
    forall cs, exists idx', rx_index (calls import_key hdr_KeyID rx_clock rx cs s1) = Some idx' /\
    forall (e : Exchange.Engine (EncKey:=EncKey)) req es credType w,
      Exchange.e_revocation e = Some (fun t sub => ri_IsRevoked t sub idx') ->
      Exchange.authenticate e req = Ok (credType, w) -> wi_ID w = revocationSubject event' ->
      (ex_clock (Exchange.es_tick es) <= rx_clock n + rx_revocationGrace rx)%Z ->
      exists es', Exchange.Exchange ex_clock EncryptSecretBundle e req es
                  = (es', Err (Exchange.ErrSubjectRevoked (revocationSubject event'))).
Proof using jwt_laws set_laws.
  intros Ht Hstm Hen Hpu Hiss Hev Hsub Hdev Htrust Hm Hclk Hseen Hpol Hdec Hidx.
  pose proof (TransmitEvent_delivers tx_clock random set_Build ot os tx event st) as Hd.
  rewrite Ht in Hd. destruct Hd as (_ & s0 & s2 & raw & posts & rest & Hsg & Hk & Htr & _ & Hp).
  pose proof (parse_signed tx rx event' s0 s2 raw s Hsg Hdev Htrust Hiss (Hclk _ (proj2 Hk))) as Hps.
  set (ev := as_received event' (tx_clock (tx_tick s0))) in *.
  destruct (ReceiveEvent_accepts rx_clock rx ords ev (fst (rx_now rx_clock s)) evaluate)
    as [s1 Hacc]; [exact Hev|exact Hseen|exact Hpol| |].
  { intros now. destruct (Hdec now) as (d & ? & ? & _). by exists d. }
  assert (Hw : forall now d, evaluate (policyInput ords now ev) = Ok d -> wantsRevocation d = true).
  { intros now d Hd. destruct (Hdec now) as (d' & Hd' & _ & ?).
    change (policyInput ords now ev) with (policyInput ords now event') in Hd. congruence. }
  destruct (ReceiveEvent_revokes import_key hdr_KeyID rx_clock rx ords ev _ s1 evaluate idx Hm Hacc Hpol Hw Hidx Hsub)
    as (n & Hn & Hrev).
  exists raw, s1, n. split_and!; [|intros ? ? ? ?; apply deliverSET_sends|unfold ReceiveSET, st_bind; by rewrite Hps|cbn in Hn; lia|lia|].
  - rewrite Htr. apply elem_of_app; right. apply elem_of_app; left. rewrite Hp.
    apply list_elem_of_fmap. exists stm. split; [done|]. apply list_elem_of_In, filter_In.
    rewrite Hen, Hpu. split; [|done]. apply list_elem_of_In, list_elem_of_fmap.
    exists (id, stm). split; [done|]. by apply elem_of_map_to_list.
  - intros cs. destruct (Hrev cs) as (idx' & Hi' & Hr'). exists idx'. split; [done|].
    intros e req es ct w He Ha Hwid Hle. destruct (Hr' _ Hle) as (en & Hen').
    destruct (ExchangeSpec.Exchange_revoked ex_clock EncryptSecretBundle e req es _ en ct w He Ha)
      as (evt & Hx & _); [by rewrite Hwid|]. rewrite Hwid in Hx. eauto.
Qed.
End Flow.
(** * A concrete fabric pair *)

#[local] Existing Instance JwtModel.lib.
#[local] Existing Instance JwtModel.laws.
#[local] Existing Instance Receiver.demo_jws.
#[local] Existing Instance Revocation.InMemory_RevocationIndex.
#[local] Existing Instance key_order.

(** The header of the concrete library names the public key. *)
Definition demo_hdr_kid (h : @jws_headers _ Receiver.demo_jws) : option string := Some (TrimPrefix h "pub:").

Lemma trim_pub k : TrimPrefix ("pub:" +:+ k) "pub:" = k.
Proof. unfold TrimPrefix, HasPrefix. cbn. by destruct k. Qed.

Lemma extends_iat (t0 t : @jwt_token JwtModel.lib) : extends t0 t -> JwtModel.t_iat t = JwtModel.t_iat t0.
Proof.
  induction 1 as [|t k v t' _ IH _ Hs]; [done|]. rewrite <- IH. cbn in Hs.
  destruct (JwtModel.of_value v); [|done]. by injection Hs as <-.
Qed.

#[local] Instance demo_set_laws : SetLaws Transmitter.demo_build demo_hdr_kid.
Proof.
  split.
  - intros iss aud iat jti t [= <-]. split_and!; try reflexivity. intros k Hk. cbn.
    destruct (String.eqb_spec k "jti") as [->|]; [|done].
    exfalso. apply Hk. apply str_mem_true. reflexivity.
  - intros t k v t' Hk. cbn. destruct (JwtModel.of_value v) as [c|]; [|done]. intros [= <-].
    unfold jwt_JwtID. cbn [JwtModel.lib JwtModel.assoc JwtModel.t_claims snd].
    destruct (String.eqb_spec "jti" k) as [<-|]; [|done].
    exfalso. apply Hk. apply str_mem_true. reflexivity.
  - intros iss aud iat jti t0 t key pk raw now [= <-] Hx [= <-] [= <-] Hle.
    assert (Hiat : JwtModel.t_iat t = iat) by (rewrite (extends_iat _ _ Hx); reflexivity).
    exists ("pub:" +:+ key), t, t, iat. cbn. rewrite JwtModel.decode_encode_signed. cbn.
    rewrite String.eqb_refl, Hiat. destruct (Z.leb_spec iat now); [|lia].
    split_and!; try done. unfold demo_hdr_kid. by rewrite trim_pub.
Qed.

(** A delivery that fails leaves no trace but a log line: the transmission has already succeeded. *)
Example failed_delivery_is_only_logged :
  is_ok (fst (snd Transmitter.demo_sent)) = true /\
  deliverSET (fun _ => None) (fun _ => Err "context canceled") {| stream := {| st_ID := "00"; st_Issuer := "https://idp";
      st_Audience := "fabric"; st_EventsSupported := EventTypes; st_Status := "enabled" |};
    config := Transmitter.demo_cfg "push" "https://rx"; created := (50 * Second)%Z |} "set" "j1"
  = (Some {| sr_method := "POST"; sr_url := "https://rx"; sr_contentType := "application/secevent+jwt"; sr_body := "set" |},
     LogFailed "context canceled" "00" "https://rx").
Proof. vm_compute. split; reflexivity. Qed.

Lemma set_roundtrip_witness : exists raw n, forall (r : RxState (I:=Revocation.InMemoryRevocationIndex)),
  (Transmitter.demo_clock n <= Receiver.demo_clock (rx_tick r))%Z ->
  exists r', parseSET Receiver.demo_import demo_hdr_kid Receiver.demo_clock Receiver.demo_rx raw r
    = (r', Ok (as_received (snd (snd Transmitter.demo_sent)) (Transmitter.demo_clock n))).
Proof.
  destruct (set_roundtrip (I:=Revocation.InMemoryRevocationIndex) Transmitter.demo_clock Transmitter.demo_random
    Transmitter.demo_build demo_hdr_kid Receiver.demo_import Receiver.demo_clock key_order key_order
    Transmitter.demo_tx Transmitter.demo_event Transmitter.demo_before (fst Transmitter.demo_sent)
    (snd (snd Transmitter.demo_sent)) Transmitter.demo_sent_ok) as (raw & n & tr & _ & _ & _ & Hp).
  { vm_compute. discriminate. }
  exists raw, n. intros r Hle. apply Hp; [reflexivity| |exact Hle].
  eexists _, "pub:k", "pub:k". split; [reflexivity|]. split; [vm_compute; reflexivity|]. split; reflexivity.
Defined.
Definition demo_sent_event : SecurityEvent := snd (snd Transmitter.demo_sent).
Definition demo_stream : streamState :=
  {| stream := {| st_ID := "00"; st_Issuer := "https://idp"; st_Audience := "fabric";
                  st_EventsSupported := EventTypes; st_Status := "enabled" |};
     config := Transmitter.demo_cfg "push" "https://rx"; created := (50 * Second)%Z |}.

Lemma demo_trusts issuer : issuer = "https://idp" ->
  trusts Receiver.demo_import Receiver.demo_rx Transmitter.demo_tx issuer.
Proof. intros ->. eexists _, "pub:k", "pub:k". split_and!; reflexivity. Qed.

Lemma demo_ticks n : (n < tx_tick (fst Transmitter.demo_sent))%nat ->
  (Transmitter.demo_clock n <= Receiver.demo_clock (rx_tick Receiver.demo_s0))%Z.
Proof.
  assert (tx_tick (fst Transmitter.demo_sent) = 3%nat) as -> by (vm_compute; reflexivity).
  unfold Transmitter.demo_clock, Receiver.demo_clock, Second. change (rx_tick Receiver.demo_s0) with 0%nat. lia.
Qed.

Lemma demo_sent_events : ev_Events demo_sent_event <> ∅.
Proof.
  assert (size (ev_Events demo_sent_event) = 1%nat) as Hs by (vm_compute; reflexivity).
  intros He. rewrite He, map_size_empty in Hs. discriminate Hs.
Qed.

Lemma revocation_reaches_exchange_witness : exists n idx',
  forall es, (ExchangeSpec.demo_clock (Exchange.es_tick es) <= Receiver.demo_clock n + 1 * Hour)%Z ->
  exists es', Exchange.Exchange ExchangeSpec.demo_clock ExchangeSpec.demo_encrypt
    (ExchangeSpec.demo_engine (Some (fun t sub => ri_IsRevoked t sub idx'))) (ExchangeSpec.demo_req "" "n1") es
    = (es', Err (Exchange.ErrSubjectRevoked "wimse://td/agent")).
Proof.
  destruct (revocation_reaches_exchange Transmitter.demo_clock Transmitter.demo_random
    Transmitter.demo_build demo_hdr_kid Receiver.demo_import Receiver.demo_clock
    ExchangeSpec.demo_clock ExchangeSpec.demo_encrypt key_order key_order
    Transmitter.demo_tx Transmitter.demo_event Transmitter.demo_before (fst Transmitter.demo_sent)
    demo_sent_event "00" demo_stream Receiver.demo_rx Receiver.demo_orders Receiver.demo_s0
    Revocation.NewRevocationIndex Receiver.demo_policy Transmitter.demo_sent_ok)
    as (raw & s1 & n & _ & _ & _ & _ & Hx);
    [vm_compute; reflexivity|reflexivity|reflexivity|vm_compute; discriminate| |vm_compute; discriminate
    |reflexivity|apply demo_trusts; vm_compute; reflexivity|apply Receiver.demo_monotone|apply demo_ticks
    |reflexivity|reflexivity| |reflexivity|].
  - exact demo_sent_events.
  - intros now. eexists. split; [reflexivity|]. split; vm_compute; reflexivity.
  - exists n. destruct (Hx Receiver.demo_calls) as (idx' & _ & Hden). exists idx'. intros es Hle.
    eapply (Hden _ _ es); [reflexivity|reflexivity|vm_compute; reflexivity|exact Hle].
Defined.
End SignalFlow.
