(* ===== verification/FedTypes.v ===== *)
(** The types and configuration of the cross-cluster signal gateway
    ([pkg/federation/signal_gateway.go]) and the bounded set of event identifiers that the relay
    and the inbound handler both keep ([seen], [seenOrder], [maxSeen] and [evictOldestLocked] of
    [pkg/federation/relay.go] and [inbound.go]). *)
From Stdlib Require Import ZArith Lia.
From stdpp Require Import base gmap strings list sets.
From S2P Require Import Prelude.
From S2P Require Import GoLib.
From S2P Require Import Core.

#[local] Open Scope string_scope.
#[local] Open Scope list_scope.
#[local] Open Scope Z_scope.

(** A value of Go's [int64] after an addition. *)
Definition i64 (z : Z) : Z := (z + 9223372036854775808) mod two64 - 9223372036854775808.

Lemma i64_small z : - 9223372036854775808 <= z < 9223372036854775808 -> i64 z = z.
Proof. intros. unfold i64. rewrite Z.mod_small; unfold two64; lia. Qed.

Module Gateway.

(** A response: its status, the bytes of its body and the error that ends the body, if any. *)
Record Response : Type := { rsp_Status : Z; rsp_Body : list Byte.byte; rsp_ReadErr : option string }.

(** [io.ReadAll(io.LimitReader(body, n))] *)
Definition ReadAllLimit (n : nat) (r : Response) : result string (list Byte.byte) :=
  if (n <=? length (rsp_Body r))%nat then Ok (take n (rsp_Body r)) else
  match rsp_ReadErr r with
  | Some e => Err e
  | None => Ok (rsp_Body r)
  end.

(** [RevocationSignal]; [rs_CertFabricID] is not part of the wire format. *)
Record RevocationSignal : Type := {
  rs_SubjectID : string;
  rs_Reason : string;
  rs_RevokedAt : Time;
  rs_ExpiresAt : Time;
  rs_EventJTI : string;
  rs_SourceFabric : string;
  rs_TrustDomain : string;
  rs_CertFabricID : string;
}.

(** [PeerSignalStatus] *)
Inductive PeerSignalStatus : Type := SignalHealthy | SignalDegraded | SignalDown.
#[export] Instance PeerSignalStatus_eq_dec : EqDecision PeerSignalStatus.
Proof. solve_decision. Defined.

(** [PeerSignalState] *)
Record PeerSignalState : Type := {
  ps_FabricID : string;
  ps_Transport : string;
  ps_LastRelayed : Time;
  ps_LastReceived : Time;
  ps_RelayedCount : Z;
  ps_ReceivedCount : Z;
  ps_ErrorCount : Z;
  ps_ConsecutiveErrors : Z;
  ps_RevocationHash : string;
  ps_Status : PeerSignalStatus;
}.

(** [GatewayState] *)
Record GatewayState : Type := {
  gs_Peers : gmap string PeerSignalState;
  gs_UpdatedAt : Time;
}.

(** [HealthyCount], [DegradedCount] and [DownCount]: the loop that counts one status. *)
Definition countStatus `{!RangeOrder} (st : PeerSignalStatus) (gs : GatewayState) : nat :=
  fold_left (fun n kv => if decide (ps_Status kv.2 = st) then S n else n) (range (gs_Peers gs)) O.
Definition HealthyCount `{!RangeOrder} := countStatus SignalHealthy.
Definition DegradedCount `{!RangeOrder} := countStatus SignalDegraded.
Definition DownCount `{!RangeOrder} := countStatus SignalDown.

(** [PeerSignalConfig] and [SignalGatewayConfig] *)
Record PeerSignalConfig : Type := {
  pc_FabricID : string;
  pc_Endpoint : string;
  pc_Transport : string;
  pc_RelayTimeout : Duration;
  pc_SyncInterval : Duration;
  pc_MTLSSecret : string;
}.
Record SignalGatewayConfig : Type := { cfg_Peers : list PeerSignalConfig }.

Definition DefaultRelayTimeout : Duration := 2 * Second.
Definition DefaultSyncInterval : Duration := 30 * Second.

(** [ApplyDefaults] *)
Definition ApplyDefaults (p : PeerSignalConfig) : PeerSignalConfig :=
  {| pc_FabricID := pc_FabricID p;
     pc_Endpoint := pc_Endpoint p;
     pc_Transport := if (pc_Transport p =? "")%string then "https" else pc_Transport p;
     pc_RelayTimeout := if pc_RelayTimeout p <=? 0 then DefaultRelayTimeout else pc_RelayTimeout p;
     pc_SyncInterval := if pc_SyncInterval p <=? 0 then DefaultSyncInterval else pc_SyncInterval p;
     pc_MTLSSecret := pc_MTLSSecret p |}.

Definition validTransports : gset string := {[ "https" ]}.
Definition unimplementedTransports : gset string := {[ "nats" ]}.

(** The errors of [ValidateSignalGatewayConfig], with the index of the peer. *)
Inductive ConfigErr : Type :=
| FabricIDRequired (i : nat)
| DuplicateFabricID (i : nat) (id : string) (first : nat)
| EndpointRequired (i : nat) (id : string)
| TransportNotImplemented (i : nat) (id transport : string)
| InvalidTransport (i : nat) (id transport : string)
| RelayTimeoutNotPositive (i : nat) (id : string)
| SyncIntervalNotPositive (i : nat) (id : string).

(** One iteration of [ValidateSignalGatewayConfig], and the loop. *)
Definition validatePeer (i : nat) (seenIDs : gmap string nat) (p0 : PeerSignalConfig)
    : result ConfigErr (gmap string nat) :=
  let? _ := reject (pc_FabricID p0 =? "")%string (FabricIDRequired i) in
  match seenIDs !! pc_FabricID p0 with
  | Some prevIdx => Err (DuplicateFabricID i (pc_FabricID p0) prevIdx)
  | None =>
      let seenIDs' := <[pc_FabricID p0 := i]> seenIDs in
      let? _ := reject (pc_Endpoint p0 =? "")%string (EndpointRequired i (pc_FabricID p0)) in
      let p := ApplyDefaults p0 in
      let? _ := reject (bool_decide (pc_Transport p ∈ unimplementedTransports))
                  (TransportNotImplemented i (pc_FabricID p) (pc_Transport p)) in
      let? _ := reject (negb (bool_decide (pc_Transport p ∈ validTransports)))
                  (InvalidTransport i (pc_FabricID p) (pc_Transport p)) in
      let? _ := reject (pc_RelayTimeout p <=? 0) (RelayTimeoutNotPositive i (pc_FabricID p)) in
      let? _ := reject (pc_SyncInterval p <=? 0) (SyncIntervalNotPositive i (pc_FabricID p)) in
      Ok seenIDs'
  end.
Fixpoint validateFrom (i : nat) (seenIDs : gmap string nat) (ps : list PeerSignalConfig)
    : result ConfigErr unit :=
  match ps with
  | [] => Ok tt
  | p :: ps' => let? seenIDs' := validatePeer i seenIDs p in validateFrom (S i) seenIDs' ps'
  end.
Definition ValidateSignalGatewayConfig (cfg : SignalGatewayConfig) : result ConfigErr unit :=
  validateFrom O ∅ (cfg_Peers cfg).

(** * What validation accepts *)

(** A peer entry that can be used: it names a fabric and an endpoint, and its transport is the
    implemented one or left out. *)
Definition usable (p : PeerSignalConfig) : Prop :=
  pc_FabricID p <> "" /\ pc_Endpoint p <> "" /\ (pc_Transport p = "" \/ pc_Transport p = "https").

Lemma defaults_positive p :
  0 < pc_RelayTimeout (ApplyDefaults p) /\ 0 < pc_SyncInterval (ApplyDefaults p).
Proof.
  cbn. unfold DefaultRelayTimeout, DefaultSyncInterval, Second.
  destruct (Z.leb_spec (pc_RelayTimeout p) 0), (Z.leb_spec (pc_SyncInterval p) 0); lia.
Qed.

Lemma default_transport p :
  pc_Transport (ApplyDefaults p) = "https" <-> pc_Transport p = "" \/ pc_Transport p = "https".
Proof. cbn. destruct (String.eqb_spec (pc_Transport p) ""); naive_solver. Qed.

Lemma validatePeer_ok i m p m' :
  validatePeer i m p = Ok m' <->
  usable p /\ m !! pc_FabricID p = None /\ m' = <[pc_FabricID p := i]> m.
Proof.
  unfold validatePeer, usable. pose proof (defaults_positive p) as [Hr Hs].
  rewrite <- default_transport. split.
  - intros H. apply rbind_ok in H as ([] & Hid%reject_ok & H). apply String.eqb_neq in Hid.
    destruct (m !! pc_FabricID p) eqn:Hm; [done|].
    apply rbind_ok in H as ([] & He%reject_ok & H). apply String.eqb_neq in He.
    apply rbind_ok in H as ([] & _ & H).
    apply rbind_ok in H as ([] & Ht%reject_ok & H).
    apply negb_false_iff, bool_decide_eq_true in Ht.
    apply rbind_ok in H as ([] & _ & H). apply rbind_ok in H as ([] & _ & [= <-]).
    unfold validTransports in Ht. rewrite elem_of_singleton in Ht. done.
  - intros ((Hid & He & Ht) & -> & ->).
    apply String.eqb_neq in Hid as ->. apply String.eqb_neq in He as ->.
    rewrite Ht. apply Z.leb_gt in Hr as ->. apply Z.leb_gt in Hs as ->. done.
Qed.

Lemma validateFrom_ok ps : forall i m,
  validateFrom i m ps = Ok tt <->
  Forall usable ps /\ NoDup (pc_FabricID <$> ps) /\ Forall (fun p => m !! pc_FabricID p = None) ps.
Proof.
  induction ps as [|p ps IH]; intros i m; cbn [validateFrom].
  - split; [|done]. intros _. split; [done|]. split; [apply NoDup_nil_2|done].
  - rewrite rbind_ok. setoid_rewrite validatePeer_ok. setoid_rewrite IH.
    rewrite fmap_cons, NoDup_cons, !Forall_cons. split.
    + intros (m' & (Hu & Hm & ->) & Hus & Hnd & Hfresh). split; [done|].
      rewrite Forall_forall in Hfresh. setoid_rewrite lookup_insert_None in Hfresh.
      split; [split; [|done]|split; [done|rewrite Forall_forall; naive_solver]].
      rewrite list_elem_of_fmap. intros (q & Hq & Hin). by apply (proj2 (Hfresh _ Hin)).
    + intros ((Hu & Hus) & (Hnin & Hnd) & Hm & Hfresh). eexists. split; [done|]. split; [done|].
      split; [done|]. rewrite Forall_forall in *. intros q Hin.
      rewrite lookup_insert_None. split; [by apply Hfresh|]. intros Heq. apply Hnin.
      rewrite list_elem_of_fmap. by exists q.
Qed.

(** Validation accepts exactly the configurations whose peers are all usable and have distinct
    fabric identifiers; after the defaults every accepted peer has the implemented transport
    and positive timings. *)
Theorem validate_accepts_exactly cfg :
  ValidateSignalGatewayConfig cfg = Ok tt <->
  NoDup (pc_FabricID <$> cfg_Peers cfg) /\
  Forall (fun p => usable p /\ pc_Transport (ApplyDefaults p) = "https" /\
                   0 < pc_RelayTimeout (ApplyDefaults p) /\ 0 < pc_SyncInterval (ApplyDefaults p))
         (cfg_Peers cfg).
Proof.
  unfold ValidateSignalGatewayConfig. rewrite validateFrom_ok. rewrite !Forall_forall.
  setoid_rewrite default_transport. split.
  - intros (Hu & Hnd & _). split; [done|]. intros p Hin. pose proof (defaults_positive p).
    pose proof (Hu p Hin) as (? & ? & ?). done.
  - intros (Hnd & Hu). split; [intros p Hin; apply Hu, Hin|]. split; [done|]. intros. apply lookup_empty.
Qed.

(** * The bounded FIFO set of event identifiers *)

Record Dedup : Type := {
  seen : gset string;
  seenOrder : list string;
  maxSeen : nat;
}.

Definition defaultMaxSeen : nat := 100 * 100.
Definition newDedup : Dedup := {| seen := ∅; seenOrder := []; maxSeen := defaultMaxSeen |}.

(** [evictOldestLocked] *)
Definition evictCount (d : Dedup) : nat :=
  let n := (maxSeen d / 10)%nat in
  let n := if (n =? 0)%nat then 1%nat else n in
  if (length (seenOrder d) <? n)%nat then length (seenOrder d) else n.
Definition evictOldestLocked (d : Dedup) : Dedup :=
  {| seen := fold_left (fun s jti => s ∖ {[ jti ]}) (take (evictCount d) (seenOrder d)) (seen d);
     seenOrder := drop (evictCount d) (seenOrder d);
     maxSeen := maxSeen d |}.

(** The locked section of [RelayRevocation] and of [ReceiveRevocation]: true when the identifier
    is a duplicate. An empty identifier is neither looked up nor recorded. *)
Definition remember (jti : string) (d : Dedup) : Dedup * bool :=
  if (jti =? "")%string then (d, false) else
  if bool_decide (jti ∈ seen d) then (d, true) else
  let d' := {| seen := {[ jti ]} ∪ seen d; seenOrder := seenOrder d ++ [jti]; maxSeen := maxSeen d |} in
  (if (maxSeen d' <? size (seen d'))%nat then evictOldestLocked d' else d', false).

Definition dedup_wf (d : Dedup) : Prop :=
  seen d = list_to_set (seenOrder d) /\ NoDup (seenOrder d) /\ (length (seenOrder d) <= maxSeen d)%nat.

(** How many entries an eviction removes from a full set. *)
Definition evictStep (m : nat) : nat := Nat.max 1 (m / 10).

Lemma evictCount_full d : (maxSeen d < length (seenOrder d))%nat -> evictCount d = evictStep (maxSeen d).
Proof.
  intros Hl. unfold evictCount, evictStep. pose proof (Nat.Div0.div_le_upper_bound (maxSeen d) 10 (maxSeen d)).
  destruct (Nat.eqb_spec (maxSeen d / 10) 0) as [Hz|Hz].
  - rewrite Hz. assert ((length (seenOrder d) <? 1)%nat = false) as -> by (apply Nat.ltb_ge; lia). done.
  - assert ((length (seenOrder d) <? maxSeen d / 10)%nat = false) as -> by (apply Nat.ltb_ge; lia). lia.
Qed.

Lemma fold_delete_set (l : list string) : forall s : gset string,
  fold_left (fun s jti => s ∖ {[ jti ]}) l s = s ∖ list_to_set l.
Proof. induction l as [|x l IH]; intros s; cbn; [set_solver|]. rewrite IH. set_solver. Qed.

Lemma remember_dup jti d : jti <> "" -> jti ∈ seen d -> remember jti d = (d, true).
Proof. intros Hj Hin. unfold remember. apply String.eqb_neq in Hj as ->. by rewrite bool_decide_true. Qed.

Lemma remember_order jti d :
  dedup_wf d -> jti <> "" -> jti ∉ seen d ->
  (remember jti d).2 = false /\
  seenOrder (remember jti d).1 =
    (if (length (seenOrder d) <? maxSeen d)%nat then seenOrder d ++ [jti]
     else drop (evictStep (maxSeen d)) (seenOrder d ++ [jti])).
Proof.
  intros (Hs & Hnd & Hl) Hj Hnin. unfold remember. apply String.eqb_neq in Hj as ->.
  rewrite bool_decide_false by done. cbn [fst snd].
  assert (Hsz : size ({[ jti ]} ∪ seen d) = S (length (seenOrder d))).
  { rewrite size_union by set_solver. rewrite size_singleton, Hs, size_list_to_set by done. done. }
  cbn [seen maxSeen]. rewrite Hsz. split; [done|].
  destruct (Nat.ltb_spec (length (seenOrder d)) (maxSeen d)) as [Hlt|Hge].
  - assert ((maxSeen d <? S (length (seenOrder d)))%nat = false) as -> by (apply Nat.ltb_ge; lia). done.
  - assert ((maxSeen d <? S (length (seenOrder d)))%nat = true) as -> by (apply Nat.ltb_lt; lia).
    unfold evictOldestLocked. cbn [seenOrder]. rewrite evictCount_full; [done|].
    cbn. rewrite length_app. cbn. lia.
Qed.

Lemma NoDup_take_drop_disjoint (l : list string) n :
  NoDup l -> list_to_set (take n l) ## (list_to_set (drop n l) : gset string).
Proof.
  intros Hnd. rewrite <- (take_drop n l) in Hnd. apply NoDup_app in Hnd as (_ & Hd & _).
  intros x. rewrite !elem_of_list_to_set. apply Hd.
Qed.

Lemma dedup_wf_evict d :
  seen d = list_to_set (seenOrder d) -> NoDup (seenOrder d) -> length (seenOrder d) = S (maxSeen d) ->
  dedup_wf (evictOldestLocked d).
Proof.
  intros Hs Hnd Hl. unfold dedup_wf, evictOldestLocked. cbn. rewrite fold_delete_set, Hs.
  pose proof (NoDup_take_drop_disjoint (seenOrder d) (evictCount d) Hnd) as Hdis.
  split; [|split].
  - rewrite <- (take_drop (evictCount d) (seenOrder d)) at 1. rewrite list_to_set_app_L. set_solver.
  - rewrite <- (take_drop (evictCount d) (seenOrder d)) in Hnd. by apply NoDup_app in Hnd as (_ & _ & ?).
  - rewrite length_drop, evictCount_full by lia. unfold evictStep. lia.
Qed.

Lemma dedup_wf_remember jti d : dedup_wf d -> dedup_wf (remember jti d).1.
Proof.
  intros Hw. pose proof Hw as (Hs & Hnd & Hl). unfold remember.
  destruct (String.eqb_spec jti ""); [done|].
  destruct (bool_decide_reflect (jti ∈ seen d)) as [Hin|Hnin]; [done|]. cbn [fst].
  assert (Hnd' : NoDup (seenOrder d ++ [jti])).
  { apply NoDup_app. split; [done|]. split; [|apply NoDup_singleton]. intros x Hx ->%list_elem_of_singleton.
    apply Hnin. rewrite Hs. by apply elem_of_list_to_set. }
  assert (Hset : {[ jti ]} ∪ seen d = list_to_set (seenOrder d ++ [jti])).
  { rewrite list_to_set_app_L, Hs. cbn. set_solver. }
  cbn [seen maxSeen]. rewrite Hset, size_list_to_set by done.
  destruct (Nat.ltb_spec (maxSeen d) (length (seenOrder d ++ [jti]))) as [Hlt|Hge].
  - apply dedup_wf_evict; cbn; [done|done|]. rewrite length_app in *. cbn in *. lia.
  - split; [done|]. by split.
Qed.

Lemma maxSeen_remember jti d : maxSeen (remember jti d).1 = maxSeen d.
Proof. unfold remember. repeat case_match; done. Qed.

Lemma newDedup_wf : dedup_wf newDedup.
Proof. split; [done|]. split; [apply NoDup_nil_2|]. unfold newDedup. cbn [seenOrder maxSeen length]. lia. Qed.

(** Recording a sequence of identifiers. *)
Definition rememberAll (js : list string) (d : Dedup) : Dedup :=
  fold_left (fun d jti => (remember jti d).1) js d.

(** The identifier is in the set with at most [n] younger ones behind it. *)
Definition aged (jti : string) (n : nat) (d : Dedup) : Prop :=
  exists pre post, seenOrder d = pre ++ jti :: post /\ (length post <= n)%nat.

Lemma aged_seen jti n d : dedup_wf d -> aged jti n d -> jti ∈ seen d.
Proof. intros (-> & _) (pre & post & -> & _). rewrite elem_of_list_to_set. set_solver. Qed.

Lemma aged_step jti k n d :
  dedup_wf d -> aged jti n d -> (n < maxSeen d - evictStep (maxSeen d))%nat ->
  aged jti (S n) (remember k d).1.
Proof.
  intros Hw Ha Hn. destruct (decide (k = "")) as [->|Hk].
  { destruct Ha as (pre & post & ? & ?). exists pre, post. split; [done|lia]. }
  destruct (decide (k ∈ seen d)) as [Hin|Hnin].
  { rewrite remember_dup by done. destruct Ha as (pre & post & ? & ?). exists pre, post. split; [done|lia]. }
  destruct (remember_order k d Hw Hk Hnin) as [_ Ho]. destruct Ha as (pre & post & Heq & Hp).
  pose proof Hw as (_ & _ & Hl). unfold aged. rewrite Ho, Heq.
  destruct (Nat.ltb_spec (length (pre ++ jti :: post)) (maxSeen d)) as [Hlt|Hge].
  - exists pre, (post ++ [k]). rewrite length_app, <- app_assoc. cbn. split; [done|lia].
  - rewrite length_app in Hge. cbn in Hge.
    exists (drop (evictStep (maxSeen d)) pre), (post ++ [k]). rewrite length_app. cbn.
    split; [|lia]. rewrite <- app_assoc, drop_app_le by lia. done.
Qed.

Lemma aged_new jti d :
  dedup_wf d -> (2 <= maxSeen d)%nat -> jti <> "" -> jti ∉ seen d -> aged jti 0 (remember jti d).1.
Proof.
  intros Hw Hm Hj Hnin. destruct (remember_order jti d Hw Hj Hnin) as [_ Ho]. unfold aged. rewrite Ho.
  pose proof Hw as (_ & _ & Hl).
  destruct (Nat.ltb_spec (length (seenOrder d)) (maxSeen d)).
  - by exists (seenOrder d), [].
  - exists (drop (evictStep (maxSeen d)) (seenOrder d)), []. split; [|done].
    rewrite drop_app_le; [done|]. unfold evictStep.
    pose proof (Nat.Div0.div_le_upper_bound (maxSeen d) 10 (maxSeen d)). lia.
Qed.

Lemma rememberAll_aged jti js : forall n d,
  dedup_wf d -> aged jti n d -> (n + length js <= maxSeen d - evictStep (maxSeen d))%nat ->
  dedup_wf (rememberAll js d) /\ aged jti (n + length js) (rememberAll js d).
Proof.
  induction js as [|k js IH]; intros n d Hw Ha Hn; cbn in *.
  - by rewrite Nat.add_0_r.
  - rewrite <- Nat.add_succ_comm. apply IH; rewrite ?maxSeen_remember; [by apply dedup_wf_remember| |lia].
    apply aged_step; [done|done|lia].
Qed.
End Gateway.
