(* ===== verification/Relay.v ===== *)
(** The outbound half of the signal gateway ([pkg/federation/relay.go]): the fan-out of a
    revocation to the configured peers, its per-peer circuit breaker and its duplicate filter.
    The HTTP client, TLS and JSON are arguments. [RelayRevocation] is given twice: as a function
    (one call on its own, the peers answering in any order) and as a step relation in which
    calls and deliveries interleave freely. *)
From Stdlib Require Import ZArith Lia.
From stdpp Require Import base gmap strings list sets relations.
From S2P Require Import Prelude.
From S2P Require Import GoLib.
From S2P Require Import Core.
From S2P Require Import FedTypes.

#[local] Open Scope string_scope.
#[local] Open Scope list_scope.
#[local] Open Scope Z_scope.

Module Relay.
Import Gateway.

Definition circuitBreakerThreshold : Z := 5.

(** [core.NewDefaultHTTPClient] and the per-peer clients of [buildPeerTLSClient]: a client is its
    timeout and the client certificate it presents. *)
Record Client (Cert : Type) : Type := { cl_Timeout : Duration; cl_Cert : option Cert }.
Arguments cl_Timeout {Cert}.
Arguments cl_Cert {Cert}.

(** [Relay]; the logger and the metrics are left out. *)
Record Relay (Cert : Type) : Type := {
  peers : list PeerSignalConfig;
  peerStates : gmap string PeerSignalState;
  dedup : Dedup;
  client : Client Cert;
  peerClients : gmap string (Client Cert);
  unitID : string;
}.
Arguments peers {Cert}.
Arguments peerStates {Cert}.
Arguments dedup {Cert}.
Arguments client {Cert}.
Arguments peerClients {Cert}.
Arguments unitID {Cert}.

(** The errors of [relayToPeer]. *)
Inductive RelayErr : Type :=
| ErrMarshal (e : string)
| ErrNewRequest (e : string)
| ErrPost (endpoint e : string)
| ErrHTTPStatus (endpoint : string) (code : Z).

(** The state of a peer before any signal. *)
Definition freshPeerState (p : PeerSignalConfig) : PeerSignalState :=
  {| ps_FabricID := pc_FabricID p; ps_Transport := pc_Transport p; ps_LastRelayed := 0;
     ps_LastReceived := 0; ps_RelayedCount := 0; ps_ReceivedCount := 0; ps_ErrorCount := 0;
     ps_ConsecutiveErrors := 0; ps_RevocationHash := ""; ps_Status := SignalHealthy |}.

(** The loop that gives each peer its state. *)
Definition freshStates (ps : list PeerSignalConfig) (m : gmap string PeerSignalState)
    : gmap string PeerSignalState :=
  fold_left (fun m p => <[pc_FabricID p := freshPeerState p]> m) ps m.

(** The state of a peer after a delivery to it ended. *)
Definition deliveryDone (now : Time) (err : option RelayErr) (ps : PeerSignalState) : PeerSignalState :=
  match err with
  | Some _ =>
      let consecutive := i64 (ps_ConsecutiveErrors ps + 1) in
      {| ps_FabricID := ps_FabricID ps; ps_Transport := ps_Transport ps;
         ps_LastRelayed := ps_LastRelayed ps; ps_LastReceived := ps_LastReceived ps;
         ps_RelayedCount := ps_RelayedCount ps; ps_ReceivedCount := ps_ReceivedCount ps;
         ps_ErrorCount := i64 (ps_ErrorCount ps + 1); ps_ConsecutiveErrors := consecutive;
         ps_RevocationHash := ps_RevocationHash ps;
         ps_Status := if circuitBreakerThreshold <=? consecutive then SignalDown else SignalDegraded |}
  | None =>
      {| ps_FabricID := ps_FabricID ps; ps_Transport := ps_Transport ps;
         ps_LastRelayed := now; ps_LastReceived := ps_LastReceived ps;
         ps_RelayedCount := i64 (ps_RelayedCount ps + 1); ps_ReceivedCount := ps_ReceivedCount ps;
         ps_ErrorCount := ps_ErrorCount ps; ps_ConsecutiveErrors := 0;
         ps_RevocationHash := ps_RevocationHash ps; ps_Status := SignalHealthy |}
  end.

Lemma freshStates_lookup ps : forall m0 id s,
  freshStates ps m0 !! id = Some s ->
  m0 !! id = Some s \/ exists p, p ∈ ps /\ pc_FabricID p = id /\ s = freshPeerState p.
Proof.
  induction ps as [|p ps IH]; intros m0 id s; cbn; [by left|]. intros [H|(q & Hq & H)]%IH.
  - apply lookup_insert_Some in H as [[<- <-]|[_ H]]; [|by left]. right. exists p. set_solver.
  - right. exists q. set_solver.
Qed.

Lemma freshStates_total ps : forall m0 id,
  is_Some (m0 !! id) \/ id ∈ pc_FabricID <$> ps ->
  is_Some (freshStates ps m0 !! id).
Proof.
  induction ps as [|p ps IH]; intros m0 id; cbn; [intros [?|H]; [done|by apply elem_of_nil in H]|].
  intros H. apply IH. rewrite elem_of_cons in H.
  destruct (decide (id = pc_FabricID p)) as [->|Hne]; [left; by rewrite lookup_insert_eq|].
  destruct H as [H|[H|H]]; [left; by rewrite lookup_insert_ne|done|by right].
Qed.

Section WithTransport.
Context {Cert : Type}.
Variable LoadX509KeyPair : string -> string -> result string Cert.

Abbreviation Client := (Client Cert).
Abbreviation Relay := (Relay Cert).

Definition defaultClient : Client := {| cl_Timeout := 10 * Second; cl_Cert := None |}.

(** [buildPeerTLSClient] *)
Definition buildPeerTLSClient (certKeyPath : string) (timeout : Duration) : result string Client :=
  match LoadX509KeyPair certKeyPath certKeyPath with
  | Err e => Err ("loading mTLS cert/key from " +:+ certKeyPath +:+ ": " +:+ e)
  | Ok cert => Ok {| cl_Timeout := timeout; cl_Cert := Some cert |}
  end.

(** [WithRelayHTTPClient] and [WithRelayUnitID] *)
Definition WithRelayHTTPClient (c : Client) (r : Relay) : Relay :=
  {| peers := peers r; peerStates := peerStates r; dedup := dedup r; client := c;
     peerClients := peerClients r; unitID := unitID r |}.
Definition WithRelayUnitID (id : string) (r : Relay) : Relay :=
  {| peers := peers r; peerStates := peerStates r; dedup := dedup r; client := client r;
     peerClients := peerClients r; unitID := id |}.

(** The last loop of [NewRelay]: a peer whose certificate cannot be loaded keeps the default client. *)
Definition buildClients (ps : list PeerSignalConfig) (m : gmap string Client) : gmap string Client :=
  fold_left (fun m p =>
    if (pc_MTLSSecret p =? "")%string then m else
    match buildPeerTLSClient (pc_MTLSSecret p) (pc_RelayTimeout p) with
    | Err _ => m
    | Ok c => <[pc_FabricID p := c]> m
    end) ps m.

(** [NewRelay] *)
Definition NewRelay (cfg : SignalGatewayConfig) (opts : list (Relay -> Relay)) : Relay :=
  let ps := ApplyDefaults <$> cfg_Peers cfg in
  let r0 := {| peers := ps;
               peerStates := freshStates ps ∅;
               dedup := newDedup; client := defaultClient; peerClients := ∅; unitID := "" |} in
  let r := fold_left (fun r opt => opt r) opts r0 in
  {| peers := peers r; peerStates := peerStates r; dedup := dedup r; client := client r;
     peerClients := buildClients (peers r) (peerClients r); unitID := unitID r |}.

(** [clientForPeer] *)
Definition clientForPeer (fabricID : string) (r : Relay) : Client :=
  match peerClients r !! fabricID with
  | Some c => c
  | None => client r
  end.

(** What one call meets: the encoder, the requests that can be built, and the answers. *)
Record Env : Type := {
  marshal_signal : RevocationSignal -> result string (list Byte.byte);
  http_NewRequest : string -> result string unit;
  (** client, request timeout, URL, content type and body to a status code *)
  http_Do : Client -> Duration -> string -> string -> list Byte.byte -> result string Z;
}.

(** A request that was sent. *)
Record Post : Type := {
  po_Client : Client;
  po_URL : string;
  po_ContentType : string;
  po_Body : list Byte.byte;
}.

Definition ok_status (code : Z) : bool := (200 <=? code) && (code <? 300).

(** [relayToPeer]: the requests it sent and its error. *)
Definition relayToPeer (env : Env) (r : Relay) (timeout : Duration) (peer : PeerSignalConfig)
    (signal : RevocationSignal) : list Post * option RelayErr :=
  match marshal_signal env signal with
  | Err e => ([], Some (ErrMarshal e))
  | Ok body =>
      match http_NewRequest env (pc_Endpoint peer) with
      | Err e => ([], Some (ErrNewRequest e))
      | Ok _ =>
          let c := clientForPeer (pc_FabricID peer) r in
          let post := {| po_Client := c; po_URL := pc_Endpoint peer;
                         po_ContentType := "application/json"; po_Body := body |} in
          match http_Do env c timeout (pc_Endpoint peer) "application/json" body with
          | Err e => ([post], Some (ErrPost (pc_Endpoint peer) e))
          | Ok code => if ok_status code then ([post], None)
                       else ([post], Some (ErrHTTPStatus (pc_Endpoint peer) code))
          end
      end
  end.

Definition withStates (m : gmap string PeerSignalState) (r : Relay) : Relay :=
  {| peers := peers r; peerStates := m; dedup := dedup r; client := client r;
     peerClients := peerClients r; unitID := unitID r |}.
Definition withDedup (d : Dedup) (r : Relay) : Relay :=
  {| peers := peers r; peerStates := peerStates r; dedup := d; client := client r;
     peerClients := peerClients r; unitID := unitID r |}.

(** The circuit breaker's test. *)
Definition isDown (p : PeerSignalConfig) (r : Relay) : bool :=
  match peerStates r !! pc_FabricID p with
  | Some ps => bool_decide (ps_Status ps = SignalDown)
  | None => false
  end.

(** The end of one delivery, under the lock. *)
Definition recordDelivery (now : Time) (p : PeerSignalConfig) (err : option RelayErr) (r : Relay) : Relay :=
  withStates (alter (deliveryDone now err) (pc_FabricID p) (peerStates r)) r.

(** One delivery goroutine: the attempt, and its effect on the relay. *)
Definition attempt (env : Env) (r : Relay) (signal : RevocationSignal) (p : PeerSignalConfig)
    : list Post * option RelayErr :=
  let timeout := if pc_RelayTimeout p <=? 0 then DefaultRelayTimeout else pc_RelayTimeout p in
  relayToPeer env r timeout p signal.
Definition deliver (env : Env) (now : Time) (signal : RevocationSignal) (r : Relay)
    (p : PeerSignalConfig) : Relay * list Post :=
  let '(posts, err) := attempt env r signal p in
  (recordDelivery now p err r, posts).
Fixpoint deliverAll (env : Env) (now : Time) (signal : RevocationSignal) (ps : list PeerSignalConfig)
    (r : Relay) : Relay * list Post :=
  match ps with
  | [] => (r, [])
  | p :: ps' =>
      let '(r1, posts1) := deliver env now signal r p in
      let '(r2, posts2) := deliverAll env now signal ps' r1 in
      (r2, posts1 ++ posts2)
  end.

(** The peers a delivery is started for. *)
Definition targets (r : Relay) : list PeerSignalConfig :=
  List.filter (fun p => negb (isDown p r)) (peers r).

(** [RelayRevocation] when no other call runs: [order] is the order in which the deliveries end. *)
Definition RelayRevocation (env : Env) (order : list PeerSignalConfig -> list PeerSignalConfig)
    (now : Time) (signal : RevocationSignal) (r : Relay) : Relay * list Post :=
  let '(d, dup) := remember (rs_EventJTI signal) (dedup r) in
  let r1 := withDedup d r in
  if dup then (r1, []) else deliverAll env now signal (order (targets r1)) r1.

(** [State] and [Close] *)
Definition State (now : Time) (r : Relay) : GatewayState :=
  {| gs_Peers := peerStates r; gs_UpdatedAt := now |}.
Definition Close (r : Relay) : Relay * option string := (r, None).

(** * Interleaved calls

    A configuration is the relay, the calls that still have peers to visit, and the deliveries
    in flight. *)
Record Conf : Type := {
  cf_relay : Relay;
  cf_calls : list (RevocationSignal * list PeerSignalConfig);
  cf_inflight : list (PeerSignalConfig * RevocationSignal);
}.

(** What a step shows: a delivery that was started. *)
Inductive step : Conf -> option (PeerSignalConfig * RevocationSignal) -> Conf -> Prop :=
| step_duplicate c s :
    (remember (rs_EventJTI s) (dedup (cf_relay c))).2 = true ->
    step c None c
| step_call c s :
    (remember (rs_EventJTI s) (dedup (cf_relay c))).2 = false ->
    step c None
      {| cf_relay := withDedup (remember (rs_EventJTI s) (dedup (cf_relay c))).1 (cf_relay c);
         cf_calls := cf_calls c ++ [(s, peers (cf_relay c))];
         cf_inflight := cf_inflight c |}
| step_skip c cs1 cs2 s p ps :
    cf_calls c = cs1 ++ (s, p :: ps) :: cs2 -> isDown p (cf_relay c) = true ->
    step c None
      {| cf_relay := cf_relay c; cf_calls := cs1 ++ (s, ps) :: cs2; cf_inflight := cf_inflight c |}
| step_start c cs1 cs2 s p ps :
    cf_calls c = cs1 ++ (s, p :: ps) :: cs2 -> isDown p (cf_relay c) = false ->
    step c (Some (p, s))
      {| cf_relay := cf_relay c; cf_calls := cs1 ++ (s, ps) :: cs2;
         cf_inflight := cf_inflight c ++ [(p, s)] |}
| step_done c fl1 fl2 p s now err :
    cf_inflight c = fl1 ++ (p, s) :: fl2 ->
    step c None
      {| cf_relay := recordDelivery now p err (cf_relay c); cf_calls := cf_calls c;
         cf_inflight := fl1 ++ fl2 |}
| step_return c cs1 cs2 s :
    cf_calls c = cs1 ++ (s, []) :: cs2 ->
    step c None {| cf_relay := cf_relay c; cf_calls := cs1 ++ cs2; cf_inflight := cf_inflight c |}.

Inductive steps : Conf -> list (PeerSignalConfig * RevocationSignal) -> Conf -> Prop :=
| steps_nil c : steps c [] c
| steps_cons c1 o c2 tr c3 : step c1 o c2 -> steps c2 tr c3 -> steps c1 (option_list o ++ tr) c3.

Definition idle (r : Relay) : Conf := {| cf_relay := r; cf_calls := []; cf_inflight := [] |}.

(** ** Invariant *)

(** The breaker is open exactly after the threshold of consecutive failures. *)
Definition breaker_ok (ps : PeerSignalState) : Prop :=
  ps_Status ps = SignalDown <-> circuitBreakerThreshold <= ps_ConsecutiveErrors ps.

Record wf (r : Relay) : Prop := {
  wf_dedup : dedup_wf (dedup r);
  wf_peers : forall p, p ∈ peers r -> is_Some (peerStates r !! pc_FabricID p);
  wf_breaker : forall id ps, peerStates r !! id = Some ps -> ps_FabricID ps = id /\ breaker_ok ps;
}.

Lemma deliveryDone_breaker now err ps : breaker_ok (deliveryDone now err ps).
Proof.
  unfold breaker_ok, deliveryDone, circuitBreakerThreshold. destruct err; cbn; [|split; [done|lia]].
  destruct (Z.leb_spec 5 (i64 (ps_ConsecutiveErrors ps + 1))); split; [lia|done|done|lia].
Qed.

Lemma deliveryDone_id now err ps : ps_FabricID (deliveryDone now err ps) = ps_FabricID ps.
Proof. by destruct err. Qed.

Lemma wf_recordDelivery now p err r : wf r -> wf (recordDelivery now p err r).
Proof.
  intros [Hd Hp Hb]. split; cbn; [done| |].
  - intros q Hq. apply lookup_alter_is_Some, Hp, Hq.
  - intros id ps. rewrite lookup_alter_Some. intros [(<- & ps0 & H0 & ->)|[_ H0]]; [|by apply Hb].
    rewrite deliveryDone_id. destruct (Hb _ _ H0) as [-> _]. split; [done|apply deliveryDone_breaker].
Qed.

Lemma wf_withDedup r j : wf r -> wf (withDedup (remember j (dedup r)).1 r).
Proof. intros [Hd Hp Hb]. split; cbn; [by apply dedup_wf_remember|done|done]. Qed.

Lemma wf_step c o c' : wf (cf_relay c) -> step c o c' -> wf (cf_relay c').
Proof. intros Hw Hs. destruct Hs; cbn; auto using wf_recordDelivery, wf_withDedup. Qed.

Lemma wf_steps c tr c' : steps c tr c' -> wf (cf_relay c) -> wf (cf_relay c').
Proof. induction 1 as [|c1 o c2 tr c3 Hst _ IH]; eauto using wf_step. Qed.

(** The options that configure the transport only. *)
Definition transport_opt (opt : Relay -> Relay) : Prop :=
  forall r, peers (opt r) = peers r /\ peerStates (opt r) = peerStates r /\ dedup (opt r) = dedup r.

Lemma fold_opts opts : forall r, Forall transport_opt opts ->
  let r' := fold_left (fun r opt => opt r) opts r in
  peers r' = peers r /\ peerStates r' = peerStates r /\ dedup r' = dedup r.
Proof.
  induction opts as [|o opts IH]; intros r Hf; cbn; [done|].
  apply Forall_cons in Hf as [Ho Hf]. destruct (IH (o r) Hf) as (-> & -> & ->). apply Ho.
Qed.

Lemma relay_wf_new cfg opts : Forall transport_opt opts -> wf (NewRelay cfg opts).
Proof.
  intros Ho. unfold NewRelay.
  match goal with |- context [fold_left _ opts ?x] => destruct (fold_opts opts x Ho) as (Hp & Hs & Hd) end.
  split; cbn; rewrite ?Hp, ?Hs, ?Hd; cbn.
  - apply newDedup_wf.
  - intros p Hin. apply freshStates_total. right. by apply list_elem_of_fmap_2.
  - intros id ps [?|(p & _ & <- & ->)]%freshStates_lookup; [done|]. cbn. split; [done|].
    unfold breaker_ok, circuitBreakerThreshold. cbn. by split; [|lia].
Qed.

(** In every interleaving of calls and deliveries, a peer is marked down exactly when at least
    five deliveries to it have failed in a row, every configured peer has a state, and the
    duplicate filter stays within its bound. *)
Theorem relay_invariant cfg opts tr c :
  Forall transport_opt opts -> steps (idle (NewRelay cfg opts)) tr c ->
  (forall p, p ∈ peers (cf_relay c) -> exists ps,
     peerStates (cf_relay c) !! pc_FabricID p = Some ps /\ ps_FabricID ps = pc_FabricID p /\ (ps_Status ps = SignalDown <-> circuitBreakerThreshold <= ps_ConsecutiveErrors ps)) /\
  seen (dedup (cf_relay c)) = list_to_set (seenOrder (dedup (cf_relay c))) /\
  NoDup (seenOrder (dedup (cf_relay c))) /\
  (size (seen (dedup (cf_relay c))) <= maxSeen (dedup (cf_relay c)))%nat.
Proof.
  intros Ho Hs. apply wf_steps in Hs as [(Hd & Hnd & Hl) Hp Hb]; [|by apply relay_wf_new].
  split; [|split; [done|]].
  - intros p [ps Hps]%Hp. exists ps. destruct (Hb _ _ Hps). done.
  - rewrite Hd, size_list_to_set by done. done.
Qed.

(** ** The breaker never closes *)

Definition parked (id : string) (c : Conf) : Prop :=
  (exists ps, peerStates (cf_relay c) !! id = Some ps /\ ps_Status ps = SignalDown) /\
  Forall (fun d => pc_FabricID d.1 <> id) (cf_inflight c).

Lemma parked_isDown id c p : parked id c -> pc_FabricID p = id -> isDown p (cf_relay c) = true.
Proof.
  intros [(ps & Hps & Hd) _] <-. unfold isDown. rewrite Hps. by apply bool_decide_eq_true.
Qed.

Lemma parked_step id c o c' :
  parked id c -> step c o c' -> parked id c' /\ Forall (fun d => pc_FabricID d.1 <> id) (option_list o).
Proof.
  intros Hpk Hst. pose proof Hpk as [(ps & Hps & Hd) Hfl].
  destruct Hst as [|c s Hdup|c cs1 cs2 s p l Hc Hdown|c cs1 cs2 s p l Hc Hdown|c fl1 fl2 p s now err Hin|];
    (split; [|try by constructor]).
  - done.
  - split; [by exists ps|done].
  - split; [by exists ps|done].
  - split; [by exists ps|]. cbn. apply Forall_app. split; [done|]. apply Forall_singleton. cbn. intros Heq.
    by rewrite (parked_isDown _ _ _ Hpk Heq) in Hdown.
  - cbn. apply Forall_singleton. cbn. intros Heq. by rewrite (parked_isDown _ _ _ Hpk Heq) in Hdown.
  - rewrite Hin in Hfl. apply Forall_app in Hfl as [H1 [Hp H2]%Forall_cons]. cbn in Hp.
    split; [|by apply Forall_app]. exists ps. cbn. by rewrite lookup_alter_ne by congruence.
  - split; [by exists ps|done].
Qed.

(** Once a peer is marked down and no delivery to it is in flight, no step ever starts a
    delivery to it again and it stays down: the breaker has no way back. *)
Theorem breaker_never_closes id c tr c' :
  (exists ps, peerStates (cf_relay c) !! id = Some ps /\ ps_Status ps = SignalDown) ->
  Forall (fun d => pc_FabricID d.1 <> id) (cf_inflight c) ->
  steps c tr c' ->
  (exists ps, peerStates (cf_relay c') !! id = Some ps /\ ps_Status ps = SignalDown) /\
  Forall (fun d => pc_FabricID d.1 <> id) tr.
Proof.
  intros Hd Hfl Hs. assert (Hpk : parked id c) by done. clear Hd Hfl.
  induction Hs as [c|c1 o c2 tr c3 Hst _ IH]; [by destruct Hpk|].
  destruct (parked_step _ _ _ _ Hpk Hst) as [Hpk' Ho]. destruct (IH Hpk') as [? ?].
  split; [done|]. by apply Forall_app.
Qed.

(** ** One call *)

Lemma recordDelivery_attempt env now p err r s q :
  attempt env (recordDelivery now p err r) s q = attempt env r s q.
Proof. done. Qed.

Lemma deliverAll_posts env now s ps : forall r,
  (deliverAll env now s ps r).2 = flat_map (fun p => (attempt env r s p).1) ps.
Proof.
  induction ps as [|p ps IH]; intros r; cbn; [done|]. unfold deliver.
  destruct (attempt env r s p) as [po err] eqn:Ha. cbn.
  destruct (deliverAll env now s ps _) as [r2 po2] eqn:Hd. cbn.
  specialize (IH (recordDelivery now p err r)). rewrite Hd in IH. cbn in IH. by rewrite IH.
Qed.

Lemma relay_deliverAll_keeps env now s ps : forall r,
  let r' := (deliverAll env now s ps r).1 in
  peers r' = peers r /\ dedup r' = dedup r /\ client r' = client r /\ peerClients r' = peerClients r.
Proof.
  induction ps as [|p ps IH]; intros r; cbn; [done|]. unfold deliver.
  destruct (attempt env r s p) as [po err]. specialize (IH (recordDelivery now p err r)).
  destruct (deliverAll env now s ps _) as [r2 po2]. cbn in *. done.
Qed.

Lemma deliverAll_lookup_ne env now s ps id : forall r,
  id ∉ pc_FabricID <$> ps -> peerStates (deliverAll env now s ps r).1 !! id = peerStates r !! id.
Proof.
  induction ps as [|p ps IH]; intros r; cbn; [done|]. rewrite not_elem_of_cons. intros [Hne Hnin].
  unfold deliver. destruct (attempt env r s p) as [po err].
  specialize (IH (recordDelivery now p err r) Hnin). destruct (deliverAll env now s ps _) as [r2 po2].
  cbn in *. by rewrite IH, lookup_alter_ne by congruence.
Qed.

Lemma deliverAll_lookup env now s ps p : forall r,
  NoDup (pc_FabricID <$> ps) -> p ∈ ps ->
  peerStates (deliverAll env now s ps r).1 !! pc_FabricID p =
  deliveryDone now (attempt env r s p).2 <$> peerStates r !! pc_FabricID p.
Proof.
  induction ps as [|q ps IH]; intros r Hnd Hin; cbn; [by apply elem_of_nil in Hin|].
  apply NoDup_cons in Hnd as [Hq Hnd]. unfold deliver. destruct (attempt env r s q) as [po err] eqn:Ha.
  pose proof (deliverAll_lookup_ne env now s ps (pc_FabricID p) (recordDelivery now q err r)) as Hne.
  specialize (IH (recordDelivery now q err r) Hnd). rewrite recordDelivery_attempt in IH.
  destruct (deliverAll env now s ps _) as [r2 po2]. cbn in *.
  apply elem_of_cons in Hin as [->|Hin].
  - rewrite Hne by done. by rewrite lookup_alter_eq, Ha.
  - rewrite (IH Hin), lookup_alter_ne; [done|]. intros Heq. apply Hq. rewrite Heq.
    by apply list_elem_of_fmap_2.
Qed.

Lemma elem_of_targets p r : p ∈ targets r <-> p ∈ peers r /\ isDown p r = false.
Proof.
  unfold targets. rewrite list_elem_of_In, filter_In, <- list_elem_of_In, negb_true_iff. done.
Qed.

Lemma NoDup_fmap_filter {A B} (f : A -> B) g l : NoDup (f <$> l) -> NoDup (f <$> List.filter g l).
Proof.
  induction l as [|x l IH]; cbn; [done|]. intros [Hx Hl]%NoDup_cons. destruct (g x); cbn; [|by apply IH].
  apply NoDup_cons. split; [|by apply IH]. intros Hin. apply Hx. apply list_elem_of_fmap in Hin as (y & Hy & Hin).
  apply list_elem_of_fmap. exists y. split; [done|]. apply list_elem_of_In, filter_In in Hin as [Hin _].
  by apply list_elem_of_In.
Qed.

(** Delivery is independent per peer. A signal with a new identifier is posted, in some order, to
    exactly the peers whose breaker is closed, and each of these peers' states changes by the
    outcome of its own delivery alone; a peer that is down is not contacted and keeps its state. *)
Theorem relay_fanout env order now s r :
  NoDup (pc_FabricID <$> peers r) -> (forall l, Permutation (order l) l) ->
  (remember (rs_EventJTI s) (dedup r)).2 = false ->
  let r' := (RelayRevocation env order now s r).1 in
  Permutation (RelayRevocation env order now s r).2
    (flat_map (fun p => (attempt env r s p).1) (targets r)) /\
  forall p, p ∈ peers r ->
    peerStates r' !! pc_FabricID p =
    if isDown p r then peerStates r !! pc_FabricID p
    else deliveryDone now (attempt env r s p).2 <$> peerStates r !! pc_FabricID p.
Proof.
  intros Hnd Hord Hnew. unfold RelayRevocation.
  destruct (remember (rs_EventJTI s) (dedup r)) as [d dup]. cbn in Hnew. subst dup.
  set (r1 := withDedup d r). cbn zeta. rewrite deliverAll_posts. split.
  - rewrite (Hord (targets r1)). done.
  - intros p Hp. change (isDown p r) with (isDown p r1). change (peerStates r) with (peerStates r1).
    change (attempt env r s p) with (attempt env r1 s p).
    assert (Hnd' : NoDup (pc_FabricID <$> order (targets r1))).
    { rewrite (Hord (targets r1)). by apply NoDup_fmap_filter. }
    destruct (isDown p r1) eqn:Hdown.
    + apply deliverAll_lookup_ne. rewrite (Hord (targets r1)). rewrite list_elem_of_fmap.
      intros (q & Hq & [_ Hu]%elem_of_targets). unfold isDown in Hdown, Hu. rewrite Hq in Hdown. congruence.
    + apply deliverAll_lookup; [done|]. rewrite (Hord (targets r1)). by apply elem_of_targets.
Qed.

(** ** Duplicates *)

Record Call : Type := {
  ca_env : Env; ca_order : list PeerSignalConfig -> list PeerSignalConfig;
  ca_now : Time; ca_signal : RevocationSignal;
}.
Definition relayCall (r : Relay) (c : Call) : Relay :=
  (RelayRevocation (ca_env c) (ca_order c) (ca_now c) (ca_signal c) r).1.
Definition relayAll (cs : list Call) (r : Relay) : Relay := fold_left relayCall cs r.

Lemma dedup_relayCall r c :
  dedup (relayCall r c) = (remember (rs_EventJTI (ca_signal c)) (dedup r)).1.
Proof.
  unfold relayCall, RelayRevocation. destruct (remember _ _) as [d [|]]; [done|]. cbn [fst].
  destruct (relay_deliverAll_keeps (ca_env c) (ca_now c) (ca_signal c)
    (ca_order c (targets (withDedup d r))) (withDedup d r)) as (_ & -> & _). done.
Qed.

Lemma dedup_relayAll cs : forall r,
  dedup (relayAll cs r) = rememberAll (rs_EventJTI <$> (ca_signal <$> cs)) (dedup r).
Proof.
  induction cs as [|c cs IH]; intros r; [done|]. cbn [relayAll fold_left]. fold (relayAll cs (relayCall r c)).
  rewrite IH, dedup_relayCall. done.
Qed.

Lemma RelayRevocation_dup env order now s r :
  rs_EventJTI s <> "" -> rs_EventJTI s ∈ seen (dedup r) -> RelayRevocation env order now s r = (r, []).
Proof.
  intros Hj Hin. unfold RelayRevocation. rewrite remember_dup by done. by destruct r.
Qed.

(** A signal is relayed at most once while at most [maxSeen] minus one eviction step of other
    signals follow it (nine thousand with the default bound): a second call with the same event
    identifier sends nothing and changes nothing, whatever happened in between. *)
Theorem relay_replay_window env order now s r cs c0 :
  wf r -> (2 <= maxSeen (dedup r))%nat -> rs_EventJTI (ca_signal c0) <> "" ->
  rs_EventJTI (ca_signal c0) ∉ seen (dedup r) ->
  (length cs <= maxSeen (dedup r) - evictStep (maxSeen (dedup r)))%nat ->
  rs_EventJTI s = rs_EventJTI (ca_signal c0) ->
  let r' := relayAll cs (relayCall r c0) in
  RelayRevocation env order now s r' = (r', []).
Proof.
  intros [Hw _ _] Hm Hj Hnew Hlen Hs r'. apply RelayRevocation_dup; rewrite Hs; [done|]. unfold r'.
  rewrite dedup_relayAll, dedup_relayCall.
  destruct (rememberAll_aged (rs_EventJTI (ca_signal c0)) (rs_EventJTI <$> (ca_signal <$> cs)) 0
    (remember (rs_EventJTI (ca_signal c0)) (dedup r)).1) as [Hw' Ha].
  - by apply dedup_wf_remember.
  - by apply aged_new.
  - rewrite maxSeen_remember, !length_fmap. done.
  - by eapply aged_seen.
Qed.

(** ** The function is a run of the step relation *)

Lemma steps_app c1 tr1 c2 tr2 c3 : steps c1 tr1 c2 -> steps c2 tr2 c3 -> steps c1 (tr1 ++ tr2) c3.
Proof.
  induction 1 as [|c1 o c2 tr c3' Hst _ IH]; [done|]. intros H. rewrite <- app_assoc.
  eapply steps_cons; eauto.
Qed.

Lemma steps_one c o c' : step c o c' -> steps c (option_list o) c'.
Proof. intros H. rewrite <- (app_nil_r (option_list o)). eapply steps_cons; [done|constructor]. Qed.

Definition conf (r : Relay) cs fl : Conf := {| cf_relay := r; cf_calls := cs; cf_inflight := fl |}.

(** All peers of a call are visited before any delivery ends. *)
Lemma steps_visit r s ps : forall fl,
  steps (conf r [(s, ps)] fl)
    ((fun p => (p, s)) <$> List.filter (fun p => negb (isDown p r)) ps)
    (conf r [] (fl ++ ((fun p => (p, s)) <$> List.filter (fun p => negb (isDown p r)) ps))).
Proof.
  induction ps as [|p ps IH]; intros fl.
  - cbn. rewrite app_nil_r.
    exact (steps_one _ None _ (step_return (conf r [(s, [])] fl) [] [] s eq_refl)).
  - cbn. destruct (isDown p r) eqn:Hd; cbn.
    + apply (steps_cons _ None _ _ _ (step_skip (conf r [(s, p :: ps)] fl) [] [] s p ps eq_refl Hd)). apply IH.
    + apply (steps_cons _ (Some (p, s)) _ _ _ (step_start (conf r [(s, p :: ps)] fl) [] [] s p ps eq_refl Hd)).
      specialize (IH (fl ++ [(p, s)])). rewrite <- app_assoc in IH. apply IH.
Qed.

(** The deliveries in flight end in any order. *)
Lemma steps_drain env now s ps : forall r fl,
  Permutation fl ((fun p => (p, s)) <$> ps) ->
  steps (conf r [] fl) [] (idle (deliverAll env now s ps r).1).
Proof.
  induction ps as [|p ps IH]; intros r fl Hp; cbn.
  - apply Permutation_nil_r in Hp as ->. constructor.
  - unfold deliver. destruct (attempt env r s p) as [po err].
    assert (Hin : (p, s) ∈ fl) by (rewrite Hp; cbn; set_solver).
    apply list_elem_of_split in Hin as (fl1 & fl2 & ->).
    specialize (IH (recordDelivery now p err r) (fl1 ++ fl2)).
    destruct (deliverAll env now s ps _) as [r2 po2]. cbn in *.
    apply (steps_cons _ None _ _ _ (step_done (conf r [] (fl1 ++ (p, s) :: fl2)) fl1 fl2 p s now err eq_refl)). apply IH.
    symmetry in Hp. by apply Permutation_cons_app_inv in Hp.
Qed.

(** The function describes a possible run: a call of [RelayRevocation] on an idle relay is an
    execution of the step relation that ends idle in the state the function returns, and the
    deliveries it starts are those to the peers that are not down. *)
Lemma RelayRevocation_refines env order now s r :
  (forall l, Permutation (order l) l) ->
  exists tr, steps (idle r) tr (idle (RelayRevocation env order now s r).1) /\
    tr = if (remember (rs_EventJTI s) (dedup r)).2 then [] else (fun p => (p, s)) <$> targets r.
Proof.
  intros Hord. unfold RelayRevocation.
  destruct (remember (rs_EventJTI s) (dedup r)) as [d [|]] eqn:Hr.
  - exists []. split; [|done]. apply (steps_one _ None). unfold remember in Hr.
    case_match; [done|]. case_match eqn:Hin; [|done]. injection Hr as <-.
    replace (withDedup (dedup r) r) with r by (by destruct r). apply (step_duplicate _ s). cbn.
    apply String.eqb_neq in H. apply bool_decide_eq_true in Hin. by rewrite remember_dup.
  - exists ((fun p => (p, s)) <$> targets r). split; [|done]. cbn [snd fst].
    rewrite <- (app_nil_l (_ <$> _)), <- (app_nil_r (_ <$> _)).
    apply (steps_cons _ None _ _ _ (step_call (idle r) s ltac:(cbn; by rewrite Hr))). cbn.
    rewrite Hr. cbn [fst]. eapply steps_app; [apply (steps_visit (withDedup d r) s (peers r) [])|].
    cbn. apply steps_drain. by rewrite (Hord _).
Qed.
End WithTransport.

(** * Examples *)

Definition demo_peer (id url : string) : PeerSignalConfig :=
  {| pc_FabricID := id; pc_Endpoint := url; pc_Transport := ""; pc_RelayTimeout := 0;
     pc_SyncInterval := 0; pc_MTLSSecret := if (id =? "eu")%string then "/certs/eu.pem" else "" |}.
Definition demo_cfg : SignalGatewayConfig :=
  {| cfg_Peers := [demo_peer "eu" "https://eu/v1/signals/events"; demo_peer "us" "https://us/v1/signals/events"] |}.
Definition demo_load (c _ : string) : result string unit := Ok tt.
Definition demo_relay : Relay unit := NewRelay demo_load demo_cfg [WithRelayUnitID "unit-1"].
Definition demo_signal (jti : string) : RevocationSignal :=
  {| rs_SubjectID := "spiffe://a/bob"; rs_Reason := "session-revoked"; rs_RevokedAt := 10;
     rs_ExpiresAt := 100; rs_EventJTI := jti; rs_SourceFabric := "ap"; rs_TrustDomain := "a";
     rs_CertFabricID := "" |}.
(** The fabric "us" answers 503, the other accepts. *)
Definition demo_env : Env (Cert:=unit) :=
  {| marshal_signal := fun s => Ok (String.list_byte_of_string (rs_SubjectID s));
     http_NewRequest := fun _ => Ok tt;
     http_Do := fun _ _ url _ _ => Ok (if (url =? "https://us/v1/signals/events")%string then 503 else 202) |}.
Definition demo_call (jti : string) : Call (Cert:=unit) :=
  {| ca_env := demo_env; ca_order := fun l => l; ca_now := 20; ca_signal := demo_signal jti |}.

Lemma demo_opt : Forall (transport_opt (Cert:=unit)) [WithRelayUnitID "unit-1"].
Proof. by apply Forall_singleton. Qed.

Lemma demo_relay_wf : wf demo_relay.
Proof. apply relay_wf_new, demo_opt. Qed.

Lemma demo_fresh j : j ∉ seen (dedup demo_relay).
Proof. change (seen (dedup demo_relay)) with (∅ : gset string). set_solver. Qed.

(** After five failures the fabric "us" is down. *)
Definition demo_five : Conf (Cert:=unit) :=
  idle (relayAll (demo_call <$> ["1"; "2"; "3"; "4"; "5"]) demo_relay).
Definition peerStatus (id : string) (r : Relay unit) : option PeerSignalStatus :=
  ps_Status <$> peerStates r !! id.
Lemma demo_us_down : peerStatus "us" (cf_relay demo_five) = Some SignalDown.
Proof. vm_compute. reflexivity. Qed.
Example demo_eu_healthy : peerStatus "eu" (cf_relay demo_five) = Some SignalHealthy.
Proof. vm_compute. reflexivity. Qed.

Lemma peerStatus_down id r :
  peerStatus id r = Some SignalDown -> exists ps, peerStates r !! id = Some ps /\ ps_Status ps = SignalDown.
Proof. unfold peerStatus. intros (ps & ? & ->)%fmap_Some. by exists ps. Qed.

Lemma relay_invariant_witness :
  NoDup (seenOrder (dedup (cf_relay (idle demo_relay)))).
Proof.
  apply (relay_invariant demo_load demo_cfg [WithRelayUnitID "unit-1"] [] (idle demo_relay));
    [apply demo_opt|constructor].
Defined.

Lemma breaker_never_closes_witness :
  exists ps, peerStates (cf_relay demo_five) !! "us" = Some ps /\ ps_Status ps = SignalDown.
Proof.
  apply (breaker_never_closes "us" demo_five [] demo_five);
    [exact (peerStatus_down _ _ demo_us_down)|constructor|constructor].
Defined.

Lemma relay_fanout_witness :
  peerStates (RelayRevocation demo_env (fun l => l) 20 (demo_signal "6") demo_relay).1 !! "us" =
  deliveryDone 20 (Some (ErrHTTPStatus "https://us/v1/signals/events" 503)) <$> peerStates demo_relay !! "us".
Proof.
  refine (proj2 (relay_fanout demo_env (fun l => l) 20 (demo_signal "6") demo_relay _ _ _)
    (ApplyDefaults (demo_peer "us" "https://us/v1/signals/events")) _);
    [apply (bool_decide_unpack _); vm_compute; reflexivity|done|vm_compute; reflexivity|].
  apply list_elem_of_In. right. left. reflexivity.
Defined.

Lemma relay_replay_window_witness :
  RelayRevocation demo_env (fun l => l) 30 (demo_signal "6")
    (relayAll [demo_call "7"; demo_call "8"] (relayCall demo_relay (demo_call "6"))) =
  (relayAll [demo_call "7"; demo_call "8"] (relayCall demo_relay (demo_call "6")), []).
Proof.
  apply (relay_replay_window demo_env (fun l => l) 30 (demo_signal "6") demo_relay
           [demo_call "7"; demo_call "8"] (demo_call "6"));
    [apply demo_relay_wf|apply Nat.leb_le; vm_compute; reflexivity|done|apply demo_fresh|
     apply Nat.leb_le; vm_compute; reflexivity|done].
Defined.

Lemma RelayRevocation_refines_witness :
  exists tr, steps (idle demo_relay) tr (idle (RelayRevocation demo_env (fun l => l) 20 (demo_signal "6") demo_relay).1) /\
    tr = if (remember "6" (dedup demo_relay)).2 then [] else (fun p => (p, demo_signal "6")) <$> targets demo_relay.
Proof. apply (RelayRevocation_refines demo_env (fun l => l) 20 (demo_signal "6") demo_relay). done. Defined.
End Relay.
