(* ===== verification/Inbound.v ===== *)
(** The inbound half of the signal gateway ([pkg/federation/inbound.go]): the checks a revocation
    from a peer fabric goes through before it is applied to the local index. The handler is
    proved against the interface [RevocationIndex]. *)
From Stdlib Require Import ZArith Lia.
From stdpp Require Import base gmap strings list sets.
From S2P Require Import Prelude.
From S2P Require Import GoLib.
From S2P Require Import Core.
From S2P Require Import FedTypes.
From S2P Require Import Relay.
From S2P Require Import Revocation.

#[local] Open Scope string_scope.
#[local] Open Scope list_scope.
#[local] Open Scope Z_scope.

Module Inbound.
Import Gateway.

(** The sentinel errors, with what is wrapped into them. *)
Inductive InboundErr : Type :=
| ErrUntrustedPeer (fabric : string)
| ErrInvalidSignal
| ErrSignalExpired
| ErrMTLSRequired (fabric : string)
| ErrPeerIdentityMismatch (claimed cert : string)
| ErrApplying (e : string).

(** The instants at which one call reads the clock: for the default expiry, for the expiry test,
    in [Revoke], for the flashed signal and for the peer's state. *)
Record Clock : Type := {
  ck_default : Time;
  ck_check : Time;
  ck_revoke : Time;
  ck_flash : Time;
  ck_received : Time;
}.

Section WithIndex.
Context {I : Type} `{!RevocationIndex I}.

(** [InboundHandler]; a nil index or sync bus is [None]. *)
Record InboundHandler : Type := {
  trustedPeers : gmap string PeerSignalConfig;
  peerStates : gmap string PeerSignalState;
  revocation : option I;
  syncBus : option (Signal -> option string);
  requireMTLS : bool;
  dedup : Dedup;
  dedupHits : Z;
}.

(** The handler and the signals it flashed. *)
Record St : Type := { handler : InboundHandler; flashed : list Signal }.
Abbreviation In := (M St InboundErr).

Definition withRevocation (idx : option I) (h : InboundHandler) : InboundHandler :=
  {| trustedPeers := trustedPeers h; peerStates := peerStates h; revocation := idx;
     syncBus := syncBus h; requireMTLS := requireMTLS h; dedup := dedup h; dedupHits := dedupHits h |}.
Definition withDedup (d : Dedup) (hits : Z) (h : InboundHandler) : InboundHandler :=
  {| trustedPeers := trustedPeers h; peerStates := peerStates h; revocation := revocation h;
     syncBus := syncBus h; requireMTLS := requireMTLS h; dedup := d; dedupHits := hits |}.
Definition withPeerStates (m : gmap string PeerSignalState) (h : InboundHandler) : InboundHandler :=
  {| trustedPeers := trustedPeers h; peerStates := m; revocation := revocation h;
     syncBus := syncBus h; requireMTLS := requireMTLS h; dedup := dedup h; dedupHits := dedupHits h |}.

(** [WithInboundRevocation], [WithInboundSyncBus] and [WithInboundRequireMTLS] *)
Definition WithInboundRevocation (idx : I) (h : InboundHandler) : InboundHandler :=
  withRevocation (Some idx) h.
Definition WithInboundSyncBus (bus : Signal -> option string) (h : InboundHandler) : InboundHandler :=
  {| trustedPeers := trustedPeers h; peerStates := peerStates h; revocation := revocation h;
     syncBus := Some bus; requireMTLS := requireMTLS h; dedup := dedup h; dedupHits := dedupHits h |}.
Definition WithInboundRequireMTLS (require : bool) (h : InboundHandler) : InboundHandler :=
  {| trustedPeers := trustedPeers h; peerStates := peerStates h; revocation := revocation h;
     syncBus := syncBus h; requireMTLS := require; dedup := dedup h; dedupHits := dedupHits h |}.

(** [NewInboundHandler] *)
Definition trustPeers (ps : list PeerSignalConfig) (m : gmap string PeerSignalConfig)
    : gmap string PeerSignalConfig :=
  fold_left (fun m p => <[pc_FabricID (ApplyDefaults p) := ApplyDefaults p]> m) ps m.
Definition NewInboundHandler (ps : list PeerSignalConfig) (opts : list (InboundHandler -> InboundHandler))
    : InboundHandler :=
  fold_left (fun h opt => opt h) opts
    {| trustedPeers := trustPeers ps ∅;
       peerStates := Relay.freshStates (ApplyDefaults <$> ps) ∅;
       revocation := None; syncBus := None; requireMTLS := false;
       dedup := newDedup; dedupHits := 0 |}.

(** [VerifyPeerIdentity] *)
Definition VerifyPeerIdentity (claimed certFabricID : string) : result InboundErr unit :=
  let? _ := reject (certFabricID =? "")%string (ErrMTLSRequired "") in
  reject (negb (claimed =? certFabricID)%string) (ErrPeerIdentityMismatch claimed certFabricID).

(** [IsTrustedPeer] *)
Definition IsTrustedPeer (fabricID : string) (h : InboundHandler) : bool :=
  bool_decide (is_Some (trustedPeers h !! fabricID)).

(** The checks of [ReceiveRevocation] before its duplicate filter: the expiry to apply. *)
Definition checkSignal (ck : Clock) (signal : RevocationSignal) (h : InboundHandler)
    : result InboundErr Time :=
  let? _ := reject (requireMTLS h && (rs_CertFabricID signal =? "")%string)
              (ErrMTLSRequired (rs_SourceFabric signal)) in
  let? _ := (if (rs_CertFabricID signal =? "")%string then Ok tt
             else VerifyPeerIdentity (rs_SourceFabric signal) (rs_CertFabricID signal)) in
  let? _ := reject (negb (IsTrustedPeer (rs_SourceFabric signal) h))
              (ErrUntrustedPeer (rs_SourceFabric signal)) in
  let? _ := reject (rs_SubjectID signal =? "")%string ErrInvalidSignal in
  let expiresAt := if IsZero (rs_ExpiresAt signal) then ck_default ck + 24 * Hour
                   else rs_ExpiresAt signal in
  let? _ := reject (Before expiresAt (ck_check ck)) ErrSignalExpired in
  Ok expiresAt.

(** The reason recorded with a federated revocation. *)
Definition federatedReason (signal : RevocationSignal) : string :=
  "federated:" +:+ rs_Reason signal +:+ " from:" +:+ rs_SourceFabric signal.

(** The revocation of the local index. *)
Definition applyRevocation (ck : Clock) (signal : RevocationSignal) (expiresAt : Time) : In unit :=
  fun s => match revocation (handler s) with
           | None => (s, Ok tt)
           | Some idx =>
               match ri_Revoke (ck_revoke ck) (rs_SubjectID signal) (federatedReason signal) expiresAt idx with
               | Err e => (s, Err (ErrApplying e))
               | Ok idx' => ({| handler := withRevocation (Some idx') (handler s); flashed := flashed s |}, Ok tt)
               end
           end.

(** The signal to the local cluster; a failure is only logged. *)
Definition flashSignal (ck : Clock) (signal : RevocationSignal) : In unit :=
  fun s => match syncBus (handler s) with
           | None => (s, Ok tt)
           | Some _ =>
               let sig := {| sig_Type := "federation.revocation"; sig_Source := rs_SourceFabric signal;
                             sig_Timestamp := ck_flash ck;
                             sig_Payload := <["subject_id" := VStr (rs_SubjectID signal)]>
                               (<["reason" := VStr (rs_Reason signal)]>
                               (<["source_fabric" := VStr (rs_SourceFabric signal)]>
                               (<["event_jti" := VStr (rs_EventJTI signal)]> ∅))) |} in
               ({| handler := handler s; flashed := flashed s ++ [sig] |}, Ok tt)
           end.

(** A peer's state after a signal from it was applied. *)
Definition received (now : Time) (ps : PeerSignalState) : PeerSignalState :=
  {| ps_FabricID := ps_FabricID ps; ps_Transport := ps_Transport ps; ps_LastRelayed := ps_LastRelayed ps;
     ps_LastReceived := now; ps_RelayedCount := ps_RelayedCount ps;
     ps_ReceivedCount := i64 (ps_ReceivedCount ps + 1); ps_ErrorCount := ps_ErrorCount ps;
     ps_ConsecutiveErrors := ps_ConsecutiveErrors ps; ps_RevocationHash := ps_RevocationHash ps;
     ps_Status := ps_Status ps |}.
Definition updatePeerState (ck : Clock) (signal : RevocationSignal) : In unit :=
  fun s => ({| handler := withPeerStates (alter (received (ck_received ck)) (rs_SourceFabric signal)
                            (peerStates (handler s))) (handler s);
               flashed := flashed s |}, Ok tt).

(** The duplicate filter: true when the event was processed before. *)
Definition checkDuplicate (jti : string) : In bool :=
  fun s => let h := handler s in
           let '(d, dup) := remember jti (dedup h) in
           ({| handler := withDedup d (if dup then i64 (dedupHits h + 1) else dedupHits h) h;
               flashed := flashed s |}, Ok dup).

(** [ReceiveRevocation] *)
Definition ReceiveRevocation (ck : Clock) (signal : RevocationSignal) : In unit :=
  do expiresAt <- (fun s => (s, checkSignal ck signal (handler s))) ;;
  do dup <- checkDuplicate (rs_EventJTI signal) ;;
  if (dup : bool) then st_ret tt else
  do _ <- applyRevocation ck signal expiresAt ;;
  do _ <- flashSignal ck signal ;;
  updatePeerState ck signal.

(** [DedupHits] and [State] *)
Definition DedupHits (h : InboundHandler) : Z := dedupHits h.
Definition State (h : InboundHandler) : gmap string PeerSignalState := peerStates h.

(** * What a signal must satisfy to be admitted *)

Record admissible (ck : Clock) (signal : RevocationSignal) (h : InboundHandler) (expiresAt : Time) : Prop := {
  ad_trusted : is_Some (trustedPeers h !! rs_SourceFabric signal);
  ad_identity : (rs_CertFabricID signal <> "" /\ rs_CertFabricID signal = rs_SourceFabric signal) \/
                (rs_CertFabricID signal = "" /\ requireMTLS h = false);
  ad_subject : rs_SubjectID signal <> "";
  ad_expiry : ck_check ck <= expiresAt;
  ad_effective : (rs_ExpiresAt signal = 0 /\ expiresAt = ck_default ck + 24 * Hour) \/
                 (rs_ExpiresAt signal <> 0 /\ expiresAt = rs_ExpiresAt signal);
}.

Lemma VerifyPeerIdentity_ok claimed cert :
  cert <> "" -> VerifyPeerIdentity claimed cert = Ok tt <-> cert = claimed.
Proof.
  intros Hc. unfold VerifyPeerIdentity. apply String.eqb_neq in Hc as ->. cbn.
  rewrite reject_ok, negb_false_iff, String.eqb_eq. naive_solver.
Qed.

Lemma checkSignal_ok ck signal h x : checkSignal ck signal h = Ok x <-> admissible ck signal h x.
Proof.
  unfold checkSignal, IsTrustedPeer, Before, IsZero. split.
  - intros H. inv_ok.
    match goal with H : (if _ then _ else _) = Ok _ |- _ => rename H into Hid end.
    repeat match goal with H : unit |- _ => destruct H end.
    match goal with H : bool_decide _ = true |- _ => apply bool_decide_eq_true in H end.
    split; [done| |by apply String.eqb_neq|lia|].
    + destruct (String.eqb_spec (rs_CertFabricID signal) "") as [Hc|Hc].
      * right. split; [done|]. by rewrite andb_true_r in *.
      * left. split; [done|]. by apply VerifyPeerIdentity_ok.
    + destruct (Z.eqb_spec (rs_ExpiresAt signal) 0); [left|right]; done.
  - intros [Ht Hid Hs Hx He].
    assert (requireMTLS h && (rs_CertFabricID signal =? "")%string = false) as ->.
    { destruct Hid as [[Hc _]|[_ ->]]; [|done]. apply String.eqb_neq in Hc as ->. apply andb_false_r. }
    assert ((if (rs_CertFabricID signal =? "")%string then Ok tt
             else VerifyPeerIdentity (rs_SourceFabric signal) (rs_CertFabricID signal)) = Ok tt) as ->.
    { destruct Hid as [[Hc Heq]|[-> _]]; [|done]. pose proof Hc as Hc'.
      apply String.eqb_neq in Hc' as ->. by apply VerifyPeerIdentity_ok. }
    rewrite bool_decide_true by done. apply String.eqb_neq in Hs as ->. cbn.
    assert ((if rs_ExpiresAt signal =? 0 then ck_default ck + 24 * Hour else rs_ExpiresAt signal) = x) as ->.
    { destruct He as [[-> ->]|[Hne ->]]; [done|]. by apply Z.eqb_neq in Hne as ->. }
    assert ((x <? ck_check ck) = false) as -> by lia. done.
Qed.

(** * The outcome of a call *)

(** A call that is refused by the checks. *)
Lemma receive_refused ck signal s e :
  checkSignal ck signal (handler s) = Err e -> ReceiveRevocation ck signal s = (s, Err e).
Proof. intros H. unfold ReceiveRevocation, st_bind. by rewrite H. Qed.

(** A call on an event that was processed before. *)
Lemma receive_duplicate ck signal s x :
  checkSignal ck signal (handler s) = Ok x -> rs_EventJTI signal <> "" ->
  rs_EventJTI signal ∈ seen (dedup (handler s)) ->
  ReceiveRevocation ck signal s =
  ({| handler := withDedup (dedup (handler s)) (i64 (dedupHits (handler s) + 1)) (handler s);
      flashed := flashed s |}, Ok tt).
Proof.
  intros H Hj Hin. unfold ReceiveRevocation, st_bind, checkDuplicate. rewrite H.
  by rewrite remember_dup.
Qed.

(** A call on a new event: what it leaves of the index. *)
Lemma receive_new ck signal s x :
  checkSignal ck signal (handler s) = Ok x ->
  (remember (rs_EventJTI signal) (dedup (handler s))).2 = false ->
  let s' := (ReceiveRevocation ck signal s).1 in
  (ReceiveRevocation ck signal s).2 = Ok tt /\
  revocation (handler s') =
    match revocation (handler s) with
    | None => None
    | Some idx => match ri_Revoke (ck_revoke ck) (rs_SubjectID signal) (federatedReason signal) x idx with
                  | Ok idx' => Some idx' | Err _ => Some idx end
    end /\
  dedup (handler s') = (remember (rs_EventJTI signal) (dedup (handler s))).1 /\
  trustedPeers (handler s') = trustedPeers (handler s) /\
  requireMTLS (handler s') = requireMTLS (handler s) /\ syncBus (handler s') = syncBus (handler s).
Proof.
  intros H Hnew. pose proof (proj1 (checkSignal_ok _ _ _ _) H) as Ha.
  unfold ReceiveRevocation, st_bind, checkDuplicate, applyRevocation, flashSignal, updatePeerState.
  rewrite H. destruct (remember _ _) as [d dup]. cbn in Hnew. subst dup. cbn.
  destruct (revocation (handler s)) as [idx|] eqn:Hrv; cbn; [|by destruct (syncBus (handler s)) eqn:Hb; cbn].
  destruct (ri_revoke_accepts (ck_revoke ck) (rs_SubjectID signal) (federatedReason signal) x idx)
    as [idx' Hidx]; [apply Ha|].
  rewrite Hidx. cbn. by destruct (syncBus (handler s)) eqn:Hb; cbn.
Qed.

(** The handler a call leaves, as its later calls see it. *)
Lemma receive_frame ck signal s :
  let s' := (ReceiveRevocation ck signal s).1 in
  trustedPeers (handler s') = trustedPeers (handler s) /\
  requireMTLS (handler s') = requireMTLS (handler s) /\
  (dedup (handler s') = dedup (handler s) \/
   dedup (handler s') = (remember (rs_EventJTI signal) (dedup (handler s))).1).
Proof.
  cbn zeta. destruct (checkSignal ck signal (handler s)) as [x|e] eqn:H.
  - destruct (remember (rs_EventJTI signal) (dedup (handler s))).2 eqn:Hd.
    + unfold ReceiveRevocation, st_bind, checkDuplicate. rewrite H. cbn.
      destruct (remember _ _) as [d dup] eqn:Hr. cbn in Hd. subst dup. cbn.
      split; [done|]. split; [done|]. by right.
    + destruct (receive_new ck signal s x H Hd) as (_ & _ & -> & -> & -> & _).
      split; [done|]. split; [done|]. by right.
  - rewrite (receive_refused _ _ _ _ H). cbn. split; [done|]. split; [done|]. by left.
Qed.

(** C18: A peer's signal changes the revocation of a subject only if the call succeeds, the source
    fabric is a configured peer, the certificate's fabric is the claimed one (it may be absent
    only when mTLS is not required), the subject is the signal's own and the revocation has not
    expired. *)
Theorem inbound_authorised ck signal s s' r t sub idx idx' :
  ReceiveRevocation ck signal s = (s', r) ->
  revocation (handler s) = Some idx -> revocation (handler s') = Some idx' ->
  ri_IsRevoked t sub idx' <> ri_IsRevoked t sub idx ->
  r = Ok tt /\ sub = rs_SubjectID signal /\ exists x, admissible ck signal (handler s) x.
Proof.
  intros Hc Hi Hi' Hne. destruct (checkSignal ck signal (handler s)) as [x|e] eqn:H.
  2:{ rewrite (receive_refused _ _ _ _ H) in Hc. injection Hc as <- <-. congruence. }
  pose proof (proj1 (checkSignal_ok _ _ _ _) H) as Ha.
  destruct (remember (rs_EventJTI signal) (dedup (handler s))).2 eqn:Hd.
  - unfold ReceiveRevocation, st_bind, checkDuplicate in Hc. rewrite H in Hc.
    destruct (remember _ _) as [d dup]. cbn in Hd. subst dup. cbn in Hc. injection Hc as <- <-.
    cbn in Hi'. congruence.
  - destruct (receive_new ck signal s x H Hd) as (Hr & Hrev & _). rewrite Hc in Hr, Hrev. cbn in Hr, Hrev.
    split; [done|]. split; [|by exists x]. rewrite Hi' in Hrev. rewrite Hi in Hrev.
    destruct (ri_Revoke _ _ _ _ _) as [idx1|] eqn:Hk; [|congruence]. injection Hrev as ->.
    destruct (decide (rs_SubjectID signal = sub)) as [|Hns]; [done|]. exfalso. apply Hne.
    by eapply ri_revoke_frame.
Qed.

(** An admissible signal with a new identifier is applied. *)
Lemma receive_applies ck signal s idx x :
  revocation (handler s) = Some idx -> admissible ck signal (handler s) x ->
  (rs_EventJTI signal = "" \/ rs_EventJTI signal ∉ seen (dedup (handler s))) ->
  exists s' idx', ReceiveRevocation ck signal s = (s', Ok tt) /\ revocation (handler s') = Some idx' /\
    forall t, t <= x -> exists e, ri_IsRevoked t (rs_SubjectID signal) idx' = Ok (Some e) /\
                                  re_Reason e = federatedReason signal.
Proof.
  intros Hi Ha Hj. pose proof (proj2 (checkSignal_ok _ _ _ _) Ha) as H.
  assert (Hd : (remember (rs_EventJTI signal) (dedup (handler s))).2 = false).
  { unfold remember. destruct (String.eqb_spec (rs_EventJTI signal) ""); [done|].
    destruct Hj as [|Hj]; [done|]. by rewrite bool_decide_false. }
  destruct (receive_new ck signal s x H Hd) as (Hr & Hrev & _). rewrite Hi in Hrev.
  destruct (ri_revoke_accepts (ck_revoke ck) (rs_SubjectID signal) (federatedReason signal) x idx)
    as [idx' Hk]; [apply Ha|]. rewrite Hk in Hrev.
  exists (ReceiveRevocation ck signal s).1, idx'. rewrite <- Hr, <- surjective_pairing.
  split; [done|]. split; [done|]. intros t Ht. eapply ri_revoke_hit; [done|by right].
Qed.

(** A signal that passes the checks and carries a new (or no) event identifier is applied: the
    call succeeds and its subject is reported revoked, with the peer's reason, until the
    effective expiry. *)
Theorem inbound_applies ck signal s idx x :
  revocation (handler s) = Some idx -> admissible ck signal (handler s) x ->
  (rs_EventJTI signal = "" \/ rs_EventJTI signal ∉ seen (dedup (handler s))) ->
  exists s' idx', ReceiveRevocation ck signal s = (s', Ok tt) /\ revocation (handler s') = Some idx' /\
    forall t, t <= x -> exists e, ri_IsRevoked t (rs_SubjectID signal) idx' = Ok (Some e) /\
                                  re_Reason e = federatedReason signal.
Proof. apply receive_applies. Qed.

(** * Sequences of signals *)

Definition receiveAll (cs : list (Clock * RevocationSignal)) (s : St) : St :=
  fold_left (fun s c => (ReceiveRevocation c.1 c.2 s).1) cs s.

(** The identifier is in the filter, with at most [n] younger ones. *)
Lemma receiveAll_aged jti cs : forall n s,
  dedup_wf (dedup (handler s)) -> aged jti n (dedup (handler s)) ->
  (n + length cs <= maxSeen (dedup (handler s)) - evictStep (maxSeen (dedup (handler s))))%nat ->
  jti ∈ seen (dedup (handler (receiveAll cs s))).
Proof.
  induction cs as [|[ck sig] cs IH]; intros n s Hw Ha Hn.
  - by eapply aged_seen.
  - change (receiveAll ((ck, sig) :: cs) s) with (receiveAll cs (ReceiveRevocation ck sig s).1).
    cbn [length] in Hn. destruct (receive_frame ck sig s) as (_ & _ & [Hd|Hd]).
    + apply (IH n); rewrite Hd; [done|done|lia].
    + apply (IH (S n)); rewrite Hd, ?maxSeen_remember; [by apply dedup_wf_remember| |lia].
      apply aged_step; [done|done|lia].
Qed.

Lemma receiveAll_frame cs : forall s,
  trustedPeers (handler (receiveAll cs s)) = trustedPeers (handler s) /\
  requireMTLS (handler (receiveAll cs s)) = requireMTLS (handler s).
Proof.
  induction cs as [|[ck sig] cs IH]; intros s; [done|].
  change (receiveAll ((ck, sig) :: cs) s) with (receiveAll cs (ReceiveRevocation ck sig s).1).
  destruct (IH (ReceiveRevocation ck sig s).1) as [-> ->].
  by destruct (receive_frame ck sig s) as (-> & -> & _).
Qed.

(** A peer's event is applied at most once while at most [maxSeen] minus one eviction step of
    other signals follow it: a further signal with its identifier, however it is otherwise
    altered, changes neither the index nor the flashed signals. *)
Theorem inbound_replay_window ck1 sig1 s cs ck2 sig2 s' r :
  dedup_wf (dedup (handler s)) -> (2 <= maxSeen (dedup (handler s)))%nat ->
  (ReceiveRevocation ck1 sig1 s).2 = Ok tt -> rs_EventJTI sig1 <> "" ->
  rs_EventJTI sig1 ∉ seen (dedup (handler s)) ->
  (length cs <= maxSeen (dedup (handler s)) - evictStep (maxSeen (dedup (handler s))))%nat ->
  rs_EventJTI sig2 = rs_EventJTI sig1 ->
  ReceiveRevocation ck2 sig2 (receiveAll cs (ReceiveRevocation ck1 sig1 s).1) = (s', r) ->
  revocation (handler s') = revocation (handler (receiveAll cs (ReceiveRevocation ck1 sig1 s).1)) /\
  flashed s' = flashed (receiveAll cs (ReceiveRevocation ck1 sig1 s).1).
Proof.
  intros Hw Hm Hok Hj Hnew Hlen Hj2 Hc2.
  destruct (checkSignal ck1 sig1 (handler s)) as [x1|e1] eqn:H1.
  2:{ by rewrite (receive_refused _ _ _ _ H1) in Hok. }
  destruct (remember_order (rs_EventJTI sig1) (dedup (handler s)) Hw Hj Hnew) as [Hd1 _].
  destruct (receive_new ck1 sig1 s x1 H1 Hd1) as (_ & _ & Hded & _).
  assert (Hin : rs_EventJTI sig1 ∈ seen (dedup (handler (receiveAll cs (ReceiveRevocation ck1 sig1 s).1)))).
  { apply (receiveAll_aged _ _ 0); rewrite Hded, ?maxSeen_remember;
      [by apply dedup_wf_remember|by apply aged_new|done]. }
  set (s1 := receiveAll cs _) in *. clearbody s1.
  destruct (checkSignal ck2 sig2 (handler s1)) as [x2|e2] eqn:H2.
  - rewrite <- Hj2 in Hin, Hj. rewrite (receive_duplicate _ _ _ _ H2 Hj Hin) in Hc2.
    injection Hc2 as <- _. done.
  - rewrite (receive_refused _ _ _ _ H2) in Hc2. by injection Hc2 as <- _.
Qed.
End WithIndex.
Arguments InboundHandler : clear implicits.
Arguments St : clear implicits.

(** * With the in-memory index: federated revocations are never permanent *)

#[local] Existing Instance Revocation.InMemory_RevocationIndex.

(** Every entry has an expiry. *)
Definition bounded (idx : Revocation.InMemoryRevocationIndex) : Prop :=
  forall k e, Revocation.entries idx !! k = Some e -> re_ExpiresAt e <> 0.

(** Whatever a peer sends, no entry without an expiry enters the index: a signal that leaves
    the expiry out is given one day. *)
Theorem inbound_never_permanent ck signal s idx idx' :
  0 < ck_check ck -> revocation (handler s) = Some idx -> bounded idx ->
  revocation (handler (ReceiveRevocation ck signal s).1) = Some idx' -> bounded idx'.
Proof.
  intros Hck Hi Hb Hi'. destruct (checkSignal ck signal (handler s)) as [x|e] eqn:H.
  2:{ rewrite (receive_refused _ _ _ _ H) in Hi'. cbn in Hi'. by replace idx' with idx by congruence. }
  pose proof (proj1 (checkSignal_ok _ _ _ _) H) as [_ _ _ Hx _].
  destruct (remember (rs_EventJTI signal) (dedup (handler s))).2 eqn:Hd.
  - unfold ReceiveRevocation, st_bind, checkDuplicate in Hi'. rewrite H in Hi'.
    destruct (remember _ _) as [d dup]. cbn in Hd. subst dup. cbn in Hi'. by replace idx' with idx by congruence.
  - destruct (receive_new ck signal s x H Hd) as (_ & Hrev & _). rewrite Hi' in Hrev. rewrite Hi in Hrev.
    destruct (ri_Revoke _ _ _ _ _) as [idx1|] eqn:Hk; [|by replace idx' with idx by congruence]. injection Hrev as ->.
    cbn in Hk. unfold Revocation.Revoke in Hk. case_match; [done|]. injection Hk as <-.
    intros k e. cbn. rewrite lookup_insert_Some. intros [[_ <-]|[_ He]]; [cbn; lia|by eapply Hb].
Qed.

(** * Examples *)

Definition demo_peer : PeerSignalConfig :=
  {| pc_FabricID := "eu"; pc_Endpoint := "https://eu/v1/signals/events"; pc_Transport := "";
     pc_RelayTimeout := 0; pc_SyncInterval := 0; pc_MTLSSecret := "" |}.
Definition demo_clock (t : Time) : Clock :=
  {| ck_default := t; ck_check := t + 1; ck_revoke := t + 2; ck_flash := t + 3; ck_received := t + 4 |}.
Definition demo_signal (jti : string) (x : Time) : RevocationSignal :=
  {| rs_SubjectID := "spiffe://a/bob"; rs_Reason := "session-revoked"; rs_RevokedAt := 10;
     rs_ExpiresAt := x; rs_EventJTI := jti; rs_SourceFabric := "eu"; rs_TrustDomain := "a";
     rs_CertFabricID := "eu" |}.
Definition demo_st : St Revocation.InMemoryRevocationIndex :=
  {| handler := NewInboundHandler [demo_peer]
       [WithInboundRevocation Revocation.NewRevocationIndex; WithInboundRequireMTLS true];
     flashed := [] |}.
Definition demo_idx (s : St Revocation.InMemoryRevocationIndex) : Revocation.InMemoryRevocationIndex :=
  match revocation (handler s) with Some i => i | None => Revocation.NewRevocationIndex end.
Definition demo_after (t : Time) (jti : string) (x : Time) : St Revocation.InMemoryRevocationIndex :=
  (ReceiveRevocation (demo_clock t) (demo_signal jti x) demo_st).1.

Lemma demo_wf : dedup_wf (dedup (handler demo_st)).
Proof. apply newDedup_wf. Qed.

Lemma demo_not_seen j : j ∉ seen (dedup (handler demo_st)).
Proof. change (seen (dedup (handler demo_st))) with (∅ : gset string). set_solver. Qed.

Lemma demo_admissible : admissible (demo_clock 20) (demo_signal "e1" 100) (handler demo_st) 100.
Proof. apply checkSignal_ok. vm_compute. reflexivity. Qed.

Lemma demo_bounded : bounded Revocation.NewRevocationIndex.
Proof. intros k e He. cbn in He. by rewrite lookup_empty in He. Qed.

Lemma inbound_authorised_witness :
  exists x, admissible (demo_clock 20) (demo_signal "e1" 100) (handler demo_st) x.
Proof.
  refine (proj2 (proj2 (inbound_authorised (demo_clock 20) (demo_signal "e1" 100) demo_st
    (demo_after 20 "e1" 100) (Ok tt) 50 "spiffe://a/bob" Revocation.NewRevocationIndex
    (demo_idx (demo_after 20 "e1" 100)) _ _ _ _)));
    [vm_compute; reflexivity|vm_compute; reflexivity|vm_compute; reflexivity|vm_compute; discriminate].
Defined.

Lemma inbound_applies_witness :
  exists s' idx', ReceiveRevocation (demo_clock 20) (demo_signal "e1" 100) demo_st = (s', Ok tt) /\
    revocation (handler s') = Some idx' /\
    forall t, t <= 100 -> exists e, ri_IsRevoked t "spiffe://a/bob" idx' = Ok (Some e) /\
      re_Reason e = "federated:session-revoked from:eu".
Proof.
  apply (inbound_applies (demo_clock 20) (demo_signal "e1" 100) demo_st Revocation.NewRevocationIndex 100);
    [reflexivity|apply demo_admissible|right; apply demo_not_seen].
Defined.

Lemma inbound_replay_window_witness :
  flashed (ReceiveRevocation (demo_clock 30) (demo_signal "e1" 900)
    (receiveAll [(demo_clock 25, demo_signal "e2" 200)] (demo_after 20 "e1" 100))).1 =
  flashed (receiveAll [(demo_clock 25, demo_signal "e2" 200)] (demo_after 20 "e1" 100)).
Proof.
  refine (proj2 (inbound_replay_window (demo_clock 20) (demo_signal "e1" 100) demo_st
    [(demo_clock 25, demo_signal "e2" 200)] (demo_clock 30) (demo_signal "e1" 900) _ (Ok tt)
    demo_wf _ _ _ (demo_not_seen "e1") _ _ _));
    [apply Nat.leb_le; vm_compute; reflexivity|vm_compute; reflexivity|done|
     apply Nat.leb_le; vm_compute; reflexivity|done|].
  rewrite surjective_pairing at 1. f_equal.
Defined.

Lemma inbound_never_permanent_witness :
  bounded (demo_idx (demo_after 20 "e1" 0)).
Proof.
  apply (inbound_never_permanent (demo_clock 20) (demo_signal "e1" 0) demo_st Revocation.NewRevocationIndex);
    [done|reflexivity|apply demo_bounded|vm_compute; reflexivity].
Defined.
End Inbound.
