(* ===== verification/FedSync.v ===== *)
(** Hash-based reconciliation of revocation indexes between fabrics: the syncer of
    [pkg/federation/sync.go], the two endpoints of [pkg/api/federation_handler.go] it talks to,
    and what a synchronisation achieves. HTTP, URLs and JSON are arguments. *)
From Stdlib Require Import ZArith Lia.
From stdpp Require Import base gmap strings list.
From S2P Require Import Prelude.
From S2P Require Import GoLib.
From S2P Require Import Core.
From S2P Require Import FedTypes.
From S2P Require Import Revocation.

#[local] Open Scope string_scope.
#[local] Open Scope list_scope.
#[local] Open Scope Z_scope.

Module FedSync.
Import Gateway.

Abbreviation bytes := (list Byte.byte).

(** * The interface [RevocationSyncer]

    Its operations, and what its users rely on: cleaning up changes no answer from then on, an import keeps what
    is revoked and accepts every export, and equal hashes mean equal answers. *)
Class RevocationSyncer (I : Type) `{!RevocationIndex I} : Type := {
  sy_Hash : I -> string;
  sy_Export : Time -> I -> result string bytes;
  sy_Import : bytes -> I -> result string I;
  sy_Cleanup : Time -> I -> I * result string nat;
  sy_wf : I -> Prop;
  sy_cleanup_wf : forall now idx, sy_wf idx -> sy_wf (sy_Cleanup now idx).1;
  sy_cleanup_view : forall now t sub idx, now <= t ->
      ri_IsRevoked t sub (sy_Cleanup now idx).1 = ri_IsRevoked t sub idx;
  sy_import_keeps : forall d idx idx' t sub e, sy_Import d idx = Ok idx' ->
      ri_IsRevoked t sub idx = Ok (Some e) -> ri_IsRevoked t sub idx' = Ok (Some e);
  sy_import_accepts : forall tp peer d idx,
      sy_Export tp peer = Ok d -> exists idx', sy_Import d idx = Ok idx';
  sy_hash_agrees : forall idx1 idx2 t sub, sy_wf idx1 -> sy_wf idx2 ->
      sy_Hash idx1 = sy_Hash idx2 -> ri_IsRevoked t sub idx1 = ri_IsRevoked t sub idx2;
}.

(** Where a synchronisation stopped. *)
Inductive SyncErr : Type :=
| ErrHashRequest (e : string)
| ErrHashFetch (e : string)
| ErrHashStatus (code : Z)
| ErrHashDecode (e : string)
| ErrExportRequest (e : string)
| ErrExportFetch (e : string)
| ErrExportStatus (code : Z)
| ErrExportRead (e : string)
| ErrExportTooLarge
| ErrImport (e : string).

(** [SyncPeerState]; the last error is the error value, not its text. *)
Record SyncPeerState : Type := {
  sp_FabricID : string;
  sp_LastSync : Time;
  sp_LastMismatch : Time;
  sp_SyncCount : Z;
  sp_MismatchCount : Z;
  sp_FullSyncCount : Z;
  sp_ErrorCount : Z;
  sp_LastError : option SyncErr;
  sp_PeerHash : string;
  sp_LocalHash : string;
}.
Definition newSyncPeerState (id : string) : SyncPeerState :=
  {| sp_FabricID := id; sp_LastSync := 0; sp_LastMismatch := 0; sp_SyncCount := 0;
     sp_MismatchCount := 0; sp_FullSyncCount := 0; sp_ErrorCount := 0; sp_LastError := None;
     sp_PeerHash := ""; sp_LocalHash := "" |}.

Definition maxExportSize : nat := 10 * 1024 * 1024.

(** What one synchronisation meets: the requests that can be built, the answers to them, the
    decoding of a hash response, and the readings of the clock. *)
Record SyncEnv : Type := {
  http_NewRequest : string -> result string unit;
  http_Get : string -> result string Response;
  decode_hash : Response -> result string string;
  se_cleanup : Time;
  se_now : Time;
}.

Section WithIndex.
Context {I : Type} `{!RevocationIndex I} `{!RevocationSyncer I}.
(** [url.Parse]: the scheme and host of a URL. *)
Variable url_Parse : string -> option (string * string).

(** [Syncer]; the HTTP client is the environment's, the logger and metrics are left out. *)
Record Syncer : Type := {
  peers : list PeerSignalConfig;
  peerStates : gmap string SyncPeerState;
  revocation : I;
  started : bool;
  stopped : bool;
}.

Definition withStates (m : gmap string SyncPeerState) (s : Syncer) : Syncer :=
  {| peers := peers s; peerStates := m; revocation := revocation s; started := started s;
     stopped := stopped s |}.
Definition withIndex (idx : I) (s : Syncer) : Syncer :=
  {| peers := peers s; peerStates := peerStates s; revocation := idx; started := started s;
     stopped := stopped s |}.

(** [NewSyncer] *)
Definition NewSyncer (cfg : SignalGatewayConfig) (idx : I) : Syncer :=
  {| peers := ApplyDefaults <$> cfg_Peers cfg;
     peerStates := fold_left (fun (m : gmap string SyncPeerState) p =>
       <[pc_FabricID p := newSyncPeerState (pc_FabricID p)]> m) (ApplyDefaults <$> cfg_Peers cfg) ∅;
     revocation := idx; started := false; stopped := false |}.

(** [peerBaseURL] *)
Definition peerBaseURL (endpoint : string) : string :=
  match url_Parse endpoint with
  | None => endpoint
  | Some (scheme, host) => scheme +:+ "://" +:+ host
  end.

Definition hashURL (p : PeerSignalConfig) : string :=
  peerBaseURL (pc_Endpoint p) +:+ "/v1/federation/revocation-hash".
Definition exportURL (p : PeerSignalConfig) : string :=
  peerBaseURL (pc_Endpoint p) +:+ "/v1/federation/revocation-export".

Abbreviation Sy := (M Syncer SyncErr).

(** [recordError] *)
Definition errored (e : SyncErr) (st : SyncPeerState) : SyncPeerState :=
  {| sp_FabricID := sp_FabricID st; sp_LastSync := sp_LastSync st; sp_LastMismatch := sp_LastMismatch st;
     sp_SyncCount := sp_SyncCount st; sp_MismatchCount := sp_MismatchCount st;
     sp_FullSyncCount := sp_FullSyncCount st; sp_ErrorCount := i64 (sp_ErrorCount st + 1);
     sp_LastError := Some e; sp_PeerHash := sp_PeerHash st; sp_LocalHash := sp_LocalHash st |}.
Definition recordError (id : string) (e : SyncErr) (s : Syncer) : Syncer :=
  withStates (alter (errored e) id (peerStates s)) s.

(** An error is recorded and returned. *)
Definition fail {A} (p : PeerSignalConfig) (e : SyncErr) : Sy A :=
  fun s => (recordError (pc_FabricID p) e s, Err e).
Definition attempt {A} (p : PeerSignalConfig) (wrap : string -> SyncErr) (r : result string A) : Sy A :=
  match r with
  | Ok a => st_ret a
  | Err e => fail p (wrap e)
  end.
Definition modify (f : Syncer -> Syncer) : Sy unit := fun s => (f s, Ok tt).
Definition updateState (p : PeerSignalConfig) (f : SyncPeerState -> SyncPeerState) : Sy unit :=
  modify (fun s => withStates (alter f (pc_FabricID p) (peerStates s)) s).

(** The updates of a peer's state: a hash was fetched, it differs, the export was merged. *)
Definition hashChecked (now : Time) (localHash peerHash : string) (st : SyncPeerState) : SyncPeerState :=
  {| sp_FabricID := sp_FabricID st; sp_LastSync := now; sp_LastMismatch := sp_LastMismatch st;
     sp_SyncCount := i64 (sp_SyncCount st + 1); sp_MismatchCount := sp_MismatchCount st;
     sp_FullSyncCount := sp_FullSyncCount st; sp_ErrorCount := sp_ErrorCount st;
     sp_LastError := None; sp_PeerHash := peerHash; sp_LocalHash := localHash |}.
Definition mismatched (now : Time) (st : SyncPeerState) : SyncPeerState :=
  {| sp_FabricID := sp_FabricID st; sp_LastSync := sp_LastSync st; sp_LastMismatch := now;
     sp_SyncCount := sp_SyncCount st; sp_MismatchCount := i64 (sp_MismatchCount st + 1);
     sp_FullSyncCount := sp_FullSyncCount st; sp_ErrorCount := sp_ErrorCount st;
     sp_LastError := sp_LastError st; sp_PeerHash := sp_PeerHash st; sp_LocalHash := sp_LocalHash st |}.
Definition merged (localHash : string) (st : SyncPeerState) : SyncPeerState :=
  {| sp_FabricID := sp_FabricID st; sp_LastSync := sp_LastSync st; sp_LastMismatch := sp_LastMismatch st;
     sp_SyncCount := sp_SyncCount st; sp_MismatchCount := sp_MismatchCount st;
     sp_FullSyncCount := i64 (sp_FullSyncCount st + 1); sp_ErrorCount := sp_ErrorCount st;
     sp_LastError := sp_LastError st; sp_PeerHash := sp_PeerHash st; sp_LocalHash := localHash |}.

(** The first half of [syncWithPeer]: the local hash after a cleanup (whose error is only
    logged) and the peer's hash. *)
Definition fetchHash (env : SyncEnv) (p : PeerSignalConfig) : Sy string :=
  do _ <- attempt p ErrHashRequest (http_NewRequest env (hashURL p)) ;;
  do resp <- attempt p ErrHashFetch (http_Get env (hashURL p)) ;;
  if negb (rsp_Status resp =? 200) then fail p (ErrHashStatus (rsp_Status resp)) else
  attempt p ErrHashDecode (decode_hash env resp).

(** The second half: the peer's export, at most ten mebibytes of it. *)
Definition fetchExport (env : SyncEnv) (p : PeerSignalConfig) : Sy bytes :=
  do _ <- attempt p ErrExportRequest (http_NewRequest env (exportURL p)) ;;
  do resp <- attempt p ErrExportFetch (http_Get env (exportURL p)) ;;
  if negb (rsp_Status resp =? 200) then fail p (ErrExportStatus (rsp_Status resp)) else
  do body <- attempt p ErrExportRead (ReadAllLimit (S maxExportSize) resp) ;;
  if (maxExportSize <? length body)%nat then fail p ErrExportTooLarge else st_ret body.

Definition importBody (p : PeerSignalConfig) (body : bytes) : Sy unit :=
  fun s => match sy_Import body (revocation s) with
           | Err e => fail p (ErrImport e) s
           | Ok idx' => updateState p (merged (sy_Hash idx')) (withIndex idx' s)
           end.

(** [syncWithPeer] *)
Definition syncWithPeer (env : SyncEnv) (p : PeerSignalConfig) : Sy unit :=
  do _ <- modify (fun s => withIndex (sy_Cleanup (se_cleanup env) (revocation s)).1 s) ;;
  do localHash <- (fun s => (s, Ok (sy_Hash (revocation s)))) ;;
  do peerHash <- fetchHash env p ;;
  do _ <- updateState p (hashChecked (se_now env) localHash peerHash) ;;
  if (localHash =? peerHash)%string then st_ret tt else
  do _ <- updateState p (mismatched (se_now env)) ;;
  do body <- fetchExport env p ;;
  importBody p body.

(** [Start]: the peers a loop is launched for. *)
Definition Start (s : Syncer) : Syncer * result string (list PeerSignalConfig) :=
  if started s then (s, Err "syncer already started") else
  ({| peers := peers s; peerStates := peerStates s; revocation := revocation s; started := true;
      stopped := stopped s |}, Ok (peers s)).

(** [syncLoop]: one synchronisation at the start and one per tick until the stop; errors are
    only logged. *)
Inductive LoopEvent : Type :=
| Tick (env : SyncEnv)
| Stop.
Fixpoint loopFrom (p : PeerSignalConfig) (evs : list LoopEvent) (s : Syncer) : Syncer :=
  match evs with
  | [] => s
  | Stop :: _ => s
  | Tick env :: evs' => loopFrom p evs' (syncWithPeer env p s).1
  end.
Definition syncLoop (env : SyncEnv) (p : PeerSignalConfig) (evs : list LoopEvent) (s : Syncer) : Syncer :=
  loopFrom p evs (syncWithPeer env p s).1.

(** [State] and [Close] *)
Definition State (s : Syncer) : gmap string SyncPeerState := peerStates s.
Definition Close (s : Syncer) : Syncer :=
  {| peers := peers s; peerStates := peerStates s; revocation := revocation s; started := started s;
     stopped := true |}.

(** * What a synchronisation does to the index *)

(** The answers a peer gave: its hash, and its export. *)
Definition lift {A} (w : string -> SyncErr) (r : result string A) : result SyncErr A :=
  match r with Ok a => Ok a | Err e => Err (w e) end.
Definition hashAnswer (env : SyncEnv) (p : PeerSignalConfig) : result SyncErr string :=
  let? _ := lift ErrHashRequest (http_NewRequest env (hashURL p)) in
  let? resp := lift ErrHashFetch (http_Get env (hashURL p)) in
  let? _ := reject (negb (rsp_Status resp =? 200)) (ErrHashStatus (rsp_Status resp)) in
  lift ErrHashDecode (decode_hash env resp).
Definition exportAnswer (env : SyncEnv) (p : PeerSignalConfig) : result SyncErr bytes :=
  let? _ := lift ErrExportRequest (http_NewRequest env (exportURL p)) in
  let? resp := lift ErrExportFetch (http_Get env (exportURL p)) in
  let? _ := reject (negb (rsp_Status resp =? 200)) (ErrExportStatus (rsp_Status resp)) in
  let? body := lift ErrExportRead (ReadAllLimit (S maxExportSize) resp) in
  let? _ := reject (maxExportSize <? length body)%nat ErrExportTooLarge in
  Ok body.

(** A step that has an answer returns it, and records it when it is an error. *)
Definition answers {A} (p : PeerSignalConfig) (m : Sy A) (r : result SyncErr A) : Prop :=
  forall s, m s = (match r with Ok _ => s | Err e => recordError (pc_FabricID p) e s end, r).

Lemma answers_attempt {A} p w (r : result string A) : answers p (attempt p w r) (lift w r).
Proof. intros s. by destruct r. Qed.
Lemma answers_bind {A B} p (m : Sy A) r (k : A -> Sy B) f :
  answers p m r -> (forall a, answers p (k a) (f a)) -> answers p (st_bind m k) (rbind r f).
Proof. intros Hm Hk s. unfold st_bind. rewrite Hm. destruct r as [a|e]; [apply Hk|done]. Qed.
Lemma answers_guard {A} p (c : bool) e (m : Sy A) r :
  answers p m r -> answers p (if c then fail p e else m) (rbind (reject c e) (fun _ => r)).
Proof. intros Hm s. destruct c; [done|]. apply Hm. Qed.

Lemma answers_fetchHash env p : answers p (fetchHash env p) (hashAnswer env p).
Proof. repeat first [apply answers_attempt|apply answers_guard|apply answers_bind; [|intros ?]]. Qed.
Lemma answers_fetchExport env p : answers p (fetchExport env p) (exportAnswer env p).
Proof.
  repeat first [apply answers_attempt|apply answers_guard|apply answers_bind; [|intros ?]]. by intros s.
Qed.

(** How a synchronisation ends: the index is the cleaned one, except when the peer's hash differs
    and its export is imported. *)
Lemma sync_cases env p s s' r :
  syncWithPeer env p s = (s', r) ->
  let cleaned := (sy_Cleanup (se_cleanup env) (revocation s)).1 in
  (is_ok r = false /\ revocation s' = cleaned) \/
  (r = Ok tt /\ hashAnswer env p = Ok (sy_Hash cleaned) /\ revocation s' = cleaned) \/
  (exists body, r = Ok tt /\ exportAnswer env p = Ok body /\ sy_Import body cleaned = Ok (revocation s')).
Proof.
  unfold syncWithPeer. unfold st_bind, modify, updateState. rewrite !answers_fetchHash.
  destruct (hashAnswer env p) as [ph|e] eqn:Hh; [|intros [= <- <-]; by left].
  cbn. destruct (String.eqb_spec (sy_Hash (sy_Cleanup (se_cleanup env) (revocation s)).1) ph) as [<-|Hne].
  { intros [= <- <-]. right. by left. }
  cbn. rewrite !answers_fetchExport.
  destruct (exportAnswer env p) as [body|e] eqn:Hx; [|intros [= <- <-]; by left].
  unfold importBody. cbn. destruct (sy_Import body _) as [idx'|e] eqn:Hi; intros [= <- <-]; [|by left].
  right. right. by exists body.
Qed.

(** Synchronising with a peer never lifts a revocation: whatever the peer answers, a subject
    that is revoked at or after the cleanup stays revoked, with the same entry. *)
Theorem sync_never_unrevokes env p s t sub e :
  se_cleanup env <= t -> ri_IsRevoked t sub (revocation s) = Ok (Some e) ->
  ri_IsRevoked t sub (revocation (syncWithPeer env p s).1) = Ok (Some e).
Proof.
  intros Ht Hr. rewrite <- (sy_cleanup_view (se_cleanup env) t sub) in Hr by done.
  destruct (syncWithPeer env p s) as [s' r] eqn:Hs. cbn.
  destruct (sync_cases _ _ _ _ _ Hs) as [[_ ->]|[(_ & _ & ->)|(body & _ & _ & Hi)]]; [done|done|].
  by eapply sy_import_keeps.
Qed.

(** * The peer's endpoints *)

(** The fields of [api.Server] the federation handlers use. *)
Record Server : Type := {
  federationPeerSecret : string;
  revocationIndex : option I;
}.

(** What a handler writes: an [errorResponse], a [revocationHashResponse], or raw bytes. *)
Inductive Reply : Type :=
| RError (status : Z) (error description : string)
| RHash (hash : string) (count : Z) (timestamp : string)
| RRaw (body : bytes).

(** [json.Unmarshal] of a snapshot's count, and RFC 3339 times. *)
Variable unmarshal_count : bytes -> option Z.
Variable format_RFC3339 : Time -> string.
Variable encode_reply : Reply -> bytes.

(** [requireFederationPeerAuth]: the refusal, if any. *)
Definition requireFederationPeerAuth (srv : Server) (authHeader : string) : option Reply :=
  if (federationPeerSecret srv =? "")%string then None else
  if negb (HasPrefix authHeader "Bearer ") then
    Some (RError 401 "unauthorized" "federation peer secret required")
  else if negb (TrimPrefix authHeader "Bearer " =? federationPeerSecret srv)%string then
    Some (RError 401 "unauthorized" "invalid federation peer secret")
  else None.

(** [handleFederationRevocationHash]; [te] is the clock inside [Export], [ts] the timestamp's. *)
Definition handleFederationRevocationHash (te ts : Time) (srv : Server) (authHeader : string) : Reply :=
  match requireFederationPeerAuth srv authHeader with
  | Some refusal => refusal
  | None =>
      match revocationIndex srv with
      | None => RError 503 "service_unavailable" "revocation index not configured"
      | Some idx =>
          let count := match sy_Export te idx with
                       | Ok data => match unmarshal_count data with Some c => c | None => 0 end
                       | Err _ => 0
                       end in
          RHash (sy_Hash idx) count (format_RFC3339 ts)
      end
  end.

(** [handleFederationRevocationExport] *)
Definition handleFederationRevocationExport (te : Time) (srv : Server) (authHeader : string) : Reply :=
  match requireFederationPeerAuth srv authHeader with
  | Some refusal => refusal
  | None =>
      match revocationIndex srv with
      | None => RError 503 "service_unavailable" "revocation index not configured"
      | Some idx =>
          match sy_Export te idx with
          | Err _ => RError 500 "server_error" "failed to export revocation index"
          | Ok data => RRaw data
          end
      end
  end.

(** The response that carries a reply; raw bytes are written as they are. *)
Definition served (r : Reply) : Response :=
  {| rsp_Status := match r with RError status _ _ => status | _ => 200 end;
     rsp_Body := match r with RRaw body => body | _ => encode_reply r end;
     rsp_ReadErr := None |}.

(** The environment of a synchronisation with a server: its two endpoints answer the syncer's
    requests, which carry no [Authorization] header, and the hash response decodes. *)
Record talks_to (env : SyncEnv) (p : PeerSignalConfig) (srv : Server) (th te ts : Time) : Prop := {
  tt_hash_request : http_NewRequest env (hashURL p) = Ok tt;
  tt_export_request : http_NewRequest env (exportURL p) = Ok tt;
  tt_hash : http_Get env (hashURL p) = Ok (served (handleFederationRevocationHash th ts srv ""));
  tt_export : http_Get env (exportURL p) = Ok (served (handleFederationRevocationExport te srv ""));
  tt_decode : forall h c t, decode_hash env (served (RHash h c t)) = Ok h;
}.

Lemma hashAnswer_honest env p srv th te ts idx :
  talks_to env p srv th te ts -> federationPeerSecret srv = "" -> revocationIndex srv = Some idx ->
  hashAnswer env p = Ok (sy_Hash idx).
Proof.
  intros [Hq _ Hh _ Hd] Hs Hi. unfold hashAnswer. rewrite Hq, Hh.
  unfold handleFederationRevocationHash, requireFederationPeerAuth. rewrite Hs, Hi. cbn.
  by rewrite Hd.
Qed.

Lemma exportAnswer_honest env p srv th te ts idx d :
  talks_to env p srv th te ts -> federationPeerSecret srv = "" -> revocationIndex srv = Some idx ->
  sy_Export te idx = Ok d -> (length d <= maxExportSize)%nat -> exportAnswer env p = Ok d.
Proof.
  intros [_ Hq _ Hx _] Hs Hi He Hl. unfold exportAnswer. rewrite Hq, Hx.
  assert (handleFederationRevocationExport te srv "" = RRaw d) as ->.
  { unfold handleFederationRevocationExport, requireFederationPeerAuth. by rewrite Hs, Hi, He. }
  unfold served. cbn [lift rbind rsp_Status]. change (negb (200 =? 200)) with false. cbn [reject rbind].
  unfold ReadAllLimit. cbn [rsp_Body rsp_ReadErr].
  assert ((S maxExportSize <=? length d)%nat = false) as -> by (apply Nat.leb_gt; lia).
  cbn [lift rbind]. assert ((maxExportSize <? length d)%nat = false) as -> by (apply Nat.ltb_ge; lia).
  done.
Qed.

(** Against a peer that serves its index without a secret a synchronisation succeeds, with the index of the peer's
    hash or with the peer's export imported. *)
Lemma sync_honest env p srv th te ts pidx d s :
  talks_to env p srv th te ts -> federationPeerSecret srv = "" -> revocationIndex srv = Some pidx ->
  sy_Export te pidx = Ok d -> (length d <= maxExportSize)%nat ->
  let cleaned := (sy_Cleanup (se_cleanup env) (revocation s)).1 in
  exists s', syncWithPeer env p s = (s', Ok tt) /\
    (sy_Hash cleaned = sy_Hash pidx /\ revocation s' = cleaned \/ sy_Import d cleaned = Ok (revocation s')).
Proof.
  intros Ht Hsec Hi He Hl cleaned. destruct (syncWithPeer env p s) as [s' r] eqn:Hs. exists s'.
  pose proof (hashAnswer_honest _ _ _ _ _ _ _ Ht Hsec Hi) as Hh.
  pose proof (exportAnswer_honest _ _ _ _ _ _ _ _ Ht Hsec Hi He Hl) as Hx.
  destruct (sync_cases _ _ _ _ _ Hs) as [[Hr _]|[(-> & Hh' & ->)|(body & -> & Hx' & Him)]].
  - exfalso. revert Hs Hr. unfold syncWithPeer. unfold st_bind, modify, updateState.
    rewrite !answers_fetchHash, Hh. cbn. destruct (_ =? _)%string; [by intros [= <- <-]|].
    cbn. rewrite !answers_fetchExport, Hx. unfold importBody. cbn.
    destruct (sy_import_accepts te pidx d (sy_Cleanup (se_cleanup env) (revocation s)).1 He) as [idx' ->].
    by intros [= <- <-].
  - split; [done|]. left. split; [|done]. fold cleaned in Hh'. congruence.
  - split; [done|]. right. fold cleaned in Him. congruence.
Qed.

(** With a peer secret configured on the other side no synchronisation can succeed: the syncer
    sends no credential, is answered 401, and adopts nothing. *)
Theorem sync_fails_with_peer_secret env p srv th te ts s :
  talks_to env p srv th te ts -> federationPeerSecret srv <> "" ->
  (syncWithPeer env p s).2 = Err (ErrHashStatus 401) /\
  revocation (syncWithPeer env p s).1 = (sy_Cleanup (se_cleanup env) (revocation s)).1.
Proof.
  intros [Hq _ Hh _ _] Hs.
  assert (hashAnswer env p = Err (ErrHashStatus 401)) as Ha.
  { unfold hashAnswer. rewrite Hq, Hh. unfold handleFederationRevocationHash, requireFederationPeerAuth.
    apply String.eqb_neq in Hs as ->. done. }
  unfold syncWithPeer, st_bind, modify. by rewrite !answers_fetchHash, Ha.
Qed.
End WithIndex.
Arguments Syncer : clear implicits.
Arguments Server : clear implicits.

(** * The in-memory index implements the interface *)

Section InMemory.
Context `{!RangeOrder}.
Import Revocation.
Variable marshal_entries : list RevocationEntry -> result string bytes.
Variable marshal_snapshot : RevocationSnapshot -> result string bytes.
Variable unmarshal_snapshot : bytes -> result string RevocationSnapshot.
Variable sha256_hex : bytes -> string.
(** JSON decodes what it encoded, lists of entries can be encoded, and the hash of an encoding
    determines the list. *)
Hypothesis snapshot_roundtrip : forall s d, marshal_snapshot s = Ok d -> unmarshal_snapshot d = Ok s.
Hypothesis entries_encodable : forall l, exists d, marshal_entries l = Ok d.
Hypothesis hash_injective : forall l1 l2 d1 d2,
  marshal_entries l1 = Ok d1 -> marshal_entries l2 = Ok d2 -> sha256_hex d1 = sha256_hex d2 -> l1 = l2.

#[local] Existing Instance InMemory_RevocationIndex.

Lemma export_import_exists tp peer d idx :
  Export marshal_entries marshal_snapshot sha256_hex tp peer = Ok d ->
  Import marshal_entries unmarshal_snapshot sha256_hex d idx =
    Ok {| entries := merge_entries (snapshotEntries tp peer) (entries idx) |}.
Proof using snapshot_roundtrip.
  unfold Export. fold (snapshotEntries tp peer). intros He.
  destruct (marshal_entries (snapshotEntries tp peer)) as [ej|] eqn:Hm; [|done]. cbn in He.
  unfold Import. rewrite (snapshot_roundtrip _ _ He). cbn. rewrite Hm. cbn. by rewrite String.eqb_refl.
Qed.

Lemma in_memory_adopts now tp t sub idx idx' peer d e :
  wf peer -> Export marshal_entries marshal_snapshot sha256_hex tp peer = Ok d ->
  Import marshal_entries unmarshal_snapshot sha256_hex d (Cleanup now idx).1 = Ok idx' ->
  IsRevoked t sub peer = Ok (Some e) -> tp <= t -> now <= t ->
  (exists e', IsRevoked t sub idx' = Ok (Some e')) \/
  (exists e0, IsRevoked now sub idx = Ok (Some e0) /\ IsRevoked t sub idx = Ok None).
Proof using snapshot_roundtrip.
  intros Hw He Hi Hp Htp Hnow. rewrite (export_import_exists _ _ _ _ He) in Hi. injection Hi as <-.
  unfold IsRevoked. cbn [entries fst Cleanup]. rewrite lookup_merge.
  destruct (purge (expired now) (entries idx) !! sub) as [e0|] eqn:Hl.
  - apply lookup_purge in Hl as [Hl Hx]. rewrite Hl, Hx.
    destruct (expired t e0); [right|left]; eauto.
  - left. unfold IsRevoked in Hp. destruct (entries peer !! sub) as [ep|] eqn:Hk; [|done].
    destruct (expired t ep) eqn:Hx; [done|]. injection Hp as ->.
    assert (Hin : e ∈ snapshotEntries tp peer).
    { apply elem_of_snapshot. split; [eauto|]. destruct (expired tp e) eqn:Hx'; [|done].
      by rewrite (expired_mono _ _ _ Htp Hx') in Hx. }
    assert (List.find (fun e => (re_SubjectID e =? sub)%string) (snapshotEntries tp peer) = Some e) as ->.
    { apply find_subject; [by apply NoDup_snapshot|]. split; [done|by apply Hw]. }
    rewrite Hx. eauto.
Qed.

#[export] Instance InMemory_RevocationSyncer : RevocationSyncer InMemoryRevocationIndex.
Proof using All.
  refine {| sy_Hash := Hash marshal_entries sha256_hex;
            sy_Export := Export marshal_entries marshal_snapshot sha256_hex;
            sy_Import := Import marshal_entries unmarshal_snapshot sha256_hex;
            sy_Cleanup := fun now idx => let '(idx', n) := Cleanup now idx in (idx', Ok n);
            sy_wf := wf |}.
  - intros now idx Hw k e. cbn. intros [Hk _]%lookup_purge. by apply Hw.
  - intros now t sub idx Ht. by destruct (cleanup_invisible now t idx sub Ht).
  - intros d idx idx' t sub e. apply import_never_unrevokes.
  - intros tp peer d idx He. eexists. by apply export_import_exists.
  - intros idx1 idx2 t sub Hw1 Hw2 Hh. cbn. unfold IsRevoked.
    apply (hash_detects_divergence marshal_entries sha256_hex) in Hh as ->; done.
Defined.

(** C19: Reconciliation adopts the peer's revocations. Against a peer that serves its in-memory index without a secret,
    does not change it between the two requests, and whose export is at most ten mebibytes, a synchronisation
    succeeds; and in the index it leaves, before anything else changes it, a subject the peer reports as revoked is
    revoked too, unless this unit held a live entry of its own at the cleanup that has expired by the time asked for (an
    import never replaces an entry). JSON decodes what it encoded, and SHA-256 is taken not to collide. *)
Theorem sync_adopts_peer url_Parse unmarshal_count format_RFC3339 encode_reply env p srv th te ts pidx d
    (s : Syncer InMemoryRevocationIndex) :
  talks_to url_Parse unmarshal_count format_RFC3339 encode_reply env p srv th te ts ->
  federationPeerSecret srv = "" -> revocationIndex srv = Some pidx -> wf pidx -> wf (revocation s) ->
  Export marshal_entries marshal_snapshot sha256_hex te pidx = Ok d -> (length d <= maxExportSize)%nat ->
  exists s', syncWithPeer url_Parse env p s = (s', Ok tt) /\
    forall t sub e, te <= t -> se_cleanup env <= t -> IsRevoked t sub pidx = Ok (Some e) ->
      (exists e', IsRevoked t sub (revocation s') = Ok (Some e')) \/
      (exists e0, IsRevoked (se_cleanup env) sub (revocation s) = Ok (Some e0) /\
                  IsRevoked t sub (revocation s) = Ok None).
Proof using All.
  intros Ht Hsec Hi Hwp Hw He Hl.
  destruct (sync_honest url_Parse unmarshal_count format_RFC3339 encode_reply env p srv th te ts pidx d s Ht Hsec Hi He Hl)
    as (s' & Hs & Hor). exists s'. split; [done|]. intros t sub e Hte Hc Hp.
  destruct Hor as [[Hh ->]|Him].
  - left. exists e. rewrite <- Hp. exact (sy_hash_agrees _ _ t sub (sy_cleanup_wf (se_cleanup env) _ Hw) Hwp Hh).
  - by eapply (in_memory_adopts (se_cleanup env) te t sub (revocation s) (revocation s') pidx d e).
Qed.
End InMemory.

(** * Examples *)

#[local] Existing Instance key_order.
#[local] Existing Instance Revocation.InMemory_RevocationIndex.
#[local] Instance demo_syncer : RevocationSyncer Revocation.InMemoryRevocationIndex :=
  InMemory_RevocationSyncer Revocation.demo_marshal Revocation.demo_marshal_snap
    Revocation.demo_unmarshal_snap String.string_of_list_byte Revocation.demo_roundtrip
    (fun l => ex_intro _ _ eq_refl) Revocation.demo_inj.

Definition demo_idx : Revocation.InMemoryRevocationIndex :=
  {| Revocation.entries := {[ "b" := Revocation.demo_entry "b" "r" 50 ]} |}.
Lemma sync_demo_idx_wf : Revocation.wf demo_idx.
Proof. intros k e. cbn. rewrite lookup_singleton_Some. naive_solver. Qed.

Definition demo_parse (u : string) : option (string * string) := Some ("https", "eu").
Definition demo_peer : PeerSignalConfig :=
  {| pc_FabricID := "eu"; pc_Endpoint := "https://eu/v1/signals/events"; pc_Transport := "https";
     pc_RelayTimeout := Second; pc_SyncInterval := Second; pc_MTLSSecret := "" |}.
Definition demo_encode (r : Reply) : bytes :=
  match r with RHash h _ _ => String.list_byte_of_string h | _ => [] end.
Definition demo_server (secret : string) : Server Revocation.InMemoryRevocationIndex :=
  {| federationPeerSecret := secret; revocationIndex := Some demo_idx |}.
Definition demo_env (secret : string) : SyncEnv :=
  {| http_NewRequest := fun _ => Ok tt;
     http_Get := fun url =>
       Ok (served demo_encode
             (if (url =? hashURL demo_parse demo_peer)%string
              then handleFederationRevocationHash (fun _ => None) (fun _ => "") 10 10 (demo_server secret) ""
              else handleFederationRevocationExport 10 (demo_server secret) ""));
     decode_hash := fun r => Ok (String.string_of_list_byte (rsp_Body r));
     se_cleanup := 10; se_now := 11 |}.
Definition demo_sync : Syncer Revocation.InMemoryRevocationIndex :=
  NewSyncer {| cfg_Peers := [demo_peer] |} Revocation.NewRevocationIndex.
Definition demo_local : Syncer Revocation.InMemoryRevocationIndex :=
  NewSyncer {| cfg_Peers := [demo_peer] |} demo_idx.

Lemma demo_talks secret :
  talks_to demo_parse (fun _ => None) (fun _ => "") demo_encode (demo_env secret) demo_peer
    (demo_server secret) 10 10 10.
Proof.
  split; try reflexivity. intros h c t.
  unfold demo_env, served. cbn [decode_hash rsp_Body demo_encode].
  by rewrite String.string_of_list_byte_of_string.
Qed.

Definition demo_export : bytes :=
  match sy_Export 10 demo_idx with Ok d => d | Err _ => [] end.
Lemma demo_export_ok : sy_Export 10 demo_idx = Ok demo_export.
Proof. vm_compute. reflexivity. Qed.
Lemma demo_export_size : (length demo_export <= maxExportSize)%nat.
Proof.
  assert (length demo_export <= 100 * 100)%nat by (apply Nat.leb_le; vm_compute; reflexivity).
  unfold maxExportSize. lia.
Qed.

Lemma sync_never_unrevokes_witness :
  ri_IsRevoked 20 "b" (revocation (syncWithPeer demo_parse (demo_env "") demo_peer demo_local).1) =
  Ok (Some (Revocation.demo_entry "b" "r" 50)).
Proof.
  apply (sync_never_unrevokes demo_parse (demo_env "") demo_peer demo_local 20 "b");
    [by vm_compute|vm_compute; reflexivity].
Defined.

Lemma sync_adopts_peer_witness :
  exists s', syncWithPeer demo_parse (demo_env "") demo_peer demo_sync = (s', Ok tt) /\
    forall t sub e, 10 <= t -> 10 <= t -> Revocation.IsRevoked t sub demo_idx = Ok (Some e) ->
      (exists e', Revocation.IsRevoked t sub (revocation s') = Ok (Some e')) \/
      (exists e0, Revocation.IsRevoked 10 sub (revocation demo_sync) = Ok (Some e0) /\
                  Revocation.IsRevoked t sub (revocation demo_sync) = Ok None).
Proof.
  apply (sync_adopts_peer Revocation.demo_marshal Revocation.demo_marshal_snap
    Revocation.demo_unmarshal_snap String.string_of_list_byte Revocation.demo_roundtrip
    (fun l => ex_intro _ _ eq_refl) Revocation.demo_inj demo_parse (fun _ => None) (fun _ => "") demo_encode (demo_env "") demo_peer
    (demo_server "") 10 10 10 demo_idx demo_export demo_sync (demo_talks "") eq_refl eq_refl
    sync_demo_idx_wf); [|exact demo_export_ok|exact demo_export_size].
  intros k e He. cbn in He. by rewrite lookup_empty in He.
Defined.

Lemma sync_fails_with_peer_secret_witness :
  (syncWithPeer demo_parse (demo_env "s3cret") demo_peer demo_sync).2 = Err (ErrHashStatus 401).
Proof.
  apply (sync_fails_with_peer_secret demo_parse (fun _ => None) (fun _ => "") demo_encode
           (demo_env "s3cret") demo_peer (demo_server "s3cret") 10 10 10 demo_sync);
    [apply demo_talks|done].
Defined.
End FedSync.
