(* ===== verification/FedGateway.v ===== *)
(** The composite gateway of [pkg/federation/composite.go]: relay, inbound handler and syncer behind
    one interface, and the bridge from the local sync bus to the peers. *)
From Stdlib Require Import ZArith Lia.
From stdpp Require Import base gmap strings list sets.
From S2P Require Import Prelude.
From S2P Require Import GoLib.
From S2P Require Import Core.
From S2P Require Import FedTypes.
From S2P Require Import Relay.
From S2P Require Import Revocation.
From S2P Require Import Inbound.
From S2P Require Import FedSync.

#[local] Open Scope string_scope.
#[local] Open Scope list_scope.
#[local] Open Scope Z_scope.

Module FedGateway.
Import Gateway.

(** The sync bus signal types that are relayed ([pkg/sync/subjects.go]). *)
Definition SignalIdentityRevoked : string := "identity.revoked".
Definition SignalCAEPSessionRevoked : string := "caep.session_revoked".
Definition revocationSignalTypes : list string := [SignalIdentityRevoked; SignalCAEPSessionRevoked].

(** The errors of the gateway's own. *)
Inductive GatewayErr : Type :=
| ErrRelayNil
| ErrInboundNil
| ErrSyncerNil
| ErrUnknownPeer (peerID : string)
| ErrSubscribeWithoutRelay
| ErrBusNil
| ErrAlreadySubscribed
| ErrSubscribe (signalType e : string)
| ErrInbound (e : Inbound.InboundErr)
| ErrSync (e : FedSync.SyncErr).

Section Composite.
Context {Cert : Type} {I : Type} `{!RevocationIndex I} `{!FedSync.RevocationSyncer I}.
Variable url_Parse : string -> option (string * string).

(** [CompositeGateway]; a nil component is [None]. *)
Record CompositeGateway : Type := {
  relay : option (Relay.Relay Cert);
  inbound : option (Inbound.St I);
  syncer : option (FedSync.Syncer I);
  syncBusSubscribed : bool;
}.

(** [NewCompositeGateway] *)
Definition NewCompositeGateway r i s : CompositeGateway :=
  {| relay := r; inbound := i; syncer := s; syncBusSubscribed := false |}.

(** [RelayRevocation], with the requests it sent. *)
Definition RelayRevocation (env : Relay.Env (Cert:=Cert)) order (now : Time) (signal : RevocationSignal)
    (cg : CompositeGateway) : CompositeGateway * result GatewayErr (list (Relay.Post (Cert:=Cert))) :=
  match relay cg with
  | None => (cg, Err ErrRelayNil)
  | Some r =>
      let '(r', posts) := Relay.RelayRevocation env order now signal r in
      ({| relay := Some r'; inbound := inbound cg; syncer := syncer cg;
          syncBusSubscribed := syncBusSubscribed cg |}, Ok posts)
  end.

(** The revocation index is one object that the inbound handler and the syncer point to: what one
    of them does to it the other sees. A handler without an index stays without one. *)
Definition share_to_syncer (idx : option I) (s : FedSync.Syncer I) : FedSync.Syncer I :=
  match idx with Some i => FedSync.withIndex i s | None => s end.
Definition share_to_inbound (idx : I) (st : Inbound.St I) : Inbound.St I :=
  match Inbound.revocation (Inbound.handler st) with
  | Some _ => {| Inbound.handler := Inbound.withRevocation (Some idx) (Inbound.handler st);
                 Inbound.flashed := Inbound.flashed st |}
  | None => st
  end.

(** [ReceiveRevocation] *)
Definition ReceiveRevocation (ck : Inbound.Clock) (signal : RevocationSignal) (cg : CompositeGateway)
    : CompositeGateway * result GatewayErr unit :=
  match inbound cg with
  | None => (cg, Err ErrInboundNil)
  | Some st =>
      let '(st', r) := Inbound.ReceiveRevocation ck signal st in
      ({| relay := relay cg; inbound := Some st';
          syncer := share_to_syncer (Inbound.revocation (Inbound.handler st')) <$> syncer cg;
          syncBusSubscribed := syncBusSubscribed cg |},
       match r with Ok _ => Ok tt | Err e => Err (ErrInbound e) end)
  end.

(** [SyncState] *)
Definition SyncState (env : FedSync.SyncEnv) (peerID : string) (cg : CompositeGateway)
    : CompositeGateway * result GatewayErr unit :=
  match syncer cg with
  | None => (cg, Err ErrSyncerNil)
  | Some s =>
      match List.find (fun p => (pc_FabricID p =? peerID)%string) (FedSync.peers s) with
      | None => (cg, Err (ErrUnknownPeer peerID))
      | Some p =>
          let '(s', r) := FedSync.syncWithPeer url_Parse env p s in
          ({| relay := relay cg; inbound := share_to_inbound (FedSync.revocation s') <$> inbound cg;
              syncer := Some s'; syncBusSubscribed := syncBusSubscribed cg |},
           match r with Ok _ => Ok tt | Err e => Err (ErrSync e) end)
      end
  end.

(** The overlays of [State]. *)
Definition overlayReceived (rcv ps : PeerSignalState) : PeerSignalState :=
  {| ps_FabricID := ps_FabricID ps; ps_Transport := ps_Transport ps; ps_LastRelayed := ps_LastRelayed ps;
     ps_LastReceived := ps_LastReceived rcv; ps_RelayedCount := ps_RelayedCount ps;
     ps_ReceivedCount := ps_ReceivedCount rcv; ps_ErrorCount := ps_ErrorCount ps;
     ps_ConsecutiveErrors := ps_ConsecutiveErrors ps; ps_RevocationHash := ps_RevocationHash ps;
     ps_Status := ps_Status ps |}.
Definition overlayHash (h : string) (ps : PeerSignalState) : PeerSignalState :=
  {| ps_FabricID := ps_FabricID ps; ps_Transport := ps_Transport ps; ps_LastRelayed := ps_LastRelayed ps;
     ps_LastReceived := ps_LastReceived ps; ps_RelayedCount := ps_RelayedCount ps;
     ps_ReceivedCount := ps_ReceivedCount ps; ps_ErrorCount := ps_ErrorCount ps;
     ps_ConsecutiveErrors := ps_ConsecutiveErrors ps; ps_RevocationHash := h;
     ps_Status := ps_Status ps |}.

Abbreviation Peers := (gmap string PeerSignalState).
Definition copyRelay (l : list (string * PeerSignalState)) (m : Peers) : Peers :=
  fold_left (fun m kv => <[kv.1 := kv.2]> m) l m.
Definition overlayInbound (l : list (string * PeerSignalState)) (m : Peers) : Peers :=
  fold_left (fun m kv => match m !! kv.1 with
                         | Some existing => <[kv.1 := overlayReceived kv.2 existing]> m
                         | None => <[kv.1 := kv.2]> m
                         end) l m.
Definition overlaySync (l : list (string * FedSync.SyncPeerState)) (m : Peers) : Peers :=
  fold_left (fun m kv => match m !! kv.1 with
                         | Some existing => <[kv.1 := overlayHash (FedSync.sp_PeerHash kv.2) existing]> m
                         | None => m
                         end) l m.

(** [State]: the three loops over the components' states. *)
Definition State `{!RangeOrder} (now : Time) (cg : CompositeGateway) : GatewayState :=
  let m1 := match relay cg with
            | Some r => copyRelay (range (gs_Peers (Relay.State now r))) ∅
            | None => ∅
            end in
  let m2 := match inbound cg with
            | Some st => overlayInbound (range (Inbound.State (Inbound.handler st))) m1
            | None => m1
            end in
  let m3 := match syncer cg with
            | Some s => overlaySync (range (FedSync.State s)) m2
            | None => m2
            end in
  {| gs_Peers := m3; gs_UpdatedAt := now |}.

(** [Close] closes the relay, which has nothing to stop, and the syncer. *)
Definition Close (cg : CompositeGateway) : CompositeGateway :=
  {| relay := (fun r => (Relay.Close r).1) <$> relay cg; inbound := inbound cg;
     syncer := FedSync.Close <$> syncer cg; syncBusSubscribed := syncBusSubscribed cg |}.

(** [SubscribeToSyncBus]: [subscribe] is the bus's [Subscribe], [None] for a nil bus. *)
Fixpoint subscribeAll (subscribe : string -> result string unit) (types : list string)
    : result GatewayErr unit :=
  match types with
  | [] => Ok tt
  | st :: types' => match subscribe st with
                    | Err e => Err (ErrSubscribe st e)
                    | Ok _ => subscribeAll subscribe types'
                    end
  end.
Definition SubscribeToSyncBus (subscribe : option (string -> result string unit)) (cg : CompositeGateway)
    : CompositeGateway * result GatewayErr unit :=
  match relay cg, subscribe with
  | None, _ => (cg, Err ErrSubscribeWithoutRelay)
  | _, None => (cg, Err ErrBusNil)
  | Some _, Some sub =>
      if syncBusSubscribed cg then (cg, Err ErrAlreadySubscribed) else
      match subscribeAll sub revocationSignalTypes with
      | Err e => (cg, Err e)
      | Ok _ => ({| relay := relay cg; inbound := inbound cg; syncer := syncer cg;
                    syncBusSubscribed := true |}, Ok tt)
      end
  end.

(** The fields of a bus signal that [buildSyncBusHandler] reads. *)
Definition payloadString (signal : Signal) (k : string) : string :=
  match sig_Payload signal !! k ≫= as_string with Some s => s | None => "" end.
Definition bridged (signalType sourceFabric : string) (signal : Signal) : RevocationSignal :=
  let reason := payloadString signal "reason" in
  {| rs_SubjectID := payloadString signal "subject_id";
     rs_Reason := if (reason =? "")%string then signalType else reason;
     rs_RevokedAt := sig_Timestamp signal;
     rs_ExpiresAt := sig_Timestamp signal + 1 * Hour;
     rs_EventJTI := payloadString signal "event_jti";
     rs_SourceFabric := sourceFabric;
     rs_TrustDomain := payloadString signal "trust_domain";
     rs_CertFabricID := "" |}.

(** The handler [buildSyncBusHandler] returns. *)
Definition busHandler (env : Relay.Env (Cert:=Cert)) order (now : Time) (signalType sourceFabric : string)
    (signal : Signal) (cg : CompositeGateway)
    : CompositeGateway * result GatewayErr (list (Relay.Post (Cert:=Cert))) :=
  if (payloadString signal "subject_id" =? "")%string then (cg, Ok []) else
  RelayRevocation env order now (bridged signalType sourceFabric signal) cg.

(** * The merged state *)

Lemma copyRelay_spec (l : list (string * PeerSignalState)) : forall (m : Peers) k,
  NoDup l.*1 -> copyRelay l m !! k = match list_to_map (M:=Peers) l !! k with Some v => Some v | None => m !! k end.
Proof.
  induction l as [|[j v] l IH]; intros m k Hnd; cbn; [by rewrite lookup_empty|].
  cbn in Hnd. apply NoDup_cons in Hnd as [Hj Hnd]. rewrite IH by done. cbn.
  destruct (decide (j = k)) as [->|Hne].
  - rewrite !lookup_insert_eq. by rewrite (not_elem_of_list_to_map_1 (M:=gmap string) l k Hj).
  - rewrite !lookup_insert_ne by done. done.
Qed.

Lemma overlayInbound_spec (l : list (string * PeerSignalState)) : forall (m : Peers) k,
  NoDup l.*1 ->
  overlayInbound l m !! k =
  match list_to_map (M:=Peers) l !! k, m !! k with
  | Some rcv, Some ps => Some (overlayReceived rcv ps)
  | Some rcv, None => Some rcv
  | None, r => r
  end.
Proof.
  induction l as [|[j v] l IH]; intros m k Hnd; cbn; [by rewrite lookup_empty|].
  cbn in Hnd. apply NoDup_cons in Hnd as [Hj Hnd]. rewrite IH by done. cbn.
  destruct (decide (j = k)) as [->|Hne].
  - rewrite lookup_insert_eq, (not_elem_of_list_to_map_1 (M:=gmap string) l k Hj).
    destruct (m !! k); by rewrite lookup_insert_eq.
  - rewrite (lookup_insert_ne _ j k) by done. destruct (m !! j); by rewrite lookup_insert_ne.
Qed.

Lemma overlaySync_spec (l : list (string * FedSync.SyncPeerState)) : forall (m : Peers) k,
  NoDup l.*1 ->
  overlaySync l m !! k =
  match list_to_map (M:=gmap string FedSync.SyncPeerState) l !! k, m !! k with
  | Some ss, Some ps => Some (overlayHash (FedSync.sp_PeerHash ss) ps)
  | _, r => r
  end.
Proof.
  induction l as [|[j v] l IH]; intros m k Hnd; cbn; [by rewrite lookup_empty|].
  cbn in Hnd. apply NoDup_cons in Hnd as [Hj Hnd]. rewrite IH by done. cbn.
  destruct (decide (j = k)) as [->|Hne].
  - rewrite lookup_insert_eq, (not_elem_of_list_to_map_1 (M:=gmap string) l k Hj).
    destruct (m !! k) eqn:E; [by rewrite lookup_insert_eq|done].
  - rewrite (lookup_insert_ne _ j k) by done. destruct (m !! j); [by rewrite lookup_insert_ne|done].
Qed.

Lemma range_list_to_map {V} `{!RangeOrder} (m : gmap string V) : list_to_map (range m) = m.
Proof.
  rewrite <- (list_to_map_to_list m) at 2. apply list_to_map_proper; [apply NoDup_range_keys|apply range_perm].
Qed.

(** A peer as the three components know it. *)
Definition peerView (cg : CompositeGateway) (id : string) : option PeerSignalState :=
  let base := relay cg ≫= fun r => Relay.peerStates r !! id in
  let recv := inbound cg ≫= fun st => Inbound.peerStates (Inbound.handler st) !! id in
  let hash := syncer cg ≫= fun s => FedSync.peerStates s !! id in
  let ps := match recv, base with
            | Some rcv, Some ps => Some (overlayReceived rcv ps)
            | Some rcv, None => Some rcv
            | None, r => r
            end in
  match hash, ps with
  | Some ss, Some ps => Some (overlayHash (FedSync.sp_PeerHash ss) ps)
  | _, r => r
  end.

(** The merged state is the join of the three components' states, whatever order the maps are
    iterated in: relay health and counts from the relay, receive counts from the inbound
    handler, the peer's hash from the syncer, and no peer that only the syncer knows. *)
Theorem gateway_state_view `{!RangeOrder} now cg id :
  gs_Peers (State now cg) !! id = peerView cg id.
Proof.
  unfold State, peerView. cbn [gs_Peers Relay.State].
  assert (H1 : match relay cg with
               | Some r => copyRelay (range (Relay.peerStates r)) ∅ | None => ∅ end !! id
             = relay cg ≫= fun r => Relay.peerStates r !! id).
  { destruct (relay cg) as [r|]; cbn; [|apply lookup_empty].
    rewrite copyRelay_spec, range_list_to_map by apply NoDup_range_keys.
    by destruct (Relay.peerStates r !! id). }
  revert H1. set (m1 := match relay cg with Some r => copyRelay _ _ | None => _ end).
  clearbody m1. intros H1. rewrite <- H1. unfold Inbound.State, FedSync.State.
  destruct (inbound cg) as [st|]; destruct (syncer cg) as [s|]; cbn [mbind option_bind];
    rewrite ?overlaySync_spec, ?overlayInbound_spec, ?range_list_to_map by apply NoDup_range_keys;
    repeat case_match; simplify_eq; done.
Qed.

(** * From the fabric's bus to its peers *)

(** A bridged signal with a new event identifier is posted to every peer that is not down. *)
Lemma busHandler_posts env order now ty src sig cg r p body :
  relay cg = Some r -> (forall l, Permutation (order l) l) ->
  payloadString sig "subject_id" <> "" ->
  (payloadString sig "event_jti" = "" \/ payloadString sig "event_jti" ∉ seen (Relay.dedup r)) ->
  p ∈ Relay.peers r -> Relay.isDown p r = false ->
  Relay.marshal_signal env (bridged ty src sig) = Ok body ->
  Relay.http_NewRequest env (pc_Endpoint p) = Ok tt ->
  exists cg' posts, busHandler env order now ty src sig cg = (cg', Ok posts) /\
    {| Relay.po_Client := Relay.clientForPeer (pc_FabricID p) r; Relay.po_URL := pc_Endpoint p;
       Relay.po_ContentType := "application/json"; Relay.po_Body := body |} ∈ posts.
Proof.
  intros Hr Hord Hsub Hj Hp Hdown Hm Hq. unfold busHandler. apply String.eqb_neq in Hsub as ->.
  unfold RelayRevocation. rewrite Hr. unfold Relay.RelayRevocation.
  assert (Hnew : (remember (rs_EventJTI (bridged ty src sig)) (Relay.dedup r)).2 = false).
  { unfold remember. cbn [rs_EventJTI bridged].
    destruct (String.eqb_spec (payloadString sig "event_jti") ""); [done|].
    destruct Hj as [|Hj]; [done|]. by rewrite bool_decide_false. }
  destruct (remember _ _) as [d dup]. cbn in Hnew. subst dup.
  destruct (Relay.deliverAll _ _ _ _ _) as [r' posts] eqn:Hd. eexists _, posts. split; [done|].
  change posts with (r', posts).2. rewrite <- Hd, Relay.deliverAll_posts.
  rewrite list_elem_of_In, in_flat_map. exists p. split.
  - apply list_elem_of_In. rewrite (Hord _). by apply Relay.elem_of_targets.
  - unfold Relay.attempt, Relay.relayToPeer. rewrite Hm, Hq.
    destruct (Relay.http_Do _ _ _ _ _ _) as [code|e]; [destruct (Relay.ok_status code)|]; by left.
Qed.
End Composite.
Arguments CompositeGateway : clear implicits.
End FedGateway.
