(* ===== verification/Jwks.v ===== *)
(** The JWKS cache of [pkg/jwks/cache.go]: key resolution with a TTL, refetch on a missing key
    identifier, stale keys within a grace period, prefetching and background refresh, and the
    bounds on issuers and keys. HTTP and the JWK library are arguments. *)
From Stdlib Require Import ZArith Lia.
From stdpp Require Import base gmap strings list.
From S2P Require Import Prelude.
From S2P Require Import GoLib.

#[local] Open Scope string_scope.
#[local] Open Scope list_scope.
#[local] Open Scope Z_scope.

(** The JWK library: a key of a set, its identifier, and its export to a public key. *)
Class JwkLib : Type := {
  Jwk : Type;
  PublicKey : Type;
  jwk_Parse : list Byte.byte -> result string (list Jwk);
  jwk_kid : Jwk -> option string;
  jwk_Export : Jwk -> result string PublicKey;
}.

Module Jwks.

Definition DefaultTTL : Duration := 5 * Minute.
Definition DefaultGrace : Duration := 30 * Minute.
Definition DefaultMaxIssuers : Z := 500.
Definition DefaultMaxKeysPerIssuer : Z := 20.

(** [Config], without the HTTP client. *)
Record Config : Type := {
  TTL : Duration;
  Grace : Duration;
  MaxIssuers : Z;
  MaxKeysPerIssuer : Z;
}.

(** [withDefaults] *)
Definition withDefaults (c : Config) : Config :=
  {| TTL := if TTL c =? 0 then DefaultTTL else TTL c;
     Grace := if Grace c =? 0 then DefaultGrace else Grace c;
     MaxIssuers := if MaxIssuers c =? 0 then DefaultMaxIssuers else MaxIssuers c;
     MaxKeysPerIssuer := if MaxKeysPerIssuer c =? 0 then DefaultMaxKeysPerIssuer else MaxKeysPerIssuer c |}.

(** Where a fetch stopped, and the errors of [ResolveKey]. *)
Inductive FetchErr : Type :=
| ErrRequest (e : string)
| ErrFetch (url e : string)
| ErrStatus (code : Z) (url : string)
| ErrRead (e : string)
| ErrParse (e : string).
Inductive ResolveErr : Type :=
| ErrResolving (issuer kid : string) (e : FetchErr)
| ErrKidNotFound (kid issuer : string).

Section WithLib.
Context `{!JwkLib}.

(** [issuerEntry] *)
Record issuerEntry : Type := {
  keys : gmap string PublicKey;
  fetchedAt : Time;
  jwksURL : string;
}.

Definition isExpired (now : Time) (ttl : Duration) (e : issuerEntry) : bool := ttl <? Sub now (fetchedAt e).
Definition isWithinGrace (now : Time) (grace : Duration) (e : issuerEntry) : bool :=
  Sub now (fetchedAt e) <=? grace.
Definition getKey (kid : string) (e : issuerEntry) : option PublicKey := keys e !! kid.
Definition keyCount (e : issuerEntry) : nat := size (keys e).

(** [Cache], with the documents that were fetched as a history. *)
Record Document : Type := {
  doc_issuer : string;
  doc_url : string;
  doc_at : Time;
  doc_keys : list Jwk;
}.
Record Cache : Type := {
  cfg : Config;
  issuers : gmap string issuerEntry;
  hits : Z;
  misses : Z;
  fetches : Z;
  errors : Z;
  history : list Document;
}.

(** [New] *)
Definition New (c : Config) : Cache :=
  {| cfg := withDefaults c; issuers := ∅; hits := 0; misses := 0; fetches := 0; errors := 0;
     history := [] |}.

(** What a fetch meets: the request that can be built, the status and body of the answer, and the
    time at which the document was parsed. *)
Record Net : Type := {
  net_request : string -> result string unit;
  net_get : string -> result string (Z * result string (list Byte.byte));
  net_now : Time;
}.

(** [jwksURLForIssuer] *)
Definition jwksURLForIssuer (issuer : string) : string := issuer +:+ "/.well-known/jwks.json".

(** The counters are [uint64]. *)
Definition countHit (c : Cache) : Cache :=
  {| cfg := cfg c; issuers := issuers c; hits := u64 (hits c + 1); misses := misses c;
     fetches := fetches c; errors := errors c; history := history c |}.
Definition countMiss (c : Cache) : Cache :=
  {| cfg := cfg c; issuers := issuers c; hits := hits c; misses := u64 (misses c + 1);
     fetches := fetches c; errors := errors c; history := history c |}.
Definition countFetch (failed : bool) (c : Cache) : Cache :=
  {| cfg := cfg c; issuers := issuers c; hits := hits c; misses := misses c;
     fetches := u64 (fetches c + 1); errors := if failed then u64 (errors c + 1) else errors c;
     history := history c |}.

(** The loop that keeps the keys of a set that have an identifier and can be exported; it looks at
    the first [max] keys only, and the last key with an identifier wins. *)
Definition addKey (m : gmap string PublicKey) (k : Jwk) : gmap string PublicKey :=
  match jwk_kid k with
  | None => m
  | Some kid =>
      if (kid =? "")%string then m else
      match jwk_Export k with
      | Err _ => m
      | Ok pub => <[kid := pub]> m
      end
  end.
Definition collectKeys (max : Z) (ks : list Jwk) : gmap string PublicKey :=
  fold_left addKey (take (Z.to_nat max) ks) ∅.

(** The answer to a fetch. *)
Definition fetchDocument (net : Net) (url : string) : result FetchErr (list Jwk) :=
  match net_request net url with
  | Err e => Err (ErrRequest e)
  | Ok _ =>
      match net_get net url with
      | Err e => Err (ErrFetch url e)
      | Ok (status, body) =>
          if negb (status =? 200) then Err (ErrStatus status url) else
          match body with
          | Err e => Err (ErrRead e)
          | Ok b => match jwk_Parse b with
                    | Err e => Err (ErrParse e)
                    | Ok ks => Ok ks
                    end
          end
      end
  end.

(** The new entry is stored if there is room or it replaces one. *)
Definition store (issuer : string) (e : issuerEntry) (d : Document) (c : Cache) : Cache :=
  {| cfg := cfg c;
     issuers := if (Z.of_nat (size (issuers c)) <? MaxIssuers (cfg c)) ||
                   bool_decide (is_Some (issuers c !! issuer))
                then <[issuer := e]> (issuers c) else issuers c;
     hits := hits c; misses := misses c; fetches := fetches c; errors := errors c;
     history := history c ++ [d] |}.

(** [fetchAndCache] *)
Definition fetchAndCache (net : Net) (issuer url : string) (c : Cache)
    : Cache * result FetchErr issuerEntry :=
  match fetchDocument net url with
  | Err e => (countFetch true c, Err e)
  | Ok ks =>
      let e := {| keys := collectKeys (MaxKeysPerIssuer (cfg c)) ks; fetchedAt := net_now net;
                  jwksURL := url |} in
      let d := {| doc_issuer := issuer; doc_url := url; doc_at := net_now net; doc_keys := ks |} in
      (store issuer e d (countFetch false c), Ok e)
  end.

(** The fast path of [ResolveKey]: an entry that is not expired and has the key. *)
Definition cachedKey (now : Time) (issuer kid : string) (c : Cache) : option PublicKey :=
  match issuers c !! issuer with
  | Some e => if isExpired now (TTL (cfg c)) e then None else getKey kid e
  | None => None
  end.
(** The stale key served when the issuer is unreachable; [entry] was read before the fetch. *)
Definition staleKey (now : Time) (kid : string) (entry : option issuerEntry) (c : Cache) : option PublicKey :=
  match entry with
  | Some e => if isWithinGrace now (Grace (cfg c)) e then getKey kid e else None
  | None => None
  end.

(** [ResolveKey]; [now] is the clock of the expiry test, [later] that of the grace test. *)
Definition ResolveKey (net : Net) (now later : Time) (issuer kid : string) (c : Cache)
    : Cache * result ResolveErr PublicKey :=
  match cachedKey now issuer kid c with
  | Some key => (countHit c, Ok key)
  | None =>
      let entry := issuers c !! issuer in
      match fetchAndCache net issuer (jwksURLForIssuer issuer) (countMiss c) with
      | (c', Err e) =>
          match staleKey later kid entry c with
          | Some key => (countHit c', Ok key)
          | None => (c', Err (ErrResolving issuer kid e))
          end
      | (c', Ok e) =>
          match getKey kid e with
          | Some key => (countHit c', Ok key)
          | None => (c', Err (ErrKidNotFound kid issuer))
          end
      end
  end.

(** [Prefetch]: the loop starts fetches while there is room, and each one ends whenever its answer
    comes; the remaining issuers are skipped once the cache is full. *)
Inductive prefetch : Cache -> list string -> list string -> Cache -> Prop :=
| pf_start c issuer rest flying c' :
    Z.of_nat (size (issuers c)) < MaxIssuers (cfg c) ->
    prefetch c rest (issuer :: flying) c' ->
    prefetch c (issuer :: rest) flying c'
| pf_break c issuer rest flying c' :
    MaxIssuers (cfg c) <= Z.of_nat (size (issuers c)) ->
    prefetch c [] flying c' ->
    prefetch c (issuer :: rest) flying c'
| pf_done c todo fl1 issuer fl2 net c' :
    prefetch (fetchAndCache net issuer (jwksURLForIssuer issuer) c).1 todo (fl1 ++ fl2) c' ->
    prefetch c todo (fl1 ++ issuer :: fl2) c'
| pf_return c : prefetch c [] [] c.

(** [refreshExpired]: the entries are chosen first, then fetched one after the other. *)
Definition toRefresh `{!RangeOrder} (now : Time) (c : Cache) : list (string * string) :=
  (fun kv => (kv.1, jwksURL kv.2)) <$>
  List.filter (fun kv => isExpired now (TTL (cfg c)) kv.2 && isWithinGrace now (Grace (cfg c)) kv.2)
    (range (issuers c)).
Fixpoint refreshAll (nets : nat -> Net) (n : nat) (l : list (string * string)) (c : Cache) : Cache :=
  match l with
  | [] => c
  | (issuer, url) :: l' => refreshAll nets (S n) l' (fetchAndCache (nets n) issuer url c).1
  end.
Definition refreshExpired `{!RangeOrder} (nets : nat -> Net) (now : Time) (c : Cache) : Cache :=
  refreshAll nets O (toRefresh now c) c.

(** [Stats] *)
Record JWKSCacheStats : Type := {
  st_Hits : Z; st_Misses : Z; st_Fetches : Z; st_Errors : Z; st_CachedKeys : nat; st_Issuers : nat;
}.
Definition Stats `{!RangeOrder} (c : Cache) : JWKSCacheStats :=
  {| st_Hits := hits c; st_Misses := misses c; st_Fetches := fetches c; st_Errors := errors c;
     st_CachedKeys := fold_left (fun n kv => (n + keyCount kv.2)%nat) (range (issuers c)) O;
     st_Issuers := size (issuers c) |}.

(** What can happen to a cache. *)
Inductive cstep `{!RangeOrder} : Cache -> Cache -> Prop :=
| cs_resolve net now later issuer kid c : cstep c (ResolveKey net now later issuer kid c).1
| cs_prefetch l c c' : prefetch c l [] c' -> cstep c c'
| cs_refresh nets now c : cstep c (refreshExpired nets now c).
Inductive reachable `{!RangeOrder} (cf : Config) : Cache -> Prop :=
| reach_new : reachable cf (New cf)
| reach_step c c' : reachable cf c -> cstep c c' -> reachable cf c'.

(** * Invariant *)

(** An entry comes from a document that was fetched for its issuer from the issuer's URL. *)
Definition from_document (cf : Config) (h : list Document) (issuer : string) (e : issuerEntry) : Prop :=
  exists d, d ∈ h /\ doc_issuer d = issuer /\ doc_url d = jwksURLForIssuer issuer /\
    fetchedAt e = doc_at d /\ jwksURL e = jwksURLForIssuer issuer /\
    keys e = collectKeys (MaxKeysPerIssuer cf) (doc_keys d).

Record inv (cf : Config) (c : Cache) : Prop := {
  inv_cfg : cfg c = cf;
  inv_room : Z.of_nat (size (issuers c)) <= Z.max 0 (MaxIssuers cf);
  inv_docs : forall issuer e, issuers c !! issuer = Some e -> from_document cf (history c) issuer e;
}.

Lemma inv_new cf : inv (withDefaults cf) (New cf).
Proof. split; cbn; [done|rewrite map_size_empty; lia|intros i e; by rewrite lookup_empty]. Qed.

Lemma inv_count cf c c' :
  cfg c' = cfg c -> issuers c' = issuers c -> history c' = history c -> inv cf c -> inv cf c'.
Proof. intros H1 H2 H3 [? ? ?]. split; rewrite ?H1, ?H2, ?H3; done. Qed.

Lemma from_document_mono cf h d i e : from_document cf h i e -> from_document cf (h ++ [d]) i e.
Proof. intros (d' & Hd & Hx). exists d'. split; [set_solver|done]. Qed.

Lemma inv_fetch cf net issuer c :
  inv cf c -> inv cf (fetchAndCache net issuer (jwksURLForIssuer issuer) c).1.
Proof.
  intros Hi. unfold fetchAndCache.
  destruct (fetchDocument net (jwksURLForIssuer issuer)) as [ks|e]; cbn; [|by eapply inv_count, Hi].
  destruct Hi as [Hc Hr Hd]. split; cbn; [done| |].
  - rewrite Hc. destruct (Z.ltb_spec (Z.of_nat (size (issuers c))) (MaxIssuers cf)); cbn.
    + rewrite map_size_insert. destruct (issuers c !! issuer); cbn; lia.
    + case_bool_decide as Hs; [|done]. destruct Hs as [e0 He0]. by rewrite map_size_insert_Some.
  - intros i e. set (b := _ || _).
    assert (Hold : forall e, issuers c !! i = Some e ->
      from_document cf (history c ++ [{| doc_issuer := issuer; doc_url := jwksURLForIssuer issuer;
        doc_at := net_now net; doc_keys := ks |}]) i e) by (intros; by apply from_document_mono, Hd).
    destruct b; [|apply Hold]. rewrite lookup_insert_Some. intros [[<- <-]|[_ He]]; [|by apply Hold].
    eexists. split; [apply elem_of_app; right; by apply list_elem_of_singleton|].
    cbn. by rewrite Hc.
Qed.

Lemma inv_prefetch cf c todo flying c' : prefetch c todo flying c' -> inv cf c -> inv cf c'.
Proof.
  intros Hp. induction Hp as [c i rest fl c' _ _ IH|c i rest fl c' _ _ IH|c todo f1 i f2 net c' _ IH|c];
    intros Hi; [by apply IH|by apply IH|by apply IH, inv_fetch|done].
Qed.

Lemma inv_refreshAll cf nets l : forall n c,
  Forall (fun iu => iu.2 = jwksURLForIssuer iu.1) l -> inv cf c -> inv cf (refreshAll nets n l c).
Proof.
  induction l as [|[i u] l IH]; intros n c Hl Hi; cbn; [done|].
  apply Forall_cons in Hl as [Hu Hl]. cbn in Hu. subst u. apply IH; [done|by apply inv_fetch].
Qed.

Lemma inv_step `{!RangeOrder} cf c c' : inv cf c -> cstep c c' -> inv cf c'.
Proof.
  intros Hi Hs. destruct Hs as [net now later issuer kid c|l c c' Hp|nets now c].
  - unfold ResolveKey. destruct (cachedKey now issuer kid c); [by eapply inv_count, Hi|].
    assert (Hi' : inv cf (countMiss c)) by by eapply inv_count, Hi.
    pose proof (inv_fetch cf net issuer (countMiss c) Hi') as Hf.
    destruct (fetchAndCache net issuer _ (countMiss c)) as [c1 [e|e]]; cbn in Hf.
    + destruct (getKey kid e); [by eapply inv_count, Hf|done].
    + destruct (staleKey _ _ _ _); [by eapply inv_count, Hf|done].
  - by eapply inv_prefetch.
  - apply inv_refreshAll; [|done]. unfold toRefresh. apply Forall_fmap, Forall_forall.
    intros [i e] Hin. cbn. apply list_elem_of_In, filter_In in Hin as [Hin _].
    apply list_elem_of_In, elem_of_range in Hin.
    by destruct (inv_docs _ _ Hi _ _ Hin) as (d & _ & _ & _ & _ & -> & _).
Qed.

Lemma inv_reachable `{!RangeOrder} cf c : reachable cf c -> inv (withDefaults cf) c.
Proof. induction 1 as [|c c' _ IH Hs]; [apply inv_new|by eapply inv_step]. Qed.

(** * Keys of a document *)

Lemma addKey_size m k : (size (addKey m k) <= S (size m))%nat.
Proof.
  unfold addKey. destruct (jwk_kid k) as [kid|]; [|lia]. destruct (kid =? "")%string; [lia|].
  destruct (jwk_Export k) as [pub|]; [|lia]. rewrite map_size_insert. destruct (m !! kid); cbn; lia.
Qed.

Lemma fold_addKey_size ks : forall m, (size (fold_left addKey ks m) <= length ks + size m)%nat.
Proof.
  induction ks as [|k ks IH]; intros m; cbn; [lia|]. pose proof (IH (addKey m k)).
  pose proof (addKey_size m k). lia.
Qed.

Lemma collectKeys_size max ks : Z.of_nat (size (collectKeys max ks)) <= Z.max 0 max.
Proof.
  unfold collectKeys. pose proof (fold_addKey_size (take (Z.to_nat max) ks) ∅) as Hs.
  rewrite map_size_empty, length_take in Hs. lia.
Qed.

(** A key of a document that is published under an identifier. *)
Definition publishes (ks : list Jwk) (kid : string) (pub : PublicKey) : Prop :=
  kid <> "" /\ exists k, k ∈ ks /\ jwk_kid k = Some kid /\ jwk_Export k = Ok pub.

Lemma fold_addKey_lookup ks : forall m kid pub,
  fold_left addKey ks m !! kid = Some pub -> m !! kid = Some pub \/ publishes ks kid pub.
Proof.
  induction ks as [|k ks IH]; intros m kid pub; cbn; [by left|].
  intros [Hm|(Hn & k' & Hin & Hk)]%IH.
  2:{ right. split; [done|]. exists k'. split; [by apply list_elem_of_further|done]. }
  unfold addKey in Hm. destruct (jwk_kid k) as [kid'|] eqn:Hk; [|by left].
  destruct (String.eqb_spec kid' "") as [|Hne]; [by left|].
  destruct (jwk_Export k) as [pub'|] eqn:He; [|by left].
  apply lookup_insert_Some in Hm as [[-> ->]|[_ Hm]]; [|by left].
  right. split; [done|]. exists k. split; [apply list_elem_of_here|done].
Qed.

Lemma collectKeys_publishes max ks kid pub :
  collectKeys max ks !! kid = Some pub -> publishes ks kid pub.
Proof.
  intros [Hm|(Hn & k & Hin & Hk)]%fold_addKey_lookup; [by rewrite lookup_empty in Hm|].
  split; [done|]. exists k. split; [|done]. by eapply elem_of_take in Hin as (i & Hi%list_elem_of_lookup_2 & _).
Qed.

(** * Theorems *)

(** The three ways a key is resolved: from a fresh entry, from the document just fetched, or from a
    stale entry when the fetch failed. *)
Lemma resolve_cases net now later issuer kid c c' key :
  ResolveKey net now later issuer kid c = (c', Ok key) ->
  (exists e, issuers c !! issuer = Some e /\ isExpired now (TTL (cfg c)) e = false /\
     getKey kid e = Some key /\ history c' = history c) \/
  (exists ks, fetchDocument net (jwksURLForIssuer issuer) = Ok ks /\
     collectKeys (MaxKeysPerIssuer (cfg c)) ks !! kid = Some key /\
     history c' = history c ++ [{| doc_issuer := issuer; doc_url := jwksURLForIssuer issuer;
                                   doc_at := net_now net; doc_keys := ks |}]) \/
  (exists e, issuers c !! issuer = Some e /\ is_ok (fetchDocument net (jwksURLForIssuer issuer)) = false /\
     isWithinGrace later (Grace (cfg c)) e = true /\ getKey kid e = Some key /\ history c' = history c).
Proof.
  unfold ResolveKey. destruct (cachedKey now issuer kid c) as [key'|] eqn:Hc.
  { intros [= <- <-]. left. unfold cachedKey in Hc. destruct (issuers c !! issuer) as [e|]; [|done].
    destruct (isExpired now (TTL (cfg c)) e) eqn:Hx; [done|]. by exists e. }
  unfold fetchAndCache. destruct (fetchDocument net (jwksURLForIssuer issuer)) as [ks|er]; cbn.
  - unfold getKey at 1. cbn. destruct (collectKeys (MaxKeysPerIssuer (cfg c)) ks !! kid) as [key'|] eqn:Hk; [|done].
    intros [= <- <-]. right. left. by exists ks.
  - destruct (staleKey later kid (issuers c !! issuer) c) as [key'|] eqn:Hs; [|done].
    intros [= <- <-]. right. right. unfold staleKey in Hs. destruct (issuers c !! issuer) as [e|]; [|done].
    destruct (isWithinGrace later (Grace (cfg c)) e) eqn:Hg; [|done]. by exists e.
Qed.

Lemma resolve_sound `{!RangeOrder} cf c net now later issuer kid c' key :
  reachable cf c -> ResolveKey net now later issuer kid c = (c', Ok key) ->
  exists d, d ∈ history c' /\ doc_issuer d = issuer /\ doc_url d = issuer +:+ "/.well-known/jwks.json" /\
    publishes (doc_keys d) kid key /\
    (history c' = history c ++ [d] \/
     (history c' = history c /\ Sub now (doc_at d) <= TTL (withDefaults cf)) \/
     (history c' = history c /\ is_ok (fetchDocument net (jwksURLForIssuer issuer)) = false /\
      Sub later (doc_at d) <= Grace (withDefaults cf))).
Proof.
  intros Hr%inv_reachable Hres. pose proof (inv_cfg _ _ Hr) as Hcfg.
  assert (Hentry : forall e, issuers c !! issuer = Some e -> getKey kid e = Some key ->
    exists d, d ∈ history c /\ doc_issuer d = issuer /\ doc_url d = jwksURLForIssuer issuer /\
      publishes (doc_keys d) kid key /\ doc_at d = fetchedAt e).
  { intros e He Hk. destruct (inv_docs _ _ Hr _ _ He) as (d & Hd & Hi & Hu & Hat & _ & Hks).
    exists d. unfold getKey in Hk. rewrite Hks in Hk. by apply collectKeys_publishes in Hk. }
  destruct (resolve_cases _ _ _ _ _ _ _ _ Hres) as
    [(e & He & Hx & Hk & ->)|[(ks & _ & Hk & ->)|(e & He & Hf & Hg & Hk & ->)]].
  - destruct (Hentry e He Hk) as (d & ? & ? & ? & ? & Hat). exists d. split_and!; [done..|].
    right. left. split; [done|]. rewrite Hat, <- Hcfg. unfold isExpired in Hx. lia.
  - eexists. split_and!; [apply elem_of_app; right; by apply list_elem_of_singleton|done|done| |by left].
    by eapply collectKeys_publishes.
  - destruct (Hentry e He Hk) as (d & ? & ? & ? & ? & Hat). exists d. split_and!; [done..|].
    right. right. split_and!; [done..|]. rewrite Hat, <- Hcfg. unfold isWithinGrace in Hg. lia.
Qed.

(** C20: Every resolved key was published by its issuer. Whatever requests, prefetches and refreshes a
    cache has been through, a key that [ResolveKey] returns was exported from a document fetched
    from that issuer's own URL under the requested identifier, and the document is fresh: it was
    fetched by this very call, or within the TTL, or, when the issuer could not be reached,
    within the grace period. *)
Theorem resolved_key_authentic `{!RangeOrder} cf c net now later issuer kid c' key :
  reachable cf c -> ResolveKey net now later issuer kid c = (c', Ok key) ->
  exists d, d ∈ history c' /\ doc_issuer d = issuer /\ doc_url d = issuer +:+ "/.well-known/jwks.json" /\
    publishes (doc_keys d) kid key /\
    (history c' = history c ++ [d] \/
     (history c' = history c /\ Sub now (doc_at d) <= TTL (withDefaults cf)) \/
     (history c' = history c /\ is_ok (fetchDocument net (jwksURLForIssuer issuer)) = false /\
      Sub later (doc_at d) <= Grace (withDefaults cf))).
Proof. apply resolve_sound. Qed.

(** The cache is bounded: it never holds more than [MaxIssuers] issuers nor more than
    [MaxKeysPerIssuer] keys for one of them, whatever documents it is served. *)
Theorem cache_bounded `{!RangeOrder} cf c :
  reachable cf c ->
  Z.of_nat (size (issuers c)) <= Z.max 0 (MaxIssuers (withDefaults cf)) /\
  forall issuer e, issuers c !! issuer = Some e ->
    Z.of_nat (keyCount e) <= Z.max 0 (MaxKeysPerIssuer (withDefaults cf)).
Proof.
  intros [Hc Hr Hd]%inv_reachable. split; [done|]. intros issuer e He.
  destruct (Hd _ _ He) as (d & _ & _ & _ & _ & _ & Hk). unfold keyCount. rewrite Hk. apply collectKeys_size.
Qed.

(** A key the issuer has withdrawn stops resolving. When the cached key is not fresh and the issuer
    answers with a document that does not publish the identifier, the request fails and the cache
    no longer holds the key for that issuer. *)
Theorem withdrawn_key_rejected net now later issuer kid c ks :
  cachedKey now issuer kid c = None ->
  fetchDocument net (jwksURLForIssuer issuer) = Ok ks ->
  (forall pub, ~ publishes ks kid pub) ->
  (ResolveKey net now later issuer kid c).2 = Err (ErrKidNotFound kid issuer) /\
  forall e, issuers (ResolveKey net now later issuer kid c).1 !! issuer = Some e -> getKey kid e = None.
Proof.
  intros Hc Hf Hno. unfold ResolveKey, fetchAndCache. rewrite Hc, Hf.
  assert (Hk : collectKeys (MaxKeysPerIssuer (cfg c)) ks !! kid = None).
  { destruct (collectKeys _ ks !! kid) eqn:E; [|done]. by apply collectKeys_publishes, Hno in E. }
  unfold getKey. cbn. rewrite Hk. cbn. split; [done|]. intros e.
  destruct (issuers c !! issuer) as [e0|] eqn:He0.
  - rewrite bool_decide_true, orb_true_r by eauto. rewrite lookup_insert_eq. by intros [= <-].
  - destruct (_ || _); [rewrite lookup_insert_eq; by intros [= <-]|]. by rewrite He0.
Qed.
End WithLib.

(** * Examples *)

(** Keys are pairs of an identifier and a name; a body of one byte is a document with one key. *)
Definition demo_lib : JwkLib :=
  {| Jwk := string * string; PublicKey := string;
     jwk_Parse := fun b => match b with [] => Err "empty" | Byte.x02 :: _ => Ok [("k2", "pk2")] | _ => Ok [("k1", "pk1")] end;
     jwk_kid := fun k => Some k.1; jwk_Export := fun k => Ok k.2 |}.
#[local] Existing Instance demo_lib.
#[local] Existing Instance key_order.

Definition demo_cfg : Config := {| TTL := 0; Grace := 0; MaxIssuers := 2; MaxKeysPerIssuer := 0 |}.
Definition demo_net (t : Time) (body : option Byte.byte) : Net :=
  {| net_request := fun _ => Ok tt;
     net_get := fun _ => match body with Some b => Ok (200, Ok [b]) | None => Err "unreachable" end;
     net_now := t |}.
Definition demo_cache : Cache :=
  (ResolveKey (demo_net 100 (Some Byte.x01)) 99 99 "https://idp" "k1" (New demo_cfg)).1.
Lemma demo_reachable : reachable demo_cfg demo_cache.
Proof. eapply reach_step; [apply reach_new|apply cs_resolve]. Qed.

(** The issuer is unreachable, six minutes later: the stale key is served. *)
Definition demo_later : Time := 100 + 6 * Minute.
Definition demo_stale : Cache * result ResolveErr string :=
  ResolveKey (demo_net demo_later None) demo_later demo_later "https://idp" "k1" demo_cache.

Lemma resolved_key_authentic_witness :
  exists d, d ∈ history demo_stale.1 /\ doc_issuer d = "https://idp" /\
    doc_url d = "https://idp/.well-known/jwks.json" /\ publishes (doc_keys d) "k1" "pk1".
Proof.
  destruct (resolved_key_authentic demo_cfg demo_cache (demo_net demo_later None) demo_later demo_later
    "https://idp" "k1" demo_stale.1 "pk1" demo_reachable) as (d & ? & ? & ? & ? & _);
    [vm_compute; reflexivity|by exists d].
Defined.

Lemma cache_bounded_witness :
  Z.of_nat (size (issuers demo_cache)) <= Z.max 0 (MaxIssuers (withDefaults demo_cfg)).
Proof. exact (proj1 (cache_bounded demo_cfg demo_cache demo_reachable)). Defined.

Lemma withdrawn_key_rejected_witness :
  (ResolveKey (demo_net demo_later (Some Byte.x02)) demo_later demo_later "https://idp" "k1" demo_cache).2 =
  Err (ErrKidNotFound "k1" "https://idp").
Proof.
  apply (withdrawn_key_rejected (demo_net demo_later (Some Byte.x02)) demo_later demo_later "https://idp" "k1"
    demo_cache [("k2", "pk2")]); [vm_compute; reflexivity|reflexivity|].
  intros pub (_ & k & Hin & Hk & _). apply list_elem_of_singleton in Hin as ->. discriminate Hk.
Defined.
End Jwks.
