(* ===== verification/FedResolver.v ===== *)
(** Cross-cluster key resolution ([pkg/federation/resolver.go], [jwks.go], [types.go]): the local
    resolver first, then the keys fetched from the federated peers. The local resolver is an
    interface, which the JWKS cache implements. *)
From Stdlib Require Import ZArith Lia.
From stdpp Require Import base gmap strings list.
From S2P Require Import Prelude.
From S2P Require Import GoLib.
From S2P Require Import FedTypes.
From S2P Require Import Jwks.

#[local] Open Scope string_scope.
#[local] Open Scope list_scope.
#[local] Open Scope Z_scope.

(** [core.JWKSResolver] as the federated resolver uses it: [jr_vouched] says for which keys the
    resolver answers, and a resolved key is vouched for. *)
Class JWKSResolver `{!JwkLib} (L : Type) : Type := {
  jr_Env : Type;
  jr_ResolveKey : jr_Env -> string -> string -> L -> L * option PublicKey;
  jr_wf : L -> Prop;
  jr_vouched : L -> string -> string -> PublicKey -> Prop;
  jr_step : forall env issuer kid l, jr_wf l -> jr_wf (jr_ResolveKey env issuer kid l).1;
  jr_sound : forall env issuer kid l l' key, jr_wf l ->
      jr_ResolveKey env issuer kid l = (l', Some key) -> jr_vouched l' issuer kid key;
}.

Module FedResolver.
Import Gateway.

(** [PeerConfig] and its defaults. *)
Record PeerConfig : Type := {
  fc_FabricID : string;
  fc_JWKSEndpoint : string;
  fc_MTLSSecret : string;
  fc_RefreshInterval : Duration;
  fc_StalenessThreshold : Duration;
}.
Definition DefaultRefreshInterval : Duration := 60 * Second.
Definition DefaultStalenessThreshold : Duration := 5 * Minute.
Definition ApplyDefaults (pc : PeerConfig) : PeerConfig :=
  {| fc_FabricID := fc_FabricID pc; fc_JWKSEndpoint := fc_JWKSEndpoint pc; fc_MTLSSecret := fc_MTLSSecret pc;
     fc_RefreshInterval := if fc_RefreshInterval pc <=? 0 then DefaultRefreshInterval else fc_RefreshInterval pc;
     fc_StalenessThreshold := if fc_StalenessThreshold pc <=? 0 then DefaultStalenessThreshold
                              else fc_StalenessThreshold pc |}.

(** [PeerStatus] *)
Inductive PeerStatus : Type := PeerHealthy | PeerStale | PeerUnreachable.
#[export] Instance PeerStatus_eq_dec : EqDecision PeerStatus.
Proof. solve_decision. Defined.

(** Where a fetch from a peer stopped. *)
Inductive PeerErr : Type :=
| ErrRequest (e : string)
| ErrFetch (endpoint e : string)
| ErrStatus (code : Z)
| ErrRead (e : string)
| ErrParse (e : string).

Definition maxJWKSResponseSize : nat := 1024 * 1024.
Definition maxKeysPerPeer : Z := 50.

Section WithLib.
Context `{!JwkLib}.

(** [peer]; no error is [None], and the documents that were fetched are kept as a history. *)
Record peer : Type := {
  config : PeerConfig;
  keys : gmap string PublicKey;
  lastSeen : Time;
  lastAttempt : Time;
  lastError : option PeerErr;
  fetchCount : Z;
  errorCount : Z;
  documents : list (list Jwk);
}.

Definition newPeer (pc : PeerConfig) : peer :=
  {| config := pc; keys := ∅; lastSeen := 0; lastAttempt := 0; lastError := None; fetchCount := 0;
     errorCount := 0; documents := [] |}.

(** What one fetch meets, and the readings of the clock before and after it. *)
Record PeerNet : Type := {
  pn_request : string -> result string unit;
  pn_get : string -> result string Response;
  pn_attempt : Time;
  pn_seen : Time;
}.

(** [parseJWKSResponse]: the keys of the document, from at most one mebibyte of the body. *)
Definition parseJWKSResponse (resp : Response) : result PeerErr (list Jwk) :=
  match ReadAllLimit maxJWKSResponseSize resp with
  | Err e => Err (ErrRead e)
  | Ok body => match jwk_Parse body with
               | Err e => Err (ErrParse e)
               | Ok ks => Ok ks
               end
  end.

Definition fetchFrom (net : PeerNet) (endpoint : string) : result PeerErr (list Jwk) :=
  match pn_request net endpoint with
  | Err e => Err (ErrRequest e)
  | Ok _ =>
      match pn_get net endpoint with
      | Err e => Err (ErrFetch endpoint e)
      | Ok resp => if negb (rsp_Status resp =? 200) then Err (ErrStatus (rsp_Status resp))
                   else parseJWKSResponse resp
      end
  end.

(** [fetchPeerKeys] *)
Definition fetchPeerKeys (net : PeerNet) (p : peer) : peer * option PeerErr :=
  match fetchFrom net (fc_JWKSEndpoint (config p)) with
  | Err e =>
      ({| config := config p; keys := keys p; lastSeen := lastSeen p; lastAttempt := pn_attempt net;
          lastError := Some e; fetchCount := fetchCount p; errorCount := u64 (errorCount p + 1);
          documents := documents p |}, Some e)
  | Ok ks =>
      ({| config := config p; keys := Jwks.collectKeys maxKeysPerPeer ks; lastSeen := pn_seen net;
          lastAttempt := pn_attempt net; lastError := None; fetchCount := u64 (fetchCount p + 1);
          errorCount := errorCount p; documents := documents p ++ [ks] |}, None)
  end.

Context {L : Type} `{!JWKSResolver L}.

(** [Resolver] *)
Record Resolver : Type := {
  local : option L;
  peers : gmap string peer;
}.

(** [NewResolver] *)
Definition NewResolver (l : option L) (ps : list PeerConfig) : Resolver :=
  {| local := l;
     peers := fold_left (fun (m : gmap string peer) pc =>
       <[fc_FabricID (ApplyDefaults pc) := newPeer (ApplyDefaults pc)]> m) ps ∅ |}.

Definition matches (issuer : string) (p : peer) : bool := (fc_JWKSEndpoint (config p) =? issuer)%string.

(** The second step of [ResolveKey]: the peers' cached keys. *)
Fixpoint cachedKey (issuer kid : string) (l : list (string * peer)) : option PublicKey :=
  match l with
  | [] => None
  | (_, p) :: l' =>
      if negb (matches issuer p) then cachedKey issuer kid l' else
      match keys p !! kid with
      | Some key => Some key
      | None => cachedKey issuer kid l'
      end
  end.

(** The third step: fetches from the peers whose endpoint is the issuer. *)
Fixpoint fetchKey (nets : string -> PeerNet) (issuer kid : string) (l : list (string * peer))
    (m : gmap string peer) : gmap string peer * option PublicKey :=
  match l with
  | [] => (m, None)
  | (id, p) :: l' =>
      if negb (matches issuer p) then fetchKey nets issuer kid l' m else
      let '(p', err) := fetchPeerKeys (nets id) p in
      let m' := <[id := p']> m in
      match err with
      | Some _ => fetchKey nets issuer kid l' m'
      | None => match keys p' !! kid with
                | Some key => (m', Some key)
                | None => fetchKey nets issuer kid l' m'
                end
      end
  end.

(** [ResolveKey]; each loop over the peers has its own order. *)
Definition ResolveKey (o1 o2 : RangeOrder) (env : jr_Env) (nets : string -> PeerNet) (issuer kid : string)
    (r : Resolver) : Resolver * option PublicKey :=
  let '(l', hit) := match local r with
                    | None => (None, None)
                    | Some l => let '(l', k) := jr_ResolveKey env issuer kid l in (Some l', k)
                    end in
  let r1 := {| local := l'; peers := peers r |} in
  match hit with
  | Some key => (r1, Some key)
  | None =>
      match cachedKey issuer kid (@range o1 _ (peers r1)) with
      | Some key => (r1, Some key)
      | None =>
          let '(m, k) := fetchKey nets issuer kid (@range o2 _ (peers r1)) (peers r1) in
          ({| local := l'; peers := m |}, k)
      end
  end.

(** A fetch from one peer: a tick of its refresh loop, or its part of [Prefetch]. *)
Definition refreshPeer (id : string) (net : PeerNet) (r : Resolver) : Resolver :=
  {| local := local r; peers := alter (fun p => (fetchPeerKeys net p).1) id (peers r) |}.

(** [computePeerStatus] *)
Definition failing (p : peer) : bool := match lastError p with Some _ => true | None => false end.
Definition computePeerStatus (now : Time) (p : peer) : PeerStatus :=
  if IsZero (lastSeen p) then (if failing p then PeerUnreachable else PeerStale) else
  if fc_StalenessThreshold (config p) <? Sub now (lastSeen p) then
    (if failing p then PeerUnreachable else PeerStale)
  else PeerHealthy.

(** [PeerState] and [FederationState], and [State]. *)
Record PeerState : Type := {
  fs_Config : PeerConfig; fs_Status : PeerStatus; fs_LastSeen : Time; fs_LastAttempt : Time;
  fs_LastError : option PeerErr; fs_KeyCount : nat; fs_FetchCount : Z; fs_ErrorCount : Z;
}.
Definition peerState (now : Time) (p : peer) : PeerState :=
  {| fs_Config := config p; fs_Status := computePeerStatus now p; fs_LastSeen := lastSeen p;
     fs_LastAttempt := lastAttempt p; fs_LastError := lastError p; fs_KeyCount := size (keys p);
     fs_FetchCount := fetchCount p; fs_ErrorCount := errorCount p |}.
Definition State (now : Time) (r : Resolver) : gmap string PeerState := peerState now <$> peers r.

(** [IsHealthy], and the counts of [FederationState]. *)
Definition IsHealthy (s : PeerState) : bool := bool_decide (fs_Status s = PeerHealthy).
Definition countPeers `{!RangeOrder} (f : PeerState -> bool) (m : gmap string PeerState) : nat :=
  fold_left (fun n kv => if f kv.2 then S n else n) (range m) O.
Definition PeerCount (m : gmap string PeerState) : nat := size m.
Definition HealthyCount `{!RangeOrder} := countPeers IsHealthy.
Definition StaleCount `{!RangeOrder} := countPeers (fun s => bool_decide (fs_Status s = PeerStale)).
Definition UnreachableCount `{!RangeOrder} := countPeers (fun s => bool_decide (fs_Status s = PeerUnreachable)).

(** [Age] *)
Definition Age (now : Time) (s : PeerState) : Duration :=
  if IsZero (fs_LastSeen s) then 0 else Sub now (fs_LastSeen s).

(** * Invariant *)

(** A peer's keys are those of the last document it served. *)
Definition peer_ok (p : peer) : Prop :=
  (keys p = ∅ \/ exists ks, ks ∈ documents p /\ keys p = Jwks.collectKeys maxKeysPerPeer ks) /\
  Z.of_nat (size (keys p)) <= maxKeysPerPeer.

Definition peers_ok (m : gmap string peer) : Prop :=
  forall id p, m !! id = Some p -> fc_FabricID (config p) = id /\ peer_ok p.
Definition inv (r : Resolver) : Prop := (forall l, local r = Some l -> jr_wf l) /\ peers_ok (peers r).

Lemma fetchPeerKeys_ok net p :
  config (fetchPeerKeys net p).1 = config p /\ (peer_ok p -> peer_ok (fetchPeerKeys net p).1).
Proof.
  unfold fetchPeerKeys. destruct (fetchFrom net _) as [ks|e]; cbn; [|done]. split; [done|]. intros _.
  split; [right; exists ks; split; [set_solver|done]|].
  pose proof (Jwks.collectKeys_size maxKeysPerPeer ks). unfold maxKeysPerPeer in *. cbn. lia.
Qed.

Lemma newPeer_ok pc : peer_ok (newPeer pc).
Proof. split; [by left|]. unfold newPeer. cbn [keys]. rewrite map_size_empty. done. Qed.

Lemma peers_ok_insert m id p :
  peers_ok m -> fc_FabricID (config p) = id -> peer_ok p -> peers_ok (<[id := p]> m).
Proof.
  intros Hm Hid Hok id' p'. rewrite lookup_insert_Some. intros [[<- <-]|[_ Hp]]; [done|by apply Hm].
Qed.

Lemma resolver_inv_new l ps : (forall l0, l = Some l0 -> jr_wf l0) -> inv (NewResolver l ps).
Proof.
  intros Hl. split; [done|]. unfold NewResolver. cbn.
  assert (Hm : peers_ok ∅) by (intros id p; by rewrite lookup_empty).
  revert Hm. generalize (∅ : gmap string peer). induction ps as [|pc ps IH]; intros m Hm; cbn; [done|].
  apply IH. apply peers_ok_insert; [done|done|apply newPeer_ok].
Qed.

(** Where a key found among the peers comes from. *)
Definition peer_vouched (m : gmap string peer) (issuer kid : string) (key : PublicKey) : Prop :=
  exists id p ks, m !! id = Some p /\ fc_JWKSEndpoint (config p) = issuer /\ ks ∈ documents p /\
    Jwks.publishes ks kid key.

Lemma peer_key_vouched m id p issuer kid key :
  peers_ok m -> m !! id = Some p -> fc_JWKSEndpoint (config p) = issuer -> keys p !! kid = Some key ->
  peer_vouched m issuer kid key.
Proof.
  intros Hm Hp He Hk. destruct (Hm _ _ Hp) as [_ [[Hz|(ks & Hin & Heq)] _]].
  { by rewrite Hz, lookup_empty in Hk. }
  rewrite Heq in Hk. apply Jwks.collectKeys_publishes in Hk. by exists id, p, ks.
Qed.

Lemma cachedKey_vouched m issuer kid key l :
  peers_ok m -> (forall id p, (id, p) ∈ l -> m !! id = Some p) ->
  cachedKey issuer kid l = Some key -> peer_vouched m issuer kid key.
Proof.
  intros Hm. induction l as [|[id p] l IH]; intros Hl; cbn; [done|].
  assert (Hl' : forall id p, (id, p) ∈ l -> m !! id = Some p) by (intros; apply Hl; by apply list_elem_of_further).
  unfold matches. destruct (String.eqb_spec (fc_JWKSEndpoint (config p)) issuer) as [He|]; cbn; [|by apply IH].
  destruct (keys p !! kid) as [key'|] eqn:Hk; [|by apply IH]. intros [= <-].
  eapply (peer_key_vouched m id p); [done|apply Hl, list_elem_of_here|done|done].
Qed.

(** The fetch loop keeps the invariant, and a key it finds comes from a document of the issuer. *)
Lemma fetchKey_ok nets issuer kid l : forall m m' k,
  peers_ok m -> (forall id p, (id, p) ∈ l -> m !! id = Some p) -> NoDup l.*1 ->
  fetchKey nets issuer kid l m = (m', k) ->
  peers_ok m' /\ forall key, k = Some key -> peer_vouched m' issuer kid key.
Proof.
  induction l as [|[id p] l IH]; intros m m' k Hm Hl Hnd; cbn; [by intros [= <- <-]|].
  cbn in Hnd. apply NoDup_cons in Hnd as [Hid Hnd].
  assert (Hl' : forall i q, (i, q) ∈ l -> m !! i = Some q) by (intros; apply Hl; by apply list_elem_of_further).
  destruct (matches issuer p) eqn:Hmt; cbn; [|by apply IH].
  pose proof (Hm _ _ (Hl _ _ (list_elem_of_here _ _))) as [Hfid Hok].
  destruct (fetchPeerKeys_ok (nets id) p) as [Hcfg Hpk]. specialize (Hpk Hok).
  destruct (fetchPeerKeys (nets id) p) as [p' err]. cbn in Hcfg, Hpk.
  assert (Hm' : peers_ok (<[id := p']> m)) by (apply peers_ok_insert; [done|by rewrite Hcfg|done]).
  assert (Hl'' : forall i q, (i, q) ∈ l -> <[id := p']> m !! i = Some q).
  { intros i q Hiq. rewrite lookup_insert_ne; [by apply Hl'|]. intros ->. apply Hid.
    apply list_elem_of_fmap. by exists (i, q). }
  assert (Hne : fetchKey nets issuer kid l (<[id := p']> m) = (m', k) ->
    peers_ok m' /\ forall key, k = Some key -> peer_vouched m' issuer kid key) by (by apply IH).
  destruct err; [done|]. destruct (keys p' !! kid) as [key|] eqn:Hk; [|done]. intros [= <- <-].
  split; [done|]. intros key' [= <-]. eapply (peer_key_vouched _ id p'); [done|apply lookup_insert_eq| |done].
  rewrite Hcfg. by apply String.eqb_eq.
Qed.

Lemma range_lookup {V} (o : RangeOrder) (m : gmap string V) id p : (id, p) ∈ @range o _ m -> m !! id = Some p.
Proof. apply elem_of_range. Qed.

Lemma inv_resolve o1 o2 env nets issuer kid r :
  inv r -> inv (ResolveKey o1 o2 env nets issuer kid r).1.
Proof.
  intros [Hl Hp]. unfold ResolveKey.
  set (lk := match local r with None => _ | Some l => _ end).
  assert (Hlk : forall l0, lk.1 = Some l0 -> jr_wf l0).
  { unfold lk. destruct (local r) as [l|]; [|done]. pose proof (jr_step env issuer kid l (Hl _ eq_refl)).
    destruct (jr_ResolveKey env issuer kid l) as [la ka]. cbn in *. by intros lb [= <-]. }
  destruct lk as [l' [key|]]; cbn in *; [done|]. destruct (cachedKey _ _ _); [done|].
  destruct (fetchKey _ _ _ _ _) as [m k] eqn:Hf. cbn. split; [done|].
  eapply fetchKey_ok in Hf as [? _]; [done|done|apply range_lookup|apply (@NoDup_range_keys o2)].
Qed.

Lemma inv_refresh id net r : inv r -> inv (refreshPeer id net r).
Proof.
  intros [Hl Hp]. split; [done|]. intros id' p'. cbn. rewrite lookup_alter_Some.
  intros [(<- & p & Hpl & ->)|[_ Hpl]]; [|by apply Hp]. destruct (Hp _ _ Hpl) as [Hid Hok].
  destruct (fetchPeerKeys_ok net p) as [Hc Hk]. rewrite Hc. by split; [|apply Hk].
Qed.

(** What can happen to a resolver. *)
Inductive step : Resolver -> Resolver -> Prop :=
| st_resolve o1 o2 env nets issuer kid r : step r (ResolveKey o1 o2 env nets issuer kid r).1
| st_refresh id net r : step r (refreshPeer id net r).

(** * Theorems *)

(** A federated key comes from the fabric it is asked for. In every state a resolver can reach, a
    key that it returns is vouched for by the local resolver, or was published under the requested
    identifier in a document fetched from a configured peer whose JWKS endpoint is exactly the
    issuer that was asked for. *)
Theorem federated_key_authentic l ps r o1 o2 env nets issuer kid r' key :
  (forall l0, l = Some l0 -> jr_wf l0) -> rtc step (NewResolver l ps) r ->
  ResolveKey o1 o2 env nets issuer kid r = (r', Some key) ->
  (exists l', local r' = Some l' /\ jr_vouched l' issuer kid key) \/ peer_vouched (peers r') issuer kid key.
Proof.
  intros Hl Hr Hres.
  assert (Hi : inv r).
  { eapply (rtc_ind_r inv); [by apply resolver_inv_new| |exact Hr]. intros r1 r2 _ Hs Hi. destruct Hs;
      [by apply inv_resolve|by apply inv_refresh]. }
  destruct Hi as [Hlw Hpo]. revert Hres. unfold ResolveKey.
  destruct (local r) as [l0|].
  - destruct (jr_ResolveKey env issuer kid l0) as [l1 [k|]] eqn:Hj.
    { intros [= <- <-]. left. exists l1. split; [done|]. by eapply jr_sound, Hj; apply Hlw. }
    cbn. destruct (cachedKey issuer kid _) as [k|] eqn:Hc.
    { intros [= <- <-]. right. eapply cachedKey_vouched, Hc; [done|apply range_lookup]. }
    destruct (fetchKey _ _ _ _ _) as [m k] eqn:Hf. intros [= <- ->]. right.
    eapply fetchKey_ok in Hf as [_ Hk]; [by apply Hk|done|apply range_lookup|apply (@NoDup_range_keys o2)].
  - cbn. destruct (cachedKey issuer kid _) as [k|] eqn:Hc.
    { intros [= <- <-]. right. eapply cachedKey_vouched, Hc; [done|apply range_lookup]. }
    destruct (fetchKey _ _ _ _ _) as [m k] eqn:Hf. intros [= <- ->]. right.
    eapply fetchKey_ok in Hf as [_ Hk]; [by apply Hk|done|apply range_lookup|apply (@NoDup_range_keys o2)].
Qed.

(** A peer that stops answering keeps its keys: a failed fetch leaves the cached keys and the time
    of the last success as they were, so a key fetched once is served from then on, however old. *)
Theorem unreachable_peer_keeps_keys net p e now kid :
  fetchFrom net (fc_JWKSEndpoint (config p)) = Err e ->
  let p' := (fetchPeerKeys net p).1 in
  keys p' !! kid = keys p !! kid /\ lastSeen p' = lastSeen p /\
  (computePeerStatus now p' = PeerHealthy <->
   lastSeen p <> 0 /\ Sub now (lastSeen p) <= fc_StalenessThreshold (config p)).
Proof.
  intros He. unfold fetchPeerKeys. rewrite He. cbn. split; [done|]. split; [done|].
  unfold computePeerStatus, IsZero. cbn. destruct (Z.eqb_spec (lastSeen p) 0); [naive_solver|].
  destruct (Z.ltb_spec (fc_StalenessThreshold (config p)) (Sub now (lastSeen p)));
    split; try done; lia.
Qed.
End WithLib.

(** * The JWKS cache is a resolver *)

Section CacheResolver.
Context `{!JwkLib} `{!RangeOrder}.
Variable cf : Jwks.Config.

#[export] Instance Cache_JWKSResolver : JWKSResolver Jwks.Cache.
Proof using All.
  refine {| jr_Env := Jwks.Net * Time * Time;
    jr_ResolveKey := fun env issuer kid c =>
      let '(c', r) := Jwks.ResolveKey env.1.1 env.1.2 env.2 issuer kid c in
      (c', match r with Ok key => Some key | Err _ => None end);
    jr_wf := Jwks.reachable cf;
    jr_vouched := fun c issuer kid key => exists d, d ∈ Jwks.history c /\ Jwks.doc_issuer d = issuer /\
      Jwks.doc_url d = issuer +:+ "/.well-known/jwks.json" /\ Jwks.publishes (Jwks.doc_keys d) kid key |}.
  - intros env issuer kid l Hr. eapply Jwks.reach_step; [done|].
    pose proof (Jwks.cs_resolve env.1.1 env.1.2 env.2 issuer kid l) as Hs.
    by destruct (Jwks.ResolveKey _ _ _ _ _ _).
  - intros env issuer kid l l' key Hr.
    destruct (Jwks.ResolveKey env.1.1 env.1.2 env.2 issuer kid l) as [c' [k|e]] eqn:Hk; [|done].
    intros [= <- <-]. destruct (Jwks.resolve_sound _ _ _ _ _ _ _ _ _ Hr Hk) as (d & ? & ? & ? & ? & _).
    by exists d.
Defined.
End CacheResolver.

(** * Examples *)

#[local] Existing Instance Jwks.demo_lib.
#[local] Existing Instance key_order.
#[local] Existing Instance Cache_JWKSResolver.

Definition demo_peer : PeerConfig :=
  {| fc_FabricID := "eu"; fc_JWKSEndpoint := "https://eu/jwks"; fc_MTLSSecret := "";
     fc_RefreshInterval := 0; fc_StalenessThreshold := 0 |}.
(** The peer answers with one key, or not at all. *)
Definition demo_net (up : bool) : PeerNet :=
  {| pn_request := fun _ => Ok tt;
     pn_get := fun _ => if up then Ok {| rsp_Status := 200; rsp_Body := [Byte.x01]; rsp_ReadErr := None |}
                        else Err "connection refused";
     pn_attempt := 10; pn_seen := 11 |}.
Definition demo_resolver : Resolver (L:=Jwks.Cache) :=
  NewResolver (Some (Jwks.New Jwks.demo_cfg)) [demo_peer].
Definition demo_resolve : Resolver (L:=Jwks.Cache) * option string :=
  ResolveKey (JWKSResolver0:=Cache_JWKSResolver Jwks.demo_cfg) key_order key_order (Jwks.demo_net 10 None, 20, 21)
    (fun _ => demo_net true) "https://eu/jwks" "k1" demo_resolver.
Example demo_resolve_ok : demo_resolve.2 = Some "pk1".
Proof. vm_compute. reflexivity. Qed.

Lemma federated_key_authentic_witness :
  (exists l', local demo_resolve.1 = Some l' /\
     @jr_vouched _ _ (Cache_JWKSResolver Jwks.demo_cfg) l' "https://eu/jwks" "k1" "pk1") \/
  peer_vouched (peers demo_resolve.1) "https://eu/jwks" "k1" "pk1".
Proof.
  apply (federated_key_authentic (JWKSResolver0:=Cache_JWKSResolver Jwks.demo_cfg)
    (Some (Jwks.New Jwks.demo_cfg)) [demo_peer] demo_resolver key_order key_order
    (Jwks.demo_net 10 None, 20, 21) (fun _ => demo_net true)).
  - intros l0 [= <-]. apply Jwks.reach_new.
  - apply rtc_refl.
  - vm_compute. reflexivity.
Defined.

Lemma unreachable_peer_keeps_keys_witness :
  keys (fetchPeerKeys (demo_net false) (fetchPeerKeys (demo_net true) (newPeer demo_peer)).1).1 !! "k1" =
  keys (fetchPeerKeys (demo_net true) (newPeer demo_peer)).1 !! "k1".
Proof.
  apply (unreachable_peer_keeps_keys (demo_net false) (fetchPeerKeys (demo_net true) (newPeer demo_peer)).1
    (ErrFetch "https://eu/jwks" "connection refused") 100 "k1"). vm_compute. reflexivity.
Defined.
End FedResolver.
