(* ===== verification/Soul.v ===== *)
(** The soul manifest ([pkg/soul/manifest.go]), the difference of two manifests ([diff.go]) and the
    plan that converges a running fabric to its specification ([upgrade.go]). *)
From Stdlib Require Import ZArith Lia.
From stdpp Require Import base gmap strings list pretty.
From S2P Require Import Prelude.
From S2P Require Import GoLib.
From S2P Require Import FedTypes.

#[local] Open Scope string_scope.
#[local] Open Scope list_scope.
#[local] Open Scope Z_scope.

Module Soul.

Definition APIVersionV1 : string := "starfly.io/v1".
Definition KindManifest : string := "SoulManifest".

(** The parts of a manifest. *)
Record Metadata : Type := { md_FabricID : string; md_GeneratedAt : Time; md_Sequence : Z }.
Record SigningKeyRef : Type := {
  sk_KMSKeyID : string; sk_Algorithm : string; sk_KID : string; sk_Status : string;
}.
Record TrustDomainSpec : Type := {
  td_Name : string; td_Type : string; td_Issuer : string; td_JWKSURL : string; td_Enabled : bool;
}.
Record RevocationSnapshot : Type := { rv_Count : Z; rv_Hash : string; rv_ExportedAt : Time }.
Record SSFStreamSpec : Type := {
  ss_StreamID : string; ss_Transmitter : string; ss_EventsRequested : list string;
}.
Record FederationPeer : Type := {
  fp_FabricID : string; fp_LastSeen : Time; fp_KeyCount : Z; fp_RevocationHash : string;
}.
Record AuditState : Type := { as_LastFlushedSequence : Z; as_ExternalSink : string }.

#[export] Instance TrustDomainSpec_eq_dec : EqDecision TrustDomainSpec.
Proof. solve_decision. Defined.
#[export] Instance SigningKeyRef_eq_dec : EqDecision SigningKeyRef.
Proof. solve_decision. Defined.

(** [SoulManifest]; [Identity] and [Federation] hold one list each. *)
Record SoulManifest : Type := {
  APIVersion : string;
  Kind : string;
  meta : Metadata;
  SigningKeys : list SigningKeyRef;
  TrustDomains : list TrustDomainSpec;
  Revocations : RevocationSnapshot;
  SSFStreams : list SSFStreamSpec;
  Peers : list FederationPeer;
  Audit : AuditState;
}.

Definition noRevocations : RevocationSnapshot := {| rv_Count := 0; rv_Hash := ""; rv_ExportedAt := 0 |}.
Definition noAudit : AuditState := {| as_LastFlushedSequence := 0; as_ExternalSink := "" |}.

(** [&SoulManifest{}] and [NewManifest] *)
Definition zeroManifest : SoulManifest :=
  {| APIVersion := ""; Kind := ""; meta := {| md_FabricID := ""; md_GeneratedAt := 0; md_Sequence := 0 |};
     SigningKeys := []; TrustDomains := []; Revocations := noRevocations; SSFStreams := []; Peers := [];
     Audit := noAudit |}.
Definition NewManifest (now : Time) (fabricID : string) (seq : Z) : SoulManifest :=
  {| APIVersion := APIVersionV1; Kind := KindManifest;
     meta := {| md_FabricID := fabricID; md_GeneratedAt := now; md_Sequence := seq |};
     SigningKeys := []; TrustDomains := []; Revocations := noRevocations; SSFStreams := []; Peers := [];
     Audit := noAudit |}.

(** [Validate] *)
Inductive ManifestErr : Type :=
| ErrAPIVersionRequired
| ErrUnsupportedAPIVersion (v : string)
| ErrUnexpectedKind (k : string)
| ErrFabricIDRequired
| ErrSequenceZero
| ErrNoSigningKey
| ErrKIDRequired (i : nat)
| ErrStatusRequired (i : nat).
Fixpoint validateKeys (i : nat) (ks : list SigningKeyRef) : result ManifestErr unit :=
  match ks with
  | [] => Ok tt
  | k :: ks' =>
      let? _ := reject (sk_KID k =? "")%string (ErrKIDRequired i) in
      let? _ := reject (sk_Status k =? "")%string (ErrStatusRequired i) in
      validateKeys (S i) ks'
  end.
Definition Validate (m : SoulManifest) : result ManifestErr unit :=
  let? _ := reject (APIVersion m =? "")%string ErrAPIVersionRequired in
  let? _ := reject (negb (APIVersion m =? APIVersionV1)%string) (ErrUnsupportedAPIVersion (APIVersion m)) in
  let? _ := reject (negb (Kind m =? KindManifest)%string) (ErrUnexpectedKind (Kind m)) in
  let? _ := reject (md_FabricID (meta m) =? "")%string ErrFabricIDRequired in
  let? _ := reject (md_Sequence (meta m) =? 0) ErrSequenceZero in
  let? _ := reject (length (SigningKeys m) =? 0)%nat ErrNoSigningKey in
  validateKeys O (SigningKeys m).

(** * Maps of entities by name

    The loops [for _, x := range xs { m[x.Name] = x }]: the last entity of a name wins. *)
Definition index {A} (key : A -> string) (l : list A) : gmap string A :=
  fold_left (fun m x => <[key x := x]> m) l ∅.

(** * Differences ([diff.go]) *)

Inductive DiffType : Type := DiffAdded | DiffRemoved | DiffChanged.
Record DiffEntry : Type := {
  de_Type : DiffType; de_Category : string; de_Name : string; de_Detail : string;
}.
Record SoulDiff : Type := { FromSequence : Z; ToSequence : Z; Changes : list DiffEntry }.

(** The shape the four comparisons share: entities of [to] that are new or changed, then entities
    of [from] that are gone. *)
Section DiffBy.
Context {A : Type} (key : A -> string) (category : string) (detail : A -> string)
  (changes : A -> A -> list string).

Definition diffTo (fromMap : gmap string A) (x : A) : list DiffEntry :=
  match fromMap !! key x with
  | None => [{| de_Type := DiffAdded; de_Category := category; de_Name := key x; de_Detail := detail x |}]
  | Some old =>
      match changes old x with
      | [] => []
      | cs => [{| de_Type := DiffChanged; de_Category := category; de_Name := key x;
                  de_Detail := Join cs ", " |}]
      end
  end.
Definition diffFrom (toMap : gmap string A) (x : A) : list DiffEntry :=
  match toMap !! key x with
  | Some _ => []
  | None => [{| de_Type := DiffRemoved; de_Category := category; de_Name := key x; de_Detail := detail x |}]
  end.
Definition diffBy (from to : list A) : list DiffEntry :=
  flat_map (diffTo (index key from)) to ++ flat_map (diffFrom (index key to)) from.
End DiffBy.

(** A field that differs is described. *)
Definition changed (name old new : string) : list string :=
  if (old =? new)%string then [] else [name +:+ ": " +:+ old +:+ " -> " +:+ new].
Definition show_bool (b : bool) : string := if b then "true" else "false".
Definition show_Z (z : Z) : string := pretty z.

(** [diffTrustDomains], [diffSigningKeys], [diffSSFStreams] and [diffFederationPeers] *)
Definition domainDetail (d : TrustDomainSpec) : string :=
  "type: " +:+ td_Type d +:+ ", issuer: " +:+ td_Issuer d.
Definition domainChanges (old d : TrustDomainSpec) : list string :=
  changed "issuer" (td_Issuer old) (td_Issuer d) ++ changed "type" (td_Type old) (td_Type d) ++
  changed "enabled" (show_bool (td_Enabled old)) (show_bool (td_Enabled d)) ++
  changed "jwksUrl" (td_JWKSURL old) (td_JWKSURL d).
Definition diffTrustDomains : list TrustDomainSpec -> list TrustDomainSpec -> list DiffEntry :=
  diffBy td_Name "trust_domain" domainDetail domainChanges.

Definition keyDetail (k : SigningKeyRef) : string :=
  "algorithm: " +:+ sk_Algorithm k +:+ ", status: " +:+ sk_Status k.
Definition keyChanges (old k : SigningKeyRef) : list string :=
  changed "status" (sk_Status old) (sk_Status k) ++ changed "kmsKeyId" (sk_KMSKeyID old) (sk_KMSKeyID k) ++
  changed "algorithm" (sk_Algorithm old) (sk_Algorithm k).
Definition diffSigningKeys : list SigningKeyRef -> list SigningKeyRef -> list DiffEntry :=
  diffBy sk_KID "signing_key" keyDetail keyChanges.

(** Streams are only added or removed. *)
Definition diffSSFStreams : list SSFStreamSpec -> list SSFStreamSpec -> list DiffEntry :=
  diffBy ss_StreamID "ssf_stream" (fun s => "transmitter: " +:+ ss_Transmitter s) (fun _ _ => []).

Definition peerChanges (old p : FederationPeer) : list string :=
  (if fp_KeyCount old =? fp_KeyCount p then []
   else ["keyCount: " +:+ show_Z (fp_KeyCount old) +:+ " -> " +:+ show_Z (fp_KeyCount p)]) ++
  (if (fp_RevocationHash old =? fp_RevocationHash p)%string then [] else ["revocationHash changed"]).
Definition diffFederationPeers : list FederationPeer -> list FederationPeer -> list DiffEntry :=
  diffBy fp_FabricID "federation_peer" (fun p => "keyCount: " +:+ show_Z (fp_KeyCount p)) peerChanges.

(** [diffRevocations] and [diffAudit]; the difference of two [uint64] is taken in [int64]. *)
Definition countDetail (what : string) (from to delta : Z) : string :=
  what +:+ " " +:+ show_Z from +:+ " -> " +:+ show_Z to +:+ " (" +:+
  (if delta <? 0 then "" else "+") +:+ show_Z delta +:+ ")".
Definition diffRevocations (from to : RevocationSnapshot) : list DiffEntry :=
  if rv_Count from =? rv_Count to then [] else
  [{| de_Type := DiffChanged; de_Category := "revocation"; de_Name := "count";
      de_Detail := countDetail "count" (rv_Count from) (rv_Count to) (i64 (rv_Count to - rv_Count from)) |}].
Definition diffAudit (from to : AuditState) : list DiffEntry :=
  if as_LastFlushedSequence from =? as_LastFlushedSequence to then [] else
  [{| de_Type := DiffChanged; de_Category := "audit"; de_Name := "sequence";
      de_Detail := countDetail "sequence" (as_LastFlushedSequence from) (as_LastFlushedSequence to)
        (i64 (i64 (as_LastFlushedSequence to) - i64 (as_LastFlushedSequence from))) |}].

(** The warning about a changed fabric. *)
Definition diffFabric (from to : SoulManifest) : list DiffEntry :=
  let a := md_FabricID (meta from) in
  let b := md_FabricID (meta to) in
  if str_nonempty a && str_nonempty b && negb (a =? b)%string then
    [{| de_Type := DiffChanged; de_Category := "metadata"; de_Name := "fabricId";
        de_Detail := "WARNING: fabricId changed: " +:+ a +:+ " -> " +:+ b |}]
  else [].

(** [Diff]; a nil manifest is [None]. *)
Definition orZero (m : option SoulManifest) : SoulManifest :=
  match m with Some m => m | None => zeroManifest end.
Definition sequenceOf (m : option SoulManifest) : Z :=
  match m with Some m => md_Sequence (meta m) | None => 0 end.
Definition diffManifests (from to : SoulManifest) : list DiffEntry :=
  diffFabric from to ++
  diffTrustDomains (TrustDomains from) (TrustDomains to) ++
  diffSigningKeys (SigningKeys from) (SigningKeys to) ++
  diffSSFStreams (SSFStreams from) (SSFStreams to) ++
  diffFederationPeers (Peers from) (Peers to) ++
  diffRevocations (Revocations from) (Revocations to) ++
  diffAudit (Audit from) (Audit to).
Definition Diff (from to : option SoulManifest) : SoulDiff :=
  {| FromSequence := sequenceOf from; ToSequence := sequenceOf to;
     Changes := match from, to with
                | None, None => []
                | _, _ => diffManifests (orZero from) (orZero to)
                end |}.

(** [IsEmpty] and [Format] *)
Definition IsEmpty (d : SoulDiff) : bool := match Changes d with [] => true | _ => false end.
Definition newline : string := String (Ascii.ascii_of_nat 10) "".
Definition formatEntry (c : DiffEntry) : string :=
  let prefix := match de_Type c with DiffAdded => "+" | DiffRemoved => "-" | DiffChanged => "~" end in
  "  " +:+ prefix +:+ " " +:+ de_Category c +:+ ": " +:+ de_Name c +:+
  (if (de_Detail c =? "")%string then "" else " (" +:+ de_Detail c +:+ ")") +:+ newline.
Definition Format (d : SoulDiff) : string :=
  if IsEmpty d then "No changes." else
  "Changes: seq " +:+ show_Z (FromSequence d) +:+ " -> seq " +:+ show_Z (ToSequence d) +:+ newline +:+
  Join (formatEntry <$> Changes d) "".

(** * Convergence ([upgrade.go]) *)

Inductive ActionType : Type :=
| ActionAddTrustDomain | ActionRemoveTrustDomain | ActionUpdateTrustDomain | ActionRotateSigningKey
| ActionImportRevocations | ActionResetRevocations | ActionAddSSFStream | ActionRemoveSSFStream
| ActionAddPeer | ActionRemovePeer.
#[export] Instance ActionType_eq_dec : EqDecision ActionType.
Proof. solve_decision. Defined.

(** [ConvergenceAction], without its description. *)
Record ConvergenceAction : Type := { ac_Type : ActionType; ac_Target : string }.
#[export] Instance ConvergenceAction_eq_dec : EqDecision ConvergenceAction.
Proof. solve_decision. Defined.
Definition act (t : ActionType) (target : string) : ConvergenceAction := {| ac_Type := t; ac_Target := target |}.

Section ConvergeBy.
Context {A : Type} (add rem : ActionType) (upd : A -> A -> option ActionType).

Definition convergeSpec (cur : gmap string A) (kv : string * A) : list ConvergenceAction :=
  match cur !! kv.1 with
  | None => [act add kv.1]
  | Some c => match upd c kv.2 with Some t => [act t kv.1] | None => [] end
  end.
Definition convergeCurrent (spec : gmap string A) (name : string) : list ConvergenceAction :=
  match spec !! name with
  | Some _ => []
  | None => [act rem name]
  end.
(** The loop over the specification and the loop over the current state, each in its own order. *)
Definition convergeBy (o1 o2 : RangeOrder) (cur spec : gmap string A) : list ConvergenceAction :=
  flat_map (convergeSpec cur) (@range o1 _ spec) ++
  flat_map (convergeCurrent spec) (@range_keys o2 _ cur).
End ConvergeBy.

(** [domainChanged] *)
Definition domainChanged (a b : TrustDomainSpec) : bool :=
  negb (Bool.eqb (td_Enabled a) (td_Enabled b)) || negb (td_Issuer a =? td_Issuer b)%string ||
  negb (td_JWKSURL a =? td_JWKSURL b)%string || negb (td_Type a =? td_Type b)%string.

(** The four parts of [Converge]. *)
Definition convergeTrustDomains (o1 o2 : RangeOrder) (cur spec : list TrustDomainSpec) : list ConvergenceAction :=
  convergeBy ActionAddTrustDomain ActionRemoveTrustDomain
    (fun c s => if domainChanged c s then Some ActionUpdateTrustDomain else None)
    o1 o2 (index td_Name cur) (index td_Name spec).
Definition keyNeedsRotation (cur : gmap string SigningKeyRef) (kv : string * SigningKeyRef) : bool :=
  match cur !! kv.1 with
  | None => true
  | Some c => negb (sk_KMSKeyID c =? sk_KMSKeyID kv.2)%string || negb (sk_Status c =? sk_Status kv.2)%string
  end.
Definition convergeSigningKeys (o1 : RangeOrder) (cur spec : list SigningKeyRef) : list ConvergenceAction :=
  flat_map (fun kv => if keyNeedsRotation (index sk_KID cur) kv then [act ActionRotateSigningKey kv.1] else [])
    (@range o1 _ (index sk_KID spec)).
Definition convergeSSFStreams (o1 o2 : RangeOrder) (cur spec : list SSFStreamSpec) : list ConvergenceAction :=
  convergeBy ActionAddSSFStream ActionRemoveSSFStream (fun _ _ => None)
    o1 o2 (index ss_StreamID cur) (index ss_StreamID spec).
Definition convergeFederationPeers (o1 o2 : RangeOrder) (cur spec : list FederationPeer) : list ConvergenceAction :=
  convergeBy ActionAddPeer ActionRemovePeer (fun _ _ => None)
    o1 o2 (index fp_FabricID cur) (index fp_FabricID spec).

(** [Converge]: [importRevocations] is the option, true by default. *)
Definition convergeRevocations (importRevocations : bool) (current : option SoulManifest) : list ConvergenceAction :=
  if importRevocations then
    match current with
    | Some m => if 0 <? rv_Count (Revocations m) then [act ActionImportRevocations ""] else []
    | None => []
    end
  else [act ActionResetRevocations ""].
Definition Converge (orders : nat -> RangeOrder) (importRevocations : bool)
    (current spec : option SoulManifest) : list ConvergenceAction :=
  let c := orZero current in
  let s := orZero spec in
  convergeTrustDomains (orders 0%nat) (orders 1%nat) (TrustDomains c) (TrustDomains s) ++
  convergeSigningKeys (orders 2%nat) (SigningKeys c) (SigningKeys s) ++
  convergeSSFStreams (orders 3%nat) (orders 4%nat) (SSFStreams c) (SSFStreams s) ++
  convergeFederationPeers (orders 5%nat) (orders 6%nat) (Peers c) (Peers s) ++
  convergeRevocations importRevocations current.

(** * Lemmas on the maps *)

Section Index.
Context {A : Type} (key : A -> string).
Implicit Types (l : list A) (m : gmap string A).

Lemma fold_index_Some l : forall m k x,
  fold_left (fun m x => <[key x := x]> m) l m !! k = Some x -> m !! k = Some x \/ (x ∈ l /\ key x = k).
Proof.
  induction l as [|y l IH]; intros m k x; cbn; [by left|]. intros [H|[H ?]]%IH; [|right; set_solver].
  apply lookup_insert_Some in H as [[<- <-]|[_ ?]]; [right; set_solver|by left].
Qed.

Lemma fold_index_is_Some l : forall m k,
  is_Some (fold_left (fun m x => <[key x := x]> m) l m !! k) <-> is_Some (m !! k) \/ k ∈ key <$> l.
Proof.
  induction l as [|y l IH]; intros m k; cbn; [set_solver|]. rewrite IH, elem_of_cons.
  destruct (decide (key y = k)) as [<-|Hne]; [rewrite lookup_insert_eq|rewrite lookup_insert_ne by done];
    naive_solver.
Qed.

Lemma index_Some l k x : index key l !! k = Some x -> x ∈ l /\ key x = k.
Proof. intros [H|H]%fold_index_Some; [by rewrite lookup_empty in H|done]. Qed.

Lemma index_is_Some l k : is_Some (index key l !! k) <-> k ∈ key <$> l.
Proof.
  unfold index. rewrite fold_index_is_Some, lookup_empty. split; [intros [[? ?]|?]; done|by right].
Qed.

Lemma index_unique l x : NoDup (key <$> l) -> x ∈ l -> index key l !! key x = Some x.
Proof.
  intros Hnd Hx. assert (is_Some (index key l !! key x)) as [y Hy].
  { apply index_is_Some. by apply list_elem_of_fmap_2. }
  rewrite Hy. f_equal. apply index_Some in Hy as [Hy Hk].
  apply list_elem_of_lookup_1 in Hx as [i Hi]. apply list_elem_of_lookup_1 in Hy as [j Hj].
  assert (i = j) by (eapply NoDup_lookup; [exact Hnd|by rewrite list_lookup_fmap, Hi|
    by rewrite list_lookup_fmap, Hj, <- Hk]). congruence.
Qed.

Lemma index_lookup l k x : NoDup (key <$> l) -> index key l !! k = Some x <-> x ∈ l /\ key x = k.
Proof. intros Hnd. split; [apply index_Some|]. intros [Hx <-]. by apply index_unique. Qed.
End Index.

(** * What the differences report *)

Section DiffByFacts.
Context {A : Type} (key : A -> string) (category : string) (detail : A -> string)
  (changes : A -> A -> list string).
Abbreviation diff := (diffBy key category detail changes).

(** What a comparison says of one name. *)
Definition reports (es : list DiffEntry) (t : DiffType) (cat n : string) : Prop :=
  exists e, e ∈ es /\ de_Type e = t /\ de_Category e = cat /\ de_Name e = n.

Lemma elem_of_diffTo m x e :
  e ∈ diffTo key category detail changes m x <->
  (m !! key x = None /\ e = {| de_Type := DiffAdded; de_Category := category; de_Name := key x; de_Detail := detail x |}) \/
  (exists old, m !! key x = Some old /\ changes old x <> [] /\
     e = {| de_Type := DiffChanged; de_Category := category; de_Name := key x; de_Detail := Join (changes old x) ", " |}).
Proof.
  unfold diffTo. destruct (m !! key x) as [old|].
  - destruct (changes old x) as [|c cs] eqn:Hc; [set_solver|].
    rewrite list_elem_of_singleton. split.
    + intros ->. right. exists old. by rewrite Hc.
    + intros [[? _]|(old' & [= <-] & _ & ->)]; [done|]. by rewrite Hc.
  - rewrite list_elem_of_singleton. split; [by left|]. intros [[_ ?]|(? & ? & _)]; done.
Qed.

Lemma elem_of_diffFrom m x e :
  e ∈ diffFrom key category detail m x <->
  m !! key x = None /\ e = {| de_Type := DiffRemoved; de_Category := category; de_Name := key x; de_Detail := detail x |}.
Proof.
  unfold diffFrom. destruct (m !! key x); [split; [by intros ?%elem_of_nil|by intros [? _]]|].
  rewrite list_elem_of_singleton. split; [by intros ->|by intros [_ ->]].
Qed.

Lemma elem_of_diffBy from to e :
  e ∈ diff from to <->
  (exists x, x ∈ to /\ e ∈ diffTo key category detail changes (index key from) x) \/
  (exists x, x ∈ from /\ e ∈ diffFrom key category detail (index key to) x).
Proof.
  unfold diffBy. rewrite elem_of_app, !list_elem_of_In, !in_flat_map. setoid_rewrite <- list_elem_of_In. done.
Qed.

Lemma diffBy_category from to e : e ∈ diff from to -> de_Category e = category.
Proof.
  intros [(x & _ & He)|(x & _ & He)]%elem_of_diffBy.
  - by apply elem_of_diffTo in He as [[_ ->]|(? & _ & _ & ->)].
  - by apply elem_of_diffFrom in He as [_ ->].
Qed.

Lemma reports_added from to n :
  reports (diff from to) DiffAdded category n <-> index key from !! n = None /\ is_Some (index key to !! n).
Proof.
  rewrite index_is_Some, list_elem_of_fmap. split.
  - intros (e & [(x & Hx & He)|(x & Hx & He)]%elem_of_diffBy & Ht & _ & <-).
    + apply elem_of_diffTo in He as [[Hn ->]|(? & _ & _ & ->)]; [|done]. split; [done|]. by exists x.
    + by apply elem_of_diffFrom in He as [_ ->].
  - intros [Hn (x & -> & Hx)]. eexists. split; [|split; [|split]].
    + apply elem_of_diffBy. left. exists x. split; [done|]. apply elem_of_diffTo. left. by split.
    + done.
    + done.
    + done.
Qed.

Lemma reports_removed from to n :
  reports (diff from to) DiffRemoved category n <-> is_Some (index key from !! n) /\ index key to !! n = None.
Proof.
  rewrite index_is_Some, list_elem_of_fmap. split.
  - intros (e & [(x & Hx & He)|(x & Hx & He)]%elem_of_diffBy & Ht & _ & <-).
    + by apply elem_of_diffTo in He as [[_ ->]|(? & _ & _ & ->)].
    + apply elem_of_diffFrom in He as [Hn ->]. split; [|done]. by exists x.
  - intros [(x & -> & Hx) Hn]. eexists. split; [|split; [|split]].
    + apply elem_of_diffBy. right. exists x. split; [done|]. apply elem_of_diffFrom. by split.
    + done.
    + done.
    + done.
Qed.

Lemma reports_changed from to n :
  NoDup (key <$> to) ->
  reports (diff from to) DiffChanged category n <->
  exists a b, index key from !! n = Some a /\ index key to !! n = Some b /\ changes a b <> [].
Proof.
  intros Hnd. split.
  - intros (e & [(x & Hx & He)|(x & Hx & He)]%elem_of_diffBy & Ht & _ & <-).
    + apply elem_of_diffTo in He as [[_ ->]|(old & Ho & Hc & ->)]; [done|]. cbn.
      exists old, x. by rewrite (index_unique key to x).
    + by apply elem_of_diffFrom in He as [_ ->].
  - intros (a & b & Ha & Hb & Hc). pose proof (index_Some key to n b Hb) as [Hin <-].
    eexists. split; [|split; [|split]].
    + apply elem_of_diffBy. left. exists b. split; [done|]. apply elem_of_diffTo. right. by exists a.
    + done.
    + done.
    + done.
Qed.

(** Nothing is reported exactly when both sides have the same names and no entity changed. *)
Lemma diffBy_nil from to :
  NoDup (key <$> to) ->
  diff from to = [] <->
  forall n, option_Forall2 (fun a b => changes a b = []) (index key from !! n) (index key to !! n).
Proof.
  intros Hnd. split.
  - intros Hnil n.
    assert (Hno : forall t, ~ reports (diff from to) t category n).
    { intros t (e & He & _). rewrite Hnil in He. by apply elem_of_nil in He. }
    pose proof (Hno DiffAdded) as Ha. rewrite reports_added in Ha.
    pose proof (Hno DiffRemoved) as Hr. rewrite reports_removed in Hr.
    pose proof (Hno DiffChanged) as Hc. rewrite reports_changed in Hc by done.
    destruct (index key from !! n) as [a|], (index key to !! n) as [b|]; [constructor| | |constructor].
    + destruct (changes a b) eqn:E; [done|]. exfalso. apply Hc. exists a, b. by rewrite E.
    + exfalso. apply Hr. eauto.
    + exfalso. apply Ha. eauto.
  - intros Hall. destruct (diff from to) as [|e es] eqn:E; [done|]. exfalso.
    assert (He : e ∈ diff from to) by (rewrite E; apply list_elem_of_here).
    apply elem_of_diffBy in He as [(x & Hx & He)|(x & Hx & He)].
    + pose proof (index_unique key to x Hnd Hx) as Hix. specialize (Hall (key x)). rewrite Hix in Hall.
      apply elem_of_diffTo in He as [[Hn _]|(old & Ho & Hc & _)].
      * rewrite Hn in Hall. by inversion Hall.
      * rewrite Ho in Hall. by inversion Hall.
    + apply elem_of_diffFrom in He as [Hn _]. specialize (Hall (key x)). rewrite Hn in Hall.
      assert (is_Some (index key from !! key x)) as [a Ha]
        by (apply index_is_Some; by apply list_elem_of_fmap_2).
      rewrite Ha in Hall. by inversion Hall.
Qed.
End DiffByFacts.

(** ** The entities' own comparisons *)

Lemma changed_nil n a b : changed n a b = [] <-> a = b.
Proof. unfold changed. destruct (String.eqb_spec a b); split; done. Qed.

Lemma show_bool_inj a b : show_bool a = show_bool b <-> a = b.
Proof. destruct a, b; cbn; naive_solver. Qed.

Lemma app_nil_iff {A} (l k : list A) : l ++ k = [] <-> l = [] /\ k = [].
Proof. split; [apply app_eq_nil|]. by intros [-> ->]. Qed.

Lemma domainChanges_nil a b :
  td_Name a = td_Name b -> domainChanges a b = [] <-> a = b.
Proof.
  intros Hn. unfold domainChanges. rewrite !app_nil_iff, !changed_nil, show_bool_inj.
  destruct a, b. cbn in *. naive_solver.
Qed.

Lemma keyChanges_nil a b : sk_KID a = sk_KID b -> keyChanges a b = [] <-> a = b.
Proof.
  intros Hn. unfold keyChanges. rewrite !app_nil_iff, !changed_nil. destruct a, b. cbn in *. naive_solver.
Qed.

Lemma peerChanges_nil a b :
  peerChanges a b = [] <-> fp_KeyCount a = fp_KeyCount b /\ fp_RevocationHash a = fp_RevocationHash b.
Proof.
  unfold peerChanges. rewrite app_nil_iff.
  destruct (Z.eqb_spec (fp_KeyCount a) (fp_KeyCount b)),
    (String.eqb_spec (fp_RevocationHash a) (fp_RevocationHash b)); naive_solver.
Qed.

Lemma domainChanged_spec a b : td_Name a = td_Name b -> domainChanged a b = false <-> a = b.
Proof.
  intros Hn. unfold domainChanged. rewrite !orb_false_iff, !negb_false_iff, !String.eqb_eq, eqb_true_iff.
  destruct a, b. cbn in *. naive_solver.
Qed.

(** Two maps of entities by name that agree up to changes are equal when a change is any difference. *)
Lemma index_eq {A} (key : A -> string) (changes : A -> A -> list string) (l1 l2 : list A) :
  (forall a b, key a = key b -> changes a b = [] <-> a = b) ->
  (forall n, option_Forall2 (fun a b => changes a b = []) (index key l1 !! n) (index key l2 !! n)) <->
  index key l1 = index key l2.
Proof.
  intros Hc. split.
  - intros H. apply map_eq. intros n. specialize (H n).
    destruct (index key l1 !! n) as [a|] eqn:Ha, (index key l2 !! n) as [b|] eqn:Hb; inversion H; [|done].
    f_equal. subst. apply Hc; [|done]. apply index_Some in Ha as [_ ->]. by apply index_Some in Hb as [_ ->].
  - intros -> n. destruct (index key l2 !! n) as [b|]; constructor. by apply Hc.
Qed.

(** ** Manifests *)

(** The names in a manifest are distinct. *)
Record unique (m : SoulManifest) : Prop := {
  un_domains : NoDup (td_Name <$> TrustDomains m);
  un_keys : NoDup (sk_KID <$> SigningKeys m);
  un_streams : NoDup (ss_StreamID <$> SSFStreams m);
  un_peers : NoDup (fp_FabricID <$> Peers m);
}.

(** What [Diff] tracks: trust domains and signing keys in full, the identifiers of the streams, the
    peers with their key counts and hashes, the number of revocations, the audit position, and
    the fabric when both sides name one. *)
Record same_tracked (a b : SoulManifest) : Prop := {
  sm_fabric : md_FabricID (meta a) = "" \/ md_FabricID (meta b) = "" \/ md_FabricID (meta a) = md_FabricID (meta b);
  sm_domains : index td_Name (TrustDomains a) = index td_Name (TrustDomains b);
  sm_keys : index sk_KID (SigningKeys a) = index sk_KID (SigningKeys b);
  sm_streams : forall id, id ∈ ss_StreamID <$> SSFStreams a <-> id ∈ ss_StreamID <$> SSFStreams b;
  sm_peers : forall id, option_Forall2 (fun p q => fp_KeyCount p = fp_KeyCount q /\ fp_RevocationHash p = fp_RevocationHash q)
               (index fp_FabricID (Peers a) !! id) (index fp_FabricID (Peers b) !! id);
  sm_revocations : rv_Count (Revocations a) = rv_Count (Revocations b);
  sm_audit : as_LastFlushedSequence (Audit a) = as_LastFlushedSequence (Audit b);
}.

Lemma diffFabric_nil a b :
  diffFabric a b = [] <->
  md_FabricID (meta a) = "" \/ md_FabricID (meta b) = "" \/ md_FabricID (meta a) = md_FabricID (meta b).
Proof.
  unfold diffFabric. destruct (str_nonempty (md_FabricID (meta a))) eqn:Ha; cbn.
  2:{ apply str_nonempty_false in Ha. naive_solver. }
  destruct (str_nonempty (md_FabricID (meta b))) eqn:Hb; cbn.
  2:{ apply str_nonempty_false in Hb. naive_solver. }
  apply str_nonempty_true in Ha, Hb.
  destruct (String.eqb_spec (md_FabricID (meta a)) (md_FabricID (meta b))); naive_solver.
Qed.

Lemma diffStreams_nil from to :
  NoDup (ss_StreamID <$> to) ->
  diffSSFStreams from to = [] <-> forall id, id ∈ ss_StreamID <$> from <-> id ∈ ss_StreamID <$> to.
Proof.
  intros Hnd. unfold diffSSFStreams. rewrite diffBy_nil by done. split; intros H id; specialize (H id).
  - rewrite <- !index_is_Some. inversion H; naive_solver.
  - rewrite <- !index_is_Some in H.
    destruct (index ss_StreamID from !! id), (index ss_StreamID to !! id); [by constructor| | |by constructor].
    + destruct H as [H _]. destruct H as [? ?]; [eauto|done].
    + destruct H as [_ H]. destruct H as [? ?]; [eauto|done].
Qed.

Lemma option_Forall2_iff {A B} (R S : A -> B -> Prop) x y :
  (forall a b, R a b <-> S a b) -> option_Forall2 R x y <-> option_Forall2 S x y.
Proof. intros H. split; (intros []; constructor; by apply H). Qed.

Lemma diffPeers_nil from to :
  NoDup (fp_FabricID <$> to) ->
  diffFederationPeers from to = [] <->
  forall id, option_Forall2 (fun p q => fp_KeyCount p = fp_KeyCount q /\ fp_RevocationHash p = fp_RevocationHash q)
    (index fp_FabricID from !! id) (index fp_FabricID to !! id).
Proof.
  intros Hnd. unfold diffFederationPeers. rewrite diffBy_nil by done.
  split; intros H id; (eapply option_Forall2_iff; [|apply H]); intros; by rewrite peerChanges_nil.
Qed.

Lemma if_nil_iff (b : bool) (e : DiffEntry) : (if b then [] else [e]) = [] <-> b = true.
Proof. by destruct b. Qed.

(** The difference of two manifests is empty exactly when everything it tracks agrees; in
    particular comparing a manifest with itself reports nothing. *)
Theorem diff_empty_iff a b :
  unique b -> IsEmpty (Diff (Some a) (Some b)) = true <-> same_tracked a b.
Proof.
  intros [H1 H2 H3 H4]. unfold IsEmpty, Diff. cbn [Changes orZero].
  transitivity (diffManifests a b = []); [by destruct (diffManifests a b)|].
  unfold diffManifests, diffTrustDomains, diffSigningKeys, diffRevocations, diffAudit.
  rewrite !app_nil_iff, diffFabric_nil, diffStreams_nil, diffPeers_nil by done. rewrite !diffBy_nil by done.
  rewrite (index_eq td_Name), (index_eq sk_KID) by (intros; first [by apply domainChanges_nil|by apply keyChanges_nil]).
  rewrite !if_nil_iff, !Z.eqb_eq.
  split; [intros (? & ? & ? & ? & ? & ? & ?); by constructor|by intros []].
Qed.

(** * What a plan holds *)

Lemma or_cong (P P' Q Q' : Prop) : (P <-> P') -> (Q <-> Q') -> P \/ Q <-> P' \/ Q'.
Proof. tauto. Qed.

Section ConvergeByFacts.
Context {A : Type} (add rem : ActionType) (upd : A -> A -> option ActionType).

Lemma elem_of_convergeBy o1 o2 (cur spec : gmap string A) t n :
  act t n ∈ convergeBy add rem upd o1 o2 cur spec <->
  (exists x, spec !! n = Some x /\
     ((cur !! n = None /\ t = add) \/ (exists c, cur !! n = Some c /\ upd c x = Some t))) \/
  (is_Some (cur !! n) /\ spec !! n = None /\ t = rem).
Proof.
  unfold convergeBy. rewrite elem_of_app, !list_elem_of_In, !in_flat_map.
  setoid_rewrite <- list_elem_of_In. apply or_cong.
  - split.
    + intros ([k x] & Hin%elem_of_range & He). unfold convergeSpec in He. cbn in He.
      destruct (cur !! k) as [c|] eqn:Hc.
      * destruct (upd c x) as [t'|] eqn:Hu; [|by apply elem_of_nil in He].
        apply list_elem_of_singleton in He. injection He as -> ->. exists x. split; [done|]. right. by exists c.
      * apply list_elem_of_singleton in He. injection He as -> ->. exists x. split; [done|]. by left.
    + intros (x & Hs & Hcase). exists (n, x). split; [by apply elem_of_range|]. unfold convergeSpec. cbn.
      destruct Hcase as [[-> ->]|(c & -> & ->)]; by apply list_elem_of_singleton.
  - split.
    + intros (k & Hin%elem_of_range_keys & He). unfold convergeCurrent in He.
      destruct (spec !! k) eqn:Hk; [by apply elem_of_nil in He|].
      apply list_elem_of_singleton in He. injection He as -> ->. done.
    + intros (Hc & Hn & ->). exists n. split; [by apply elem_of_range_keys|]. unfold convergeCurrent.
      rewrite Hn. by apply list_elem_of_singleton.
Qed.

Lemma convergeBy_perm o1 o2 o1' o2' (cur spec : gmap string A) :
  Permutation (convergeBy add rem upd o1 o2 cur spec) (convergeBy add rem upd o1' o2' cur spec).
Proof.
  unfold convergeBy. apply Permutation_app; apply Permutation_flat_map.
  - by rewrite !range_perm.
  - unfold range_keys. by rewrite !range_perm.
Qed.
End ConvergeByFacts.

Lemma elem_of_convergeKeys o cur spec t n :
  act t n ∈ convergeSigningKeys o cur spec <->
  t = ActionRotateSigningKey /\ exists k, index sk_KID spec !! n = Some k /\ keyNeedsRotation (index sk_KID cur) (n, k) = true.
Proof.
  unfold convergeSigningKeys. rewrite list_elem_of_In, in_flat_map. setoid_rewrite <- list_elem_of_In. split.
  - intros ([k x] & Hin%elem_of_range & He). destruct (keyNeedsRotation _ _) eqn:Hk; [|by apply elem_of_nil in He].
    apply list_elem_of_singleton in He. injection He as -> ->. split; [done|]. by exists x.
  - intros [-> (k & Hk & Hr)]. exists (n, k). split; [by apply elem_of_range|]. rewrite Hr.
    by apply list_elem_of_singleton.
Qed.

Lemma elem_of_convergeRevocations b c t n :
  act t n ∈ convergeRevocations b c -> t = ActionImportRevocations \/ t = ActionResetRevocations.
Proof.
  unfold convergeRevocations. intros H.
  destruct b; [destruct c as [m|]; [destruct (0 <? _)|]|]; set_solver.
Qed.

(** Reports of one category of a whole difference. *)
Lemma reports_app es1 es2 t cat n :
  reports (es1 ++ es2) t cat n <-> reports es1 t cat n \/ reports es2 t cat n.
Proof. unfold reports. setoid_rewrite elem_of_app. naive_solver. Qed.

Lemma reports_other {A} (key : A -> string) cat0 detail changes from to t cat n :
  cat <> cat0 -> ~ reports (diffBy key cat0 detail changes from to) t cat n.
Proof. intros Hne (e & He%diffBy_category & _ & Hc & _). congruence. Qed.

Lemma reports_fabric a b t cat n : cat <> "metadata" -> ~ reports (diffFabric a b) t cat n.
Proof.
  intros Hne (e & He & _ & Hc & _). unfold diffFabric in He. case_match; [|by apply elem_of_nil in He].
  apply list_elem_of_singleton in He as ->. by cbn in Hc.
Qed.
Lemma reports_revocations a b t cat n : cat <> "revocation" -> ~ reports (diffRevocations a b) t cat n.
Proof.
  intros Hne (e & He & _ & Hc & _). unfold diffRevocations in He. case_match; [by apply elem_of_nil in He|].
  apply list_elem_of_singleton in He as ->. by cbn in Hc.
Qed.
Lemma reports_audit a b t cat n : cat <> "audit" -> ~ reports (diffAudit a b) t cat n.
Proof.
  intros Hne (e & He & _ & Hc & _). unfold diffAudit in He. case_match; [by apply elem_of_nil in He|].
  apply list_elem_of_singleton in He as ->. by cbn in Hc.
Qed.

Lemma reports_manifests a b t cat n :
  cat ∈ ["trust_domain"; "signing_key"; "ssf_stream"; "federation_peer"] ->
  reports (diffManifests a b) t cat n <->
  reports (diffTrustDomains (TrustDomains a) (TrustDomains b)) t cat n \/
  reports (diffSigningKeys (SigningKeys a) (SigningKeys b)) t cat n \/
  reports (diffSSFStreams (SSFStreams a) (SSFStreams b)) t cat n \/
  reports (diffFederationPeers (Peers a) (Peers b)) t cat n.
Proof.
  intros Hcat. assert (cat <> "metadata" /\ cat <> "revocation" /\ cat <> "audit") as (N1 & N2 & N3) by set_solver.
  unfold diffManifests. rewrite !reports_app.
  pose proof (reports_fabric a b t cat n N1). pose proof (reports_audit (Audit a) (Audit b) t cat n N3).
  pose proof (reports_revocations (Revocations a) (Revocations b) t cat n N2). tauto.
Qed.

(** ** The plan and the difference agree *)

Lemma plan_action orders imp cur spec t n :
  act t n ∈ Converge orders imp (Some cur) (Some spec) <->
  act t n ∈ convergeTrustDomains (orders 0%nat) (orders 1%nat) (TrustDomains cur) (TrustDomains spec) \/
  act t n ∈ convergeSigningKeys (orders 2%nat) (SigningKeys cur) (SigningKeys spec) \/
  act t n ∈ convergeSSFStreams (orders 3%nat) (orders 4%nat) (SSFStreams cur) (SSFStreams spec) \/
  act t n ∈ convergeFederationPeers (orders 5%nat) (orders 6%nat) (Peers cur) (Peers spec) \/
  act t n ∈ convergeRevocations imp (Some cur).
Proof. unfold Converge. cbn [orZero]. by rewrite !elem_of_app. Qed.

Lemma converge_domains_spec o1 o2 cur spec t n :
  act t n ∈ convergeTrustDomains o1 o2 cur spec <->
  (t = ActionAddTrustDomain /\ index td_Name cur !! n = None /\ is_Some (index td_Name spec !! n)) \/
  (t = ActionUpdateTrustDomain /\ exists a b, index td_Name cur !! n = Some a /\ index td_Name spec !! n = Some b /\ a <> b) \/
  (t = ActionRemoveTrustDomain /\ is_Some (index td_Name cur !! n) /\ index td_Name spec !! n = None).
Proof.
  unfold convergeTrustDomains. rewrite elem_of_convergeBy.
  assert (Hch : forall a b, index td_Name cur !! n = Some a -> index td_Name spec !! n = Some b ->
    domainChanged a b = true <-> a <> b).
  { intros a b Ha Hb. apply index_Some in Ha as [_ Ha]. apply index_Some in Hb as [_ Hb].
    rewrite <- not_false_iff_true, domainChanged_spec by congruence. done. }
  split.
  - intros [(x & Hx & [[Hc ->]|(c & Hc & Hu)])|(Hc & Hs & ->)]; [left|right; left|right; right].
    + split_and!; eauto.
    + destruct (domainChanged c x) eqn:Hd; [|done]. injection Hu as <-. split; [done|]. exists c, x.
      split_and!; [done..|]. by apply Hch.
    + done.
  - intros [(-> & Hc & [x Hx])|[(-> & a & b & Ha & Hb & Hab)|(-> & Hc & Hs)]]; [left|left|right].
    + exists x. split; [done|]. by left.
    + exists b. split; [done|]. right. exists a. split; [done|]. by rewrite (proj2 (Hch a b Ha Hb) Hab).
    + done.
Qed.

Lemma converge_set_spec {A} (key : A -> string) add rem o1 o2 (cur spec : list A) t n :
  act t n ∈ convergeBy add rem (fun _ _ => None) o1 o2 (index key cur) (index key spec) <->
  (t = add /\ index key cur !! n = None /\ is_Some (index key spec !! n)) \/
  (t = rem /\ is_Some (index key cur !! n) /\ index key spec !! n = None).
Proof.
  rewrite elem_of_convergeBy. split.
  - intros [(x & Hx & [[Hc ->]|(c & _ & Hu)])|(Hc & Hs & ->)]; [left; eauto|done|by right].
  - intros [(-> & Hc & [x Hx])|(-> & Hc & Hs)]; [left|by right]. exists x. split; [done|]. by left.
Qed.

(** The parts of a plan, told apart by the type of their actions. *)
Ltac plan_part :=
  intros Ht; rewrite plan_action; unfold convergeSSFStreams, convergeFederationPeers;
  rewrite ?converge_domains_spec, ?elem_of_convergeKeys, ?converge_set_spec;
  split; [|tauto];
  intros [H|[H|[H|[H|H%elem_of_convergeRevocations]]]]; try done;
  destruct_or?; destruct_and?; subst; set_solver.

Lemma plan_domains orders imp cur spec t n :
  t ∈ [ActionAddTrustDomain; ActionUpdateTrustDomain; ActionRemoveTrustDomain] ->
  act t n ∈ Converge orders imp (Some cur) (Some spec) <->
  act t n ∈ convergeTrustDomains (orders 0%nat) (orders 1%nat) (TrustDomains cur) (TrustDomains spec).
Proof. plan_part. Qed.
Lemma plan_keys orders imp cur spec n :
  act ActionRotateSigningKey n ∈ Converge orders imp (Some cur) (Some spec) <->
  act ActionRotateSigningKey n ∈ convergeSigningKeys (orders 2%nat) (SigningKeys cur) (SigningKeys spec).
Proof.
  enough (Hg : forall t, t ∈ [ActionRotateSigningKey] ->
    act t n ∈ Converge orders imp (Some cur) (Some spec) <->
    act t n ∈ convergeSigningKeys (orders 2%nat) (SigningKeys cur) (SigningKeys spec)) by (apply Hg; set_solver).
  intros t. plan_part.
Qed.
Lemma plan_streams orders imp cur spec t n :
  t ∈ [ActionAddSSFStream; ActionRemoveSSFStream] ->
  act t n ∈ Converge orders imp (Some cur) (Some spec) <->
  act t n ∈ convergeSSFStreams (orders 3%nat) (orders 4%nat) (SSFStreams cur) (SSFStreams spec).
Proof. plan_part. Qed.
Lemma plan_peers orders imp cur spec t n :
  t ∈ [ActionAddPeer; ActionRemovePeer] ->
  act t n ∈ Converge orders imp (Some cur) (Some spec) <->
  act t n ∈ convergeFederationPeers (orders 5%nat) (orders 6%nat) (Peers cur) (Peers spec).
Proof. plan_part. Qed.

(** The parts of a difference, told apart by their category. *)
Ltac diff_part :=
  rewrite reports_manifests by set_solver;
  split; [|tauto]; intros [H|[H|[H|H]]]; try done; exfalso; revert H; by apply reports_other.
Lemma reports_domains a b t n :
  reports (diffManifests a b) t "trust_domain" n <->
  reports (diffTrustDomains (TrustDomains a) (TrustDomains b)) t "trust_domain" n.
Proof. diff_part. Qed.
Lemma reports_keys a b t n :
  reports (diffManifests a b) t "signing_key" n <->
  reports (diffSigningKeys (SigningKeys a) (SigningKeys b)) t "signing_key" n.
Proof. diff_part. Qed.
Lemma reports_streams a b t n :
  reports (diffManifests a b) t "ssf_stream" n <->
  reports (diffSSFStreams (SSFStreams a) (SSFStreams b)) t "ssf_stream" n.
Proof. diff_part. Qed.
Lemma reports_peers a b t n :
  reports (diffManifests a b) t "federation_peer" n <->
  reports (diffFederationPeers (Peers a) (Peers b)) t "federation_peer" n.
Proof. diff_part. Qed.

(** The convergence plan and the difference report the same changes: for every order in which the maps
    are iterated, a trust domain is added, updated or removed by the plan exactly when the
    difference reports it as added, changed or removed; streams and peers likewise are added and
    removed exactly when reported; and every key the plan rotates is reported as added or changed. *)
Theorem plan_matches_diff orders imp cur spec n :
  unique spec ->
  let plan := Converge orders imp (Some cur) (Some spec) in
  let d := Changes (Diff (Some cur) (Some spec)) in
  (act ActionAddTrustDomain n ∈ plan <-> reports d DiffAdded "trust_domain" n) /\
  (act ActionUpdateTrustDomain n ∈ plan <-> reports d DiffChanged "trust_domain" n) /\
  (act ActionRemoveTrustDomain n ∈ plan <-> reports d DiffRemoved "trust_domain" n) /\
  (act ActionAddSSFStream n ∈ plan <-> reports d DiffAdded "ssf_stream" n) /\
  (act ActionRemoveSSFStream n ∈ plan <-> reports d DiffRemoved "ssf_stream" n) /\
  (act ActionAddPeer n ∈ plan <-> reports d DiffAdded "federation_peer" n) /\
  (act ActionRemovePeer n ∈ plan <-> reports d DiffRemoved "federation_peer" n) /\
  (act ActionRotateSigningKey n ∈ plan ->
     reports d DiffAdded "signing_key" n \/ reports d DiffChanged "signing_key" n).
Proof.
  intros [U1 U2 _ _]. cbn zeta. change (Changes (Diff (Some cur) (Some spec))) with (diffManifests cur spec).
  rewrite !plan_domains, !plan_streams, !plan_peers by set_solver. rewrite plan_keys.
  rewrite !reports_domains, !reports_streams, !reports_peers, !reports_keys.
  unfold convergeSSFStreams, convergeFederationPeers, diffTrustDomains, diffSigningKeys, diffSSFStreams, diffFederationPeers.
  rewrite !converge_domains_spec, !converge_set_spec, !reports_added, !reports_removed, !reports_changed by done.
  split_and!; [naive_solver| |naive_solver..|].
  - split.
    + intros [?|[(_ & a & b & Ha & Hb & Hab)|?]]; [naive_solver| |naive_solver]. exists a, b. split_and!; [done..|].
      intros Hc. apply Hab, domainChanges_nil; [|done].
      apply index_Some in Ha as [_ ->]. by apply index_Some in Hb as [_ ->].
    + intros (a & b & Ha & Hb & Hc). right. left. split; [done|]. exists a, b. split_and!; [done..|].
      intros ->. apply Hc. by apply domainChanges_nil.
  - intros [_ (k & Hk & Hr)]%elem_of_convergeKeys. unfold keyNeedsRotation in Hr. cbn in Hr.
    destruct (index sk_KID (SigningKeys cur) !! n) as [c|] eqn:Hc; [right|left; eauto].
    exists c, k. split_and!; [done..|]. intros Hn. apply keyChanges_nil in Hn as ->.
    + rewrite !String.eqb_refl in Hr. done.
    + apply index_Some in Hc as [_ ->]. by apply index_Some in Hk as [_ ->].
Qed.

(** The plan does not depend on the order in which the maps are iterated. *)
Theorem plan_order_independent orders orders' imp cur spec :
  Permutation (Converge orders imp cur spec) (Converge orders' imp cur spec).
Proof.
  unfold Converge, convergeTrustDomains, convergeSigningKeys, convergeSSFStreams, convergeFederationPeers.
  repeat apply Permutation_app;
    first [reflexivity|apply convergeBy_perm|apply Permutation_flat_map; unfold range_keys; by rewrite !range_perm].
Qed.

(** * Examples *)

Definition demo_domain (name issuer : string) : TrustDomainSpec :=
  {| td_Name := name; td_Type := "oidc"; td_Issuer := issuer; td_JWKSURL := ""; td_Enabled := true |}.
Definition demo_manifest (ds : list TrustDomainSpec) : SoulManifest :=
  {| APIVersion := APIVersionV1; Kind := KindManifest;
     meta := {| md_FabricID := "eu"; md_GeneratedAt := 1; md_Sequence := 2 |};
     SigningKeys := [{| sk_KMSKeyID := ""; sk_Algorithm := "RS256"; sk_KID := "k1"; sk_Status := "active" |}];
     TrustDomains := ds; Revocations := noRevocations; SSFStreams := []; Peers := []; Audit := noAudit |}.
Definition demo_old : SoulManifest := demo_manifest [demo_domain "a" "https://a"; demo_domain "b" "https://b"].
Definition demo_new : SoulManifest := demo_manifest [demo_domain "a" "https://a2"; demo_domain "c" "https://c"].

Lemma demo_new_unique : unique demo_new.
Proof. split; apply (bool_decide_unpack _); vm_compute; reflexivity. Qed.

Example demo_plan :
  Converge (fun _ => key_order) true (Some demo_old) (Some demo_new) =
  [act ActionAddTrustDomain "c"; act ActionUpdateTrustDomain "a"; act ActionRemoveTrustDomain "b"].
Proof. vm_compute. reflexivity. Qed.

Lemma diff_empty_iff_witness : IsEmpty (Diff (Some demo_new) (Some demo_new)) = true <-> same_tracked demo_new demo_new.
Proof. apply (diff_empty_iff demo_new demo_new). apply demo_new_unique. Defined.

Lemma plan_matches_diff_witness :
  act ActionAddTrustDomain "c" ∈ Converge (fun _ => key_order) true (Some demo_old) (Some demo_new) <->
  reports (Changes (Diff (Some demo_old) (Some demo_new))) DiffAdded "trust_domain" "c".
Proof. exact (proj1 (plan_matches_diff (fun _ => key_order) true demo_old demo_new "c" demo_new_unique)). Defined.
End Soul.
