(* ===== verification/SoulKeeper.v ===== *)
(** The soul keeper ([pkg/soul/keeper.go]), the filesystem anchor ([anchor_fs.go]) and recovery from an
    anchor ([recovery.go]). The anchor is an interface ([anchor.go]) which the filesystem implements;
    YAML and the operating system are arguments. *)
From Stdlib Require Import ZArith Lia Ascii.
From stdpp Require Import base gmap strings list pretty.
From S2P Require Import Prelude.
From S2P Require Import GoLib.
From S2P Require Import Core.
From S2P Require Import JwtModel.
From S2P Require Import Revocation.
From S2P Require Import Soul.

#[local] Open Scope string_scope.
#[local] Open Scope list_scope.
#[local] Open Scope Z_scope.

Module SoulKeeper.
Import Soul.

Abbreviation bytes := (list Byte.byte).

(** * The interface [Anchor]

    Errors are their texts, which [isNotFound] inspects. What the keeper relies on: what was
    written for a fabric is what is read, and manifests and revocation snapshots do not disturb
    each other. *)
Class Anchor (S : Type) : Type := {
  an_WriteManifest : SoulManifest -> S -> S * result string unit;
  an_ReadManifest : string -> S -> result string SoulManifest;
  an_WriteRevocationSnapshot : string -> bytes -> S -> S * result string unit;
  an_ReadRevocationSnapshot : string -> S -> result string bytes;
  an_manifest_read : forall m s s', an_WriteManifest m s = (s', Ok tt) ->
      an_ReadManifest (md_FabricID (meta m)) s' = Ok m;
  an_snapshot_read : forall id d s s', an_WriteRevocationSnapshot id d s = (s', Ok tt) ->
      an_ReadRevocationSnapshot id s' = Ok d;
  an_manifest_frame : forall m s s' id, an_WriteManifest m s = (s', Ok tt) ->
      an_ReadRevocationSnapshot id s' = an_ReadRevocationSnapshot id s;
}.

(** * Recovery ([recovery.go]) *)

(** [searchSubstr] and [containsSubstring] *)
Fixpoint searchSubstr (s sub : string) : bool :=
  String.prefix sub s || match s with
                         | EmptyString => false
                         | String _ s' => searchSubstr s' sub
                         end.
Definition containsSubstring (s sub : string) : bool :=
  (String.length sub <=? String.length s)%nat && searchSubstr s sub.

(** [isNotFound] *)
Definition isNotFound (err : string) : bool :=
  existsb (containsSubstring err) ["not found"; "no such file"; "does not exist"; "NoSuchKey"; "not exist"].

(** [RecoveryResult]: a fresh install carries nothing; the gap is a duration. *)
Inductive RecoveryResult : Type :=
| FreshInstall
| Recovery (manifest : SoulManifest) (revocationData : option bytes) (gap : Duration).

Inductive RecoverErr : Type :=
| ErrReadingManifest (e : string)
| ErrFabricMismatch (has expected : string)
| ErrInvalid (e : ManifestErr)
| ErrReadingRevocations (e : string).

(** [Recover] *)
Definition Recover {S} `{!Anchor S} (now : Time) (fabricID : string) (s : S) : result RecoverErr RecoveryResult :=
  match an_ReadManifest fabricID s with
  | Err e => if isNotFound e then Ok FreshInstall else Err (ErrReadingManifest e)
  | Ok manifest =>
      if negb (md_FabricID (meta manifest) =? fabricID)%string
      then Err (ErrFabricMismatch (md_FabricID (meta manifest)) fabricID)
      else match Validate manifest with
           | Err e => Err (ErrInvalid e)
           | Ok _ =>
               let gap := Sub now (md_GeneratedAt (meta manifest)) in
               match an_ReadRevocationSnapshot fabricID s with
               | Ok d => Ok (Recovery manifest (Some d) gap)
               | Err e => if isNotFound e then Ok (Recovery manifest None gap) else Err (ErrReadingRevocations e)
               end
           end
  end.

(** * The keeper ([keeper.go]) *)

(** What the keeper asks of the revocation index. *)
Record RevocationExporter : Type := {
  ex_Export : result string bytes;
  ex_Hash : string;
  ex_Len : Z;
}.

Inductive KeeperErr : Type :=
| ErrExport (e : string)
| ErrWriteRevocations (e : string)
| ErrWriteManifest (e : string).

(** [Keeper], with its observable effects; a nil bus or callback is false. *)
Inductive KeeperEffect : Type :=
| KOnSnapshot (fabricID : string) (seq : Z)
| KFlash (signal : Signal).
Record Keeper : Type := {
  k_fabricID : string;
  k_interval : Duration;
  k_unitID : string;
  k_bus : bool;
  k_onSnapshot : bool;
  k_sequence : Z;
  k_signingKeys : list SigningKeyRef;
  k_trustDomains : list TrustDomainSpec;
  k_auditState : AuditState;
}.

(** [NewKeeper] *)
Definition NewKeeper (fabricID : string) (anchor_given : bool) (interval : Duration) (unitID : string)
    (bus onSnapshot : bool) : result string Keeper :=
  let? _ := reject (fabricID =? "")%string "fabricID is required" in
  let? _ := reject (negb anchor_given) "anchor is required" in
  Ok {| k_fabricID := fabricID;
        k_interval := if interval <=? 0 then 60 * Second else interval;
        k_unitID := if (unitID =? "")%string then "unknown" else unitID;
        k_bus := bus; k_onSnapshot := onSnapshot; k_sequence := 0;
        k_signingKeys := []; k_trustDomains := []; k_auditState := noAudit |}.

(** [SetIdentity], [SetAuditState] and the counter. *)
Definition SetIdentity (keys : list SigningKeyRef) (domains : list TrustDomainSpec) (k : Keeper) : Keeper :=
  {| k_fabricID := k_fabricID k; k_interval := k_interval k; k_unitID := k_unitID k; k_bus := k_bus k;
     k_onSnapshot := k_onSnapshot k; k_sequence := k_sequence k; k_signingKeys := keys;
     k_trustDomains := domains; k_auditState := k_auditState k |}.
Definition SetAuditState (st : AuditState) (k : Keeper) : Keeper :=
  {| k_fabricID := k_fabricID k; k_interval := k_interval k; k_unitID := k_unitID k; k_bus := k_bus k;
     k_onSnapshot := k_onSnapshot k; k_sequence := k_sequence k; k_signingKeys := k_signingKeys k;
     k_trustDomains := k_trustDomains k; k_auditState := st |}.
Definition bumpSequence (k : Keeper) : Keeper :=
  {| k_fabricID := k_fabricID k; k_interval := k_interval k; k_unitID := k_unitID k; k_bus := k_bus k;
     k_onSnapshot := k_onSnapshot k; k_sequence := u64 (k_sequence k + 1); k_signingKeys := k_signingKeys k;
     k_trustDomains := k_trustDomains k; k_auditState := k_auditState k |}.

(** [TrustDomains], [SigningKeys] and [Sequence] return copies. *)
Definition TrustDomains (k : Keeper) : list TrustDomainSpec := k_trustDomains k.
Definition SigningKeys (k : Keeper) : list SigningKeyRef := k_signingKeys k.
Definition Sequence (k : Keeper) : Z := k_sequence k.

(** The manifest of a snapshot. *)
Definition buildManifest (now exported : Time) (k : Keeper) (rev : option RevocationExporter) : SoulManifest :=
  {| APIVersion := APIVersionV1; Kind := KindManifest;
     meta := {| md_FabricID := k_fabricID k; md_GeneratedAt := now; md_Sequence := k_sequence k |};
     Soul.SigningKeys := k_signingKeys k; Soul.TrustDomains := k_trustDomains k;
     Revocations := match rev with
                    | Some r => {| rv_Count := ex_Len r; rv_Hash := ex_Hash r; rv_ExportedAt := exported |}
                    | None => noRevocations
                    end;
     SSFStreams := []; Peers := []; Audit := k_auditState k |}.

(** The announcements after a snapshot was written; a failing bus is only logged. *)
Definition announce (k : Keeper) (m : SoulManifest) : list KeeperEffect :=
  (if k_onSnapshot k then [KOnSnapshot (k_fabricID k) (k_sequence k)] else []) ++
  (if k_bus k then [KFlash {| sig_Type := "fabric.soul"; sig_Source := ""; sig_Timestamp := 0;
      sig_Payload := <["fabric_id" := VStr (k_fabricID k)]>
        (<["sequence" := VInt (k_sequence k)]>
        (<["revocation_count" := VInt (rv_Count (Revocations m))]> ∅)) |}] else []).

(** [Snapshot]: the sequence number is taken first and is spent even when the snapshot fails; the
    comparison with the stored manifest only logs a warning. *)
Definition splitBrain {S} `{!Anchor S} (k : Keeper) (s : S) : bool :=
  match an_ReadManifest (k_fabricID k) s with
  | Ok m => k_sequence k <=? md_Sequence (meta m)
  | Err _ => false
  end.
Definition writeRevocations {S} `{!Anchor S} (fabricID : string) (rev : option RevocationExporter) (s : S)
    : S * result KeeperErr unit :=
  match rev with
  | None => (s, Ok tt)
  | Some r =>
      match ex_Export r with
      | Err e => (s, Err (ErrExport e))
      | Ok d => match an_WriteRevocationSnapshot fabricID d s with
                | (s', Ok _) => (s', Ok tt)
                | (s', Err e) => (s', Err (ErrWriteRevocations e))
                end
      end
  end.
Definition Snapshot {S} `{!Anchor S} (now exported : Time) (rev : option RevocationExporter) (k0 : Keeper) (s : S)
    : Keeper * S * list KeeperEffect * result KeeperErr unit :=
  let k := bumpSequence k0 in
  let manifest := buildManifest now exported k rev in
  match writeRevocations (k_fabricID k) rev s with
  | (s1, Err e) => (k, s1, [], Err e)
  | (s1, Ok _) =>
      match an_WriteManifest manifest s1 with
      | (s2, Err e) => (k, s2, [], Err (ErrWriteManifest e))
      | (s2, Ok _) => (k, s2, announce k manifest, Ok tt)
      end
  end.

(** [Stop] is a last snapshot; [run] takes one per tick until the context is done. *)
Definition Stop {S} `{!Anchor S} := @Snapshot S _.
Record Tick : Type := { tk_now : Time; tk_exported : Time; tk_rev : option RevocationExporter }.
Fixpoint run {S} `{!Anchor S} (ticks : list Tick) (k : Keeper) (s : S) : Keeper * S :=
  match ticks with
  | [] => (k, s)
  | t :: ticks' =>
      let '(k', s', _, _) := Snapshot (tk_now t) (tk_exported t) (tk_rev t) k s in
      run ticks' k' s'
  end.

(** * Theorems against the interface *)

Section WithAnchor.
Context {S : Type} `{!Anchor S}.

(** Keys that the manifest validation accepts. *)
Definition named_keys (ks : list SigningKeyRef) : Prop :=
  ks <> [] /\ Forall (fun k => sk_KID k <> "" /\ sk_Status k <> "") ks.

Lemma validateKeys_ok ks : forall i,
  validateKeys i ks = Ok tt <-> Forall (fun k => sk_KID k <> "" /\ sk_Status k <> "") ks.
Proof.
  induction ks as [|k ks IH]; intros i; cbn; [by split|]. rewrite Forall_cons, <- (IH (Datatypes.S i)).
  destruct (String.eqb_spec (sk_KID k) ""), (String.eqb_spec (sk_Status k) ""); cbn; naive_solver.
Qed.

Lemma Validate_snapshot now exported k rev :
  k_fabricID k <> "" -> k_sequence k <> 0 ->
  Validate (buildManifest now exported k rev) =
  match k_signingKeys k with [] => Err ErrNoSigningKey | ks => validateKeys O ks end.
Proof.
  intros Hid Hseq. unfold Validate. cbn.
  apply String.eqb_neq in Hid as ->. apply Z.eqb_neq in Hseq as ->. cbn.
  by destruct (k_signingKeys k).
Qed.

Lemma writeRevocations_ok id rev s s' :
  writeRevocations id rev s = (s', Ok tt) ->
  (rev = None /\ s' = s) \/
  (exists r d, rev = Some r /\ ex_Export r = Ok d /\ an_ReadRevocationSnapshot id s' = Ok d).
Proof.
  unfold writeRevocations. destruct rev as [r|]; [|intros [= <-]; by left].
  destruct (ex_Export r) as [d|] eqn:He; [|done].
  destruct (an_WriteRevocationSnapshot id d s) as [s1 [[]|e]] eqn:Hw; [|done]. intros [= <-].
  right. exists r, d. split_and!; [done..|]. by eapply an_snapshot_read.
Qed.

(** What a successful snapshot leaves at the anchor. *)
Lemma snapshot_ok now exported rev k s k' s' es :
  Snapshot now exported rev k s = (k', s', es, Ok tt) ->
  k' = bumpSequence k /\
  an_ReadManifest (k_fabricID k) s' = Ok (buildManifest now exported k' rev) /\
  (forall r d, rev = Some r -> ex_Export r = Ok d -> an_ReadRevocationSnapshot (k_fabricID k) s' = Ok d) /\
  (forall r, rev = Some r -> exists d, ex_Export r = Ok d).
Proof.
  unfold Snapshot. destruct (writeRevocations _ rev s) as [s1 [[]|e]] eqn:Hr; [|done].
  destruct (an_WriteManifest _ s1) as [s2 [[]|e]] eqn:Hm; [|done]. intros [= <- <- <-].
  apply writeRevocations_ok in Hr. split; [done|]. split; [exact (an_manifest_read _ _ _ Hm)|].
  split.
  - intros r d -> Hd. destruct Hr as [[? _]|(r' & d' & [= <-] & Hd' & Hread)]; [done|].
    rewrite (an_manifest_frame _ _ _ (k_fabricID k) Hm). cbn in Hread. congruence.
  - intros r ->. destruct Hr as [[? _]|(r' & d' & [= <-] & Hd' & _)]; [done|]. by exists d'.
Qed.

Lemma snapshot_recovery now exported r k s k' s' es later d :
  Snapshot now exported (Some r) k s = (k', s', es, Ok tt) ->
  k_fabricID k <> "" -> 0 <= k_sequence k < two64 - 1 -> named_keys (k_signingKeys k) ->
  ex_Export r = Ok d ->
  Recover later (k_fabricID k) s' =
    Ok (Recovery (buildManifest now exported k' (Some r)) (Some d) (Sub later now)) /\
  k_sequence k' = k_sequence k + 1.
Proof.
  intros Hs Hid Hseq [Hne Hk] Hd. apply snapshot_ok in Hs as (-> & Hm & Hr & _).
  assert (Hq : k_sequence (bumpSequence k) = k_sequence k + 1) by (cbn; apply u64_small; unfold two64 in *; lia).
  split; [|done]. unfold Recover. rewrite Hm. cbn [md_FabricID meta buildManifest bumpSequence k_fabricID].
  rewrite String.eqb_refl. cbn [negb].
  rewrite Validate_snapshot; [|done|lia]. cbn [k_signingKeys bumpSequence].
  apply (validateKeys_ok _ O) in Hk. destruct (k_signingKeys k) as [|x ks]; [done|]. rewrite Hk.
  by rewrite (Hr _ _ eq_refl Hd).
Qed.

(** A snapshot taken while no signing key is registered (as the server does: it registers the trust
    domains only) cannot be recovered: recovery rejects the manifest the keeper itself wrote. *)
Theorem keyless_snapshot_unrecoverable now exported rev k s k' s' es later :
  Snapshot now exported rev k s = (k', s', es, Ok tt) ->
  k_fabricID k <> "" -> 0 <= k_sequence k < two64 - 1 -> k_signingKeys k = [] ->
  Recover later (k_fabricID k) s' = Err (ErrInvalid ErrNoSigningKey).
Proof.
  intros Hs Hid Hseq Hk. apply snapshot_ok in Hs as (-> & Hm & _ & _).
  assert (Hq : k_sequence (bumpSequence k) = k_sequence k + 1) by (cbn; apply u64_small; unfold two64 in *; lia).
  unfold Recover. rewrite Hm. cbn [md_FabricID meta buildManifest bumpSequence k_fabricID].
  rewrite String.eqb_refl. cbn [negb]. rewrite Validate_snapshot; [|done|lia].
  cbn [k_signingKeys bumpSequence]. by rewrite Hk.
Qed.

(** The sequence number grows by one with every tick, whether or not the snapshot succeeds. *)
Theorem sequence_counts_snapshots ticks : forall k s,
  0 <= k_sequence k -> k_sequence k + Z.of_nat (length ticks) < two64 ->
  k_sequence (run ticks k s).1 = k_sequence k + Z.of_nat (length ticks).
Proof.
  induction ticks as [|t ticks IH]; intros k s Hk Hn; cbn; [lia|].
  destruct (Snapshot (tk_now t) (tk_exported t) (tk_rev t) k s) as [[[k' s'] es] r] eqn:Hs.
  assert (Hk' : k' = bumpSequence k).
  { unfold Snapshot in Hs. destruct (writeRevocations _ _ s) as [s1 [u|e]]; [|by injection Hs].
    destruct (an_WriteManifest _ s1) as [s2 [v|e]]; by injection Hs. }
  assert (Hq : k_sequence k' = k_sequence k + 1).
  { rewrite Hk'. cbn. apply u64_small. cbn in Hn. lia. }
  cbn in Hn. rewrite IH; lia.
Qed.
End WithAnchor.

(** * The filesystem anchor ([anchor_fs.go])

    Paths are joined from clean elements (a fabric identifier without separators), the files are a
    map from paths to contents. Creating directories and writing files may fail, a failed write
    leaving part of the data; a file is missing exactly when it was never written. *)

Definition join (elems : list string) : string := String.concat "/" elems.

Record Faults : Type := {
  mkdir_err : string -> option string;
  write_err : string -> option (string * bytes);
}.

Section FS.
Variable root : string.
Variable faults : Faults.
Variable yaml_Marshal : SoulManifest -> result string bytes.
Variable yaml_Unmarshal : bytes -> result string SoulManifest.
Hypothesis yaml_roundtrip : forall m d, yaml_Marshal m = Ok d -> yaml_Unmarshal d = Ok m.

Abbreviation FS := (gmap string bytes).

Definition fabricDir (fabricID : string) : string := join [root; fabricID].
Definition archiveDir (fabricID : string) : string := join [fabricDir fabricID; "archive"].
Definition latestPath (fabricID : string) : string := join [fabricDir fabricID; "soul-manifest.yaml"].
Definition archivePath (fabricID : string) (seq : Z) : string :=
  join [archiveDir fabricID; "soul-manifest-" +:+ pretty seq +:+ ".yaml"].
Definition revocationPath (fabricID : string) : string := join [fabricDir fabricID; "revocation-index.bin"].
Definition auditPath (fabricID : string) : string := join [fabricDir fabricID; "audit-buffer.jsonl"].

(** [os.MkdirAll], [os.WriteFile] and [os.ReadFile] *)
Definition MkdirAll (dir : string) : result string unit :=
  match mkdir_err faults dir with Some e => Err e | None => Ok tt end.
Definition WriteFile (path : string) (data : bytes) (fs : FS) : FS * result string unit :=
  match write_err faults path with
  | Some (e, part) => (<[path := part]> fs, Err e)
  | None => (<[path := data]> fs, Ok tt)
  end.
Definition ReadFile (path : string) (fs : FS) : result string bytes :=
  match fs !! path with
  | Some d => Ok d
  | None => Err ("open " +:+ path +:+ ": no such file or directory")
  end.

(** [WriteManifest]: the latest copy, then the archived one. *)
Definition WriteManifest (m : SoulManifest) (fs : FS) : FS * result string unit :=
  let id := md_FabricID (meta m) in
  match MkdirAll (archiveDir id) with
  | Err e => (fs, Err ("creating anchor directory: " +:+ e))
  | Ok _ =>
      match yaml_Marshal m with
      | Err e => (fs, Err ("marshaling manifest: " +:+ e))
      | Ok data =>
          match WriteFile (latestPath id) data fs with
          | (fs1, Err e) => (fs1, Err ("writing latest manifest: " +:+ e))
          | (fs1, Ok _) =>
              match WriteFile (archivePath id (md_Sequence (meta m))) data fs1 with
              | (fs2, Err e) => (fs2, Err ("writing archive manifest: " +:+ e))
              | (fs2, Ok _) => (fs2, Ok tt)
              end
          end
      end
  end.

(** [ReadManifest] *)
Definition ReadManifest (fabricID : string) (fs : FS) : result string SoulManifest :=
  match ReadFile (latestPath fabricID) fs with
  | Err e => Err ("no manifest found for fabric " +:+ fabricID +:+ ": " +:+ e)
  | Ok data => match yaml_Unmarshal data with
               | Ok m => Ok m
               | Err e => Err ("unmarshaling soul manifest: " +:+ e)
               end
  end.

(** [WriteRevocationSnapshot], [ReadRevocationSnapshot] and [WriteAuditBuffer] *)
Definition WriteRevocationSnapshot (fabricID : string) (data : bytes) (fs : FS) : FS * result string unit :=
  match MkdirAll (fabricDir fabricID) with
  | Err e => (fs, Err ("creating anchor directory: " +:+ e))
  | Ok _ => match WriteFile (revocationPath fabricID) data fs with
            | (fs1, Err e) => (fs1, Err ("writing revocation snapshot: " +:+ e))
            | (fs1, Ok _) => (fs1, Ok tt)
            end
  end.
Definition ReadRevocationSnapshot (fabricID : string) (fs : FS) : result string bytes :=
  match ReadFile (revocationPath fabricID) fs with
  | Err e => Err ("no revocation snapshot for fabric " +:+ fabricID +:+ ": " +:+ e)
  | Ok d => Ok d
  end.
Definition WriteAuditBuffer (fabricID : string) (data : bytes) (fs : FS) : FS * result string unit :=
  match MkdirAll (fabricDir fabricID) with
  | Err e => (fs, Err ("creating anchor directory: " +:+ e))
  | Ok _ => match WriteFile (auditPath fabricID) data fs with
            | (fs1, Err e) => (fs1, Err ("writing audit buffer: " +:+ e))
            | (fs1, Ok _) => (fs1, Ok tt)
            end
  end.

(** ** The paths do not clash *)

Lemma prefix_app_inv (p a b : string) : p +:+ a = p +:+ b -> a = b.
Proof. apply (inj (String.app p)). Qed.

Lemma latest_ne_archive id seq : latestPath id <> archivePath id seq.
Proof.
  unfold latestPath, archivePath, archiveDir, join. cbn [String.concat].
  rewrite <- !str_app_assoc. cbn. intros H%prefix_app_inv. done.
Qed.

(** The last character of a path. *)
Fixpoint last_char (s : string) : option Ascii.ascii :=
  match s with
  | EmptyString => None
  | String a EmptyString => Some a
  | String _ s' => last_char s'
  end.
Lemma last_char_app s a t : last_char (s +:+ String a t) = last_char (String a t).
Proof.
  induction s as [|b s IH]; [done|]. rewrite <- IH.
  change (String b s +:+ String a t) with (String b (s +:+ String a t)).
  destruct (s +:+ String a t) eqn:E; [by destruct s|done].
Qed.

Lemma revocation_path_last id : last_char (revocationPath id) = Some "n"%char.
Proof. unfold revocationPath, join. cbn [String.concat]. by rewrite !str_app_assoc, last_char_app. Qed.
Lemma latest_path_last id : last_char (latestPath id) = Some "l"%char.
Proof. unfold latestPath, join. cbn [String.concat]. by rewrite !str_app_assoc, last_char_app. Qed.
Lemma archive_path_last id seq : last_char (archivePath id seq) = Some "l"%char.
Proof.
  unfold archivePath, join. cbn [String.concat].
  replace ("soul-manifest-" +:+ pretty seq +:+ ".yaml") with (("soul-manifest-" +:+ pretty seq) +:+ ".yaml")
    by (by rewrite str_app_assoc).
  by rewrite !str_app_assoc, last_char_app.
Qed.

Lemma WriteManifest_ok m fs fs' :
  WriteManifest m fs = (fs', Ok tt) ->
  exists d, yaml_Marshal m = Ok d /\
    fs' = <[archivePath (md_FabricID (meta m)) (md_Sequence (meta m)) := d]>
            (<[latestPath (md_FabricID (meta m)) := d]> fs).
Proof.
  unfold WriteManifest, WriteFile. destruct (MkdirAll _); [|done]. destruct (yaml_Marshal m) as [d|]; [|done].
  destruct (write_err faults (latestPath _)) as [[? ?]|]; [done|].
  destruct (write_err faults (archivePath _ _)) as [[? ?]|]; [done|]. intros [= <-]. by exists d.
Qed.

#[export] Instance FS_Anchor : Anchor FS.
Proof using All.
  refine {| an_WriteManifest := WriteManifest; an_ReadManifest := ReadManifest;
            an_WriteRevocationSnapshot := WriteRevocationSnapshot;
            an_ReadRevocationSnapshot := ReadRevocationSnapshot |}.
  - intros m s s' (d & Hd & ->)%WriteManifest_ok. unfold ReadManifest, ReadFile.
    rewrite lookup_insert_ne by apply not_eq_sym, latest_ne_archive. rewrite lookup_insert_eq.
    by rewrite (yaml_roundtrip _ _ Hd).
  - intros id d s s'. unfold WriteRevocationSnapshot, WriteFile, ReadRevocationSnapshot, ReadFile.
    destruct (MkdirAll _); [|done]. destruct (write_err faults _) as [[? ?]|]; [done|]. intros [= <-].
    by rewrite lookup_insert_eq.
  - intros m s s' id (d & Hd & ->)%WriteManifest_ok. unfold ReadRevocationSnapshot, ReadFile.
    rewrite !lookup_insert_ne; [done|..].
    + intros Heq. pose proof (latest_path_last (md_FabricID (meta m))) as H1. rewrite Heq, revocation_path_last in H1. done.
    + intros Heq. pose proof (archive_path_last (md_FabricID (meta m)) (md_Sequence (meta m))) as H1.
      rewrite Heq, revocation_path_last in H1. done.
Defined.

(** ** A missing manifest is a fresh install *)

Lemma searchSubstr_eq s sub :
  searchSubstr s sub = String.prefix sub s || match s with EmptyString => false | String _ s' => searchSubstr s' sub end.
Proof. by destruct s. Qed.

Lemma searchSubstr_app a sub b : searchSubstr (a +:+ sub +:+ b) sub = true.
Proof.
  induction a as [|c a IH].
  - change ("" +:+ sub +:+ b) with (sub +:+ b). by rewrite searchSubstr_eq, prefix_app.
  - change (String c a +:+ sub +:+ b) with (String c (a +:+ sub +:+ b)).
    rewrite searchSubstr_eq, IH. apply orb_true_r.
Qed.

Lemma isNotFound_missing a b : isNotFound (a +:+ "no such file" +:+ b) = true.
Proof.
  unfold isNotFound. apply existsb_exists. exists "no such file". split; [by right; left|].
  unfold containsSubstring. rewrite searchSubstr_app, andb_true_r, !length_append. apply Nat.leb_le. lia.
Qed.

Lemma fresh_install now fabricID fs :
  fs !! latestPath fabricID = None -> Recover now fabricID fs = Ok FreshInstall.
Proof using All.
  intros Hn. unfold Recover. cbn [an_ReadManifest FS_Anchor]. unfold ReadManifest, ReadFile. rewrite Hn.
  replace ("no manifest found for fabric " +:+ fabricID +:+ ": " +:+ ("open " +:+ latestPath fabricID +:+ ": no such file or directory"))
    with (("no manifest found for fabric " +:+ fabricID +:+ ": open " +:+ latestPath fabricID +:+ ": ") +:+ "no such file" +:+ " or directory")
    by (rewrite <- !str_app_assoc; done).
  by rewrite isNotFound_missing.
Qed.
End FS.

(** * Restart with the in-memory revocation index *)

Section Restart.
Context {S : Type} `{!Anchor S} `{!RangeOrder}.
Import Revocation.
Variable marshal_entries : list RevocationEntry -> result string bytes.
Variable marshal_snapshot : Revocation.RevocationSnapshot -> result string bytes.
Variable unmarshal_snapshot : bytes -> result string Revocation.RevocationSnapshot.
Variable sha256_hex : bytes -> string.

(** The index as the keeper sees it at a time. *)
Definition exporterOf (te : Time) (idx : InMemoryRevocationIndex) : RevocationExporter :=
  {| ex_Export := Export marshal_entries marshal_snapshot sha256_hex te idx;
     ex_Hash := Hash marshal_entries sha256_hex idx; ex_Len := Z.of_nat (Len idx) |}.

Lemma restart_recovery now exported te idx k s k' s' es later :
  wf idx -> (forall x d, marshal_snapshot x = Ok d -> unmarshal_snapshot d = Ok x) ->
  Snapshot now exported (Some (exporterOf te idx)) k s = (k', s', es, Ok tt) ->
  k_fabricID k <> "" -> 0 <= k_sequence k < two64 - 1 -> named_keys (k_signingKeys k) ->
  exists d idx', Recover later (k_fabricID k) s' =
      Ok (Recovery (buildManifest now exported k' (Some (exporterOf te idx))) (Some d) (Sub later now)) /\
    k_sequence k' = k_sequence k + 1 /\
    Import marshal_entries unmarshal_snapshot sha256_hex d NewRevocationIndex = Ok idx' /\
    forall t sub, te <= t -> IsRevoked t sub idx' = IsRevoked t sub idx.
Proof.
  intros Hw Hrt Hs Hid Hseq Hk. pose proof (snapshot_ok _ _ _ _ _ _ _ _ Hs) as (_ & _ & _ & He).
  destruct (He _ eq_refl) as [d Hd]. cbn in Hd.
  destruct (snapshot_recovery _ _ _ _ _ _ _ _ later d Hs Hid Hseq Hk Hd) as [Hr Hq].
  assert (exists idx', Import marshal_entries unmarshal_snapshot sha256_hex d NewRevocationIndex = Ok idx') as [idx' Hi].
  { unfold Export in Hd. destruct (marshal_entries _) as [ej|] eqn:Hm; [|done]. cbn in Hd.
    unfold Import. rewrite (Hrt _ _ Hd). cbn. rewrite Hm. cbn. rewrite String.eqb_refl. by eexists. }
  exists d, idx'. split; [exact Hr|]. split; [done|]. split; [done|]. intros t sub Ht.
  by eapply (export_import_answers marshal_entries marshal_snapshot unmarshal_snapshot sha256_hex te t).
Qed.

(** Revocations survive a restart. After a successful snapshot, recovery gives data that a new index
    imports, and from then on that index answers for every subject as the old one would have. *)
Theorem restart_keeps_revocations now exported te idx k s k' s' es later :
  wf idx -> (forall x d, marshal_snapshot x = Ok d -> unmarshal_snapshot d = Ok x) ->
  Snapshot now exported (Some (exporterOf te idx)) k s = (k', s', es, Ok tt) ->
  k_fabricID k <> "" -> 0 <= k_sequence k < two64 - 1 -> named_keys (k_signingKeys k) ->
  exists m d gap idx', Recover later (k_fabricID k) s' = Ok (Recovery m (Some d) gap) /\
    Import marshal_entries unmarshal_snapshot sha256_hex d NewRevocationIndex = Ok idx' /\
    forall t sub, te <= t -> IsRevoked t sub idx' = IsRevoked t sub idx.
Proof.
  intros Hw Hrt Hs Hid Hseq Hk.
  destruct (restart_recovery _ _ _ _ _ _ _ _ _ later Hw Hrt Hs Hid Hseq Hk) as (d & idx' & Hr & _ & Hi & Ha).
  by eexists _, d, _, idx'.
Qed.
End Restart.


(** * Examples *)

(** A concrete encoding of manifests. *)
Definition key_tuple (k : SigningKeyRef) := (sk_KMSKeyID k, sk_Algorithm k, sk_KID k, sk_Status k).
Definition tuple_key (t : string * string * string * string) : SigningKeyRef :=
  {| sk_KMSKeyID := t.1.1.1; sk_Algorithm := t.1.1.2; sk_KID := t.1.2; sk_Status := t.2 |}.
Definition domain_tuple (d : TrustDomainSpec) := (td_Name d, td_Type d, td_Issuer d, td_JWKSURL d, td_Enabled d).
Definition tuple_domain (t : string * string * string * string * bool) : TrustDomainSpec :=
  {| td_Name := t.1.1.1.1; td_Type := t.1.1.1.2; td_Issuer := t.1.1.2; td_JWKSURL := t.1.2; td_Enabled := t.2 |}.
Definition stream_tuple (x : SSFStreamSpec) := (ss_StreamID x, ss_Transmitter x, ss_EventsRequested x).
Definition tuple_stream (t : string * string * list string) : SSFStreamSpec :=
  {| ss_StreamID := t.1.1; ss_Transmitter := t.1.2; ss_EventsRequested := t.2 |}.
Definition peer_tuple (p : FederationPeer) := (fp_FabricID p, fp_LastSeen p, fp_KeyCount p, fp_RevocationHash p).
Definition tuple_peer (t : string * Z * Z * string) : FederationPeer :=
  {| fp_FabricID := t.1.1.1; fp_LastSeen := t.1.1.2; fp_KeyCount := t.1.2; fp_RevocationHash := t.2 |}.
Definition head_tuple (m : SoulManifest) :=
  (APIVersion m, Kind m, md_FabricID (meta m), md_GeneratedAt (meta m), md_Sequence (meta m),
   rv_Count (Revocations m), rv_Hash (Revocations m), rv_ExportedAt (Revocations m),
   as_LastFlushedSequence (Audit m), as_ExternalSink (Audit m)).
Definition manifest_tuple (m : SoulManifest) :=
  (head_tuple m, key_tuple <$> Soul.SigningKeys m, domain_tuple <$> Soul.TrustDomains m,
   stream_tuple <$> SSFStreams m, peer_tuple <$> Peers m).
Definition tuple_manifest (t : string * string * string * Z * Z * Z * string * Z * Z * string *
    list (string * string * string * string) * list (string * string * string * string * bool) *
    list (string * string * list string) * list (string * Z * Z * string)) : SoulManifest :=
  let h := t.1.1.1.1 in
  {| APIVersion := h.1.1.1.1.1.1.1.1.1; Kind := h.1.1.1.1.1.1.1.1.2;
     meta := {| md_FabricID := h.1.1.1.1.1.1.1.2; md_GeneratedAt := h.1.1.1.1.1.1.2; md_Sequence := h.1.1.1.1.1.2 |};
     Soul.SigningKeys := tuple_key <$> t.1.1.1.2; Soul.TrustDomains := tuple_domain <$> t.1.1.2;
     Revocations := {| rv_Count := h.1.1.1.1.2; rv_Hash := h.1.1.1.2; rv_ExportedAt := h.1.1.2 |};
     SSFStreams := tuple_stream <$> t.1.2; Peers := tuple_peer <$> t.2;
     Audit := {| as_LastFlushedSequence := h.1.2; as_ExternalSink := h.2 |} |}.

Lemma fmap_roundtrip {A B} (f : A -> B) (g : B -> A) (l : list A) : (forall x, g (f x) = x) -> g <$> (f <$> l) = l.
Proof. intros H. induction l as [|x l IH]; [done|]. cbn. by rewrite H, IH. Qed.

Lemma tuple_manifest_id m : tuple_manifest (manifest_tuple m) = m.
Proof.
  destruct m as [v kd [fi ga sq] ks ds [rc rh re] ss ps [al ae]]. unfold tuple_manifest, manifest_tuple. cbn -[fmap].
  rewrite !fmap_roundtrip; [done|by intros []..].
Qed.

Definition demo_marshal (m : SoulManifest) : result string bytes :=
  Ok (Revocation.demo_bytes (encode (manifest_tuple m))).
Definition demo_unmarshal (d : bytes) : result string SoulManifest :=
  match JwtModel.string_pos (String.string_of_list_byte d) ≫= decode with
  | Some t => Ok (tuple_manifest t)
  | None => Err "bad manifest"
  end.
Lemma demo_yaml m d : demo_marshal m = Ok d -> demo_unmarshal d = Ok m.
Proof. intros [= <-]. unfold demo_unmarshal. rewrite Revocation.demo_decode. by rewrite tuple_manifest_id. Qed.

Definition demo_faults : Faults := {| mkdir_err := fun _ => None; write_err := fun _ => None |}.
#[local] Instance demo_anchor : Anchor (gmap string bytes) :=
  FS_Anchor "/soul" demo_faults demo_marshal demo_unmarshal demo_yaml.
#[local] Existing Instance key_order.

Definition demo_key : SigningKeyRef :=
  {| sk_KMSKeyID := "arn"; sk_Algorithm := "RS256"; sk_KID := "k1"; sk_Status := "active" |}.
Definition demo_keeper (ks : list SigningKeyRef) : Keeper :=
  {| k_fabricID := "eu"; k_interval := Minute; k_unitID := "u1"; k_bus := true; k_onSnapshot := true;
     k_sequence := 41; k_signingKeys := ks; k_trustDomains := []; k_auditState := noAudit |}.
Definition demo_rev : RevocationExporter :=
  exporterOf Revocation.demo_marshal Revocation.demo_marshal_snap Revocation.demo_sha 10 Revocation.demo_idx.

Lemma snapshot_parts {S} `{!Anchor S} now exported rev k (s : S) :
  is_ok (Snapshot now exported rev k s).2 = true ->
  Snapshot now exported rev k s =
  ((Snapshot now exported rev k s).1.1.1, (Snapshot now exported rev k s).1.1.2, (Snapshot now exported rev k s).1.2, Ok tt).
Proof. destruct (Snapshot now exported rev k s) as [[[? ?] ?] [[]|]]; done. Qed.

Lemma demo_snapshot_ok ks : is_ok (Snapshot 100 101 (Some demo_rev) (demo_keeper ks) ∅).2 = true.
Proof. reflexivity. Qed.
Definition demo_after (ks : list SigningKeyRef) : Keeper * gmap string bytes * list KeeperEffect * result KeeperErr unit :=
  Snapshot 100 101 (Some demo_rev) (demo_keeper ks) ∅.

Lemma demo_named : named_keys [demo_key].
Proof. split; [done|]. by apply Forall_singleton. Qed.

Definition demo_data : bytes := match ex_Export demo_rev with Ok d => d | Err _ => [] end.
Lemma demo_export : ex_Export demo_rev = Ok demo_data.
Proof. vm_compute. reflexivity. Qed.

(** A keeper with a trust domain and an audit position; what recovery gives back. *)
Definition demo_full_keeper : Keeper :=
  SetAuditState {| as_LastFlushedSequence := 7; as_ExternalSink := "s3" |}
    (SetIdentity [demo_key]
       [{| td_Name := "corp"; td_Type := "oidc"; td_Issuer := "https://idp"; td_JWKSURL := ""; td_Enabled := true |}]
       (demo_keeper [])).
Lemma demo_full_ok : is_ok (Snapshot 100 101 (Some demo_rev) demo_full_keeper ∅).2 = true.
Proof. reflexivity. Qed.


Lemma keyless_snapshot_unrecoverable_witness :
  Recover 200 "eu" (demo_after []).1.1.2 = Err (ErrInvalid ErrNoSigningKey).
Proof.
  refine (keyless_snapshot_unrecoverable 100 101 (Some demo_rev) (demo_keeper []) ∅ _ _ _ 200
    (snapshot_parts _ _ _ _ _ (demo_snapshot_ok _)) _ _ _); [done|by vm_compute|done].
Defined.

Lemma sequence_counts_snapshots_witness :
  k_sequence (run [{| tk_now := 1; tk_exported := 1; tk_rev := None |}] (demo_keeper []) ∅).1 = 42.
Proof. apply (sequence_counts_snapshots [{| tk_now := 1; tk_exported := 1; tk_rev := None |}] (demo_keeper []) ∅); by vm_compute. Defined.

Lemma restart_keeps_revocations_witness :
  exists m d gap idx', Recover 200 "eu" (demo_after [demo_key]).1.1.2 = Ok (Recovery m (Some d) gap) /\
    Revocation.Import Revocation.demo_marshal Revocation.demo_unmarshal_snap Revocation.demo_sha d
      Revocation.NewRevocationIndex = Ok idx' /\
    forall t sub, 10 <= t -> Revocation.IsRevoked t sub idx' = Revocation.IsRevoked t sub Revocation.demo_idx.
Proof.
  apply (restart_keeps_revocations Revocation.demo_marshal Revocation.demo_marshal_snap
    Revocation.demo_unmarshal_snap Revocation.demo_sha 100 101 10 Revocation.demo_idx (demo_keeper [demo_key]) ∅
    _ _ _ 200 Revocation.demo_idx_wf Revocation.demo_roundtrip (snapshot_parts _ _ _ _ _ (demo_snapshot_ok _)));
    [done|by vm_compute|apply demo_named].
Defined.
End SoulKeeper.
