(* ===== verification/Operator.v ===== *)
(** The operator ([pkg/operator]): the conversion of a fabric resource to a manifest, the execution of a
    convergence plan, the in-process connection to the running fabric, the status conditions and
    one reconciliation. Kubernetes, the clock, random bytes and URLs are arguments. *)
From Stdlib Require Import ZArith Lia.
From stdpp Require Import base gmap strings list sorting.
From S2P Require Import Prelude.
From S2P Require Import GoLib.
From S2P Require Import JwtModel.
From S2P Require Import Core.
From S2P Require Import FedTypes.
From S2P Require Import Keyring.
From S2P Require Import Revocation.
From S2P Require Import Transmitter.
From S2P Require Import Soul.
From S2P Require Import SoulKeeper.

#[local] Open Scope string_scope.
#[local] Open Scope list_scope.
#[local] Open Scope Z_scope.

Module Operator.
Import Soul.

(** * Executing a plan ([applier.go]) *)

(** The phase of an action. *)
Definition isKeyAction (a : ConvergenceAction) : bool := bool_decide (ac_Type a = ActionRotateSigningKey).
Definition isDomainAction (a : ConvergenceAction) : bool :=
  match ac_Type a with
  | ActionAddTrustDomain | ActionUpdateTrustDomain | ActionRemoveTrustDomain => true
  | _ => false
  end.
Definition isStreamAction (a : ConvergenceAction) : bool :=
  match ac_Type a with ActionAddSSFStream | ActionRemoveSSFStream => true | _ => false end.
Definition isPeerAction (a : ConvergenceAction) : bool :=
  match ac_Type a with ActionAddPeer | ActionRemovePeer => true | _ => false end.
Definition isRevocationAction (a : ConvergenceAction) : bool :=
  match ac_Type a with ActionImportRevocations | ActionResetRevocations => true | _ => false end.

(** [sortActions]: five passes over the plan. *)
Definition sortActions (actions : list ConvergenceAction) : list ConvergenceAction :=
  List.filter isKeyAction actions ++ List.filter isDomainAction actions ++
  List.filter isStreamAction actions ++ List.filter isPeerAction actions ++
  List.filter isRevocationAction actions.

(** [ApplyResult], without the duration. *)
Record ApplyResult : Type := { ActionsApplied : nat; ActionsTotal : nat }.

(** [FabricConnection.ApplyAction]: what the executor needs of a connection. *)
Class Connection (C : Type) : Type := {
  conn_Err : Type;
  conn_ApplyAction : ConvergenceAction -> C -> C * result conn_Err unit;
}.

(** The failure of a plan: the action, how many were applied before it, and its error. *)
Record PlanErr (E : Type) : Type := { pe_action : ConvergenceAction; pe_applied : nat; pe_err : E }.
Arguments pe_action {E}.
Arguments pe_applied {E}.
Arguments pe_err {E}.

(** [ExecutePlan]: the actions in order until one fails. *)
Fixpoint executeFrom {C} `{!Connection C} (applied : nat) (actions : list ConvergenceAction) (c : C)
    : C * (nat * option (PlanErr conn_Err)) :=
  match actions with
  | [] => (c, (applied, None))
  | a :: rest =>
      match conn_ApplyAction a c with
      | (c', Err e) => (c', (applied, Some {| pe_action := a; pe_applied := applied; pe_err := e |}))
      | (c', Ok _) => executeFrom (S applied) rest c'
      end
  end.
Definition ExecutePlan {C} `{!Connection C} (plan : list ConvergenceAction) (c : C)
    : C * (ApplyResult * option (PlanErr conn_Err)) :=
  match plan with
  | [] => (c, ({| ActionsApplied := O; ActionsTotal := O |}, None))
  | _ =>
      let ordered := sortActions plan in
      let '(c', (n, err)) := executeFrom O ordered c in
      (c', ({| ActionsApplied := n; ActionsTotal := length ordered |}, err))
  end.

(** * Facts on the order *)

Definition phase (a : ConvergenceAction) : nat :=
  if isKeyAction a then 1%nat else if isDomainAction a then 2%nat else if isStreamAction a then 3%nat
  else if isPeerAction a then 4%nat else 5%nat.

Lemma filter_app_perm {A} (f g : A -> bool) (l : list A) :
  (forall x, x ∈ l -> f x && g x = false) ->
  Permutation (List.filter (fun x => f x || g x) l) (List.filter f l ++ List.filter g l).
Proof.
  induction l as [|x l IH]; intros Hd; [done|]. cbn.
  assert (IHl := IH (fun y Hy => Hd y (list_elem_of_further _ _ _ Hy))).
  specialize (Hd x (list_elem_of_here _ _)). destruct (f x), (g x); try done; cbn.
  - by constructor.
  - rewrite IHl. apply Permutation_middle.
Qed.

Lemma filter_all {A} (f : A -> bool) (l : list A) : (forall x, f x = true) -> List.filter f l = l.
Proof. intros Hf. induction l as [|x l IH]; [done|]. cbn. by rewrite Hf, IH. Qed.

(** The five passes lose and duplicate nothing. *)
Lemma sortActions_perm actions : Permutation (sortActions actions) actions.
Proof.
  unfold sortActions.
  rewrite <- (filter_app_perm isPeerAction isRevocationAction) by (intros [[] t] _; done).
  rewrite <- (filter_app_perm isStreamAction) by (intros [[] t] _; done).
  rewrite <- (filter_app_perm isDomainAction) by (intros [[] t] _; done).
  rewrite <- (filter_app_perm isKeyAction) by (intros [[] t] _; done).
  rewrite filter_all; [done|]. by intros [[] t].
Qed.

(** Every action runs after all actions of the earlier phases. *)
Lemma StronglySorted_app_le {A} (R : A -> A -> Prop) (l k : list A) :
  StronglySorted R l -> StronglySorted R k -> (forall x y, x ∈ l -> y ∈ k -> R x y) -> StronglySorted R (l ++ k).
Proof.
  induction l as [|x l IH]; intros Hl Hk Hc; [done|]. cbn. apply StronglySorted_inv in Hl as [Hl Hx]. constructor.
  - apply IH; [done..|]. set_solver.
  - rewrite Forall_app. split; [done|]. apply Forall_forall. intros y Hy. apply Hc; [set_solver|done].
Qed.

Lemma StronglySorted_const {A} (f : A -> nat) (l : list A) n :
  (forall x, x ∈ l -> f x = n) -> StronglySorted (fun x y => f x <= f y)%nat l.
Proof.
  induction l as [|x l IH]; intros Hc; [constructor|]. constructor; [apply IH; set_solver|].
  apply Forall_forall. intros y Hy. rewrite (Hc x), (Hc y) by set_solver. done.
Qed.

Lemma elem_of_filter_bool {A} (f : A -> bool) (l : list A) x : x ∈ List.filter f l <-> x ∈ l /\ f x = true.
Proof. rewrite !list_elem_of_In. apply filter_In. Qed.

Lemma sortActions_sorted actions : StronglySorted (fun a b => phase a <= phase b)%nat (sortActions actions).
Proof.
  assert (Hp : forall f n, (forall a, f a = true -> phase a = n) ->
    forall a, a ∈ List.filter f actions -> phase a = n).
  { intros f n Hf a [_ Ha]%elem_of_filter_bool. by apply Hf. }
  assert (H1 := Hp isKeyAction 1%nat ltac:(intros [[] t]; done || (cbn; discriminate))).
  assert (H2 := Hp isDomainAction 2%nat ltac:(intros [[] t]; done || (cbn; discriminate))).
  assert (H3 := Hp isStreamAction 3%nat ltac:(intros [[] t]; done || (cbn; discriminate))).
  assert (H4 := Hp isPeerAction 4%nat ltac:(intros [[] t]; done || (cbn; discriminate))).
  assert (H5 := Hp isRevocationAction 5%nat ltac:(intros [[] t]; done || (cbn; discriminate))).
  unfold sortActions.
  repeat apply StronglySorted_app_le; try (eapply StronglySorted_const; eassumption);
    intros x y Hx Hy; rewrite ?elem_of_app in Hy;
    destruct_or? Hy;
    repeat match goal with
    | Hin : ?z ∈ List.filter ?f actions, Hf : forall a, a ∈ List.filter ?f actions -> phase a = _ |- _ =>
        apply Hf in Hin
    end; lia.
Qed.

(** * The execution *)

Section Execute.
Context {C : Type} `{!Connection C}.

(** The state after a list of actions that all succeed. *)
Fixpoint applied_all (actions : list ConvergenceAction) (c c' : C) : Prop :=
  match actions with
  | [] => c' = c
  | a :: rest => exists c1, conn_ApplyAction a c = (c1, Ok tt) /\ applied_all rest c1 c'
  end.

Lemma applied_all_app l k c c' : applied_all (l ++ k) c c' <-> exists c1, applied_all l c c1 /\ applied_all k c1 c'.
Proof.
  revert c. induction l as [|a l IH]; intros c; cbn; [naive_solver|].
  setoid_rewrite IH. naive_solver.
Qed.

Lemma executeFrom_spec actions : forall n c c' m err,
  executeFrom n actions c = (c', (m, err)) ->
  match err with
  | None => m = (n + length actions)%nat /\ applied_all actions c c'
  | Some pe => pe_applied pe = m /\ exists pre post c1, actions = pre ++ pe_action pe :: post /\
      m = (n + length pre)%nat /\ applied_all pre c c1 /\ conn_ApplyAction (pe_action pe) c1 = (c', Err (pe_err pe))
  end.
Proof.
  induction actions as [|a rest IH]; intros n c c' m err; cbn.
  - intros [= <- <- <-]. split; [lia|done].
  - destruct (conn_ApplyAction a c) as [c1 [[]|e]] eqn:Ha.
    + intros He%IH. destruct err as [pe|].
      * destruct He as (Hm & pre & post & c2 & -> & -> & Hpre & Hfail). split; [done|].
        exists (a :: pre), post, c2. split_and!; [done|cbn; lia| |done]. by exists c1.
      * destruct He as [-> Hall]. split; [cbn; lia|]. by exists c1.
    + intros [= <- <- <-]. split; [done|]. exists [], rest, c. split_and!; [done|cbn; lia|done|done].
Qed.

Lemma executeFrom_app l k : forall n c,
  executeFrom n (l ++ k) c =
  match executeFrom n l c with
  | (c', (m, None)) => executeFrom m k c'
  | r => r
  end.
Proof.
  induction l as [|a l IH]; intros n c; [done|]. cbn. destruct (conn_ApplyAction a c) as [c1 [[]|e]]; [apply IH|done].
Qed.

Lemma executeFrom_all l : forall n c c', applied_all l c c' -> executeFrom n l c = (c', ((n + length l)%nat, None)).
Proof.
  induction l as [|a l IH]; intros n c c'; cbn; [intros ->; by rewrite Nat.add_0_r|].
  intros (c1 & -> & Hl). rewrite (IH (S n) _ _ Hl). by rewrite Nat.add_succ_r.
Qed.

(** Executing a plan runs all of its actions in the order of the phases (keys, domains, streams,
    peers, revocations) until the first failure: on success every action of the plan was applied,
    on failure exactly the actions before the failing one were, as the result reports. *)
Theorem plan_executes_prefix plan c c' r err :
  ExecutePlan plan c = (c', (r, err)) ->
  exists ordered, Permutation ordered plan /\ StronglySorted (fun a b => phase a <= phase b)%nat ordered /\
  ActionsTotal r = length plan /\
  match err with
  | None => ActionsApplied r = length plan /\ applied_all ordered c c'
  | Some pe => pe_applied pe = ActionsApplied r /\ exists pre post c1, ordered = pre ++ pe_action pe :: post /\
      ActionsApplied r = length pre /\ applied_all pre c c1 /\
      conn_ApplyAction (pe_action pe) c1 = (c', Err (pe_err pe))
  end.
Proof.
  intros He. exists (sortActions plan). split; [apply sortActions_perm|]. split; [apply sortActions_sorted|].
  unfold ExecutePlan in He. destruct plan as [|a plan]; [by injection He as <- <- <-|].
  rewrite <- (Permutation_length (sortActions_perm (a :: plan))).
  destruct (executeFrom O (sortActions (a :: plan)) c) as [c1 [n err1]] eqn:Hx.
  injection He as <- <- <-. cbn [ActionsTotal ActionsApplied]. split; [done|]. by apply executeFrom_spec in Hx.
Qed.
End Execute.

(** * The connection to the running fabric ([inprocess.go]) *)

Definition fromBoot (td : TrustDomain) : TrustDomainSpec :=
  {| td_Name := ct_Name td; td_Type := ""; td_Issuer := ct_Issuer td; td_JWKSURL := ct_JWKSURL td;
     td_Enabled := ct_Enabled td |}.

Inductive ApplyErr : Type :=
| ErrNoKeyring | ErrMissingKid | ErrKeyring (e : Keyring.KeyringErr)
| ErrNotDesired (name : string) | ErrDomainNotFound (name : string)
| ErrNoTransmitter | ErrMissingStreamID | ErrTransmitter (e : Transmitter.TxErr).

(** [HealthStatus] *)
Record HealthStatus : Type := {
  Healthy : bool; hs_TrustDomainsActive : nat; hs_SigningKeysActive : nat; hs_SSFStreamsActive : nat;
  hs_SoulSequence : Z;
}.

(** The loop of [applyTrustDomainChange]: the first domain of the name is replaced. *)
Fixpoint replaceFirst (name : string) (spec : TrustDomainSpec) (ds : list TrustDomainSpec) : option (list TrustDomainSpec) :=
  match ds with
  | [] => None
  | d :: rest => if (td_Name d =? name)%string then Some (spec :: rest)
                 else match replaceFirst name spec rest with
                      | Some rest' => Some (d :: rest')
                      | None => None
                      end
  end.

(** [ds] holds exactly the domains of [m], each once. *)
Definition represents (ds : list TrustDomainSpec) (m : gmap string TrustDomainSpec) : Prop :=
  NoDup (td_Name <$> ds) /\ forall n d, m !! n = Some d <-> d ∈ ds /\ td_Name d = n.

Lemma represents_index ds : NoDup (td_Name <$> ds) -> represents ds (index td_Name ds).
Proof. intros Hnd. split; [done|]. intros n d. by apply index_lookup. Qed.

Lemma index_represented ds m : represents ds m -> index td_Name ds = m.
Proof.
  intros [Hnd Hm]. apply map_eq. intros n. apply option_eq. intros d. by rewrite Hm, index_lookup.
Qed.

Lemma replaceFirst_Some name spec ds : forall ds',
  replaceFirst name spec ds = Some ds' -> NoDup (td_Name <$> ds) -> td_Name spec = name ->
  td_Name <$> ds' = td_Name <$> ds /\ (forall x, x ∈ ds' <-> x = spec \/ (x ∈ ds /\ td_Name x <> name)).
Proof.
  induction ds as [|d ds IH]; intros ds' Hr Hnd Hs; cbn in Hr; [done|].
  apply NoDup_cons in Hnd as [Hd Hnd]. destruct (String.eqb_spec (td_Name d) name) as [He|He].
  - injection Hr as <-. split; [cbn; congruence|]. intros x. rewrite !elem_of_cons. split.
    + intros [->|Hx]; [by left|right]. split; [by right|]. intros Hn. apply Hd. rewrite He, <- Hn.
      by apply list_elem_of_fmap_2.
    + intros [->|[[->|Hx] Hn]]; [by left|done|by right].
  - destruct (replaceFirst name spec ds) as [rest|] eqn:Hrest; [|done]. injection Hr as <-.
    destruct (IH rest eq_refl Hnd Hs) as [Hnames Hin]. split; [cbn; by rewrite Hnames|].
    intros x. rewrite !elem_of_cons, Hin. naive_solver.
Qed.

Lemma replaceFirst_None name spec ds : replaceFirst name spec ds = None -> name ∉ td_Name <$> ds.
Proof.
  induction ds as [|d ds IH]; cbn; [set_solver|]. destruct (String.eqb_spec (td_Name d) name) as [He|He]; [done|].
  destruct (replaceFirst name spec ds); [done|]. intros _. rewrite elem_of_cons. intros [?|?]; [done|by apply IH].
Qed.

Lemma represents_change ds m name spec :
  represents ds m -> td_Name spec = name ->
  represents (match replaceFirst name spec ds with Some ds' => ds' | None => ds ++ [spec] end) (<[name := spec]> m).
Proof.
  intros [Hnd Hm] Hs. destruct (replaceFirst name spec ds) as [ds'|] eqn:Hr.
  - apply replaceFirst_Some in Hr as [Hnames Hin]; [|done..]. split; [by rewrite Hnames|].
    intros n d. rewrite lookup_insert_Some, Hm, Hin. split.
    + intros [[<- <-]|[Hn [Hd Hk]]]; [by split; [left|]|]. split; [|done]. right. by subst n.
    + intros [[Hd|[Hd Hn]] Hk]; [left; by subst|right]. split; [congruence|done].
  - apply replaceFirst_None in Hr. split.
    + rewrite fmap_app. cbn. apply NoDup_app. split; [done|]. split; [|apply NoDup_singleton].
      intros n Hn. rewrite list_elem_of_singleton. congruence.
    + intros n d. rewrite lookup_insert_Some, Hm, elem_of_app, list_elem_of_singleton. split.
      * intros [[<- <-]|[Hn [Hd Hk]]]; [by split; [right|]|]. split; [by left|done].
      * intros [[Hd|Hd] Hk]; [right|left; by subst]. split; [|done]. intros ->. apply Hr. rewrite <- Hk.
        by apply list_elem_of_fmap_2.
Qed.

Lemma represents_remove ds m name :
  represents ds m -> represents (List.filter (fun d => negb (td_Name d =? name)%string) ds) (delete name m).
Proof.
  intros [Hnd Hm]. split.
  - clear Hm. induction ds as [|d ds IH]; cbn; [constructor|]. apply NoDup_cons in Hnd as [Hd Hnd].
    destruct (td_Name d =? name)%string; cbn; [by apply IH|]. apply NoDup_cons. split; [|by apply IH].
    rewrite list_elem_of_fmap. intros (x & Hx & [Hin _]%elem_of_filter_bool). apply Hd. rewrite Hx.
    by apply list_elem_of_fmap_2.
  - intros n d. rewrite lookup_delete_Some, Hm, elem_of_filter_bool, negb_true_iff, String.eqb_neq. naive_solver.
Qed.

Lemma find_desired spec n d :
  NoDup (td_Name <$> spec) -> index td_Name spec !! n = Some d ->
  List.find (fun d => td_Name d =? n)%string spec = Some d.
Proof.
  intros Hnd Hi%index_lookup; [|done]. destruct Hi as [Hin Hn].
  destruct (List.find (fun d => td_Name d =? n)%string spec) as [x|] eqn:Hf.
  - apply find_some in Hf as [Hx He%String.eqb_eq]. apply list_elem_of_In in Hx.
    assert (index td_Name spec !! n = Some x) by (by apply index_lookup).
    assert (index td_Name spec !! n = Some d) by (by apply index_lookup). congruence.
  - apply list_elem_of_In in Hin. apply (find_none _ _ Hf), String.eqb_neq in Hin. done.
Qed.

Section InProcess.
Context `{!JwtLib}.
Variable clock : nat -> Time.
Variable random : nat -> list Byte.byte.
Variable url_Parse : string -> result string Transmitter.URL.
Variable rev_Hash : Revocation.InMemoryRevocationIndex -> string.

(** [InProcessConnection]; a missing component is [None]. The identity registry is never used. *)
Record InProcessConnection : Type := {
  ip_fabricID : string;
  ip_keeper : option SoulKeeper.Keeper;
  ip_keyring : option Keyring.Keyring;
  ip_transmitter : option (Transmitter.Transmitter * Transmitter.TxState);
  ip_revIndex : option Revocation.InMemoryRevocationIndex;
  ip_trustDomains : list TrustDomain;
  ip_desiredSpec : option SoulManifest;
}.
Definition with_keeper (k : SoulKeeper.Keeper) (c : InProcessConnection) : InProcessConnection :=
  {| ip_fabricID := ip_fabricID c; ip_keeper := Some k; ip_keyring := ip_keyring c;
     ip_transmitter := ip_transmitter c; ip_revIndex := ip_revIndex c; ip_trustDomains := ip_trustDomains c;
     ip_desiredSpec := ip_desiredSpec c |}.
Definition with_keyring (kr : Keyring.Keyring) (c : InProcessConnection) : InProcessConnection :=
  {| ip_fabricID := ip_fabricID c; ip_keeper := ip_keeper c; ip_keyring := Some kr;
     ip_transmitter := ip_transmitter c; ip_revIndex := ip_revIndex c; ip_trustDomains := ip_trustDomains c;
     ip_desiredSpec := ip_desiredSpec c |}.
Definition with_streams (tx : Transmitter.Transmitter) (st : Transmitter.TxState) (c : InProcessConnection)
    : InProcessConnection :=
  {| ip_fabricID := ip_fabricID c; ip_keeper := ip_keeper c; ip_keyring := ip_keyring c;
     ip_transmitter := Some (tx, st); ip_revIndex := ip_revIndex c; ip_trustDomains := ip_trustDomains c;
     ip_desiredSpec := ip_desiredSpec c |}.

(** [NewInProcessConnection] and its options *)
Inductive InProcessOption : Type :=
| WithKeeper (k : SoulKeeper.Keeper)
| WithKeyring (kr : Keyring.Keyring)
| WithTransmitter (tx : Transmitter.Transmitter) (st : Transmitter.TxState)
| WithRevocationIndex (ri : Revocation.InMemoryRevocationIndex)
| WithTrustDomains (tds : list TrustDomain).
Definition applyOption (c : InProcessConnection) (o : InProcessOption) : InProcessConnection :=
  let '(Build_InProcessConnection f k kr tx ri tds d) := c in
  match o with
  | WithKeeper k' => Build_InProcessConnection f (Some k') kr tx ri tds d
  | WithKeyring kr' => Build_InProcessConnection f k (Some kr') tx ri tds d
  | WithTransmitter tx' st' => Build_InProcessConnection f k kr (Some (tx', st')) ri tds d
  | WithRevocationIndex ri' => Build_InProcessConnection f k kr tx (Some ri') tds d
  | WithTrustDomains tds' => Build_InProcessConnection f k kr tx ri tds' d
  end.
Definition NewInProcessConnection (fabricID : string) (opts : list InProcessOption) : InProcessConnection :=
  fold_left applyOption opts
    {| ip_fabricID := fabricID; ip_keeper := None; ip_keyring := None; ip_transmitter := None;
       ip_revIndex := None; ip_trustDomains := []; ip_desiredSpec := None |}.

(** [SetDesiredSpec] *)
Definition SetDesiredSpec (spec : SoulManifest) (c : InProcessConnection) : InProcessConnection :=
  {| ip_fabricID := ip_fabricID c; ip_keeper := ip_keeper c; ip_keyring := ip_keyring c;
     ip_transmitter := ip_transmitter c; ip_revIndex := ip_revIndex c; ip_trustDomains := ip_trustDomains c;
     ip_desiredSpec := Some spec |}.

(** [currentTrustDomains]: the keeper's, or those of the boot configuration when it has none. *)
Definition currentTrustDomains (c : InProcessConnection) : list TrustDomainSpec :=
  match ip_keeper c with
  | Some k => match SoulKeeper.TrustDomains k with
              | [] => fromBoot <$> ip_trustDomains c
              | domains => domains
              end
  | None => fromBoot <$> ip_trustDomains c
  end.

(** [CurrentManifest]: [now] is the time of the manifest, [exported] that of the snapshot. *)
Definition currentKeys (c : InProcessConnection) : list SigningKeyRef :=
  match ip_keyring c with
  | Some kr => [{| sk_KMSKeyID := ""; sk_Algorithm := "RS256"; sk_KID := Keyring.ActiveKid kr; sk_Status := "active" |}]
  | None => match ip_keeper c with Some k => SoulKeeper.SigningKeys k | None => [] end
  end.
Definition streamSpec (info : Transmitter.StreamInfo) : SSFStreamSpec :=
  {| ss_StreamID := Transmitter.in_StreamID info; ss_Transmitter := Transmitter.in_EndpointURL info;
     ss_EventsRequested := Transmitter.in_EventsRequested info |}.
Definition currentStreams (ord : RangeOrder) (c : InProcessConnection) : list SSFStreamSpec :=
  match ip_transmitter c with
  | Some (_, st) => streamSpec <$> @Transmitter.ListStreams ord st
  | None => []
  end.
Definition currentRevocations (exported : Time) (c : InProcessConnection) : RevocationSnapshot :=
  match ip_revIndex c with
  | Some ri => {| rv_Count := Z.of_nat (Revocation.Len ri); rv_Hash := rev_Hash ri; rv_ExportedAt := exported |}
  | None => noRevocations
  end.
Definition CurrentManifest (ord : RangeOrder) (now exported : Time) (c : InProcessConnection) : SoulManifest :=
  let seq := match ip_keeper c with Some k => SoulKeeper.Sequence k | None => 0 end in
  {| APIVersion := APIVersionV1; Kind := KindManifest;
     meta := {| md_FabricID := ip_fabricID c; md_GeneratedAt := now; md_Sequence := seq |};
     SigningKeys := currentKeys c; TrustDomains := currentTrustDomains c;
     Revocations := currentRevocations exported c; SSFStreams := currentStreams ord c;
     Peers := []; Audit := noAudit |}.

(** [persistTrustDomains] and [lookupDesiredDomain] *)
Definition persistTrustDomains (domains : list TrustDomainSpec) (c : InProcessConnection) : InProcessConnection :=
  match ip_keeper c with
  | Some k => with_keeper (SoulKeeper.SetIdentity (SoulKeeper.SigningKeys k) domains k) c
  | None => c
  end.
Definition lookupDesiredDomain (name : string) (c : InProcessConnection) : option TrustDomainSpec :=
  match ip_desiredSpec c with
  | Some m => List.find (fun d => td_Name d =? name)%string (TrustDomains m)
  | None => None
  end.

(** [applyTrustDomainChange] *)
Definition applyTrustDomainChange (name : string) (c : InProcessConnection) : InProcessConnection * result ApplyErr unit :=
  match lookupDesiredDomain name c with
  | None => (c, Err (ErrNotDesired name))
  | Some spec =>
      let domains := currentTrustDomains c in
      let domains' := match replaceFirst name spec domains with Some ds => ds | None => domains ++ [spec] end in
      (persistTrustDomains domains' c, Ok tt)
  end.

(** [removeTrustDomain] *)
Definition removeTrustDomain (name : string) (c : InProcessConnection) : InProcessConnection * result ApplyErr unit :=
  let domains := currentTrustDomains c in
  if existsb (fun d => td_Name d =? name)%string domains
  then (persistTrustDomains (List.filter (fun d => negb (td_Name d =? name)%string) domains) c, Ok tt)
  else (c, Err (ErrDomainNotFound name)).

(** [ApplyAction]; the actions on peers are unknown to it and ignored. *)
Definition applyRotate (kid : string) (c : InProcessConnection) : InProcessConnection * result ApplyErr unit :=
  match ip_keyring c with
  | None => (c, Err ErrNoKeyring)
  | Some kr =>
      if (kid =? "")%string then (c, Err ErrMissingKid) else
      match Keyring.ActivateKey kid kr with
      | Ok kr' => (with_keyring kr' c, Ok tt)
      | Err e => (c, Err (ErrKeyring e))
      end
  end.
Definition streamConfig (audience : string) : Transmitter.StreamConfig :=
  {| Transmitter.sc_Issuer := ""; Transmitter.sc_Audience := audience; Transmitter.sc_EventsRequested := [];
     Transmitter.sc_EventsDelivered := []; Transmitter.sc_DeliveryMethod := ""; Transmitter.sc_EndpointURL := "" |}.
Definition applyStream (add : bool) (target : string) (c : InProcessConnection) : InProcessConnection * result ApplyErr unit :=
  match ip_transmitter c with
  | None => (c, Err ErrNoTransmitter)
  | Some (tx, st) =>
      if negb add && (target =? "")%string then (c, Err ErrMissingStreamID) else
      let '(st', r) :=
        if add then (let '(st', r) := Transmitter.CreateStream clock random url_Parse tx (streamConfig target) st in
                     (st', match r with Ok _ => Ok tt | Err e => Err e end))
        else Transmitter.DeleteStream tx target st in
      (with_streams tx st' c, match r with Ok _ => Ok tt | Err e => Err (ErrTransmitter e) end)
  end.
Definition ApplyAction (a : ConvergenceAction) (c : InProcessConnection) : InProcessConnection * result ApplyErr unit :=
  match ac_Type a with
  | ActionRotateSigningKey => applyRotate (ac_Target a) c
  | ActionAddTrustDomain | ActionUpdateTrustDomain => applyTrustDomainChange (ac_Target a) c
  | ActionRemoveTrustDomain => removeTrustDomain (ac_Target a) c
  | ActionAddSSFStream => applyStream true (ac_Target a) c
  | ActionRemoveSSFStream => applyStream false (ac_Target a) c
  | _ => (c, Ok tt)
  end.
#[export] Instance InProcess_Connection : Connection InProcessConnection :=
  {| conn_Err := ApplyErr; conn_ApplyAction := ApplyAction |}.

(** [Health] *)
Definition Health (c : InProcessConnection) : HealthStatus :=
  {| Healthy := true;
     hs_TrustDomainsActive := length (currentTrustDomains c);
     hs_SigningKeysActive := match ip_keyring c with Some kr => Keyring.Len kr | None => O end;
     hs_SSFStreamsActive := match ip_transmitter c with Some (_, st) => Transmitter.StreamCount st | None => O end;
     hs_SoulSequence := match ip_keeper c with Some k => SoulKeeper.Sequence k | None => 0 end |}.

(** * The trust domains under a plan *)

(** What an action does to the domains by name. *)
Definition effect (spec : gmap string TrustDomainSpec) (m : gmap string TrustDomainSpec) (a : ConvergenceAction)
    : gmap string TrustDomainSpec :=
  match ac_Type a with
  | ActionAddTrustDomain | ActionUpdateTrustDomain =>
      match spec !! ac_Target a with Some d => <[ac_Target a := d]> m | None => m end
  | ActionRemoveTrustDomain => delete (ac_Target a) m
  | _ => m
  end.

(** The part of the state the domains depend on. *)
Record dom_state (spec : SoulManifest) (c : InProcessConnection) (m : gmap string TrustDomainSpec) : Prop := {
  ds_keeper : is_Some (ip_keeper c);
  ds_desired : ip_desiredSpec c = Some spec;
  ds_rep : represents (currentTrustDomains c) m;
}.

Lemma persist_state spec ds c m m' :
  dom_state spec c m -> ds <> [] -> represents ds m' -> dom_state spec (persistTrustDomains ds c) m'.
Proof.
  intros [[k Hk] Hd _] Hne Hr. unfold persistTrustDomains. rewrite Hk. split; [by eexists|done|].
  unfold currentTrustDomains. cbn. by destruct ds.
Qed.

Definition isChange (a : ConvergenceAction) : bool :=
  match ac_Type a with ActionAddTrustDomain | ActionUpdateTrustDomain => true | _ => false end.

Lemma apply_change spec a c m d :
  NoDup (td_Name <$> TrustDomains spec) -> dom_state spec c m -> isChange a = true ->
  index td_Name (TrustDomains spec) !! ac_Target a = Some d ->
  exists c', ApplyAction a c = (c', Ok tt) /\ dom_state spec c' (<[ac_Target a := d]> m).
Proof using clock random url_Parse.
  intros Hnd Hst Ha Hi. assert (HA : ApplyAction a c = applyTrustDomainChange (ac_Target a) c)
    by (destruct a as [[] t]; done).
  rewrite HA. unfold applyTrustDomainChange, lookupDesiredDomain. rewrite (ds_desired _ _ _ Hst).
  rewrite (find_desired _ _ _ Hnd Hi). eexists. split; [reflexivity|].
  assert (Hn : td_Name d = ac_Target a) by (by apply index_lookup in Hi as [_ ?]).
  eapply persist_state; [exact Hst| |by apply represents_change; [apply ds_rep with spec|]].
  assert (Hr := represents_change _ _ _ _ (ds_rep _ _ _ Hst) Hn). destruct Hr as [_ Hr].
  intros He. rewrite He in Hr. assert (Hin : d ∈ @nil TrustDomainSpec /\ td_Name d = ac_Target a).
  { apply Hr. apply lookup_insert_eq. }
  by destruct Hin as [?%elem_of_nil _].
Qed.

Lemma apply_remove spec a c m :
  dom_state spec c m -> ac_Type a = ActionRemoveTrustDomain -> is_Some (m !! ac_Target a) ->
  delete (ac_Target a) m <> ∅ ->
  exists c', ApplyAction a c = (c', Ok tt) /\ dom_state spec c' (delete (ac_Target a) m).
Proof using clock random url_Parse.
  intros Hst Ha [d Hd] Hne. unfold ApplyAction. rewrite Ha. unfold removeTrustDomain.
  destruct (ds_rep _ _ _ Hst) as [_ Hm]. apply Hm in Hd as [Hd Hn].
  assert (existsb (fun d => td_Name d =? ac_Target a)%string (currentTrustDomains c) = true) as ->.
  { apply existsb_exists. exists d. rewrite <- list_elem_of_In. split; [done|]. by apply String.eqb_eq. }
  eexists. split; [reflexivity|].
  assert (Hr := represents_remove _ _ (ac_Target a) (ds_rep _ _ _ Hst)).
  eapply persist_state; [exact Hst| |done]. intros He. apply Hne. destruct Hr as [_ Hr]. rewrite He in Hr.
  apply map_empty. intros n. apply eq_None_not_Some. intros [x Hx]. apply Hr in Hx as [?%elem_of_nil _]. done.
Qed.

Lemma apply_other spec a c m :
  dom_state spec c m -> isDomainAction a = false -> dom_state spec (ApplyAction a c).1 m.
Proof using clock random url_Parse.
  intros [Hk Hd Hr] Ha. destruct a as [t n]. unfold ApplyAction.
  destruct t; try done; cbn [ac_Type ac_Target].
  - unfold applyRotate. destruct (ip_keyring c); [|done]. destruct (n =? "")%string; [done|].
    destruct (Keyring.ActivateKey n _); [|done]. by split.
  - unfold applyStream. destruct (ip_transmitter c) as [[tx st]|]; [|done]. cbn [negb andb].
    destruct (Transmitter.CreateStream _ _ _ _ _ _) as [st' r]. by split.
  - unfold applyStream. destruct (ip_transmitter c) as [[tx st]|]; [|done]. cbn [negb andb].
    destruct (n =? "")%string; [done|]. destruct (Transmitter.DeleteStream _ _ _) as [st' r]. by split.
Qed.
(** Adding and updating never fails, nor does removing as long as one domain stays. *)
Lemma changes_total spec l : forall c m,
  NoDup (td_Name <$> TrustDomains spec) -> dom_state spec c m ->
  (forall a, a ∈ l -> isChange a = true /\ is_Some (index td_Name (TrustDomains spec) !! ac_Target a)) ->
  exists c', applied_all l c c' /\ dom_state spec c' (fold_left (effect (index td_Name (TrustDomains spec))) l m).
Proof using clock random url_Parse.
  induction l as [|a l IH]; intros c m Hnd Hst Hl; [by exists c|].
  destruct (Hl a (list_elem_of_here _ _)) as [Ha [d Hd]].
  destruct (apply_change spec a c m d Hnd Hst Ha Hd) as (c1 & Hc1 & Hst1).
  destruct (IH c1 (<[ac_Target a := d]> m) Hnd Hst1) as (c' & Hall & Hst').
  { intros b Hb. apply Hl. by apply list_elem_of_further. }
  exists c'. split; [by exists c1|]. cbn [fold_left].
  assert (effect (index td_Name (TrustDomains spec)) m a = <[ac_Target a := d]> m) as ->; [|done].
  unfold effect. rewrite Hd. by destruct a as [[] t].
Qed.

Lemma removals_total spec keep l : forall c m,
  dom_state spec c m -> NoDup (ac_Target <$> l) -> is_Some (m !! keep) ->
  (forall a, a ∈ l -> ac_Type a = ActionRemoveTrustDomain /\ is_Some (m !! ac_Target a) /\ ac_Target a <> keep) ->
  exists c', applied_all l c c' /\ dom_state spec c' (fold_left (effect (index td_Name (TrustDomains spec))) l m).
Proof using clock random url_Parse.
  induction l as [|a l IH]; intros c m Hst Hnd Hkeep Hl; [by exists c|].
  apply NoDup_cons in Hnd as [Hnot Hnd].
  destruct (Hl a (list_elem_of_here _ _)) as (Ha & Hin & Hne).
  assert (Hkeep' : is_Some (delete (ac_Target a) m !! keep)) by (by rewrite lookup_delete_ne).
  destruct (apply_remove spec a c m Hst Ha Hin) as (c1 & Hc1 & Hst1).
  { intros He. rewrite He, lookup_empty in Hkeep'. by destruct Hkeep'. }
  destruct (IH c1 (delete (ac_Target a) m) Hst1 Hnd Hkeep') as (c' & Hall & Hst').
  { intros b Hb. destruct (Hl b (list_elem_of_further _ _ _ Hb)) as (Hb1 & Hb2 & Hb3). split; [done|].
    split; [|done]. rewrite lookup_delete_ne; [done|]. intros He. apply Hnot. rewrite He. by apply list_elem_of_fmap_2. }
  exists c'. split; [by exists c1|]. cbn [fold_left].
  assert (effect (index td_Name (TrustDomains spec)) m a = delete (ac_Target a) m) as ->; [|done].
  unfold effect. by rewrite Ha.
Qed.
End InProcess.

(** The effect of a plan that agrees with the specification. *)
Lemma fold_effect_lookup spec l n : forall m,
  (forall a, a ∈ l -> (isChange a = true /\ is_Some (spec !! ac_Target a)) \/
                      (ac_Type a = ActionRemoveTrustDomain /\ spec !! ac_Target a = None)) ->
  fold_left (effect spec) l m !! n = if decide (n ∈ ac_Target <$> l) then spec !! n else m !! n.
Proof.
  induction l as [|a l IH]; intros m Hl; [done|]. cbn [fold_left]. rewrite IH by set_solver.
  destruct (decide (n ∈ ac_Target <$> l)) as [Hin|Hin]; [by rewrite decide_True by set_solver|].
  assert (Heff : effect spec m a !! ac_Target a = spec !! ac_Target a /\
                 forall k, k <> ac_Target a -> effect spec m a !! k = m !! k).
  { destruct (Hl a (list_elem_of_here _ _)) as [[Ha [d Hd]]|[Ha Hs]]; unfold effect.
    - rewrite Hd. destruct a as [[] t]; try done; cbn [ac_Type ac_Target];
        (split; [apply lookup_insert_eq|intros k Hk; by apply lookup_insert_ne]).
    - rewrite Ha, Hs. split; [apply lookup_delete_eq|]. intros k Hk. by apply lookup_delete_ne. }
  destruct Heff as [He1 He2]. destruct (decide (n = ac_Target a)) as [->|Hne].
  - rewrite He1. by rewrite decide_True by set_solver.
  - rewrite He2 by done. by rewrite decide_False by set_solver.
Qed.

Lemma converge_agrees o1 o2 cur spec :
  fold_left (effect (index td_Name spec)) (convergeTrustDomains o1 o2 cur spec) (index td_Name cur) = index td_Name spec.
Proof.
  apply map_eq. intros n. rewrite fold_effect_lookup.
  - destruct (decide (n ∈ ac_Target <$> convergeTrustDomains o1 o2 cur spec)) as [|Hno]; [done|].
    assert (Hall : forall t, act t n ∉ convergeTrustDomains o1 o2 cur spec).
    { intros t Ht. apply Hno. apply list_elem_of_fmap. by exists (act t n). }
    destruct (index td_Name cur !! n) as [a|] eqn:Hc, (index td_Name spec !! n) as [b|] eqn:Hs; [|exfalso..|done].
    + destruct (decide (a = b)) as [->|Hne]; [done|]. exfalso.
      apply (Hall ActionUpdateTrustDomain), converge_domains_spec. right. left. split; [done|]. by exists a, b.
    + apply (Hall ActionRemoveTrustDomain), converge_domains_spec. right. right. by rewrite Hc.
    + apply (Hall ActionAddTrustDomain), converge_domains_spec. left. by rewrite Hs.
  - intros [t k] Ha. apply (converge_domains_spec _ _ _ _ t k) in Ha. cbn [ac_Type ac_Target].
    destruct Ha as [(-> & _ & ?)|[(-> & a & b & _ & Hb & _)|(-> & _ & ?)]]; [by left| |by right].
    left. by rewrite Hb.
Qed.

Lemma converged_no_actions o1 o2 cur spec :
  index td_Name cur = index td_Name spec -> convergeTrustDomains o1 o2 cur spec = [].
Proof.
  intros He. destruct (convergeTrustDomains o1 o2 cur spec) as [|[t n] l] eqn:Hp; [done|]. exfalso.
  assert (Hin : act t n ∈ convergeTrustDomains o1 o2 cur spec) by (rewrite Hp; apply list_elem_of_here).
  apply converge_domains_spec in Hin. rewrite He in Hin.
  destruct Hin as [(_ & Hn & [? ?])|[(_ & a & b & Ha & Hb & Hne)|(_ & [? ?] & Hn)]]; congruence.
Qed.

Lemma removal_targets {A} rem (spec : gmap string A) ks :
  NoDup ks ->
  NoDup (ac_Target <$> flat_map (convergeCurrent rem spec) ks) /\
  (forall a, a ∈ flat_map (convergeCurrent rem spec) ks -> ac_Target a ∈ ks).
Proof.
  induction ks as [|k ks IH]; intros Hnd; [split; [constructor|by intros a ?%elem_of_nil]|].
  apply NoDup_cons in Hnd as [Hk Hnd]. destruct (IH Hnd) as [H1 H2]. cbn [flat_map].
  unfold convergeCurrent at 1 3. destruct (spec !! k) as [x|]; cbn [app].
  - split; [done|]. intros a Ha. apply list_elem_of_further. by apply H2.
  - split.
    + rewrite fmap_cons. apply NoDup_cons. split; [|done]. rewrite list_elem_of_fmap.
      intros (b & Hkb & Hb). apply Hk. cbn in Hkb. rewrite Hkb. by apply H2.
    + intros a [->|Ha]%elem_of_cons; [apply list_elem_of_here|]. apply list_elem_of_further. by apply H2.
Qed.

(** The two halves of the plan for the domains. *)
Definition changesOf (o : RangeOrder) (m S : gmap string TrustDomainSpec) : list ConvergenceAction :=
  flat_map (convergeSpec ActionAddTrustDomain
    (fun c s => if domainChanged c s then Some ActionUpdateTrustDomain else None) m) (@range o _ S).
Definition removalsOf (o : RangeOrder) (m S : gmap string TrustDomainSpec) : list ConvergenceAction :=
  flat_map (convergeCurrent ActionRemoveTrustDomain S) (@range_keys o _ m).

Lemma changesOf_spec o m S a :
  a ∈ changesOf o m S -> isChange a = true /\ is_Some (S !! ac_Target a).
Proof.
  unfold changesOf. rewrite list_elem_of_In, in_flat_map. intros ([k d] & Hk & Ha).
  apply list_elem_of_In, elem_of_range in Hk. apply list_elem_of_In in Ha. unfold convergeSpec in Ha.
  cbn [fst snd] in Ha. destruct (m !! k) as [x|].
  - destruct (domainChanged x d); [|by apply elem_of_nil in Ha]. apply list_elem_of_singleton in Ha as ->.
    by split; [|exists d].
  - apply list_elem_of_singleton in Ha as ->. by split; [|exists d].
Qed.

Lemma changesOf_added o m S k : m !! k = None -> is_Some (S !! k) -> k ∈ ac_Target <$> changesOf o m S.
Proof.
  intros Hm [d Hd]. apply list_elem_of_fmap. exists (act ActionAddTrustDomain k). split; [done|].
  unfold changesOf. rewrite list_elem_of_In, in_flat_map. exists (k, d). rewrite <- !list_elem_of_In. split.
  - by apply elem_of_range.
  - unfold convergeSpec. cbn [fst]. rewrite Hm. apply list_elem_of_here.
Qed.

Lemma removalsOf_spec o m S a :
  a ∈ removalsOf o m S ->
  ac_Type a = ActionRemoveTrustDomain /\ S !! ac_Target a = None /\ is_Some (m !! ac_Target a).
Proof.
  unfold removalsOf. rewrite list_elem_of_In, in_flat_map. intros (k & Hk & Ha).
  apply list_elem_of_In, elem_of_range_keys in Hk. apply list_elem_of_In in Ha.
  unfold convergeCurrent in Ha. destruct (S !! k) eqn:Hs; [by apply elem_of_nil in Ha|].
  by apply list_elem_of_singleton in Ha as ->.
Qed.

Lemma after_changes_lookup o m S n :
  fold_left (effect S) (changesOf o m S) m !! n = if decide (n ∈ ac_Target <$> changesOf o m S) then S !! n else m !! n.
Proof. apply fold_effect_lookup. intros a Ha. left. by apply changesOf_spec in Ha. Qed.

Lemma after_changes_spec o m S k : is_Some (S !! k) -> is_Some (fold_left (effect S) (changesOf o m S) m !! k).
Proof.
  intros Hk. rewrite after_changes_lookup. case_decide as Hd; [done|].
  destruct (m !! k) eqn:Hm; [by eexists|]. by destruct (Hd (changesOf_added o m S k Hm Hk)).
Qed.

Lemma after_changes_old o m S k :
  S !! k = None -> is_Some (m !! k) -> is_Some (fold_left (effect S) (changesOf o m S) m !! k).
Proof.
  intros Hk Hm. rewrite after_changes_lookup. case_decide as Hd; [|done].
  apply list_elem_of_fmap in Hd as (b & -> & [_ [? ?]]%changesOf_spec). congruence.
Qed.

Lemma filter_none {A} (f : A -> bool) (l : list A) : (forall x, x ∈ l -> f x = false) -> List.filter f l = [].
Proof. induction l as [|x l IH]; intros Hf; [done|]. cbn. rewrite Hf by set_solver. apply IH. set_solver. Qed.

Lemma filter_every {A} (f : A -> bool) (l : list A) : (forall x, x ∈ l -> f x = true) -> List.filter f l = l.
Proof.
  induction l as [|x l IH]; intros Hf; [done|]. cbn. rewrite Hf by set_solver. f_equal. apply IH. set_solver.
Qed.

(** The second phase of a plan is its part for the trust domains. *)
Lemma domain_phase orders imp cur spec :
  List.filter isDomainAction (Converge orders imp (Some cur) (Some spec)) =
  convergeTrustDomains (orders 0%nat) (orders 1%nat) (TrustDomains cur) (TrustDomains spec).
Proof.
  unfold Converge. cbn [orZero]. rewrite !List.filter_app. rewrite filter_every.
  - rewrite !filter_none; [by rewrite !app_nil_r|..]; intros [t n] Hx;
      first [by apply elem_of_convergeRevocations in Hx as [-> | ->]
            |by apply elem_of_convergeKeys in Hx as [-> _]
            |by apply converge_set_spec in Hx as [(-> & _)|(-> & _)]].
  - intros [t n] Hx. by apply converge_domains_spec in Hx as [(-> & _)|[(-> & _)|(-> & _)]].
Qed.

Section Converging.
Context `{!JwtLib}.
Variable clock : nat -> Time.
Variable random : nat -> list Byte.byte.
Variable url_Parse : string -> result string Transmitter.URL.
Variable rev_Hash : Revocation.InMemoryRevocationIndex -> string.
#[local] Instance inprocess_connection : Connection InProcessConnection := InProcess_Connection clock random url_Parse.

Lemma domains_total o1 o2 spec c m :
  NoDup (td_Name <$> TrustDomains spec) -> TrustDomains spec <> [] -> dom_state spec c m ->
  exists c', applied_all (convergeTrustDomains o1 o2 (currentTrustDomains c) (TrustDomains spec)) c c' /\
             dom_state spec c' (index td_Name (TrustDomains spec)).
Proof using All.
  intros Hnd Hne Hst. assert (Hm := index_represented _ _ (ds_rep _ _ _ Hst)).
  assert (Hag := converge_agrees o1 o2 (currentTrustDomains c) (TrustDomains spec)). rewrite Hm in Hag.
  assert (Hsplit : convergeTrustDomains o1 o2 (currentTrustDomains c) (TrustDomains spec) =
    changesOf o1 m (index td_Name (TrustDomains spec)) ++ removalsOf o2 m (index td_Name (TrustDomains spec)))
    by (unfold convergeTrustDomains, convergeBy, changesOf, removalsOf; by rewrite Hm).
  rewrite Hsplit in *. set (S := index td_Name (TrustDomains spec)) in *.
  destruct (changes_total clock random url_Parse spec (changesOf o1 m S) c m Hnd Hst) as (c1 & Hc1 & Hst1).
  { intros a. apply changesOf_spec. }
  assert (Hkeep : exists keep, is_Some (S !! keep)).
  { destruct (TrustDomains spec) as [|d0 rest] eqn:Hspec; [done|]. exists (td_Name d0).
    apply index_is_Some. cbn. apply list_elem_of_here. }
  destruct Hkeep as [keep Hkeep]. fold S in Hst1.
  destruct (removals_total clock random url_Parse spec keep (removalsOf o2 m S) c1 _ Hst1) as (c2 & Hc2 & Hst2).
  - apply removal_targets, NoDup_range_keys.
  - by apply after_changes_spec.
  - intros a (Ht & Hs & Hx)%removalsOf_spec. split_and!; [done|by apply after_changes_old|].
    intros He. rewrite He in Hs. rewrite Hs in Hkeep. by destruct Hkeep.
  - exists c2. split; [apply applied_all_app; by exists c1|]. fold S in Hst2.
    by rewrite <- fold_left_app, Hag in Hst2.
Qed.
Lemma other_actions spec l n c c' k err m :
  (forall a, a ∈ l -> isDomainAction a = false) -> dom_state spec c m ->
  executeFrom n l c = (c', (k, err)) ->
  dom_state spec c' m /\
  (forall pe, err = Some pe -> pe_action pe ∈ l /\ (isKeyAction (pe_action pe) = true \/ isStreamAction (pe_action pe) = true)).
Proof using All.
  revert n c. induction l as [|a l IH]; intros n c Hl Hst; cbn [executeFrom].
  - intros [= <- <- <-]. by split.
  - assert (Ha := apply_other clock random url_Parse spec a c m Hst (Hl a (list_elem_of_here _ _))).
    change (conn_ApplyAction a c) with (ApplyAction clock random url_Parse a c).
    destruct (ApplyAction clock random url_Parse a c) as [c1 [[]|e]] eqn:Hap; cbn [fst] in Ha.
    + intros [Hst' He]%IH; [|set_solver|done]. split; [done|]. intros pe Hpe. apply He in Hpe as [? ?]. set_solver.
    + intros [= <- <- <-]. split; [done|]. intros pe [= <-]. cbn [pe_action]. split; [apply list_elem_of_here|].
      assert (Hn := Hl a (list_elem_of_here _ _)).
      destruct a as [[] t]; try (by right); try (by left); first [discriminate Hn|discriminate Hap].
Qed.

Lemma execute_plan_state orders imp ord now exported spec c c' r err :
  is_Some (ip_keeper c) -> ip_desiredSpec c = Some spec ->
  NoDup (td_Name <$> currentTrustDomains c) ->
  NoDup (td_Name <$> TrustDomains spec) -> TrustDomains spec <> [] ->
  ExecutePlan (Converge orders imp (Some (CurrentManifest rev_Hash ord now exported c)) (Some spec)) c = (c', (r, err)) ->
  match err with
  | None => dom_state spec c' (index td_Name (TrustDomains spec))
  | Some pe => (isKeyAction (pe_action pe) = true /\ dom_state spec c' (index td_Name (currentTrustDomains c))) \/
               (isStreamAction (pe_action pe) = true /\ dom_state spec c' (index td_Name (TrustDomains spec)))
  end.
Proof using All.
  intros Hk Hd Hndc Hnds Hne He.
  assert (Hst : dom_state spec c (index td_Name (currentTrustDomains c))) by (split; [done|done|by apply represents_index]).
  set (plan := Converge orders imp (Some (CurrentManifest rev_Hash ord now exported c)) (Some spec)) in He.
  assert (Hp : exists n, executeFrom O (sortActions plan) c = (c', (n, err))).
  { unfold ExecutePlan in He. destruct plan as [|a plan']; [injection He as <- <- <-; by eexists|].
    destruct (executeFrom O (sortActions (a :: plan')) c) as [c1 [n e1]]. injection He as <- <- <-. by eexists. }
  destruct Hp as [n Hp]. unfold sortActions in Hp. rewrite executeFrom_app in Hp.
  destruct (executeFrom O (List.filter isKeyAction plan) c) as [ck [nk ek]] eqn:Hkeys.
  apply other_actions with (spec := spec) (m := index td_Name (currentTrustDomains c)) in Hkeys as [Hstk Hek]; [|shelve|done].
  destruct ek as [pe|].
  { injection Hp as <- <- <-. left. destruct (Hek pe eq_refl) as [[_ Hin]%elem_of_filter_bool _]. done. }
  rewrite executeFrom_app in Hp. unfold plan in Hp at 1. rewrite domain_phase in Hp.
  cbn [TrustDomains CurrentManifest] in Hp.
  assert (Hsame : index td_Name (currentTrustDomains ck) = index td_Name (currentTrustDomains c))
    by (by destruct Hstk as [_ _ Hr%index_represented]).
  assert (Hplan : forall o1 o2, convergeTrustDomains o1 o2 (currentTrustDomains c) (TrustDomains spec) =
    convergeTrustDomains o1 o2 (currentTrustDomains ck) (TrustDomains spec))
    by (intros o1 o2; unfold convergeTrustDomains; by rewrite Hsame).
  rewrite Hplan in Hp.
  destruct (domains_total (orders 0%nat) (orders 1%nat) spec ck _ Hnds Hne Hstk) as (cd & Hcd & Hstd).
  rewrite (executeFrom_all _ nk _ _ Hcd) in Hp.
  apply other_actions with (spec := spec) (m := index td_Name (TrustDomains spec)) in Hp as [Hst' Herr]; [|shelve|done].
  destruct err as [pe|]; [|done]. right. split; [|done].
  destruct (Herr pe eq_refl) as [Hin [Hkey|Hs]]; [|done]. exfalso.
  rewrite !elem_of_app, !elem_of_filter_bool in Hin. destruct (pe_action pe) as [[] t]; naive_solver.
  Unshelve.
  - intros a [_ Ha]%elem_of_filter_bool. by destruct a as [[] t].
  - intros a Ha. rewrite !elem_of_app, !elem_of_filter_bool in Ha. destruct a as [[] t]; naive_solver.
Qed.

(** Executing a convergence plan makes the fabric's trust domains those of the specification. The
    actions on trust domains never fail; a plan can only stop at a key (before the domains were touched)
    or at a stream (when they already are as specified). After a plan that went through, planning
    again yields no action on trust domains, in whatever order the maps are iterated. *)
Theorem plan_converges_domains orders imp ord now exported spec c c' r err :
  is_Some (ip_keeper c) -> ip_desiredSpec c = Some spec ->
  NoDup (td_Name <$> currentTrustDomains c) ->
  NoDup (td_Name <$> TrustDomains spec) -> TrustDomains spec <> [] ->
  ExecutePlan (Converge orders imp (Some (CurrentManifest rev_Hash ord now exported c)) (Some spec)) c = (c', (r, err)) ->
  let converged :=
    index td_Name (currentTrustDomains c') = index td_Name (TrustDomains spec) /\
    (forall o1 o2, convergeTrustDomains o1 o2 (currentTrustDomains c') (TrustDomains spec) = []) in
  match err with
  | None => converged
  | Some pe => (isKeyAction (pe_action pe) = true /\
                index td_Name (currentTrustDomains c') = index td_Name (currentTrustDomains c)) \/
               (isStreamAction (pe_action pe) = true /\ converged)
  end.
Proof using All.
  intros Hk Hd Hndc Hnds Hne He converged.
  assert (Hconv : dom_state spec c' (index td_Name (TrustDomains spec)) -> converged).
  { intros [_ _ Hr]. apply index_represented in Hr. split; [done|]. intros o1 o2. by apply converged_no_actions. }
  apply execute_plan_state in He; [|done..]. destruct err as [pe|]; [|by apply Hconv].
  destruct He as [[Hkey [_ _ Hr]]|[Hs Hst]]; [left|right]; split; [done| |done|by apply Hconv].
  by apply index_represented.
Qed.
End Converging.

(** * Examples *)

Definition demo_keeper : SoulKeeper.Keeper :=
  {| SoulKeeper.k_fabricID := "eu"; SoulKeeper.k_interval := 60; SoulKeeper.k_unitID := "u1"; SoulKeeper.k_bus := false;
     SoulKeeper.k_onSnapshot := false; SoulKeeper.k_sequence := 4; SoulKeeper.k_signingKeys := [];
     SoulKeeper.k_trustDomains := []; SoulKeeper.k_auditState := noAudit |}.
Definition demo_boot (name issuer : string) : TrustDomain :=
  {| ct_Name := name; ct_Enabled := true; ct_JWKSURL := ""; ct_Issuer := issuer |}.
(** A fabric that runs on its boot configuration and is to follow [demo_new]. *)
Definition demo_conn : @InProcessConnection JwtModel.lib :=
  SetDesiredSpec demo_new (NewInProcessConnection "eu"
    [WithKeeper demo_keeper; WithKeyring Keyring.demo_kr;
     WithTrustDomains [demo_boot "a" "https://a"; demo_boot "b" "https://b"]]).
Definition demo_clock (n : nat) : Time := 0.
Definition demo_random (n : nat) : list Byte.byte := [].
Definition demo_url (s : string) : result string Transmitter.URL := Err "no URL".
Definition demo_hash (i : Revocation.InMemoryRevocationIndex) : string := "".
#[local] Instance demo_connection : Connection (@InProcessConnection JwtModel.lib) :=
  InProcess_Connection demo_clock demo_random demo_url.
Definition demo_run := ExecutePlan
  (Converge (fun _ => key_order) true (Some (CurrentManifest demo_hash key_order 1 2 demo_conn)) (Some demo_new)) demo_conn.

Example demo_run_domains :
  (td_Name <$> currentTrustDomains demo_run.1, ActionsApplied demo_run.2.1) = (["a"; "c"], 3%nat).
Proof. vm_compute. reflexivity. Qed.

Lemma plan_executes_prefix_witness :
  exists ordered, Permutation ordered [act ActionRemoveTrustDomain "x"; act ActionRotateSigningKey "k1"] /\
    exists pre post c1, ordered = pre ++ act ActionRemoveTrustDomain "x" :: post /\ length pre = 1%nat /\
      applied_all pre demo_conn c1.
Proof.
  set (r := ExecutePlan [act ActionRemoveTrustDomain "x"; act ActionRotateSigningKey "k1"] demo_conn).
  destruct (plan_executes_prefix [act ActionRemoveTrustDomain "x"; act ActionRotateSigningKey "k1"] demo_conn
    r.1 r.2.1 r.2.2 ltac:(unfold r; by destruct (ExecutePlan _ demo_conn) as [? [? ?]])) as (ordered & Hp & _ & _ & He).
  exists ordered. split; [done|].
  assert (Ha : ActionsApplied r.2.1 = 1%nat) by (vm_compute; reflexivity).
  assert (Hr : pe_action <$> r.2.2 = Some (act ActionRemoveTrustDomain "x")) by (vm_compute; reflexivity).
  clearbody r. destruct r.2.2 as [pe|]; [|done]. injection Hr as Hpe.
  destruct He as (_ & pre & post & c1 & Ho & Hl & Hall & _). exists pre, post, c1.
  split; [by rewrite Ho; f_equal; f_equal|]. split; [congruence|done].
Defined.

Lemma plan_converges_domains_witness :
  index td_Name (currentTrustDomains demo_run.1) = index td_Name (TrustDomains demo_new).
Proof.
  assert (Hr : demo_run.2.2 = None) by (vm_compute; reflexivity).
  assert (Hsplit : demo_run = (demo_run.1, (demo_run.2.1, None))).
  { rewrite <- Hr. by destruct demo_run as [? [? ?]]. }
  refine (proj1 (plan_converges_domains demo_clock demo_random demo_url demo_hash (fun _ => key_order) true key_order 1 2
    demo_new demo_conn demo_run.1 demo_run.2.1 None _ _ _ _ _ Hsplit)).
  - by eexists.
  - reflexivity.
  - apply (bool_decide_unpack _). vm_compute. exact I.
  - apply (bool_decide_unpack _). vm_compute. exact I.
  - discriminate.
Defined.
End Operator.
