(* ===== verification/OperatorCtl.v ===== *)
(** The custom resource of the operator ([pkg/operator]): its validation ([webhook.go]), its conversion to
    a manifest ([converter.go]), the status conditions ([status.go]) and one reconciliation
    ([controller.go]) over a connection to a fabric. *)
From Stdlib Require Import ZArith Lia.
From stdpp Require Import base gmap strings list pretty.
From S2P Require Import Prelude.
From S2P Require Import GoLib.
From S2P Require Import JwtModel.
From S2P Require Import FedTypes.
From S2P Require Import Keyring.
From S2P Require Import Revocation.
From S2P Require Import Transmitter.
From S2P Require Import Soul.
From S2P Require Import SoulKeeper.
From S2P Require Import Operator.

#[local] Open Scope string_scope.
#[local] Open Scope list_scope.
#[local] Open Scope Z_scope.

Module OperatorCtl.
Import Soul.
Import Operator.

(** * The resource ([api/v1alpha1/types.go]) *)

Definition PhaseConverged : string := "Converged".
Definition PhaseConverging : string := "Converging".
Definition PhaseDegraded : string := "Degraded".
Definition ConditionReady : string := "Ready".
Definition ConditionConverged : string := "Converged".
Definition ConditionDegraded : string := "Degraded".

Record CRDomain : Type := {
  cr_Name : string; cr_Type : string; cr_Issuer : string; cr_JWKSURI : string; cr_Enabled : bool;
}.
Record CRKey : Type := {
  ck_KID : string; ck_Algorithm : string; ck_KMSKeyID : string; ck_RotationPolicy : string; ck_Status : string;
}.
Record CRStream : Type := { cs_StreamID : string; cs_Transmitter : string; cs_EventsRequested : list string }.
Record AnchorSpec : Type := { an_Type : string; an_Bucket : string; an_Prefix : string; an_Path : string }.
Record CRPeer : Type := {
  cp_FabricID : string; cp_JWKSEndpoint : string; cp_MTLSSecret : string; cp_RefreshInterval : string;
  cp_StalenessThreshold : string;
}.
(** [StarlightFabricSpec]; of the policy, its bundle path. *)
Record StarlightFabricSpec : Type := {
  sp_TrustDomains : list CRDomain;
  sp_SigningKeys : list CRKey;
  sp_SSFStreams : list CRStream;
  sp_Anchor : option AnchorSpec;
  sp_Policy : option string;
  sp_Federation : option (list CRPeer);
}.
(** [metav1.Condition] and [StarlightFabricStatus], without the printed duration. *)
Inductive ConditionStatus : Type := ConditionTrue | ConditionFalse | ConditionUnknown.
#[export] Instance ConditionStatus_eq_dec : EqDecision ConditionStatus.
Proof. solve_decision. Defined.
Record Condition : Type := {
  co_Type : string; co_Status : ConditionStatus; co_LastTransitionTime : Time; co_Reason : string; co_Message : string;
}.
Record StarlightFabricStatus : Type := {
  Phase : string;
  SoulSequence : Z;
  TrustDomainsActive : nat;
  SigningKeysActive : nat;
  SSFStreamsActive : nat;
  LastConvergence : option Time;
  FederationPeersHealthy : nat;
  FederationPeersTotal : nat;
  Conditions : list Condition;
}.
Record StarlightFabric : Type := { fa_Name : string; fa_Spec : StarlightFabricSpec; fa_Status : StarlightFabricStatus }.

(** * Validation ([webhook.go]) *)

(** The messages, with the index of the entry they are about. *)
Inductive FieldErr : Type :=
| NameRequired
| EntryIDRequired (field : string) (i : nat)
| EntryDuplicate (field : string) (i : nat) (id : string)
| EntryTypeRequired (i : nat) | EntryTypeUnsupported (i : nat) (t : string)
| AlgorithmRequired (i : nat) | AlgorithmUnsupported (i : nat) (a : string)
| KMSKeyIDRequired (i : nat)
| TransmitterRequired (i : nat) | TransmitterInvalid (i : nat) (u : string)
| BucketRequired | PathRequired | AnchorTypeRequired | AnchorTypeUnsupported (t : string).

(** The loop the three lists share: entries need a new identifier; the fields of an entry without one
    are not looked at. *)
Section Entries.
Context {A : Type} (field : string) (id : A -> string) (fields : nat -> A -> list FieldErr).
Fixpoint validateEntries (i : nat) (seen : gset string) (l : list A) : list FieldErr :=
  match l with
  | [] => []
  | x :: rest =>
      if (id x =? "")%string then EntryIDRequired field i :: validateEntries (S i) seen rest
      else (if bool_decide (id x ∈ seen) then [EntryDuplicate field i (id x)] else []) ++
           fields i x ++ validateEntries (S i) ({[id x]} ∪ seen) rest
  end.
End Entries.

Definition domainTypes : list string := ["oidc"; "spiffe"; "aws-sts"; "kerberos"; "saml"].
Definition validateTrustDomains (l : list CRDomain) : list FieldErr :=
  validateEntries "trustDomains" cr_Name
    (fun i td => if str_mem (cr_Type td) domainTypes then []
                 else if (cr_Type td =? "")%string then [EntryTypeRequired i]
                 else [EntryTypeUnsupported i (cr_Type td)]) O ∅ l.
Definition algorithms : list string := ["ES256"; "RS256"; "EdDSA"].
Definition validateSigningKeys (l : list CRKey) : list FieldErr :=
  validateEntries "signingKeys" ck_KID
    (fun i sk => (if str_mem (ck_Algorithm sk) algorithms then []
                  else if (ck_Algorithm sk =? "")%string then [AlgorithmRequired i]
                  else [AlgorithmUnsupported i (ck_Algorithm sk)]) ++
                 (if (ck_KMSKeyID sk =? "")%string then [KMSKeyIDRequired i] else [])) O ∅ l.
Definition validateSSFStreams (url_Parse : string -> result string Transmitter.URL) (l : list CRStream) : list FieldErr :=
  validateEntries "ssfStreams" cs_StreamID
    (fun i ss => if (cs_Transmitter ss =? "")%string then [TransmitterRequired i]
                 else match url_Parse (cs_Transmitter ss) with
                      | Ok u => if (Transmitter.Scheme u =? "")%string then [TransmitterInvalid i (cs_Transmitter ss)] else []
                      | Err _ => [TransmitterInvalid i (cs_Transmitter ss)]
                      end) O ∅ l.
Definition validateAnchor (a : option AnchorSpec) : list FieldErr :=
  match a with
  | None => []
  | Some a =>
      if (an_Type a =? "s3")%string || (an_Type a =? "gcs")%string
      then (if (an_Bucket a =? "")%string then [BucketRequired] else [])
      else if (an_Type a =? "filesystem")%string then (if (an_Path a =? "")%string then [PathRequired] else [])
      else if (an_Type a =? "")%string then [AnchorTypeRequired] else [AnchorTypeUnsupported (an_Type a)]
  end.
Definition ValidateFabric (url_Parse : string -> result string Transmitter.URL) (f : StarlightFabric) : list FieldErr :=
  (if (fa_Name f =? "")%string then [NameRequired] else []) ++
  validateTrustDomains (sp_TrustDomains (fa_Spec f)) ++
  validateSigningKeys (sp_SigningKeys (fa_Spec f)) ++
  validateSSFStreams url_Parse (sp_SSFStreams (fa_Spec f)) ++
  validateAnchor (sp_Anchor (fa_Spec f)).

(** * Conversion ([converter.go]) *)

Definition toDomain (td : CRDomain) : TrustDomainSpec :=
  {| td_Name := cr_Name td; td_Type := cr_Type td; td_Issuer := cr_Issuer td; td_JWKSURL := cr_JWKSURI td;
     td_Enabled := cr_Enabled td |}.
Definition toKey (sk : CRKey) : SigningKeyRef :=
  {| sk_KMSKeyID := ck_KMSKeyID sk; sk_Algorithm := ck_Algorithm sk; sk_KID := ck_KID sk;
     sk_Status := if (ck_Status sk =? "")%string then "active" else ck_Status sk |}.
Definition toStream (ss : CRStream) : SSFStreamSpec :=
  {| ss_StreamID := cs_StreamID ss; ss_Transmitter := cs_Transmitter ss; ss_EventsRequested := cs_EventsRequested ss |}.
Definition toPeer (p : CRPeer) : FederationPeer :=
  {| fp_FabricID := cp_FabricID p; fp_LastSeen := 0; fp_KeyCount := 0; fp_RevocationHash := "" |}.
Definition SpecToManifest (now : Time) (fabricID : string) (spec : StarlightFabricSpec) : SoulManifest :=
  {| APIVersion := APIVersionV1; Kind := KindManifest;
     meta := {| md_FabricID := fabricID; md_GeneratedAt := now; md_Sequence := 0 |};
     SigningKeys := toKey <$> sp_SigningKeys spec; TrustDomains := toDomain <$> sp_TrustDomains spec;
     Revocations := noRevocations; SSFStreams := toStream <$> sp_SSFStreams spec;
     Peers := match sp_Federation spec with Some ps => toPeer <$> ps | None => [] end;
     Audit := noAudit |}.

Definition noStatus : StarlightFabricStatus :=
  {| Phase := ""; SoulSequence := 0; TrustDomainsActive := O; SigningKeysActive := O; SSFStreamsActive := O;
     LastConvergence := None; FederationPeersHealthy := O; FederationPeersTotal := O; Conditions := [] |}.
(** [ManifestToStatus] *)
Definition ManifestToStatus (m : SoulManifest) : StarlightFabricStatus :=
  {| Phase := ""; SoulSequence := i64 (md_Sequence (meta m));
     TrustDomainsActive := length (List.filter td_Enabled (TrustDomains m));
     SigningKeysActive := length (List.filter (fun k => sk_Status k =? "active")%string (SigningKeys m));
     SSFStreamsActive := length (SSFStreams m); LastConvergence := None; FederationPeersHealthy := O;
     FederationPeersTotal := length (Peers m); Conditions := [] |}.

(** * Conditions ([status.go]) *)

(** [SetCondition]; [now] is read when it is needed. The time of an unchanged status is kept. *)
Definition withTime (t : Time) (c : Condition) : Condition :=
  {| co_Type := co_Type c; co_Status := co_Status c; co_LastTransitionTime := t; co_Reason := co_Reason c;
     co_Message := co_Message c |}.
Fixpoint setIn (now : Time) (c : Condition) (l : list Condition) : list Condition :=
  match l with
  | [] => [if co_LastTransitionTime c =? 0 then withTime now c else c]
  | e :: rest =>
      if (co_Type e =? co_Type c)%string
      then withTime (if bool_decide (co_Status e = co_Status c) then co_LastTransitionTime e else now) c :: rest
      else e :: setIn now c rest
  end.
Definition with_conditions (l : list Condition) (s : StarlightFabricStatus) : StarlightFabricStatus :=
  {| Phase := Phase s; SoulSequence := SoulSequence s; TrustDomainsActive := TrustDomainsActive s;
     SigningKeysActive := SigningKeysActive s; SSFStreamsActive := SSFStreamsActive s;
     LastConvergence := LastConvergence s; FederationPeersHealthy := FederationPeersHealthy s;
     FederationPeersTotal := FederationPeersTotal s; Conditions := l |}.
Definition SetCondition (now : Time) (c : Condition) (s : StarlightFabricStatus) : StarlightFabricStatus :=
  with_conditions (setIn now c (Conditions s)) s.
(** [FindCondition], [IsReady] and [IsConverged] *)
Definition FindCondition (s : StarlightFabricStatus) (t : string) : option Condition :=
  List.find (fun c => co_Type c =? t)%string (Conditions s).
Definition holds (s : StarlightFabricStatus) (t : string) : bool :=
  match FindCondition s t with Some c => bool_decide (co_Status c = ConditionTrue) | None => false end.
Definition IsReady (s : StarlightFabricStatus) : bool := holds s ConditionReady.
Definition IsConverged (s : StarlightFabricStatus) : bool := holds s ConditionConverged.

(** * Reconciliation ([controller.go]) *)

(** [FabricConnection], beyond what the executor needs ([connection.go], [embed.go]). *)
Class FabricConnection (C : Type) `{!Connection C} : Type := {
  fc_CurrentManifest : C -> result string SoulManifest;
  fc_Health : C -> result string HealthStatus;
  fc_SetDesiredSpec : SoulManifest -> C -> C;
}.

(** [conditionForPhase] *)
Definition conditionForPhase (phase : string) : string :=
  if (phase =? PhaseConverging)%string then ConditionConverged
  else if (phase =? PhaseDegraded)%string then ConditionDegraded else ConditionReady.

Definition with_status (s : StarlightFabricStatus) (f : StarlightFabric) : StarlightFabric :=
  {| fa_Name := fa_Name f; fa_Spec := fa_Spec f; fa_Status := s |}.
Definition with_phase (p : string) (s : StarlightFabricStatus) : StarlightFabricStatus :=
  {| Phase := p; SoulSequence := SoulSequence s; TrustDomainsActive := TrustDomainsActive s;
     SigningKeysActive := SigningKeysActive s; SSFStreamsActive := SSFStreamsActive s;
     LastConvergence := LastConvergence s; FederationPeersHealthy := FederationPeersHealthy s;
     FederationPeersTotal := FederationPeersTotal s; Conditions := Conditions s |}.

(** [setPhase]: [t] is the time of the condition, [t'] the one [SetCondition] reads. *)
Definition setPhase (t t' : Time) (phase reason message : string) (f : StarlightFabric) : StarlightFabric :=
  with_status (SetCondition t' {| co_Type := conditionForPhase phase; co_Status := ConditionTrue;
    co_LastTransitionTime := t; co_Reason := reason; co_Message := message |} (with_phase phase (fa_Status f))) f.

(** [updateStatus] before the status is written. *)
Definition with_health (now : Time) (h : option HealthStatus) (s : StarlightFabricStatus) : StarlightFabricStatus :=
  match h with
  | Some h =>
      {| Phase := PhaseConverged; SoulSequence := i64 (hs_SoulSequence h);
         TrustDomainsActive := hs_TrustDomainsActive h; SigningKeysActive := hs_SigningKeysActive h;
         SSFStreamsActive := hs_SSFStreamsActive h; LastConvergence := Some now;
         FederationPeersHealthy := FederationPeersHealthy s; FederationPeersTotal := FederationPeersTotal s;
         Conditions := Conditions s |}
  | None =>
      {| Phase := PhaseConverged; SoulSequence := SoulSequence s;
         TrustDomainsActive := TrustDomainsActive s; SigningKeysActive := SigningKeysActive s;
         SSFStreamsActive := SSFStreamsActive s; LastConvergence := Some now;
         FederationPeersHealthy := FederationPeersHealthy s; FederationPeersTotal := FederationPeersTotal s;
         Conditions := Conditions s |}
  end.
Definition convergedCondition (now : Time) (t : string) (st : ConditionStatus) (msg : string) : Condition :=
  {| co_Type := t; co_Status := st; co_LastTransitionTime := now; co_Reason := "Converged"; co_Message := msg |}.
Definition updateStatus (clock : nat -> Time) (h : option HealthStatus) (f : StarlightFabric) : StarlightFabric :=
  let now := clock 4%nat in
  with_status
    (SetCondition (clock 7%nat) (convergedCondition now ConditionDegraded ConditionFalse "fabric recovered")
    (SetCondition (clock 6%nat) (convergedCondition now ConditionConverged ConditionTrue "all convergence actions applied")
    (SetCondition (clock 5%nat) (convergedCondition now ConditionReady ConditionTrue "fabric state matches spec")
      (with_health now h (fa_Status f))))) f.

Inductive ReconcileErr (E : Type) : Type :=
| ErrReadManifest (e : string)
| ErrApply (e : PlanErr E)
| ErrStatus (e : string).
Arguments ErrReadManifest {E}.
Arguments ErrApply {E}.
Arguments ErrStatus {E}.

Section Reconcile.
Context {C : Type} `{!Connection C, !FabricConnection C}.
Variable clock : nat -> Time.
(** The text of an apply error. *)
Variable errText : PlanErr conn_Err -> string.
(** [writeStatus]: the API server's answer to a status update. *)
Variable writeStatus : StarlightFabric -> option string.

(** [ReconcileFabric]: the fabric, the object with its status, the status writes that were attempted, the
    delay until the next reconciliation in seconds, and the error. Only the last write can fail the
    reconciliation. *)
Record Outcome : Type := {
  oc_conn : C;
  oc_fabric : StarlightFabric;
  oc_writes : list StarlightFabric;
  oc_RequeueAfter : Z;
  oc_err : option (ReconcileErr conn_Err);
}.
Definition finish (f : StarlightFabric) (writes : list StarlightFabric) (c : C) : Outcome :=
  let health := match fc_Health c with Ok h => Some h | Err _ => None end in
  let f' := updateStatus clock health f in
  match writeStatus f' with
  | Some e => {| oc_conn := c; oc_fabric := f'; oc_writes := writes ++ [f']; oc_RequeueAfter := 10;
                 oc_err := Some (ErrStatus e) |}
  | None => {| oc_conn := c; oc_fabric := f'; oc_writes := writes ++ [f']; oc_RequeueAfter := 60; oc_err := None |}
  end.
Definition ReconcileFabric (orders : nat -> RangeOrder) (f : StarlightFabric) (c : C) : Outcome :=
  match fc_CurrentManifest c with
  | Err e =>
      let f' := setPhase (clock 0%nat) (clock 1%nat) PhaseDegraded "FailedReadManifest" e f in
      {| oc_conn := c; oc_fabric := f'; oc_writes := [f']; oc_RequeueAfter := 30; oc_err := Some (ErrReadManifest e) |}
  | Ok current =>
      let desired := SpecToManifest (clock 8%nat) (fa_Name f) (fa_Spec f) in
      let c1 := fc_SetDesiredSpec desired c in
      let plan := Converge orders true (Some current) (Some desired) in
      match plan with
      | [] => finish f [] c1
      | _ =>
          let f1 := setPhase (clock 0%nat) (clock 1%nat) PhaseConverging "Converging"
                      ("applying " +:+ pretty (length plan) +:+ " actions") f in
          match ExecutePlan plan c1 with
          | (c2, (_, Some pe)) =>
              let f2 := setPhase (clock 2%nat) (clock 3%nat) PhaseDegraded "ApplyFailed" (errText pe) f1 in
              {| oc_conn := c2; oc_fabric := f2; oc_writes := [f1; f2]; oc_RequeueAfter := 30;
                 oc_err := Some (ErrApply pe) |}
          | (c2, (_, None)) => finish f1 [f1] c2
          end
      end
  end.

(** * What a reconciliation reports *)

Lemma holds_set now c s t :
  holds (SetCondition now c s) t =
  if (co_Type c =? t)%string then bool_decide (co_Status c = ConditionTrue) else holds s t.
Proof using Type.
  unfold holds, FindCondition. cbn [Conditions SetCondition with_conditions].
  induction (Conditions s) as [|e l IH]; cbn [setIn].
  - cbn. destruct (co_LastTransitionTime c =? 0); cbn; by destruct (co_Type c =? t)%string.
  - destruct (String.eqb_spec (co_Type e) (co_Type c)) as [He|He]; cbn.
    + rewrite He. by destruct (co_Type c =? t)%string.
    + destruct (String.eqb_spec (co_Type e) t) as [Ht|Ht]; [|apply IH].
      destruct (String.eqb_spec (co_Type c) t); [congruence|done].
Qed.

Lemma holds_phase p s t : holds (with_phase p s) t = holds s t.
Proof using Type. done. Qed.

Lemma finish_spec f ws c :
  let o := finish f ws c in
  oc_conn o = c /\ oc_writes o = ws ++ [oc_fabric o] /\ Phase (fa_Status (oc_fabric o)) = PhaseConverged /\
  IsReady (fa_Status (oc_fabric o)) = true /\ IsConverged (fa_Status (oc_fabric o)) = true /\
  holds (fa_Status (oc_fabric o)) ConditionDegraded = false /\
  (forall pe, oc_err o <> Some (ErrApply pe)) /\ (forall e, oc_err o <> Some (ErrReadManifest e)).
Proof using Type.
  cbn zeta. set (o := finish f ws c).
  assert (Ho : oc_conn o = c /\ oc_writes o = ws ++ [oc_fabric o] /\
    oc_fabric o = updateStatus clock (match fc_Health c with Ok h => Some h | Err _ => None end) f /\
    (forall pe, oc_err o <> Some (ErrApply pe)) /\ (forall e, oc_err o <> Some (ErrReadManifest e))).
  { unfold o, finish. by destruct (writeStatus _). }
  destruct Ho as (-> & -> & -> & H1 & H2). unfold IsReady, IsConverged. cbn [fa_Status updateStatus with_status].
  rewrite !holds_set. cbn. by destruct (fc_Health c).
Qed.

(** The status after a reconciliation, written last, tells how it ended: when the plan went through
    the fabric is Converged, Ready and not Degraded; when the manifest could not be read or an action
    failed it is Degraded and the reconciliation is repeated after 30 seconds. *)
Theorem reconcile_status orders f c :
  let o := ReconcileFabric orders f c in
  let st := fa_Status (oc_fabric o) in
  last (oc_writes o) = Some (oc_fabric o) /\
  match oc_err o with
  | None | Some (ErrStatus _) =>
      Phase st = PhaseConverged /\ IsReady st = true /\ IsConverged st = true /\ holds st ConditionDegraded = false
  | Some _ => Phase st = PhaseDegraded /\ holds st ConditionDegraded = true /\ oc_RequeueAfter o = 30
  end.
Proof using Type.
  cbn zeta. unfold ReconcileFabric. destruct (fc_CurrentManifest c) as [current|e].
  - assert (Hf : forall f ws c, let o := finish f ws c in
      last (oc_writes o) = Some (oc_fabric o) /\
      match oc_err o with
      | None | Some (ErrStatus _) => Phase (fa_Status (oc_fabric o)) = PhaseConverged /\
          IsReady (fa_Status (oc_fabric o)) = true /\ IsConverged (fa_Status (oc_fabric o)) = true /\
          holds (fa_Status (oc_fabric o)) ConditionDegraded = false
      | Some _ => Phase (fa_Status (oc_fabric o)) = PhaseDegraded /\
          holds (fa_Status (oc_fabric o)) ConditionDegraded = true /\ oc_RequeueAfter o = 30
      end).
    { clear. intros f ws c o. destruct (finish_spec f ws c) as (_ & Hw & Hp & Hr & Hc & Hd & He1 & He2).
      fold o in Hw, Hp, Hr, Hc, Hd, He1, He2. rewrite Hw. split; [apply last_snoc|].
      destruct (oc_err o) as [[e|pe|e]|]; [by destruct (He2 e)|by destruct (He1 pe)|done|done]. }
    destruct (Converge _ _ _ _) as [|a plan]; [apply Hf|].
    destruct (ExecutePlan _ _) as [c2 [r [pe|]]]; [|apply Hf].
    cbn [oc_writes oc_fabric oc_err oc_RequeueAfter setPhase fa_Status with_status]. rewrite !holds_set. done.
  - cbn [oc_writes oc_fabric oc_err oc_RequeueAfter setPhase fa_Status with_status]. rewrite !holds_set. done.
Qed.

(** A reconciliation that failed while applying its plan still reports the condition Converged as true:
    the phase Converging is announced with that condition, and a failure does not withdraw it. *)
Theorem failed_apply_claims_convergence orders f c pe :
  oc_err (ReconcileFabric orders f c) = Some (ErrApply pe) ->
  IsConverged (fa_Status (oc_fabric (ReconcileFabric orders f c))) = true.
Proof using Type.
  unfold ReconcileFabric. destruct (fc_CurrentManifest c) as [current|e]; [|done].
  assert (Hf : forall f ws c, oc_err (finish f ws c) <> Some (ErrApply pe)).
  { clear. intros f ws c. apply finish_spec. }
  destruct (Converge _ _ _ _) as [|a plan]; [intros ?%Hf; done|].
  destruct (ExecutePlan _ _) as [c2 [r [pe'|]]]; [|intros ?%Hf; done]. intros _.
  unfold IsConverged. cbn [oc_fabric setPhase fa_Status with_status]. rewrite holds_set.
  cbn [co_Type conditionForPhase]. by rewrite holds_phase, holds_set.
Qed.
End Reconcile.

(** * What the validation accepts *)

Lemma validateEntries_nil {A} field (id : A -> string) fields l : forall i seen,
  validateEntries field id fields i seen l = [] <->
  NoDup (id <$> l) /\ (forall x, x ∈ l -> id x <> "" /\ id x ∉ seen) /\
  (forall j x, l !! j = Some x -> fields (i + j)%nat x = []).
Proof.
  induction l as [|x l IH]; intros i seen; cbn [validateEntries].
  - split; [intros _|done]. split_and!; [constructor|by intros x ?%elem_of_nil|done].
  - destruct (String.eqb_spec (id x) "") as [He|He].
    { split; [done|]. intros (_ & Hx & _). by destruct (Hx x (list_elem_of_here _ _)). }
    rewrite !app_nil_iff, IH, fmap_cons, NoDup_cons. case_bool_decide as Hs.
    { split; [by intros [? _]|]. intros (_ & Hx & _). by destruct (Hx x (list_elem_of_here _ _)). }
    split.
    + intros (_ & Hf & Hnd & Hin & Hj). split_and!.
      * intros (y & Hy & Hyl)%list_elem_of_fmap. apply Hin in Hyl as [_ Hyl]. apply Hyl. rewrite <- Hy. set_solver.
      * done.
      * intros y [->|Hy]%elem_of_cons; [done|]. apply Hin in Hy as [? ?]. set_solver.
      * intros [|j] y Hy; [injection Hy as <-; by rewrite Nat.add_0_r|].
        rewrite <- Nat.add_succ_comm. by apply (Hj j).
    + intros ([Hx Hnd] & Hin & Hj). split_and!; [done| |done| |].
      * rewrite <- (Nat.add_0_r i). by apply (Hj 0%nat).
      * intros y Hy. destruct (Hin y (list_elem_of_further _ _ _ Hy)) as [Hy1 Hy2]. split; [done|].
        rewrite not_elem_of_union, not_elem_of_singleton. split; [|done]. intros Heq. apply Hx. rewrite <- Heq.
        by apply list_elem_of_fmap_2.
      * intros j y Hy. rewrite Nat.add_succ_comm. by apply (Hj (S j)).
Qed.

(** Lists whose fields do not depend on the position. *)
Lemma validateEntries_ok {A} field (id : A -> string) fields (good : A -> Prop) l :
  (forall i x, fields i x = [] <-> good x) ->
  validateEntries field id fields O ∅ l = [] <->
  NoDup (id <$> l) /\ (forall x, x ∈ l -> id x <> "" /\ good x).
Proof.
  intros Hg. rewrite validateEntries_nil. split.
  - intros (Hnd & Hin & Hj). split; [done|]. intros x Hx. split; [by apply Hin|].
    apply list_elem_of_lookup in Hx as [j Hx]. by apply (Hg (0 + j)%nat x), (Hj j).
  - intros (Hnd & Hin). split_and!; [done| |].
    + intros x Hx. split; [by apply Hin|set_solver].
    + intros j x Hx. apply Hg, Hin. by apply list_elem_of_lookup_2 with j.
Qed.

Lemma if_empty {A} (b : bool) (x : A) : (if b then [x] else []) = [] <-> b = false.
Proof. by destruct b. Qed.

(** A resource the schema allows: identifiers present and not repeated, the types and algorithms the
    enumerations of the resource's own fields list, a key reference for every key, an absolute URL for every
    stream and a complete anchor. *)
Record well_formed (url_Parse : string -> result string Transmitter.URL) (f : StarlightFabric) : Prop := {
  wf_name : fa_Name f <> "";
  wf_domains : NoDup (cr_Name <$> sp_TrustDomains (fa_Spec f)) /\
    forall d, d ∈ sp_TrustDomains (fa_Spec f) -> cr_Name d <> "" /\
      (cr_Type d = "oidc" \/ cr_Type d = "spiffe" \/ cr_Type d = "aws-sts" \/ cr_Type d = "kerberos" \/ cr_Type d = "saml");
  wf_keys : NoDup (ck_KID <$> sp_SigningKeys (fa_Spec f)) /\
    forall k, k ∈ sp_SigningKeys (fa_Spec f) ->
      ck_KID k <> "" /\
      ((ck_Algorithm k = "ES256" \/ ck_Algorithm k = "RS256" \/ ck_Algorithm k = "EdDSA") /\ ck_KMSKeyID k <> "");
  wf_streams : NoDup (cs_StreamID <$> sp_SSFStreams (fa_Spec f)) /\
    forall x, x ∈ sp_SSFStreams (fa_Spec f) ->
      cs_StreamID x <> "" /\
      (cs_Transmitter x <> "" /\ exists u, url_Parse (cs_Transmitter x) = Ok u /\ Transmitter.Scheme u <> "");
  wf_anchor : forall a, sp_Anchor (fa_Spec f) = Some a ->
    (an_Type a = "s3" /\ an_Bucket a <> "") \/ (an_Type a = "gcs" /\ an_Bucket a <> "") \/
    (an_Type a = "filesystem" /\ an_Path a <> "");
}.

Lemma validateAnchor_ok a :
  validateAnchor (Some a) = [] <->
  (an_Type a = "s3" /\ an_Bucket a <> "") \/ (an_Type a = "gcs" /\ an_Bucket a <> "") \/
  (an_Type a = "filesystem" /\ an_Path a <> "").
Proof.
  unfold validateAnchor.
  destruct (String.eqb_spec (an_Type a) "s3") as [E1|E1]; cbn [orb].
  { rewrite E1, if_empty, String.eqb_neq. naive_solver. }
  destruct (String.eqb_spec (an_Type a) "gcs") as [E2|E2].
  { rewrite E2, if_empty, String.eqb_neq. naive_solver. }
  destruct (String.eqb_spec (an_Type a) "filesystem") as [E3|E3].
  { rewrite E3, if_empty, String.eqb_neq. naive_solver. }
  destruct (an_Type a =? "")%string; naive_solver.
Qed.

Lemma domainTypes_ok t :
  str_mem t domainTypes = true <-> t = "oidc" \/ t = "spiffe" \/ t = "aws-sts" \/ t = "kerberos" \/ t = "saml".
Proof. rewrite str_mem_true. unfold domainTypes. set_solver. Qed.

Lemma algorithms_ok a : str_mem a algorithms = true <-> a = "ES256" \/ a = "RS256" \/ a = "EdDSA".
Proof. rewrite str_mem_true. unfold algorithms. set_solver. Qed.

Lemma ValidateFabric_ok url_Parse f : ValidateFabric url_Parse f = [] <-> well_formed url_Parse f.
Proof.
  unfold ValidateFabric, validateTrustDomains, validateSigningKeys, validateSSFStreams.
  rewrite !app_nil_iff, if_empty, String.eqb_neq.
  rewrite (validateEntries_ok "trustDomains" cr_Name _ (fun d => cr_Type d = "oidc" \/ cr_Type d = "spiffe" \/
    cr_Type d = "aws-sts" \/ cr_Type d = "kerberos" \/ cr_Type d = "saml")).
  2: { intros i d. rewrite <- domainTypes_ok. destruct (str_mem _ _); [done|]. by destruct (cr_Type d =? "")%string. }
  rewrite (validateEntries_ok "signingKeys" ck_KID _ (fun k =>
    (ck_Algorithm k = "ES256" \/ ck_Algorithm k = "RS256" \/ ck_Algorithm k = "EdDSA") /\ ck_KMSKeyID k <> "")).
  2: { intros i k. rewrite <- algorithms_ok, app_nil_iff, if_empty, String.eqb_neq. destruct (str_mem _ _); [naive_solver|].
       destruct (ck_Algorithm k =? "")%string; naive_solver. }
  rewrite (validateEntries_ok "ssfStreams" cs_StreamID _
    (fun x => cs_Transmitter x <> "" /\ exists u, url_Parse (cs_Transmitter x) = Ok u /\ Transmitter.Scheme u <> "")).
  2: { intros i x. destruct (String.eqb_spec (cs_Transmitter x) ""); [naive_solver|].
       destruct (url_Parse (cs_Transmitter x)) as [u|e]; [|naive_solver]. rewrite if_empty, String.eqb_neq. naive_solver. }
  split.
  - intros (H1 & H2 & H3 & H4 & H5). split; [done..|]. intros a Ha. rewrite Ha in H5. by apply validateAnchor_ok.
  - intros [H1 H2 H3 H4 H5]. do 4 (split; [done|]). destruct (sp_Anchor (fa_Spec f)) as [a|]; [|done].
    by apply validateAnchor_ok, H5.
Qed.

(** C40: The validation reports no error exactly for the well-formed resources: a name; trust domains with
    distinct non-empty names, each of type oidc, spiffe, aws-sts, kerberos or saml; signing keys with distinct
    non-empty identifiers, each of algorithm ES256, RS256 or EdDSA and with a KMS key; SSF streams with distinct
    non-empty identifiers, each with a transmitter URL that parses and has a scheme; and an anchor, if there is
    one, that is s3 or gcs with a bucket or filesystem with a path. *)
Theorem validate_fabric_exactly url_Parse f : ValidateFabric url_Parse f = [] <-> well_formed url_Parse f.
Proof. apply ValidateFabric_ok. Qed.

(** * Reconciling an in-process fabric *)

Section Embedded.
Context `{!JwtLib}.
Variable clock : nat -> Time.
Variable random : nat -> list Byte.byte.
Variable url_Parse : string -> result string Transmitter.URL.
Variable rev_Hash : Revocation.InMemoryRevocationIndex -> string.
Variable ord : RangeOrder.
Variables now exported : Time.

#[local] Instance embedded_connection : Connection InProcessConnection := InProcess_Connection clock random url_Parse.
Definition embedded_fabric : FabricConnection InProcessConnection :=
  {| fc_CurrentManifest := fun c => Ok (CurrentManifest rev_Hash ord now exported c);
     fc_Health := fun c => Ok (Health c);
     fc_SetDesiredSpec := SetDesiredSpec |}.
#[local] Existing Instance embedded_fabric.

Variable reads : nat -> Time.
Variable errText : PlanErr conn_Err -> string.
Variable writeStatus : StarlightFabric -> option string.
Abbreviation reconcile := (ReconcileFabric reads errText writeStatus).

Lemma represented_length ds ds' :
  NoDup (td_Name <$> ds) -> NoDup (td_Name <$> ds') -> index td_Name ds = index td_Name ds' -> length ds = length ds'.
Proof using Type.
  intros H1 H2 He. apply Permutation_length, NoDup_Permutation; [by eapply NoDup_fmap_1|by eapply NoDup_fmap_1|].
  intros x. assert (Hx : forall l, NoDup (td_Name <$> l) -> x ∈ l <-> index td_Name l !! td_Name x = Some x).
  { intros l Hl. rewrite index_lookup by done. naive_solver. }
  by rewrite !Hx, He.
Qed.

End Embedded.

(** * Examples *)

Definition demo_url (s : string) : result string Transmitter.URL :=
  Ok {| Transmitter.Scheme := "https"; Transmitter.Hostname := s |}.
Definition demo_crd (name issuer : string) : CRDomain :=
  {| cr_Name := name; cr_Type := "oidc"; cr_Issuer := issuer; cr_JWKSURI := ""; cr_Enabled := true |}.
Definition demo_fabric (ks : list CRKey) : StarlightFabric :=
  {| fa_Name := "eu";
     fa_Spec := {| sp_TrustDomains := [demo_crd "a" "https://a2"; demo_crd "c" "https://c"]; sp_SigningKeys := ks;
                   sp_SSFStreams := []; sp_Anchor := None; sp_Policy := None; sp_Federation := None |};
     fa_Status := noStatus |}.
Definition demo_missing : CRKey :=
  {| ck_KID := "k9"; ck_Algorithm := "RS256"; ck_KMSKeyID := "arn:k9"; ck_RotationPolicy := ""; ck_Status := "" |}.
#[local] Instance demo_connection : Connection (@InProcessConnection JwtModel.lib) :=
  InProcess_Connection demo_clock demo_random demo_url.
#[local] Instance demo_embedded : FabricConnection (@InProcessConnection JwtModel.lib) :=
  embedded_fabric demo_clock demo_random demo_url demo_hash key_order 1 2.
Definition demo_reads (n : nat) : Time := Z.of_nat n + 10.
Definition demo_outcome (ks : list CRKey) : @Outcome _ demo_connection :=
  ReconcileFabric demo_reads (fun _ => "apply failed") (fun _ => None) (fun _ => key_order) (demo_fabric ks) demo_conn.

Example demo_reconcile :
  (oc_err (demo_outcome []), td_Name <$> currentTrustDomains (oc_conn (demo_outcome [])), oc_RequeueAfter (demo_outcome [])) =
  (None, ["a"; "c"], 60).
Proof. vm_compute. reflexivity. Qed.

(** A resource that names no trust domain is valid, but the fabric it is applied to goes on with the domains of
    its boot configuration, and the reconciliation reports no error. *)
Definition demo_emptied : StarlightFabric :=
  {| fa_Name := "eu";
     fa_Spec := {| sp_TrustDomains := []; sp_SigningKeys := []; sp_SSFStreams := []; sp_Anchor := None;
                   sp_Policy := None; sp_Federation := None |};
     fa_Status := noStatus |}.
Example emptied_fabric_keeps_boot :
  let o := ReconcileFabric demo_reads (fun _ => "apply failed") (fun _ => None) (fun _ => key_order) demo_emptied demo_conn in
  ValidateFabric demo_url demo_emptied = [] /\ oc_err o = None /\
  (td_Name <$> currentTrustDomains (oc_conn o)) = ["a"; "b"].
Proof. vm_compute. done. Qed.

Lemma failed_apply_claims_convergence_witness :
  IsConverged (fa_Status (oc_fabric (demo_outcome [demo_missing]))) = true.
Proof.
  eapply (failed_apply_claims_convergence demo_reads (fun _ => "apply failed") (fun _ => None) (fun _ => key_order)
    (demo_fabric [demo_missing]) demo_conn).
  vm_compute. reflexivity.
Defined.


(** A fabric with a trust domain of every allowed kind of entry is accepted; an algorithm outside the schema, a
    repeated domain and a bucket that is missing are each refused. *)
Definition demo_full (alg second bucket : string) : StarlightFabric :=
  {| fa_Name := "eu";
     fa_Spec := {| sp_TrustDomains := [demo_crd "a" "https://a"; demo_crd second "https://b"];
                   sp_SigningKeys := [{| ck_KID := "k1"; ck_Algorithm := alg; ck_KMSKeyID := "arn:k1";
                                         ck_RotationPolicy := ""; ck_Status := "" |}];
                   sp_SSFStreams := [{| cs_StreamID := "s1"; cs_Transmitter := "https://ssf"; cs_EventsRequested := [] |}];
                   sp_Anchor := Some {| an_Type := "s3"; an_Bucket := bucket; an_Prefix := ""; an_Path := "" |};
                   sp_Policy := None; sp_Federation := None |};
     fa_Status := noStatus |}.

Lemma validate_fabric_exactly_witness :
  well_formed demo_url (demo_full "ES256" "b" "soul") /\ (well_formed demo_url (demo_full "none" "b" "soul") -> False) /\
  (well_formed demo_url (demo_full "ES256" "a" "soul") -> False) /\ (well_formed demo_url (demo_full "ES256" "b" "") -> False).
Proof.
  split; [apply (validate_fabric_exactly demo_url); vm_compute; reflexivity|].
  split_and!; intros H; apply (validate_fabric_exactly demo_url) in H; vm_compute in H; discriminate.
Defined.
End OperatorCtl.
