(* ===== verification/Rotation.v ===== *)
(** The lifecycle workflows ([pkg/lifecycle]): the shared activities ([activities.go]), the rotation of the
    signing key as a saga over the keyring ([rotation_workflow.go]) and the compliance scan
    ([compliance_workflow.go]). The workflow engine runs an activity up to three times; an attempt
    may be lost before or after it took effect, and others may use the keyring in between. *)
From Stdlib Require Import ZArith Lia.
From stdpp Require Import base gmap strings list pretty.
From S2P Require Import Prelude.
From S2P Require Import GoLib.
From S2P Require Import JwtModel.
From S2P Require Import Core.
From S2P Require Import Keyring.
From S2P Require Import Revocation.

#[local] Open Scope string_scope.
#[local] Open Scope list_scope.
#[local] Open Scope Z_scope.

Module Rotation.


(** * Types ([types.go]) *)

Definition eventType (n : string) : string := "https://schemas.openid.net/secevent/starfly/event-type/" +:+ n.
Definition EventTypeRotationInitiated : string := eventType "rotation-initiated".
Definition EventTypeRotationComplete : string := eventType "rotation-complete".
Definition EventTypeRotationRollback : string := eventType "rotation-rollback".
Definition EventTypeComplianceScanStart : string := eventType "compliance-scan-started".
Definition EventTypeComplianceFinding : string := eventType "compliance-finding".
Definition EventTypeComplianceScanDone : string := eventType "compliance-scan-complete".

Record RevokeRequest : Type := { rq_SubjectID : string; rq_Reason : string; rq_ExpiresIn : Duration }.
Record RevocationResult : Type := { rr_Revoked : bool; rr_Reason : string; rr_RevokedAt : Time }.

(** [RotationParams] and its defaults *)
Record RotationParams : Type := {
  KeyType : string;
  GracePeriod : Duration;
  PropagationTimeout : Duration;
}.
Definition DefaultRotationParams : RotationParams :=
  {| KeyType := "RSA-2048"; GracePeriod := 5 * Minute; PropagationTimeout := 30 * Second |}.
Definition withDefaults (p : RotationParams) : RotationParams :=
  {| KeyType := if (KeyType p =? "")%string then "RSA-2048" else KeyType p;
     GracePeriod := if GracePeriod p =? 0 then 5 * Minute else GracePeriod p;
     PropagationTimeout := if PropagationTimeout p =? 0 then 30 * Second else PropagationTimeout p |}.

(** [ExecutionScopeInput] *)
Record ExecutionScopeInput : Type := {
  xi_Method : string; xi_URI : string; xi_PayloadHash : string; xi_Nonce : string;
}.
(** The scope an activity decodes from the JSON of the input. *)
Definition decodeScope (i : ExecutionScopeInput) : ExecutionScope :=
  {| Method := xi_Method i; URI := xi_URI i; ExecAct := ""; InputHash := ""; OutputHash := ""; Target := "";
     WorkflowID := ""; PayloadHash := xi_PayloadHash i; Nonce := xi_Nonce i |}.

Inductive LifecycleErr : Type :=
| ErrTimeout
| ErrUnsupportedKeyType (t : string)
| ErrGenerating (e : string)
| ErrKeyring (e : Keyring.KeyringErr)
| ErrActiveKey (active expected : string)
| ErrTransmit (e : string)
| ErrExchange (e : string)
| ErrSleep (e : string).
Inductive RotationErr : Type :=
| ErrInitiated (e : LifecycleErr) | ErrGenerate (e : LifecycleErr) | ErrPropagation (e : LifecycleErr)
| ErrMint (e : LifecycleErr) | ErrSwap (e : LifecycleErr) | ErrVerify (e : LifecycleErr)
| ErrGrace (e : LifecycleErr).

(** What happens to an attempt of an activity: its outcome is reported, or lost after it ran, or it
    never ran. *)
Inductive Fault : Type := Delivered | LostResult | NotStarted.

Section Rotation.
Context `{!JwtLib}.
Variable unitID : string.
Variable clock : nat -> Time.
(** The keys made by [rsa.GenerateKey] and [ecdsa.GenerateKey]. *)
Variables rsa_GenerateKey ecdsa_GenerateKey : nat -> result string crypto_Signer.
(** The transmitter and the exchanger. *)
Variable transmit : SecurityEvent -> option string.
Variable exchange : TokenExchangeRequest -> result string TokenExchangeResponse.
Variable sha256Hex : string -> string.
(** The fate of the n-th attempt and what others do to the keyring before it. *)
Variable faults : nat -> Fault.
Variable others : nat -> list Keyring.Op.
(** [workflow.Sleep] fails when the workflow is cancelled; the first wait and the second. *)
Variable sleep : nat -> option string.

(** The state: the keyring, the readings of the clock, the attempts so far and the events sent. *)
Record RS : Type := {
  r_kr : Keyring.Keyring;
  r_now : nat;
  r_attempts : nat;
  r_sent : list SecurityEvent;
}.
Abbreviation Act A := (M RS LifecycleErr A) (only parsing).

Definition now : Act Time := fun s =>
  ({| r_kr := r_kr s; r_now := S (r_now s); r_attempts := r_attempts s; r_sent := r_sent s |}, Ok (clock (r_now s))).
Definition set_kr (kr : Keyring.Keyring) (s : RS) : RS :=
  {| r_kr := kr; r_now := r_now s; r_attempts := r_attempts s; r_sent := r_sent s |}.
(** A call of the key manager. *)
Definition manage (f : Keyring.Keyring -> result Keyring.KeyringErr Keyring.Keyring) : Act unit := fun s =>
  match f (r_kr s) with
  | Ok kr => (set_kr kr s, Ok tt)
  | Err e => (s, Err (ErrKeyring e))
  end.
Definition activeKid : Act string := fun s => (s, Ok (Keyring.ActiveKid (r_kr s))).

(** * The activities *)

(** [EmitLifecycleSignal] *)
Definition EmitLifecycleSignal (typ subjectID : string) (claims : gmap string value) : Act unit :=
  do t1 <- now ;;
  do t2 <- now ;;
  fun s =>
    let event := {| ev_Issuer := unitID; ev_JTI := "lifecycle-" +:+ typ +:+ "-" +:+ pretty (UnixNano t1);
                    ev_IssuedAt := Unix t2; ev_Audience := "urn:starfly:fabric";
                    ev_SubjectID := Some {| si_Format := "uri"; si_SpiffeID := ""; si_Email := ""; si_URI := subjectID |};
                    ev_Events := {[ typ := claims ]}; ev_TransactionID := "" |} in
    ({| r_kr := r_kr s; r_now := r_now s; r_attempts := r_attempts s; r_sent := r_sent s ++ [event] |},
     match transmit event with Some e => Err (ErrTransmit e) | None => Ok tt end).

(** [MintExecutionScopedToken] and the request it makes *)
Definition mintRequest (i : ExecutionScopeInput) : TokenExchangeRequest :=
  {| GrantType := "urn:ietf:params:oauth:grant-type:token-exchange";
     SubjectToken := "urn:starfly:lifecycle-worker:" +:+ unitID;
     SubjectTokenType := "urn:ietf:params:oauth:token-type:jwt";
     Audience := "urn:starfly:internal"; Scope := ""; ActorToken := ""; ActorTokenType := "";
     RequestedTokenType := ""; DPoPProof := ""; Attestation := None;
     req_ExecutionScope := Some (decodeScope i) |}.
Definition MintExecutionScopedToken (i : ExecutionScopeInput) : Act string :=
  st_lift (match exchange (mintRequest i) with
           | Ok resp => Ok (AccessToken resp)
           | Err e => Err (ErrExchange e)
           end).

(** [generateKey]: the key identifier carries the time. *)
Definition generateKey (keyType : string) : Act (string * crypto_Signer) :=
  do t <- now ;;
  fun s =>
    let made (r : result string crypto_Signer) :=
      match r with Ok k => Ok ("starfly-" +:+ pretty (UnixNano t), k) | Err e => Err (ErrGenerating e) end in
    (s, if (keyType =? "RSA-2048")%string then made (rsa_GenerateKey (r_now s))
        else if (keyType =? "EC-P256")%string then made (ecdsa_GenerateKey (r_now s))
        else Err (ErrUnsupportedKeyType keyType)).

(** [GenerateAndPublishKey], [SwapSigningKey], [VerifyNewKey], [RemoveKey] and [RollbackToKey] *)
Definition GenerateAndPublishKey (keyType : string) : Act string :=
  do km <- generateKey keyType ;;
  do _ <- manage (Keyring.AddKey km.1 km.2) ;;
  st_ret km.1.
Definition SwapSigningKey (newKid : string) (execToken : string) : Act string :=
  do oldKid <- activeKid ;;
  do _ <- manage (Keyring.ActivateKey newKid) ;;
  st_ret oldKid.
Definition VerifyNewKey (newKid : string) : Act unit :=
  do active <- activeKid ;;
  st_lift (reject (negb (active =? newKid)%string) (ErrActiveKey active newKid)).
Definition RemoveKey (kid : string) : Act unit := manage (Keyring.RemoveKey kid).
Definition RollbackToKey (oldKid newKid : string) : Act unit :=
  do _ <- manage (Keyring.ActivateKey oldKid) ;;
  manage (Keyring.RemoveKey newKid).

(** * The workflow engine: [workflow.ExecuteActivity] under the retry policy *)

Definition MaximumAttempts : nat := 3.
Definition attempt (s : RS) : RS :=
  {| r_kr := Keyring.run_ops (others (r_attempts s)) (r_kr s); r_now := r_now s;
     r_attempts := S (r_attempts s); r_sent := r_sent s |}.
Fixpoint attempts {A} (n : nat) (e : LifecycleErr) (act : Act A) : Act A := fun s =>
  match n with
  | O => (s, Err e)
  | S n' =>
      match faults (r_attempts s) with
      | NotStarted => attempts n' ErrTimeout act (attempt s)
      | LostResult => attempts n' ErrTimeout act (act (attempt s)).1
      | Delivered => match act (attempt s) with
                     | (s', Ok a) => (s', Ok a)
                     | (s', Err e') => attempts n' e' act s'
                     end
      end
  end.
Definition ExecuteActivity {A} (act : Act A) : Act A := attempts MaximumAttempts ErrTimeout act.

(** * The saga ([RotationWorkflow]) *)

Definition ExecutionScopeForSwap (t : Time) (newKid payloadHash : string) : ExecutionScopeInput :=
  {| xi_Method := "POST"; xi_URI := "/internal/signing-key"; xi_PayloadHash := payloadHash;
     xi_Nonce := "rotate-" +:+ newKid +:+ "-" +:+ pretty (UnixNano t) |}.

Abbreviation Wf A := (M RS RotationErr A) (only parsing).
(** [if err != nil { undo; return err }] *)
Definition orElse {A} (m : Act A) (undo : Act unit) (wrap : LifecycleErr -> RotationErr) : Wf A := fun s =>
  match m s with
  | (s', Ok a) => (s', Ok a)
  | (s', Err e) => ((undo s').1, Err (wrap e))
  end.
(** [_ = ...Get(ctx, nil)] *)
Definition ignoring {A} (m : Act A) : Act unit := fun s => ((m s).1, Ok tt).
Definition nothing : Act unit := st_ret tt.
Definition signingKey : string := "urn:starfly:signing-key".
Definition emit (typ : string) (claims : list (string * string)) : Act unit :=
  ExecuteActivity (EmitLifecycleSignal typ signingKey (list_to_map (prod_map id VStr <$> claims))).
Definition rolledBack (undo : Act unit) (claims : list (string * string)) : Act unit :=
  do _ <- ignoring (ExecuteActivity undo) ;;
  ignoring (emit EventTypeRotationRollback claims).
Definition wait (i : nat) : Act unit := st_lift (match sleep i with Some e => Err (ErrSleep e) | None => Ok tt end).

Definition RotationWorkflow (params0 : RotationParams) : Wf unit :=
  let params := withDefaults params0 in
  do _ <- orElse (emit EventTypeRotationInitiated [("key_type", KeyType params)]) nothing ErrInitiated ;;
  do newKid <- orElse (ExecuteActivity (GenerateAndPublishKey (KeyType params))) nothing ErrGenerate ;;
  do _ <- orElse (wait 0) nothing ErrPropagation ;;
  do t <- orElse now nothing ErrMint ;;
  do execToken <- orElse (ExecuteActivity (MintExecutionScopedToken
                            (ExecutionScopeForSwap t newKid (sha256Hex newKid))))
                    (rolledBack (RemoveKey newKid) [("reason", "exec-token-mint-failed"); ("new_kid", newKid)]) ErrMint ;;
  do oldKid <- orElse (ExecuteActivity (SwapSigningKey newKid execToken))
                 (rolledBack (RemoveKey newKid) [("reason", "swap-failed"); ("new_kid", newKid)]) ErrSwap ;;
  do _ <- orElse (ExecuteActivity (VerifyNewKey newKid))
            (rolledBack (RollbackToKey oldKid newKid)
               [("reason", "verify-failed"); ("old_kid", oldKid); ("new_kid", newKid)]) ErrVerify ;;
  do _ <- orElse (wait 1) nothing ErrGrace ;;
  do _ <- orElse (ignoring (ExecuteActivity (RemoveKey oldKid))) nothing ErrGrace ;;
  orElse (ignoring (emit EventTypeRotationComplete [("old_kid", oldKid); ("new_kid", newKid)])) nothing ErrGrace.

(** * Invariants of activities and workflows

    [ensures I Q m]: [m] keeps [I] whatever happens, and what it returns satisfies [Q]. *)

Definition ensures {E A} (I : RS -> Prop) (Q : A -> Prop) (m : M RS E A) : Prop :=
  forall s, I s -> I (m s).1 /\ forall a, (m s).2 = Ok a -> Q a.
Definition anything {A} (a : A) : Prop := True.

Section Ensures.
Context (I : RS -> Prop) (Hattempt : forall s, I s -> I (attempt s)).
Context (Hnow : forall s, I s -> I (now s).1).
Implicit Types (E A B : Type).

Lemma ensures_weaken {E A} (Q Q' : A -> Prop) (m : M RS E A) :
  ensures I Q m -> (forall a, Q a -> Q' a) -> ensures I Q' m.
Proof. intros Hm HQ s Hs. destruct (Hm s Hs) as [H1 H2]. split; [done|]. intros a Ha. by apply HQ, H2. Qed.
Lemma ensures_ret {E A} (Q : A -> Prop) (a : A) : Q a -> ensures (E:=E) I Q (st_ret a).
Proof. intros Ha s Hs. split; [done|]. by intros ? [= <-]. Qed.
Lemma ensures_lift {E A} (r : result E A) : ensures I anything (st_lift r).
Proof. by intros s Hs. Qed.
Lemma ensures_bind {E A B} (P : A -> Prop) (Q : B -> Prop) (m : M RS E A) (k : A -> M RS E B) :
  ensures I P m -> (forall a, P a -> ensures I Q (k a)) -> ensures I Q (st_bind m k).
Proof.
  intros Hm Hk s Hs. unfold st_bind. destruct (Hm s Hs) as [H1 H2].
  destruct (m s) as [s' [a|e]]; cbn in *; [by apply Hk, H1; apply H2|by split].
Qed.
Lemma ensures_now (Q : Time -> Prop) : (forall n, Q (clock n)) -> ensures I Q now.
Proof using Hnow. intros HQ s Hs. split; [by apply Hnow|]. intros a [= <-]. apply HQ. Qed.
Lemma ensures_attempts {A} (Q : A -> Prop) (act : Act A) n : forall e,
  ensures I Q act -> ensures I Q (attempts n e act).
Proof using Hattempt.
  induction n as [|n IH]; intros e Ha s Hs; cbn; [by split|].
  destruct (Ha (attempt s) (Hattempt s Hs)) as [H1 H2].
  destruct (faults (r_attempts s)).
  - destruct (act (attempt s)) as [s' [a|e']]; cbn in *; [by split|by apply IH].
  - by apply IH.
  - apply IH; [done|]. by apply Hattempt.
Qed.
Lemma ensures_ignoring {A} (Q : A -> Prop) (m : Act A) : ensures I Q m -> ensures I anything (ignoring m).
Proof. intros Hm s Hs. split; [by apply (Hm s)|done]. Qed.
Lemma ensures_orElse {A} (Q : A -> Prop) (m : Act A) undo wrap :
  ensures I Q m -> ensures I anything undo -> ensures I Q (orElse m undo wrap).
Proof.
  intros Hm Hu s Hs. unfold orElse. destruct (Hm s Hs) as [H1 H2]. destruct (m s) as [s' [a|e]]; cbn in *.
  - split; [done|]. intros a' [= <-]. by apply H2.
  - split; [by apply Hu|done].
Qed.
Lemma ensures_generate (Q : string * crypto_Signer -> Prop) keyType :
  (forall n k, Q ("starfly-" +:+ pretty (UnixNano (clock n)), k)) -> ensures I Q (generateKey keyType).
Proof using Hnow.
  intros HQ. unfold generateKey.
  apply (ensures_bind (fun t => exists n, t = clock n)); [apply ensures_now; by eexists|].
  intros t [n ->] s Hs. cbn zeta. split; [done|]. intros km. cbn [snd].
  destruct (keyType =? "RSA-2048")%string; [destruct (rsa_GenerateKey (r_now s)); [intros [= <-]; apply HQ|done]|].
  destruct (keyType =? "EC-P256")%string; [destruct (ecdsa_GenerateKey (r_now s)); [intros [= <-]; apply HQ|done]|done].
Qed.
Lemma ensures_emit typ claims :
  (forall s evs, I s -> I {| r_kr := r_kr s; r_now := r_now s; r_attempts := r_attempts s; r_sent := evs |}) ->
  ensures I anything (emit typ claims).
Proof using Hattempt Hnow.
  intros Hsent. unfold emit, ExecuteActivity. apply ensures_attempts. unfold EmitLifecycleSignal.
  apply (ensures_bind anything); [by apply ensures_now|intros t1 _].
  apply (ensures_bind anything); [by apply ensures_now|intros t2 _].
  intros s Hs. cbn zeta. split; [by apply Hsent|done].
Qed.
Lemma ensures_rolledBack undo claims :
  ensures I anything undo ->
  (forall s evs, I s -> I {| r_kr := r_kr s; r_now := r_now s; r_attempts := r_attempts s; r_sent := evs |}) ->
  ensures I anything (rolledBack undo claims).
Proof using Hattempt Hnow.
  intros Hu Hsent. unfold rolledBack. apply (ensures_bind anything).
  - eapply ensures_ignoring. by apply ensures_attempts.
  - intros _ _. eapply ensures_ignoring. by apply ensures_emit.
Qed.
End Ensures.

(** * The fabric can always sign *)

Definition signs (s : RS) : Prop := Keyring.wf (r_kr s).

Lemma signs_manage o : ensures signs anything (manage (Keyring.apply_op o)).
Proof.
  intros s Hs. unfold manage. split; [|done]. assert (Hw := Keyring.step_op_wf o _ Hs). unfold Keyring.step_op in Hw.
  destruct (Keyring.apply_op o (r_kr s)); cbn; done.
Qed.
Lemma signs_attempt s : signs s -> signs (attempt s).
Proof. intros Hs. unfold signs, attempt. cbn. by apply Keyring.run_ops_wf. Qed.

(** The building blocks of the workflow under an invariant. *)
Ltac wf_step :=
  lazymatch goal with
  | |- ensures _ _ (emit _ _) => apply ensures_emit; [assumption|done|done]
  | |- ensures _ _ (rolledBack _ _) => apply ensures_rolledBack; [assumption|done| |done]
  | |- ensures _ _ (ignoring _) => eapply ensures_ignoring
  | |- ensures _ _ (orElse _ _ _) => apply ensures_orElse
  | |- ensures _ _ (ExecuteActivity _) => apply ensures_attempts; [assumption|]
  | |- ensures _ anything (st_bind _ _) => apply (ensures_bind _ anything); [|intros ? _]
  | |- ensures _ anything (st_ret _) => by apply ensures_ret
  | |- ensures _ anything (st_lift _) => apply ensures_lift
  | |- ensures _ anything now => by apply ensures_now
  | |- ensures _ anything nothing => by apply ensures_ret
  | |- ensures _ anything activeKid => by intros ? ?
  | |- ensures _ anything (wait _) => apply ensures_lift
  | |- ensures _ anything (generateKey _) => apply ensures_generate; [done|done]
  end.

(** Whatever attempts fail or are lost and whatever others do to the keyring meanwhile, and however the
    rotation ends, the fabric has an active signing key afterwards. *)
Theorem rotation_keeps_signing_key p s :
  signs s -> signs (RotationWorkflow p s).1.
Proof using All.
  assert (HA := signs_attempt).
  enough (Hw : ensures signs anything (RotationWorkflow p)) by (intros Hs; by apply Hw).
  assert (HAdd := fun kid k => signs_manage (Keyring.OpAdd kid k)).
  assert (HAct := fun kid => signs_manage (Keyring.OpActivate kid)).
  assert (HRem := fun kid => signs_manage (Keyring.OpRemove kid)).
  unfold RotationWorkflow, GenerateAndPublishKey, SwapSigningKey, VerifyNewKey, RemoveKey, RollbackToKey,
    MintExecutionScopedToken.
  repeat first [wf_step|apply HAdd|apply HAct|apply HRem].
Qed.

(** * Keys are kept through the grace period *)

Definition generated (kid : string) : Prop := exists n, kid = "starfly-" +:+ pretty (UnixNano (clock n)).

Section Kept.
Context (kr0 : Keyring.Keyring).

(** Every key of [kr0] is still there, and the active one is that of [kr0] or a generated one. *)
Definition kept (s : RS) : Prop :=
  (forall kid k, Keyring.keys kr0 !! kid = Some k -> Keyring.keys (r_kr s) !! kid = Some k) /\
  (Keyring.activeKid (r_kr s) = Keyring.activeKid kr0 \/ generated (Keyring.activeKid (r_kr s))).
Definition known (kid : string) : Prop := kid = Keyring.activeKid kr0 \/ generated kid.

Context (Hfresh : forall kid, generated kid -> Keyring.keys kr0 !! kid = None).
Context (Halone : forall n, others n = []).

Lemma kept_attempt s : kept s -> kept (attempt s).
Proof using Halone. unfold kept, attempt. cbn. by rewrite Halone. Qed.
Lemma kept_add kid k : generated kid -> ensures kept anything (manage (Keyring.AddKey kid k)).
Proof using Hfresh.
  intros Hg s [H1 H2]. unfold manage. split; [|done]. destruct (Keyring.AddKey kid k (r_kr s)) as [kr|] eqn:Ha; [|done].
  unfold Keyring.AddKey in Ha. inv_ok. cbn. split; [|done]. intros kid' k' Hk'. cbn. rewrite lookup_insert_ne; [by apply H1|].
  intros ->. by rewrite Hfresh in Hk'.
Qed.
Lemma kept_activate kid : known kid -> ensures kept anything (manage (Keyring.ActivateKey kid)).
Proof.
  intros Hk s [H1 H2]. unfold manage. split; [|done]. unfold Keyring.ActivateKey.
  destruct (Keyring.keys (r_kr s) !! kid); done.
Qed.
Lemma kept_remove kid : generated kid -> ensures kept anything (manage (Keyring.RemoveKey kid)).
Proof using Hfresh.
  intros Hg s [H1 H2]. unfold manage. split; [|done]. unfold Keyring.RemoveKey.
  destruct (kid =? Keyring.activeKid (r_kr s))%string; [done|]. split; [|done]. intros kid' k' Hk'. cbn.
  rewrite lookup_delete_ne; [by apply H1|]. intros ->. by rewrite Hfresh in Hk'.
Qed.
Lemma kept_generate keyType : ensures kept generated (GenerateAndPublishKey keyType).
Proof using Hfresh.
  unfold GenerateAndPublishKey. apply (ensures_bind _ (fun km => generated km.1)).
  - apply ensures_generate; [done|]. intros n k. by exists n.
  - intros km Hkm. apply (ensures_bind _ anything); [by apply kept_add|]. intros _ _. by apply ensures_ret.
Qed.
Lemma kept_swap newKid tok : generated newKid -> ensures kept known (SwapSigningKey newKid tok).
Proof.
  intros Hg. unfold SwapSigningKey. apply (ensures_bind _ known).
  - intros s Hs. split; [done|]. intros a [= <-]. apply Hs.
  - intros old Hold. apply (ensures_bind _ anything); [apply kept_activate; by right|]. intros _ _. by apply ensures_ret.
Qed.

(** The steps before the last removal. *)
Definition beforeRemoval (params : RotationParams) : Wf (string * string) :=
  do _ <- orElse (emit EventTypeRotationInitiated [("key_type", KeyType params)]) nothing ErrInitiated ;;
  do newKid <- orElse (ExecuteActivity (GenerateAndPublishKey (KeyType params))) nothing ErrGenerate ;;
  do _ <- orElse (wait 0) nothing ErrPropagation ;;
  do t <- orElse now nothing ErrMint ;;
  do execToken <- orElse (ExecuteActivity (MintExecutionScopedToken
                            (ExecutionScopeForSwap t newKid (sha256Hex newKid))))
                    (rolledBack (RemoveKey newKid) [("reason", "exec-token-mint-failed"); ("new_kid", newKid)]) ErrMint ;;
  do oldKid <- orElse (ExecuteActivity (SwapSigningKey newKid execToken))
                 (rolledBack (RemoveKey newKid) [("reason", "swap-failed"); ("new_kid", newKid)]) ErrSwap ;;
  do _ <- orElse (ExecuteActivity (VerifyNewKey newKid))
            (rolledBack (RollbackToKey oldKid newKid)
               [("reason", "verify-failed"); ("old_kid", oldKid); ("new_kid", newKid)]) ErrVerify ;;
  do _ <- orElse (wait 1) nothing ErrGrace ;;
  st_ret (newKid, oldKid).
Definition afterGrace (kids : string * string) : Wf unit :=
  do _ <- orElse (ignoring (ExecuteActivity (RemoveKey kids.2))) nothing ErrGrace ;;
  orElse (ignoring (emit EventTypeRotationComplete [("old_kid", kids.2); ("new_kid", kids.1)])) nothing ErrGrace.

Lemma RotationWorkflow_split p s :
  RotationWorkflow p s = st_bind (beforeRemoval (withDefaults p)) afterGrace s.
Proof.
  unfold RotationWorkflow, beforeRemoval, afterGrace. unfold st_bind.
  repeat match goal with
  | |- context [match ?m ?s with _ => _ end] => destruct (m s) as [? [?|?]]; [|reflexivity]
  end; reflexivity.
Qed.

Lemma beforeRemoval_kept params : ensures kept (fun kids => known kids.2) (beforeRemoval params).
Proof using Hfresh Halone.
  assert (HA := kept_attempt). unfold beforeRemoval.
  apply (ensures_bind _ anything); [repeat wf_step|intros _ _].
  apply (ensures_bind _ generated); [apply ensures_orElse; [|wf_step]; wf_step; apply kept_generate|intros newKid Hnew].
  apply (ensures_bind _ anything); [repeat wf_step|intros _ _].
  apply (ensures_bind _ anything); [repeat wf_step|intros t _].
  assert (Hrem := kept_remove newKid Hnew).
  apply (ensures_bind _ anything); [unfold MintExecutionScopedToken; repeat first [wf_step|apply Hrem]|intros tok _].
  apply (ensures_bind _ known).
  { apply ensures_orElse; [wf_step; by apply kept_swap|]. repeat first [wf_step|apply Hrem]. }
  intros oldKid Hold. assert (Hact := kept_activate oldKid Hold).
  apply (ensures_bind _ anything); [unfold VerifyNewKey, RollbackToKey; repeat first [wf_step|apply Hrem|apply Hact]|].
  intros _ _. apply (ensures_bind _ anything); [repeat wf_step|intros _ _]. by apply ensures_ret.
Qed.

(** After the grace period at most the key [old] goes, and only when it is not active. *)
Definition released (old : string) (s : RS) : Prop :=
  forall kid k, Keyring.keys kr0 !! kid = Some k ->
    Keyring.keys (r_kr s) !! kid = Some k \/ (kid = old /\ Keyring.activeKid (r_kr s) <> kid).

Lemma afterGrace_released kids : ensures (released kids.2) anything (afterGrace kids).
Proof using Halone.
  assert (HA : forall s, released kids.2 s -> released kids.2 (attempt s)).
  { unfold released, attempt. cbn. intros s. by rewrite Halone. }
  assert (Hrem : ensures (released kids.2) anything (RemoveKey kids.2)).
  { intros s Hs. unfold RemoveKey, manage. split; [|done]. unfold Keyring.RemoveKey.
    destruct (String.eqb_spec kids.2 (Keyring.activeKid (r_kr s))) as [|Hne]; [done|].
    intros kid k Hk. cbn. destruct (Hs kid k Hk) as [Hin|Hg]; [|by right].
    destruct (decide (kids.2 = kid)) as [<-|Hd]; [by right|]. left. by rewrite lookup_delete_ne. }
  unfold afterGrace. repeat first [wf_step|apply Hrem].
Qed.
End Kept.

Lemma beforeRemoval_grace params s s' kids :
  beforeRemoval params s = (s', Ok kids) -> sleep 0 = None /\ sleep 1 = None.
Proof.
  unfold beforeRemoval. intros Hb. inv_ok.
  repeat match goal with H : orElse (wait _) _ _ _ = _ |- _ => unfold orElse, wait, st_lift in H end.
  destruct (sleep 0); [done|]. by destruct (sleep 1).
Qed.

(** C25: Keys are not dropped while tokens may depend on them. When nobody else changes the keyring,
    whatever attempts fail or are lost, every key of the keyring survives the rotation; only the key
    that was active before may go, and only after both waiting periods, when another key is active. *)
Theorem rotation_keeps_keys p s kid k :
  (forall n, others n = []) ->
  (forall kid, generated kid -> Keyring.keys (r_kr s) !! kid = None) ->
  Keyring.keys (r_kr s) !! kid = Some k ->
  let s' := (RotationWorkflow p s).1 in
  Keyring.keys (r_kr s') !! kid = Some k \/
  (kid = Keyring.activeKid (r_kr s) /\ Keyring.activeKid (r_kr s') <> kid /\ sleep 0 = None /\ sleep 1 = None).
Proof using All.
  intros Halone Hfresh Hk. cbn zeta. rewrite RotationWorkflow_split. unfold st_bind.
  destruct (beforeRemoval_kept (r_kr s) Hfresh Halone (withDefaults p) s) as [Hkept Hkids]; [by split; [|left]|].
  destruct (beforeRemoval (withDefaults p) s) as [s1 [kids|e]] eqn:Hb; cbn [fst snd] in Hkept, Hkids |- *.
  - apply beforeRemoval_grace in Hb. specialize (Hkids kids eq_refl).
    destruct (afterGrace_released (r_kr s) Halone kids s1) as [Hrel _].
    { intros kid' k' Hk'. left. by apply Hkept. }
    destruct (Hrel kid k Hk) as [|[-> Hne]]; [by left|]. right. split; [|done].
    destruct Hkids as [|Hg]; [done|]. by rewrite Hfresh in Hk.
  - left. by apply Hkept.
Qed.

(** * The workflow ends *)

Definition costs {E A} (n : nat) (m : M RS E A) : Prop := forall s, (r_attempts (m s).1 <= r_attempts s + n)%nat.

Lemma costs_bind {E A B} n k (m : M RS E A) (f : A -> M RS E B) :
  costs n m -> (forall a, costs k (f a)) -> costs (n + k) (st_bind m f).
Proof.
  intros Hm Hf s. unfold st_bind. specialize (Hm s). destruct (m s) as [s' [a|e]]; cbn in *; [|lia].
  specialize (Hf a s'). lia.
Qed.
Lemma costs_attempts {A} (act : Act A) : costs 0 act -> forall n e, costs n (attempts n e act).
Proof.
  intros Ha. induction n as [|n IH]; intros e s; cbn; [lia|].
  assert (Hat : r_attempts (attempt s) = S (r_attempts s)) by done. specialize (Ha (attempt s)).
  destruct (faults (r_attempts s)).
  - destruct (act (attempt s)) as [s' [a|e']]; cbn in *; [lia|]. specialize (IH e' s'). lia.
  - specialize (IH ErrTimeout (act (attempt s)).1). lia.
  - specialize (IH ErrTimeout (attempt s)). lia.
Qed.
(** A guarded step: either the rollback runs, or the rest. *)
Lemma costs_step {A B} n u k (m : Act A) undo wrap (f : A -> Wf B) :
  costs n m -> costs u undo -> (forall a, costs k (f a)) -> costs (n + Nat.max u k) (st_bind (orElse m undo wrap) f).
Proof.
  intros Hm Hu Hf s. unfold st_bind, orElse. specialize (Hm s). destruct (m s) as [s' [a|e]]; cbn in *.
  - specialize (Hf a s'). lia.
  - specialize (Hu s'). lia.
Qed.
Lemma costs_manage f : costs 0 (manage f).
Proof. intros s. unfold manage. destruct (f (r_kr s)); cbn; lia. Qed.
Lemma costs_read {E A} (m : M RS E A) : (forall s, r_attempts (m s).1 = r_attempts s) -> costs 0 m.
Proof. intros Hm s. rewrite Hm. lia. Qed.
Lemma costs_emit typ claims : costs 3 (emit typ claims).
Proof. unfold emit. apply costs_attempts. by apply costs_read. Qed.
Lemma costs_rolledBack undo claims : costs 0 undo -> costs 6 (rolledBack undo claims).
Proof.
  intros Hu. unfold rolledBack. apply (costs_bind 3 3); [intros s; by apply (costs_attempts _ Hu 3)|].
  intros _ s. apply costs_emit.
Qed.
Lemma costs_RollbackToKey a b : costs 0 (RollbackToKey a b).
Proof. unfold RollbackToKey. apply (costs_bind 0 0); [apply costs_manage|intros _; apply costs_manage]. Qed.
Lemma costs_Generate kt : costs 0 (GenerateAndPublishKey kt).
Proof.
  unfold GenerateAndPublishKey. apply (costs_bind 0 0); [by apply costs_read|intros km].
  apply (costs_bind 0 0); [apply costs_manage|intros _; by apply costs_read].
Qed.
Lemma costs_Swap a b : costs 0 (SwapSigningKey a b).
Proof.
  unfold SwapSigningKey. apply (costs_bind 0 0); [by apply costs_read|intros old].
  apply (costs_bind 0 0); [apply costs_manage|intros _; by apply costs_read].
Qed.

(** The rotation ends: whatever fails, the workflow engine is asked for at most seven activities, hence
    for at most twenty-one attempts. *)
Theorem rotation_terminates p s : (r_attempts (RotationWorkflow p s).1 <= r_attempts s + 21)%nat.
Proof using All.
  enough (Hc : costs 21 (RotationWorkflow p)) by apply Hc. unfold RotationWorkflow.
  assert (Hex : forall A (act : Act A), costs 0 act -> costs 3 (ExecuteActivity act))
    by (intros A act Ha; exact (costs_attempts act Ha 3 ErrTimeout)).
  assert (Hun : costs 0 nothing) by (by apply costs_read).
  apply (costs_step 3 0 18); [apply costs_emit|done|intros _].
  apply (costs_step 3 0 15); [apply Hex, costs_Generate|done|intros newKid].
  apply (costs_step 0 0 15); [by apply costs_read|done|intros _].
  apply (costs_step 0 0 15); [by apply costs_read|done|intros t].
  apply (costs_step 3 6 12); [by apply Hex, costs_read|apply costs_rolledBack, costs_manage|intros tok].
  apply (costs_step 3 6 9); [apply Hex, costs_Swap|apply costs_rolledBack, costs_manage|intros oldKid].
  apply (costs_step 3 6 6); [by apply Hex, costs_read|apply costs_rolledBack, costs_RollbackToKey|intros _].
  apply (costs_step 0 0 6); [by apply costs_read|done|intros _].
  apply (costs_step 3 0 3); [intros s'; apply Hex, costs_manage|done|intros _].
  intros s'. unfold orElse, ignoring. cbn [fst]. apply costs_emit.
Qed.

(** * The outcome when the engine is reliable *)

Section Outcome.
Context (Halone : forall n, others n = []).
Context (Hsent : forall ev, transmit ev = None).

Lemma attempt_alone s : r_kr (attempt s) = r_kr s /\ r_now (attempt s) = r_now s /\ r_attempts (attempt s) = S (r_attempts s).
Proof using Halone. unfold attempt. cbn. by rewrite Halone. Qed.

Lemma exec_first {A} (act : Act A) s s' a :
  faults (r_attempts s) = Delivered -> act (attempt s) = (s', Ok a) -> ExecuteActivity act s = (s', Ok a).
Proof. intros Hf Ha. unfold ExecuteActivity. cbn. by rewrite Hf, Ha. Qed.

Lemma emit_delivered typ claims s :
  faults (r_attempts s) = Delivered ->
  exists s', emit typ claims s = (s', Ok tt) /\ r_kr s' = r_kr s /\ r_now s' = S (S (r_now s)) /\
    r_attempts s' = S (r_attempts s).
Proof using Halone Hsent.
  intros Hf. eexists. split.
  - unfold emit. apply exec_first; [done|]. unfold EmitLifecycleSignal, st_bind, now. cbn. by rewrite Hsent.
  - cbn. by rewrite Halone.
Qed.

(** The key the rotation publishes when the first attempts go through. *)
Definition newKidOf (s : RS) : string := "starfly-" +:+ pretty (UnixNano (clock (r_now s + 2))).

Lemma published p s k kr1 :
  KeyType (withDefaults p) = "RSA-2048" -> rsa_GenerateKey (r_now s + 3) = Ok k ->
  Keyring.AddKey (newKidOf s) k (r_kr s) = Ok kr1 ->
  faults (r_attempts s) = Delivered -> faults (S (r_attempts s)) = Delivered ->
  exists s2, r_kr s2 = kr1 /\ r_attempts s2 = S (S (r_attempts s)) /\
    beforeRemoval (withDefaults p) s =
    st_bind (orElse (wait 0) nothing ErrPropagation) (fun _ =>
      do t <- orElse now nothing ErrMint ;;
      do execToken <- orElse (ExecuteActivity (MintExecutionScopedToken
                                (ExecutionScopeForSwap t (newKidOf s) (sha256Hex (newKidOf s)))))
                        (rolledBack (RemoveKey (newKidOf s))
                           [("reason", "exec-token-mint-failed"); ("new_kid", newKidOf s)]) ErrMint ;;
      do oldKid <- orElse (ExecuteActivity (SwapSigningKey (newKidOf s) execToken))
                     (rolledBack (RemoveKey (newKidOf s)) [("reason", "swap-failed"); ("new_kid", newKidOf s)]) ErrSwap ;;
      do _ <- orElse (ExecuteActivity (VerifyNewKey (newKidOf s)))
                (rolledBack (RollbackToKey oldKid (newKidOf s))
                   [("reason", "verify-failed"); ("old_kid", oldKid); ("new_kid", newKidOf s)]) ErrVerify ;;
      do _ <- orElse (wait 1) nothing ErrGrace ;;
      st_ret (newKidOf s, oldKid)) s2.
Proof using Halone Hsent.
  intros Ht Hk Hadd Hf0 Hf1. unfold beforeRemoval. rewrite Ht.
  destruct (emit_delivered EventTypeRotationInitiated [("key_type", "RSA-2048")] s Hf0) as (s1 & He & Hkr & Hn & Ha).
  destruct (attempt_alone s1) as (H1 & H2 & H3).
  set (s2 := set_kr kr1 {| r_kr := r_kr s1; r_now := S (r_now s1); r_attempts := S (r_attempts s1); r_sent := r_sent s1 |}).
  assert (Hg : ExecuteActivity (GenerateAndPublishKey "RSA-2048") s1 = (s2, Ok (newKidOf s))).
  { apply exec_first; [by rewrite Ha|]. unfold GenerateAndPublishKey, generateKey, st_bind, now, manage. cbn -[Keyring.AddKey].
    assert (Hnow : r_now s1 = (r_now s + 2)%nat) by lia. rewrite Hnow.
    replace (S (r_now s + 2)) with (r_now s + 3)%nat by lia. rewrite Hk. cbn -[Keyring.AddKey].
    rewrite Halone. cbn -[Keyring.AddKey]. rewrite Hkr. fold (newKidOf s). rewrite Hadd. unfold st_ret, s2, set_kr. cbn.
    by rewrite Hnow, <- Nat.add_succ_r. }
  exists s2. split; [done|]. split; [cbn; lia|].
  unfold st_bind at 1. unfold orElse at 1. rewrite He. unfold st_bind at 1. unfold orElse at 1. rewrite Hg. reflexivity.
Qed.

Lemma AddKey_ok kid k kr kr1 :
  Keyring.AddKey kid k kr = Ok kr1 ->
  exists key, kr1 = {| Keyring.activeKid := Keyring.activeKid kr; Keyring.keys := <[kid := key]> (Keyring.keys kr) |}.
Proof. unfold Keyring.AddKey. intros Ha. inv_ok. by eexists. Qed.

Lemma mint_delivered i s :
  (forall i, is_ok (exchange (mintRequest i)) = true) -> faults (r_attempts s) = Delivered ->
  exists tok, ExecuteActivity (MintExecutionScopedToken i) s = (attempt s, Ok tok).
Proof.
  intros Hm Hf. unfold ExecuteActivity, MintExecutionScopedToken, st_lift. cbn. rewrite Hf.
  match goal with |- context [exchange (mintRequest ?i)] => specialize (Hm i); destruct (exchange (mintRequest i)) as [resp|e]; [|done] end.
  by eexists.
Qed.

Lemma mint_fails i s :
  (forall i, is_ok (exchange (mintRequest i)) = false) -> (forall n, faults n = Delivered) ->
  exists s' e, ExecuteActivity (MintExecutionScopedToken i) s = (s', Err (ErrExchange e)) /\ r_kr s' = r_kr s.
Proof using Halone.
  intros Hm Hf. unfold ExecuteActivity, MintExecutionScopedToken, st_lift. cbn.
  match goal with |- context [exchange (mintRequest ?i)] => specialize (Hm i); destruct (exchange (mintRequest i)) as [resp|e]; [done|] end.
  rewrite !Hf. do 2 eexists. split; [reflexivity|]. cbn. by rewrite !Halone.
Qed.

Lemma swap_run newKid tok s key :
  Keyring.keys (r_kr s) !! newKid = Some key ->
  SwapSigningKey newKid tok s =
    (set_kr {| Keyring.activeKid := newKid; Keyring.keys := Keyring.keys (r_kr s) |} s, Ok (Keyring.activeKid (r_kr s))).
Proof.
  intros Hk. unfold SwapSigningKey, st_bind, activeKid, manage, Keyring.ActivateKey, Keyring.ActiveKid. by rewrite Hk.
Qed.

Lemma swap_ok newKid tok s key :
  faults (r_attempts s) = Delivered -> Keyring.keys (r_kr s) !! newKid = Some key ->
  exists s', ExecuteActivity (SwapSigningKey newKid tok) s = (s', Ok (Keyring.activeKid (r_kr s))) /\
    r_kr s' = {| Keyring.activeKid := newKid; Keyring.keys := Keyring.keys (r_kr s) |} /\ r_attempts s' = S (r_attempts s).
Proof using Halone.
  intros Hf Hk. destruct (attempt_alone s) as (H1 & _ & H3). rewrite <- H1 in *. eexists. split.
  - apply exec_first; [done|]. by apply (swap_run _ _ _ key).
  - done.
Qed.

(** The swap ran, its result was lost, and it ran again. *)
Lemma swap_lost newKid tok s key :
  faults (r_attempts s) = LostResult -> faults (S (r_attempts s)) = Delivered ->
  Keyring.keys (r_kr s) !! newKid = Some key ->
  exists s', ExecuteActivity (SwapSigningKey newKid tok) s = (s', Ok newKid) /\
    r_kr s' = {| Keyring.activeKid := newKid; Keyring.keys := Keyring.keys (r_kr s) |} /\ r_attempts s' = S (S (r_attempts s)).
Proof using Halone.
  intros Hf Hf' Hk. destruct (attempt_alone s) as (H1 & _ & H3). rewrite <- H1 in *.
  set (s1 := set_kr {| Keyring.activeKid := newKid; Keyring.keys := Keyring.keys (r_kr (attempt s)) |} (attempt s)).
  destruct (attempt_alone s1) as (H1' & _ & H3').
  exists (set_kr {| Keyring.activeKid := newKid; Keyring.keys := Keyring.keys (r_kr s1) |} (attempt s1)). split; [|done].
  unfold ExecuteActivity, MaximumAttempts. cbn [attempts]. rewrite Hf, (swap_run _ _ _ _ Hk). fold s1. cbn [fst].
  change (r_attempts s1) with (S (r_attempts s)). rewrite Hf'.
  rewrite (swap_run _ _ (attempt s1) key) by (by rewrite H1'). by rewrite H1'.
Qed.

Lemma verify_ok newKid s :
  faults (r_attempts s) = Delivered -> Keyring.activeKid (r_kr s) = newKid ->
  exists s', ExecuteActivity (VerifyNewKey newKid) s = (s', Ok tt) /\ r_kr s' = r_kr s /\ r_attempts s' = S (r_attempts s).
Proof using Halone.
  intros Hf Ha. destruct (attempt_alone s) as (H1 & _ & H3). exists (attempt s). split; [|done].
  apply exec_first; [done|]. unfold VerifyNewKey, st_bind, activeKid, st_lift, Keyring.ActiveKid.
  by rewrite H1, Ha, String.eqb_refl.
Qed.

Lemma remove_ok kid s :
  faults (r_attempts s) = Delivered -> Keyring.activeKid (r_kr s) <> kid ->
  r_kr (ignoring (ExecuteActivity (RemoveKey kid)) s).1 =
    {| Keyring.activeKid := Keyring.activeKid (r_kr s); Keyring.keys := delete kid (Keyring.keys (r_kr s)) |}.
Proof using Halone.
  intros Hf Hne. destruct (attempt_alone s) as (H1 & _ & _). unfold ignoring, ExecuteActivity. cbn -[attempt].
  rewrite Hf. unfold RemoveKey, manage, Keyring.RemoveKey. rewrite H1.
  destruct (String.eqb_spec kid (Keyring.activeKid (r_kr s))); [by subst|]. done.
Qed.

(** The active key is not removed, however often it is tried. *)
Lemma remove_active n e kid s :
  Keyring.activeKid (r_kr s) = kid -> r_kr (attempts n e (RemoveKey kid) s).1 = r_kr s.
Proof using Halone.
  revert e s. induction n as [|n IH]; intros e s Ha; [done|]. cbn -[attempt].
  destruct (attempt_alone s) as (H1 & _ & _).
  assert (Hr : RemoveKey kid (attempt s) = (attempt s, Err (ErrKeyring (Keyring.CannotRemoveActive kid)))).
  { unfold RemoveKey, manage, Keyring.RemoveKey. by rewrite H1, Ha, String.eqb_refl. }
  rewrite Hr. cbn [fst]. rewrite <- H1 in Ha. destruct (faults (r_attempts s)); by rewrite IH, H1.
Qed.

Lemma emit_kr n e typ claims s :
  r_kr (attempts n e (EmitLifecycleSignal typ signingKey claims) s).1 = r_kr s.
Proof using Halone.
  revert e s. induction n as [|n IH]; intros e s; [done|]. cbn -[attempt EmitLifecycleSignal].
  destruct (attempt_alone s) as (H1 & _ & _).
  assert (Hk : r_kr (EmitLifecycleSignal typ signingKey claims (attempt s)).1 = r_kr s) by (rewrite <- H1; done).
  destruct (faults (r_attempts s)).
  - destruct (EmitLifecycleSignal typ signingKey claims (attempt s)) as [s' [a|e']]; cbn [fst] in *; [done|].
    by rewrite IH.
  - by rewrite IH.
  - by rewrite IH.
Qed.

Lemma afterGrace_kr kids s : r_kr (afterGrace kids s).1 = r_kr (ignoring (ExecuteActivity (RemoveKey kids.2)) s).1.
Proof using Halone.
  unfold afterGrace, st_bind, orElse, ignoring, emit, ExecuteActivity. cbn [fst]. apply emit_kr.
Qed.
Lemma afterGrace_result kids s : (afterGrace kids s).2 = Ok tt.
Proof. done. Qed.

(** What the published key needs. *)
Record publishable (p : RotationParams) (s : RS) (k : crypto_Signer) (kr1 : Keyring.Keyring) : Prop := {
  pb_type : KeyType (withDefaults p) = "RSA-2048";
  pb_made : rsa_GenerateKey (r_now s + 3) = Ok k;
  pb_added : Keyring.AddKey (newKidOf s) k (r_kr s) = Ok kr1;
  pb_fresh : Keyring.keys (r_kr s) !! newKidOf s = None;
  pb_signs : signs s;
}.

Lemma publishable_ne p s k kr1 : publishable p s k kr1 -> Keyring.activeKid (r_kr s) <> newKidOf s.
Proof. intros [_ _ _ Hf [key Hs]] He. unfold Keyring.ActiveKey in Hs. congruence. Qed.

(** Up to the removal, with the swap as it went. *)
Lemma swapped p s k kr1 old :
  publishable p s k kr1 -> sleep 0 = None -> (forall i, is_ok (exchange (mintRequest i)) = true) ->
  faults (r_attempts s) = Delivered -> faults (1 + r_attempts s) = Delivered -> faults (2 + r_attempts s) = Delivered ->
  (forall tok s2, r_attempts s2 = (3 + r_attempts s)%nat -> r_kr s2 = kr1 ->
     exists s3, ExecuteActivity (SwapSigningKey (newKidOf s) tok) s2 = (s3, Ok old) /\
       r_kr s3 = {| Keyring.activeKid := newKidOf s; Keyring.keys := Keyring.keys kr1 |} /\
       faults (r_attempts s3) = Delivered) ->
  exists s4, r_kr s4 = {| Keyring.activeKid := newKidOf s; Keyring.keys := Keyring.keys kr1 |} /\
    beforeRemoval (withDefaults p) s =
      match sleep 1 with
      | Some e => (s4, Err (ErrGrace (ErrSleep e)))
      | None => (s4, Ok (newKidOf s, old))
      end.
Proof using Halone Hsent.
  intros [Ht Hk Hadd _ _] Hs0 Hm Hf0 Hf1 Hf2 Hswap.
  destruct (published p s k kr1 Ht Hk Hadd Hf0 Hf1) as (s2 & Hkr2 & Ha2 & ->).
  unfold st_bind at 1, orElse at 1, wait at 1, st_lift. rewrite Hs0. unfold st_bind at 1, orElse at 1, now.
  set (s2' := {| r_kr := r_kr s2; r_now := S (r_now s2); r_attempts := r_attempts s2; r_sent := r_sent s2 |}).
  destruct (mint_delivered (ExecutionScopeForSwap (clock (r_now s2)) (newKidOf s) (sha256Hex (newKidOf s))) s2' Hm) as [tok Htok].
  { cbn. by rewrite Ha2. }
  unfold st_bind at 1. unfold orElse at 1. rewrite Htok. destruct (attempt_alone s2') as (H1 & _ & H3).
  destruct (Hswap tok (attempt s2')) as (s3 & Hsw & Hkr3 & Hf3); [rewrite H3; cbn; by rewrite Ha2|by rewrite H1|].
  unfold st_bind at 1. unfold orElse at 1. rewrite Hsw.
  destruct (verify_ok (newKidOf s) s3 Hf3) as (s4 & Hver & Hkr4 & _); [by rewrite Hkr3|].
  unfold st_bind at 1. unfold orElse at 1. rewrite Hver. exists s4. rewrite Hkr4. split; [done|].
  unfold st_bind, orElse, wait, st_lift. by destruct (sleep 1).
Qed.

(** The first wait was cancelled: the new key stays published. *)
Lemma cancelled_early p s k kr1 e :
  publishable p s k kr1 -> sleep 0 = Some e ->
  faults (r_attempts s) = Delivered -> faults (S (r_attempts s)) = Delivered ->
  exists s2, r_kr s2 = kr1 /\ beforeRemoval (withDefaults p) s = (s2, Err (ErrPropagation (ErrSleep e))).
Proof using Halone Hsent.
  intros [Ht Hk Hadd _ _] Hs0 Hf0 Hf1. destruct (published p s k kr1 Ht Hk Hadd Hf0 Hf1) as (s2 & Hkr2 & _ & ->).
  exists s2. split; [done|]. unfold st_bind at 1, orElse at 1, wait at 1, st_lift. by rewrite Hs0.
Qed.

(** No token for the swap: the new key is removed again. *)
Lemma refused p s k kr1 :
  publishable p s k kr1 -> sleep 0 = None -> (forall i, is_ok (exchange (mintRequest i)) = false) -> (forall n, faults n = Delivered) ->
  exists s' e, r_kr s' = r_kr s /\ beforeRemoval (withDefaults p) s = (s', Err (ErrMint (ErrExchange e))).
Proof using Halone Hsent.
  intros Hpub Hs0 Hm Hf. assert (Hne := publishable_ne _ _ _ _ Hpub). destruct Hpub as [Ht Hk Hadd Hfresh _].
  destruct (AddKey_ok _ _ _ _ Hadd) as [key Hkr1].
  destruct (published p s k kr1 Ht Hk Hadd (Hf _) (Hf _)) as (s2 & Hkr2 & _ & ->).
  unfold st_bind at 1, orElse at 1, wait at 1, st_lift. rewrite Hs0. unfold st_bind at 1, orElse at 1, now.
  set (s2' := {| r_kr := r_kr s2; r_now := S (r_now s2); r_attempts := r_attempts s2; r_sent := r_sent s2 |}).
  destruct (mint_fails (ExecutionScopeForSwap (clock (r_now s2)) (newKidOf s) (sha256Hex (newKidOf s))) s2' Hm Hf)
    as (s3 & e & Hmint & Hkr3).
  unfold st_bind at 1. unfold orElse at 1. rewrite Hmint. do 2 eexists. split; [|reflexivity].
  assert (Hkr : r_kr s3 = kr1) by (rewrite Hkr3; exact Hkr2). clearbody s2'. clear Hmint Hkr3.
  assert (Hrem := remove_ok (newKidOf s) s3 (Hf _)). rewrite Hkr, Hkr1 in Hrem. cbn [Keyring.activeKid Keyring.keys] in Hrem.
  assert (Hroll : forall undo claims, r_kr (rolledBack undo claims s3).1 = r_kr (ignoring (ExecuteActivity undo) s3).1).
  { intros undo claims. unfold rolledBack, st_bind, ignoring, emit. cbn [fst]. apply emit_kr. }
  rewrite Hroll, Hrem by congruence.
  rewrite delete_insert_id by done. by destruct (r_kr s).
Qed.

(** The outcome of a rotation under a reliable engine. A cancellation during the first wait leaves the new
    key published; when no token for the swap is issued the keyring is restored; a cancellation
    during the grace period leaves both keys with the new one active; otherwise the new key is active
    and the old one gone. *)
Theorem rotation_outcome p s k kr1 mints :
  (forall n, faults n = Delivered) -> publishable p s k kr1 -> (forall i, is_ok (exchange (mintRequest i)) = mints) ->
  let s' := (RotationWorkflow p s).1 in
  let r := (RotationWorkflow p s).2 in
  match sleep 0, mints, sleep 1 with
  | Some e, _, _ => r = Err (ErrPropagation (ErrSleep e)) /\ r_kr s' = kr1
  | None, false, _ => (exists e, r = Err (ErrMint (ErrExchange e))) /\ r_kr s' = r_kr s
  | None, true, Some e =>
      r = Err (ErrGrace (ErrSleep e)) /\
      r_kr s' = {| Keyring.activeKid := newKidOf s; Keyring.keys := Keyring.keys kr1 |}
  | None, true, None =>
      r = Ok tt /\
      r_kr s' = {| Keyring.activeKid := newKidOf s;
                   Keyring.keys := delete (Keyring.activeKid (r_kr s)) (Keyring.keys kr1) |}
  end.
Proof using Halone Hsent.
  intros Hf Hpub Hm. cbn zeta. rewrite RotationWorkflow_split. assert (Hne := publishable_ne _ _ _ _ Hpub).
  assert (Hpub' := Hpub). destruct Hpub' as [Ht Hk Hadd Hfresh Hsig].
  destruct (AddKey_ok _ _ _ _ Hadd) as [key Hkr1].
  destruct (sleep 0) as [e|] eqn:Hs0.
  { destruct (cancelled_early p s k kr1 e Hpub Hs0 (Hf _) (Hf _)) as (s2 & Hkr2 & Hb). unfold st_bind. by rewrite Hb. }
  destruct mints.
  - destruct (swapped p s k kr1 (Keyring.activeKid (r_kr s)) Hpub Hs0 Hm (Hf _) (Hf _) (Hf _)) as (s4 & Hkr4 & Hb).
    { intros tok s2 _ Hkr2. destruct (swap_ok (newKidOf s) tok s2 key (Hf _)) as (s3 & Hsw & Hkr3 & _).
      - rewrite Hkr2, Hkr1. apply lookup_insert_eq.
      - exists s3. rewrite Hsw, Hkr3, Hkr2. split_and!; [by rewrite Hkr1|done|done]. }
    unfold st_bind. rewrite Hb. destruct (sleep 1) as [e|]; [done|]. split; [apply afterGrace_result|].
    rewrite afterGrace_kr, (remove_ok _ _ (Hf _)); rewrite Hkr4; [done|]. cbn. congruence.
  - destruct (refused p s k kr1 Hpub Hs0 Hm Hf) as (s2 & e & Hkr2 & Hb). unfold st_bind. rewrite Hb.
    split; [by eexists|done].
Qed.

(** A lost answer leaks the old key. When the swap took effect but its result was lost, the retry reads the
    new key as the old one: the workflow ends without an error, yet the key it was to retire stays in
    the keyring and keeps verifying tokens. *)
Theorem lost_swap_leaks_old_key p s k kr1 :
  (forall n, faults n = if (n =? 3 + r_attempts s)%nat then LostResult else Delivered) ->
  publishable p s k kr1 -> (forall i, is_ok (exchange (mintRequest i)) = true) -> sleep 0 = None -> sleep 1 = None ->
  (RotationWorkflow p s).2 = Ok tt /\
  r_kr (RotationWorkflow p s).1 = {| Keyring.activeKid := newKidOf s; Keyring.keys := Keyring.keys kr1 |} /\
  is_Some (Keyring.keys kr1 !! Keyring.activeKid (r_kr s)).
Proof using Halone Hsent.
  intros Hf Hpub Hm Hs0 Hs1. rewrite RotationWorkflow_split. assert (Hne := publishable_ne _ _ _ _ Hpub).
  assert (Hpub' := Hpub). destruct Hpub' as [Ht Hk Hadd Hfresh [ok Hok]].
  destruct (AddKey_ok _ _ _ _ Hadd) as [key Hkr1].
  assert (Hd : forall n, n <> (3 + r_attempts s)%nat -> faults n = Delivered).
  { intros n Hn. rewrite Hf. by apply Nat.eqb_neq in Hn as ->. }
  destruct (swapped p s k kr1 (newKidOf s) Hpub Hs0 Hm) as (s4 & Hkr4 & Hb); [by apply Hd; lia..| |].
  { intros tok s2 Ha2 Hkr2. destruct (swap_lost (newKidOf s) tok s2 key) as (s3 & Hsw & Hkr3 & Ha3).
    - by rewrite Hf, Ha2, Nat.eqb_refl.
    - apply Hd. lia.
    - rewrite Hkr2, Hkr1. apply lookup_insert_eq.
    - exists s3. rewrite Hsw, Hkr3, Hkr2. split_and!; [done|done|]. apply Hd. lia. }
  unfold st_bind. rewrite Hb, Hs1. split; [apply afterGrace_result|]. split.
  - rewrite afterGrace_kr. unfold ignoring. cbn [fst snd]. unfold ExecuteActivity.
    rewrite remove_active; rewrite Hkr4; done.
  - rewrite Hkr1. cbn. exists ok. by rewrite lookup_insert_ne.
Qed.
End Outcome.
End Rotation.

(** * Revocation activities ([activities.go]) *)

Section Revocations.
Context {I : Type} `{!RevocationIndex I}.

(** [RevokeCredential]; the second reading is only taken for the default lifetime. *)
Definition RevokeCredential (now1 now2 : Time) (nowR : Time) (req : RevokeRequest) (idx : I) : result string I :=
  let expiresAt := if rq_ExpiresIn req =? 0 then now2 + 24 * Hour else now1 + rq_ExpiresIn req in
  ri_Revoke nowR (rq_SubjectID req) (rq_Reason req) expiresAt idx.

(** [CheckRevocationStatus] *)
Definition CheckRevocationStatus (now : Time) (subjectID : string) (idx : I) : result string RevocationResult :=
  let? entry := ri_IsRevoked now subjectID idx in
  match entry with
  | None => Ok {| rr_Revoked := false; rr_Reason := ""; rr_RevokedAt := 0 |}
  | Some e => Ok {| rr_Revoked := true; rr_Reason := re_Reason e; rr_RevokedAt := re_RevokedAt e |}
  end.

Lemma revoke_then_status now1 now2 nowR req idx idx' t :
  RevokeCredential now1 now2 nowR req idx = Ok idx' ->
  t <= (if rq_ExpiresIn req =? 0 then now2 + 24 * Hour else now1 + rq_ExpiresIn req) ->
  exists r, CheckRevocationStatus t (rq_SubjectID req) idx' = Ok r /\ rr_Revoked r = true /\ rr_Reason r = rq_Reason req.
Proof.
  intros Hr Ht. unfold RevokeCredential in Hr.
  destruct (ri_revoke_hit _ _ _ _ _ _ t Hr (or_intror Ht)) as (e & He & Hreason).
  unfold CheckRevocationStatus. rewrite He. cbn. eexists. split; [reflexivity|]. by split.
Qed.
End Revocations.

(** * The compliance scan ([compliance_workflow.go]) *)

Inductive Severity : Type := Info | Warning | Critical.
#[export] Instance Severity_eq_dec : EqDecision Severity.
Proof. solve_decision. Defined.

(** [Finding], without its texts. *)
Record Finding : Type := {
  fi_ID : string; fi_Severity : Severity; fi_Category : string; fi_Subject : string;
  fi_AutoRemediable : bool; fi_DetectedAt : Time;
}.
(** [CompliancePolicy]; of a threshold, whether it is set. *)
Record CompliancePolicy : Type := {
  MaxTTL : Duration; RequireDPoP : bool; MaxDelegationDepth : Z; MaxBlastRadius : string;
  has_ExchangeP99ms : bool; has_RevocationLookupMs : bool; has_SignalCascadeS : bool;
}.
Record ScanParams : Type := { sp_Scope : list string; EmitFindings : bool; AutoRemediate : bool }.
Record ScanReport : Type := {
  TotalCredentials : nat; Compliant : nat; NonCompliant : nat; Findings : list Finding;
  sr_Duration : Duration; sr_Timestamp : Time;
}.
Definition DefaultScanParams : ScanParams := {| sp_Scope := []; EmitFindings := true; AutoRemediate := false |}.
Definition DefaultCompliancePolicy : CompliancePolicy :=
  {| MaxTTL := 5 * Minute; RequireDPoP := false; MaxDelegationDepth := 5; MaxBlastRadius := "namespace";
     has_ExchangeP99ms := true; has_RevocationLookupMs := true; has_SignalCascadeS := true |}.

Definition finding (t : Time) (id : string) (sev : Severity) (cat subject : string) : Finding :=
  {| fi_ID := id +:+ "-" +:+ pretty (Unix t); fi_Severity := sev; fi_Category := cat; fi_Subject := subject;
     fi_AutoRemediable := false; fi_DetectedAt := t |}.

(** [EvaluatePolicy], [CheckPerformance] and [CheckRevocationHealth] *)
Definition EvaluatePolicy (t : Time) (p : CompliancePolicy) (scope : list string) : list Finding :=
  (if MaxTTL p =? 0 then [finding t "policy-ttl" Warning "ttl" "urn:starfly:policy"]
   else if 10 * Minute <? MaxTTL p then [finding t "policy-ttl-long" Warning "ttl" "urn:starfly:policy"]
   else [finding t "policy-ttl-ok" Info "ttl" "urn:starfly:policy"]) ++
  (if 10 <? MaxDelegationDepth p then [finding t "policy-delegation" Warning "delegation" "urn:starfly:policy"]
   else [finding t "policy-delegation-ok" Info "delegation" "urn:starfly:policy"]) ++
  (if RequireDPoP p then [] else [finding t "policy-dpop" Info "dpop" "urn:starfly:policy"]).
Definition CheckPerformance (t : Time) (p : CompliancePolicy) : list Finding :=
  (if has_ExchangeP99ms p then [finding t "perf-exchange-ok" Info "performance" "urn:starfly:performance"]
   else [finding t "perf-exchange" Warning "performance" "urn:starfly:performance"]) ++
  (if has_RevocationLookupMs p then [] else [finding t "perf-revocation" Warning "performance" "urn:starfly:performance"]) ++
  (if has_SignalCascadeS p then [] else [finding t "perf-cascade" Warning "performance" "urn:starfly:performance"]).
Definition CheckRevocationHealth (t : Time) : list Finding :=
  [finding t "rev-health" Info "revocation-health" "urn:starfly:revocation-index"].

(** The activities the workflow asks for besides the checks: events (type and subject) and revocations. *)
Inductive ScanAction : Type :=
| Emitted (typ subject : string)
| Revoked (req : RevokeRequest).
Definition nonCompliant (f : Finding) : bool :=
  match fi_Severity f with Warning | Critical => true | Info => false end.
Definition report (start done now : Time) (fs : list Finding) : ScanReport :=
  let bad := length (List.filter nonCompliant fs) in
  {| TotalCredentials := length fs; Compliant := length fs - bad; NonCompliant := bad; Findings := fs;
     sr_Duration := done - start; sr_Timestamp := now |}.
Definition announced (params : ScanParams) (fs : list Finding) : list ScanAction :=
  if EmitFindings params then
    (fun f => Emitted EventTypeComplianceFinding (fi_Subject f)) <$>
    List.filter (fun f => negb (bool_decide (fi_Severity f = Info))) fs
  else [].
Definition remediations (params : ScanParams) (fs : list Finding) : list ScanAction :=
  if AutoRemediate params then
    (fun f => Revoked {| rq_SubjectID := fi_Subject f; rq_Reason := "compliance: " +:+ fi_Category f; rq_ExpiresIn := Hour |}) <$>
    List.filter (fun f => bool_decide (fi_Severity f = Critical) && fi_AutoRemediable f) fs
  else [].

(** [ComplianceScanWorkflow]: what it asked for and its result. Each check runs at its own time and may
    fail to report ([ok]); the events and revocations are best effort. *)
Inductive ScanErr : Type := ErrPolicy | ErrPerformance | ErrRevocationHealth.
Record Checks : Type := { t_policy : Time; t_perf : Time; t_health : Time; ok_policy : bool; ok_perf : bool; ok_health : bool }.
Definition compliance : string := "urn:starfly:compliance".
Definition scanned (c : Checks) (p : CompliancePolicy) (params : ScanParams) : list Finding :=
  EvaluatePolicy (t_policy c) p (sp_Scope params) ++ CheckPerformance (t_perf c) p ++ CheckRevocationHealth (t_health c).
Definition ComplianceScanWorkflow (start done now : Time) (c : Checks) (p : CompliancePolicy) (params : ScanParams)
    : list ScanAction * result ScanErr ScanReport :=
  let started := [Emitted EventTypeComplianceScanStart compliance] in
  if negb (ok_policy c) then (started, Err ErrPolicy)
  else if negb (ok_perf c) then (started, Err ErrPerformance)
  else if negb (ok_health c) then (started, Err ErrRevocationHealth)
  else
    let fs := scanned c p params in
    (started ++ announced params fs ++ remediations params fs ++ [Emitted EventTypeComplianceScanDone compliance],
     Ok (report start done now fs)).

Lemma filter_length_le {A} (f : A -> bool) l : (length (List.filter f l) <= length l)%nat.
Proof. induction l as [|x l IH]; cbn; [lia|]. destruct (f x); cbn; lia. Qed.

Lemma scanned_not_critical c p params f : f ∈ scanned c p params -> fi_Severity f <> Critical.
Proof.
  revert f. apply Forall_forall. unfold scanned, EvaluatePolicy, CheckPerformance, CheckRevocationHealth.
  repeat apply Forall_app_2; repeat case_match; repeat constructor; discriminate.
Qed.
Lemma scanned_length c p params : (3 <= length (scanned c p params))%nat.
Proof.
  unfold scanned, EvaluatePolicy, CheckPerformance. rewrite !length_app.
  destruct (MaxTTL p =? 0), (10 * Minute <? MaxTTL p), (has_ExchangeP99ms p); cbn; lia.
Qed.
Lemma remediations_nil c p params : remediations params (scanned c p params) = [].
Proof.
  unfold remediations. destruct (AutoRemediate params); [|done].
  assert (Hsev := scanned_not_critical c p params). revert Hsev. generalize (scanned c p params).
  induction l as [|f fs IH]; intros Hsev; [done|]. cbn. rewrite bool_decide_eq_false_2 by (apply Hsev; set_solver).
  apply IH. set_solver.
Qed.
Lemma announced_length c p params :
  EmitFindings params = true ->
  length (announced params (scanned c p params)) = length (List.filter nonCompliant (scanned c p params)).
Proof.
  intros He. unfold announced. rewrite He, length_fmap. f_equal. apply filter_ext_in. intros f Hf.
  apply list_elem_of_In, scanned_not_critical in Hf. unfold nonCompliant. by destruct (fi_Severity f).
Qed.

(** A compliance scan that completes accounts for every check, sends its start event, one event for each
    non-compliant finding when asked to and its completion event, and nothing else: even with automatic
    remediation on it revokes nothing, since no check produces a critical finding. *)
Theorem scan_accounts_and_never_remediates start done now c p params acts r :
  ComplianceScanWorkflow start done now c p params = (acts, Ok r) ->
  (Compliant r + NonCompliant r = TotalCredentials r)%nat /\ (3 <= TotalCredentials r)%nat /\
  (forall req, Revoked req ∉ acts) /\
  length acts = (2 + if EmitFindings params then NonCompliant r else 0)%nat.
Proof.
  unfold ComplianceScanWorkflow. destruct (ok_policy c), (ok_perf c), (ok_health c); cbn [negb]; intros [= <- <-].
  rewrite remediations_nil. unfold report. cbn [Compliant NonCompliant TotalCredentials].
  assert (Hle := filter_length_le nonCompliant (scanned c p params)). split; [lia|]. split; [apply scanned_length|].
  split.
  - intros req. rewrite app_nil_l, elem_of_cons, elem_of_app, list_elem_of_singleton. intros [?|[Hin|?]]; [done| |done].
    unfold announced in Hin. destruct (EmitFindings params); [|by apply not_elem_of_nil in Hin].
    by apply list_elem_of_fmap in Hin as (? & ? & _).
  - cbn. rewrite length_app. cbn. destruct (EmitFindings params) eqn:He; [rewrite announced_length by done|unfold announced; rewrite He; cbn]; lia.
Qed.

(** * Examples *)

#[local] Existing Instance JwtModel.lib.
Definition demo_clock (n : nat) : Time := (62135596800 + Z.of_nat n) * Second.
Definition demo_gen (n : nat) : result string crypto_Signer := Ok "priv".
Definition demo_resp : TokenExchangeResponse :=
  {| AccessToken := "tok"; IssuedTokenType := ""; TokenType := "Bearer"; ExpiresIn := 30; resp_Scope := ""; DelegationDepth := 0 |}.
Definition demo_params : RotationParams := {| KeyType := ""; GracePeriod := 0; PropagationTimeout := 0 |}.
Definition demo_start : RS := {| r_kr := Keyring.demo_kr; r_now := 0; r_attempts := 0; r_sent := [] |}.
Definition demo_lost (n : nat) : Fault := if (n =? 3 + r_attempts demo_start)%nat then LostResult else Delivered.
Definition demo_rotate (faults : nat -> Fault) (exchange : TokenExchangeRequest -> result string TokenExchangeResponse) :=
  RotationWorkflow "unit-1" demo_clock demo_gen demo_gen (fun _ => None) exchange (fun s => s) faults (fun _ => [])
    (fun _ => None) demo_params demo_start.
Definition demo_kr1 : Keyring.Keyring :=
  {| Keyring.activeKid := "k1"; Keyring.keys := <["starfly-2000000000" := "priv"]> (Keyring.keys Keyring.demo_kr) |}.

Lemma demo_publishable : publishable demo_clock demo_gen demo_params demo_start "priv" demo_kr1.
Proof. split; [reflexivity..|]. by exists "k1". Qed.

Lemma demo_fresh_kid kid : generated demo_clock kid -> Keyring.keys (r_kr demo_start) !! kid = None.
Proof. intros [n ->]. apply lookup_singleton_ne. discriminate. Qed.

Lemma rotation_keeps_signing_key_witness : signs (demo_rotate demo_lost (fun _ => Err "denied")).1.
Proof. apply rotation_keeps_signing_key. by exists "k1". Defined.

Lemma rotation_keeps_keys_witness :
  Keyring.keys (r_kr (demo_rotate demo_lost (fun _ => Ok demo_resp)).1) !! "k1" = Some "k1" \/
  ("k1" = "k1" /\ Keyring.activeKid (r_kr (demo_rotate demo_lost (fun _ => Ok demo_resp)).1) <> "k1" /\
   @None string = None /\ @None string = None).
Proof. apply (rotation_keeps_keys (H:=JwtModel.lib)); [done|apply demo_fresh_kid|reflexivity]. Defined.

Lemma rotation_outcome_witness :
  (demo_rotate (fun _ => Delivered) (fun _ => Ok demo_resp)).2 = Ok tt /\
  r_kr (demo_rotate (fun _ => Delivered) (fun _ => Ok demo_resp)).1 =
    {| Keyring.activeKid := newKidOf demo_clock demo_start; Keyring.keys := delete "k1" (Keyring.keys demo_kr1) |}.
Proof.
  exact (rotation_outcome "unit-1" demo_clock demo_gen demo_gen (fun _ => None) (fun _ => Ok demo_resp) (fun s => s)
    (fun _ => Delivered) (fun _ => []) (fun _ => None) (fun _ => eq_refl) (fun _ => eq_refl) demo_params demo_start "priv"
    demo_kr1 true (fun _ => eq_refl) demo_publishable (fun _ => eq_refl)).
Defined.

Lemma lost_swap_leaks_old_key_witness :
  (demo_rotate demo_lost (fun _ => Ok demo_resp)).2 = Ok tt /\
  r_kr (demo_rotate demo_lost (fun _ => Ok demo_resp)).1 =
    {| Keyring.activeKid := newKidOf demo_clock demo_start; Keyring.keys := Keyring.keys demo_kr1 |} /\
  is_Some (Keyring.keys demo_kr1 !! "k1").
Proof.
  exact (lost_swap_leaks_old_key "unit-1" demo_clock demo_gen demo_gen (fun _ => None) (fun _ => Ok demo_resp) (fun s => s)
    demo_lost (fun _ => []) (fun _ => None) (fun _ => eq_refl) (fun _ => eq_refl) demo_params demo_start "priv"
    demo_kr1 (fun _ => eq_refl) demo_publishable (fun _ => eq_refl) eq_refl eq_refl).
Defined.

Definition demo_policy : CompliancePolicy :=
  {| MaxTTL := 0; RequireDPoP := false; MaxDelegationDepth := 5; MaxBlastRadius := "";
     has_ExchangeP99ms := true; has_RevocationLookupMs := true; has_SignalCascadeS := false |}.
Definition demo_checks : Checks :=
  {| t_policy := 1; t_perf := 2; t_health := 3; ok_policy := true; ok_perf := true; ok_health := true |}.
Definition demo_scan := ComplianceScanWorkflow 0 4 4 demo_checks demo_policy
  {| sp_Scope := []; EmitFindings := true; AutoRemediate := true |}.
Lemma scan_accounts_and_never_remediates_witness :
  exists acts r, demo_scan = (acts, Ok r) /\ NonCompliant r = 2%nat /\ length acts = 4%nat /\ forall req, Revoked req ∉ acts.
Proof.
  eexists _, _. split; [reflexivity|]. split; [reflexivity|].
  destruct (scan_accounts_and_never_remediates 0 4 4 demo_checks demo_policy
    {| sp_Scope := []; EmitFindings := true; AutoRemediate := true |} _ _ eq_refl) as (_ & _ & Hr & Hl).
  split; [exact Hl|exact Hr].
Defined.
End Rotation.
