(* ===== verification/IdCommon.v ===== *)
(** What the identity providers ([pkg/identity/*]) share: the errors and evidence of a validation, the
    verification of a JWT under a key resolved or fetched for a JWKS URL, and the shape of the workload
    identifiers they issue. *)
From Stdlib Require Import ZArith Lia Ascii.
From stdpp Require Import base gmap strings list.
From S2P Require Import Prelude.
From S2P Require Import GoLib.
From S2P Require Import Core.
From S2P Require Import DPoP.

#[local] Open Scope string_scope.
#[local] Open Scope list_scope.
#[local] Open Scope Z_scope.

(** The public keys a JWKS resolver returns, [jwk.Import] of one and the key identifier of a header. *)
Class KeyLib `{!JwtLib, !JwsLib} : Type := {
  PubKey : Type;
  import_key : PubKey -> option jwk_key;
  hdr_KeyID : jws_headers -> option string;
}.

Module Identity.

Inductive IdErr : Type :=
| ErrUnsupportedType (ct : string)
| ErrNoProvider (ct supported : string)
| ErrMalformed (what : string)
| ErrMissing (what : string)
| ErrUnknown (what name : string)
| ErrNotAllowed (what name : string)
| ErrNoKeys (name : string)
| ErrFetch (name why : string)
| ErrJWS (what : string)
| ErrResolve (why : string)
| ErrImport
| ErrSignature
| ErrAudience
| ErrExpired (what : string)
| ErrNotYetValid
| ErrNoEndpoint
| ErrAmbiguousEndpoint
| ErrRemote (why : string)
| ErrInactive
| ErrUntrusted
| ErrReplay.

(** [core.IdentityProvider]: the credential and its type. *)
Definition Provider : Type := string -> string -> result IdErr WorkloadIdentity.

(** The evidence every provider but the Kubernetes one attaches. *)
Definition evidence (method : string) (stamp : Time) : option AttestationEvidence :=
  Some {| ae_Method := method; ae_Timestamp := stamp; ae_NodeID := ""; ae_Namespace := "" |}.
Definition workload (id td method : string) (stamp : Time) (claims : gmap string value) : WorkloadIdentity :=
  {| wi_ID := id; wi_TrustDomain := td; wi_Attestation := evidence method stamp; wi_Claims := claims |}.

(** [fmt.Sprintf("wimse://%s/<kind>/%s", td, principal)] *)
Definition wimseURI (td kind principal : string) : string :=
  "wimse://" +:+ td +:+ "/" +:+ kind +:+ "/" +:+ principal.

(** The claims set only when they are not empty. *)
Definition set_nonempty (k v : string) (claims : gmap string value) : gmap string value :=
  if (v =? "")%string then claims else <[k := VStr v]> claims.

(** The maps from trust domains the options build: enabled domains under a key, the last one wins. *)
Definition domainsBy (key : TrustDomain -> string) (keep : TrustDomain -> bool) (domains : list TrustDomain)
    (m : gmap string TrustDomain) : gmap string TrustDomain :=
  foldl (fun m d => if ct_Enabled d && keep d then <[key d := d]> m else m) m domains.

Lemma domainsBy_lookup key keep domains : forall m k d,
  domainsBy key keep domains m !! k = Some d ->
  m !! k = Some d \/ (d ∈ domains /\ ct_Enabled d = true /\ keep d = true /\ key d = k).
Proof.
  induction domains as [|x ds IH]; intros m k d; cbn; [by left|].
  intros [Hm|(Hd & Hrest)]%IH; [|right; split; [by right|done]].
  destruct (ct_Enabled x) eqn:He, (keep x) eqn:Hk; cbn in Hm; try (by left).
  destruct (decide (key x = k)) as [<-|Hne].
  - rewrite lookup_insert_eq in Hm. injection Hm as <-. right. split; [by left|done].
  - rewrite lookup_insert_ne in Hm by done. by left.
Qed.
Lemma domainsBy_empty key keep domains k d :
  domainsBy key keep domains ∅ !! k = Some d -> d ∈ domains /\ ct_Enabled d = true /\ keep d = true /\ key d = k.
Proof. intros [H|H]%domainsBy_lookup; [by rewrite lookup_empty in H|done]. Qed.

(** * Provenance of identifiers *)

Definition no_slash (s : string) : Prop := cut_at "/" s = None.
#[export] Instance no_slash_dec s : Decision (no_slash s).
Proof. unfold no_slash. destruct (cut_at "/" s); [right|left]; done. Defined.

(** The trust domain, the kind and the principal can be read off an identifier. *)
Lemma wimseURI_inj td kind p td' kind' p' :
  no_slash td -> no_slash td' -> no_slash kind -> no_slash kind' ->
  wimseURI td kind p = wimseURI td' kind' p' -> td = td' /\ kind = kind' /\ p = p'.
Proof.
  unfold no_slash, wimseURI. intros H1 H2 H3 H4 Heq. apply (inj (String.app "wimse://")) in Heq.
  change ("/" +:+ kind +:+ "/" +:+ p) with (String "/" (kind +:+ String "/" p)) in Heq.
  change ("/" +:+ kind' +:+ "/" +:+ p') with (String "/" (kind' +:+ String "/" p')) in Heq.
  assert (Hc : Some (td, kind +:+ String "/" p) = Some (td', kind' +:+ String "/" p'))
    by (rewrite <- (cut_at_app td), <- (cut_at_app td') by done; by rewrite Heq).
  injection Hc as -> Heq'. split; [done|].
  assert (Hc : Some (kind, p) = Some (kind', p'))
    by (rewrite <- (cut_at_app kind), <- (cut_at_app kind') by done; by rewrite Heq').
  by injection Hc as -> ->.
Qed.

(** * Verification of a token under the keys of a JWKS URL *)

Section Verify.
Context `{!JwtLib, !JwsLib, !KeyLib}.

(** [core.JWKSResolver.ResolveKey(jwksURL, kid)] *)
Definition Resolver : Type := string -> string -> result string PubKey.
(** What a validation reads from outside: the clock of the token library, the time of the evidence,
    and [jwk.Fetch]. *)
Record Env : Type := {
  env_now : Time;
  env_stamp : Time;
  jwk_Fetch : string -> result string (list jwk_key);
}.

Definition orEmpty (o : option string) : string := match o with Some s => s | None => "" end.
Definition present {A} (o : option A) : bool := match o with Some _ => true | None => false end.

(** [verifyWithResolver]; the OIDC and SPIFFE providers insist on a key identifier and an algorithm. *)
Definition resolveAndVerify (strict : bool) (resolve : Resolver) (env : Env) (credential jwksURL : string)
    : result IdErr unit :=
  match jws_Parse credential with
  | None => Err (ErrJWS "parsing JWS")
  | Some [] => Err (ErrJWS "no signatures")
  | Some (h :: _) =>
      let? _ := reject (strict && negb (present (hdr_KeyID h))) (ErrJWS "missing kid") in
      let? _ := reject (strict && negb (present (hdr_Algorithm h))) (ErrJWS "missing algorithm") in
      match resolve jwksURL (orEmpty (hdr_KeyID h)) with
      | Err e => Err (ErrResolve e)
      | Ok pubKey =>
          match import_key pubKey with
          | None => Err ErrImport
          | Some jwkKey =>
              match jwt_ParseWithKey (orEmpty (hdr_Algorithm h)) jwkKey (env_now env) credential with
              | None => Err ErrSignature
              | Some _ => Ok tt
              end
          end
      end
  end.

(** [jwk.Fetch] followed by [jwt.Parse] with the key set *)
Definition fetchAndVerify (env : Env) (credential jwksURL name : string) : result IdErr unit :=
  match jwk_Fetch env jwksURL with
  | Err e => Err (ErrFetch name e)
  | Ok keyset => match jwt_Parse keyset (env_now env) credential with
                 | None => Err ErrSignature
                 | Some _ => Ok tt
                 end
  end.

(** The credential verified under keys obtained for the URL. *)
Definition vouched (resolver : option Resolver) (env : Env) (credential jwksURL : string) : Prop :=
  match resolver with
  | Some resolve => exists alg kid pubKey jwkKey tok,
      resolve jwksURL kid = Ok pubKey /\ import_key pubKey = Some jwkKey /\
      jwt_ParseWithKey alg jwkKey (env_now env) credential = Some tok
  | None => exists keyset tok, jwk_Fetch env jwksURL = Ok keyset /\ jwt_Parse keyset (env_now env) credential = Some tok
  end.

Lemma resolve_vouched strict resolve env credential jwksURL u :
  resolveAndVerify strict resolve env credential jwksURL = Ok u -> vouched (Some resolve) env credential jwksURL.
Proof.
  unfold resolveAndVerify. destruct (jws_Parse credential) as [[|h hs]|]; [done| |done]. intros Hr. inv_ok.
  destruct (resolve jwksURL (orEmpty (hdr_KeyID h))) as [pub|] eqn:Hpub; [|done].
  destruct (import_key pub) as [key|] eqn:Hkey; [|done].
  destruct (jwt_ParseWithKey _ key _ _) as [tok|] eqn:Htok; [|done]. by exists (orEmpty (hdr_Algorithm h)), (orEmpty (hdr_KeyID h)), pub, key, tok.
Qed.
Lemma fetch_vouched env credential jwksURL name u :
  fetchAndVerify env credential jwksURL name = Ok u -> vouched None env credential jwksURL.
Proof.
  unfold fetchAndVerify. destruct (jwk_Fetch env jwksURL) as [ks|] eqn:Hks; [|done].
  destruct (jwt_Parse ks _ credential) as [tok|] eqn:Htok; [|done]. intros _. by exists ks, tok.
Qed.

(** [if resolver != nil ... else if url != "" ... else error] *)
Definition verifySignature (strict : bool) (resolver : option Resolver) (env : Env) (credential jwksURL name : string)
    : result IdErr unit :=
  match resolver with
  | Some resolve => resolveAndVerify strict resolve env credential jwksURL
  | None => if (jwksURL =? "")%string then Err (ErrNoKeys name) else fetchAndVerify env credential jwksURL name
  end.
Lemma verify_vouched strict resolver env credential jwksURL name u :
  verifySignature strict resolver env credential jwksURL name = Ok u -> vouched resolver env credential jwksURL.
Proof.
  unfold verifySignature. destruct resolver as [r|]; [apply resolve_vouched|].
  destruct (jwksURL =? "")%string; [done|apply fetch_vouched].
Qed.
End Verify.
End Identity.
