(* ===== verification/IdK8s.v ===== *)
(** The Kubernetes service account provider ([pkg/identity/provider.go]). *)
From Stdlib Require Import ZArith Lia.
From stdpp Require Import base gmap strings list.
From S2P Require Import Prelude.
From S2P Require Import GoLib.
From S2P Require Import Core.
From S2P Require Import DPoP.
From S2P Require Import IdCommon.

#[local] Open Scope string_scope.
#[local] Open Scope list_scope.
#[local] Open Scope Z_scope.

Module IdK8s.
Import Identity.
Section Provider.
Context `{!JwtLib, !JwsLib}.

(** [Provider]; [jwksCache] is the lookup of a third-party cache of key sets. *)
Record Provider : Type := {
  trustDomains : gmap string TrustDomain;
  jwksCache : string -> result string (list jwk_key);
  devMode : bool;
}.

(** [New]; [register url] tells whether the key set could be registered with the cache. *)
Definition New (cache : string -> result string (list jwk_key)) (register : string -> bool)
    (domains : list TrustDomain) (dev : bool) : Provider :=
  {| trustDomains := domainsBy ct_Issuer
       (fun d => negb ((ct_Issuer d =? "")%string || (ct_JWKSURL d =? "")%string) && register (ct_JWKSURL d)) domains ∅;
     jwksCache := cache; devMode := dev |}.

(** The walk of [claimString] along a path of nested objects: a value that is not an object ends it, a
    missing member leaves nil. *)
Fixpoint walk (v : value) (path : list string) : option value :=
  match path with
  | [] => Some v
  | k :: path' => match as_object v with
                  | None => Some v
                  | Some m => match m !! k with Some v' => walk v' path' | None => None end
                  end
  end.
(** [claimString(token, flatKey, root, path...)] for a path that is not empty *)
Definition claimString (t : jwt_token) (flatKey root : string) (path : list string) : string :=
  match mbind as_string (mbind (fun v => walk v path) (jwt_claim t root)) with
  | Some s => s
  | None => if (flatKey =? "")%string then "" else orEmpty (get_string t flatKey)
  end.

(** [fmt.Sprintf("wimse://%s/ns/%s/sa/%s", td, ns, sa)] *)
Definition saURI (td ns sa : string) : string := wimseURI td "ns" (ns +:+ "/sa/" +:+ sa).

(** Dev mode: any token that parses is accepted. *)
Definition devIdentity (stamp : Time) (t : jwt_token) : WorkloadIdentity :=
  let sub := let s := orEmpty (jwt_Subject t) in if (s =? "")%string then "dev-workload" else s in
  let ns := let s := claimString t "namespace" "kubernetes.io" ["namespace"] in if (s =? "")%string then "default" else s in
  let sa := let s := claimString t "serviceaccount" "kubernetes.io" ["serviceaccount"; "name"] in
            if (s =? "")%string then sub else s in
  {| wi_ID := if HasPrefix sa "wimse://" then sa else saURI "dev.local" ns sa;
     wi_TrustDomain := "dev.local";
     wi_Attestation := Some {| ae_Method := "dev-bypass"; ae_Timestamp := stamp; ae_NodeID := ""; ae_Namespace := ns |};
     wi_Claims := <["namespace" := VStr ns]> (<["serviceaccount" := VStr sa]>
                  (<["issuer" := VStr (orEmpty (jwt_Issuer t))]> (<["dev_mode" := VBool true]> ∅))) |}.

(** Production: the identity of a verified token. *)
Definition tokenIdentity (stamp : Time) (td : TrustDomain) (t : jwt_token) : WorkloadIdentity :=
  let ns := claimString t "namespace" "kubernetes.io" ["namespace"] in
  let sa := claimString t "serviceaccount" "kubernetes.io" ["serviceaccount"; "name"] in
  let pod := claimString t "" "kubernetes.io" ["pod"; "name"] in
  let node := claimString t "" "kubernetes.io" ["node"; "name"] in
  {| wi_ID := saURI (ct_Name td) ns sa;
     wi_TrustDomain := ct_Name td;
     wi_Attestation := Some {| ae_Method := "k8s-sa"; ae_Timestamp := stamp; ae_NodeID := node; ae_Namespace := ns |};
     wi_Claims := set_nonempty "node" node (set_nonempty "pod" pod
                  (<["namespace" := VStr ns]> (<["serviceaccount" := VStr sa]> ∅))) |}.

(** [ValidateWorkload] *)
Definition ValidateWorkload (p : Provider) (now stamp : Time) (credential credType : string)
    : result IdErr WorkloadIdentity :=
  if negb (credType =? "k8s-sa")%string then Err (ErrUnsupportedType credType) else
  match jwt_ParseInsecure credential with
  | None => Err (ErrMalformed "JWT")
  | Some insecure =>
      if devMode p then Ok (devIdentity stamp insecure) else
      let issuer := orEmpty (jwt_Issuer insecure) in
      match trustDomains p !! issuer with
      | None => Err (ErrUnknown "issuer" issuer)
      | Some td =>
          match jwksCache p (ct_JWKSURL td) with
          | Err e => Err (ErrFetch issuer e)
          | Ok keyset =>
              match jwt_Parse keyset now credential with
              | None => Err ErrSignature
              | Some token => Ok (tokenIdentity stamp td token)
              end
          end
      end
  end.

(** What an accepted service account token means outside dev mode. *)
Lemma k8s_validate_ok p now stamp credential credType w :
  devMode p = false -> ValidateWorkload p now stamp credential credType = Ok w ->
  credType = "k8s-sa" /\
  exists t td keyset token, jwt_ParseInsecure credential = Some t /\
    trustDomains p !! orEmpty (jwt_Issuer t) = Some td /\ jwksCache p (ct_JWKSURL td) = Ok keyset /\
    jwt_Parse keyset now credential = Some token /\ w = tokenIdentity stamp td token.
Proof.
  intros Hdev. unfold ValidateWorkload. destruct (String.eqb_spec credType "k8s-sa") as [->|]; [|done].
  destruct (jwt_ParseInsecure credential) as [t|]; [|done]. rewrite Hdev. cbn [negb].
  destruct (trustDomains p !! _) as [td|] eqn:Htd; [|done].
  destruct (jwksCache p _) as [ks|] eqn:Hks; [|done]. destruct (jwt_Parse ks now credential) as [token|] eqn:Htok; [|done].
  intros [= <-]. split; [done|]. by exists t, td, ks, token.
Qed.
Lemma New_domain cache register domains dev issuer td :
  trustDomains (New cache register domains dev) !! issuer = Some td ->
  td ∈ domains /\ ct_Enabled td = true /\ ct_Issuer td = issuer /\ issuer <> "" /\ ct_JWKSURL td <> "".
Proof.
  intros (Hd & He & Hk & <-)%domainsBy_empty. apply andb_true_iff in Hk as [Hk _].
  apply negb_true_iff, orb_false_iff in Hk as [H1%String.eqb_neq H2%String.eqb_neq]. done.
Qed.
(** A credential that is no JWT is refused, in dev mode too. *)
Lemma malformed_refused p now stamp credential :
  jwt_ParseInsecure credential = None -> ValidateWorkload p now stamp credential "k8s-sa" = Err (ErrMalformed "JWT").
Proof. intros Hp. unfold ValidateWorkload. by rewrite Hp. Qed.
End Provider.
End IdK8s.
