(* ===== verification/IdOidc.v ===== *)
(** The OIDC provider ([pkg/identity/oidc]). *)
From Stdlib Require Import ZArith Lia.
From stdpp Require Import base gmap strings list.
From S2P Require Import Prelude.
From S2P Require Import GoLib.
From S2P Require Import Core.
From S2P Require Import DPoP.
From S2P Require Import IdCommon.

#[local] Open Scope string_scope.
#[local] Open Scope list_scope.
#[local] Open Scope Z_scope.

Module IdOidc.
Import Identity.

(** [DiscoverJWKS]: the discovery document of an issuer; the request and the JSON decoder are parameters. *)
Inductive DiscoverErr : Type := DiscRequest (why : string) | DiscStatus (code : Z) | DiscDecode | DiscMissing.
Definition DiscoverJWKS (get : string -> result string (Z * string)) (decode : string -> option string)
    (issuer : string) : result DiscoverErr string :=
  match get (issuer +:+ "/.well-known/openid-configuration") with
  | Err e => Err (DiscRequest e)
  | Ok (code, body) =>
      if negb (code =? 200) then Err (DiscStatus code) else
      match decode body with
      | None => Err DiscDecode
      | Some uri => if (uri =? "")%string then Err DiscMissing else Ok uri
      end
  end.

Section Provider.
Context `{!JwtLib, !JwsLib, !KeyLib}.

Record Provider : Type := {
  trustDomains : gmap string TrustDomain;
  jwksResolver : option Resolver;
  expectedAudiences : list string;
  devMode : bool;
}.
(** The options and [NewProvider] *)
Definition WithTrustDomains (domains : list TrustDomain) (p : Provider) : Provider :=
  {| trustDomains := domainsBy ct_Issuer (fun d => negb (ct_Issuer d =? "")%string) domains (trustDomains p);
     jwksResolver := jwksResolver p; expectedAudiences := expectedAudiences p; devMode := devMode p |}.
Definition WithJWKSResolver (r : Resolver) (p : Provider) : Provider :=
  {| trustDomains := trustDomains p; jwksResolver := Some r; expectedAudiences := expectedAudiences p; devMode := devMode p |}.
Definition WithExpectedAudiences (auds : list string) (p : Provider) : Provider :=
  {| trustDomains := trustDomains p; jwksResolver := jwksResolver p; expectedAudiences := auds; devMode := devMode p |}.
Definition WithDevMode (dev : bool) (p : Provider) : Provider :=
  {| trustDomains := trustDomains p; jwksResolver := jwksResolver p; expectedAudiences := expectedAudiences p; devMode := dev |}.
Definition NewProvider (opts : list (Provider -> Provider)) : Provider :=
  foldl (fun p opt => opt p) {| trustDomains := ∅; jwksResolver := None; expectedAudiences := []; devMode := false |} opts.

(** [extractOptionalClaim] *)
Definition extractOptionalClaim (t : jwt_token) (key : string) (out : gmap string value) : gmap string value :=
  match jwt_claim t key with
  | Some v => match v with VNull => out | _ => <[key := v]> out end
  | None => out
  end.
Definition tokenClaims (t : jwt_token) (issuer sub : string) : gmap string value :=
  extractOptionalClaim t "azp" (extractOptionalClaim t "roles" (extractOptionalClaim t "groups"
    (extractOptionalClaim t "email" (<["issuer" := VStr issuer]> (<["subject" := VStr sub]> ∅))))).

(** [verifyWithResolver] *)
Definition verifyWithResolver (resolve : Resolver) (env : Env) (credential jwksURL : string) : result IdErr unit :=
  resolveAndVerify true resolve env credential jwksURL.

(** The audience check: some audience of the token is expected, when any is. *)
Definition checkAudience (p : Provider) (t : jwt_token) : result IdErr unit :=
  match expectedAudiences p with
  | [] => Ok tt
  | expected =>
      match jwt_Audience t with
      | None => Err (ErrMissing "aud")
      | Some auds => reject (negb (existsb (fun ta => str_mem ta expected) auds)) ErrAudience
      end
  end.

(** [ValidateWorkload] *)
Definition ValidateWorkload (p : Provider) (env : Env) (credential ct : string) : result IdErr WorkloadIdentity :=
  if negb (ct =? "oidc")%string then Err (ErrUnsupportedType ct) else
  match jwt_ParseInsecure credential with
  | None => Err (ErrMalformed "OIDC token")
  | Some t =>
      let issuer := orEmpty (jwt_Issuer t) in
      let? _ := reject (issuer =? "")%string (ErrMissing "iss") in
      let sub := orEmpty (jwt_Subject t) in
      let? _ := reject (sub =? "")%string (ErrMissing "sub") in
      let claims := tokenClaims t issuer sub in
      if devMode p then
        Ok (workload (wimseURI "dev.local" "oidc" sub) "dev.local" "oidc" (env_stamp env) (<["dev_mode" := VBool true]> claims))
      else
      match trustDomains p !! issuer with
      | None => Err (ErrUnknown "issuer" issuer)
      | Some td =>
          let? _ := match jwksResolver p with
                    | Some resolve => verifyWithResolver resolve env credential (ct_JWKSURL td)
                    | None => verifySignature true None env credential (ct_JWKSURL td) issuer
                    end in
          let? _ := checkAudience p t in
          Ok (workload (wimseURI (ct_Name td) "oidc" sub) (ct_Name td) "oidc" (env_stamp env) claims)
      end
  end.

(** What an accepted token means outside dev mode. *)
Lemma oidc_validate_ok p env credential ct w :
  devMode p = false -> ValidateWorkload p env credential ct = Ok w ->
  ct = "oidc" /\
  exists t td sub, jwt_ParseInsecure credential = Some t /\ jwt_Subject t = Some sub /\ sub <> "" /\
    trustDomains p !! orEmpty (jwt_Issuer t) = Some td /\
    vouched (jwksResolver p) env credential (ct_JWKSURL td) /\
    (expectedAudiences p <> [] -> exists auds a, jwt_Audience t = Some auds /\ a ∈ auds /\ a ∈ expectedAudiences p) /\
    wi_ID w = wimseURI (ct_Name td) "oidc" sub /\ wi_TrustDomain w = ct_Name td.
Proof.
  intros Hdev. unfold ValidateWorkload. destruct (String.eqb_spec ct "oidc") as [->|]; [|done].
  destruct (jwt_ParseInsecure credential) as [t|]; [|done]. rewrite Hdev. cbn [negb]. intros Hv. inv_ok.
  destruct (trustDomains p !! _) as [td|] eqn:Htd; [|done]. inv_ok. split; [done|].
  destruct (jwt_Subject t) as [sub|] eqn:Hsub; [|done]. exists t, td, sub.
  match goal with H : (orEmpty (Some sub) =? "")%string = false |- _ => apply String.eqb_neq in H end.
  split_and!; [done|exact Hsub|done|done| | |done|done].
  - destruct (jwksResolver p); [by eapply resolve_vouched|by eapply verify_vouched].
  - intros Hne. unfold checkAudience in *. destruct (expectedAudiences p) as [|a0 as0]; [done|].
    destruct (jwt_Audience t) as [auds|]; [|done]. inv_ok.
    match goal with H : existsb _ auds = true |- _ => apply existsb_exists in H as (a & Ha & Hm) end.
    exists auds, a. split_and!; [done|by apply list_elem_of_In|by apply str_mem_true].
Qed.
End Provider.
End IdOidc.
