(* ===== verification/IdOAuth2.v ===== *)
(** The OAuth 2.0 provider ([pkg/identity/oauth2]): JWT access tokens verified by their keys, opaque ones by
    introspection. *)
From Stdlib Require Import ZArith Lia.
From stdpp Require Import base gmap strings list.
From S2P Require Import Prelude.
From S2P Require Import GoLib.
From S2P Require Import Core.
From S2P Require Import DPoP.
From S2P Require Import IdCommon.

#[local] Open Scope string_scope.
#[local] Open Scope list_scope.
#[local] Open Scope Z_scope.

Module IdOAuth2.
Import Identity.
Section Provider.
Context `{!JwtLib, !JwsLib, !KeyLib}.

Record ClientCredentials : Type := { cc_ClientID : string; cc_ClientSecret : string }.
Record IntrospectionResponse : Type := {
  Active : bool; ir_Sub : string; ir_ClientID : string; ir_Scope : string; ir_Issuer : string; ir_ExpiresAt : Z;
}.
(** The introspection call: [httpClient.Do] of the form with the token, and the JSON decoder. *)
Record Http : Type := {
  post : string -> ClientCredentials -> string -> result string (Z * string);
  decode : string -> option IntrospectionResponse;
}.

Record Provider : Type := {
  trustDomains : gmap string TrustDomain;
  jwksResolver : option Resolver;
  introspectionURLs : gmap string string;
  introspectionCreds : gmap string ClientCredentials;
  httpClient : Http;
  devMode : bool;
}.
(** The options and [NewProvider] *)
Definition WithTrustDomains (domains : list TrustDomain) (p : Provider) : Provider :=
  {| trustDomains := domainsBy ct_Issuer (fun d => negb (ct_Issuer d =? "")%string) domains (trustDomains p);
     jwksResolver := jwksResolver p; introspectionURLs := introspectionURLs p;
     introspectionCreds := introspectionCreds p; httpClient := httpClient p; devMode := devMode p |}.
Definition WithJWKSResolver (r : Resolver) (p : Provider) : Provider :=
  {| trustDomains := trustDomains p; jwksResolver := Some r; introspectionURLs := introspectionURLs p;
     introspectionCreds := introspectionCreds p; httpClient := httpClient p; devMode := devMode p |}.
Definition WithIntrospection (issuer url : string) (creds : ClientCredentials) (p : Provider) : Provider :=
  {| trustDomains := trustDomains p; jwksResolver := jwksResolver p;
     introspectionURLs := <[issuer := url]> (introspectionURLs p);
     introspectionCreds := <[issuer := creds]> (introspectionCreds p); httpClient := httpClient p; devMode := devMode p |}.
Definition WithHTTPClient (c : Http) (p : Provider) : Provider :=
  {| trustDomains := trustDomains p; jwksResolver := jwksResolver p; introspectionURLs := introspectionURLs p;
     introspectionCreds := introspectionCreds p; httpClient := c; devMode := devMode p |}.
Definition WithDevMode (dev : bool) (p : Provider) : Provider :=
  {| trustDomains := trustDomains p; jwksResolver := jwksResolver p; introspectionURLs := introspectionURLs p;
     introspectionCreds := introspectionCreds p; httpClient := httpClient p; devMode := dev |}.
Definition NewProvider (defaultClient : Http) (opts : list (Provider -> Provider)) : Provider :=
  foldl (fun p opt => opt p)
    {| trustDomains := ∅; jwksResolver := None; introspectionURLs := ∅; introspectionCreds := ∅;
       httpClient := defaultClient; devMode := false |} opts.

(** [verifyWithResolver] *)
Definition verifyWithResolver (resolve : Resolver) (env : Env) (credential jwksURL : string) : result IdErr unit :=
  resolveAndVerify false resolve env credential jwksURL.

(** The principal: the client, or else the subject *)
Definition principalOf (clientID sub : string) : string := if (clientID =? "")%string then sub else clientID.
Definition tokenClaims (issuer kind sub clientID scope : string) : gmap string value :=
  set_nonempty "scope" scope (set_nonempty "client_id" clientID (set_nonempty "sub" sub
    (<["issuer" := VStr issuer]> (<["token_type" := VStr kind]> ∅)))).

(** [validateJWT] *)
Definition validateJWT (p : Provider) (env : Env) (credential : string) (t : jwt_token) : result IdErr WorkloadIdentity :=
  let issuer := orEmpty (jwt_Issuer t) in
  let? _ := reject (issuer =? "")%string (ErrMissing "iss") in
  let sub := orEmpty (jwt_Subject t) in
  let clientID := orEmpty (get_string t "client_id") in
  let principal := principalOf clientID sub in
  let? _ := reject (principal =? "")%string (ErrMissing "sub and client_id") in
  let claims := tokenClaims issuer "jwt" sub clientID (orEmpty (get_string t "scope")) in
  if devMode p then
    Ok (workload (wimseURI "dev.local" "oauth2" principal) "dev.local" "oauth2" (env_stamp env) (<["dev_mode" := VBool true]> claims))
  else
  match trustDomains p !! issuer with
  | None => Err (ErrUnknown "issuer" issuer)
  | Some td =>
      let? _ := match jwksResolver p with
                | Some resolve => verifyWithResolver resolve env credential (ct_JWKSURL td)
                | None => verifySignature false None env credential (ct_JWKSURL td) issuer
                end in
      Ok (workload (wimseURI (ct_Name td) "oauth2" principal) (ct_Name td) "oauth2" (env_stamp env) claims)
  end.

(** What [validateOpaque] makes of an active token. *)
Definition introspected (p : Provider) (env : Env) (issuerKey : string) (r : IntrospectionResponse)
    : result IdErr WorkloadIdentity :=
  let principal := let c := principalOf (ir_ClientID r) (ir_Sub r) in if (c =? "")%string then "unknown" else c in
  let responseIssuer := if (ir_Issuer r =? "")%string then issuerKey else ir_Issuer r in
  match trustDomains p !! responseIssuer with
  | None => Err (ErrUnknown "issuer from introspection" responseIssuer)
  | Some td =>
      Ok (workload (wimseURI (ct_Name td) "oauth2" principal) (ct_Name td) "oauth2" (env_stamp env)
            (tokenClaims responseIssuer "opaque" (ir_Sub r) (ir_ClientID r) (ir_Scope r)))
  end.

(** [validateOpaque] *)
Definition validateOpaque (p : Provider) (env : Env) (credential : string) : result IdErr WorkloadIdentity :=
  if devMode p then
    Ok (workload "wimse://dev.local/oauth2/opaque-token" "dev.local" "oauth2" (env_stamp env)
          (<["dev_mode" := VBool true]> (<["token_type" := VStr "opaque"]> (<["key_prefix" := VStr (str_take 8 credential)]> ∅))))
  else
  match map_to_list (introspectionURLs p) with
  | [] => Err ErrNoEndpoint
  | [(issuerKey, url)] =>
      let creds := match introspectionCreds p !! issuerKey with
                   | Some c => c
                   | None => {| cc_ClientID := ""; cc_ClientSecret := "" |}
                   end in
      match post (httpClient p) url creds credential with
      | Err e => Err (ErrRemote e)
      | Ok (code, body) =>
          if negb (code =? 200) then Err (ErrRemote body) else
          match decode (httpClient p) body with
          | None => Err (ErrMalformed "introspection response")
          | Some r => if negb (Active r) then Err ErrInactive else introspected p env issuerKey r
          end
      end
  | _ => Err ErrAmbiguousEndpoint
  end.

(** [ValidateWorkload] *)
Definition ValidateWorkload (p : Provider) (env : Env) (credential ct : string) : result IdErr WorkloadIdentity :=
  if negb (ct =? "oauth2")%string then Err (ErrUnsupportedType ct) else
  if (credential =? "")%string then Err (ErrMissing "credential") else
  match jwt_ParseInsecure credential with
  | Some t => validateJWT p env credential t
  | None => validateOpaque p env credential
  end.

(** What an accepted token means outside dev mode: a JWT verified under the keys of its issuer's domain,
    or an opaque token the introspection endpoint called active. *)
Definition introspectedBy (p : Provider) (credential : string) (r : IntrospectionResponse) : Prop :=
  exists issuerKey url creds body, introspectionURLs p !! issuerKey = Some url /\
    post (httpClient p) url creds credential = Ok (200, body) /\ decode (httpClient p) body = Some r /\ Active r = true.
Lemma oauth2_validate_ok p env credential ct w :
  devMode p = false -> ValidateWorkload p env credential ct = Ok w ->
  ct = "oauth2" /\
  exists td issuer principal, trustDomains p !! issuer = Some td /\ principal <> "" /\
    wi_ID w = wimseURI (ct_Name td) "oauth2" principal /\ wi_TrustDomain w = ct_Name td /\
    ((exists t, jwt_ParseInsecure credential = Some t /\ jwt_Issuer t = Some issuer /\
        principal = principalOf (orEmpty (get_string t "client_id")) (orEmpty (jwt_Subject t)) /\
        vouched (jwksResolver p) env credential (ct_JWKSURL td)) \/
     (exists r, introspectedBy p credential r)).
Proof.
  intros Hdev. unfold ValidateWorkload. destruct (String.eqb_spec ct "oauth2") as [->|]; [|done]. cbn [negb].
  destruct (credential =? "")%string; [done|]. destruct (jwt_ParseInsecure credential) as [t|] eqn:Ht.
  - unfold validateJWT. rewrite Hdev. intros Hv. inv_ok. destruct (trustDomains p !! _) as [td|] eqn:Htd; [|done]. inv_ok.
    split; [done|]. destruct (jwt_Issuer t) as [issuer|] eqn:Hi; [|done].
    match goal with H : (principalOf _ _ =? "")%string = false |- _ => apply String.eqb_neq in H; rename H into Hp end.
    exists td, issuer, (principalOf (orEmpty (get_string t "client_id")) (orEmpty (jwt_Subject t))).
    do 4 (split; [done|]). left. exists t. do 3 (split; [done|]).
    destruct (jwksResolver p); [by eapply resolve_vouched|by eapply verify_vouched].
  - unfold validateOpaque. rewrite Hdev. destruct (map_to_list (introspectionURLs p)) as [|[ik url] [|? ?]] eqn:Hl; [done| |done].
    destruct (post _ _ _ _) as [[code body]|] eqn:Hpost; [|done]. destruct (Z.eqb_spec code 200) as [->|]; [|done]. cbn [negb].
    destruct (decode _ _) as [r|] eqn:Hdec; [|done]. destruct (Active r) eqn:Hact; [|done]. cbn [negb].
    unfold introspected. destruct (trustDomains p !! _) as [td|] eqn:Htd; [|done]. intros [= <-]. split; [done|].
    eexists td, _, _. split; [exact Htd|]. split; [|split; [reflexivity|split; [reflexivity|right]]].
    + destruct (principalOf _ _ =? "")%string eqn:Hp; [done|by apply String.eqb_neq].
    + exists r, ik, url. eexists _, body. split_and!; [|exact Hpost|done|done].
      apply elem_of_map_to_list. rewrite Hl. by left.
Qed.

(** The introspection endpoint of one issuer can vouch for any other: the answer's own issuer picks the
    trust domain, and is not compared with the issuer the endpoint belongs to. *)
Theorem introspection_crosses_issuers p env credential ik url body r td :
  devMode p = false -> jwt_ParseInsecure credential = None -> credential <> "" ->
  map_to_list (introspectionURLs p) = [(ik, url)] ->
  (forall creds, post (httpClient p) url creds credential = Ok (200, body)) ->
  decode (httpClient p) body = Some r -> Active r = true -> ir_Issuer r <> "" -> ir_ClientID r <> "" ->
  trustDomains p !! ir_Issuer r = Some td ->
  exists w, ValidateWorkload p env credential "oauth2" = Ok w /\
    wi_ID w = wimseURI (ct_Name td) "oauth2" (ir_ClientID r) /\ wi_TrustDomain w = ct_Name td.
Proof.
  intros Hdev Hparse Hne Hl Hpost Hdec Hact Hi Hc Htd. unfold ValidateWorkload. cbn [negb String.eqb Ascii.eqb Bool.eqb].
  rewrite (proj2 (String.eqb_neq credential "")) by done. rewrite Hparse. unfold validateOpaque.
  rewrite Hdev, Hl, Hpost. cbn [negb Z.eqb Pos.eqb]. rewrite Hdec, Hact. cbn [negb]. unfold introspected, principalOf. cbn zeta.
  rewrite (proj2 (String.eqb_neq (ir_Issuer r) "")), !(proj2 (String.eqb_neq (ir_ClientID r) "")) by done. rewrite Htd.
  by eexists.
Qed.
End Provider.
End IdOAuth2.
