(* ===== verification/IdSpiffe.v ===== *)
(** The SPIFFE provider ([pkg/identity/spiffe]). *)
From Stdlib Require Import ZArith Lia.
From stdpp Require Import base gmap strings list.
From S2P Require Import Prelude.
From S2P Require Import GoLib.
From S2P Require Import Core.
From S2P Require Import DPoP.
From S2P Require Import IdCommon.

#[local] Open Scope string_scope.
#[local] Open Scope list_scope.
#[local] Open Scope Z_scope.

Module IdSpiffe.
Import Identity.
Section Provider.
Context `{!JwtLib, !JwsLib, !KeyLib}.
(** [url.Parse]: scheme, host and path of a URL *)
Variable url_Parse : string -> option (string * string * string).

Record Provider : Type := {
  trustDomains : gmap string TrustDomain;
  jwksResolver : option Resolver;
  devMode : bool;
}.
(** The options and [NewProvider] *)
Definition WithTrustDomains (domains : list TrustDomain) (p : Provider) : Provider :=
  {| trustDomains := domainsBy ct_Name (fun _ => true) domains (trustDomains p); jwksResolver := jwksResolver p; devMode := devMode p |}.
Definition WithJWKSResolver (r : Resolver) (p : Provider) : Provider :=
  {| trustDomains := trustDomains p; jwksResolver := Some r; devMode := devMode p |}.
Definition WithDevMode (dev : bool) (p : Provider) : Provider :=
  {| trustDomains := trustDomains p; jwksResolver := jwksResolver p; devMode := dev |}.
Definition NewProvider (opts : list (Provider -> Provider)) : Provider :=
  foldl (fun p opt => opt p) {| trustDomains := ∅; jwksResolver := None; devMode := false |} opts.

(** [parseSpiffeID]: the trust domain and the workload path *)
Definition parseSpiffeID (spiffeID : string) : result IdErr (string * string) :=
  match url_Parse spiffeID with
  | None => Err (ErrMalformed "SPIFFE ID")
  | Some (scheme, host, path0) =>
      if negb (scheme =? "spiffe")%string then Err (ErrMalformed "SPIFFE ID") else
      if (host =? "")%string then Err (ErrMissing "trust domain") else
      let path := TrimPrefix path0 "/" in
      if (path =? "")%string then Err (ErrMissing "workload path") else Ok (host, path)
  end.

(** [verifyWithResolver] *)
Definition verifyWithResolver (resolve : Resolver) (env : Env) (credential jwksURL : string) : result IdErr unit :=
  resolveAndVerify true resolve env credential jwksURL.

(** [ValidateWorkload] *)
Definition ValidateWorkload (p : Provider) (env : Env) (credential ct : string) : result IdErr WorkloadIdentity :=
  if negb (ct =? "spiffe-svid")%string then Err (ErrUnsupportedType ct) else
  match jwt_ParseInsecure credential with
  | None => Err (ErrMalformed "JWT-SVID")
  | Some t =>
      let sub := orEmpty (jwt_Subject t) in
      let? _ := reject (sub =? "")%string (ErrMissing "sub") in
      let? tp := parseSpiffeID sub in
      let claims := <["spiffe_id" := VStr sub]> (<["trust_domain" := VStr tp.1]> (∅ : gmap string value)) in
      if devMode p then
        Ok (workload (wimseURI "dev.local" "spiffe" tp.2) "dev.local" "spiffe-svid" (env_stamp env) (<["dev_mode" := VBool true]> claims))
      else
      match trustDomains p !! tp.1 with
      | None => Err (ErrUnknown "trust domain" tp.1)
      | Some domain =>
          let? _ := match jwksResolver p with
                    | Some resolve => verifyWithResolver resolve env credential (ct_JWKSURL domain)
                    | None => verifySignature true None env credential (ct_JWKSURL domain) tp.1
                    end in
          Ok (workload (wimseURI tp.1 "spiffe" tp.2) tp.1 "spiffe-svid" (env_stamp env) claims)
      end
  end.

(** What an accepted SVID means outside dev mode: the trust domain of its SPIFFE ID vouches for it, and the
    identifier carries that trust domain and path. *)
Lemma spiffe_validate_ok p env credential ct w :
  devMode p = false -> ValidateWorkload p env credential ct = Ok w ->
  ct = "spiffe-svid" /\
  exists t sub td path domain, jwt_ParseInsecure credential = Some t /\ jwt_Subject t = Some sub /\
    parseSpiffeID sub = Ok (td, path) /\ trustDomains p !! td = Some domain /\
    vouched (jwksResolver p) env credential (ct_JWKSURL domain) /\
    wi_ID w = wimseURI td "spiffe" path /\ wi_TrustDomain w = td.
Proof.
  intros Hdev. unfold ValidateWorkload. destruct (String.eqb_spec ct "spiffe-svid") as [->|]; [|done].
  destruct (jwt_ParseInsecure credential) as [t|]; [|done]. rewrite Hdev. cbn [negb]. intros Hv. inv_ok.
  match goal with H : parseSpiffeID _ = Ok ?x |- _ => destruct x as [td path] end. cbn [fst snd] in *.
  destruct (trustDomains p !! td) as [domain|] eqn:Htd; [|done]. inv_ok. split; [done|].
  destruct (jwt_Subject t) as [sub|] eqn:Hsub; [|done]. exists t, sub, td, path, domain.
  split_and!; [done|exact Hsub|done|done| |done|done].
  destruct (jwksResolver p); [by eapply resolve_vouched|by eapply verify_vouched].
Qed.
End Provider.
End IdSpiffe.
