(* ===== verification/IdGcp.v ===== *)
(** The Google Cloud provider ([pkg/identity/gcp]). *)
From Stdlib Require Import ZArith Lia.
From stdpp Require Import base gmap strings list.
From S2P Require Import Prelude.
From S2P Require Import GoLib.
From S2P Require Import Core.
From S2P Require Import DPoP.
From S2P Require Import IdCommon.

#[local] Open Scope string_scope.
#[local] Open Scope list_scope.
#[local] Open Scope Z_scope.

Module IdGcp.
Import Identity.
Definition googleIssuer : string := "https://accounts.google.com".
Definition googleJWKSURL : string := "https://www.googleapis.com/oauth2/v3/certs".

Section Provider.
Context `{!JwtLib, !JwsLib, !KeyLib}.

Record Provider : Type := {
  trustDomains : gmap string TrustDomain;
  allowedProjects : gset string;
  jwksResolver : option Resolver;
  devMode : bool;
}.
(** The options and [NewProvider] *)
Definition WithTrustDomains (domains : list TrustDomain) (p : Provider) : Provider :=
  {| trustDomains := domainsBy ct_Name (fun d => negb (ct_Name d =? "")%string) domains (trustDomains p);
     allowedProjects := allowedProjects p; jwksResolver := jwksResolver p; devMode := devMode p |}.
Definition WithAllowedProjects (projects : list string) (p : Provider) : Provider :=
  {| trustDomains := trustDomains p; allowedProjects := list_to_set projects ∪ allowedProjects p;
     jwksResolver := jwksResolver p; devMode := devMode p |}.
Definition WithJWKSResolver (r : Resolver) (p : Provider) : Provider :=
  {| trustDomains := trustDomains p; allowedProjects := allowedProjects p; jwksResolver := Some r; devMode := devMode p |}.
Definition WithDevMode (dev : bool) (p : Provider) : Provider :=
  {| trustDomains := trustDomains p; allowedProjects := allowedProjects p; jwksResolver := jwksResolver p; devMode := dev |}.
Definition NewProvider (opts : list (Provider -> Provider)) : Provider :=
  foldl (fun p opt => opt p) {| trustDomains := ∅; allowedProjects := ∅; jwksResolver := None; devMode := false |} opts.

(** [google.compute_engine.<member>] of a token *)
Definition computeEngine (t : jwt_token) (member : string) : string :=
  match get_object t "google" with
  | Some g => match g !! "compute_engine" with
              | Some (VObj ce) => orEmpty (ce !! member ≫= as_string)
              | _ => ""
              end
  | None => ""
  end.
Definition projectOf (t : jwt_token) : string :=
  let nested := computeEngine t "project_id" in
  if (nested =? "")%string then orEmpty (get_string t "project_id") else nested.

(** [verifyWithResolver] *)
Definition verifyWithResolver (resolve : Resolver) (env : Env) (credential jwksURL : string) : result IdErr unit :=
  resolveAndVerify false resolve env credential jwksURL.

(** [ValidateWorkload] *)
Definition ValidateWorkload (p : Provider) (env : Env) (credential ct : string) : result IdErr WorkloadIdentity :=
  if negb (ct =? "gcp-wif")%string then Err (ErrUnsupportedType ct) else
  match jwt_ParseInsecure credential with
  | None => Err (ErrMalformed "GCP token")
  | Some t =>
      let issuer := orEmpty (jwt_Issuer t) in
      let? _ := reject (negb (issuer =? googleIssuer)%string) (ErrUnknown "issuer" issuer) in
      let sub := orEmpty (jwt_Subject t) in
      let? _ := reject (sub =? "")%string (ErrMissing "sub") in
      let email := orEmpty (get_string t "email") in
      let projectID := projectOf t in
      let principal := if (email =? "")%string then sub else email in
      let claims := set_nonempty "instance_id" (computeEngine t "instance_id")
                      (set_nonempty "zone" (computeEngine t "zone")
                      (set_nonempty "project_id" projectID
                      (set_nonempty "email" email (<["sub" := VStr sub]> ∅)))) in
      if devMode p then
        Ok (workload (wimseURI "dev.local" "gcp" principal) "dev.local" "gcp-wif" (env_stamp env) (<["dev_mode" := VBool true]> claims))
      else
      let? _ := match jwksResolver p with
                | Some resolve => verifyWithResolver resolve env credential googleJWKSURL
                | None => fetchAndVerify env credential googleJWKSURL "Google"
                end in
      match trustDomains p !! projectID with
      | None => Err (ErrUnknown "project" projectID)
      | Some td =>
          let? _ := reject (bool_decide (allowedProjects p <> ∅) && negb (bool_decide (projectID ∈ allowedProjects p)))
                      (ErrNotAllowed "project" projectID) in
          Ok (workload (wimseURI (ct_Name td) "gcp" principal) (ct_Name td) "gcp-wif" (env_stamp env) claims)
      end
  end.

(** What an accepted token means outside dev mode. *)
Lemma gcp_validate_ok p env credential ct w :
  devMode p = false -> ValidateWorkload p env credential ct = Ok w ->
  ct = "gcp-wif" /\
  exists t td principal, jwt_ParseInsecure credential = Some t /\ jwt_Issuer t = Some googleIssuer /\
    trustDomains p !! projectOf t = Some td /\ (allowedProjects p <> ∅ -> projectOf t ∈ allowedProjects p) /\
    vouched (jwksResolver p) env credential googleJWKSURL /\ principal <> "" /\
    principal = (if (orEmpty (get_string t "email") =? "")%string then orEmpty (jwt_Subject t) else orEmpty (get_string t "email")) /\
    wi_ID w = wimseURI (ct_Name td) "gcp" principal /\ wi_TrustDomain w = ct_Name td.
Proof.
  intros Hdev. unfold ValidateWorkload. destruct (String.eqb_spec ct "gcp-wif") as [->|]; [|done].
  destruct (jwt_ParseInsecure credential) as [t|]; [|done]. rewrite Hdev. cbn [negb]. intros Hv. inv_ok.
  destruct (trustDomains p !! projectOf t) as [td|] eqn:Htd; [|done]. inv_ok. split; [done|].
  destruct (jwt_Issuer t) as [iss|] eqn:Hi; [|done].
  match goal with H : (orEmpty (Some iss) =? googleIssuer)%string = true |- _ => apply String.eqb_eq in H; cbn in H; subst iss end.
  exists t, td. eexists. split_and!; [done|exact Hi|done| | | |reflexivity|reflexivity|done].
  - intros Hne. rewrite bool_decide_eq_true_2 in * by done. cbn in *. inv_ok. by eapply bool_decide_eq_true_1.
  - destruct (jwksResolver p); [by eapply resolve_vouched|by eapply fetch_vouched].
  - destruct (orEmpty (get_string t "email") =? "")%string eqn:He; by apply String.eqb_neq.
Qed.
End Provider.
End IdGcp.
