(* ===== verification/IdAzure.v ===== *)
(** The Azure AD provider ([pkg/identity/azure]). *)
From Stdlib Require Import ZArith Lia Ascii.
From stdpp Require Import base gmap strings list.
From S2P Require Import Prelude.
From S2P Require Import GoLib.
From S2P Require Import Core.
From S2P Require Import DPoP.
From S2P Require Import IdCommon.

#[local] Open Scope string_scope.
#[local] Open Scope list_scope.
#[local] Open Scope Z_scope.

Module IdAzure.
Import Identity.
Definition azureIssuerPrefix : string := "https://login.microsoftonline.com/".
Definition azureSTSPrefix : string := "https://sts.windows.net/".

(** [extractTenantID] *)
Definition extractTenantID (issuer : string) : result IdErr string :=
  let tenant (prefix : string) :=
    let path := TrimSuffix (TrimSuffix (TrimSuffix (TrimPrefix issuer prefix) "/") "/v2.0") "/" in
    match SplitN2 path "/"%char with
    | x :: _ => if (x =? "")%string then Err (ErrMalformed issuer) else Ok x
    | [] => Err (ErrMalformed issuer)
    end in
  if HasPrefix issuer azureIssuerPrefix then tenant azureIssuerPrefix
  else if HasPrefix issuer azureSTSPrefix then tenant azureSTSPrefix
  else Err (ErrMalformed issuer).

(** The key set of a tenant *)
Definition tenantJWKS (tenantID : string) : string :=
  "https://login.microsoftonline.com/" +:+ tenantID +:+ "/discovery/v2.0/keys".

Section Provider.
Context `{!JwtLib, !JwsLib, !KeyLib}.

Record Provider : Type := {
  trustDomains : gmap string TrustDomain;
  allowedTenants : gset string;
  jwksResolver : option Resolver;
  devMode : bool;
}.
(** The options and [NewProvider] *)
Definition WithTrustDomains (domains : list TrustDomain) (p : Provider) : Provider :=
  {| trustDomains := domainsBy ct_Name (fun d => negb (ct_Name d =? "")%string) domains (trustDomains p);
     allowedTenants := allowedTenants p; jwksResolver := jwksResolver p; devMode := devMode p |}.
Definition WithAllowedTenants (tenants : list string) (p : Provider) : Provider :=
  {| trustDomains := trustDomains p; allowedTenants := list_to_set tenants ∪ allowedTenants p;
     jwksResolver := jwksResolver p; devMode := devMode p |}.
Definition WithJWKSResolver (r : Resolver) (p : Provider) : Provider :=
  {| trustDomains := trustDomains p; allowedTenants := allowedTenants p; jwksResolver := Some r; devMode := devMode p |}.
Definition WithDevMode (dev : bool) (p : Provider) : Provider :=
  {| trustDomains := trustDomains p; allowedTenants := allowedTenants p; jwksResolver := jwksResolver p; devMode := dev |}.
Definition NewProvider (opts : list (Provider -> Provider)) : Provider :=
  foldl (fun p opt => opt p) {| trustDomains := ∅; allowedTenants := ∅; jwksResolver := None; devMode := false |} opts.

(** [extractStringClaim] *)
Definition extractStringClaim (t : jwt_token) (key target : string) : string :=
  match get_string t key with Some s => s | None => target end.
Definition rolesClaim (t : jwt_token) (claims : gmap string value) : gmap string value :=
  match jwt_claim t "roles" with
  | Some v => match v with VNull => claims | _ => <["roles" := v]> claims end
  | None => claims
  end.

(** [verifyWithResolver] *)
Definition verifyWithResolver (resolve : Resolver) (env : Env) (credential jwksURL : string) : result IdErr unit :=
  resolveAndVerify false resolve env credential jwksURL.

(** [ValidateWorkload]; [extractTenantID] never returns an empty tenant, so the fallback to the [tid] claim
    is written out but cannot apply. *)
Definition ValidateWorkload (p : Provider) (env : Env) (credential ct : string) : result IdErr WorkloadIdentity :=
  if negb (ct =? "azure-mi")%string then Err (ErrUnsupportedType ct) else
  match jwt_ParseInsecure credential with
  | None => Err (ErrMalformed "Azure token")
  | Some t =>
      let issuer := orEmpty (jwt_Issuer t) in
      let? _ := reject (negb (HasPrefix issuer azureIssuerPrefix) && negb (HasPrefix issuer azureSTSPrefix))
                  (ErrUnknown "issuer" issuer) in
      let sub := orEmpty (jwt_Subject t) in
      let? _ := reject (sub =? "")%string (ErrMissing "sub") in
      let? tenant0 := extractTenantID issuer in
      let oid := extractStringClaim t "oid" "" in
      let appID0 := extractStringClaim t "appid" "" in
      let appID := if (appID0 =? "")%string then extractStringClaim t "azp" appID0 else appID0 in
      let name := extractStringClaim t "name" "" in
      let tidClaim := extractStringClaim t "tid" "" in
      let tenantID := if negb (tidClaim =? "")%string && (tenant0 =? "")%string then tidClaim else tenant0 in
      let principal := if (oid =? "")%string then sub else oid in
      let claims := rolesClaim t (set_nonempty "name" name (set_nonempty "app_id" appID (set_nonempty "object_id" oid
                      (<["tenant_id" := VStr tenantID]> (<["sub" := VStr sub]> ∅))))) in
      if devMode p then
        Ok (workload (wimseURI "dev.local" "azure" principal) "dev.local" "azure-mi" (env_stamp env) (<["dev_mode" := VBool true]> claims))
      else
      let? _ := match jwksResolver p with
                | Some resolve => verifyWithResolver resolve env credential (tenantJWKS tenantID)
                | None => fetchAndVerify env credential (tenantJWKS tenantID) tenantID
                end in
      match trustDomains p !! tenantID with
      | None => Err (ErrUnknown "tenant" tenantID)
      | Some td =>
          let? _ := reject (bool_decide (allowedTenants p <> ∅) && negb (bool_decide (tenantID ∈ allowedTenants p)))
                      (ErrNotAllowed "tenant" tenantID) in
          Ok (workload (wimseURI (ct_Name td) "azure" principal) (ct_Name td) "azure-mi" (env_stamp env) claims)
      end
  end.

Lemma extractTenantID_nonempty issuer tid : extractTenantID issuer = Ok tid -> tid <> "".
Proof.
  unfold extractTenantID. assert (Ht : forall path r,
    match SplitN2 path "/"%char with
    | x :: _ => if (x =? "")%string then Err (ErrMalformed issuer) else Ok x
    | [] => Err (ErrMalformed issuer)
    end = Ok r -> r <> "").
  { intros path r. destruct (SplitN2 path "/"%char) as [|x xs]; [done|]. destruct (String.eqb_spec x ""); [done|congruence]. }
  cbn zeta. destruct (HasPrefix issuer azureIssuerPrefix); [apply Ht|].
  destruct (HasPrefix issuer azureSTSPrefix); [apply Ht|done].
Qed.

(** What an accepted token means outside dev mode: the tenant named by the issuer vouches for it. *)
Lemma azure_validate_ok p env credential ct w :
  devMode p = false -> ValidateWorkload p env credential ct = Ok w ->
  ct = "azure-mi" /\
  exists t tenant td principal, jwt_ParseInsecure credential = Some t /\
    extractTenantID (orEmpty (jwt_Issuer t)) = Ok tenant /\
    trustDomains p !! tenant = Some td /\ (allowedTenants p <> ∅ -> tenant ∈ allowedTenants p) /\
    vouched (jwksResolver p) env credential (tenantJWKS tenant) /\ principal <> "" /\
    principal = (if (extractStringClaim t "oid" "" =? "")%string then orEmpty (jwt_Subject t) else extractStringClaim t "oid" "") /\
    wi_ID w = wimseURI (ct_Name td) "azure" principal /\ wi_TrustDomain w = ct_Name td.
Proof.
  intros Hdev. unfold ValidateWorkload. destruct (String.eqb_spec ct "azure-mi") as [->|]; [|done].
  destruct (jwt_ParseInsecure credential) as [t|]; [|done]. rewrite Hdev. cbn [negb]. intros Hv.
  apply rbind_ok in Hv as ([] & _ & Hv). apply rbind_ok in Hv as ([] & Hsub & Hv). apply rbind_ok in Hv as (tenant & Hten & Hv).
  assert (Hte := extractTenantID_nonempty _ _ Hten). rewrite (proj2 (String.eqb_neq tenant "")) in Hv by done.
  rewrite andb_false_r in Hv. apply rbind_ok in Hv as (u & Hver & Hv).
  destruct (trustDomains p !! tenant) as [td|] eqn:Htd; [|done]. inv_ok. split; [done|].
  exists t, tenant, td. eexists. split_and!; [done|exact Hten|done| | | |reflexivity|reflexivity|done].
  - intros Hne. rewrite bool_decide_eq_true_2 in * by done. cbn in *. inv_ok. by eapply bool_decide_eq_true_1.
  - destruct (jwksResolver p); [by eapply resolve_vouched|by eapply fetch_vouched].
  - destruct (extractStringClaim t "oid" "" =? "")%string eqn:He; by apply String.eqb_neq.
Qed.
End Provider.
End IdAzure.
