(* ===== verification/IdApiKey.v ===== *)
(** The API key provider ([pkg/identity/apikey]). *)
From Stdlib Require Import ZArith Lia Ascii.
From stdpp Require Import base gmap strings list.
From S2P Require Import Prelude.
From S2P Require Import GoLib.
From S2P Require Import Core.
From S2P Require Import IdCommon.

#[local] Open Scope string_scope.
#[local] Open Scope list_scope.
#[local] Open Scope Z_scope.

Module IdApiKey.
Import Identity.

Record KeyIdentity : Type := {
  ki_WorkloadID : string; ki_TrustDomain : string; ki_Claims : gmap string string; ki_ExpiresAt : Time;
}.
Record Provider : Type := { keys : gmap string KeyIdentity; devMode : bool }.
(** The options and [NewProvider] *)
Definition WithKeys (ks : gmap string KeyIdentity) (p : Provider) : Provider := {| keys := ks; devMode := devMode p |}.
Definition WithDevMode (dev : bool) (p : Provider) : Provider := {| keys := keys p; devMode := dev |}.
Definition NewProvider (opts : list (Provider -> Provider)) : Provider :=
  foldl (fun p opt => opt p) {| keys := ∅; devMode := false |} opts.

Section Provider.
(** [hex.EncodeToString(sha256.Sum256(credential))] *)
Variable sha256Hex : string -> string.

(** [ValidateWorkload] at a time *)
Definition ValidateWorkload (p : Provider) (now stamp : Time) (credential ct : string) : result IdErr WorkloadIdentity :=
  if negb (ct =? "api-key")%string then Err (ErrUnsupportedType ct) else
  if (credential =? "")%string then Err (ErrMissing "API key") else
  let hashHex := sha256Hex credential in
  let prefix := str_take 8 hashHex in
  let claims := <["key_prefix" := VStr prefix]> (<["migration_path" := VStr "true"]> (∅ : gmap string value)) in
  if devMode p then Ok (workload (wimseURI "dev.local" "apikey" prefix) "dev.local" "api-key" stamp claims) else
  match keys p !! hashHex with
  | None => Err (ErrUnknown "API key" "")
  | Some entry =>
      let? _ := reject (negb (IsZero (ki_ExpiresAt entry)) && After now (ki_ExpiresAt entry)) (ErrExpired "API key") in
      Ok (workload (ki_WorkloadID entry) (ki_TrustDomain entry) "api-key" stamp ((VStr <$> ki_Claims entry) ∪ claims))
  end.

(** An API key is accepted outside dev mode exactly when its hash is registered and has not expired, and
    stands for the registered workload. *)
Theorem apikey_accepts_exactly p now stamp credential w :
  devMode p = false ->
  ValidateWorkload p now stamp credential "api-key" = Ok w <->
  credential <> "" /\ exists entry, keys p !! sha256Hex credential = Some entry /\
    (ki_ExpiresAt entry = 0 \/ now <= ki_ExpiresAt entry) /\
    w = workload (ki_WorkloadID entry) (ki_TrustDomain entry) "api-key" stamp
          ((VStr <$> ki_Claims entry) ∪
           <["key_prefix" := VStr (str_take 8 (sha256Hex credential))]> {["migration_path" := VStr "true"]}).
Proof.
  intros Hdev. unfold ValidateWorkload. cbn [negb String.eqb Ascii.eqb Bool.eqb]. rewrite Hdev.
  destruct (String.eqb_spec credential "") as [->|Hne]; [naive_solver|]. cbn zeta.
  destruct (keys p !! sha256Hex credential) as [entry|]; [|naive_solver]. unfold IsZero, After. split.
  - intros Hv. inv_ok. split; [done|]. exists entry. split_and!; [done| |done].
    match goal with H : _ && _ = false |- _ => apply andb_false_iff in H as [H|H] end.
    + inv_ok. left. by apply Z.eqb_eq.
    + right. by apply Z.ltb_ge.
  - intros [_ (e & [= <-] & Hexp & ->)].
    assert (Hg : negb (ki_ExpiresAt entry =? 0) && (ki_ExpiresAt entry <? now) = false).
    { apply andb_false_iff. destruct Hexp as [Hz|Hle]; [left; by rewrite Hz|right; by apply Z.ltb_ge]. }
    by rewrite Hg.
Qed.
End Provider.

Lemma apikey_accepts_exactly_witness :
  let e := {| ki_WorkloadID := "wimse://td/legacy"; ki_TrustDomain := "td"; ki_Claims := ∅; ki_ExpiresAt := 10 |} in
  exists w, ValidateWorkload (fun s => "hash:" +:+ s) (NewProvider [WithKeys {["hash:secret" := e]}]) 10 11 "secret" "api-key" = Ok w
    /\ wi_ID w = "wimse://td/legacy".
Proof.
  eexists. split.
  - apply (apikey_accepts_exactly (fun s => "hash:" +:+ s) _ 10 11 "secret"); [reflexivity|].
    split; [done|]. eexists. split; [reflexivity|]. split; [right; cbn; lia|reflexivity].
  - reflexivity.
Defined.
End IdApiKey.
