(* ===== verification/IdMtls.v ===== *)
(** The mutual TLS provider ([pkg/identity/mtls]): a client certificate verified by the CA pool of a trust
    domain. *)
From Stdlib Require Import ZArith Lia Ascii.
From stdpp Require Import base gmap strings list.
From S2P Require Import Prelude.
From S2P Require Import GoLib.
From S2P Require Import Core.
From S2P Require Import IdCommon.

#[local] Open Scope string_scope.
#[local] Open Scope list_scope.
#[local] Open Scope Z_scope.

Module IdMtls.
Import Identity.

(** What the provider reads of an [x509.Certificate]; a URI is given by its scheme, path and text, the serial
    number and the end of validity by their texts. *)
Record URI : Type := { u_Scheme : string; u_Host : string; u_Path : string; u_String : string }.
Record Certificate : Type := {
  URIs : list URI; DNSNames : list string; EmailAddresses : list string;
  subjectCN : string; issuerCN : string; serial : string; notAfter : string;
}.

(** [extractIdentity]: the identifier with a placeholder for the trust domain *)
Definition extractIdentity (cert : Certificate) : result IdErr string :=
  match List.find (fun u => (u_Scheme u =? "spiffe")%string) (URIs cert) with
  | Some u => Ok ("wimse://{td}/mtls/spiffe/" +:+ TrimPrefix (u_Path u) "/")
  | None =>
      match DNSNames cert with
      | d :: _ => Ok ("wimse://{td}/mtls/dns/" +:+ d)
      | [] => if (subjectCN cert =? "")%string then Err (ErrMissing "subject")
              else Ok ("wimse://{td}/mtls/cn/" +:+ subjectCN cert)
      end
  end.

(** [replaceIDTrustDomain] *)
Definition replaceIDTrustDomain (idURI td : string) : string := Replace1 idURI "{td}" td.

(** [buildClaims] *)
Definition set_strings (k : string) (l : list string) (claims : gmap string value) : gmap string value :=
  match l with [] => claims | _ => <[k := VArr (VStr <$> l)]> claims end.
Definition buildClaims (cert : Certificate) : gmap string value :=
  set_strings "sans_email" (EmailAddresses cert)
    (set_strings "sans_uri" (u_String <$> URIs cert)
    (set_strings "sans_dns" (DNSNames cert)
    (<["subject_cn" := VStr (subjectCN cert)]> (<["issuer_cn" := VStr (issuerCN cert)]>
    (<["serial" := VStr (serial cert)]> (<["not_after" := VStr (notAfter cert)]> ∅)))))).

Section Provider.
(** [x509.CertPool] and [cert.Verify] with its roots at a time; decoding of base64, PEM and X.509. *)
Context {CertPool : Type}.
Variable verify : CertPool -> Time -> Certificate -> bool.
Variable base64_Decode : string -> option string.
Variable pem_Decode : string -> option string.
Variable ParseCertificate : string -> option Certificate.

Record Provider : Type := {
  trustDomains : gmap string TrustDomain;
  rootCAs : gmap string CertPool;
  devMode : bool;
}.
(** The options and [NewProvider] *)
Definition WithTrustDomains (domains : list TrustDomain) (p : Provider) : Provider :=
  {| trustDomains := domainsBy ct_Name (fun _ => true) domains (trustDomains p); rootCAs := rootCAs p; devMode := devMode p |}.
Definition WithRootCAs (td : string) (pool : CertPool) (p : Provider) : Provider :=
  {| trustDomains := trustDomains p; rootCAs := <[td := pool]> (rootCAs p); devMode := devMode p |}.
Definition WithDevMode (dev : bool) (p : Provider) : Provider :=
  {| trustDomains := trustDomains p; rootCAs := rootCAs p; devMode := dev |}.
Definition NewProvider (opts : list (Provider -> Provider)) : Provider :=
  foldl (fun p opt => opt p) {| trustDomains := ∅; rootCAs := ∅; devMode := false |} opts.

(** The loop over the CA pools, in the order the map is visited. *)
Definition verifiedBy `{!RangeOrder} (p : Provider) (now : Time) (cert : Certificate) : option string :=
  fst <$> List.find (fun tp => verify tp.2 now cert) (range (rootCAs p)).

(** [ValidateWorkload] *)
Definition ValidateWorkload `{!RangeOrder} (p : Provider) (now stamp : Time) (credential ct : string)
    : result IdErr WorkloadIdentity :=
  if negb (ct =? "mtls")%string then Err (ErrUnsupportedType ct) else
  match base64_Decode credential with
  | None => Err (ErrMalformed "base64 credential")
  | Some derPEM =>
  match pem_Decode derPEM with
  | None => Err (ErrMalformed "PEM")
  | Some block =>
  match ParseCertificate block with
  | None => Err (ErrMalformed "X.509 certificate")
  | Some cert =>
      let? idURI := extractIdentity cert in
      let claims := buildClaims cert in
      if devMode p then
        Ok (workload (replaceIDTrustDomain idURI "dev.local") "dev.local" "mtls" stamp (<["dev_mode" := VBool true]> claims))
      else match verifiedBy p now cert with
           | None => Err ErrUntrusted
           | Some td => Ok (workload (replaceIDTrustDomain idURI td) td "mtls" stamp claims)
           end
  end end end.

Lemma replace_td td rest : replaceIDTrustDomain ("wimse://{td}/mtls/" +:+ rest) td = wimseURI td "mtls" rest.
Proof. reflexivity. Qed.
Lemma extractIdentity_shape cert idURI :
  extractIdentity cert = Ok idURI -> exists name, idURI = "wimse://{td}/mtls/" +:+ name.
Proof.
  unfold extractIdentity. destruct (List.find _ _) as [u|]; [intros [= <-]; by eexists (_ +:+ _)|].
  destruct (DNSNames cert) as [|d ds]; [|intros [= <-]; by exists ("dns/" +:+ d)].
  destruct (_ =? _)%string; [done|]. intros [= <-]. by exists ("cn/" +:+ subjectCN cert).
Qed.

(** What an accepted certificate means outside dev mode: the CA pool of the trust domain it is given
    verifies it, and the identifier carries that trust domain whatever the certificate's own names contain. *)
Lemma mtls_validate_ok `{!RangeOrder} p now stamp credential ct w :
  devMode p = false -> ValidateWorkload p now stamp credential ct = Ok w ->
  ct = "mtls" /\
  exists derPEM block cert td pool name, base64_Decode credential = Some derPEM /\ pem_Decode derPEM = Some block /\
    ParseCertificate block = Some cert /\ extractIdentity cert = Ok ("wimse://{td}/mtls/" +:+ name) /\
    rootCAs p !! td = Some pool /\ verify pool now cert = true /\
    wi_ID w = wimseURI td "mtls" name /\ wi_TrustDomain w = td.
Proof.
  intros Hdev. unfold ValidateWorkload. destruct (String.eqb_spec ct "mtls") as [->|]; [|done].
  destruct (base64_Decode credential) as [der|] eqn:Hb; [|done]. destruct (pem_Decode der) as [block|] eqn:Hp; [|done].
  destruct (ParseCertificate block) as [cert|] eqn:Hc; [|done]. rewrite Hdev. cbn [negb]. intros Hv. inv_ok.
  match goal with H : extractIdentity cert = Ok _ |- _ => rename H into Hid end.
  destruct (extractIdentity_shape _ _ Hid) as [name ->].
  destruct (verifiedBy p now cert) as [td|] eqn:Hver; [|done]. inv_ok.
  split; [done|]. unfold verifiedBy in Hver. destruct (List.find _ _) as [[td' pool]|] eqn:Hf; [|done].
  injection Hver as ->. apply find_some in Hf as [Hin Hok]. apply list_elem_of_In, elem_of_range in Hin.
  exists der, block, cert, td, pool, name. by split_and!.
Qed.

(** Without CA pools no certificate is accepted outside dev mode. *)
Lemma no_roots_refuse `{!RangeOrder} p now stamp credential ct :
  devMode p = false -> rootCAs p = ∅ -> is_ok (ValidateWorkload p now stamp credential ct) = false.
Proof.
  intros Hdev Hca. destruct (ValidateWorkload p now stamp credential ct) as [w|] eqn:Hv; [|done].
  destruct (mtls_validate_ok p now stamp credential ct w Hdev Hv) as (_ & ? & ? & ? & td & pool & ? & ? & ? & ? & ? & Hr & _).
  by rewrite Hca, lookup_empty in Hr.
Qed.
End Provider.
End IdMtls.
