(* ===== verification/IdSaml.v ===== *)
(** The SAML 2.0 provider ([pkg/identity/saml]). *)
From Stdlib Require Import ZArith Lia Ascii.
From stdpp Require Import base gmap strings list.
From S2P Require Import Prelude.
From S2P Require Import GoLib.
From S2P Require Import Core.
From S2P Require Import IdCommon.

#[local] Open Scope string_scope.
#[local] Open Scope list_scope.
#[local] Open Scope Z_scope.

Module IdSaml.
Import Identity.

(** The parsed assertion *)
Record Conditions : Type := { NotBefore : string; NotOnOrAfter : string; AudienceRestriction : option (list string) }.
Record Attribute : Type := { at_Name : string; at_Values : list string }.
Record Assertion : Type := {
  as_Issuer : string; as_NameID : string; as_Conditions : Conditions; AttributeStatement : option (list Attribute);
}.

(** [samlAttrMap] and [samlAttrKey] *)
Definition samlAttrMap : list (string * string) := [
  ("http://schemas.xmlsoap.org/ws/2005/05/identity/claims/emailaddress", "email");
  ("http://schemas.xmlsoap.org/ws/2005/05/identity/claims/givenname", "given_name");
  ("http://schemas.xmlsoap.org/ws/2005/05/identity/claims/surname", "surname");
  ("http://schemas.xmlsoap.org/claims/emailaddress", "email");
  ("http://schemas.xmlsoap.org/claims/Group", "groups");
  ("http://schemas.xmlsoap.org/claims/group", "groups");
  ("http://schemas.xmlsoap.org/claims/role", "roles");
  ("http://schemas.xmlsoap.org/claims/department", "department");
  ("http://schemas.microsoft.com/ws/2008/06/identity/claims/role", "roles");
  ("http://schemas.microsoft.com/ws/2008/06/identity/claims/groups", "groups");
  ("urn:oid:0.9.2342.19200300.100.1.3", "email");
  ("urn:oid:2.5.4.42", "given_name");
  ("urn:oid:2.5.4.4", "surname");
  ("urn:oid:1.3.6.1.4.1.5923.1.1.1.7", "roles");
  ("urn:oid:1.3.6.1.4.1.5923.1.5.1.1", "groups")].
Definition samlAttrKey (name : string) : string :=
  match List.find (fun kv => (kv.1 =? name)%string) samlAttrMap with Some kv => kv.2 | None => "" end.

Section Provider.
Context {Cert : Type}.
(** [base64.StdEncoding.DecodeString], [xml.Unmarshal], the XML signature check of a document under a
    certificate, and [time.Parse(time.RFC3339, s)] *)
Variable base64_Decode : string -> option string.
Variable xml_Unmarshal : string -> option Assertion.
Variable dsig_Validate : Cert -> string -> bool.
Variable time_Parse : string -> option Time.

Record Provider : Type := {
  trustDomains : gmap string TrustDomain;
  idpCertificates : gmap string Cert;
  expectedAudiences : list string;
  clockSkew : Duration;
  devMode : bool;
}.
(** The options and [NewProvider] *)
Definition WithTrustDomains (domains : list TrustDomain) (p : Provider) : Provider :=
  {| trustDomains := domainsBy ct_Name (fun _ => true) domains (trustDomains p); idpCertificates := idpCertificates p;
     expectedAudiences := expectedAudiences p; clockSkew := clockSkew p; devMode := devMode p |}.
Definition WithIDPCertificates (certs : gmap string Cert) (p : Provider) : Provider :=
  {| trustDomains := trustDomains p; idpCertificates := certs;
     expectedAudiences := expectedAudiences p; clockSkew := clockSkew p; devMode := devMode p |}.
Definition WithExpectedAudiences (auds : list string) (p : Provider) : Provider :=
  {| trustDomains := trustDomains p; idpCertificates := idpCertificates p;
     expectedAudiences := auds; clockSkew := clockSkew p; devMode := devMode p |}.
Definition WithClockSkew (d : Duration) (p : Provider) : Provider :=
  {| trustDomains := trustDomains p; idpCertificates := idpCertificates p;
     expectedAudiences := expectedAudiences p; clockSkew := d; devMode := devMode p |}.
Definition WithDevMode (dev : bool) (p : Provider) : Provider :=
  {| trustDomains := trustDomains p; idpCertificates := idpCertificates p;
     expectedAudiences := expectedAudiences p; clockSkew := clockSkew p; devMode := dev |}.
Definition NewProvider (opts : list (Provider -> Provider)) : Provider :=
  foldl (fun p opt => opt p)
    {| trustDomains := ∅; idpCertificates := ∅; expectedAudiences := []; clockSkew := 0; devMode := false |} opts.

(** [validateSignature] *)
Definition validateSignature (p : Provider) (raw issuer : string) : result IdErr unit :=
  match idpCertificates p !! issuer with
  | None => Err (ErrNoKeys issuer)
  | Some cert => reject (negb (dsig_Validate cert raw)) ErrSignature
  end.

(** [validateConditions] *)
Definition checkNotBefore (p : Provider) (now : Time) (c : Conditions) : result IdErr unit :=
  if (NotBefore c =? "")%string then Ok tt else
  match time_Parse (NotBefore c) with
  | None => Err (ErrMalformed "NotBefore")
  | Some nb => reject (Before now (nb - clockSkew p)) ErrNotYetValid
  end.
Definition checkNotOnOrAfter (p : Provider) (now : Time) (c : Conditions) : result IdErr unit :=
  if (NotOnOrAfter c =? "")%string then Ok tt else
  match time_Parse (NotOnOrAfter c) with
  | None => Err (ErrMalformed "NotOnOrAfter")
  | Some noa => reject (After now (noa + clockSkew p) || (now =? noa + clockSkew p)) (ErrExpired "assertion")
  end.
Definition checkAudience (p : Provider) (c : Conditions) : result IdErr unit :=
  match expectedAudiences p, AudienceRestriction c with
  | (_ :: _) as expected, Some auds => reject (negb (existsb (fun a => str_mem a expected) auds)) ErrAudience
  | _, _ => Ok tt
  end.
Definition validateConditions (p : Provider) (now : Time) (c : Conditions) : result IdErr unit :=
  let? _ := checkNotBefore p now c in
  let? _ := checkNotOnOrAfter p now c in
  checkAudience p c.

(** [findTrustDomain]: the first domain with the issuer, in the order the map is visited *)
Definition findTrustDomain `{!RangeOrder} (p : Provider) (issuer : string) : option string :=
  fst <$> List.find (fun nt => (ct_Issuer nt.2 =? issuer)%string) (range (trustDomains p)).

(** [buildIdentity] *)
Definition attributeClaim (claims : gmap string value) (a : Attribute) : gmap string value :=
  let key := samlAttrKey (at_Name a) in
  if (key =? "")%string then claims else
  match at_Values a with
  | [] => claims
  | [v] => <[key := VStr v]> claims
  | vs => <[key := VArr (VStr <$> vs)]> claims
  end.
Definition buildIdentity (p : Provider) (stamp : Time) (trustDomain nameID : string) (a : Assertion) : WorkloadIdentity :=
  let base := <["issuer" := VStr (as_Issuer a)]> (<["name_id" := VStr nameID]> (∅ : gmap string value)) in
  let claims := if devMode p then <["dev_mode" := VBool true]> base else base in
  workload (wimseURI trustDomain "saml" nameID) trustDomain "saml" stamp
    (foldl attributeClaim claims (match AttributeStatement a with Some l => l | None => [] end)).

(** [ValidateWorkload] *)
Definition ValidateWorkload `{!RangeOrder} (p : Provider) (now stamp : Time) (credential ct : string)
    : result IdErr WorkloadIdentity :=
  if negb (ct =? "saml")%string then Err (ErrUnsupportedType ct) else
  match base64_Decode credential with
  | None => Err (ErrMalformed "base64 credential")
  | Some raw =>
  match xml_Unmarshal raw with
  | None => Err (ErrMalformed "SAML assertion XML")
  | Some a =>
      let? _ := reject (as_Issuer a =? "")%string (ErrMissing "Issuer") in
      let nameID := TrimSpace (as_NameID a) in
      let? _ := reject (nameID =? "")%string (ErrMissing "NameID") in
      if devMode p then Ok (buildIdentity p stamp "dev.local" nameID a) else
      let? _ := validateSignature p raw (as_Issuer a) in
      let? _ := validateConditions p now (as_Conditions a) in
      match findTrustDomain p (as_Issuer a) with
      | None => Err (ErrUnknown "issuer" (as_Issuer a))
      | Some domain => Ok (buildIdentity p stamp domain nameID a)
      end
  end end.

(** The conditions that hold of an accepted assertion. *)
Record conditions_hold (p : Provider) (now : Time) (c : Conditions) : Prop := {
  cond_not_before : NotBefore c <> "" -> exists nb, time_Parse (NotBefore c) = Some nb /\ nb - clockSkew p <= now;
  cond_not_after : NotOnOrAfter c <> "" -> exists noa, time_Parse (NotOnOrAfter c) = Some noa /\ now < noa + clockSkew p;
  cond_audience : forall auds, expectedAudiences p <> [] -> AudienceRestriction c = Some auds ->
    exists a, a ∈ auds /\ a ∈ expectedAudiences p;
}.
Lemma validateConditions_iff p now c : validateConditions p now c = Ok tt <-> conditions_hold p now c.
Proof.
  unfold validateConditions, checkNotBefore, checkNotOnOrAfter, checkAudience, Before, After. split.
  - intros Hv. apply rbind_ok in Hv as ([] & H1 & Hv). apply rbind_ok in Hv as ([] & H2 & H3). split.
    + intros Hne%String.eqb_neq. rewrite Hne in H1. destruct (time_Parse (NotBefore c)) as [nb|]; [|done]. inv_ok. exists nb. split; [done|].
      by apply Z.ltb_ge.
    + intros Hne%String.eqb_neq. rewrite Hne in H2. destruct (time_Parse (NotOnOrAfter c)) as [noa|]; [|done]. inv_ok. exists noa. split; [done|].
      apply orb_false_iff in H2 as [Ha%Z.ltb_ge Hb%Z.eqb_neq]. lia.
    + intros auds Hne Ha. rewrite Ha in H3. destruct (expectedAudiences p) as [|e es]; [done|]. inv_ok.
      apply existsb_exists in H3 as (a & Hin & Hm). exists a. split; [by apply list_elem_of_In|by apply str_mem_true].
  - intros [H1 H2 H3]. assert (E1 : (if (NotBefore c =? "")%string then Ok tt
      else match time_Parse (NotBefore c) with None => Err (ErrMalformed "NotBefore")
           | Some nb => reject (now <? nb - clockSkew p) ErrNotYetValid end) = Ok tt).
    { destruct (String.eqb_spec (NotBefore c) ""); [done|]. destruct H1 as (nb & -> & Hle); [done|].
      by rewrite (proj2 (Z.ltb_ge _ _)). }
    rewrite E1. cbn [rbind]. assert (E2 : (if (NotOnOrAfter c =? "")%string then Ok tt
      else match time_Parse (NotOnOrAfter c) with None => Err (ErrMalformed "NotOnOrAfter")
           | Some noa => reject ((noa + clockSkew p <? now) || (now =? noa + clockSkew p)) (ErrExpired "assertion") end) = Ok tt).
    { destruct (String.eqb_spec (NotOnOrAfter c) ""); [done|]. destruct H2 as (noa & -> & Hlt); [done|].
      rewrite (proj2 (Z.ltb_ge _ _)), (proj2 (Z.eqb_neq _ _)) by lia. done. }
    rewrite E2. cbn [rbind]. destruct (expectedAudiences p) as [|e es] eqn:He; [done|].
    destruct (AudienceRestriction c) as [auds|] eqn:Ha; [|done]. destruct (H3 auds) as (a & Hin & Hm); [done|done|].
    assert (Hx : existsb (fun a => str_mem a (e :: es)) auds = true); [|by rewrite Hx].
    apply existsb_exists. exists a. split; [by apply list_elem_of_In|by apply str_mem_true].
Qed.

(** What an accepted assertion means outside dev mode. *)
Lemma saml_validate_ok `{!RangeOrder} p now stamp credential ct w :
  devMode p = false -> ValidateWorkload p now stamp credential ct = Ok w ->
  ct = "saml" /\
  exists raw a cert td domain, base64_Decode credential = Some raw /\ xml_Unmarshal raw = Some a /\
    idpCertificates p !! as_Issuer a = Some cert /\ dsig_Validate cert raw = true /\
    conditions_hold p now (as_Conditions a) /\
    trustDomains p !! td = Some domain /\ ct_Issuer domain = as_Issuer a /\ TrimSpace (as_NameID a) <> "" /\
    wi_ID w = wimseURI td "saml" (TrimSpace (as_NameID a)) /\ wi_TrustDomain w = td.
Proof.
  intros Hdev. unfold ValidateWorkload. destruct (String.eqb_spec ct "saml") as [->|]; [|done].
  destruct (base64_Decode credential) as [raw|] eqn:Hb; [|done]. destruct (xml_Unmarshal raw) as [a|] eqn:Hx; [|done].
  rewrite Hdev. cbn [negb]. intros Hv. apply rbind_ok in Hv as ([] & Hiss & Hv). apply rbind_ok in Hv as ([] & Hname & Hv).
  apply rbind_ok in Hv as ([] & Hsig & Hv). apply rbind_ok in Hv as ([] & Hcond & Hv). inv_ok.
  unfold validateSignature in Hsig. destruct (idpCertificates p !! as_Issuer a) as [cert|] eqn:Hcert; [|done]. inv_ok.
  destruct (findTrustDomain p (as_Issuer a)) as [td|] eqn:Hf; [|done]. inv_ok. split; [done|].
  unfold findTrustDomain in Hf. destruct (List.find _ _) as [[td' domain]|] eqn:Hfind; [|done]. injection Hf as ->.
  apply find_some in Hfind as [Hin Heq]. apply list_elem_of_In, elem_of_range in Hin. apply String.eqb_eq in Heq.
  exists raw, a, cert, td, domain. split_and!; try done; [by apply validateConditions_iff|by apply String.eqb_neq].
Qed.

(** Without certificates of identity providers no assertion is accepted outside dev mode. *)
Lemma no_certificates_refuse `{!RangeOrder} p now stamp credential ct :
  devMode p = false -> idpCertificates p = ∅ -> is_ok (ValidateWorkload p now stamp credential ct) = false.
Proof.
  intros Hdev Hc. destruct (ValidateWorkload p now stamp credential ct) as [w|] eqn:Hv; [|done].
  destruct (saml_validate_ok p now stamp credential ct w Hdev Hv) as (_ & ? & ? & ? & ? & ? & ? & ? & Hr & _).
  by rewrite Hc, lookup_empty in Hr.
Qed.
End Provider.
End IdSaml.
