(* ===== verification/IdKerberos.v ===== *)
(** The Kerberos provider ([pkg/identity/kerberos]) with its replay cache. *)
From Stdlib Require Import ZArith Lia Ascii.
From stdpp Require Import base gmap strings list.
From S2P Require Import Prelude.
From S2P Require Import GoLib.
From S2P Require Import Core.
From S2P Require Import IdCommon.

#[local] Open Scope string_scope.
#[local] Open Scope list_scope.
#[local] Open Scope Z_scope.

Module IdKerberos.
Import Identity.
Section Provider.
(** The third-party Kerberos library: keytabs, tickets, the decoding of an AP-REQ into its ticket (with the
    realm in the clear) and the decryption of a ticket into its principal names and encryption type. *)
Context {Keytab Ticket : Type}.
Variable base64_Decode : string -> option string.
Variable Unmarshal : string -> option (string * Ticket).
Variable DecryptEncPart : Keytab -> Ticket -> option (list string * Z).
Variable sha256Hex : string -> string.
Variable keytab_Load : string -> result string Keytab.

(** [Provider]; the cache maps the hash of a request to its expiry. *)
Record Provider : Type := {
  trustDomains : gmap string TrustDomain;
  keytabPath : string;
  kt : option Keytab;
  devMode : bool;
  replayCache : gmap string Time;
  replayWindow : Duration;
}.
(** The options and [NewProvider] *)
Definition WithTrustDomains (domains : list TrustDomain) (p : Provider) : Provider :=
  {| trustDomains := domainsBy ct_Name (fun _ => true) domains (trustDomains p); keytabPath := keytabPath p; kt := kt p;
     devMode := devMode p; replayCache := replayCache p; replayWindow := replayWindow p |}.
Definition WithKeytabPath (path : string) (p : Provider) : Provider :=
  {| trustDomains := trustDomains p; keytabPath := path; kt := kt p;
     devMode := devMode p; replayCache := replayCache p; replayWindow := replayWindow p |}.
Definition WithDevMode (dev : bool) (p : Provider) : Provider :=
  {| trustDomains := trustDomains p; keytabPath := keytabPath p; kt := kt p;
     devMode := dev; replayCache := replayCache p; replayWindow := replayWindow p |}.
Definition WithReplayWindow (d : Duration) (p : Provider) : Provider :=
  {| trustDomains := trustDomains p; keytabPath := keytabPath p; kt := kt p;
     devMode := devMode p; replayCache := replayCache p; replayWindow := d |}.
Definition with_keytab (k : Keytab) (p : Provider) : Provider :=
  {| trustDomains := trustDomains p; keytabPath := keytabPath p; kt := Some k;
     devMode := devMode p; replayCache := replayCache p; replayWindow := replayWindow p |}.
Definition NewProvider (opts : list (Provider -> Provider)) : result string Provider :=
  let p := foldl (fun p opt => opt p)
    {| trustDomains := ∅; keytabPath := ""; kt := None; devMode := false; replayCache := ∅; replayWindow := 0 |} opts in
  if negb (devMode p) && negb (keytabPath p =? "")%string then
    let? k := keytab_Load (keytabPath p) in Ok (with_keytab k p)
  else Ok p.

(** [composePrincipal] *)
Definition composePrincipal (nameString : list string) (realm : string) : string := Join nameString "/" +:+ "@" +:+ realm.

(** [devModeValidate] *)
Definition devModeValidate (stamp : Time) (principal0 : string) : result IdErr WorkloadIdentity :=
  if (principal0 =? "")%string then Err (ErrMissing "principal") else
  let '(principal, realm) := match SplitN2 principal0 "@"%char with
                             | [a; b] => (a, b)
                             | _ => (principal0, "DEV.LOCAL")
                             end in
  Ok (workload (wimseURI "dev.local" "kerberos" principal) "dev.local" "kerberos" stamp
        (<["principal" := VStr principal]> (<["realm" := VStr realm]> (<["dev_mode" := VBool true]> ∅)))).

Definition remember (key : string) (exp : Time) (p : Provider) : Provider :=
  {| trustDomains := trustDomains p; keytabPath := keytabPath p; kt := kt p;
     devMode := devMode p; replayCache := <[key := exp]> (replayCache p); replayWindow := replayWindow p |}.

(** [prodValidate]; [now] is the time the cache entry is written. *)
Definition prodValidate (now stamp : Time) (raw : string) : M Provider IdErr WorkloadIdentity := fun p =>
  match kt p with
  | None => (p, Err (ErrNoKeys "keytab"))
  | Some k =>
  match Unmarshal raw with
  | None => (p, Err (ErrMalformed "AP-REQ"))
  | Some (realm, ticket) =>
  match DecryptEncPart k ticket with
  | None => (p, Err ErrSignature)
  | Some (cname, etype) =>
      let replayKey := sha256Hex raw in
      match replayCache p !! replayKey with
      | Some _ => (p, Err ErrReplay)
      | None =>
          let principal := composePrincipal cname realm in
          match trustDomains p !! ToLower realm with
          | None => (p, Err (ErrUnknown "realm" realm))
          | Some domain =>
              let window := if replayWindow p =? 0 then 5 * Minute else replayWindow p in
              (remember replayKey (now + window) p,
               Ok (workload (wimseURI (ct_Name domain) "kerberos" principal) (ct_Name domain) "kerberos" stamp
                     (<["principal" := VStr principal]> (<["realm" := VStr realm]> (<["etype" := VInt etype]> ∅)))))
          end
      end
  end end end.

(** [ValidateWorkload] *)
Definition ValidateWorkload (now stamp : Time) (credential ct : string) : M Provider IdErr WorkloadIdentity := fun p =>
  if negb (ct =? "kerberos")%string then (p, Err (ErrUnsupportedType ct)) else
  match base64_Decode credential with
  | None => (p, Err (ErrMalformed "base64 credential"))
  | Some raw => if devMode p then (p, devModeValidate stamp raw) else prodValidate now stamp raw p
  end.

(** [CleanupReplayCache] *)
Definition CleanupReplayCache (now : Time) (p : Provider) : Provider * nat :=
  let kept := purge (fun exp => After now exp) (replayCache p) in
  ({| trustDomains := trustDomains p; keytabPath := keytabPath p; kt := kt p;
      devMode := devMode p; replayCache := kept; replayWindow := replayWindow p |},
   (size (replayCache p) - size kept)%nat).

(** What an accepted ticket means outside dev mode, and what it leaves behind. *)
Lemma kerberos_validate_ok now stamp credential ct p p' w :
  devMode p = false -> ValidateWorkload now stamp credential ct p = (p', Ok w) ->
  ct = "kerberos" /\
  exists raw k realm ticket cname etype domain, base64_Decode credential = Some raw /\ kt p = Some k /\
    Unmarshal raw = Some (realm, ticket) /\ DecryptEncPart k ticket = Some (cname, etype) /\
    replayCache p !! sha256Hex raw = None /\ trustDomains p !! ToLower realm = Some domain /\
    wi_ID w = wimseURI (ct_Name domain) "kerberos" (composePrincipal cname realm) /\ wi_TrustDomain w = ct_Name domain /\
    p' = remember (sha256Hex raw) (now + (if replayWindow p =? 0 then 5 * Minute else replayWindow p)) p.
Proof.
  intros Hdev. unfold ValidateWorkload. destruct (String.eqb_spec ct "kerberos") as [->|]; [|done]. cbn [negb].
  destruct (base64_Decode credential) as [raw|] eqn:Hb; [|done]. rewrite Hdev. unfold prodValidate.
  destruct (kt p) as [k|] eqn:Hk; [|done]. destruct (Unmarshal raw) as [[realm ticket]|] eqn:Hu; [|done].
  destruct (DecryptEncPart k ticket) as [[cname etype]|] eqn:Hd; [|done].
  destruct (replayCache p !! sha256Hex raw) eqn:Hc; [done|].
  destruct (trustDomains p !! ToLower realm) as [domain|] eqn:Htd; [|done]. intros [= <- <-]. split; [done|].
  by exists raw, k, realm, ticket, cname, etype, domain.
Qed.

(** Requests and cleanups, each at a time *)
Inductive Op : Type :=
| Validate (now stamp : Time) (credential ct : string)
| Cleanup (now : Time).
Definition op_time (o : Op) : Time := match o with Validate now _ _ _ => now | Cleanup now => now end.
Definition run_op (p : Provider) (o : Op) : Provider :=
  match o with
  | Validate now stamp credential ct => (ValidateWorkload now stamp credential ct p).1
  | Cleanup now => (CleanupReplayCache now p).1
  end.
Definition run_ops (ops : list Op) (p : Provider) : Provider := foldl run_op p ops.

(** A validation leaves the provider alone or records a request the cache did not know. *)
Lemma ValidateWorkload_state now stamp credential ct p :
  (ValidateWorkload now stamp credential ct p).1 = p \/
  exists key exp, replayCache p !! key = None /\ (ValidateWorkload now stamp credential ct p).1 = remember key exp p.
Proof.
  unfold ValidateWorkload. destruct (negb _); [by left|]. destruct (base64_Decode credential) as [raw|]; [|by left].
  destruct (devMode p); [by left|]. unfold prodValidate. destruct (kt p) as [k|]; [|by left].
  destruct (Unmarshal raw) as [[realm ticket]|]; [|by left]. destruct (DecryptEncPart k ticket) as [[cname etype]|]; [|by left].
  destruct (replayCache p !! sha256Hex raw) eqn:Hc; [by left|]. destruct (trustDomains p !! ToLower realm); [|by left].
  right. eexists _, _. by split; [exact Hc|].
Qed.
Lemma run_op_devMode p o : devMode (run_op p o) = devMode p.
Proof.
  destruct o as [now stamp credential ct|now]; [|done]. unfold run_op.
  by destruct (ValidateWorkload_state now stamp credential ct p) as [->|(key & exp & _ & ->)].
Qed.
Lemma run_op_keeps p o key exp :
  replayCache p !! key = Some exp -> op_time o <= exp -> replayCache (run_op p o) !! key = Some exp.
Proof.
  intros Hk Ht. destruct o as [now stamp credential ct|now]; cbn [run_op op_time] in *.
  - destruct (ValidateWorkload_state now stamp credential ct p) as [->|(key' & exp' & Hnone & ->)]; [done|].
    cbn. rewrite lookup_insert_ne; [done|]. intros ->. congruence.
  - cbn. apply lookup_purge. split; [done|]. by apply Z.ltb_ge.
Qed.
Lemma krb_ops_keep ops : forall p key exp,
  replayCache p !! key = Some exp -> Forall (fun o => op_time o <= exp) ops -> replayCache (run_ops ops p) !! key = Some exp.
Proof.
  induction ops as [|o ops IH]; intros p key exp Hk Ht; [done|]. apply Forall_cons in Ht as [Ho Ht].
  cbn. apply IH; [|done]. by apply run_op_keeps.
Qed.
Lemma run_ops_devMode ops : forall p, devMode (run_ops ops p) = devMode p.
Proof. induction ops as [|o ops IH]; intros p; [done|]. cbn. fold (run_ops ops (run_op p o)). rewrite IH. apply run_op_devMode. Qed.

(** A request that was accepted is refused when it is sent again within the replay window, whatever is
    validated and cleaned up in between. *)
Theorem kerberos_replay_refused now stamp credential p p' w ops now2 stamp2 :
  devMode p = false -> ValidateWorkload now stamp credential "kerberos" p = (p', Ok w) ->
  let window := if replayWindow p =? 0 then 5 * Minute else replayWindow p in
  Forall (fun o => op_time o <= now + window) ops ->
  is_ok (ValidateWorkload now2 stamp2 credential "kerberos" (run_ops ops p')).2 = false.
Proof.
  intros Hdev Hv window Hops.
  destruct (kerberos_validate_ok _ _ _ _ _ _ _ Hdev Hv) as (_ & raw & k & realm & ticket & cname & etype & domain & Hb & Hk & Hu & Hd & Hc & Htd & _ & _ & ->).
  assert (Hin : replayCache (run_ops ops (remember (sha256Hex raw) (now + window) p)) !! sha256Hex raw = Some (now + window)).
  { apply krb_ops_keep; [|done]. apply lookup_insert_eq. }
  unfold ValidateWorkload. cbn [negb String.eqb Ascii.eqb Bool.eqb]. rewrite Hb, run_ops_devMode. cbn [devMode remember]. rewrite Hdev.
  unfold prodValidate. rewrite Hu. destruct (kt (run_ops _ _)) as [k0|]; [|done]. destruct (DecryptEncPart k0 ticket) as [[? ?]|]; [|done].
  unfold window in Hin. rewrite Hin; done.
Qed.

(** The authenticator of a request is never looked at: another request around the same ticket, which the
    cache does not know, is accepted as the same principal. *)
Theorem kerberos_ticket_reusable now stamp credential credential' raw raw' p p' w rt now2 stamp2 :
  devMode p = false -> ValidateWorkload now stamp credential "kerberos" p = (p', Ok w) ->
  base64_Decode credential = Some raw -> base64_Decode credential' = Some raw' ->
  Unmarshal raw = Some rt -> Unmarshal raw' = Some rt ->
  sha256Hex raw' <> sha256Hex raw -> replayCache p !! sha256Hex raw' = None ->
  exists w', (ValidateWorkload now2 stamp2 credential' "kerberos" p').2 = Ok w' /\ wi_ID w' = wi_ID w.
Proof.
  intros Hdev Hv Hb Hb' Hu Hu' Hne Hfresh.
  destruct (kerberos_validate_ok _ _ _ _ _ _ _ Hdev Hv) as (_ & raw1 & k & realm & ticket & cname & etype & domain & Hb1 & Hk & Hu1 & Hd & Hc & Htd & Hid & _ & ->).
  rewrite Hb in Hb1. injection Hb1 as <-. rewrite Hu in Hu1. injection Hu1 as ->.
  unfold ValidateWorkload. cbn [negb String.eqb Ascii.eqb Bool.eqb]. rewrite Hb'. cbn [devMode remember]. rewrite Hdev.
  unfold prodValidate. cbn [kt remember]. rewrite Hk, Hu', Hd. cbn [replayCache remember].
  rewrite lookup_insert_ne, Hfresh by done. cbn [trustDomains remember]. rewrite Htd. cbn [snd]. eexists. split; [reflexivity|].
  by rewrite Hid.
Qed.

(** Without a keytab no ticket is accepted outside dev mode. *)
Lemma no_keytab_refuse now stamp credential ct p :
  devMode p = false -> kt p = None -> is_ok (ValidateWorkload now stamp credential ct p).2 = false.
Proof.
  intros Hdev Hk. unfold ValidateWorkload. destruct (negb _); [done|]. destruct (base64_Decode credential); [|done].
  rewrite Hdev. unfold prodValidate. by rewrite Hk.
Qed.
End Provider.

(** * Examples: a request is its ticket's principal, a colon and an authenticator. *)
Definition demo_Unmarshal (raw : string) : option (string * string) :=
  match cut_at ":"%char raw with Some (t, _) => Some ("CORP.EXAMPLE", t) | None => None end.
Definition demo_domain : TrustDomain := {| ct_Name := "corp.example"; ct_Enabled := true; ct_JWKSURL := ""; ct_Issuer := "" |}.
Definition demo_provider : @Provider unit :=
  {| trustDomains := {[ "corp.example" := demo_domain ]}; keytabPath := "/etc/krb5.keytab"; kt := Some tt; devMode := false;
     replayCache := ∅; replayWindow := 0 |}.
Definition demo_validate (now : Time) (credential : string) :=
  ValidateWorkload (Keytab:=unit) (Ticket:=string) Some demo_Unmarshal (fun _ t => Some ([t], 18)) (fun s => s) now now credential "kerberos".

Definition demo_alice : WorkloadIdentity :=
  workload "wimse://corp.example/kerberos/alice@CORP.EXAMPLE" "corp.example" "kerberos" 10
    (<["principal" := VStr "alice@CORP.EXAMPLE"]> (<["realm" := VStr "CORP.EXAMPLE"]> (<["etype" := VInt 18]> ∅))).
Lemma kerberos_replay_refused_witness :
  (demo_validate 10 "alice:auth1" demo_provider).2 = Ok demo_alice /\
  is_ok (demo_validate 20 "alice:auth1" (run_ops (Keytab:=unit) (Ticket:=string) Some demo_Unmarshal (fun _ t => Some ([t], 18)) (fun s => s)
           [Cleanup 15] (demo_validate 10 "alice:auth1" demo_provider).1)).2 = false.
Proof.
  split; [reflexivity|].
  apply (kerberos_replay_refused (Keytab:=unit) (Ticket:=string) Some demo_Unmarshal (fun _ t => Some ([t], 18)) (fun s => s)
    10 10 "alice:auth1" demo_provider _ demo_alice [Cleanup 15] 20 20); [reflexivity|reflexivity|].
  repeat constructor. cbn. unfold Minute, Second. lia.
Defined.
Lemma kerberos_ticket_reusable_witness :
  exists w', (demo_validate 20 "alice:auth2" (demo_validate 10 "alice:auth1" demo_provider).1).2 = Ok w' /\
    wi_ID w' = "wimse://corp.example/kerberos/alice@CORP.EXAMPLE".
Proof.
  apply (kerberos_ticket_reusable (Keytab:=unit) (Ticket:=string) Some demo_Unmarshal (fun _ t => Some ([t], 18)) (fun s => s)
    10 10 "alice:auth1" "alice:auth2" "alice:auth1" "alice:auth2" demo_provider _
    demo_alice
    ("CORP.EXAMPLE", "alice") 20 20);
    reflexivity || discriminate.
Defined.
End IdKerberos.
