(* ===== verification/IdAws.v ===== *)
(** The AWS provider ([pkg/identity/aws]): a presigned GetCallerIdentity request is sent to STS again. *)
From Stdlib Require Import ZArith Lia Ascii.
From stdpp Require Import base gmap strings list.
From S2P Require Import Prelude.
From S2P Require Import GoLib.
From S2P Require Import Core.
From S2P Require Import IdCommon.

#[local] Open Scope string_scope.
#[local] Open Scope list_scope.
#[local] Open Scope Z_scope.

Module IdAws.
Import Identity.

Definition defaultSTSURL : string := "https://sts.amazonaws.com".
Definition maxRequestAge : Duration := 15 * Minute.

Record STSCredential : Type := {
  sts_URL : string; sts_Method : string; sts_Headers : gmap string string; sts_Body : string;
}.
Record getCallerIdentityResult : Type := { Account : string; Arn : string; UserId : string }.

(** [http.CanonicalHeaderKey]: a key of token bytes has its first letter and those after a hyphen in upper case *)
Definition ascii_upper (a : ascii) : ascii :=
  let n := nat_of_ascii a in if (97 <=? n)%nat && (n <=? 122)%nat then ascii_of_nat (n - 32) else a.
Definition is_token (a : ascii) : bool :=
  let n := nat_of_ascii a in
  ((48 <=? n)%nat && (n <=? 57)%nat) || ((65 <=? n)%nat && (n <=? 90)%nat) || ((94 <=? n)%nat && (n <=? 122)%nat) ||
  existsb (Nat.eqb n) [33; 35; 36; 37; 38; 39; 42; 43; 45; 46; 124; 126]%nat.
Fixpoint all_token (s : string) : bool :=
  match s with EmptyString => true | String a s' => is_token a && all_token s' end.
Fixpoint canonicalFrom (upper : bool) (s : string) : string :=
  match s with
  | EmptyString => EmptyString
  | String a s' => String (if upper then ascii_upper a else ascii_lower a) (canonicalFrom (Ascii.eqb a "-"%char) s')
  end.
Definition CanonicalHeaderKey (k : string) : string := if all_token k then canonicalFrom true k else k.

(** The request sent to STS *)
Record Request : Type := { rq_method : string; rq_url : string; rq_headers : gmap string string; rq_body : string }.

(** [extractRoleName] *)
Definition extractRoleName (arn : string) : string :=
  match SplitN 6 arn ":"%char with
  | [_; _; _; _; _; resource] =>
      match Split resource "/"%char with
      | _ :: name :: _ => name
      | _ => resource
      end
  | _ => arn
  end.

Section Provider.
(** [json.Unmarshal] of the credential, [time.Parse] of the AWS format, the HTTP client and [xml.Unmarshal]
    of the response *)
Variable json_Unmarshal : string -> option STSCredential.
Variable time_Parse : string -> option Time.
Variable Do : Request -> result string (Z * string).
Variable xml_Unmarshal : string -> option getCallerIdentityResult.

Record Provider : Type := {
  trustDomains : gmap string TrustDomain;
  allowedRoleARNs : gset string;
  stsEndpoint : string;
  devMode : bool;
}.
(** The options and [NewProvider] *)
Definition WithTrustDomains (domains : list TrustDomain) (p : Provider) : Provider :=
  {| trustDomains := domainsBy ct_Name (fun _ => true) domains (trustDomains p); allowedRoleARNs := allowedRoleARNs p;
     stsEndpoint := stsEndpoint p; devMode := devMode p |}.
Definition WithAllowedRoles (arns : list string) (p : Provider) : Provider :=
  {| trustDomains := trustDomains p; allowedRoleARNs := list_to_set arns ∪ allowedRoleARNs p;
     stsEndpoint := stsEndpoint p; devMode := devMode p |}.
Definition WithSTSEndpoint (url : string) (p : Provider) : Provider :=
  {| trustDomains := trustDomains p; allowedRoleARNs := allowedRoleARNs p; stsEndpoint := url; devMode := devMode p |}.
Definition WithDevMode (dev : bool) (p : Provider) : Provider :=
  {| trustDomains := trustDomains p; allowedRoleARNs := allowedRoleARNs p; stsEndpoint := stsEndpoint p; devMode := dev |}.
Definition NewProvider (opts : list (Provider -> Provider)) : Provider :=
  foldl (fun p opt => opt p) {| trustDomains := ∅; allowedRoleARNs := ∅; stsEndpoint := defaultSTSURL; devMode := false |} opts.

(** [isAllowedSTSURL] *)
Definition isAllowedSTSURL (p : Provider) (u : string) : bool :=
  Contains u "sts.amazonaws.com" || (negb (stsEndpoint p =? defaultSTSURL)%string && HasPrefix u (stsEndpoint p)).

(** [validateFreshness] *)
Definition validateFreshness (now : Time) (cred : STSCredential) : result IdErr unit :=
  let date := match sts_Headers cred !! "X-Amz-Date" with
              | Some d => Some d
              | None => sts_Headers cred !! "x-amz-date"
              end in
  match date with
  | None => Err (ErrMissing "X-Amz-Date")
  | Some d => match time_Parse d with
              | None => Err (ErrMalformed "X-Amz-Date")
              | Some t => reject (maxRequestAge <? Sub now t) (ErrExpired "request")
              end
  end.

(** [callSTS]: the headers are set one after the other, in the order the map is visited. *)
Definition stsRequest `{!RangeOrder} (p : Provider) (cred : STSCredential) : Request :=
  {| rq_method := sts_Method cred; rq_url := stsEndpoint p;
     rq_headers := foldl (fun h kv => <[CanonicalHeaderKey kv.1 := kv.2]> h) ∅ (range (sts_Headers cred));
     rq_body := sts_Body cred |}.
Definition callSTS `{!RangeOrder} (p : Provider) (cred : STSCredential) : result IdErr getCallerIdentityResult :=
  match Do (stsRequest p cred) with
  | Err e => Err (ErrRemote e)
  | Ok (code, body) =>
      if negb (code =? 200) then Err (ErrRemote body) else
      match xml_Unmarshal body with
      | None => Err (ErrMalformed "STS XML response")
      | Some r => Ok r
      end
  end.

(** [devIdentity] *)
Definition devIdentity (stamp : Time) (cred : STSCredential) : WorkloadIdentity :=
  let roleName := match sts_Headers cred !! "X-Starfly-Dev-Arn" with Some arn => extractRoleName arn | None => "unknown-role" end in
  workload (wimseURI "dev.local" "aws" roleName) "dev.local" "aws-sts" stamp {["dev_mode" := VBool true]}.

(** [ValidateWorkload] *)
Definition ValidateWorkload `{!RangeOrder} (p : Provider) (now stamp : Time) (credential ct : string)
    : result IdErr WorkloadIdentity :=
  if negb (ct =? "aws-sts")%string then Err (ErrUnsupportedType ct) else
  match json_Unmarshal credential with
  | None => Err (ErrMalformed "AWS STS credential")
  | Some cred =>
      let? _ := reject (negb (sts_Method cred =? "POST")%string) (ErrNotAllowed "method" (sts_Method cred)) in
      let? _ := reject (negb (isAllowedSTSURL p (sts_URL cred))) (ErrNotAllowed "STS URL" (sts_URL cred)) in
      if devMode p then Ok (devIdentity stamp cred) else
      let? _ := validateFreshness now cred in
      let? r := callSTS p cred in
      match trustDomains p !! Account r with
      | None => Err (ErrUnknown "account" (Account r))
      | Some domain =>
          let? _ := reject (bool_decide (allowedRoleARNs p <> ∅) && negb (bool_decide (Arn r ∈ allowedRoleARNs p)))
                      (ErrNotAllowed "role ARN" (Arn r)) in
          let roleName := extractRoleName (Arn r) in
          Ok (workload (wimseURI (ct_Name domain) "aws" roleName) (ct_Name domain) "aws-sts" stamp
                (<["account_id" := VStr (Account r)]> (<["arn" := VStr (Arn r)]>
                (<["role_name" := VStr roleName]> (<["user_id" := VStr (UserId r)]> ∅)))))
      end
  end.

(** What an accepted credential means outside dev mode: the configured STS endpoint, whatever URL the
    credential names, answered for an account of a trust domain and an allowed role. *)
Lemma aws_validate_ok `{!RangeOrder} p now stamp credential ct w :
  devMode p = false -> ValidateWorkload p now stamp credential ct = Ok w ->
  ct = "aws-sts" /\
  exists cred rq body r domain, json_Unmarshal credential = Some cred /\
    rq = stsRequest p cred /\ rq_method rq = "POST" /\
    Do rq = Ok (200, body) /\ xml_Unmarshal body = Some r /\
    trustDomains p !! Account r = Some domain /\ (allowedRoleARNs p <> ∅ -> Arn r ∈ allowedRoleARNs p) /\
    wi_ID w = wimseURI (ct_Name domain) "aws" (extractRoleName (Arn r)) /\ wi_TrustDomain w = ct_Name domain.
Proof.
  intros Hdev. unfold ValidateWorkload. destruct (String.eqb_spec ct "aws-sts") as [->|]; [|done]. cbn [negb].
  destruct (json_Unmarshal credential) as [cred|] eqn:Hj; [|done]. rewrite Hdev. intros Hv.
  apply rbind_ok in Hv as ([] & Hm & Hv). apply rbind_ok in Hv as ([] & _ & Hv). apply rbind_ok in Hv as ([] & _ & Hv).
  apply rbind_ok in Hv as (r & Hr & Hv). destruct (trustDomains p !! Account r) as [domain|] eqn:Htd; [|done]. inv_ok.
  split; [done|]. unfold callSTS in Hr. destruct (Do (stsRequest p cred)) as [[code body]|] eqn:Hdo; [|done].
  destruct (Z.eqb_spec code 200) as [->|]; [|done]. cbn [negb] in Hr. destruct (xml_Unmarshal body) as [r'|] eqn:Hx; [|done].
  injection Hr as ->. exists cred, (stsRequest p cred), body, r, domain. split_and!; try done.
  - by apply String.eqb_eq.
  - intros Hne. rewrite bool_decide_eq_true_2 in * by done. cbn in *. inv_ok. by eapply bool_decide_eq_true_1.
Qed.
End Provider.

(** The name of an assumed role is read from its ARN. *)
Lemma Split_app x y : no_slash x -> Split (x +:+ String "/" y) "/"%char = x :: Split y "/"%char.
Proof.
  unfold no_slash. induction x as [|a x IH]; intros Hn; [done|].
  change (String a x +:+ String "/" y) with (String a (x +:+ String "/" y)). cbn [Split cut_at] in *.
  destruct (Ascii.eqb a "/"); [done|]. destruct (cut_at "/" x) as [[? ?]|]; [done|]. by rewrite IH.
Qed.
Lemma extractRoleName_assumed name session :
  no_slash name -> extractRoleName ("arn:aws:sts::123456789012:assumed-role/" +:+ name +:+ String "/" session) = name.
Proof.
  intros Hn. transitivity (match Split (name +:+ String "/" session) "/"%char with n :: _ => n | [] => "" end); [|by rewrite Split_app].
  transitivity (match Split (name +:+ String "/" session) "/"%char with n :: _ => n | [] => "assumed-role/" +:+ name +:+ String "/" session end);
    [reflexivity|]. by rewrite Split_app.
Qed.

(** The parts of an ARN. *)
Lemma cut_at_here c a b : cut_at c a = None -> cut_at c (a +:+ String c b) = Some (a, b).
Proof.
  induction a as [|x a IH]; [intros _; cbn [cut_at]; change ("" +:+ String c b) with (String c b); cbn [cut_at]; by rewrite Ascii.eqb_refl|].
  change (String x a +:+ String c b) with (String x (a +:+ String c b)). cbn [cut_at].
  destruct (Ascii.eqb x c); [done|]. destruct (cut_at c a) as [[? ?]|]; [done|]. intros _. by rewrite IH.
Qed.
Lemma Split_none x : no_slash x -> Split x "/"%char = [x].
Proof.
  unfold no_slash. induction x as [|a x IH]; [done|]. cbn. destruct (Ascii.eqb a "/"); [done|].
  destruct (cut_at "/" x) as [[? ?]|]; [done|]. intros _. by rewrite IH.
Qed.

(** The name in an ARN of the documented form, [a:b:c:d:e:kind/name] with or without a session behind it. *)
Definition arn_names (arn name : string) : Prop :=
  forall a b c d e kind n tail,
    Forall (fun p => cut_at ":" p = None) [a; b; c; d; e] -> no_slash kind -> no_slash n ->
    (tail = "" \/ exists session, tail = String "/" session) ->
    arn = a +:+ String ":" (b +:+ String ":" (c +:+ String ":" (d +:+ String ":" (e +:+ String ":" (kind +:+ String "/" (n +:+ tail)))))) ->
    name = n.

Lemma extractRoleName_names arn : arn_names arn (extractRoleName arn).
Proof.
  intros a b c d e kind n tail Hc Hk Hn Ht ->.
  apply Forall_cons in Hc as [Ha Hc]. apply Forall_cons in Hc as [Hb Hc]. apply Forall_cons in Hc as [Hcc Hc].
  apply Forall_cons in Hc as [Hd Hc]. apply Forall_cons in Hc as [He _].
  unfold extractRoleName. cbn [SplitN]. do 5 (rewrite cut_at_here by done). rewrite Split_app by done.
  destruct Ht as [->|[session ->]]; [rewrite str_app_nil_r, Split_none by done; done|by rewrite Split_app].
Qed.

(** Users and roles with a path lose their name: every user under one path is the same workload. *)
Theorem aws_path_collapses a b :
  extractRoleName ("arn:aws:iam::123456789012:user/division/" +:+ a) = "division" /\
  extractRoleName ("arn:aws:iam::123456789012:user/division/" +:+ a) = extractRoleName ("arn:aws:iam::123456789012:user/division/" +:+ b).
Proof. by unfold extractRoleName. Qed.
End IdAws.
