(* ===== verification/Registry.v ===== *)
(** The credential registry ([pkg/identity/registry.go]), the registry a unit builds when it starts
    ([cmd/starfly/main.go]), and what an identity it returns proves. *)
From Stdlib Require Import ZArith Lia Ascii.
From stdpp Require Import base gmap strings list.
From S2P Require Import Prelude.
From S2P Require Import GoLib.
From S2P Require Import JwtModel.
From S2P Require Import Core.
From S2P Require Import DPoP.
From S2P Require Import IdCommon.
From S2P Require Import IdK8s.
From S2P Require Import IdOidc.
From S2P Require Import IdOAuth2.
From S2P Require Import IdSpiffe.
From S2P Require Import IdGcp.
From S2P Require Import IdAzure.
From S2P Require Import IdApiKey.
From S2P Require Import IdMtls.
From S2P Require Import IdSaml.
From S2P Require Import IdKerberos.
From S2P Require Import IdAws.

#[local] Open Scope string_scope.
#[local] Open Scope list_scope.
#[local] Open Scope Z_scope.

Module Registry.
Import Identity.

(** * The registry *)

Record Registry : Type := { providers : gmap string Provider }.
Definition NewRegistry : Registry := {| providers := ∅ |}.
Definition Register (credType : string) (p : Provider) (r : Registry) : Registry :=
  {| providers := <[credType := p]> (providers r) |}.
Definition Unregister (credType : string) (r : Registry) : Registry * bool :=
  ({| providers := delete credType (providers r) |}, bool_decide (is_Some (providers r !! credType))).
Definition ListTypes (r : Registry) : list string := sort_Strings ((map_to_list (providers r)).*1).
Definition Len (r : Registry) : nat := size (providers r).
Definition supportedTypes (r : Registry) : string := Join (ListTypes r) ", ".
Definition ValidateWorkload (r : Registry) : Provider := fun credential credType =>
  match providers r !! credType with
  | None => Err (ErrNoProvider credType (supportedTypes r))
  | Some p => p credential credType
  end.

(** Dispatch depends on the last registration of the type alone. *)
Lemma validate_registered r ct p credential : ValidateWorkload (Register ct p r) credential ct = p credential ct.
Proof. unfold ValidateWorkload. cbn. by rewrite lookup_insert_eq. Qed.
Lemma validate_other r ct ct' p credential :
  ct <> ct' -> providers r !! ct' = None ->
  ValidateWorkload (Register ct p r) credential ct' = Err (ErrNoProvider ct' (supportedTypes (Register ct p r))).
Proof. intros Hne Hn. unfold ValidateWorkload. cbn [providers Register]. rewrite lookup_insert_ne by done. unfold Provider in *. by rewrite Hn. Qed.
Lemma validate_unregistered r ct credential : is_ok (ValidateWorkload (Unregister ct r).1 credential ct) = false.
Proof. unfold ValidateWorkload. cbn. by rewrite lookup_delete_eq. Qed.

(** * The registry of a unit *)

Section Boot.
Context `{!JwtLib, !JwsLib, !KeyLib, !RangeOrder}.

(** What the providers read: the clock, the shared JWKS cache, the network, and the decoders of the
    credential formats. *)
Record World : Type := {
  env : Env;
  resolver : Resolver;
  k8sKeys : string -> result string (list jwk_key);
  k8sRegister : string -> bool;
  url_Parse : string -> option (string * string * string);
  sha256Hex : string -> string;
  base64_Decode : string -> option string;
  pem_Decode : string -> option string;
  ParseCertificate : string -> option IdMtls.Certificate;
  CertPool : Type;
  cert_Verify : CertPool -> Time -> IdMtls.Certificate -> bool;
  SamlCert : Type;
  saml_Unmarshal : string -> option IdSaml.Assertion;
  dsig_Validate : SamlCert -> string -> bool;
  rfc3339 : string -> option Time;
  Keytab : Type;
  Ticket : Type;
  krb_Unmarshal : string -> option (string * Ticket);
  krb_Decrypt : Keytab -> Ticket -> option (list string * Z);
  sts_Unmarshal : string -> option IdAws.STSCredential;
  awsTime : string -> option Time;
  http_Do : IdAws.Request -> result string (Z * string);
  sts_Result : string -> option IdAws.getCallerIdentityResult;
  http : IdOAuth2.Http;
}.

Section Providers.
Variables (w : World) (domains : list TrustDomain) (dev : bool).
Let now := env_now (env w).
Let stamp := env_stamp (env w).

(** The eleven providers with the options they are built with *)
Definition k8sProvider : Provider := IdK8s.ValidateWorkload (IdK8s.New (k8sKeys w) (k8sRegister w) domains dev) now stamp.
Definition spiffeProvider : Provider :=
  IdSpiffe.ValidateWorkload (url_Parse w)
    (IdSpiffe.NewProvider [IdSpiffe.WithTrustDomains domains; IdSpiffe.WithJWKSResolver (resolver w); IdSpiffe.WithDevMode dev]) (env w).
Definition oidcProvider : Provider :=
  IdOidc.ValidateWorkload
    (IdOidc.NewProvider [IdOidc.WithTrustDomains domains; IdOidc.WithJWKSResolver (resolver w); IdOidc.WithDevMode dev]) (env w).
Definition kerberosState : @IdKerberos.Provider (Keytab w) :=
  IdKerberos.WithDevMode dev (IdKerberos.WithTrustDomains domains
    {| IdKerberos.trustDomains := ∅; IdKerberos.keytabPath := ""; IdKerberos.kt := None; IdKerberos.devMode := false;
       IdKerberos.replayCache := ∅; IdKerberos.replayWindow := 0 |}).
Definition kerberosProvider : Provider := fun credential ct =>
  (IdKerberos.ValidateWorkload (base64_Decode w) (krb_Unmarshal w) (krb_Decrypt w) (sha256Hex w) now stamp credential ct kerberosState).2.
Definition samlProvider : Provider :=
  IdSaml.ValidateWorkload (Cert:=SamlCert w) (base64_Decode w) (saml_Unmarshal w) (dsig_Validate w) (rfc3339 w)
    (IdSaml.NewProvider [IdSaml.WithTrustDomains domains; IdSaml.WithDevMode dev]) now stamp.
Definition mtlsProvider : Provider :=
  IdMtls.ValidateWorkload (cert_Verify w) (base64_Decode w) (pem_Decode w) (ParseCertificate w)
    (IdMtls.NewProvider [IdMtls.WithTrustDomains domains; IdMtls.WithDevMode dev]) now stamp.
Definition awsProvider : Provider :=
  IdAws.ValidateWorkload (sts_Unmarshal w) (awsTime w) (http_Do w) (sts_Result w)
    (IdAws.NewProvider [IdAws.WithTrustDomains domains; IdAws.WithDevMode dev]) now stamp.
Definition gcpProvider : Provider :=
  IdGcp.ValidateWorkload
    (IdGcp.NewProvider [IdGcp.WithTrustDomains domains; IdGcp.WithJWKSResolver (resolver w); IdGcp.WithDevMode dev]) (env w).
Definition azureProvider : Provider :=
  IdAzure.ValidateWorkload
    (IdAzure.NewProvider [IdAzure.WithTrustDomains domains; IdAzure.WithJWKSResolver (resolver w); IdAzure.WithDevMode dev]) (env w).
Definition oauth2Provider : Provider :=
  IdOAuth2.ValidateWorkload
    (IdOAuth2.NewProvider (http w) [IdOAuth2.WithTrustDomains domains; IdOAuth2.WithJWKSResolver (resolver w); IdOAuth2.WithDevMode dev]) (env w).
Definition apikeyProvider : Provider :=
  IdApiKey.ValidateWorkload (sha256Hex w) (IdApiKey.NewProvider [IdApiKey.WithDevMode dev]) now stamp.

Definition registrations : list (string * Provider) := [
  ("k8s-sa", k8sProvider); ("spiffe-svid", spiffeProvider); ("oidc", oidcProvider); ("kerberos", kerberosProvider);
  ("saml", samlProvider); ("mtls", mtlsProvider); ("aws-sts", awsProvider); ("gcp-wif", gcpProvider);
  ("azure-mi", azureProvider); ("oauth2", oauth2Provider); ("api-key", apikeyProvider)].
Definition bootRegistry : Registry := foldl (fun r kp => Register kp.1 kp.2 r) NewRegistry registrations.

(** The dispatch of the boot registry *)
Lemma boot_lookup ct p : providers bootRegistry !! ct = Some p -> (ct, p) ∈ registrations.
Proof.
  unfold bootRegistry.
  assert (Hgen : forall l r, providers (foldl (fun r kp => Register kp.1 kp.2 r) r l) !! ct = Some p ->
    providers r !! ct = Some p \/ (ct, p) ∈ l).
  { induction l as [|[k q] l IH]; intros r; cbn; [by left|]. intros [Hr|Hr]%IH; [|right; by right].
    cbn in Hr. destruct (decide (k = ct)) as [->|Hne].
    - rewrite lookup_insert_eq in Hr. injection Hr as ->. right. by left.
    - rewrite lookup_insert_ne in Hr by done. by left. }
  intros [Hr|Hr]%Hgen; [|done]. cbn in Hr. by rewrite lookup_empty in Hr.
Qed.
End Providers.

(** * What an identity proves outside dev mode *)

(** The kind of identifier a credential type leads to. *)
Definition kinds : list (string * string) := [
  ("k8s-sa", "ns"); ("spiffe-svid", "spiffe"); ("oidc", "oidc"); ("aws-sts", "aws"); ("gcp-wif", "gcp");
  ("azure-mi", "azure"); ("oauth2", "oauth2")].

(** A claim of a service account token: in the object of Kubernetes' own claims, or else at the top, or else nothing. A
    text in the place of an object is taken for the claim itself. *)
Definition k8s_text (v : option value) (inside : gmap string value -> option string) : option string :=
  match v with Some (VObj m) => inside m | Some (VStr s) => Some s | _ => None end.
Definition k8s_namespace (tok : jwt_token) : option string :=
  k8s_text (jwt_claim tok "kubernetes.io") (fun m => k8s_text (m !! "namespace") (fun _ => None)).
Definition k8s_account (tok : jwt_token) : option string :=
  k8s_text (jwt_claim tok "kubernetes.io") (fun m => k8s_text (m !! "serviceaccount") (fun sa => k8s_text (sa !! "name") (fun _ => None))).
Definition k8s_claim (tok : jwt_token) (nested : option string) (flat v : string) : Prop :=
  nested = Some v \/ nested = None /\ (get_string tok flat = Some v \/ get_string tok flat = None /\ v = "").

(** The text of a claim, or else the subject *)
Definition claim_or_subject (t : jwt_token) (claim principal : string) : Prop :=
  (get_string t claim = Some principal \/
   (get_string t claim = None \/ get_string t claim = Some "") /\ jwt_Subject t = Some principal) /\ principal <> "".

(** The project of a Google token: that of the virtual machine, or else the token's own. *)
Definition gcp_machine (t : jwt_token) : option value :=
  match jwt_claim t "google" with
  | Some (VObj g) => match g !! "compute_engine" with Some (VObj ce) => ce !! "project_id" | _ => None end
  | _ => None
  end.
Definition gcp_project (t : jwt_token) (project : string) : Prop :=
  gcp_machine t = Some (VStr project) \/ orEmpty (get_string t "project_id") = project.

(** The headers of a presigned request, as they are sent again. *)
Definition same_headers (presigned sent : gmap string string) : Prop :=
  (forall k, is_Some (presigned !! k) -> is_Some (sent !! IdAws.CanonicalHeaderKey k)) /\
  (forall k v, sent !! k = Some v -> exists k0, presigned !! k0 = Some v /\ k = IdAws.CanonicalHeaderKey k0).

(** The evidence that the presented credential is one of the principal, of the trust domain [td]: keys of the domain
    verified the token, or those of Google or of the Azure tenant the domain is named after, and the token names the
    principal; or STS, sent the very request the credential holds, answered with an ARN that names it and the account the
    domain is named after. The credential types without an entry never prove anything. *)
Inductive proven (w : World) (credential : string) (td : TrustDomain) : string -> string -> Prop :=
| proven_k8s keyset tok ns sa :
    k8sKeys w (ct_JWKSURL td) = Ok keyset -> jwt_Parse keyset (env_now (env w)) credential = Some tok ->
    k8s_claim tok (k8s_namespace tok) "namespace" ns -> k8s_claim tok (k8s_account tok) "serviceaccount" sa ->
    proven w credential td "k8s-sa" (ns +:+ "/sa/" +:+ sa)
| proven_spiffe t sub path principal :
    jwt_ParseInsecure credential = Some t -> jwt_Subject t = Some sub ->
    url_Parse w sub = Some ("spiffe", ct_Name td, path) -> (path = "/" +:+ principal \/ path = principal /\ HasPrefix path "/" = false) ->
    vouched (Some (resolver w)) (env w) credential (ct_JWKSURL td) -> proven w credential td "spiffe-svid" principal
| proven_oidc t principal :
    jwt_ParseInsecure credential = Some t -> orEmpty (jwt_Issuer t) = ct_Issuer td -> jwt_Subject t = Some principal ->
    vouched (Some (resolver w)) (env w) credential (ct_JWKSURL td) -> proven w credential td "oidc" principal
| proven_oauth2 t principal :
    jwt_ParseInsecure credential = Some t -> jwt_Issuer t = Some (ct_Issuer td) -> claim_or_subject t "client_id" principal ->
    vouched (Some (resolver w)) (env w) credential (ct_JWKSURL td) -> proven w credential td "oauth2" principal
| proven_gcp t principal :
    jwt_ParseInsecure credential = Some t -> jwt_Issuer t = Some "https://accounts.google.com" ->
    gcp_project t (ct_Name td) -> claim_or_subject t "email" principal ->
    vouched (Some (resolver w)) (env w) credential "https://www.googleapis.com/oauth2/v3/certs" ->
    proven w credential td "gcp-wif" principal
| proven_azure t principal :
    jwt_ParseInsecure credential = Some t -> claim_or_subject t "oid" principal ->
    vouched (Some (resolver w)) (env w) credential
      ("https://login.microsoftonline.com/" +:+ ct_Name td +:+ "/discovery/v2.0/keys") ->
    proven w credential td "azure-mi" principal
| proven_aws cred sent body r principal :
    sts_Unmarshal w credential = Some cred -> same_headers (IdAws.sts_Headers cred) sent ->
    http_Do w {| IdAws.rq_method := "POST"; IdAws.rq_url := "https://sts.amazonaws.com"; IdAws.rq_headers := sent;
                 IdAws.rq_body := IdAws.sts_Body cred |} = Ok (200, body) ->
    sts_Result w body = Some r -> IdAws.Account r = ct_Name td -> IdAws.arn_names (IdAws.Arn r) principal ->
    proven w credential td "aws-sts" principal.

(** An identity and its provenance *)
Record provenance (w : World) (domains : list TrustDomain) (credential ct : string) (wi : WorkloadIdentity)
    (td : TrustDomain) (kind principal : string) : Prop := {
  pv_domain : td ∈ domains /\ ct_Enabled td = true;
  pv_trust : wi_TrustDomain wi = ct_Name td;
  pv_id : wi_ID wi = wimseURI (ct_Name td) kind principal;
  pv_kind : (ct, kind) ∈ kinds;
  pv_proof : proven w credential td ct principal;
}.

Section Proven.
Variables (w : World) (domains : list TrustDomain).

Lemma k8s_claims tok :
  k8s_claim tok (k8s_namespace tok) "namespace" (IdK8s.claimString tok "namespace" "kubernetes.io" ["namespace"]) /\
  k8s_claim tok (k8s_account tok) "serviceaccount" (IdK8s.claimString tok "serviceaccount" "kubernetes.io" ["serviceaccount"; "name"]).
Proof.
  assert (Hgen : forall nested flat path, flat <> "" ->
    mbind as_string (mbind (fun v => IdK8s.walk v path) (jwt_claim tok "kubernetes.io")) = nested ->
    k8s_claim tok nested flat (IdK8s.claimString tok flat "kubernetes.io" path)).
  { intros nested flat path Hf <-. unfold IdK8s.claimString, k8s_claim. apply String.eqb_neq in Hf as ->.
    destruct (mbind as_string _) as [txt|]; [by left|]. right. split; [done|]. destruct (get_string tok flat); [by left|by right]. }
  split; apply Hgen; try done; unfold k8s_namespace, k8s_account;
    destruct (jwt_claim tok "kubernetes.io") as [[| | | | |m]|]; try done; cbn.
  - by destruct (m !! "namespace") as [[]|].
  - destruct (m !! "serviceaccount") as [[| | | | |sa]|]; try done. cbn. by destruct (sa !! "name") as [[]|].
Qed.
Lemma TrimPrefix_slash path : path = "/" +:+ TrimPrefix path "/" \/ path = TrimPrefix path "/" /\ HasPrefix path "/" = false.
Proof.
  unfold TrimPrefix, HasPrefix. destruct path as [|a path]; [by right|]. cbn [String.prefix].
  destruct (ascii_dec "/" a) as [<-|Hne]; [left|right; done]. by destruct path.
Qed.
Lemma principal_names t claim principal :
  principal = (if (orEmpty (get_string t claim) =? "")%string then orEmpty (jwt_Subject t) else orEmpty (get_string t claim)) ->
  principal <> "" -> claim_or_subject t claim principal.
Proof.
  intros -> Hne. split; [|done]. destruct (get_string t claim) as [s|]; cbn in *.
  - destruct (String.eqb_spec s "") as [E|]; [right|by left]. split; [right; by f_equal|]. by destruct (jwt_Subject t).
  - right. split; [by left|]. by destruct (jwt_Subject t).
Qed.
Lemma gcp_project_of t project : IdGcp.projectOf t = project -> gcp_project t project.
Proof.
  unfold IdGcp.projectOf, IdGcp.computeEngine, gcp_project, gcp_machine, get_object. destruct (jwt_claim t "google") as [[]|]; cbn; auto.
  destruct (m !! "compute_engine") as [[]|]; cbn; auto. destruct (m0 !! "project_id") as [[]|]; cbn; auto.
  destruct (String.eqb_spec s ""); auto. intros ->. by left.
Qed.
Lemma sent_headers (presigned : gmap string string) :
  same_headers presigned (foldl (fun h kv => <[IdAws.CanonicalHeaderKey kv.1 := kv.2]> h) ∅ (range presigned)).
Proof.
  assert (Hgen : forall l (h0 : gmap string string), (forall kv, kv ∈ l -> presigned !! kv.1 = Some kv.2) ->
    let h := foldl (fun h (kv : string * string) => <[IdAws.CanonicalHeaderKey kv.1 := kv.2]> h) h0 l in
    (forall k, is_Some (h0 !! k) -> is_Some (h !! k)) /\
    (forall kv, kv ∈ l -> is_Some (h !! IdAws.CanonicalHeaderKey kv.1)) /\
    (forall k v, h !! k = Some v ->
       h0 !! k = Some v \/ exists k0, presigned !! k0 = Some v /\ k = IdAws.CanonicalHeaderKey k0)).
  { induction l as [|[k0 v0] l IH]; intros h0 Hin; cbn; [split_and!; [done|by intros ? ?%not_elem_of_nil|by left]|].
    destruct (IH (<[IdAws.CanonicalHeaderKey k0 := v0]> h0)) as (Hkeep & Hset & Hfrom); [intros; apply Hin; by right|]. split_and!.
    - intros k Hk. apply Hkeep. destruct (decide (IdAws.CanonicalHeaderKey k0 = k)) as [<-|];
        [rewrite lookup_insert_eq|rewrite lookup_insert_ne by done]; eauto.
    - intros kv [->|Hkv]%elem_of_cons; [|by apply Hset]. apply Hkeep. rewrite lookup_insert_eq. eauto.
    - intros k v [Hk|Hk]%Hfrom; [|by right]. destruct (decide (IdAws.CanonicalHeaderKey k0 = k)) as [<-|].
      + rewrite lookup_insert_eq in Hk. injection Hk as <-. right. exists k0. split; [|done]. apply (Hin (k0, v0)). by left.
      + rewrite lookup_insert_ne in Hk by done. by left. }
  destruct (Hgen (range presigned) ∅) as (_ & Hset & Hfrom).
  { intros [k v] Hkv. by apply elem_of_range. }
  split.
  - intros k [v Hv]. apply (Hset (k, v)). by apply elem_of_range.
  - intros k v [E|E]%Hfrom; [by rewrite lookup_empty in E|done].
Qed.

Lemma k8s_proven credential ct wi :
  k8sProvider w domains false credential ct = Ok wi -> exists td kind p, provenance w domains credential ct wi td kind p.
Proof.
  intros (-> & t & td & ks & tok & _ & Htd & Hks & Htok & ->)%IdK8s.k8s_validate_ok; [|done].
  apply IdK8s.New_domain in Htd as (Hd & He & _). eexists td, "ns", _.
  destruct (k8s_claims tok). split; [done|done|reflexivity|by left|]. by eapply proven_k8s.
Qed.
Lemma spiffe_proven credential ct wi :
  spiffeProvider w domains false credential ct = Ok wi -> exists td kind p, provenance w domains credential ct wi td kind p.
Proof.
  intros (-> & t & sub & host & path & td & Ht & Hsub & Hp & Htd & Hv & Hid & Hwt)%IdSpiffe.spiffe_validate_ok; [|done].
  cbn in Htd, Hv. apply domainsBy_empty in Htd as (Hd & He & _ & <-). exists td, "spiffe", path.
  split; [done..|set_solver|]. unfold IdSpiffe.parseSpiffeID in Hp. destruct (url_Parse w sub) as [[[scheme h] path0]|] eqn:Hu; [|done].
  destruct (String.eqb_spec scheme "spiffe") as [->|]; [|done]. cbn [negb] in Hp. destruct (h =? "")%string; [done|].
  destruct (TrimPrefix path0 "/" =? "")%string; [done|]. injection Hp as -> <-.
  eapply proven_spiffe; [exact Ht|exact Hsub|exact Hu|apply TrimPrefix_slash|done].
Qed.
Lemma oidc_proven credential ct wi :
  oidcProvider w domains false credential ct = Ok wi -> exists td kind p, provenance w domains credential ct wi td kind p.
Proof.
  intros (-> & t & td & sub & Ht & Hsub & _ & Htd & Hv & _ & Hid & Hwt)%IdOidc.oidc_validate_ok; [|done].
  cbn in Htd, Hv. apply domainsBy_empty in Htd as (Hd & He & _ & Hi). exists td, "oidc", sub.
  split; [done..|set_solver|]. by eapply proven_oidc.
Qed.
Lemma oauth2_proven credential ct wi :
  oauth2Provider w domains false credential ct = Ok wi -> exists td kind p, provenance w domains credential ct wi td kind p.
Proof.
  intros (-> & td & issuer & p & Htd & Hne & Hid & Hwt & Hv)%IdOAuth2.oauth2_validate_ok; [|done].
  cbn in Htd. apply domainsBy_empty in Htd as (Hd & He & _ & <-). exists td, "oauth2", p.
  split; [done..|set_solver|]. destruct Hv as [(t & Ht & Hi & Hp & Hv)|(r & ik & url & creds & body & Hurl & _)].
  - eapply proven_oauth2; [exact Ht|exact Hi|by apply principal_names|done].
  - cbn in Hurl. by rewrite lookup_empty in Hurl.
Qed.
Lemma gcp_proven credential ct wi :
  gcpProvider w domains false credential ct = Ok wi -> exists td kind p, provenance w domains credential ct wi td kind p.
Proof.
  intros (-> & t & td & p & Ht & Hi & Htd & _ & Hv & Hne & Hp & Hid & Hwt)%IdGcp.gcp_validate_ok; [|done].
  cbn in Htd, Hv. apply domainsBy_empty in Htd as (Hd & He & _ & Hn). exists td, "gcp", p.
  split; [done..|set_solver|]. eapply proven_gcp; [exact Ht|exact Hi|by apply gcp_project_of|by apply principal_names|done].
Qed.
Lemma azure_proven credential ct wi :
  azureProvider w domains false credential ct = Ok wi -> exists td kind p, provenance w domains credential ct wi td kind p.
Proof.
  intros (-> & t & tenant & td & p & Ht & _ & Htd & _ & Hv & Hne & Hp & Hid & Hwt)%IdAzure.azure_validate_ok; [|done].
  cbn in Htd, Hv. apply domainsBy_empty in Htd as (Hd & He & _ & <-). exists td, "azure", p.
  split; [done..|set_solver|]. eapply proven_azure; [exact Ht|by apply principal_names|done].
Qed.
Lemma aws_proven credential ct wi :
  awsProvider w domains false credential ct = Ok wi -> exists td kind p, provenance w domains credential ct wi td kind p.
Proof.
  intros (-> & cred & rq & body & r & td & Hj & -> & Hm & Hdo & Hr & Htd & _ & Hid & Hwt)%IdAws.aws_validate_ok; [|done].
  cbn in Htd. apply domainsBy_empty in Htd as (Hd & He & _ & Hacc). eexists td, "aws", _.
  split; [done..|set_solver|]. cbn [IdAws.stsRequest IdAws.rq_method] in Hm. unfold IdAws.stsRequest in Hdo. rewrite Hm in Hdo.
  eapply proven_aws; [exact Hj|apply sent_headers|exact Hdo|exact Hr|done|apply IdAws.extractRoleName_names].
Qed.
(** The providers that are built without what they need to accept anything. *)
Lemma unconfigured_refuse credential ct p :
  p ∈ [kerberosProvider w domains false; samlProvider w domains false; mtlsProvider w domains false; apikeyProvider w false] ->
  is_ok (p credential ct) = false.
Proof.
  rewrite !elem_of_cons. intros [->|[->|[->|[->|E%not_elem_of_nil]]]]; [| | | |done].
  - by apply IdKerberos.no_keytab_refuse.
  - by apply IdSaml.no_certificates_refuse.
  - by apply IdMtls.no_roots_refuse.
  - unfold apikeyProvider, IdApiKey.ValidateWorkload. destruct (negb _); [done|]. by destruct (credential =? "")%string.
Qed.

(** Outside dev mode an identity is always proven: it belongs to an enabled trust domain of the
    configuration, its identifier carries that domain and the kind of its credential, and the keys (or the
    STS answer) that go with the domain vouch for the credential. *)
Lemma boot_proven credential ct wi :
  ValidateWorkload (bootRegistry w domains false) credential ct = Ok wi ->
  exists td kind principal, provenance w domains credential ct wi td kind principal.
Proof.
  unfold ValidateWorkload. destruct (providers (bootRegistry w domains false) !! ct) as [p|] eqn:Hp; [|done].
  apply boot_lookup in Hp. intros Hv.
  assert (Hno : p ∈ [kerberosProvider w domains false; samlProvider w domains false; mtlsProvider w domains false; apikeyProvider w false] -> False).
  { intros Hin. apply (unconfigured_refuse credential ct) in Hin. by rewrite Hv in Hin. }
  unfold registrations in Hp. rewrite !elem_of_cons in Hp.
  destruct Hp as [E|[E|[E|[E|[E|[E|[E|[E|[E|[E|[E|E%not_elem_of_nil]]]]]]]]]]]; [..|done]; injection E as -> ->;
    first [by apply k8s_proven|by apply spiffe_proven|by apply oidc_proven|by apply oauth2_proven|by apply gcp_proven
          |by apply azure_proven|by apply aws_proven|exfalso; apply Hno; set_solver].
Qed.
End Proven.

(** Outside dev mode an identity is always proven: it belongs to an enabled trust domain of the
    configuration, its identifier carries that domain and the kind of its credential, and the keys (or the
    STS answer) that go with the domain vouch for the credential. Kerberos, SAML, mTLS and API key
    credentials are never accepted. *)
Theorem identity_proven w domains credential ct wi :
  ValidateWorkload (bootRegistry w domains false) credential ct = Ok wi ->
  exists td kind principal, provenance w domains credential ct wi td kind principal.
Proof. apply boot_proven. Qed.

(** C21: With trust domains whose names have no slash, no credential can stand for a workload of another type or
    trust domain: identities accepted outside dev mode that come from credentials of different types, or from
    different trust domains, have different identifiers. Names with a slash are not refused by the
    configuration, and for them it fails: [slash_in_domain_collides]. *)
Theorem identity_kinds_disjoint w w' domains credential credential' ct ct' wi wi' :
  Forall (fun d => no_slash (ct_Name d)) domains ->
  ValidateWorkload (bootRegistry w domains false) credential ct = Ok wi ->
  ValidateWorkload (bootRegistry w' domains false) credential' ct' = Ok wi' ->
  ct <> ct' \/ wi_TrustDomain wi <> wi_TrustDomain wi' -> wi_ID wi <> wi_ID wi'.
Proof.
  intros Hns Hv Hv' Hne Heq. destruct (boot_proven _ _ _ _ _ Hv) as (td & kind & p & [[Hd _] Ht Hid Hk _]).
  destruct (boot_proven _ _ _ _ _ Hv') as (td' & kind' & p' & [[Hd' _] Ht' Hid' Hk' _]).
  rewrite Forall_forall in Hns. rewrite Hid, Hid' in Heq.
  assert (Hkinds : forall x k, (x, k) ∈ kinds -> no_slash k).
  { intros x k Hin. apply (proj1 (Forall_forall (fun xk => no_slash xk.2) kinds)) in Hin; [done|]. unfold kinds. repeat constructor. }
  apply wimseURI_inj in Heq as (Htd & -> & _); [|by apply Hns|by apply Hns|by eapply Hkinds|by eapply Hkinds].
  rewrite Ht, Ht', Htd in Hne. destruct Hne as [Hne|Hne]; [|done].
  assert (Hinj : forall x y k, (x, k) ∈ kinds -> (y, k) ∈ kinds -> x = y).
  { intros x y k. unfold kinds. rewrite !elem_of_cons, !elem_of_nil. intros Hx Hy.
    repeat destruct Hx as [Hx|Hx]; repeat destruct Hy as [Hy|Hy]; congruence || done. }
  by apply Hne; eapply Hinj.
Qed.
End Boot.

(** * Examples: a cluster and an OIDC issuer *)

#[local] Existing Instance JwtModel.lib.
#[local] Existing Instance DPoP.demo_jws.
#[local] Existing Instance key_order.
Definition demo_keys : KeyLib := {| PubKey := string; import_key := Some; hdr_KeyID := fun _ => Some "k1" |}.
#[local] Existing Instance demo_keys.

Definition demo_env : Env := {| env_now := 100; env_stamp := 101; jwk_Fetch := fun _ => Err "offline" |}.
Definition demo_world : World :=
  {| env := demo_env;
     resolver := fun url kid => if (url =? "https://idp/keys")%string then Ok "pub:idp" else Err "unknown";
     k8sKeys := fun url => if (url =? "https://k8s/keys")%string then Ok ["pub:k8s"] else Err "unknown";
     k8sRegister := fun _ => true; url_Parse := fun _ => None; sha256Hex := fun s => s; base64_Decode := Some;
     pem_Decode := Some; ParseCertificate := fun _ => None; CertPool := unit; cert_Verify := fun _ _ _ => false;
     SamlCert := unit; saml_Unmarshal := fun _ => None; dsig_Validate := fun _ _ => false; rfc3339 := fun _ => None;
     Keytab := unit; Ticket := unit; krb_Unmarshal := fun _ => None; krb_Decrypt := fun _ _ => None;
     sts_Unmarshal := fun _ => None; awsTime := fun _ => None; http_Do := fun _ => Err "offline"; sts_Result := fun _ => None;
     http := {| IdOAuth2.post := fun _ _ _ => Err "offline"; IdOAuth2.decode := fun _ => None |} |}.
Definition demo_domains : list TrustDomain :=
  [{| ct_Name := "cluster.example"; ct_Enabled := true; ct_JWKSURL := "https://k8s/keys"; ct_Issuer := "https://k8s" |};
   {| ct_Name := "idp.example"; ct_Enabled := true; ct_JWKSURL := "https://idp/keys"; ct_Issuer := "https://idp" |}].
Definition demo_sa : string :=
  JwtModel.encode_signed "pub:k8s" ("system:serviceaccount:prod:api", "https://k8s", ["starfly"], 0, 1000,
    [("kubernetes.io", inr (inr (inr [("namespace", inl "prod"); ("serviceaccount", inr [("name", "api")])])))]).
Definition demo_alice : string := JwtModel.encode_signed "pub:idp" ("alice", "https://idp", ["starfly"], 0, 1000, []).
Definition demo_result (credential ct : string) : WorkloadIdentity :=
  match ValidateWorkload (bootRegistry demo_world demo_domains false) credential ct with
  | Ok wi => wi
  | Err _ => workload "" "" "" 0 ∅
  end.
Lemma demo_sa_ok : ValidateWorkload (bootRegistry demo_world demo_domains false) demo_sa "k8s-sa" = Ok (demo_result demo_sa "k8s-sa").
Proof. vm_compute. reflexivity. Qed.
Lemma demo_alice_ok : ValidateWorkload (bootRegistry demo_world demo_domains false) demo_alice "oidc" = Ok (demo_result demo_alice "oidc").
Proof. vm_compute. reflexivity. Qed.

Lemma identity_proven_witness :
  wi_ID (demo_result demo_sa "k8s-sa") = "wimse://cluster.example/ns/prod/sa/api" /\
  wi_ID (demo_result demo_alice "oidc") = "wimse://idp.example/oidc/alice" /\
  exists td kind principal,
    provenance demo_world demo_domains demo_sa "k8s-sa" (demo_result demo_sa "k8s-sa") td kind principal.
Proof.
  split; [vm_compute; reflexivity|]. split; [vm_compute; reflexivity|].
  exact (identity_proven demo_world demo_domains demo_sa "k8s-sa" _ demo_sa_ok).
Defined.

(** Two subjects of two trust domains, one named with a slash, have one identifier. *)
Example slash_in_domain_collides :
  wimseURI "corp/oidc" "oidc" "alice" = wimseURI "corp" "oidc" "oidc/alice".
Proof. reflexivity. Qed.

Lemma identity_kinds_disjoint_witness : wi_ID (demo_result demo_sa "k8s-sa") <> wi_ID (demo_result demo_alice "oidc").
Proof.
  apply (identity_kinds_disjoint demo_world demo_world demo_domains demo_sa demo_alice "k8s-sa" "oidc"
    (demo_result demo_sa "k8s-sa") (demo_result demo_alice "oidc")).
  - repeat constructor.
  - exact demo_sa_ok.
  - exact demo_alice_ok.
  - left. discriminate.
Defined.
End Registry.
