(* ===== verification/Boot.v ===== *)
(** The unit as it is put together when it starts ([cmd/starfly/main.go]): the registry of identity providers
    over the shared JWKS cache, the exchange engine over the registry, and the key rotation workflow over
    the engine. *)
From Stdlib Require Import ZArith Lia.
From stdpp Require Import base gmap strings list.
From S2P Require Import Prelude.
From S2P Require Import GoLib.
From S2P Require Import JwtModel.
From S2P Require Import Core.
From S2P Require Import DPoP.
From S2P Require Import Keyring.
From S2P Require Import Exchange.
From S2P Require Import ExchangeSpec.
From S2P Require Import Jwks.
From S2P Require Import Rotation.
From S2P Require Import IdCommon.
From S2P Require Import IdK8s.
From S2P Require Import IdOidc.
From S2P Require Import IdOAuth2.
From S2P Require Import IdGcp.
From S2P Require Import IdAzure.
From S2P Require Import Registry.

#[local] Open Scope string_scope.
#[local] Open Scope list_scope.
#[local] Open Scope Z_scope.

Module Boot.
Import Identity Registry.

(** * The engine over the registry *)

Section Engine.
Context `{!JwtLib, !JwsLib, !KeyLib, !RangeOrder}.
Context {EncKey : Type}.
Variable clock : nat -> Time.
Variable EncryptSecretBundle : gmap string string -> EncKey -> result string string.
(** The text of a validation error, and of an exchange error. *)
Variable errText : IdErr -> string.
Variable exchangeText : Exchange.ExchangeErr -> string.

(** [exchange.New(identityProvider, ...)]: what the engine asks for identities *)
Definition engineIdentity (w : World) (domains : list TrustDomain) (dev : bool) (credential credType : string)
    : result string WorkloadIdentity :=
  match ValidateWorkload (bootRegistry w domains dev) credential credType with
  | Ok wi => Ok wi
  | Err e => Err (errText e)
  end.
(** [lifecycle.NewActivities(exchangeEngine, ...)]: what the lifecycle activities ask for tokens *)
Definition engineExchange (e : Exchange.Engine) (s : Exchange.EState) (req : TokenExchangeRequest)
    : result string TokenExchangeResponse :=
  match (Exchange.Exchange clock EncryptSecretBundle e req s).2 with
  | Ok resp => Ok resp
  | Err err => Err (exchangeText err)
  end.

(** C4: From credential to token, outside dev mode: a token is only issued for an identity that the evidence
    of an enabled trust domain proves to be the presenter's. Its subject is the identifier of that domain, the kind
    of the credential and the principal the credential names; a token was verified by the keys that go with the
    domain, and STS answered the very request the credential holds. The [td] claim is that domain. *)
Theorem exchanged_identity_proven `{!JwtLaws} (e : Exchange.Engine) req s s' resp w domains :
  Exchange.e_identity e = engineIdentity w domains false ->
  Exchange.Exchange clock EncryptSecretBundle e req s = (s', Ok resp) ->
  exists ct wi td kind principal k t,
    Exchange.mapCredType (SubjectTokenType req) = Ok ct /\
    provenance w domains (SubjectToken req) ct wi td kind principal /\
    Exchange.activeSigningKey e = Some k /\ jwt_Sign k t = Some (AccessToken resp) /\
    jwt_Subject t = Some (wimseURI (ct_Name td) kind principal) /\
    jwt_claim t "td" = Some (VStr (ct_Name td)).
Proof.
  intros Hid (s1 & m & (d & dpop & now & t & Hi)%ExchangeSpec.mint_ok & _ & ->)%ExchangeSpec.Exchange_ok.
  destruct (ExchangeSpec.buildToken_ok _ _ _ _ _ _ _ _ _ _ (ExchangeSpec.is_built _ _ _ _ _ _ _ _ _ _ Hi)) as [(Hsub & _) Hclaim].
  destruct Hi as [(ct & Ha & _) _ _ _ _ _ _ _ _ _ Hs]. unfold Exchange.authenticate in Ha.
  apply rbind_ok in Ha as (u1 & _ & Ha). apply rbind_ok in Ha as (ct' & Hct & Ha). rewrite Hid in Ha. unfold engineIdentity in Ha.
  destruct (ValidateWorkload (bootRegistry w domains false) (SubjectToken req) ct') as [wi|] eqn:Hv; [|done]. inv_ok.
  destruct (boot_proven _ _ _ _ _ Hv) as (td & kind & p & Hpv). unfold Exchange.signToken in Hs.
  destruct (Exchange.activeSigningKey e) as [k|]; [|done]. destruct (jwt_Sign k t) as [sg|] eqn:Hsg; [|done]. injection Hs as Hs.
  exists ct, (Exchange.m_workload m), td, kind, p, k, t. cbn. rewrite <- Hs. split_and!; try done.
  - rewrite Hsub. f_equal. apply (pv_id _ _ _ _ _ _ _ _ Hpv).
  - rewrite Hclaim by (vm_compute; set_solver). ExchangeSpec.read_minted_claim. cbn. by rewrite (pv_trust _ _ _ _ _ _ _ _ Hpv).
Qed.

(** The agent credential types the engine knows have no provider: a token of the agent identity provider is
    never accepted as a subject token. *)
Lemma agent_types_unregistered w domains dev credential ct :
  ct ∈ ["agent-mcp"; "agent-a2a"; "agent-passport"] ->
  is_ok (engineIdentity w domains dev credential ct) = false.
Proof. rewrite !elem_of_cons, elem_of_nil. by intros [->|[->|[->|[]]]]. Qed.

(** * Key rotation over the engine *)

(** The token the rotation asks for names the worker by a URN, sent as a JWT: the service account provider
    cannot parse it, in dev mode no more than in production, so no exchange succeeds. *)
Lemma lifecycle_token_refused (e : Exchange.Engine) s w domains dev unitID i :
  Exchange.e_identity e = engineIdentity w domains dev ->
  jwt_ParseInsecure ("urn:starfly:lifecycle-worker:" +:+ unitID) = None ->
  is_ok (engineExchange e s (Rotation.mintRequest unitID i)) = false.
Proof.
  intros Hid Hp. unfold engineExchange, Exchange.Exchange, Exchange.mint, st_bind, st_lift.
  assert (Ha : exists err, Exchange.authenticate e (Rotation.mintRequest unitID i) = Err err); [|by destruct Ha as [err ->]].
  unfold Exchange.authenticate. cbn [Rotation.mintRequest GrantType SubjectTokenType SubjectToken]. cbn [Exchange.grantTypeTokenExchange].
  rewrite String.eqb_refl. cbn [negb reject rbind].
  change (Exchange.mapCredType "urn:ietf:params:oauth:token-type:jwt") with (Ok (E:=Exchange.ExchangeErr) "k8s-sa").
  cbn [rbind]. rewrite Hid. unfold engineIdentity.
  assert (Hk : ValidateWorkload (bootRegistry w domains dev) ("urn:starfly:lifecycle-worker:" +:+ unitID) "k8s-sa" =
    k8sProvider w domains dev ("urn:starfly:lifecycle-worker:" +:+ unitID) "k8s-sa") by reflexivity.
  rewrite Hk. unfold k8sProvider. rewrite IdK8s.malformed_refused by done. by eexists.
Qed.

(** A rotation run against the unit's own engine never completes: it always ends with the refusal of the
    token for the swap, and the keyring is what it was. *)
Theorem engine_rotation_always_fails unitID rsa ecdsa transmit sha faults others sleep
    (e : Exchange.Engine) s w domains dev p rs k kr1 :
  Exchange.e_identity e = engineIdentity w domains dev ->
  jwt_ParseInsecure ("urn:starfly:lifecycle-worker:" +:+ unitID) = None ->
  (forall n, others n = []) -> (forall ev, transmit ev = None) -> (forall n, faults n = Rotation.Delivered) -> sleep O = None ->
  Rotation.publishable clock rsa p rs k kr1 ->
  let run := Rotation.RotationWorkflow unitID clock rsa ecdsa transmit (engineExchange e s) sha faults others sleep p rs in
  (exists err, run.2 = Err (Rotation.ErrMint (Rotation.ErrExchange err))) /\ Rotation.r_kr run.1 = Rotation.r_kr rs.
Proof.
  intros Hid Hp Halone Hsent Hf Hsleep Hpub run. unfold run. rewrite Rotation.RotationWorkflow_split.
  destruct (Rotation.refused unitID clock rsa ecdsa transmit (engineExchange e s) sha faults others sleep Halone Hsent p rs k kr1)
    as (s2 & err & Hkr & Hb); [done|done| |done|].
  { intros i. by eapply lifecycle_token_refused. }
  unfold st_bind. rewrite Hb. split; [by eexists|done].
Qed.
End Engine.

(** * The shared JWKS cache *)

Section SharedCache.
Context `{!JwtLib, !JwsLib, !JwkLib, !RangeOrder}.
Variable import : PublicKey -> option jwk_key.
Variable kidOf : jws_headers -> option string.
Instance cacheKeys : KeyLib := {| PubKey := PublicKey; import_key := import; hdr_KeyID := kidOf |}.
Variable resolveText : Jwks.ResolveErr -> string.

(** [WithJWKSResolver(jwksCache)]: the providers resolve keys through the cache, which they hand the JWKS URL
    of a trust domain where it expects an issuer. *)
Definition cacheResolver (net : Jwks.Net) (now later : Time) (c : Jwks.Cache) : Resolver := fun jwksURL kid =>
  match (Jwks.ResolveKey net now later jwksURL kid c).2 with
  | Ok key => Ok key
  | Err e => Err (resolveText e)
  end.

Lemma cache_miss net now later c url kid :
  Jwks.issuers c !! url = None -> is_ok (Jwks.fetchDocument net (Jwks.jwksURLForIssuer url)) = false ->
  is_ok (cacheResolver net now later c url kid) = false.
Proof.
  intros Hn Hf. unfold cacheResolver, Jwks.ResolveKey, Jwks.cachedKey, Jwks.fetchAndCache, Jwks.staleKey. rewrite Hn.
  by destruct (Jwks.fetchDocument net _).
Qed.
Lemma unresolved_refused (resolve : Resolver) ev credential url :
  (forall kid, is_ok (resolve url kid) = false) -> ~ vouched (Some resolve) ev credential url.
Proof.
  intros Hr (alg & kid & pub & key & tok & Hres & _). specialize (Hr kid). by rewrite Hres in Hr.
Qed.

(** The key sets the cache-backed providers consult: those of the trust domains, Google's and the tenants'. *)
Definition consulted (domains : list TrustDomain) (url : string) : Prop :=
  (exists td, td ∈ domains /\ (url = ct_JWKSURL td \/ url = IdAzure.tenantJWKS (ct_Name td))) \/ url = IdGcp.googleJWKSURL.

(** The providers that share the cache only ever work with keys served below the configured key set URL. The
    cache appends its well-known path to what it takes for an issuer; when nothing is served there, every
    SPIFFE, OIDC, OAuth 2.0, Google and Azure credential is refused, although the service account provider
    reads the same setting as the URL of the key set itself. *)
Theorem shared_cache_needs_well_known w domains net now later c credential ct :
  resolver w = cacheResolver net now later c ->
  (forall url, consulted domains url -> Jwks.issuers c !! url = None /\
     is_ok (Jwks.fetchDocument net (url +:+ "/.well-known/jwks.json")) = false) ->
  ct ∈ ["spiffe-svid"; "oidc"; "oauth2"; "gcp-wif"; "azure-mi"] ->
  is_ok (ValidateWorkload (bootRegistry w domains false) credential ct) = false.
Proof.
  intros Hres Hnone Hct. destruct (ValidateWorkload (bootRegistry w domains false) credential ct) as [wi|] eqn:Hv; [|done]. exfalso.
  destruct (boot_proven _ _ _ _ _ Hv) as (td & kind & p & [[Hd _] _ _ _ Hpr]).
  assert (Hno : forall url, consulted domains url -> ~ vouched (Some (resolver w)) (env w) credential url).
  { intros url Hu. rewrite Hres. apply unresolved_refused. intros kid. apply cache_miss; by apply Hnone. }
  rewrite !elem_of_cons, elem_of_nil in Hct.
  inversion Hpr; subst; try (by eapply Hno; [|eassumption]; unfold consulted; naive_solver);
    repeat destruct Hct as [Hct|Hct]; done.
Qed.
End SharedCache.

(** * Examples *)

#[local] Existing Instance JwtModel.lib.
#[local] Existing Instance JwtModel.laws.
#[local] Existing Instance DPoP.demo_jws.
#[local] Existing Instance key_order.

Definition demo_errText (e : IdErr) : string := "refused".
Definition demo_exchangeText (e : Exchange.ExchangeErr) : string := "denied".
Section Demo.
#[local] Existing Instance Registry.demo_keys.
Definition demo_engine : Exchange.Engine (EncKey:=string) :=
  let e := ExchangeSpec.demo_engine None in
  {| Exchange.e_identity := engineIdentity demo_errText Registry.demo_world Registry.demo_domains false;
     Exchange.e_policy := Exchange.e_policy e; Exchange.e_keyring := Exchange.e_keyring e;
     Exchange.e_signKey := Exchange.e_signKey e; Exchange.e_issuer := Exchange.e_issuer e; Exchange.e_ttl := Exchange.e_ttl e;
     Exchange.e_syncBus := None; Exchange.e_unitID := "u1"; Exchange.e_revocation := None;
     Exchange.e_onRevocationError := false; Exchange.e_executionTTL := Exchange.e_executionTTL e;
     Exchange.e_onExchange := false; Exchange.e_secretSource := None; Exchange.e_encryptionKeyStore := None;
     Exchange.e_onSecretDelivery := false; Exchange.e_devMode := false |}.
Definition demo_req : TokenExchangeRequest :=
  {| GrantType := Exchange.grantTypeTokenExchange; SubjectToken := Registry.demo_sa;
     SubjectTokenType := Exchange.subjectTokenTypeJWT; Audience := "aud"; Scope := ""; ActorToken := "";
     ActorTokenType := ""; RequestedTokenType := ""; DPoPProof := ""; Attestation := None; req_ExecutionScope := None |}.
Definition demo_out := Exchange.Exchange ExchangeSpec.demo_clock ExchangeSpec.demo_encrypt demo_engine demo_req Exchange.initState.
Lemma demo_out_ok : demo_out = (demo_out.1, Ok (ExchangeSpec.out_resp demo_out)).
Proof. apply ExchangeSpec.out_ok. vm_compute. reflexivity. Qed.

Lemma exchanged_identity_proven_witness :
  exists ct wi td kind principal,
    Exchange.mapCredType Exchange.subjectTokenTypeJWT = Ok ct /\
    provenance Registry.demo_world Registry.demo_domains Registry.demo_sa ct wi td kind principal.
Proof.
  destruct (exchanged_identity_proven ExchangeSpec.demo_clock ExchangeSpec.demo_encrypt demo_errText demo_engine demo_req
    Exchange.initState demo_out.1 (ExchangeSpec.out_resp demo_out) Registry.demo_world Registry.demo_domains eq_refl demo_out_ok)
    as (ct & wi & td & kind & p & k & t & Hct & Hpv & _).
  exists ct, wi, td, kind, p. split; [exact Hct|exact Hpv].
Defined.

Lemma demo_kr_publishable : Rotation.publishable ExchangeSpec.demo_clock Rotation.demo_gen Rotation.demo_params Rotation.demo_start "priv"
  {| Keyring.activeKid := "k1";
     Keyring.keys := <[Rotation.newKidOf ExchangeSpec.demo_clock Rotation.demo_start := "priv"]> (Keyring.keys Keyring.demo_kr) |}.
Proof. split; [reflexivity..|]. by exists "k1". Qed.

Lemma engine_rotation_always_fails_witness :
  let run := Rotation.RotationWorkflow "unit-1" ExchangeSpec.demo_clock Rotation.demo_gen Rotation.demo_gen (fun _ => None)
    (engineExchange ExchangeSpec.demo_clock ExchangeSpec.demo_encrypt demo_exchangeText demo_engine Exchange.initState)
    (fun s => s) (fun _ => Rotation.Delivered) (fun _ => []) (fun _ => None) Rotation.demo_params Rotation.demo_start in
  (exists err, run.2 = Err (Rotation.ErrMint (Rotation.ErrExchange err))) /\ Rotation.r_kr run.1 = Keyring.demo_kr.
Proof.
  apply (engine_rotation_always_fails ExchangeSpec.demo_clock ExchangeSpec.demo_encrypt demo_errText demo_exchangeText "unit-1"
    Rotation.demo_gen Rotation.demo_gen (fun _ => None) (fun s => s) (fun _ => Rotation.Delivered) (fun _ => []) (fun _ => None)
    demo_engine Exchange.initState Registry.demo_world Registry.demo_domains false Rotation.demo_params Rotation.demo_start _ _
    eq_refl eq_refl (fun _ => eq_refl) (fun _ => eq_refl) (fun _ => eq_refl) eq_refl demo_kr_publishable).
Defined.
End Demo.

(** Key sets are served at the configured URLs only. *)
#[local] Existing Instance Jwks.demo_lib.
Definition demo_net : Jwks.Net :=
  {| Jwks.net_request := fun _ => Ok tt;
     Jwks.net_get := fun url => if (url =? "https://idp/keys")%string then Ok (200, Ok [Byte.x01]) else Ok (404, Ok []);
     Jwks.net_now := 100 |}.
Definition demo_import (k : @PublicKey Jwks.demo_lib) : option (@jwk_key JwtModel.lib) := Some k.
Definition demo_cacheKeys : KeyLib := cacheKeys demo_import (fun _ => Some "k1").
#[local] Existing Instance demo_cacheKeys.
Definition demo_cache_world : World :=
  {| env := {| env_now := 100; env_stamp := 101; jwk_Fetch := fun _ => Err "offline" |};
     resolver := cacheResolver demo_import (fun _ => Some "k1") (fun _ => "not found") demo_net 100 100
                   (Jwks.New Jwks.demo_cfg);
     k8sKeys := fun url => Ok ["pub:k8s"];
     k8sRegister := fun _ => true; url_Parse := fun _ => None; sha256Hex := fun s => s; base64_Decode := Some;
     pem_Decode := Some; ParseCertificate := fun _ => None; CertPool := unit; cert_Verify := fun _ _ _ => false;
     SamlCert := unit; saml_Unmarshal := fun _ => None; dsig_Validate := fun _ _ => false; rfc3339 := fun _ => None;
     Keytab := unit; Ticket := unit; krb_Unmarshal := fun _ => None; krb_Decrypt := fun _ _ => None;
     sts_Unmarshal := fun _ => None; awsTime := fun _ => None; http_Do := fun _ => Err "offline"; sts_Result := fun _ => None;
     http := {| IdOAuth2.post := fun _ _ _ => Err "offline"; IdOAuth2.decode := fun _ => None |} |}.
Lemma demo_not_served url : is_ok (Jwks.fetchDocument demo_net (url +:+ "/.well-known/jwks.json")) = false.
Proof.
  unfold Jwks.fetchDocument. cbn [Jwks.net_request Jwks.net_get demo_net].
  destruct (String.eqb_spec (url +:+ "/.well-known/jwks.json") "https://idp/keys") as [Heq|]; [exfalso|done].
  assert (Hl : String.length (url +:+ "/.well-known/jwks.json") = String.length "https://idp/keys") by (by rewrite Heq).
  rewrite length_append in Hl. cbn in Hl. lia.
Qed.
Lemma shared_cache_needs_well_known_witness :
  is_ok (Jwks.fetchDocument demo_net "https://idp/keys") = true /\
  is_ok (ValidateWorkload (bootRegistry demo_cache_world Registry.demo_domains false) Registry.demo_alice "oidc") = false.
Proof.
  split; [reflexivity|].
  apply (shared_cache_needs_well_known demo_import (fun _ => Some "k1") (fun _ => "not found") demo_cache_world
    Registry.demo_domains demo_net 100 100 (Jwks.New Jwks.demo_cfg) Registry.demo_alice "oidc"); [reflexivity| |set_solver].
  intros url _. split; [reflexivity|]. apply demo_not_served.
Defined.
End Boot.
