(* ===== verification/ApiCommon.v ===== *)
(** What the handlers of the HTTP API share ([pkg/api]): responses and their JSON error bodies, the
    failures of decoding a request body, and the check of a bearer token. *)
From Stdlib Require Import ZArith Lia.
From stdpp Require Import base gmap strings list.
From S2P Require Import Prelude.
From S2P Require Import GoLib.

#[local] Open Scope string_scope.
#[local] Open Scope list_scope.
#[local] Open Scope Z_scope.

Module ApiCommon.

(** [errorResponse] *)
Record errorResponse : Type := {
  Error_ : string;
  ErrorDescription : string;
}.

(** The ways decoding a body fails: over the limit of the reader, or not JSON of the type. *)
Inductive BodyErr : Type := BodyTooLarge | BodyMalformed (err : string).

(** A response with a JSON body of type [A], or an error body. *)
Inductive Response (A : Type) : Type :=
| Reply (status : Z) (body : A)
| ErrorReply (status : Z) (body : errorResponse).
Arguments Reply {A} status body.
Arguments ErrorReply {A} status body.

Definition status {A} (r : Response A) : Z :=
  match r with Reply st _ | ErrorReply st _ => st end.

Definition error_reply {A} (st : Z) (error description : string) : Response A :=
  ErrorReply st {| Error_ := error; ErrorDescription := description |}.

(** * Bearer tokens *)

(** The refusals of [requireBearerAuth]. *)
Inductive BearerRefusal : Type := BearerRequired | BearerServerError | BearerInvalid.

Definition bearerReply {A} (r : BearerRefusal) : Response A :=
  match r with
  | BearerRequired => error_reply 401 "unauthorized" "Authorization Bearer token required"
  | BearerServerError => error_reply 500 "server_error" "internal error"
  | BearerInvalid => error_reply 401 "unauthorized" "invalid token"
  end.

(** [requireBearerAuth]: [jwks] is [None] when the server has no key provider, which lets everyone
    in, and [Some None] when the key set cannot be built. *)
Definition requireBearerAuth `{!JwtLib} (jwks : option (option (list jwk_key))) (now : Time)
    (authHeader : string) : result BearerRefusal unit :=
  match jwks with
  | None => Ok tt
  | Some keySet =>
      if negb (HasPrefix authHeader "Bearer ") then Err BearerRequired else
      match keySet with
      | None => Err BearerServerError
      | Some ks =>
          match jwt_Parse ks now (TrimPrefix authHeader "Bearer ") with
          | None => Err BearerInvalid
          | Some _ => Ok tt
          end
      end
  end.

Lemma bearer_prefix s : HasPrefix ("Bearer " +:+ s) "Bearer " = true.
Proof. by destruct s. Qed.
Lemma bearer_trim s : TrimPrefix ("Bearer " +:+ s) "Bearer " = s.
Proof. by destruct s. Qed.

Lemma requireBearerAuth_ok `{!JwtLib} ks now hdr :
  requireBearerAuth (Some (Some ks)) now hdr = Ok tt <->
  HasPrefix hdr "Bearer " = true /\ exists tok, jwt_Parse ks now (TrimPrefix hdr "Bearer ") = Some tok.
Proof.
  unfold requireBearerAuth. destruct (HasPrefix hdr "Bearer "); cbn; [|naive_solver].
  destruct (jwt_Parse _ _ _); naive_solver.
Qed.
End ApiCommon.
