(* ===== verification/IdAgent.v ===== *)
(** The agent identity provider ([pkg/identity/agent/provider.go]) and its HTTP handler
    ([pkg/api/agent_identity.go]): verifiable identities for AI agents, and how the exchange engine reads the
    tokens it mints. *)
From Stdlib Require Import ZArith QArith Lia Ascii.
From stdpp Require Import base gmap strings list.
From S2P Require Import Prelude.
From S2P Require Import GoLib.
From S2P Require Import JwtModel.
From S2P Require Import ApiCommon.
From S2P Require Import Core.
From S2P Require Import DPoP.
From S2P Require Import Delegation.
From S2P Require Import IdCommon.

#[local] Open Scope string_scope.
#[local] Open Scope list_scope.
#[local] Open Scope Z_scope.

Module IdAgent.
Import Identity.

(** [core.AgentIdentityRequest] and [core.AgentIdentity] *)
Record AgentIdentityRequest : Type := {
  AgentName : string; Platform : string; Capabilities : list string; ar_OnBehalfOf : string;
  ar_MaxBlastRadius : string; ar_Metadata : gmap string string; ar_DelegationDepth : Z;
}.
Record AgentIdentity : Type := { ai_WorkloadID : string; ai_SpiffeID : string; ai_Token : string; ai_ExpiresAt : Time }.

Inductive AgentErr : Type :=
| ErrMissingAgentName
| ErrInvalidPlatform (got : string)
| ErrEmptyCapabilities
| ErrInvalidIdentityID (id : string)
| ErrBuilding
| ErrSetting (claim : string)
| ErrSigning
| ErrFlash (why : string).

(** [validPlatforms] *)
Definition validPlatforms : gmap string string :=
  {[ "mcp" := "mcp-client"; "a2a" := "a2a-passport"; "watsonx" := "watsonx-iam"; "custom" := "custom-agent" ]}.

(** [validateRequest] *)
Definition validateRequest (req : AgentIdentityRequest) : result AgentErr unit :=
  let? _ := reject (AgentName req =? "")%string ErrMissingAgentName in
  let? _ := reject (negb (bool_decide (is_Some (validPlatforms !! Platform req)))) (ErrInvalidPlatform (Platform req)) in
  reject (match Capabilities req with [] => true | _ => false end) ErrEmptyCapabilities.

(** What the provider does besides returning: audit records and signals. *)
Inductive AgEffect : Type :=
| AgAudit (ev : AuditEvent AgentErr)
| AgFlash (sig : Signal).
Definition Trace : Type := list AgEffect.

Section Provider.
Context `{!JwtLib}.

(** [Provider]; [auditor] tells whether one is set, [syncBus] is the outcome of its [Flash]. *)
Record Provider : Type := {
  trustDomains : gmap string TrustDomain;
  auditor : bool;
  syncBus : option (Signal -> option string);
  signKey : jwk_key;
  issuer : string;
  ttl : Duration;
  devMode : bool;
}.

(** The options and [NewProvider]; [generated] is the outcome of [rsa.GenerateKey]. *)
Inductive Option : Type :=
| WithTrustDomains (domains : list TrustDomain)
| WithAuditor
| WithSyncBus (bus : Signal -> option string)
| WithDevMode (dev : bool)
| WithTTL (d : Duration)
| WithIssuer (iss : string).
Definition applyOption (p : Provider) (o : Option) : Provider :=
  {| trustDomains := match o with WithTrustDomains ds => domainsBy ct_Name (fun _ => true) ds (trustDomains p) | _ => trustDomains p end;
     auditor := match o with WithAuditor => true | _ => auditor p end;
     syncBus := match o with WithSyncBus b => Some b | _ => syncBus p end;
     signKey := signKey p;
     issuer := match o with WithIssuer i => i | _ => issuer p end;
     ttl := match o with WithTTL d => d | _ => ttl p end;
     devMode := match o with WithDevMode b => b | _ => devMode p end |}.
Inductive NewErr : Type := GeneratingKey | ImportingKey | SettingKid | SettingAlg.
Definition NewProvider (generated : option crypto_Signer) (opts : list Option) : result NewErr Provider :=
  match generated with
  | None => Err GeneratingKey
  | Some priv =>
  match jwk_Import priv with
  | None => Err ImportingKey
  | Some k0 =>
  match jwk_Set k0 "kid" "starfly-agent-dev-1" with
  | None => Err SettingKid
  | Some k1 =>
  match jwk_Set k1 "alg" "RS256" with
  | None => Err SettingAlg
  | Some key =>
      Ok (foldl applyOption {| trustDomains := ∅; auditor := false; syncBus := None; signKey := key; issuer := "starfly";
                               ttl := 5 * Minute; devMode := false |} opts)
  end end end end.

(** [resolveTrustDomain]: the hint when it is configured, or else the domain the map yields first *)
Definition resolveTrustDomain `{!RangeOrder} (p : Provider) (req : AgentIdentityRequest) : string :=
  if devMode p then "dev.local" else
  let fallback := match range_keys (trustDomains p) with name :: _ => name | [] => "dev.local" end in
  match ar_Metadata req !! "trust_domain" with
  | Some td => if negb (td =? "")%string && bool_decide (is_Some (trustDomains p !! td)) then td else fallback
  | None => fallback
  end.

(** The private claims of an agent token, in the order they are set *)
Definition agentClaims (req : AgentIdentityRequest) (td : string) : list (string * value) :=
  [("td", VStr td); ("agent_platform", VStr (Platform req)); ("caps", VArr (VStr <$> Capabilities req))] ++
  (if (ar_MaxBlastRadius req =? "")%string then [] else [("blast_radius", VStr (ar_MaxBlastRadius req))]) ++
  (if (ar_OnBehalfOf req =? "")%string then [] else [("obo", VStr (ar_OnBehalfOf req))]) ++
  (if 0 <? ar_DelegationDepth req then [("delegation_depth", VInt (ar_DelegationDepth req))] else []).
Fixpoint setClaims (t : jwt_token) (l : list (string * value)) : result AgentErr jwt_token :=
  match l with
  | [] => Ok t
  | (n, v) :: l' => match jwt_Set t n v with Some t' => setClaims t' l' | None => Err (ErrSetting n) end
  end.

(** [mintToken]; the builder sets no audience. *)
Definition mintToken (p : Provider) (sub : string) (req : AgentIdentityRequest) (td : string) (now exp : Time)
    : result AgentErr (jwt_token * string) :=
  match jwt_Build sub (issuer p) [] now exp with
  | None => Err ErrBuilding
  | Some t0 =>
      let? t := setClaims t0 (agentClaims req td) in
      match jwt_Sign (signKey p) t with
      | None => Err ErrSigning
      | Some s => Ok (t, s)
      end
  end.

Definition record (p : Provider) (ev : AuditEvent AgentErr) : M Trace AgentErr unit := fun tr =>
  (if auditor p then tr ++ [AgAudit ev] else tr, Ok tt).

(** The identifier of an agent: [wimse://<td>/agent/<platform>/<name>] *)
Definition agentURI (td : string) (req : AgentIdentityRequest) : string :=
  wimseURI td "agent" (Platform req +:+ "/" +:+ AgentName req).

(** [IssueAgentIdentity] at a time *)
Definition IssueAgentIdentity `{!RangeOrder} (p : Provider) (now : Time) (req : AgentIdentityRequest)
    : M Trace AgentErr AgentIdentity :=
  do _ <- st_lift (validateRequest req) ;;
  let td := resolveTrustDomain p req in
  let uri := agentURI td req in
  let exp := now + ttl p in
  do ts <- st_lift (mintToken p uri req td now exp) ;;
  do _ <- record p {| au_Type := "identity"; au_Action := "agent_identity_issued"; au_Subject := uri; au_Target := Platform req;
                      au_Decision := "allowed"; au_Reason := RText "";
                      au_Metadata := <["agent_name" := VStr (AgentName req)]> (<["platform" := VStr (Platform req)]>
                        (<["capabilities" := VArr (VStr <$> Capabilities req)]>
                        (<["delegation_depth" := VInt (ar_DelegationDepth req)]> (<["trust_domain" := VStr td]> ∅))));
                      au_UnitID := "" |} ;;
  st_ret {| ai_WorkloadID := uri; ai_SpiffeID := ""; ai_Token := ts.2; ai_ExpiresAt := exp |}.

(** [RevokeIdentity] *)
Definition revokedSignal (identityID : string) : Signal :=
  {| sig_Type := "identity_event"; sig_Source := ""; sig_Timestamp := 0;
     sig_Payload := <["action" := VStr "revoked"]> (<["identity_id" := VStr identityID]> ∅) |}.
Definition RevokeIdentity (p : Provider) (identityID : string) : M Trace AgentErr unit :=
  do _ <- st_lift (reject (negb (HasPrefix identityID "wimse://")) (ErrInvalidIdentityID identityID)) ;;
  do _ <- record p {| au_Type := "identity"; au_Action := "agent_identity_revoked"; au_Subject := identityID; au_Target := "";
                      au_Decision := ""; au_Reason := RText ""; au_Metadata := ∅; au_UnitID := "" |} ;;
  match syncBus p with
  | None => st_ret tt
  | Some flash => fun tr =>
      (tr ++ [AgFlash (revokedSignal identityID)],
       match flash (revokedSignal identityID) with Some why => Err (ErrFlash why) | None => Ok tt end)
  end.

(** The answer of a handler: a body, or a status and an error code *)
Inductive Answer : Type := AnsOk (id : AgentIdentity) | AnsErr (status : Z) (code : string).
Definition agentErrorAnswer (e : AgentErr) : Answer :=
  match e with
  | ErrMissingAgentName | ErrInvalidPlatform _ | ErrEmptyCapabilities => AnsErr 400 "invalid_request"
  | _ => AnsErr 500 "server_error"
  end.
(** The answer to a refused bearer token. *)
Definition bearerAnswer (r : ApiCommon.BearerRefusal) : Answer :=
  match ApiCommon.bearerReply (A:=unit) r with
  | ApiCommon.ErrorReply st b => AnsErr st (ApiCommon.Error_ b)
  | ApiCommon.Reply st _ => AnsErr st ""
  end.
(** [handleAgentIdentity] *)
Definition handleAgentIdentity `{!RangeOrder} (decode : string -> option AgentIdentityRequest)
    (jwks : option (option (list jwk_key))) (authHeader : string)
    (p : option Provider) (now : Time) (body : string) (tr : Trace) : Trace * Answer :=
  match ApiCommon.requireBearerAuth jwks now authHeader with
  | Err refusal => (tr, bearerAnswer refusal)
  | Ok _ =>
  match p with
  | None => (tr, AnsErr 501 "not_implemented")
  | Some p =>
  match decode body with
  | None => (tr, AnsErr 400 "invalid_request")
  | Some req => match IssueAgentIdentity p now req tr with
                | (tr', Ok id) => (tr', AnsOk id)
                | (tr', Err e) => (tr', agentErrorAnswer e)
                end
  end end end.

(** * What an issued identity says *)

(** The claims after [setClaims]: the last one of a name wins, the registered ones stay. *)
Lemma agent_setClaims_ok `{!JwtLaws} l : forall t t',
  Forall (fun nv => nv.1 ∉ registered_claims) l -> NoDup l.*1 -> setClaims t l = Ok t' ->
  (jwt_Subject t' = jwt_Subject t /\ jwt_Issuer t' = jwt_Issuer t /\ jwt_IssuedAt t' = jwt_IssuedAt t /\
   jwt_Expiration t' = jwt_Expiration t) /\
  (forall n v, (n, v) ∈ l -> jwt_claim t' n = Some v) /\ (forall n, n ∉ l.*1 -> jwt_claim t' n = jwt_claim t n).
Proof.
  induction l as [|[n v] l IH]; intros t t' Hreg Hnd; cbn.
  { intros [= <-]. split; [done|]. split; [intros ? ? E%elem_of_nil; done|done]. }
  apply Forall_cons in Hreg as [Hn Hreg]. apply NoDup_cons in Hnd as [Hnl Hnd]. cbn in Hn, Hnl.
  destruct (jwt_Set t n v) as [t1|] eqn:Hset; [|done]. intros Hs. destruct (IH _ _ Hreg Hnd Hs) as ((-> & -> & -> & ->) & Hin & Hout).
  destruct (jwt_set_std _ _ _ _ Hn Hset) as (-> & -> & _ & -> & ->). split; [done|]. split.
  - intros n' v' [[= -> ->]|Hin']%elem_of_cons; [|by apply Hin]. rewrite Hout by done. by eapply jwt_claim_set_eq.
  - intros n' Hne. rewrite not_elem_of_cons in Hne. destruct Hne as [Hne1 Hne2]. rewrite Hout by done.
    by eapply jwt_claim_set_ne.
Qed.
Lemma agentClaims_names req td :
  Forall (fun nv => nv.1 ∉ registered_claims) (agentClaims req td) /\ NoDup (agentClaims req td).*1.
Proof.
  unfold agentClaims, registered_claims.
  destruct (ar_MaxBlastRadius req =? "")%string, (ar_OnBehalfOf req =? "")%string, (0 <? ar_DelegationDepth req); cbn;
    (split; [repeat constructor; cbn; set_solver|apply (bool_decide_unpack _); vm_compute; done]).
Qed.

(** What a minted token carries. *)
Lemma mintToken_ok `{!JwtLaws} p sub req td now exp t s :
  mintToken p sub req td now exp = Ok (t, s) ->
  jwt_Sign (signKey p) t = Some s /\ jwt_Subject t = Some sub /\ jwt_Issuer t = Some (issuer p) /\
  jwt_IssuedAt t = Some now /\ jwt_Expiration t = Some exp /\
  (forall n v, (n, v) ∈ agentClaims req td -> jwt_claim t n = Some v) /\
  (forall n, n ∉ registered_claims -> n ∉ (agentClaims req td).*1 -> jwt_claim t n = None).
Proof.
  unfold mintToken. destruct (jwt_Build _ _ _ _ _) as [t0|] eqn:Hb; [|done]. intros Hm. inv_ok.
  match goal with H : setClaims _ _ = Ok ?x |- _ => rename H into Hset; rename x into t1 end.
  destruct (jwt_Sign (signKey p) t1) as [sg|] eqn:Hs; [|done]. inv_ok.
  apply jwt_build_std in Hb as (Hsub & Hiss & _ & Hiat & Hexp & Hnone).
  destruct (agentClaims_names req td) as [Hreg Hnd].
  destruct (agent_setClaims_ok _ _ _ Hreg Hnd Hset) as ((E1 & E2 & E3 & E4) & Hin & Hout).
  split_and!; try congruence; [done|]. intros n Hn Hnn. rewrite Hout by done. by apply Hnone.
Qed.

Lemma strings_of_strings l : strings_of (VStr <$> l) = l.
Proof. induction l as [|c l IH]; [done|]. exact (f_equal (cons c) IH). Qed.

(** An identity is only issued for a well-formed request, in a configured trust domain (or [dev.local]
    without one), and its token is signed by the provider's key for that identity, expires with it and
    carries the requested capabilities; every issue is audited once. *)
Theorem agent_identity_sound `{!JwtLaws, !RangeOrder} p now req tr tr' id :
  IssueAgentIdentity p now req tr = (tr', Ok id) ->
  AgentName req <> "" /\ is_Some (validPlatforms !! Platform req) /\ Capabilities req <> [] /\
  exists td t, (td = "dev.local" \/ is_Some (trustDomains p !! td)) /\
    ai_WorkloadID id = wimseURI td "agent" (Platform req +:+ "/" +:+ AgentName req) /\
    ai_ExpiresAt id = now + ttl p /\
    jwt_Sign (signKey p) t = Some (ai_Token id) /\ jwt_Subject t = Some (ai_WorkloadID id) /\
    jwt_Expiration t = Some (ai_ExpiresAt id) /\ jwt_claim t "td" = Some (VStr td) /\
    jwt_claim t "caps" = Some (VArr (VStr <$> Capabilities req)) /\
    (if auditor p then exists ev, tr' = tr ++ [AgAudit ev] /\ au_Subject ev = ai_WorkloadID id else tr' = tr).
Proof.
  unfold IssueAgentIdentity. intros Hi. apply st_bind_ok in Hi as (s1 & u & Hval & Hi).
  apply st_bind_ok in Hi as (s2 & [t sg] & Hm & Hi). unfold st_lift in Hval, Hm. injection Hval as <- Hval. injection Hm as <- Hm.
  apply st_bind_ok in Hi as (s3 & u3 & Hrec & Hi). inv_ok. unfold validateRequest in Hval. inv_ok.
  apply mintToken_ok in Hm as (Hsg & Hsub & _ & _ & Hexp & Hcl & _).
  split_and!; [by apply String.eqb_neq|by eapply bool_decide_eq_true_1|by destruct (Capabilities req)|].
  exists (resolveTrustDomain p req), t. cbn [ai_WorkloadID ai_Token ai_ExpiresAt snd]. split_and!; try done.
  - unfold resolveTrustDomain. destruct (devMode p); [by left|].
    assert (Hfb : forall td, td = match range_keys (trustDomains p) with name :: _ => name | [] => "dev.local" end ->
      td = "dev.local" \/ is_Some (trustDomains p !! td)).
    { intros td ->. destruct (range_keys (trustDomains p)) as [|name l] eqn:Hr; [by left|]. right.
      apply elem_of_range_keys. rewrite Hr. by left. }
    destruct (ar_Metadata req !! "trust_domain") as [td|]; [|by apply Hfb].
    destruct (negb (td =? "")%string && bool_decide (is_Some (trustDomains p !! td))) eqn:Hc; [|by apply Hfb].
    right. apply andb_true_iff in Hc as [_ Hc]. by eapply bool_decide_eq_true_1.
  - apply Hcl. unfold agentClaims. apply elem_of_app. left. by left.
  - apply Hcl. unfold agentClaims. apply elem_of_app. left. by right; right; left.
  - unfold record in Hrec. injection Hrec as <-. destruct (auditor p); [by eexists|done].
Qed.

(** How the exchange engine reads an agent token: the capabilities and the blast radius are those that were
    requested, but the principal is lost (the claim is a text, the engine reads a list), and a depth of
    zero, documented as an agent that may not delegate further, is left out and read as no limit at all. *)
Theorem agent_token_read_back `{!JwtLaws} p sub req td now exp t s :
  mintToken p sub req td now exp = Ok (t, s) -> sub <> "" ->
  exists dc, Delegation.parseDelegationContext t = Ok dc /\
    Delegation.ParentSubject dc = sub /\ Delegation.Caps dc = Capabilities req /\
    Delegation.BlastRadius dc = ar_MaxBlastRadius req /\ Delegation.OBOChain dc = [] /\
    Delegation.Depth dc = (if 0 <? ar_DelegationDepth req then ar_DelegationDepth req else -1) /\
    (ar_DelegationDepth req = 0 -> is_ok (Delegation.validateDelegation dc [] "") = true /\ Delegation.newDepth dc = -1).
Proof.
  intros (_ & Hsub & _ & _ & _ & Hcl & Hnone)%mintToken_ok Hne. unfold Delegation.parseDelegationContext. rewrite Hsub.
  rewrite (proj2 (String.eqb_neq sub "")) by done. eexists. split; [reflexivity|]. cbn [Delegation.ParentSubject Delegation.Caps Delegation.BlastRadius Delegation.OBOChain Delegation.Depth].
  assert (Hdepth : match get_float t "delegation_depth" with Some d => trunc d | None => -1 end =
    (if 0 <? ar_DelegationDepth req then ar_DelegationDepth req else -1)).
  { unfold get_float. destruct (0 <? ar_DelegationDepth req) eqn:Hd.
    - rewrite (Hcl "delegation_depth" (VInt (ar_DelegationDepth req))); [apply trunc_int|].
      unfold agentClaims. rewrite Hd, !elem_of_app. right. right. right. by left.
    - rewrite Hnone; [done|unfold registered_claims; set_solver|]. unfold agentClaims. rewrite Hd.
      destruct (ar_MaxBlastRadius req =? "")%string, (ar_OnBehalfOf req =? "")%string; cbn; set_solver. }
  split_and!; [done| | | | |].
  - unfold get_array. rewrite (Hcl "caps" (VArr (VStr <$> Capabilities req))); [|unfold agentClaims; apply elem_of_app; left; by right; right; left].
    apply strings_of_strings.
  - unfold get_string. destruct (String.eqb_spec (ar_MaxBlastRadius req) "") as [Hbr|Hbr].
    + rewrite Hnone; [by rewrite Hbr|unfold registered_claims; set_solver|]. unfold agentClaims. rewrite Hbr.
      destruct (ar_OnBehalfOf req =? "")%string, (0 <? ar_DelegationDepth req); cbn; set_solver.
    + rewrite (Hcl "blast_radius" (VStr (ar_MaxBlastRadius req))); [done|]. unfold agentClaims.
      rewrite (proj2 (String.eqb_neq (ar_MaxBlastRadius req) "")) by done. rewrite !elem_of_app. right. left. by left.
  - unfold get_array. destruct (String.eqb_spec (ar_OnBehalfOf req) "") as [Hob|Hob].
    + rewrite Hnone; [done|unfold registered_claims; set_solver|]. unfold agentClaims. rewrite Hob.
      destruct (ar_MaxBlastRadius req =? "")%string, (0 <? ar_DelegationDepth req); cbn; set_solver.
    + rewrite (Hcl "obo" (VStr (ar_OnBehalfOf req))); [done|]. unfold agentClaims.
      rewrite (proj2 (String.eqb_neq (ar_OnBehalfOf req) "")) by done. rewrite !elem_of_app. right. right. left. by left.
  - exact Hdepth.
  - intros Hz. rewrite Hz in Hdepth. cbn [Z.ltb Z.compare] in Hdepth.
    unfold Delegation.validateDelegation, Delegation.newDepth. cbn [Delegation.Depth Delegation.Caps Delegation.BlastRadius]. rewrite Hdepth.
    cbn. destruct (match get_array t "caps" with Some caps => strings_of caps | None => [] end); cbn;
      by rewrite andb_false_r.
Qed.
End Provider.

(** * Examples *)

#[local] Existing Instance JwtModel.lib.
#[local] Existing Instance JwtModel.laws.
#[local] Existing Instance key_order.
Definition demo_domain : TrustDomain := {| ct_Name := "agents.example"; ct_Enabled := true; ct_JWKSURL := ""; ct_Issuer := "" |}.
Definition demo_provider : Provider :=
  {| trustDomains := {[ "agents.example" := demo_domain ]}; auditor := true; syncBus := None; signKey := "agent-key";
     issuer := "starfly"; ttl := 5 * Minute; devMode := false |}.
Definition demo_req (depth : Z) : AgentIdentityRequest :=
  {| AgentName := "planner"; Platform := "mcp"; Capabilities := ["read"; "plan"]; ar_OnBehalfOf := "alice";
     ar_MaxBlastRadius := "namespace:prod"; ar_Metadata := ∅; ar_DelegationDepth := depth |}.
Definition demo_issue : Trace * result AgentErr AgentIdentity := IssueAgentIdentity demo_provider 100 (demo_req 2) [].
Definition orElse {A} (r : result AgentErr A) (d : A) : A := match r with Ok a => a | Err _ => d end.
Lemma orElse_ok {A} (r : result AgentErr A) d : is_ok r = true -> r = Ok (orElse r d).
Proof. by destruct r. Qed.
Definition demo_id : AgentIdentity :=
  orElse demo_issue.2 {| ai_WorkloadID := ""; ai_SpiffeID := ""; ai_Token := ""; ai_ExpiresAt := 0 |}.
Lemma demo_issue_ok : demo_issue = (demo_issue.1, Ok demo_id).
Proof. unfold demo_id. rewrite <- orElse_ok by (vm_compute; reflexivity). by destruct demo_issue. Qed.
Lemma agent_identity_sound_witness :
  ai_WorkloadID demo_id = "wimse://agents.example/agent/mcp/planner" /\
  exists ev, demo_issue.1 = [AgAudit ev] /\ au_Subject ev = ai_WorkloadID demo_id.
Proof.
  split; [vm_compute; reflexivity|].
  destruct (agent_identity_sound demo_provider 100 (demo_req 2) [] demo_issue.1 demo_id demo_issue_ok)
    as (_ & _ & _ & td & t & _ & _ & _ & _ & _ & _ & _ & _ & Hev).
  exact Hev.
Defined.

Definition demo_mint : result AgentErr (jwt_token * string) :=
  mintToken demo_provider "wimse://agents.example/agent/mcp/planner" (demo_req 0) "agents.example" 100 400.
Definition demo_minted : jwt_token * string := orElse demo_mint (("", "", [], 0, 0, []), "").
Lemma demo_minted_ok :
  mintToken demo_provider "wimse://agents.example/agent/mcp/planner" (demo_req 0) "agents.example" 100 400 = Ok (demo_minted.1, demo_minted.2).
Proof.
  transitivity (Ok (E:=AgentErr) demo_minted); [apply (orElse_ok demo_mint); vm_compute; reflexivity|by destruct demo_minted].
Qed.
Lemma agent_token_read_back_witness :
  exists dc, Delegation.parseDelegationContext demo_minted.1 = Ok dc /\ Delegation.Caps dc = ["read"; "plan"] /\
    Delegation.OBOChain dc = [] /\ is_ok (Delegation.validateDelegation dc [] "") = true.
Proof.
  destruct (agent_token_read_back demo_provider "wimse://agents.example/agent/mcp/planner" (demo_req 0) "agents.example" 100 400
    demo_minted.1 demo_minted.2 demo_minted_ok) as (dc & Hdc & _ & Hcaps & _ & Hobo & _ & Hz); [discriminate|].
  exists dc. split; [exact Hdc|]. split; [exact Hcaps|]. split; [exact Hobo|]. exact (proj1 (Hz eq_refl)).
Defined.
End IdAgent.
