(* ===== verification/Secrets.v ===== *)
(** Secrets delivered with tokens ([pkg/secrets]): the registry of sources, the static and the
    Vault source, the store of encryption keys with the endpoint that fills it
    ([pkg/api/encryption_key.go]), the encryption of a bundle, and their composition with the
    exchange engine. *)
From Stdlib Require Import ZArith Lia.
From stdpp Require Import base gmap strings list.
From S2P Require Import Prelude.
From S2P Require Import GoLib.
From S2P Require Import JwtModel.
From S2P Require Import Core.
From S2P Require Import Execution.
From S2P Require Import Keyring.
From S2P Require Import DPoP.
From S2P Require Import Exchange.
From S2P Require Import ExchangeSpec.
From S2P Require Import ApiCommon.

#[local] Open Scope string_scope.
#[local] Open Scope list_scope.
#[local] Open Scope Z_scope.

Module Secrets.
Import Exchange ApiCommon.

(** [SecretBundle] *)
Record SecretBundle : Type := {
  sb_Claims : gmap string string;
  sb_TTL : Duration;
}.

Inductive SecretErr : Type :=
| UnknownSource (name : string)
| SourceUnavailable (name : string)
| FetchingFrom (name : string) (err : SecretErr)
| PathNotFound (path : string)
| SecretKeyNotFound (key path : string)
| SecretNotString (key path : string)
| VaultAuth (err : SecretErr)
| UnsupportedAuthMethod (method : string)
| NoTokenFunc
| VaultLogin (err : string)
| LoginNoAuth
| ReadingVault (path err : string)
| VaultNoData (path : string)
| WorkloadIDRequired
| KeyRequired
| NoEncryptionKey (workloadID : string)
| EmptyBundle
| MarshalingClaims
| EncryptingBundle
| DecryptingBundle
| UnmarshalingClaims
| ReadStatic (path err : string)
| ParseStatic (path : string).

(** The claim name of a reference: its alias, or its key. *)
Definition aliasOf (ref : SecretRef) : string :=
  if (sr_Alias ref =? "")%string then sr_Key ref else sr_Alias ref.

(** * Sources and their registry

    A source runs on a state [St] it may change (the Vault client keeps a token). *)

Record SecretSource (St : Type) : Type := {
  src_Name : string;
  src_Available : St -> bool;
  src_Fetch : list SecretRef -> M St SecretErr SecretBundle;
}.
Arguments src_Name {St} s.
Arguments src_Available {St} s w.
Arguments src_Fetch {St} s refs.

Section Registry.
Context {St : Type}.

(** [Registry]: the map of sources. *)
Abbreviation Registry := (gmap string (SecretSource St)).

Definition NewRegistry : Registry := ∅.

Definition Register (source : SecretSource St) (r : Registry) : Registry :=
  <[src_Name source := source]> r.

(** The references of each source, in the order they were given. *)
Definition grouped (refs : list SecretRef) : gmap string (list SecretRef) :=
  foldl (fun g ref => <[sr_Source ref := default [] (g !! sr_Source ref) ++ [ref]]> g) ∅ refs.

Context `{!RangeOrder}.

(** [for k, v := range bundle.Claims { merged.Claims[k] = v }] *)
Definition mergeClaims (merged claims : gmap string string) : gmap string string :=
  foldl (fun m kv => <[kv.1 := kv.2]> m) merged (range claims).

(** One iteration of the loop over the sources, for the bundle it fetched. *)
Definition mergeBundle (merged bundle : SecretBundle) : SecretBundle :=
  {| sb_Claims := mergeClaims (sb_Claims merged) (sb_Claims bundle);
     sb_TTL := if (0 <? sb_TTL bundle)
                    && ((sb_TTL merged =? 0) || (sb_TTL bundle <? sb_TTL merged))
               then sb_TTL bundle else sb_TTL merged |}.

Definition fetchFrom (r : Registry) (srcName : string) (srcRefs : list SecretRef)
    : M St SecretErr SecretBundle := fun w =>
  match r !! srcName with
  | None => (w, Err (UnknownSource srcName))
  | Some src =>
      if negb (src_Available src w) then (w, Err (SourceUnavailable srcName)) else
      match src_Fetch src srcRefs w with
      | (w', Err err) => (w', Err (FetchingFrom srcName err))
      | (w', Ok bundle) => (w', Ok bundle)
      end
  end.

Fixpoint fetchAll (r : Registry) (groups : list (string * list SecretRef)) (merged : SecretBundle)
    : M St SecretErr SecretBundle :=
  match groups with
  | [] => st_ret merged
  | (srcName, srcRefs) :: groups' =>
      do bundle <- fetchFrom r srcName srcRefs ;;
      fetchAll r groups' (mergeBundle merged bundle)
  end.

(** [Registry.Fetch] *)
Definition Fetch (r : Registry) (refs : list SecretRef) : M St SecretErr SecretBundle :=
  fetchAll r (range (grouped refs)) {| sb_Claims := ∅; sb_TTL := 0 |}.

(** [Registry.Available] and [Sources] *)
Definition Available (r : Registry) (sourceName : string) (w : St) : bool :=
  match r !! sourceName with None => false | Some src => src_Available src w end.
Definition Sources (r : Registry) : list string := range_keys r.

(** ** What the registry fetches *)

Lemma grouped_lookup refs n :
  default [] (grouped refs !! n) = filter (fun ref => sr_Source ref = n) refs.
Proof.
  unfold grouped. induction refs as [|ref refs IH] using rev_ind; [done|].
  rewrite foldl_app, filter_app. destruct (decide (sr_Source ref = n)) as [<-|Hne].
  - rewrite filter_cons_True, filter_nil by done. cbn. by rewrite lookup_insert_eq, IH.
  - rewrite filter_cons_False, filter_nil, app_nil_r by done. cbn. by rewrite lookup_insert_ne, IH.
Qed.

Lemma grouped_is_Some refs n :
  is_Some (grouped refs !! n) <-> exists ref, ref ∈ refs /\ sr_Source ref = n.
Proof.
  unfold grouped. induction refs as [|ref refs IH] using rev_ind.
  { cbn. rewrite lookup_empty. split; [by intros []|set_solver]. }
  rewrite foldl_app. cbn. destruct (decide (sr_Source ref = n)) as [<-|Hne].
  - rewrite lookup_insert_eq. split; [|done]. intros _. exists ref. set_solver.
  - rewrite lookup_insert_ne by done. rewrite IH. set_solver.
Qed.

Lemma grouped_Some refs n l :
  grouped refs !! n = Some l ->
  l = filter (fun ref => sr_Source ref = n) refs /\ exists ref, ref ∈ refs /\ sr_Source ref = n.
Proof.
  intros Hg. split; [by rewrite <- grouped_lookup, Hg|]. apply grouped_is_Some. eauto.
Qed.

Lemma mergeClaims_union m c : mergeClaims m c = c ∪ m.
Proof.
  unfold mergeClaims.
  assert (Hl : forall l m0, NoDup l.*1 ->
    foldl (fun m kv => <[kv.1 := kv.2]> m) m0 l = (list_to_map l : gmap string string) ∪ m0).
  { induction l as [|[k v] l IH]; intros m0 Hn; cbn; [by rewrite (left_id_L ∅ _)|].
    apply NoDup_cons in Hn as [Hk Hn]. rewrite IH by done. rewrite <- insert_union_l.
    rewrite <- insert_union_r; [done|]. by apply not_elem_of_list_to_map_1. }
  rewrite Hl by apply NoDup_range_keys. f_equal.
  rewrite (list_to_map_proper (range c) (map_to_list c)); [apply list_to_map_to_list| |apply range_perm].
  apply NoDup_range_keys.
Qed.

(** The bundles a successful fetch merged, one per source in iteration order. *)
Definition fetched (r : Registry) (g : string * list SecretRef) (bundle : SecretBundle) : Prop :=
  exists src w w', r !! g.1 = Some src /\ src_Available src w = true /\
    src_Fetch src g.2 w = (w', Ok bundle).

Lemma fetchFrom_ok r n refs w w' bundle :
  fetchFrom r n refs w = (w', Ok bundle) -> fetched r (n, refs) bundle.
Proof.
  unfold fetchFrom, fetched. cbn. destruct (r !! n) as [src|]; [|done].
  destruct (src_Available src w) eqn:Ha; [|done]. cbn.
  destruct (src_Fetch src refs w) as [w1 [b1|]] eqn:Hf; [|done]. intros [= <- <-]. eauto 10.
Qed.

Lemma fetchAll_ok r gs merged w w' b :
  fetchAll r gs merged w = (w', Ok b) ->
  exists bundles, Forall2 (fetched r) gs bundles /\ b = foldl mergeBundle merged bundles.
Proof.
  revert merged w. induction gs as [|[n refs] gs IH]; intros merged w; cbn.
  { intros [= <- <-]. exists []. by split. }
  intros (w1 & b1 & H1%fetchFrom_ok & H2)%st_bind_ok.
  destruct (IH _ _ H2) as (bs & Hbs & ->). exists (b1 :: bs). by split; [constructor|].
Qed.

Lemma merged_claim bundles merged k v :
  sb_Claims (foldl mergeBundle merged bundles) !! k = Some v ->
  sb_Claims merged !! k = Some v \/ exists b, b ∈ bundles /\ sb_Claims b !! k = Some v.
Proof.
  revert merged. induction bundles as [|b bundles IH]; intros merged; cbn; [by left|].
  intros [Hm|(b' & Hb & Hk)]%IH; [|set_solver]. cbn in Hm. rewrite mergeClaims_union in Hm.
  apply lookup_union_Some_raw in Hm as [Hm|[_ Hm]]; [right|by left]. exists b. set_solver.
Qed.

Lemma merged_keeps bundles merged k :
  is_Some (sb_Claims merged !! k) \/ (exists b, b ∈ bundles /\ is_Some (sb_Claims b !! k)) ->
  is_Some (sb_Claims (foldl mergeBundle merged bundles) !! k).
Proof.
  revert merged. induction bundles as [|b bundles IH]; intros merged; cbn.
  { intros [?|(b & Hb & _)]; [done|]. by apply not_elem_of_nil in Hb. }
  intros Hk. apply IH. cbn. rewrite mergeClaims_union, lookup_union_is_Some.
  destruct Hk as [Hk|(b' & [->|Hb]%elem_of_cons & Hk)]; eauto.
Qed.

(** The shortest positive lifetime of the merged bundles, or zero. *)
Lemma merged_ttl bundles merged :
  0 <= sb_TTL merged ->
  let t := sb_TTL (foldl mergeBundle merged bundles) in
  0 <= t /\ (0 < sb_TTL merged -> 0 < t <= sb_TTL merged) /\
  (forall b, b ∈ bundles -> 0 < sb_TTL b -> 0 < t <= sb_TTL b).
Proof.
  revert merged. induction bundles as [|b bundles IH]; intros merged Hm; cbn.
  { split_and!; [done|lia|]. intros b Hb. by apply not_elem_of_nil in Hb. }
  pose proof (IH (mergeBundle merged b)) as Hi. cbn in Hi.
  revert Hi. destruct (Z.ltb_spec 0 (sb_TTL b)), (Z.eqb_spec (sb_TTL merged) 0),
    (Z.ltb_spec (sb_TTL b) (sb_TTL merged)); cbn; intros Hi;
    (destruct Hi as (? & ? & Ha); [lia|]; split_and!;
     [lia|lia|intros b' [->|Hb]%elem_of_cons ?; [lia|by apply Ha]]).
Qed.

(** What a successful fetch returns: every source named by a reference is registered, available
    and was asked for exactly its references in order; each claim comes from one of the answers
    and every answered claim is there; the lifetime does not exceed a positive lifetime of an
    answer. *)
Lemma registry_fetch_ok r refs w w' b :
  Fetch r refs w = (w', Ok b) ->
  exists answers : list (string * SecretBundle),
    (forall n, n ∈ answers.*1 <-> exists ref, ref ∈ refs /\ sr_Source ref = n) /\
    (forall n a, (n, a) ∈ answers ->
       fetched r (n, filter (fun ref => sr_Source ref = n) refs) a /\
       (0 < sb_TTL a -> 0 < sb_TTL b <= sb_TTL a)) /\
    (forall k v, sb_Claims b !! k = Some v ->
       exists n a, (n, a) ∈ answers /\ sb_Claims a !! k = Some v) /\
    (forall n a k, (n, a) ∈ answers -> is_Some (sb_Claims a !! k) -> is_Some (sb_Claims b !! k)).
Proof.
  intros (bs & Hbs & ->)%fetchAll_ok.
  exists (zip (range_keys (grouped refs)) bs).
  assert (Hlen : length (range_keys (grouped refs)) = length bs).
  { unfold range_keys. rewrite length_fmap. by eapply Forall2_length. }
  assert (Hin : forall n a, (n, a) ∈ zip (range_keys (grouped refs)) bs -> a ∈ bs).
  { intros n a Hz. by apply elem_of_zip_r in Hz. }
  split_and!.
  - intros n. rewrite fst_zip by lia. rewrite elem_of_range_keys. apply grouped_is_Some.
  - intros n a Hz. split.
    + apply list_elem_of_lookup in Hz as [i Hi]. apply lookup_zip_Some in Hi as [Hk Ha].
      unfold range_keys in Hk. rewrite list_lookup_fmap in Hk.
      destruct (range (grouped refs) !! i) as [[n' l]|] eqn:Hr; [|done]. injection Hk as <-.
      assert (Hf : fetched r (n', l) a) by (eapply Forall2_lookup_lr; eauto).
      apply list_elem_of_lookup_2, elem_of_range, grouped_Some in Hr as [-> _]. exact Hf.
    + apply merged_ttl; [cbn; lia|]. eauto.
  - intros k v [Hk|(a & Ha & Hk)]%merged_claim; [cbn in Hk; by rewrite lookup_empty in Hk|].
    apply list_elem_of_lookup in Ha as [i Hi].
    destruct (lookup_lt_is_Some_2 (range_keys (grouped refs)) i) as [n Hn];
      [rewrite Hlen; by eapply lookup_lt_Some|].
    exists n, a. split; [|done]. apply list_elem_of_lookup. exists i. by apply lookup_zip_Some.
  - intros n a k Hz Hk. apply merged_keeps. eauto.
Qed.
End Registry.

(** * The static source *)

(** [StaticConfig] and [StaticSource]: a nil map of the configuration is the empty one. *)
Record StaticConfig : Type := {
  sc_Secrets : gmap string (gmap string string);
  sc_TTL : Duration;
}.

Record StaticSource : Type := {
  ss_secrets : gmap string (gmap string string);
  ss_ttl : Duration;
}.

(** [NewStaticSource] *)
Definition NewStaticSource (cfg : StaticConfig) : StaticSource :=
  {| ss_secrets := sc_Secrets cfg;
     ss_ttl := if sc_TTL cfg =? 0 then 5 * Minute else sc_TTL cfg |}.

(** The value a reference names. *)
Definition staticValue (s : StaticSource) (ref : SecretRef) : result SecretErr string :=
  match ss_secrets s !! sr_Path ref with
  | None => Err (PathNotFound (sr_Path ref))
  | Some pathData =>
      match pathData !! sr_Key ref with
      | None => Err (SecretKeyNotFound (sr_Key ref) (sr_Path ref))
      | Some val => Ok val
      end
  end.

Fixpoint staticLoop (s : StaticSource) (refs : list SecretRef) (claims : gmap string string)
    : result SecretErr (gmap string string) :=
  match refs with
  | [] => Ok claims
  | ref :: refs' =>
      let? val := staticValue s ref in
      staticLoop s refs' (<[aliasOf ref := val]> claims)
  end.

(** [StaticSource.Fetch] *)
Definition staticFetch (s : StaticSource) (refs : list SecretRef) : result SecretErr SecretBundle :=
  let? claims := staticLoop s refs ∅ in
  Ok {| sb_Claims := claims; sb_TTL := ss_ttl s |}.

(** The [SecretSource] a static source is. *)
Definition staticSource (St : Type) (s : StaticSource) : SecretSource St :=
  {| src_Name := "static"; src_Available := fun _ => true;
     src_Fetch := fun refs => st_lift (staticFetch s refs) |}.

(** [RegistryFromOptionalFile]; the file system and the YAML parser are arguments: [None] is a
    file that does not exist. *)
Definition RegistryFromOptionalFile (St : Type)
    (ReadFile : string -> option (result string string))
    (yaml_Unmarshal : string -> option StaticConfig) (path : string)
    : result SecretErr (option (gmap string (SecretSource St))) :=
  if (path =? "")%string then Ok None else
  match ReadFile path with
  | None => Ok None
  | Some (Err err) => Err (ReadStatic path err)
  | Some (Ok b) =>
      match yaml_Unmarshal b with
      | None => Err (ParseStatic path)
      | Some cfg => Ok (Some (Register (staticSource St (NewStaticSource cfg)) NewRegistry))
      end
  end.

(** The value an alias has in a list of references: that of the last one with this alias. *)
Fixpoint aliasValue (s : StaticSource) (refs : list SecretRef) (k : string) : option string :=
  match refs with
  | [] => None
  | ref :: refs' =>
      match aliasValue s refs' k with
      | Some v => Some v
      | None => if (aliasOf ref =? k)%string
                then match staticValue s ref with Ok v => Some v | Err _ => None end else None
      end
  end.

Definition resolvable (s : StaticSource) (refs : list SecretRef) : bool :=
  forallb (fun ref => is_ok (staticValue s ref)) refs.

Lemma staticLoop_ok s refs claims :
  resolvable s refs = true ->
  exists c, staticLoop s refs claims = Ok c /\
    forall k, c !! k = match aliasValue s refs k with Some v => Some v | None => claims !! k end.
Proof.
  revert claims. induction refs as [|ref refs IH]; intros claims; cbn; [by exists claims|].
  destruct (staticValue s ref) as [v|] eqn:Hv; [|done]. cbn. intros Hr.
  destruct (IH (<[aliasOf ref:=v]> claims) Hr) as (c & Hc & Hk). exists c. split; [done|].
  intros k. rewrite Hk. destruct (aliasValue s refs k); [done|].
  destruct (String.eqb_spec (aliasOf ref) k) as [->|]; [by rewrite lookup_insert_eq|].
  by rewrite lookup_insert_ne.
Qed.

Lemma staticLoop_resolvable s refs claims c :
  staticLoop s refs claims = Ok c -> resolvable s refs = true.
Proof.
  revert claims. induction refs as [|ref refs IH]; intros claims; cbn; [done|].
  destruct (staticValue s ref); [|done]. cbn. apply IH.
Qed.

(** All or nothing: a static source answers exactly when every reference resolves, and then each
    alias has the value of the last reference with that alias and nothing else is there. *)
Lemma static_fetch_exact s refs b :
  staticFetch s refs = Ok b <->
  resolvable s refs = true /\ sb_TTL b = ss_ttl s /\
  forall k, sb_Claims b !! k = aliasValue s refs k.
Proof.
  unfold staticFetch. split.
  - intros (c & Hc & [= <-])%rbind_ok. cbn.
    pose proof (staticLoop_resolvable _ _ _ _ Hc) as Hr. split_and!; [done|done|].
    destruct (staticLoop_ok s refs ∅ Hr) as (c' & Hc' & Hk). intros k.
    rewrite Hc in Hc'. injection Hc' as <-. rewrite Hk, lookup_empty. by case_match.
  - intros (Hr & Ht & Hk). destruct (staticLoop_ok s refs ∅ Hr) as (c & -> & Hc). cbn.
    destruct b as [cl t]. cbn in *. f_equal. rewrite <- Ht. f_equal. apply map_eq. intros k.
    rewrite Hc, Hk, lookup_empty. by case_match.
Qed.

(** * The Vault source *)

(** [VaultConfig], less what only configures the client; [vc_JWTToken] is what [JWTTokenFunc]
    returns, [None] when it is nil. *)
Record VaultConfig : Type := {
  vc_AuthMethod : string;
  vc_JWTMount : string;
  vc_TLSMount : string;
  vc_Role : string;
  vc_TTL : Duration;
  vc_JWTToken : option string;
}.

Definition VaultAuthJWT : string := "jwt".
Definition VaultAuthTLS : string := "tls".

Section Vault.
(** The Vault client: the outcome of a login request ([None] without an auth section), of a
    health request, and of a read with a token ([None] without data). The state of the source is
    the client's token. *)
Variable login : string -> gmap string value -> result string (option string).
Variable health : result string (bool * bool).
Variable kvGet : string -> string -> result string (option (gmap string value)).

Definition vaultTTL (cfg : VaultConfig) : Duration :=
  if vc_TTL cfg =? 0 then 5 * Minute else vc_TTL cfg.

(** [VaultSource.Available]: initialized and not sealed. *)
Definition vaultAvailable : bool :=
  match health with
  | Err _ => false
  | Ok (initialized, sealed) => initialized && negb sealed
  end.

Definition loginWith (path : string) (data : gmap string value) : M string SecretErr unit := fun tok =>
  match login path data with
  | Err err => (tok, Err (VaultLogin err))
  | Ok None => (tok, Err LoginNoAuth)
  | Ok (Some clientToken) => (clientToken, Ok tt)
  end.

Definition authJWT (cfg : VaultConfig) : M string SecretErr unit :=
  match vc_JWTToken cfg with
  | None => st_fail NoTokenFunc
  | Some token =>
      let mount := if (vc_JWTMount cfg =? "")%string then "jwt" else vc_JWTMount cfg in
      loginWith ("auth/" +:+ mount +:+ "/login")
        (<["role" := VStr (vc_Role cfg)]> (<["jwt" := VStr token]> ∅))
  end.

Definition authTLS (cfg : VaultConfig) : M string SecretErr unit :=
  let mount := if (vc_TLSMount cfg =? "")%string then "cert" else vc_TLSMount cfg in
  loginWith ("auth/" +:+ mount +:+ "/login") {[ "name" := VStr (vc_Role cfg) ]}.

Definition ensureAuth (cfg : VaultConfig) : M string SecretErr unit := fun tok =>
  if str_nonempty tok then (tok, Ok tt)
  else if (vc_AuthMethod cfg =? VaultAuthJWT)%string then authJWT cfg tok
  else if (vc_AuthMethod cfg =? VaultAuthTLS)%string then authTLS cfg tok
  else (tok, Err (UnsupportedAuthMethod (vc_AuthMethod cfg))).

Definition vaultValue (tok : string) (ref : SecretRef) : result SecretErr string :=
  match kvGet tok (sr_Path ref) with
  | Err err => Err (ReadingVault (sr_Path ref) err)
  | Ok None => Err (VaultNoData (sr_Path ref))
  | Ok (Some data) =>
      match data !! sr_Key ref with
      | None => Err (SecretKeyNotFound (sr_Key ref) (sr_Path ref))
      | Some val =>
          match as_string val with
          | None => Err (SecretNotString (sr_Key ref) (sr_Path ref))
          | Some strVal => Ok strVal
          end
      end
  end.

Fixpoint vaultLoop (tok : string) (refs : list SecretRef) (claims : gmap string string)
    : result SecretErr (gmap string string) :=
  match refs with
  | [] => Ok claims
  | ref :: refs' =>
      let? val := vaultValue tok ref in
      vaultLoop tok refs' (<[aliasOf ref := val]> claims)
  end.

(** [VaultSource.Fetch] *)
Definition vaultFetch (cfg : VaultConfig) (refs : list SecretRef) : M string SecretErr SecretBundle :=
  fun tok =>
  match ensureAuth cfg tok with
  | (tok', Err err) => (tok', Err (VaultAuth err))
  | (tok', Ok _) =>
      (tok', let? claims := vaultLoop tok' refs ∅ in
             Ok {| sb_Claims := claims; sb_TTL := vaultTTL cfg |})
  end.

Definition vaultSource (cfg : VaultConfig) : SecretSource string :=
  {| src_Name := "vault"; src_Available := fun _ => vaultAvailable; src_Fetch := vaultFetch cfg |}.

(** A client that holds a token never logs in again, valid or not: once the service refuses the
    token for a path, every fetch of that path fails, and the token stays. *)
Lemma vault_never_reauthenticates cfg tok refs ref :
  tok <> "" -> ref ∈ refs -> (exists err, kvGet tok (sr_Path ref) = Err err) ->
  exists err, vaultFetch cfg refs tok = (tok, Err err).
Proof.
  intros Ht Hin [err He]. unfold vaultFetch, ensureAuth.
  rewrite (proj2 (str_nonempty_true tok) Ht).
  assert (Hl : forall claims, exists err', vaultLoop tok refs claims = Err err').
  { induction refs as [|r refs IH]; intros claims; [by apply not_elem_of_nil in Hin|]. cbn.
    destruct (vaultValue tok r) as [v|] eqn:Hv; cbn; [|eauto].
    apply elem_of_cons in Hin as [->|Hin]; [|by apply IH].
    unfold vaultValue in Hv. by rewrite He in Hv. }
  destruct (Hl ∅) as [err' ->]. cbn. eauto.
Qed.

(** The first fetch logs in once and keeps the token. *)
Lemma vault_first_fetch cfg refs tok' b :
  vaultFetch cfg refs "" = (tok', Ok b) ->
  (exists path data, login path data = Ok (Some tok') /\
     (vc_AuthMethod cfg = VaultAuthJWT \/ vc_AuthMethod cfg = VaultAuthTLS)) /\
  vaultLoop tok' refs ∅ = Ok (sb_Claims b) /\ sb_TTL b = vaultTTL cfg.
Proof.
  unfold vaultFetch, ensureAuth. cbn.
  assert (Hl : forall path data t, loginWith path data "" = (t, Ok tt) ->
    login path data = Ok (Some t)).
  { intros path data t. unfold loginWith. destruct (login path data) as [[c|]|]; naive_solver. }
  destruct (String.eqb_spec (vc_AuthMethod cfg) VaultAuthJWT) as [Hm|];
    [|destruct (String.eqb_spec (vc_AuthMethod cfg) VaultAuthTLS) as [Hm|]; [|done]].
  - unfold authJWT. destruct (vc_JWTToken cfg); [|done]. cbn.
    destruct (loginWith _ _ _) as [t [[]|]] eqn:Hw; [|done]. apply Hl in Hw.
    intros [= <- (c & Hc & [= <-])%rbind_ok]. eauto 10.
  - unfold authTLS. destruct (loginWith _ _ _) as [t [[]|]] eqn:Hw; [|done]. apply Hl in Hw.
    intros [= <- (c & Hc & [= <-])%rbind_ok]. eauto 10.
Qed.
End Vault.

(** * Encryption keys

    JWE and JSON are interfaces: what [jwe.Encrypt] and [jwe.Decrypt] return for the algorithms
    the sources name, the type and the curve of a key, [jwk.ParseKey]. *)

Class JweLib `{!JwtLib} : Type := {
  jwe_Encrypt : string -> jwk_key -> option string;
  jwe_Decrypt : string -> jwk_key -> option string;
  json_MarshalMap : gmap string string -> option string;
  json_UnmarshalMap : string -> option (gmap string string);
  jwk_KeyType : jwk_key -> string;
  jwk_Curve : jwk_key -> option string;
  jwk_ParseKey : string -> option jwk_key;
}.

(** Decryption with a private key inverts encryption to its public key, and a compact
    serialisation is not empty. *)
Class JweLaws `{!JwtLib, !JweLib} : Prop := {
  jwe_decrypt_encrypt : forall priv pub p c,
    jwk_PublicKey priv = Some pub -> jwe_Encrypt p pub = Some c -> jwe_Decrypt c priv = Some p;
  jwe_compact_nonempty : forall p k c, jwe_Encrypt p k = Some c -> c <> "";
}.

Section Keys.
Context `{!JwtLib, !JweLib}.

(** The JSON of a map reads back as that map, as it does for text in UTF-8. *)
Definition json_faithful (m : gmap string string) : Prop :=
  forall p, json_MarshalMap m = Some p -> json_UnmarshalMap p = Some m.

(** [EncryptSecretBundle] *)
Definition EncryptSecretBundle (claims : gmap string string) (recipientKey : jwk_key)
    : result SecretErr string :=
  if (size claims =? 0)%nat then Err EmptyBundle else
  match json_MarshalMap claims with
  | None => Err MarshalingClaims
  | Some plaintext =>
      match jwe_Encrypt plaintext recipientKey with
      | None => Err EncryptingBundle
      | Some encrypted => Ok encrypted
      end
  end.

(** [DecryptSecretBundle] *)
Definition DecryptSecretBundle (jweCompact : string) (privateKey : jwk_key)
    : result SecretErr (gmap string string) :=
  match jwe_Decrypt jweCompact privateKey with
  | None => Err DecryptingBundle
  | Some plaintext =>
      match json_UnmarshalMap plaintext with
      | None => Err UnmarshalingClaims
      | Some claims => Ok claims
      end
  end.

Lemma bundle_roundtrip `{!JweLaws} claims priv pub c :
  jwk_PublicKey priv = Some pub -> json_faithful claims ->
  EncryptSecretBundle claims pub = Ok c -> DecryptSecretBundle c priv = Ok claims /\ claims <> ∅.
Proof.
  unfold EncryptSecretBundle, DecryptSecretBundle. intros Hp Hj.
  destruct (Nat.eqb_spec (size claims) 0) as [|Hn]; [done|].
  destruct (json_MarshalMap claims) as [p|] eqn:Hm; [|done].
  destruct (jwe_Encrypt p pub) as [x|] eqn:Hx; [|done]. intros [= <-].
  rewrite (jwe_decrypt_encrypt _ _ _ _ Hp Hx), (Hj _ Hm). split; [done|].
  intros ->. by rewrite map_size_empty in Hn.
Qed.

(** [InMemoryKeyStore]; a nil key is [None]. *)
Abbreviation KeyStore := (gmap string jwk_key).
Definition NewInMemoryKeyStore : KeyStore := ∅.

Definition RegisterKey (workloadID : string) (key : option jwk_key) (st : KeyStore)
    : KeyStore * result SecretErr unit :=
  if (workloadID =? "")%string then (st, Err WorkloadIDRequired) else
  match key with
  | None => (st, Err KeyRequired)
  | Some k => (<[workloadID := k]> st, Ok tt)
  end.

Definition GetKey (st : KeyStore) (workloadID : string) : result SecretErr jwk_key :=
  match st !! workloadID with
  | None => Err (NoEncryptionKey workloadID)
  | Some key => Ok key
  end.

(** [validateEncryptionJWK] *)
Inductive JWKErr : Type :=
| MissingCrv (kty : string)
| UnsupportedCurve (kty crv : string)
| UnsupportedKeyType (kty : string).

Definition checkCurve (kty : string) (allowed : list string) (key : jwk_key) : result JWKErr unit :=
  match jwk_Curve key with
  | None => Err (MissingCrv kty)
  | Some crv =>
      if (crv =? "")%string then Err (MissingCrv kty)
      else if str_mem crv allowed then Ok tt else Err (UnsupportedCurve kty crv)
  end.

Definition ecCurves : list string := ["P-256"; "P-384"; "P-521"].
Definition okpCurves : list string := ["X25519"; "Ed25519"].

Definition validateEncryptionJWK (key : jwk_key) : result JWKErr unit :=
  if (jwk_KeyType key =? "EC")%string then checkCurve "EC" ecCurves key
  else if (jwk_KeyType key =? "OKP")%string then checkCurve "OKP" okpCurves key
  else Err (UnsupportedKeyType (jwk_KeyType key)).

Lemma checkCurve_ok kty allowed key :
  checkCurve kty allowed key = Ok tt <-> exists c, jwk_Curve key = Some c /\ c <> "" /\ c ∈ allowed.
Proof.
  unfold checkCurve. destruct (jwk_Curve key) as [c|]; [|naive_solver].
  destruct (String.eqb_spec c "") as [->|Hc]; [naive_solver|].
  destruct (str_mem c allowed) eqn:Hm.
  - apply str_mem_true in Hm. naive_solver.
  - split; [done|]. intros (? & [= <-] & _ & Hin). apply str_mem_true in Hin. congruence.
Qed.

(** Validation looks at the type and the curve of a key and at nothing else: a private key, which
    has the type and the curve of its public key, is accepted like it. *)
Lemma private_key_accepted priv pub :
  jwk_KeyType priv = jwk_KeyType pub -> jwk_Curve priv = jwk_Curve pub ->
  validateEncryptionJWK priv = validateEncryptionJWK pub.
Proof. unfold validateEncryptionJWK, checkCurve. intros -> ->. done. Qed.

(** ** The registration endpoint *)

Inductive KeyResponse : Type :=
| StoreNotConfigured
| BadAuthHeader
| JwksNotConfigured
| KeySetError
| InvalidToken
| NoSubject
| InvalidBody
| InvalidJWK (err : option JWKErr)
| RegistrationFailed (err : SecretErr)
| KeyRegistered.

Definition keyStatus (r : KeyResponse) : Z :=
  match r with
  | StoreNotConfigured => 503
  | BadAuthHeader | InvalidToken | NoSubject => 401
  | JwksNotConfigured | KeySetError | RegistrationFailed _ => 500
  | InvalidBody | InvalidJWK _ => 400
  | KeyRegistered => 200
  end.

(** [handleEncryptionKeyRegister]: [store] and [jwks] are [None] when the server has none, [jwks]
    is [Some None] when the key set cannot be built; [publicKey] is the raw key of the decoded
    body, [None] when the body does not decode. *)
Definition handleEncryptionKeyRegister (store : option KeyStore)
    (jwks : option (option (list jwk_key))) (now : Time) (authHeader : string)
    (publicKey : option string) : option KeyStore * KeyResponse :=
  match store with
  | None => (None, StoreNotConfigured)
  | Some st =>
      if negb (HasPrefix authHeader "Bearer ") then (Some st, BadAuthHeader) else
      match jwks with
      | None => (Some st, JwksNotConfigured)
      | Some None => (Some st, KeySetError)
      | Some (Some keySet) =>
          match jwt_Parse keySet now (TrimPrefix authHeader "Bearer ") with
          | None => (Some st, InvalidToken)
          | Some token =>
              match jwt_Subject token with
              | None => (Some st, NoSubject)
              | Some subject =>
                  if (subject =? "")%string then (Some st, NoSubject) else
                  match publicKey with
                  | None => (Some st, InvalidBody)
                  | Some raw =>
                      match jwk_ParseKey raw with
                      | None => (Some st, InvalidJWK None)
                      | Some key =>
                          match validateEncryptionJWK key with
                          | Err err => (Some st, InvalidJWK (Some err))
                          | Ok _ =>
                              match RegisterKey subject (Some key) st with
                              | (st', Err err) => (Some st', RegistrationFailed err)
                              | (st', Ok _) => (Some st', KeyRegistered)
                              end
                          end
                      end
                  end
              end
          end
      end
  end.

(** The endpoint changes the store only for the subject of a token that verifies under the
    server's keys, to the validated key of the request; every other answer leaves the store. *)
Lemma registration_exact st jwks now hdr publicKey st' r :
  handleEncryptionKeyRegister (Some st) jwks now hdr publicKey = (st', r) ->
  (r <> KeyRegistered /\ st' = Some st) \/
  (r = KeyRegistered /\ exists ks token subject raw key,
     jwks = Some (Some ks) /\ HasPrefix hdr "Bearer " = true /\
     jwt_Parse ks now (TrimPrefix hdr "Bearer ") = Some token /\
     jwt_Subject token = Some subject /\ subject <> "" /\
     publicKey = Some raw /\ jwk_ParseKey raw = Some key /\ validateEncryptionJWK key = Ok tt /\
     st' = Some (<[subject := key]> st)).
Proof.
  unfold handleEncryptionKeyRegister, RegisterKey. intros Hh.
  repeat (case_match; simplify_eq/=; try (left; by split)).
  right. split; [done|]. repeat match goal with u : unit |- _ => destruct u end.
  destruct (HasPrefix hdr "Bearer ") eqn:Hp; [|done].
  repeat match goal with Hs : (?x =? "")%string = false |- _ => apply String.eqb_neq in Hs end.
  do 5 eexists. split_and!; done.
Qed.
End Keys.

(** * Delivery with the engine *)

Section Delivery.
Context `{!JwtLib, !JwsLib, !JweLib, !RangeOrder}.
Variable clock : nat -> Time.
(** The text of an error; the engine only logs it. *)
Variable errText : SecretErr -> string.

Definition texted {A} (r : result SecretErr A) : result string A :=
  match r with Ok a => Ok a | Err e => Err (errText e) end.

(** The engine's collaborators: the registry on a state of its sources, the store, and the
    encryption of a bundle. *)
Definition registryFetch {St} (r : gmap string (SecretSource St)) (w : St) (refs : list SecretRef)
    : result string (gmap string string) :=
  match snd (Fetch r refs w) with Ok b => Ok (sb_Claims b) | Err e => Err (errText e) end.
Definition storeGet (st : gmap string jwk_key) (id : string) : result string jwk_key :=
  texted (GetKey st id).
Definition encryptBundle (claims : gmap string string) (k : jwk_key) : result string string :=
  texted (EncryptSecretBundle claims k).

(** The options a unit with a file of static secrets passes to the engine. *)
Definition withSecrets (e : Engine (EncKey:=jwk_key)) (s : StaticSource) (st : gmap string jwk_key)
    : Engine :=
  foldl applyOption e
    [WithEncryptionKeyStore (storeGet st);
     WithSecretSource (registryFetch (Register (staticSource unit s) NewRegistry) tt)].

(** The references of a policy decision. *)
Definition decisionRefs (d : PolicyDecision) : list SecretRef :=
  match pd_Claims d !! "secret_refs" with
  | Some raw => match as_array raw with Some l => omap parseSecretRef l | None => [] end
  | None => []
  end.

(** What the engine delivers for a workload and a decision. *)
Definition delivered (e : Engine (EncKey:=jwk_key)) (id : string) (d : PolicyDecision) : option string :=
  match e_secretSource e, e_encryptionKeyStore e, decisionRefs d with
  | Some fetch, Some get, (_ :: _) as refs =>
      match get id, fetch refs with
      | Ok k, Ok b => match encryptBundle b k with Ok c => Some c | Err _ => None end
      | _, _ => None
      end
  | _, _, _ => None
  end.

Lemma callMetric_ret (e : Engine (EncKey:=jwk_key)) res (x : string) s :
  exists s', st_bind (callMetric e res) (fun _ => st_ret x) s = (s', Ok x).
Proof. unfold callMetric. destruct (e_onSecretDelivery e); eexists; reflexivity. Qed.

Lemma secretDelivery_delivered (e : Engine (EncKey:=jwk_key)) w d s :
  exists s', secretDelivery encryptBundle e w d s = (s', Ok (default "" (delivered e (wi_ID w) d))).
Proof using All.
  unfold secretDelivery, deliverSecrets, delivered, decisionRefs.
  destruct (e_secretSource e) as [fetch|]; [|by eexists].
  destruct (pd_Claims d !! "secret_refs") as [raw|];
    [|destruct (e_encryptionKeyStore e); by eexists].
  destruct (as_array raw) as [[|v l]|]; [destruct (e_encryptionKeyStore e); by eexists| |
    destruct (e_encryptionKeyStore e); by eexists].
  destruct (omap parseSecretRef (v :: l)) as [|r rs]; [destruct (e_encryptionKeyStore e); by eexists|].
  destruct (e_encryptionKeyStore e) as [get|]; [|apply callMetric_ret].
  destruct (get (wi_ID w)) as [k|]; [|apply callMetric_ret].
  destruct (fetch (r :: rs)) as [b|]; [|apply callMetric_ret].
  destruct (encryptBundle b k); apply callMetric_ret.
Qed.

Lemma mint_delivers (e : Engine (EncKey:=jwk_key)) req s s' m ct d :
  mint clock encryptBundle e req s = (s', Ok m) -> authenticate e req = Ok (ct, m_workload m) ->
  e_policy e (buildPolicyInput e req (m_workload m) ct) = Ok d ->
  m_secretsClaim m = default "" (delivered e (wi_ID (m_workload m)) d).
Proof using All.
  unfold mint. intros Hm Ha Hp.
  apply st_bind_ok in Hm as (s0 & [ct' w] & Ha' & Hm). injection Ha' as <- Ha'.
  apply st_bind_ok in Hm as (s1 & u1 & _ & Hm). apply st_bind_ok in Hm as (s2 & u2 & _ & Hm).
  apply st_bind_ok in Hm as (s3 & d' & H3' & Hm). apply st_bind_ok in Hm as (s4 & deleg & _ & Hm).
  apply st_bind_ok in Hm as (s5 & dpop & _ & Hm). apply st_bind_ok in Hm as (s6 & sc & _ & Hm).
  apply st_bind_ok in Hm as (s7 & sec & H7' & Hm). apply st_bind_ok in Hm as (s8 & now & _ & Hm).
  apply st_bind_ok in Hm as (s9 & t & _ & Hm). apply st_bind_ok in Hm as (s10 & sg & _ & Hm).
  injection Hm as _ <-. cbn in *. rewrite Ha' in Ha. injection Ha as <-.
  apply ExchangeSpec.evaluatePolicy_ok in H3' as (_ & Hp' & _). rewrite Hp in Hp'. injection Hp' as <-.
  destruct (secretDelivery_delivered e w d s6) as [sx Hs]. rewrite Hs in H7'.
  by injection H7' as _ <-.
Qed.

Lemma grouped_static refs :
  refs <> [] -> Forall (fun ref => sr_Source ref = "static") refs ->
  grouped refs = {[ "static" := refs ]}.
Proof.
  intros Hne Hall. apply map_eq. intros n. pose proof (grouped_lookup refs n) as Hg.
  pose proof (grouped_is_Some refs n) as Hs. destruct (decide (n = "static")) as [->|Hn].
  - rewrite lookup_singleton_eq. destruct (grouped refs !! "static") as [l|]; cbn in Hg.
    + rewrite Hg. f_equal. clear -Hall. induction Hall as [|r rs Hr Hrs IH]; [done|].
      by rewrite filter_cons_True, IH.
    + destruct refs as [|r rs]; [done|]. apply Forall_cons in Hall as [Hr _].
      destruct (proj2 Hs) as [? [=]]. exists r. set_solver.
  - rewrite lookup_singleton_ne by done. destruct (grouped refs !! n); [|done].
    destruct (proj1 Hs) as (ref & Hin & <-); [eauto|]. rewrite Forall_forall in Hall. by apply Hall in Hin.
Qed.

Lemma range_singleton {V} k (v : V) : range ({[ k := v ]} : gmap string V) = [(k, v)].
Proof. apply Permutation_singleton_r. rewrite range_perm. by rewrite map_to_list_singleton. Qed.

(** A unit's registry answers a list of references to the static source exactly as the source. *)
Lemma static_registry_fetch s refs b :
  refs <> [] -> Forall (fun ref => sr_Source ref = "static") refs -> staticFetch s refs = Ok b ->
  registryFetch (Register (staticSource unit s) NewRegistry) tt refs = Ok (sb_Claims b).
Proof using All.
  intros Hne Hall Hs. unfold registryFetch, Fetch. rewrite grouped_static by done.
  rewrite range_singleton. cbn. unfold fetchFrom, st_bind, Register, NewRegistry. cbn.
  rewrite lookup_insert_eq. cbn. unfold st_lift. rewrite Hs. cbn. f_equal.
  rewrite mergeClaims_union. by rewrite (right_id_L ∅ _).
Qed.

(** The promise to a workload with a registered key: the token of an exchange whose policy
    decision refers to static secrets carries the bundle, encrypted to that key. *)
Lemma delivered_static e s st id d pub priv b :
  st !! id = Some pub -> decisionRefs d <> [] ->
  Forall (fun ref => sr_Source ref = "static") (decisionRefs d) ->
  staticFetch s (decisionRefs d) = Ok b ->
  (exists c, EncryptSecretBundle (sb_Claims b) pub = Ok c) ->
  jwk_PublicKey priv = Some pub -> json_faithful (sb_Claims b) -> forall Hl : JweLaws,
  exists c, delivered (withSecrets e s st) id d = Some c /\ c <> "" /\
    DecryptSecretBundle c priv = Ok (sb_Claims b).
Proof using All.
  intros Hst Hne Hall Hs [c Hc] Hp Hj Hl. exists c.
  unfold delivered.
  change (e_secretSource (withSecrets e s st))
    with (Some (registryFetch (Register (staticSource unit s) NewRegistry) tt)).
  change (e_encryptionKeyStore (withSecrets e s st)) with (Some (storeGet st)).
  destruct (decisionRefs d) as [|r rs] eqn:Hr; [done|].
  rewrite (static_registry_fetch s (r :: rs) b) by done.
  unfold storeGet, GetKey, encryptBundle. rewrite Hst. cbn. rewrite Hc. cbn.
  split; [done|]. split; [|by eapply bundle_roundtrip].
  unfold EncryptSecretBundle in Hc. repeat case_match; simplify_eq. by eapply jwe_compact_nonempty.
Qed.

(** The key of a workload is registered with a token of the engine for that workload. *)
Lemma registered_with_token `{!JwtLaws} (e : Engine (EncKey:=jwk_key)) req s s' resp ks credType w :
  Exchange clock encryptBundle e req s = (s', Ok resp) -> PublicKeySet e = Some ks ->
  authenticate e req = Ok (credType, w) -> wi_ID w <> "" ->
  exists n, ExchangeSpec.during s s' n /\ forall t1, clock n <= t1 ->
    t1 + Second <= clock n + tokenTTL e (req_ExecutionScope req) ->
    forall st raw key, jwk_ParseKey raw = Some key -> validateEncryptionJWK key = Ok tt ->
      handleEncryptionKeyRegister (Some st) (Some (Some ks)) t1 ("Bearer " +:+ AccessToken resp)
        (Some raw) = (Some (<[wi_ID w := key]> st), KeyRegistered).
Proof using All.
  intros (s1 & m & (d & dpop & now & t & Hi)%ExchangeSpec.mint_ok & [Htick _] & ->)%ExchangeSpec.Exchange_ok
    Hks Hau Hid.
  pose proof Hi as [(ct & Ha & _) _ _ _ _ _ Hsc _ (n & Hn & ->) _ _].
  assert (m_workload m = w) as Hmw by congruence. exists n.
  split; [unfold ExchangeSpec.during in *; lia|]. intros t1 Hn1 Hn2 st raw key Hk Hv.
  rewrite <- Hsc in Hn2.
  destruct (ExchangeSpec.issued_parses _ _ _ _ _ _ _ _ _ _ _ _ Hi Hks Hn1 Hn2)
    as (tok & Hpt & [Hsub _] & _).
  unfold handleEncryptionKeyRegister. cbn [AccessToken response].
  rewrite bearer_prefix, bearer_trim. cbn. rewrite Hpt, Hsub, Hmw, Hk, Hv. unfold RegisterKey.
  apply String.eqb_neq in Hid. by rewrite Hid.
Qed.

(** The token of an exchange carries what was delivered for it. *)
Lemma token_carries_secrets `{!JwtLaws} (e : Engine (EncKey:=jwk_key)) req s s' resp ks ct w d c :
  Exchange clock encryptBundle e req s = (s', Ok resp) -> PublicKeySet e = Some ks ->
  authenticate e req = Ok (ct, w) -> e_policy e (buildPolicyInput e req w ct) = Ok d ->
  delivered e (wi_ID w) d = Some c -> c <> "" ->
  exists n, ExchangeSpec.during s s' n /\ forall t1, clock n <= t1 ->
    t1 + Second <= clock n + tokenTTL e (req_ExecutionScope req) ->
    exists tok, jwt_Parse ks t1 (AccessToken resp) = Some tok /\ get_string tok "secrets" = Some c.
Proof using All.
  intros (s1 & m & Hm & [Htick _] & ->)%ExchangeSpec.Exchange_ok Hks Hau Hp Hdel Hc.
  destruct (ExchangeSpec.mint_ok _ _ _ _ _ _ _ Hm) as (d' & dpop & now & t & Hi).
  pose proof Hi as [(ct' & Ha & _) _ _ _ _ _ Hsc _ (n & Hn & ->) _ _].
  assert (m_workload m = w) as Hmw by congruence. rewrite <- Hmw in Hau, Hp, Hdel.
  pose proof (mint_delivers _ _ _ _ _ _ _ Hm Hau Hp) as Hsec. rewrite Hdel in Hsec. cbn in Hsec.
  exists n. split; [unfold ExchangeSpec.during in *; lia|]. intros t1 Hn1 Hn2. rewrite <- Hsc in Hn2.
  destruct (ExchangeSpec.issued_parses _ _ _ _ _ _ _ _ _ _ _ _ Hi Hks Hn1 Hn2)
    as (tok & Hpt & _ & Hcl).
  exists tok. split; [done|]. unfold get_string.
  rewrite Hcl, Hsec by (by apply ExchangeSpec.private_not_registered).
  unfold tokenClaims. rewrite !ExchangeSpec.last_claim_app.
  unfold nonempty_claim. rewrite (proj2 (str_nonempty_true c) Hc). done.
Qed.

(** ** What a workload is promised *)

(** A reference to a configured secret as a policy writes it: the path and the key of the secret, and the name it
    is to be given, which is the key when the alias is empty. *)
Definition reference (r : string * string * string) : value :=
  VObj (<["source" := VStr "static"]> (<["path" := VStr r.1.1]> (<["key" := VStr r.1.2]> (<["alias" := VStr r.2]> ∅)))).
Definition named (r : string * string * string) : string := if bool_decide (r.2 = "") then r.1.2 else r.2.
Definition configured (secrets : gmap string (gmap string string)) (r : string * string * string) (v : string) : Prop :=
  exists entries, secrets !! r.1.1 = Some entries /\ entries !! r.1.2 = Some v.

(** What a name stands for: the configured secret of the last reference with that name. *)
Inductive given (secrets : gmap string (gmap string string)) : list (string * string * string) -> string -> string -> Prop :=
| given_last r refs v : configured secrets r v -> named r ∉ named <$> refs -> given secrets (r :: refs) (named r) v
| given_later r refs name v : given secrets refs name v -> given secrets (r :: refs) name v.

Definition toRef (r : string * string * string) : SecretRef :=
  {| sr_Source := "static"; sr_Path := r.1.1; sr_Key := r.1.2; sr_Alias := r.2 |}.

Lemma decision_references d refs :
  pd_Claims d !! "secret_refs" = Some (VArr (reference <$> refs)) ->
  Forall (fun r => r.1.1 <> "" /\ r.1.2 <> "") refs ->
  decisionRefs d = toRef <$> refs.
Proof using.
  intros Hd Hall. unfold decisionRefs. rewrite Hd. cbn [as_array]. clear Hd.
  induction Hall as [|[[p k] a] refs [Hp Hk] _ IH]; [done|]. cbn in *. rewrite IH.
  unfold parseSecretRef, reference. cbn [as_object fst snd]. unfold field_string. simplify_map_eq.
  rewrite (proj2 (str_nonempty_true p) Hp), (proj2 (str_nonempty_true k) Hk). reflexivity.
Qed.

Lemma aliasOf_named r : aliasOf (toRef r) = named r.
Proof using. unfold aliasOf, toRef, named. cbn. case_bool_decide; destruct (String.eqb_spec r.2 ""); done. Qed.
Lemma staticValue_configured src r v : staticValue src (toRef r) = Ok v <-> configured (ss_secrets src) r v.
Proof using.
  unfold staticValue, configured. cbn. destruct (ss_secrets src !! r.1.1) as [es|]; [|naive_solver].
  destruct (es !! r.1.2) eqn:E; naive_solver.
Qed.

Lemma aliasValue_given src refs :
  Forall (fun r => exists v, configured (ss_secrets src) r v) refs ->
  (forall name, aliasValue src (toRef <$> refs) name = None <-> name ∉ named <$> refs) /\
  forall name v, aliasValue src (toRef <$> refs) name = Some v <-> given (ss_secrets src) refs name v.
Proof using.
  induction 1 as [|r refs [v0 Hv0] _ [IHn IHs]]; [split; [set_solver|]; intros name v; split; [done|by inversion 1]|].
  pose proof Hv0 as Hsv. apply staticValue_configured in Hsv.
  split; intros name; rewrite ?fmap_cons; cbn [aliasValue]; rewrite aliasOf_named, Hsv;
    destruct (aliasValue src (toRef <$> refs) name) as [v1|] eqn:Hr.
  - split; [done|]. intros Hn. assert (name ∉ named <$> refs) as Hn' by set_solver. apply IHn in Hn'. congruence.
  - apply IHn in Hr. destruct (String.eqb_spec (named r) name) as [<-|]; split; try done; set_solver.
  - intros v. split; [intros [= <-]; by apply given_later, IHs|].
    inversion 1 as [r' refs' v' Hc Hnot|r' refs' name' v' Hg]; subst; [apply IHn in Hnot; congruence|].
    apply IHs in Hg. congruence.
  - intros v. destruct (String.eqb_spec (named r) name) as [<-|Hne]; split.
    + intros [= <-]. apply given_last; [done|by apply IHn].
    + inversion 1 as [r' refs' v' Hc Hnot|r' refs' name' v' Hg]; subst; [|apply IHs in Hg; congruence].
      apply staticValue_configured in Hc. congruence.
    + done.
    + inversion 1 as [r' refs' v' Hc Hnot|r' refs' name' v' Hg]; subst; [done|]. apply IHs in Hg. congruence.
Qed.

(** The last reference always counts. *)
Lemma given_some secrets refs : refs <> [] -> Forall (fun r => exists v, configured secrets r v) refs ->
  exists name v, given secrets refs name v.
Proof using.
  intros Hne Hall. induction Hall as [|r refs [v Hv] _ IH]; [done|].
  destruct refs as [|x refs]; [exists (named r), v; apply given_last; [done|set_solver]|].
  destruct IH as (name & v' & Hg); [done|]. exists name, v'. by apply given_later.
Qed.

Lemma configured_fetch src refs :
  Forall (fun r => exists v, configured (ss_secrets src) r v) refs ->
  exists b, staticFetch src (toRef <$> refs) = Ok b /\
    forall name v, sb_Claims b !! name = Some v <-> given (ss_secrets src) refs name v.
Proof using.
  intros Hall. assert (Hr : resolvable src (toRef <$> refs) = true).
  { unfold resolvable. apply forallb_forall. intros ref (r & -> & Hin)%list_elem_of_In%list_elem_of_fmap.
    rewrite Forall_forall in Hall. destruct (Hall r Hin) as [v Hv%staticValue_configured]. by rewrite Hv. }
  destruct (staticLoop_ok src _ ∅ Hr) as (c & Hc & Hk). unfold staticFetch. rewrite Hc. eexists. split; [done|].
  intros name v. cbn [sb_Claims]. rewrite Hk, lookup_empty. destruct (aliasValue_given src refs Hall) as [_ Hs].
  rewrite <- Hs. by destruct (aliasValue src _ name).
Qed.


(** A key that bundles cannot be encrypted to is registered all the same, and the workload is issued tokens
    without its secrets. *)
Lemma unusable_key_no_secrets e src st id d pub :
  st !! id = Some pub -> (forall m, jwe_Encrypt m pub = None) -> delivered (withSecrets e src st) id d = None.
Proof using All.
  intros Hst Hn. unfold delivered.
  change (e_secretSource (withSecrets e src st))
    with (Some (registryFetch (Register (staticSource unit src) NewRegistry) tt)).
  change (e_encryptionKeyStore (withSecrets e src st)) with (Some (storeGet st)).
  destruct (decisionRefs d); [done|]. unfold storeGet, GetKey. rewrite Hst. cbn [texted].
  destruct (registryFetch _ _ _) as [b|]; [|done]. unfold encryptBundle.
  assert (He : exists e, EncryptSecretBundle b pub = Err e).
  { unfold EncryptSecretBundle. repeat case_match; simplify_eq; try (by eexists). by rewrite Hn in *. }
  destruct He as [x ->]. done.
Qed.

(** A workload without a registered key gets no secrets, and the sources are not asked. *)
Lemma no_key_no_fetch (e : Engine (EncKey:=jwk_key)) st fetch fetch' w d s :
  st !! wi_ID w = None ->
  let eng f := applyOption (applyOption e (WithEncryptionKeyStore (storeGet st))) (WithSecretSource f) in
  secretDelivery encryptBundle (eng fetch) w d s = secretDelivery encryptBundle (eng fetch') w d s /\
  delivered (eng fetch) (wi_ID w) d = None.
Proof.
  intros Hst. unfold secretDelivery, deliverSecrets, delivered, storeGet, GetKey. cbn. rewrite Hst. cbn.
  split; [|by destruct (decisionRefs d)]. destruct (pd_Claims d !! "secret_refs") as [raw|]; [|done].
  destruct (as_array raw) as [[|v l]|]; [done| |done]. by destruct (omap parseSecretRef (v :: l)).
Qed.
End Delivery.

(** * Which source wins an alias

    Two sources that answer the same alias are merged in the order the map of groups is visited,
    so the value the workload gets differs from one run to another. *)

Definition reverse_order : RangeOrder :=
  {| range := fun V m => reverse (map_to_list m);
     range_perm := fun V m => reverse_Permutation (map_to_list m) |}.

Definition demo_static (v : string) : StaticSource :=
  {| ss_secrets := {[ "app/db" := {[ "password" := v ]} ]}; ss_ttl := 5 * Minute |}.
Definition demo_ref (src : string) : SecretRef :=
  {| sr_Source := src; sr_Path := "app/db"; sr_Key := "password"; sr_Alias := "db" |}.
Definition demo_other : SecretSource unit :=
  {| src_Name := "vault"; src_Available := fun _ => true;
     src_Fetch := fun refs => st_lift (staticFetch (demo_static "from-vault") refs) |}.
Definition demo_registry : gmap string (SecretSource unit) :=
  Register demo_other (Register (staticSource unit (demo_static "from-file")) NewRegistry).

Definition demo_alias (order : RangeOrder) : option string :=
  match snd (Fetch demo_registry [demo_ref "static"; demo_ref "vault"] tt) with
  | Ok b => sb_Claims b !! "db"
  | Err _ => None
  end.

Lemma alias_collision_order_dependent :
  demo_alias key_order = Some "from-vault" /\ demo_alias reverse_order = Some "from-file".
Proof. by vm_compute. Qed.

(** * A concrete run *)

#[local] Existing Instance JwtModel.lib.
#[local] Existing Instance JwtModel.laws.
#[local] Existing Instance DPoP.demo_jws.
#[local] Existing Instance key_order.

(** A ciphertext is the recipient's key before the plaintext. *)
#[local] Instance demo_jwe : JweLib := {|
  jwe_Encrypt p k := Some (k +:+ "|" +:+ p);
  jwe_Decrypt c k := if HasPrefix c ("pub:" +:+ k +:+ "|")
                     then Some (TrimPrefix c ("pub:" +:+ k +:+ "|")) else None;
  json_MarshalMap m := Some (JwtModel.pos_string (encode m));
  json_UnmarshalMap s := JwtModel.string_pos s ≫= decode;
  jwk_KeyType k := "EC";
  jwk_Curve k := Some "P-256";
  jwk_ParseKey raw := Some raw;
|}.

#[local] Instance demo_jwe_laws : JweLaws.
Proof.
  split; cbn.
  - intros priv pub p c [= <-] [= <-]. unfold HasPrefix, TrimPrefix.
    set (q := "pub:" +:+ priv +:+ "|").
    assert (("pub:" +:+ priv) +:+ ("|" +:+ p) = q +:+ p) as Hq by (unfold q; by rewrite !str_app_assoc).
    cbn in Hq. rewrite Hq. unfold HasPrefix. rewrite prefix_app. by rewrite str_drop_app.
  - intros p k c [= <-]. by destruct k.
Qed.

Definition demo_decision : PolicyDecision :=
  {| Allowed := true; pd_Reason := "";
     pd_Claims := {[ "secret_refs" := VArr [VObj (<["source" := VStr "static"]>
       (<["path" := VStr "app/db"]> (<["key" := VStr "password"]> (<["alias" := VStr "db"]> ∅))))] ]} |}.
Definition demo_eng : Engine (EncKey:=jwk_key) :=
  {| e_identity := fun tok ct => Ok {| wi_ID := "wimse://td/" +:+ tok; wi_TrustDomain := "td";
                                       wi_Attestation := None; wi_Claims := ∅ |};
     e_policy := fun _ => Ok demo_decision;
     e_keyring := Some Keyring.demo_kr; e_signKey := Keyring.demo_k1; e_issuer := "starfly";
     e_ttl := (5 * Minute)%Z; e_syncBus := None; e_unitID := "u1";
     e_revocation := None; e_onRevocationError := true;
     e_executionTTL := Execution.ExecutionScopeTTL; e_onExchange := true;
     e_secretSource := None; e_encryptionKeyStore := None; e_onSecretDelivery := true;
     e_devMode := false |}.
Definition demo_req : TokenExchangeRequest :=
  {| GrantType := grantTypeTokenExchange; SubjectToken := "agent";
     SubjectTokenType := subjectTokenTypeJWT; Audience := "aud"; Scope := ""; ActorToken := "";
     ActorTokenType := ""; RequestedTokenType := ""; DPoPProof := "";
     Attestation := None; req_ExecutionScope := None |}.
Definition demo_text (e : SecretErr) : string := "error".
Definition demo_run (st : gmap string jwk_key) : EState * result ExchangeErr TokenExchangeResponse :=
  Exchange ExchangeSpec.demo_clock (encryptBundle demo_text)
    (withSecrets demo_text demo_eng (demo_static "hunter2") st) demo_req initState.
Definition demo_store : gmap string jwk_key := {[ "wimse://td/agent" := "pub:k9" ]}.

Lemma demo_run_ok : demo_run ∅ = (fst (demo_run ∅), Ok (ExchangeSpec.out_resp (demo_run ∅))).
Proof. apply ExchangeSpec.out_ok. vm_compute. reflexivity. Qed.
Lemma demo_run_ok2 :
  demo_run demo_store = (fst (demo_run demo_store), Ok (ExchangeSpec.out_resp (demo_run demo_store))).
Proof. apply ExchangeSpec.out_ok. vm_compute. reflexivity. Qed.

Lemma demo_json m : json_faithful m.
Proof. intros p [= <-]. cbn. rewrite JwtModel.string_pos_string. cbn. apply decode_encode. Qed.

Lemma demo_encrypts m : m <> ∅ -> exists c, EncryptSecretBundle m "pub:k9" = Ok c.
Proof.
  intros Hm. unfold EncryptSecretBundle. destruct (Nat.eqb_spec (size m) 0) as [He|]; [|by eexists].
  by apply map_size_empty_inv in He.
Qed.

End Secrets.
