(* ===== verification/Api.v ===== *)
(** The HTTP API ([pkg/api]): the token endpoint over the exchange engine, the verification
    endpoint over the MCP verifier, the registration of tools, the signal endpoints, and the
    routing of requests to the plaintext and the mutual-TLS listener. *)
From Stdlib Require Import ZArith Lia.
From stdpp Require Import base gmap strings list.
From S2P Require Import Prelude.
From S2P Require Import GoLib.
From S2P Require Import JwtModel.
From S2P Require Import Core.
From S2P Require Import Execution.
From S2P Require Import Keyring.
From S2P Require Import Delegation.
From S2P Require Import Attestation.
From S2P Require Import DPoP.
From S2P Require Import Revocation.
From S2P Require Import Exchange.
From S2P Require Import ExchangeSpec.
From S2P Require Import Mcp.
From S2P Require Import Toolcall.
From S2P Require Import Receiver.
From S2P Require Import Transmitter.
From S2P Require Import ApiCommon.
From S2P Require Import Secrets.

#[local] Open Scope string_scope.
#[local] Open Scope list_scope.
#[local] Open Scope Z_scope.

Module Api.

Import ApiCommon.

Definition maxExchangeBodyBytes : Z := 1048576.

(** * The token endpoint *)

Module Token.
Import Exchange.

(** The counters and gauges the handler touches. *)
Inductive Metric : Type :=
| ExchangeRequestsTotal (status tokenType audience : string)
| DelegationActive (depth : Z)
| DelegationDepthMax (depth : Z)
| BlastRadiusDenialsTotal (label : string).

Definition AttestationHeaderName : string := "X-Starfly-Attestation".

(** Decoding fills in the JSON fields of the request; those tagged [json:"-"] keep their zero
    values. *)
Definition jsonFields (r : TokenExchangeRequest) : TokenExchangeRequest :=
  {| GrantType := GrantType r; SubjectToken := SubjectToken r; SubjectTokenType := SubjectTokenType r;
     Audience := Audience r; Scope := Scope r; ActorToken := ActorToken r;
     ActorTokenType := ActorTokenType r; RequestedTokenType := RequestedTokenType r;
     DPoPProof := ""; Attestation := None; req_ExecutionScope := req_ExecutionScope r |}.

Definition withAttestation (r : TokenExchangeRequest) (att : option ServerAttestation)
    : TokenExchangeRequest :=
  {| GrantType := GrantType r; SubjectToken := SubjectToken r; SubjectTokenType := SubjectTokenType r;
     Audience := Audience r; Scope := Scope r; ActorToken := ActorToken r;
     ActorTokenType := ActorTokenType r; RequestedTokenType := RequestedTokenType r;
     DPoPProof := DPoPProof r; Attestation := att; req_ExecutionScope := req_ExecutionScope r |}.

(** [errors.Is] against the sentinels [ErrPolicyDenied] and [ErrSubjectRevoked]. *)
Definition isDenied (err : ExchangeErr) : bool :=
  match err with ErrPolicyDenied _ | ErrSubjectRevoked _ => true | _ => false end.

Section Handler.
(** The exchanger over its own state, the JSON decoder of the body and of the header, and the
    texts of errors. *)
Context {St : Type}.
Variable exchanger : TokenExchangeRequest -> M St ExchangeErr TokenExchangeResponse.
Variable json_Decode : string -> result BodyErr TokenExchangeRequest.
Variable json_Attestation : string -> result string ServerAttestation.
Variable errorText : ExchangeErr -> string.
Variable attText : Attest.AttErr -> string.

(** The switch over the error of an exchange. *)
Definition exchangeError (err : ExchangeErr) : Response TokenExchangeResponse :=
  match err with
  | ErrInvalidGrantType _ => error_reply 400 "unsupported_grant_type" (errorText err)
  | ErrUnsupportedToken _ | ErrInvalidSubject _ => error_reply 400 "invalid_request" (errorText err)
  | ErrWorkloadValidation _ | ErrActorTokenInvalid =>
      error_reply 401 "invalid_client" "subject token validation failed"
  | ErrDelegationDenied _ => error_reply 403 "access_denied" "exchange not permitted"
  | ErrExec (Execution.ErrNonceReplay _) =>
      error_reply 400 "invalid_request" "invalid request parameters"
  | ErrAttestation (Attest.ErrStaleAttestation _ _) =>
      error_reply 400 "invalid_request" "invalid request parameters"
  | ErrPolicyDenied _ | ErrSubjectRevoked _ => error_reply 403 "access_denied" "exchange not permitted"
  | ErrExec (Execution.ErrExecutionScopeInvalid _) | ErrAttestation (Attest.ErrInvalidAttestation _)
  | ErrEvaluatingPolicy _ | ErrDPoPInvalid _ | ErrBuildingJWT | ErrSettingClaim _ | ErrSigningJWT =>
      error_reply 500 "server_error" "internal error"
  end.

(** The metrics of an error response, in order. *)
Definition errorMetrics (req : TokenExchangeRequest) (err : ExchangeErr) : list Metric :=
  [ExchangeRequestsTotal (if isDenied err then "denied" else "error") (SubjectTokenType req) (Audience req)]
  ++ match err with ErrDelegationDenied _ => [BlastRadiusDenialsTotal "denied"] | _ => [] end.

(** The call of the exchanger and the response to it. *)
Definition respond (req : TokenExchangeRequest) (s : St)
    : St * list Metric * Response TokenExchangeResponse :=
  match exchanger req s with
  | (s', Err err) => (s', errorMetrics req err, exchangeError err)
  | (s', Ok resp) =>
      (s', (if 0 <? DelegationDepth resp
            then [DelegationActive (DelegationDepth resp); DelegationDepthMax (DelegationDepth resp)]
            else [])
           ++ [ExchangeRequestsTotal "success" (SubjectTokenType req) (Audience req)],
       Reply 200 resp)
  end.

(** [handleExchangeToken]: [header] is [r.Header.Get]. *)
Definition handleExchangeToken (header : string -> string) (body : string) (s : St)
    : St * list Metric * Response TokenExchangeResponse :=
  match json_Decode body with
  | Err BodyTooLarge =>
      (s, [ExchangeRequestsTotal "error" "unknown" ""],
       error_reply 413 "invalid_request" "request body too large")
  | Err (BodyMalformed _) =>
      (s, [ExchangeRequestsTotal "error" "unknown" ""],
       error_reply 400 "invalid_request" "malformed JSON body")
  | Ok decoded =>
      let req := jsonFields decoded in
      let attestHeader := header AttestationHeaderName in
      if str_nonempty attestHeader then
        match Attest.ParseAttestationHeader json_Attestation attestHeader with
        | Err err =>
            (s, [ExchangeRequestsTotal "error" (SubjectTokenType req) (Audience req)],
             error_reply 400 "invalid_request" (attText err))
        | Ok att => respond (withAttestation req att) s
        end
      else respond req s
  end.

(** ** What the endpoint answers *)

(** The request the engine sees: the JSON fields, with the attestation of the header. *)
Inductive forwarded (header : string -> string) (body : string) : TokenExchangeRequest -> Prop :=
| fwd_plain r : json_Decode body = Ok r -> header AttestationHeaderName = "" ->
    forwarded header body (jsonFields r)
| fwd_attested r att : json_Decode body = Ok r -> header AttestationHeaderName <> "" ->
    Attest.ParseAttestationHeader json_Attestation (header AttestationHeaderName) = Ok att ->
    forwarded header body (withAttestation (jsonFields r) att).

Lemma handler_forwards header body s :
  (exists ms code b, handleExchangeToken header body s = (s, ms, ErrorReply code b) /\
     (code = 400 \/ code = 413)) \/
  (exists req, forwarded header body req /\ handleExchangeToken header body s = respond req s).
Proof.
  unfold handleExchangeToken, error_reply. destruct (json_Decode body) as [r|[|e]] eqn:Hd; [|eauto 10..].
  destruct (str_nonempty (header AttestationHeaderName)) eqn:Hh.
  - apply str_nonempty_true in Hh. destruct (Attest.ParseAttestationHeader _ _) as [att|e] eqn:Hp;
      [|eauto 10]. right. eexists. split; [by eapply fwd_attested|done].
  - apply str_nonempty_false in Hh. right. eexists. split; [by eapply fwd_plain|done].
Qed.

(** The engine is never given a DPoP proof. *)
Lemma forwarded_no_dpop header body req : forwarded header body req -> DPoPProof req = "".
Proof. by intros []. Qed.

Lemma exchangeError_status err :
  status (exchangeError err) <> 200 /\
  (exists b, exchangeError err = ErrorReply (status (exchangeError err)) b).
Proof. destruct err as [ | | | | |[]| | | | | |[]| | |]; cbn; split; try lia; eauto. Qed.

(** A successful response carries the engine's response, and comes from a successful exchange. *)
Lemma endpoint_ok header body s s' ms resp :
  handleExchangeToken header body s = (s', ms, Reply 200 resp) ->
  exists req, forwarded header body req /\ exchanger req s = (s', Ok resp).
Proof.
  intros Hh. destruct (handler_forwards header body s) as [(ms' & code & b & Heq & _)|(req & Hf & Heq)];
    rewrite Heq in Hh; [done|].
  exists req. split; [done|]. unfold respond in Hh.
  destruct (exchanger req s) as [s1 [r|e]]; [by simplify_eq|].
  injection Hh as _ _ Hx. destruct (exchangeError_status e) as [_ [b Hb]]. congruence.
Qed.

(** The answer for an engine error, on either path to the engine. *)
Lemma endpoint_err header body s s' req err :
  forwarded header body req -> exchanger req s = (s', Err err) ->
  handleExchangeToken header body s = (s', errorMetrics req err, exchangeError err).
Proof.
  intros Hf He.
  assert (handleExchangeToken header body s = respond req s) as ->.
  { unfold handleExchangeToken. destruct Hf as [r Hd Hh|r att Hd Hh Hp]; rewrite Hd.
    - by rewrite Hh.
    - rewrite (proj2 (str_nonempty_true _) Hh). by rewrite Hp. }
  unfold respond. by rewrite He.
Qed.
End Handler.

(** ** With the exchange engine *)

Section WithEngine.
Context `{!JwtLib, !JwsLib, !RangeOrder}.
Context {EncKey : Type}.
Variable clock : nat -> Time.
Variable EncryptSecretBundle : gmap string string -> EncKey -> result string string.
Variable json_Decode : string -> result BodyErr TokenExchangeRequest.
Variable json_Attestation : string -> result string ServerAttestation.
Variable errorText : ExchangeErr -> string.
Variable attText : Attest.AttErr -> string.

Definition endpoint (e : Engine (EncKey:=EncKey)) (header : string -> string) (body : string) (s : EState)
    : EState * list Metric * Response TokenExchangeResponse :=
  handleExchangeToken (Exchange clock EncryptSecretBundle e) json_Decode json_Attestation errorText attText
    header body s.

(** A proof of possession sent to the token endpoint has no effect. The request type takes it
    from the [DPoP] header, which the handler does not read, so whatever headers a request has,
    the token of a successful response carries no [cnf] claim, and the MCP verifier takes it
    without any proof. *)
Theorem endpoint_never_binds_dpop `{!JwtLaws} (e : Engine (EncKey:=EncKey)) header body s s' ms resp ks :
  endpoint e header body s = (s', ms, Reply 200 resp) -> PublicKeySet e = Some ks ->
  exists req n, forwarded json_Decode json_Attestation header body req /\
    ExchangeSpec.during s s' n /\ forall t1, clock n <= t1 ->
    t1 + Second <= clock n + tokenTTL e (req_ExecutionScope req) ->
    exists tok, jwt_Parse ks t1 (AccessToken resp) = Some tok /\ jwt_claim tok "cnf" = None /\
      forall cfg t t', Mcp.verifyDPoP cfg t t' (Mcp.extractClaims tok) None = Ok (Mcp.extractClaims tok).
Proof.
  intros (req & Hf & He)%endpoint_ok Hks. exists req.
  pose proof (forwarded_no_dpop _ _ _ _ _ Hf) as Hnd.
  apply ExchangeSpec.Exchange_ok in He as (s1 & m & (d & dpop & now & t & Hi)%ExchangeSpec.mint_ok & [Htick _] & ->).
  pose proof Hi as [_ _ _ _ _ (n0 & _ & Hdp) Hsc _ (n & Hn & ->) _ _].
  destruct dpop as [jkt|]; [by destruct Hdp|]. exists n. split; [done|].
  split; [unfold ExchangeSpec.during in *; lia|]. intros t1 Hn1 Hn2. rewrite <- Hsc in Hn2.
  destruct (ExchangeSpec.issued_parses _ _ _ _ _ _ _ _ _ _ _ _ Hi Hks Hn1 Hn2) as (tok & Hpt & _ & Hc).
  exists tok. split; [done|]. assert (Hcnf : jwt_claim tok "cnf" = None).
  { rewrite Hc by (by apply ExchangeSpec.private_not_registered).
    ExchangeSpec.read_minted_claim. done. }
  split; [done|]. intros cfg t2 t2'. unfold Mcp.verifyDPoP.
  assert (Mcp.vc_CNFThumbprint (Mcp.extractClaims tok) = "") as ->.
  { cbn. unfold Mcp.extractThumbprint, get_object. by rewrite Hcnf. }
  by destruct (Mcp.DevMode cfg).
Qed.

(** A revoked subject is refused with 403, counted as denied, and the text does not say why. *)
Lemma endpoint_refuses_revoked (e : Engine (EncKey:=EncKey)) header body req s s' :
  forwarded json_Decode json_Attestation header body req ->
  (exists id, Exchange clock EncryptSecretBundle e req s = (s', Err (ErrSubjectRevoked id))) ->
  endpoint e header body s =
    (s', [ExchangeRequestsTotal "denied" (SubjectTokenType req) (Audience req)],
     error_reply 403 "access_denied" "exchange not permitted").
Proof. intros Hf [id He]. by apply (endpoint_err _ _ _ _ _ _ _ _ _ _ _ Hf He). Qed.

(** A scope the engine finds invalid is the client's fault and is answered as the server's. *)
Lemma invalid_scope_is_server_error (e : Engine (EncKey:=EncKey)) header body req s s' why :
  forwarded json_Decode json_Attestation header body req ->
  Exchange clock EncryptSecretBundle e req s = (s', Err (ErrExec (Execution.ErrExecutionScopeInvalid why))) ->
  endpoint e header body s =
    (s', [ExchangeRequestsTotal "error" (SubjectTokenType req) (Audience req)],
     error_reply 500 "server_error" "internal error").
Proof. intros Hf He. by apply (endpoint_err _ _ _ _ _ _ _ _ _ _ _ Hf He). Qed.
End WithEngine.
End Token.

(** * Bearer tokens and the tool registries *)

Module Tools.

(** The parts of [Server] the handlers use. *)
Section Server.
Context `{!JwtLib}.

Record Server : Type := {
  s_devMode : bool;
  s_jwks : option (option (list jwk_key));
  s_mcpRegistry : option Mcp.Registry;
  s_toolRegistry : option Toolcall.Registry;
}.

(** [if !s.devMode && !s.requireBearerAuth(w, r) { return }] before the rest of a handler. *)
Definition authenticated {A} (s : Server) (now : Time) (authHeader : string)
    (k : Server * Response A) : Server * Response A :=
  if s_devMode s then k else
  match requireBearerAuth (s_jwks s) now authHeader with
  | Err r => (s, bearerReply r)
  | Ok _ => k
  end.

Definition setMCP (s : Server) (r : Mcp.Registry) : Server :=
  {| s_devMode := s_devMode s; s_jwks := s_jwks s; s_mcpRegistry := Some r;
     s_toolRegistry := s_toolRegistry s |}.
Definition setTools (s : Server) (r : Toolcall.Registry) : Server :=
  {| s_devMode := s_devMode s; s_jwks := s_jwks s; s_mcpRegistry := s_mcpRegistry s;
     s_toolRegistry := Some r |}.

Definition mcpNotConfigured {A} : Response A :=
  error_reply 503 "mcp_not_configured" "MCP tool registry is not configured".

(** [handleMCPToolList] *)
Definition handleMCPToolList `{!RangeOrder} (s : Server) : Response (list Mcp.ToolEntry) :=
  match s_mcpRegistry s with
  | None => mcpNotConfigured
  | Some r => Reply 200 (Mcp.List_ r)
  end.

(** [handleMCPToolRegister]; the body is the decoded entry or the text of the error. *)
Definition handleMCPToolRegister (s : Server) (now : Time) (authHeader : string)
    (body : result string Mcp.ToolEntry) : Server * Response Mcp.ToolEntry :=
  authenticated s now authHeader
    match s_mcpRegistry s with
    | None => (s, mcpNotConfigured)
    | Some r =>
        match body with
        | Err err => (s, error_reply 400 "invalid_request" ("invalid JSON body: " +:+ err))
        | Ok entry =>
            if (Mcp.ToolID entry =? "")%string
            then (s, error_reply 400 "invalid_request" "tool_id is required") else
            match Mcp.Register now entry r with
            | Err _ => (s, error_reply 409 "tool_exists" "mcp: tool already registered")
            | Ok r' => (setMCP s r', Reply 201 (Mcp.stamp entry now now))
            end
        end
    end.

(** [handleMCPToolDeregister] *)
Definition handleMCPToolDeregister (s : Server) (now : Time) (authHeader toolID : string)
    : Server * Response string :=
  authenticated s now authHeader
    match s_mcpRegistry s with
    | None => (s, mcpNotConfigured)
    | Some r =>
        if (toolID =? "")%string
        then (s, error_reply 400 "invalid_request" "tool_id query parameter is required") else
        match Mcp.Deregister toolID r with
        | Err _ => (s, error_reply 404 "tool_not_found" "mcp: tool not found")
        | Ok r' => (setMCP s r', Reply 200 toolID)
        end
    end.

(** [toolRegistryReady] *)
Definition registryNotConfigured {A} : Response A :=
  error_reply 503 "registry_not_configured" "universal tool registry is not configured".

(** [handleToolList]: an empty protocol parameter lists every tool. *)
Definition handleToolList `{!RangeOrder} (s : Server) (protocol : string)
    : Response (list Toolcall.ToolEntry) :=
  match s_toolRegistry s with
  | None => registryNotConfigured
  | Some r => Reply 200 (Toolcall.List_ (if str_nonempty protocol then Some protocol else None) r)
  end.

(** [handleToolRegister]: the reply is the entry as the registry filled it in. *)
Definition handleToolRegister (s : Server) (now : Time) (authHeader : string)
    (body : result string Toolcall.ToolEntry) : Server * Response Toolcall.ToolEntry :=
  authenticated s now authHeader
    match s_toolRegistry s with
    | None => (s, registryNotConfigured)
    | Some r =>
        match body with
        | Err err => (s, error_reply 400 "invalid_request" ("invalid JSON body: " +:+ err))
        | Ok entry =>
            if (Toolcall.ToolID entry =? "")%string
            then (s, error_reply 400 "invalid_request" "tool_id is required") else
            match Toolcall.Register now entry r with
            | Err _ => (s, error_reply 409 "tool_exists" "toolcall: tool already registered")
            | Ok r' =>
                let protocols := match Toolcall.Protocols entry with
                                 | [] => [Toolcall.ProtocolMCP]
                                 | ps => ps
                                 end in
                (setTools s r', Reply 201 (Toolcall.stamp entry protocols now now))
            end
        end
    end.

Definition toolNotFound {A} (toolID : string) : Response A :=
  error_reply 404 "tool_not_found" ("tool " +:+ toolID +:+ " is not registered").

(** [handleToolGet] and [handleToolAudit] *)
Definition handleToolGet (s : Server) (toolID : string) : Response Toolcall.ToolEntry :=
  match s_toolRegistry s with
  | None => registryNotConfigured
  | Some r =>
      match Toolcall.Get toolID r with
      | None => toolNotFound toolID
      | Some entry => Reply 200 entry
      end
  end.

Definition handleToolAudit (s : Server) (toolID : string) : Response (string * list value) :=
  match s_toolRegistry s with
  | None => registryNotConfigured
  | Some r =>
      match Toolcall.Get toolID r with
      | None => toolNotFound toolID
      | Some _ => Reply 200 (toolID, [])
      end
  end.

(** [handleToolDeregister] *)
Definition handleToolDeregister (s : Server) (now : Time) (authHeader toolID : string)
    : Server * Response string :=
  authenticated s now authHeader
    match s_toolRegistry s with
    | None => (s, registryNotConfigured)
    | Some r =>
        match Toolcall.Deregister toolID r with
        | Err _ => (s, error_reply 404 "tool_not_found" "toolcall: tool not found")
        | Ok r' => (setTools s r', Reply 200 toolID)
        end
    end.

(** ** Who may change a registry *)

(** The requests that can change a registry. *)
Inductive ToolRequest : Type :=
| MCPRegister (body : result string Mcp.ToolEntry)
| MCPDeregister (toolID : string)
| ToolRegister (body : result string Toolcall.ToolEntry)
| ToolDeregister (toolID : string).

Definition serve (s : Server) (now : Time) (authHeader : string) (q : ToolRequest) : Server * Z :=
  match q with
  | MCPRegister body => let r := handleMCPToolRegister s now authHeader body in (fst r, status (snd r))
  | MCPDeregister id => let r := handleMCPToolDeregister s now authHeader id in (fst r, status (snd r))
  | ToolRegister body => let r := handleToolRegister s now authHeader body in (fst r, status (snd r))
  | ToolDeregister id => let r := handleToolDeregister s now authHeader id in (fst r, status (snd r))
  end.

Lemma authenticated_unchanged {A} s now hdr (k : Server * Response A) :
  fst (authenticated s now hdr k) <> s ->
  fst k <> s /\ authenticated s now hdr k = k /\
  (s_devMode s = true \/ requireBearerAuth (s_jwks s) now hdr = Ok tt).
Proof.
  unfold authenticated. destruct (s_devMode s); [eauto|].
  destruct (requireBearerAuth _ _ _) as [[]|r]; [eauto|done].
Qed.

(** Outside dev mode a server with keys changes a registry only for a request with a bearer token
    that verifies under those keys, and then answers 200 or 201. *)
Lemma registry_changes_authenticated s now hdr q ks s' code :
  s_devMode s = false -> s_jwks s = Some (Some ks) -> serve s now hdr q = (s', code) -> s' <> s ->
  HasPrefix hdr "Bearer " = true /\
  (exists tok, jwt_Parse ks now (TrimPrefix hdr "Bearer ") = Some tok) /\ (code = 200 \/ code = 201).
Proof.
  intros Hd Hj Hs Hne.
  assert (requireBearerAuth (s_jwks s) now hdr = Ok tt /\ (code = 200 \/ code = 201)) as [Ha Hc].
  { destruct q; cbn in Hs; injection Hs as <- <-;
      apply authenticated_unchanged in Hne as (Hk & Heq & [?|?]); try congruence; (split; [done|]);
      unfold handleMCPToolRegister, handleMCPToolDeregister, handleToolRegister, handleToolDeregister;
      cbv zeta in Heq |- *; rewrite Heq; revert Hk; repeat (case_match; cbn; try done; try (by auto)). }
  rewrite Hj in Ha. apply requireBearerAuth_ok in Ha as [Hp Ht]. done.
Qed.

(** A registered tool reads back as the reply said. *)
Lemma registered_tool_readback s now hdr body s' entry :
  handleToolRegister s now hdr body = (s', Reply 201 entry) ->
  handleToolGet s' (Toolcall.ToolID entry) = Reply 200 entry.
Proof.
  unfold handleToolRegister, authenticated. intros Hh.
  assert (Hk : forall r e, s_toolRegistry s = Some r -> body = Ok e ->
    Toolcall.Register now e r = Err Toolcall.ErrToolExists \/
    Toolcall.Register now e r = Ok (<[Toolcall.ToolID e := Toolcall.stamp e
      match Toolcall.Protocols e with [] => [Toolcall.ProtocolMCP] | ps => ps end now now]> r)).
  { intros r e _ _. unfold Toolcall.Register. destruct (r !! Toolcall.ToolID e); eauto. }
  assert (Hm : exists r e, s_toolRegistry s = Some r /\ body = Ok e /\
    exists r', Toolcall.Register now e r = Ok r' /\ s' = setTools s r' /\
      entry = Toolcall.stamp e match Toolcall.Protocols e with [] => [Toolcall.ProtocolMCP] | ps => ps end now now).
  { destruct (s_devMode s); [|destruct (requireBearerAuth _ _ _) as [u|[]]; try done];
      (destruct (s_toolRegistry s) as [r|]; [|done]); (destruct body as [e|]; [|done]);
      (destruct (Toolcall.ToolID e =? "")%string; [done|]);
      (destruct (Toolcall.Register now e r) as [r'|] eqn:Hr; [|done]); injection Hh as <- <-; eauto 10. }
  destruct Hm as (r & e & Hr & He & r' & Hreg & -> & ->).
  destruct (Hk r e Hr He) as [?|Hk']; [congruence|]. rewrite Hreg in Hk'. injection Hk' as ->.
  unfold handleToolGet, Toolcall.Get. cbn. by rewrite lookup_insert_eq.
Qed.
End Server.

(** Any token the unit issues, to any workload and for any audience, opens the registry: the
    bearer check reads no claim of it. *)
Section AnyToken.
Context `{!JwtLib, !JwsLib, !RangeOrder, !JwtLaws}.
Context {EncKey : Type}.
Variable clock : nat -> Time.
Variable EncryptSecretBundle : gmap string string -> EncKey -> result string string.
Import Exchange.

Lemma any_token_removes_tool (e : Engine (EncKey:=EncKey)) req s s' resp ks srv reg id tool :
  Exchange clock EncryptSecretBundle e req s = (s', Ok resp) -> PublicKeySet e = Some ks ->
  s_jwks srv = Some (Some ks) -> s_mcpRegistry srv = Some reg -> reg !! id = Some tool -> id <> "" ->
  exists n, ExchangeSpec.during s s' n /\ forall t1, clock n <= t1 ->
    t1 + Second <= clock n + tokenTTL e (req_ExecutionScope req) ->
    handleMCPToolDeregister srv t1 ("Bearer " +:+ AccessToken resp) id
      = (setMCP srv (delete id reg), Reply 200 id).
Proof using All.
  intros (s1 & m & (d & dpop & now & t & Hi)%ExchangeSpec.mint_ok & [Htick _] & ->)%ExchangeSpec.Exchange_ok
    Hks Hj Hr Hid Hne.
  pose proof Hi as [_ _ _ _ _ _ Hsc _ (n & Hn & ->) _ _]. exists n.
  split; [unfold ExchangeSpec.during in *; lia|]. intros t1 Hn1 Hn2. rewrite <- Hsc in Hn2.
  destruct (ExchangeSpec.issued_parses _ _ _ _ _ _ _ _ _ _ _ _ Hi Hks Hn1 Hn2) as (tok & Hpt & _ & _).
  unfold handleMCPToolDeregister, authenticated, requireBearerAuth. rewrite Hj, Hr.
  cbn [AccessToken response]. rewrite bearer_prefix, bearer_trim. cbn. rewrite Hpt.
  apply String.eqb_neq in Hne. rewrite Hne. unfold Mcp.Deregister. rewrite Hid.
  by destruct (s_devMode srv).
Qed.
End AnyToken.
End Tools.

(** * The verification endpoint *)

Module Verify.
Import Mcp.

(** [mcpVerifyRequest] *)
Record mcpVerifyRequest : Type := {
  vr_Token : string;
  vr_ToolID : string;
  vr_DPoPProof : string;
}.

Inductive VerifyMetric : Type :=
| MCPToolCallsTotal (toolID decision : string)
| MCPCheckDenialsTotal (check : string).

(** [mcpCheckName]; the two DPoP refusals wrap [ErrDPoPInvalid], and a policy that cannot be
    evaluated and a missing execution binding fall to the default. *)
Definition mcpCheckName (err : McpErr) : string :=
  match err with
  | ErrInvalidToken _ | ErrMissingToken => "signature"
  | ErrDPoPInvalid _ | ErrDPoPMissing | ErrDPoPMismatch _ _ => "dpop"
  | ErrAudienceMismatch _ _ => "audience"
  | ErrBlastRadiusExceeded _ _ => "blast_radius"
  | ErrTokenRevoked _ => "revocation"
  | ErrPolicyDenied _ | ErrCapabilityDenied _ => "policy"
  | ErrExecOpMismatch _ => "exec_act"
  | ErrExecPayloadMismatch _ _ | ErrExecPayloadMissing => "inp_hash"
  | ErrExecTargetMismatch _ => "target"
  | ErrToolNotRegistered _ => "registration"
  | ErrPolicyEvaluation _ | ErrExecBindingRequired _ => "unknown"
  end.

Section Handler.
Context `{!JwtLib, !JwsLib}.
Variable key_kind : jwk_key -> KeyKind.
Variable sha256_b64 : string -> string.
Variable errorText : McpErr -> string.

(** The options of the call: the proof of the header before that of the body, and no request
    body. *)
Definition verifyOptions (dpopHeader : string) (req : mcpVerifyRequest) : list (option VerifyOptions) :=
  [Some {| RequestBody := None;
           opt_DPoPProof := if (dpopHeader =? "")%string then vr_DPoPProof req else dpopHeader |}].

(** [handleMCPVerify]; the body is the decoded request or the text of the error. *)
Definition handleMCPVerify (cfg : Config) (now : nat -> Time) (dpopHeader : string)
    (body : result string mcpVerifyRequest) : list VerifyMetric * Response VerifiedClaims :=
  match body with
  | Err err => ([MCPToolCallsTotal "" "error"],
                error_reply 400 "invalid_request" ("invalid JSON body: " +:+ err))
  | Ok req =>
      if (vr_Token req =? "")%string then
        ([MCPToolCallsTotal (vr_ToolID req) "error"], error_reply 400 "invalid_request" "token is required")
      else
        match VerifyToolCall key_kind sha256_b64 cfg now (vr_Token req) (vr_ToolID req)
                (verifyOptions dpopHeader req) with
        | Err err => ([MCPToolCallsTotal (vr_ToolID req) "denied"; MCPCheckDenialsTotal (mcpCheckName err)],
                      error_reply 403 "verification_failed" (errorText err))
        | Ok claims => ([MCPToolCallsTotal (vr_ToolID req) "allowed"], Reply 200 claims)
        end
  end.

(** Without a tool the endpoint vouches for any authentic token: audience, capabilities, blast
    radius and execution binding are not looked at. *)
Lemma verify_without_tool cfg now dpopHeader req tok claims :
  vr_Token req <> "" -> vr_ToolID req = "" -> Policy cfg = None ->
  verifyIdentity key_kind cfg (now 0%nat) (vr_Token req) = Ok tok ->
  verifyDPoP cfg (now 1%nat) (now 2%nat) (extractClaims tok)
    (resolveOpts (verifyOptions dpopHeader req)) = Ok claims ->
  checkRevoked cfg (now 3%nat) claims = Ok tt ->
  handleMCPVerify cfg now dpopHeader (Ok req) = ([MCPToolCallsTotal "" "allowed"], Reply 200 claims).
Proof.
  intros Ht Htool Hpol Hid Hd Hr. unfold handleMCPVerify. apply String.eqb_neq in Ht. rewrite Ht.
  unfold VerifyToolCall. rewrite Hid. cbn [rbind]. rewrite Hd, Htool. cbn. rewrite Hr. cbn.
  unfold checkPolicy. by rewrite Hpol.
Qed.
End Handler.

(** The answer does not depend on the hash of any payload: the endpoint has no payload to compare,
    so a token bound to one verifies for every call of the tool. *)
Lemma verify_ignores_payload `{!JwtLib, !JwsLib} kind sha sha' text cfg now dpopHeader body :
  handleMCPVerify kind sha text cfg now dpopHeader body =
  handleMCPVerify kind sha' text cfg now dpopHeader body.
Proof. reflexivity. Qed.
End Verify.

(** * The signal endpoints *)

Module Signals.

Definition maxSignalBodyBytes : Z := 1048576.

Section Handler.
Context {St : Type}.
(** The receiver over its own state; the body is what reading it returns in production and what
    decoding it returns in dev mode. *)
Variable ReceiveSET : string -> M St Receiver.RxErr unit.
Variable ReceiveEvent : option SecurityEvent -> M St Receiver.RxErr unit.

Definition serverError {A} : Response A := error_reply 500 "server_error" "internal error".

(** The error switch of the production branch. *)
Definition setError (err : Receiver.RxErr) : Response string :=
  match err with
  | Receiver.ErrDuplicateJTI _ => error_reply 409 "invalid_request" "duplicate event"
  | Receiver.ErrInvalidSET _ | Receiver.ErrUnknownIssuer _ _ =>
      error_reply 400 "invalid_request" "invalid request parameters"
  | Receiver.ErrSignalDenied _ => error_reply 403 "access_denied" "exchange not permitted"
  | Receiver.ErrEvaluatingPolicy _ => serverError
  end.

(** The error switch of the dev mode branch, which has no case for an unknown issuer. *)
Definition eventError (err : Receiver.RxErr) : Response string :=
  match err with
  | Receiver.ErrDuplicateJTI _ => error_reply 409 "invalid_request" "duplicate event"
  | Receiver.ErrInvalidSET _ => error_reply 400 "invalid_request" "invalid request parameters"
  | Receiver.ErrSignalDenied _ => error_reply 403 "access_denied" "exchange not permitted"
  | Receiver.ErrUnknownIssuer _ _ | Receiver.ErrEvaluatingPolicy _ => serverError
  end.

(** [handleSignalEvent] *)
Definition handleSignalEvent (configured devMode : bool) (contentType : string)
    (raw : result BodyErr string) (event : result BodyErr SecurityEvent) (s : St) : St * Response string :=
  if negb configured then
    (s, error_reply 501 "not_implemented" "signal receiver not configured")
  else if negb devMode then
    if negb (HasPrefix contentType "application/secevent+jwt") then
      (s, error_reply 415 "invalid_request" "Content-Type must be application/secevent+jwt")
    else
      match raw with
      | Err BodyTooLarge => (s, error_reply 413 "invalid_request" "request body too large")
      | Err (BodyMalformed _) => (s, error_reply 400 "invalid_request" "invalid request parameters")
      | Ok rawSET =>
          match ReceiveSET rawSET s with
          | (s', Err err) => (s', setError err)
          | (s', Ok _) => (s', Reply 202 "accepted")
          end
      end
  else
    match event with
    | Err BodyTooLarge => (s, error_reply 413 "invalid_request" "request body too large")
    | Err (BodyMalformed _) => (s, error_reply 400 "invalid_request" "malformed request body")
    | Ok ev =>
        match ReceiveEvent (Some ev) s with
        | (s', Err err) => (s', eventError err)
        | (s', Ok _) => (s', Reply 202 "accepted")
        end
    end.

(** In production the receiver is only given signed tokens, and 202 means it took one in. *)
Lemma production_signals_signed contentType raw event s s' r :
  handleSignalEvent true false contentType raw event s = (s', r) ->
  (s' = s /\ status r <> 202) \/
  (exists rawSET, raw = Ok rawSET /\ HasPrefix contentType "application/secevent+jwt" = true /\
     s' = fst (ReceiveSET rawSET s) /\ (status r = 202 <-> snd (ReceiveSET rawSET s) = Ok tt)).
Proof.
  unfold handleSignalEvent. cbn. destruct (HasPrefix contentType _); cbn; [|by intros [= <- <-]; left].
  destruct raw as [rawSET|[]]; [|intros [= <- <-]; by left..].
  destruct (ReceiveSET rawSET s) as [s1 [[]|err]] eqn:Hr; intros [= <- <-]; right; exists rawSET;
    rewrite Hr; (split_and!; [done..|]); cbn; [done|]. destruct err; cbn; split; done.
Qed.
End Handler.

(** ** Streams *)

Section Streams.
Context `{!JwtLib}.
Variable clock : nat -> Time.
Variable random : nat -> list Byte.byte.
Variable url_Parse : string -> result string Transmitter.URL.
Variable errorText : Transmitter.TxErr -> string.
Import Transmitter.

Inductive StreamBody : Type := StreamCreated (st : Stream) | NoContent.

(** [handleStreamConfig]; [tx] is [None] without a transmitter, [body] the decoded configuration. *)
Definition handleStreamConfig (tx : option Transmitter) (method : string)
    (body : option StreamConfig) (streamID : string) (s : TxState) : TxState * Response StreamBody :=
  match tx with
  | None => (s, error_reply 501 "not_implemented" "signal transmitter not configured")
  | Some tx =>
      if (method =? "POST")%string then
        match body with
        | None => (s, error_reply 400 "invalid_request" "malformed request body")
        | Some cfg =>
            match CreateStream clock random url_Parse tx cfg s with
            | (s', Err err) => (s', error_reply 500 "server_error" (errorText err))
            | (s', Ok stream) => (s', Reply 201 (StreamCreated stream))
            end
        end
      else if (method =? "DELETE")%string then
        if (streamID =? "")%string
        then (s, error_reply 400 "invalid_request" "stream_id query parameter required") else
        match DeleteStream tx streamID s with
        | (s', Err err) => (s', error_reply 404 "not_found" (errorText err))
        | (s', Ok _) => (s', Reply 204 NoContent)
        end
      else (s, error_reply 405 "method_not_allowed" "")
  end.

(** [handleStreamStatus] *)
Definition handleStreamStatus (tx : option Transmitter) (streamID : string) (s : TxState)
    : Response StreamStatus :=
  match tx with
  | None => error_reply 501 "not_implemented" "signal transmitter not configured"
  | Some _ =>
      if (streamID =? "")%string
      then error_reply 400 "invalid_request" "stream_id query parameter required" else
      match GetStreamStatus streamID s with
      | Err err => error_reply 404 "not_found" (errorText err)
      | Ok st => Reply 200 st
      end
  end.

(** A created stream can be asked about, and is gone after its deletion. *)
Lemma stream_lifecycle tx cfg s s1 st :
  handleStreamConfig (Some tx) "POST" (Some cfg) "" s = (s1, Reply 201 (StreamCreated st)) ->
  st_ID st <> "" ->
  handleStreamStatus (Some tx) (st_ID st) s1 =
    Reply 200 {| ss_StreamID := st_ID st; ss_Status := StreamStatusEnabled; ss_Subject := "" |} /\
  exists s2, handleStreamConfig (Some tx) "DELETE" None (st_ID st) s1 = (s2, Reply 204 NoContent) /\
    status (handleStreamStatus (Some tx) (st_ID st) s2) = 404.
Proof.
  unfold handleStreamConfig, handleStreamStatus. cbn.
  destruct (CreateStream _ _ _ _ _ _) as [s' [st'|]] eqn:Hc; [|done]. intros [= <- <-] Hid.
  unfold CreateStream in Hc. destruct (sc_Audience cfg =? "")%string; [done|].
  apply st_bind_ok in Hc as (sa & u & Ha & Hc). injection Ha as <- _.
  apply st_bind_ok in Hc as (sb & id & Hb & Hc). apply st_bind_ok in Hc as (sc & now & Hn & Hc).
  apply st_bind_ok in Hc as (sd & u' & Hd & Hc). apply st_bind_ok in Hc as (se & u'' & He & Hc).
  injection Hc as <- <-. cbn in *. apply String.eqb_neq in Hid. rewrite Hid.
  assert (Hl : streams se = streams sd).
  { unfold audit in He. destruct (tx_auditor tx); [unfold tx_now, tx_emit, st_bind in He|]; by inv_ok. }
  injection Hd as <- _. cbn in Hl. unfold GetStreamStatus, DeleteStream. rewrite Hl, lookup_insert_eq. cbn.
  split; [done|]. unfold st_bind, tx_streams. cbn. unfold audit.
  destruct (tx_auditor tx); cbn; rewrite Hl, ?delete_insert_eq; eexists; (split; [reflexivity|]); cbn;
    rewrite ?lookup_delete_eq; done.
Qed.
End Streams.
End Signals.

(** * A concrete request *)

#[local] Existing Instance JwtModel.lib.
#[local] Existing Instance JwtModel.laws.
#[local] Existing Instance DPoP.demo_jws.
#[local] Existing Instance key_order.

Definition demo_header (name : string) : string :=
  if (name =? "DPoP")%string then "priv:k1" else "".
Definition demo_decode (body : string) : result BodyErr TokenExchangeRequest := Ok Secrets.demo_req.
Definition demo_att (h : string) : result string ServerAttestation := Err "no".
Definition demo_out :=
  Token.endpoint ExchangeSpec.demo_clock ExchangeSpec.demo_encrypt demo_decode demo_att (fun _ => "")
    (fun _ => "") Secrets.demo_eng demo_header "{}" Exchange.initState.
Definition demo_reply : TokenExchangeResponse :=
  match demo_out with
  | (_, _, Reply _ r) => r
  | _ => ExchangeSpec.out_resp (Exchange.initState, Err Exchange.ErrSigningJWT)
  end.

Lemma token_out_ok : demo_out = (fst (fst demo_out), snd (fst demo_out), Reply 200 demo_reply).
Proof.
  assert (match snd demo_out with Reply st _ => (st =? 200) | _ => false end = true) as Hs
    by (vm_compute; reflexivity).
  unfold demo_reply. destruct demo_out as [[s ms] [st r|]]; cbn in Hs; [|done].
  apply Z.eqb_eq in Hs as ->. done.
Qed.

Lemma endpoint_never_binds_dpop_witness :
  exists n, forall t1, ExchangeSpec.demo_clock n <= t1 -> t1 + Second <= ExchangeSpec.demo_clock n + 5 * Minute ->
    exists tok, jwt_Parse ["pub:k1"] t1 (AccessToken demo_reply) = Some tok /\ jwt_claim tok "cnf" = None.
Proof.
  edestruct (Token.endpoint_never_binds_dpop ExchangeSpec.demo_clock ExchangeSpec.demo_encrypt demo_decode
    demo_att (fun _ => "") (fun _ => "") Secrets.demo_eng demo_header "{}" Exchange.initState
    (fst (fst demo_out)) (snd (fst demo_out)) demo_reply ["pub:k1"])
    as (req & n & Hf & _ & Ht); [exact token_out_ok|vm_compute; reflexivity|].
  exists n. intros t1 Hn1 Hn2. destruct (Ht t1 Hn1) as (tok & Hp & Hc & _);
    [|exists tok; split; [exact Hp|exact Hc]].
  destruct Hf as [r [= <-] _|r att [= <-] Hne _]; [exact Hn2|by destruct Hne].
Defined.
End Api.
