(* ===== verification/RateLimit.v ===== *)
(** The rate limiter of the HTTP API ([pkg/api/ratelimit.go]): the address a request is counted
    under, the global and the per-address token bucket, and what refused requests cost. *)
From Stdlib Require Import ZArith QArith Qminmax Qround Lqa Lia Ascii.
From stdpp Require Import base gmap strings list.
From S2P Require Import Prelude.
From S2P Require Import GoLib.

#[local] Open Scope string_scope.
#[local] Open Scope list_scope.
#[local] Open Scope Z_scope.

Module RateLimit.

(** * The token bucket of [golang.org/x/time/rate]

    [Allow] takes a token when there is one. [Reserve] takes a token that may not be there yet and
    returns how long to wait for it; the bucket goes below zero. *)

Class RateLib : Type := {
  Limiter : Type;
  rate_NewLimiter : Q -> Z -> Limiter;
  rate_Allow : Time -> Limiter -> Limiter * bool;
  rate_Reserve : Time -> Limiter -> Limiter * Duration;
  (** [TokensAt] and [Burst], and what the limiter gains in a span of time *)
  rate_TokensAt : Limiter -> Time -> Q;
  rate_Burst : Limiter -> Z;
  rate_Gain : Limiter -> Duration -> Q;
}.

Class RateLaws `{!RateLib} : Prop := {
  allow_iff : forall t l, 1 <= rate_Burst l -> snd (rate_Allow t l) = true <-> (1 <= rate_TokensAt l t)%Q;
  allow_refused : forall t l, snd (rate_Allow t l) = false ->
    (rate_TokensAt (fst (rate_Allow t l)) t == rate_TokensAt l t)%Q;
  allow_same : forall t l d, rate_Burst (fst (rate_Allow t l)) = rate_Burst l /\
    rate_Gain (fst (rate_Allow t l)) d = rate_Gain l d;
  reserve_takes : forall t l, 1 <= rate_Burst l ->
    (rate_TokensAt (fst (rate_Reserve t l)) t == rate_TokensAt l t - 1)%Q;
  reserve_same : forall t l d, rate_Burst (fst (rate_Reserve t l)) = rate_Burst l /\
    rate_Gain (fst (rate_Reserve t l)) d = rate_Gain l d;
  tokens_grow : forall l t t', t <= t' -> (rate_TokensAt l t' <= rate_TokensAt l t + rate_Gain l (t' - t))%Q;
}.

(** * The address of a client *)

Section Address.
(** [net.SplitHostPort], [net.ParseIP], [net.ParseCIDR] and [IPNet.Contains]. *)
Context {IP IPNet : Type}.
Variable SplitHostPort : string -> option string.
Variable ParseIP : string -> option IP.
Variable ParseCIDR : string -> option IPNet.
Variable Contains_ : IPNet -> IP -> bool.

(** What the limiter reads of a request. *)
Record Request : Type := {
  RemoteAddr : string;
  XForwardedFor : string;
}.

(** [parseTrustedProxies]: what does not parse is skipped. *)
Definition parseTrustedProxies (cidrs : list string) : list IPNet := omap ParseCIDR cidrs.

(** [remoteHost] *)
Definition remoteHost (r : Request) : string :=
  match SplitHostPort (RemoteAddr r) with Some host => host | None => RemoteAddr r end.

(** The first address of the header, if it is not blank. *)
Definition forwardedIP (r : Request) : option string :=
  if (XForwardedFor r =? "")%string then None else
  let ip := TrimSpace (match SplitN2 (XForwardedFor r) ","%char with x :: _ => x | [] => "" end) in
  if (ip =? "")%string then None else Some ip.

(** [clientIPWith] *)
Definition clientIPWith (r : Request) (trusted : list IPNet) : string :=
  let peer := remoteHost r in
  match trusted with
  | [] => default peer (forwardedIP r)
  | _ :: _ =>
      let fromTrustedProxy :=
        match ParseIP peer with
        | None => false
        | Some peerIP => existsb (fun ipnet => Contains_ ipnet peerIP) trusted
        end in
      if fromTrustedProxy then default peer (forwardedIP r) else peer
  end.

(** [clientIP] *)
Definition clientIP (r : Request) : string := clientIPWith r [].

Definition fromProxy (r : Request) (trusted : list IPNet) : Prop :=
  exists peerIP ipnet, ParseIP (remoteHost r) = Some peerIP /\ ipnet ∈ trusted /\
    Contains_ ipnet peerIP = true.

(** With proxies configured, a client that is not one of them is counted under the address of its
    connection, whatever header it sends. *)
Lemma client_cannot_choose_ip r trusted :
  trusted <> [] -> ~ fromProxy r trusted -> clientIPWith r trusted = remoteHost r.
Proof.
  intros Hne Hn. unfold clientIPWith. destruct trusted as [|n ns]; [done|].
  destruct (ParseIP (remoteHost r)) as [peerIP|] eqn:Hp; [|done].
  destruct (existsb _ (n :: ns)) eqn:He; [|done]. exfalso. apply Hn.
  apply existsb_exists in He as (ipnet & Hin & Hc). exists peerIP, ipnet. split; [done|].
  split; [by apply list_elem_of_In|done].
Qed.

(** Without any valid proxy, which a list of mistyped ranges also is, the client chooses. *)
Lemma client_chooses_ip r cidrs ip :
  Forall (fun c => ParseCIDR c = None) cidrs -> forwardedIP r = Some ip ->
  clientIPWith r (parseTrustedProxies cidrs) = ip.
Proof.
  intros Hall Hf. assert (parseTrustedProxies cidrs = []) as ->.
  { unfold parseTrustedProxies. induction Hall as [|c cs Hc _ IH]; [done|]. cbn. by rewrite Hc. }
  unfold clientIPWith. by rewrite Hf.
Qed.

(** * The middleware *)

Context {lib : RateLib}.

(** [RateLimitConfig], less the proxies *)
Record RateLimitConfig : Type := {
  GlobalRate : Q;
  GlobalBurst : Z;
  PerIPRate : Q;
  PerIPBurst : Z;
}.

Record ipLimiter : Type := {
  il_limiter : Limiter;
  il_lastSeen : Time;
}.

Record LimitState : Type := {
  global : Limiter;
  ips : gmap string ipLimiter;
}.

(** The state [rateLimitMiddleware] sets up. *)
Definition newState (cfg : RateLimitConfig) : LimitState :=
  {| global := rate_NewLimiter (GlobalRate cfg) (GlobalBurst cfg); ips := ∅ |}.

(** [writeRateLimited]: the seconds of the [Retry-After] header. *)
Definition retrySeconds (retryAfter : Duration) : Z :=
  Z.max 1 (- ((- retryAfter) / Second)).

Inductive Outcome : Type :=
| Served
| Limited (scope : string) (retry : Z).

(** The handler of [rateLimitMiddleware] outside dev mode, in dev mode requests are served
    without it; the [i]-th reading of the clock is [now i]. *)
Definition limitRequest (cfg : RateLimitConfig) (trusted : list IPNet) (now : nat -> Time)
    (r : Request) (s : LimitState) : LimitState * Outcome :=
  let ip := clientIPWith r trusted in
  match rate_Allow (now 0%nat) (global s) with
  | (g, false) =>
      let rsv := rate_Reserve (now 1%nat) g in
      ({| global := fst rsv; ips := ips s |}, Limited "global" (retrySeconds (snd rsv)))
  | (g, true) =>
      let newIL := {| il_limiter := rate_NewLimiter (PerIPRate cfg) (PerIPBurst cfg);
                      il_lastSeen := now 1%nat |} in
      let il := default newIL (ips s !! ip) in
      match rate_Allow (now 3%nat) (il_limiter il) with
      | (l, true) =>
          ({| global := g; ips := <[ip := {| il_limiter := l; il_lastSeen := now 2%nat |}]> (ips s) |}, Served)
      | (l, false) =>
          let rsv := rate_Reserve (now 4%nat) l in
          ({| global := g; ips := <[ip := {| il_limiter := fst rsv; il_lastSeen := now 2%nat |}]> (ips s) |},
           Limited "per_ip" (retrySeconds (snd rsv)))
      end
  end.

(** One tick of the clean-up: what was not seen for ten minutes goes. *)
Definition cleanupIPs (now : Time) (s : LimitState) : LimitState :=
  {| global := global s; ips := purge (fun il => il_lastSeen il <? now - 10 * Minute) (ips s) |}.

(** The middleware: dev mode passes everything. *)
Definition rateLimit (devMode : bool) (cfg : RateLimitConfig) (trusted : list IPNet) (now : nat -> Time)
    (r : Request) (s : LimitState) : LimitState * Outcome :=
  if devMode then (s, Served) else limitRequest cfg trusted now r s.

(** A flood of requests at one instant. *)
Fixpoint flood (cfg : RateLimitConfig) (trusted : list IPNet) (t : Time) (rs : list Request) (s : LimitState)
    : LimitState :=
  match rs with
  | [] => s
  | r :: rs' => flood cfg trusted t rs' (fst (limitRequest cfg trusted (fun _ => t) r s))
  end.

Context {laws : RateLaws}.

(** A request the global bucket refuses still takes a token from it. *)
Lemma refused_takes_token cfg trusted t r s :
  1 <= rate_Burst (global s) -> (rate_TokensAt (global s) t < 1)%Q ->
  let s' := fst (limitRequest cfg trusted (fun _ => t) r s) in
  (rate_TokensAt (global s') t == rate_TokensAt (global s) t - 1)%Q /\
  rate_Burst (global s') = rate_Burst (global s) /\ ips s' = ips s /\
  (forall d, rate_Gain (global s') d = rate_Gain (global s) d).
Proof using Type laws.
  intros Hb Ht. unfold limitRequest.
  pose proof (allow_iff t (global s) Hb) as Hi. pose proof (allow_same t (global s)) as Hs.
  pose proof (allow_refused t (global s)) as Hr.
  destruct (rate_Allow t (global s)) as [g [|]] eqn:Ha; cbn in *.
  { exfalso. apply proj1 in Hi. specialize (Hi eq_refl). lra. }
  specialize (Hr eq_refl).
  assert (Hg : rate_Burst g = rate_Burst (global s)) by (apply (Hs 0)).
  split_and!.
  - rewrite reserve_takes by (by rewrite Hg). lra.
  - by rewrite (proj1 (reserve_same t g 0)).
  - done.
  - intros d. by rewrite (proj2 (reserve_same t g d)), (proj2 (Hs d)).
Qed.

Lemma flood_takes_tokens cfg trusted t rs s :
  1 <= rate_Burst (global s) -> (rate_TokensAt (global s) t < 1)%Q ->
  let s' := flood cfg trusted t rs s in
  (rate_TokensAt (global s') t == rate_TokensAt (global s) t - inject_Z (Z.of_nat (length rs)))%Q /\
  rate_Burst (global s') = rate_Burst (global s) /\
  (forall d, rate_Gain (global s') d = rate_Gain (global s) d).
Proof using Type laws.
  revert s. induction rs as [|r rs IH]; intros s Hb Ht; cbn [flood length].
  { split_and!; [|done..]. change (inject_Z (Z.of_nat 0)) with 0%Q. lra. }
  destruct (refused_takes_token cfg trusted t r s Hb Ht) as (H1 & H2 & _ & H4).
  destruct (IH (fst (limitRequest cfg trusted (fun _ => t) r s))) as (I1 & I2 & I3).
  - by rewrite H2.
  - rewrite H1. lra.
  - split_and!.
    + rewrite I1, H1, Nat2Z.inj_succ, <- Z.add_1_r, inject_Z_plus. change (inject_Z 1) with 1%Q. lra.
    + by rewrite I2.
    + intros d. by rewrite I3.
Qed.

(** Refused requests starve everyone. Once the global bucket is empty, [n] more requests at
    that instant, all refused, put it [n] tokens into debt: until it has gained them back every
    request of every client is refused. *)
Theorem refused_requests_starve cfg trusted t rs s t' now r :
  1 <= rate_Burst (global s) -> (rate_TokensAt (global s) t < 1)%Q -> t <= t' -> now 0%nat = t' ->
  (rate_Gain (global s) (t' - t) <= inject_Z (Z.of_nat (length rs)))%Q ->
  exists retry, snd (limitRequest cfg trusted now r (flood cfg trusted t rs s)) = Limited "global" retry.
Proof using Type laws.
  intros Hb Ht Hle Hnow Hg.
  destruct (flood_takes_tokens cfg trusted t rs s Hb Ht) as (F1 & F2 & F3).
  set (s' := flood cfg trusted t rs s) in *. unfold limitRequest. rewrite Hnow.
  pose proof (allow_iff t' (global s')) as Hi. rewrite F2 in Hi. specialize (Hi Hb).
  destruct (rate_Allow t' (global s')) as [g [|]]; cbn in *; [|eauto].
  exfalso. apply proj1 in Hi. specialize (Hi eq_refl).
  pose proof (tokens_grow (global s') t t' Hle) as Hgr. rewrite F3, F1 in Hgr. lra.
Qed.
End Address.

(** * A concrete limiter *)

Record bucket : Type := {
  b_rate : N;
  b_burst : Z;
  b_tokens : Q;
  b_last : Time;
}.

Definition gain (rate : N) (d : Duration) : Q := (Z.of_N rate * d) # 1000000000.
Definition tokensAt (l : bucket) (t : Time) : Q :=
  Qmin (inject_Z (b_burst l)) (b_tokens l + gain (b_rate l) (Z.max 0 (t - b_last l))).
Definition take (l : bucket) (t : Time) : bucket :=
  {| b_rate := b_rate l; b_burst := b_burst l; b_tokens := tokensAt l t - 1; b_last := t |}.

#[local] Instance demo_rate : RateLib := {|
  Limiter := bucket;
  rate_NewLimiter q b := {| b_rate := Z.to_N (Qfloor q); b_burst := b; b_tokens := inject_Z b; b_last := 0 |};
  rate_Allow t l := if Qle_bool 1 (tokensAt l t) then (take l t, true) else (l, false);
  rate_Reserve t l := (take l t, Second);
  rate_TokensAt l t := tokensAt l t;
  rate_Burst l := b_burst l;
  rate_Gain l d := gain (b_rate l) d;
|}.

Lemma gain_mono r d d' : d <= d' -> (gain r d <= gain r d')%Q.
Proof. unfold gain, Qle. cbn. nia. Qed.
Lemma gain_add r d d' : (gain r (d + d') == gain r d + gain r d')%Q.
Proof. unfold gain, Qeq. cbn. lia. Qed.

Lemma take_tokens l t : (tokensAt (take l t) t == tokensAt l t - 1)%Q.
Proof.
  unfold tokensAt at 1. cbn. rewrite Z.sub_diag.
  assert (gain (b_rate l) (Z.max 0 0) == 0)%Q as -> by (unfold gain, Qeq; cbn; lia).
  assert (tokensAt l t <= inject_Z (b_burst l))%Q as Hb by apply Q.le_min_l.
  destruct (Q.min_spec (inject_Z (b_burst l)) (tokensAt l t - 1 + 0)) as [[Hl ->]|[Hl ->]]; lra.
Qed.

#[local] Instance demo_rate_laws : RateLaws.
Proof.
  split; cbn.
  - intros t l _. rewrite <- Qle_bool_iff. by destruct (Qle_bool 1 (tokensAt l t)).
  - intros t l. destruct (Qle_bool 1 (tokensAt l t)); [done|]. intros _. reflexivity.
  - intros t l d. by destruct (Qle_bool 1 (tokensAt l t)).
  - intros t l _. apply take_tokens.
  - done.
  - intros l t t' Ht. unfold tokensAt.
    assert (gain (b_rate l) (Z.max 0 (t' - b_last l)) <=
            gain (b_rate l) (Z.max 0 (t - b_last l)) + gain (b_rate l) (t' - t))%Q as Hg.
    { rewrite <- gain_add. apply gain_mono. lia. }
    assert (0 <= gain (b_rate l) (t' - t))%Q as H0.
    { unfold gain, Qle. cbn. nia. }
    destruct (Q.min_spec (inject_Z (b_burst l)) (b_tokens l + gain (b_rate l) (Z.max 0 (t - b_last l))))
      as [[H1 ->]|[H1 ->]];
    destruct (Q.min_spec (inject_Z (b_burst l)) (b_tokens l + gain (b_rate l) (Z.max 0 (t' - b_last l))))
      as [[H2 ->]|[H2 ->]]; lra.
Qed.

Definition demo_cfg : RateLimitConfig :=
  {| GlobalRate := 100; GlobalBurst := 1; PerIPRate := 10; PerIPBurst := 10 |}.
Definition demo_split (s : string) : option string := Some s.
Definition demo_ip (s : string) : option string := Some s.
Definition demo_contains (n ip : string) : bool := (n =? ip)%string.
Definition demo_request : Request := {| RemoteAddr := "10.0.0.1"; XForwardedFor := "" |}.
(** After one served request the bucket of one token is empty. *)
Definition demo_state : LimitState :=
  fst (limitRequest demo_split demo_ip demo_contains demo_cfg [] (fun _ => 0) demo_request (newState demo_cfg)).

(** A thousand refused requests keep everyone out for ten seconds at a hundred a second. *)
Lemma refused_requests_starve_witness :
  exists retry, snd (limitRequest demo_split demo_ip demo_contains demo_cfg [] (fun _ => 10 * Second)
    {| RemoteAddr := "10.0.0.2"; XForwardedFor := "" |}
    (flood demo_split demo_ip demo_contains demo_cfg [] 0 (repeat demo_request 1000) demo_state))
    = Limited "global" retry.
Proof.
  apply (refused_requests_starve demo_split demo_ip demo_contains demo_cfg [] 0 (repeat demo_request 1000)
    demo_state (10 * Second)); [vm_compute; discriminate|vm_compute; reflexivity|
    vm_compute; discriminate|reflexivity|vm_compute; discriminate].
Defined.
End RateLimit.
