(* ===== verification/EventStream.v ===== *)
(** The event stream of the HTTP API ([pkg/api/eventstream.go], [events_handler.go]): the
    broadcaster with its bounded channels, and what a client of the stream is sent. *)
From Stdlib Require Import ZArith QArith Lia Ascii.
From stdpp Require Import base gmap strings list.
From S2P Require Import Prelude.
From S2P Require Import GoLib.
From S2P Require Import ApiCommon.

#[local] Open Scope string_scope.
#[local] Open Scope list_scope.
#[local] Open Scope nat_scope.

Module EventStream.

(** [FabricEvent] *)
Record FabricEvent : Type := {
  fe_ID : string;
  fe_Timestamp : string;
  fe_Type : string;
  fe_Subject : string;
  fe_Target : string;
  fe_Duration : Q;
  fe_Result : string;
  fe_Detail : string;
  fe_UnitID : string;
}.

Definition defaultBufferSize : nat := 1000.

(** [EventBroadcaster]: the channel of each subscriber with what waits in it, and the number of
    channels made so far, which names the next one. *)
Record EventBroadcaster : Type := {
  subscribers : gmap nat (list FabricEvent);
  made : nat;
  bufferSize : nat;
}.

(** [NewEventBroadcaster] *)
Definition NewEventBroadcaster : EventBroadcaster :=
  {| subscribers := ∅; made := 0; bufferSize := defaultBufferSize |}.

(** [select { case ch <- event: default: }] on a channel with this capacity *)
Definition offer (cap : nat) (event : FabricEvent) (buf : list FabricEvent) : list FabricEvent :=
  if length buf <? cap then buf ++ [event] else buf.

(** One round of the loop of [Broadcast] *)
Definition offerTo (event : FabricEvent) (b : EventBroadcaster) (ch : nat) : EventBroadcaster :=
  {| subscribers := alter (offer (bufferSize b) event) ch (subscribers b); made := made b; bufferSize := bufferSize b |}.

(** [Broadcast] with the subscribers visited in the order [chs], when nothing else runs *)
Definition Broadcast (chs : list nat) (event : FabricEvent) (b : EventBroadcaster) : EventBroadcaster :=
  foldl (offerTo event) b chs.

(** [Subscribe] *)
Definition Subscribe (b : EventBroadcaster) : EventBroadcaster * nat :=
  ({| subscribers := <[made b := []]> (subscribers b); made := S (made b); bufferSize := bufferSize b |},
   made b).

(** [Unsubscribe]: the channel is closed when it was a subscriber; the flag says so. *)
Definition Unsubscribe (ch : nat) (b : EventBroadcaster) : EventBroadcaster * bool :=
  match subscribers b !! ch with
  | Some _ => ({| subscribers := delete ch (subscribers b); made := made b; bufferSize := bufferSize b |}, true)
  | None => (b, false)
  end.

(** [SubscriberCount] *)
Definition SubscriberCount (b : EventBroadcaster) : nat := size (subscribers b).

(** [event := <-ch], when an event waits. *)
Definition receive (ch : nat) (b : EventBroadcaster) : EventBroadcaster * option FabricEvent :=
  match subscribers b !! ch with
  | Some (e :: buf) =>
      ({| subscribers := <[ch := buf]> (subscribers b); made := made b; bufferSize := bufferSize b |}, Some e)
  | _ => (b, None)
  end.

(** * Concurrent runs

    [Broadcast] only holds the read lock: any number of them run at a time and their sends interleave, also with
    the readers of the channels, which take no lock. [Subscribe] and [Unsubscribe] take the write lock, so they
    wait until no broadcast runs. *)

(** The broadcasts under way, by the number they started with: the event and the subscribers it was not yet
    offered to. *)
Record Conf : Type := {
  bc : EventBroadcaster;
  active : gmap nat (FabricEvent * gset nat);
  started : nat;
}.
Definition idle (b : EventBroadcaster) : Conf := {| bc := b; active := ∅; started := 0 |}.

Inductive Op : Type :=
| OStart (e : FabricEvent)
| OOffer (i ch : nat)
| OEnd (i : nat)
| OSubscribe
| OUnsubscribe (ch : nat)
| OReceive (ch : nat).

Definition withBc (b : EventBroadcaster) (c : Conf) : Conf := {| bc := b; active := active c; started := started c |}.
Definition step (c : Conf) (o : Op) : option Conf :=
  match o with
  | OStart e => Some {| bc := bc c; active := <[started c := (e, dom (subscribers (bc c)))]> (active c); started := S (started c) |}
  | OOffer i ch =>
      match active c !! i with
      | Some (e, rest) =>
          if decide (ch ∈ rest)
          then Some {| bc := offerTo e (bc c) ch; active := <[i := (e, rest ∖ {[ch]})]> (active c); started := started c |}
          else None
      | None => None
      end
  | OEnd i =>
      match active c !! i with
      | Some (_, rest) => if decide (rest = ∅) then Some {| bc := bc c; active := delete i (active c); started := started c |} else None
      | None => None
      end
  | OSubscribe => if decide (active c = ∅) then Some (withBc (fst (Subscribe (bc c))) c) else None
  | OUnsubscribe ch => if decide (active c = ∅) then Some (withBc (fst (Unsubscribe ch (bc c))) c) else None
  | OReceive ch => Some (withBc (fst (receive ch (bc c))) c)
  end.
Fixpoint run (c : Conf) (os : list Op) : option Conf :=
  match os with [] => Some c | o :: os' => step c o ≫= fun c' => run c' os' end.

(** What a step shows of a channel and of the broadcasts: an event received from the channel, one offered to it,
    and a broadcast that starts. *)
Definition received1 (ch : nat) (c : Conf) (o : Op) : list FabricEvent :=
  match o with OReceive k => if decide (k = ch) then option_list (snd (receive ch (bc c))) else [] | _ => [] end.
Definition offered1 (ch : nat) (c : Conf) (o : Op) : list (nat * FabricEvent) :=
  match o with
  | OOffer i k => if decide (k = ch) then option_list ((fun er => (i, er.1)) <$> active c !! i) else []
  | _ => []
  end.
Definition begun1 (c : Conf) (o : Op) : list (nat * FabricEvent) :=
  match o with OStart e => [(started c, e)] | _ => [] end.
Fixpoint observe {A} (f : Conf -> Op -> list A) (c : Conf) (os : list Op) : list A :=
  match os with
  | [] => []
  | o :: os' => f c o ++ match step c o with Some c' => observe f c' os' | None => [] end
  end.
Definition received (ch : nat) : Conf -> list Op -> list FabricEvent := observe (received1 ch).
Definition offered (ch : nat) : Conf -> list Op -> list (nat * FabricEvent) := observe (offered1 ch).
Definition begun : Conf -> list Op -> list (nat * FabricEvent) := observe begun1.

Lemma run_app c os1 os2 : run c (os1 ++ os2) = run c os1 ≫= fun c' => run c' os2.
Proof. revert c. induction os1 as [|o os1 IH]; intros c; [done|]. cbn. destruct (step c o); [apply IH|done]. Qed.
Lemma observe_app {A} (f : Conf -> Op -> list A) c os1 os2 cm :
  run c os1 = Some cm -> observe f c (os1 ++ os2) = observe f c os1 ++ observe f cm os2.
Proof.
  revert c. induction os1 as [|o os1 IH]; intros c; cbn; [by intros [= ->]|].
  destruct (step c o) as [c'|]; [|done]. cbn. intros Hr. by rewrite (IH _ Hr), app_assoc.
Qed.

(** A broadcast that runs alone offers its event once to every subscriber, whatever the order. *)
Lemma broadcast_alone e chs b :
  NoDup chs -> list_to_set chs = dom (subscribers b) ->
  Broadcast chs e b = {| subscribers := offer (bufferSize b) e <$> subscribers b; made := made b; bufferSize := bufferSize b |}.
Proof.
  assert (Hgen : forall l b, NoDup l -> exists m, Broadcast l e b = {| subscribers := m; made := made b; bufferSize := bufferSize b |} /\
    forall ch, m !! ch = if decide (ch ∈ l) then offer (bufferSize b) e <$> subscribers b !! ch else subscribers b !! ch).
  { clear. induction l as [|k l IH]; intros b Hnd.
    - exists (subscribers b). split; [by destruct b|]. intros ch. by rewrite decide_False by apply not_elem_of_nil.
    - apply NoDup_cons in Hnd as [Hk Hnd]. destruct (IH (offerTo e b k) Hnd) as (m & Hm & Hl). exists m. split; [exact Hm|].
      intros ch. rewrite Hl. cbn. destruct (decide (ch = k)) as [->|Hne].
      + rewrite decide_False, decide_True by (done || by left). apply lookup_alter_eq.
      + rewrite lookup_alter_ne by done. destruct (decide (ch ∈ l)); [rewrite decide_True by by right|rewrite decide_False by set_solver]; done. }
  intros Hnd Hdom. destruct (Hgen chs b Hnd) as (m & -> & Hm). f_equal. apply map_eq. intros ch. rewrite Hm, lookup_fmap.
  case_decide as Hin; [done|]. destruct (subscribers b !! ch) eqn:Hs; [|done]. exfalso. apply Hin.
  rewrite <- (elem_of_list_to_set (C:=gset nat)), Hdom. apply elem_of_dom. by eexists.
Qed.

Definition bounded (b : EventBroadcaster) : Prop :=
  (forall ch buf, subscribers b !! ch = Some buf -> length buf <= bufferSize b) /\
  (forall ch, is_Some (subscribers b !! ch) -> ch < made b).

Lemma offer_length cap e buf : length buf <= cap -> length (offer cap e buf) <= cap.
Proof.
  unfold offer. intros Hb. destruct (Nat.ltb_spec (length buf) cap); [|done].
  rewrite length_app. cbn. lia.
Qed.

Lemma step_bounded c o c' : step c o = Some c' -> bounded (bc c) -> bounded (bc c') /\ bufferSize (bc c') = bufferSize (bc c).
Proof.
  intros Hst [Hb Hm]. destruct o as [e|i ch|i| |ch|ch]; cbn in Hst.
  - by injection Hst as <-.
  - destruct (active c !! i) as [[e rest]|]; [|done]. case_decide; [|done]. injection Hst as <-. cbn. split; [|done]. split; cbn.
    + intros k buf. destruct (decide (k = ch)) as [->|]; [rewrite lookup_alter_eq|rewrite lookup_alter_ne by done; apply Hb].
      destruct (subscribers (bc c) !! ch) as [buf'|] eqn:Hl; [|done]. intros [= <-]. eapply offer_length, Hb, Hl.
    + intros k. rewrite lookup_alter_is_Some. apply Hm.
  - destruct (active c !! i) as [[e rest]|]; [|done]. case_decide; [|done]. by injection Hst as <-.
  - case_decide; [|done]. injection Hst as <-. cbn. split; [|done]. split; cbn.
    + intros k buf. rewrite lookup_insert. case_decide; [intros [= <-]; cbn; lia|apply Hb].
    + intros k. rewrite lookup_insert. case_decide; [lia|]. intros ?%Hm. lia.
  - case_decide; [|done]. injection Hst as <-. cbn. unfold Unsubscribe.
    destruct (subscribers (bc c) !! ch) eqn:Hl; cbn; [|done]. split; [|done].
    split; cbn; intros ch'; rewrite lookup_delete; case_decide; naive_solver.
  - injection Hst as <-. cbn. unfold receive. destruct (subscribers (bc c) !! ch) as [[|e buf]|] eqn:Hl; cbn; [done| |done].
    split; [|done]. split; cbn; intros ch'; rewrite lookup_insert; case_decide; subst; [|naive_solver..].
    intros buf' [= <-]. apply Hb in Hl. cbn in Hl. lia.
Qed.

(** However slow its subscribers are, the broadcaster never holds more than the buffer size per
    subscriber. *)
Lemma buffers_bounded os c : run (idle NewEventBroadcaster) os = Some c -> bounded (bc c).
Proof.
  assert (H0 : bounded (bc (idle NewEventBroadcaster))) by (split; intros ch; cbn; rewrite lookup_empty; [done|by intros []]).
  revert H0. generalize (idle NewEventBroadcaster). induction os as [|o os IH]; intros c0 Hb; cbn; [by intros [= <-]|].
  destruct (step c0 o) as [c1|] eqn:Hst; [|done]. apply IH. by eapply step_bounded.
Qed.

(** ** What a subscriber gets *)

Definition waiting (ch : nat) (b : EventBroadcaster) : list FabricEvent :=
  default [] (subscribers b !! ch).

Definition keeps_open (ch : nat) (o : Op) : Prop := o <> OUnsubscribe ch.

Lemma step_open ch c o c' : step c o = Some c' -> bounded (bc c) -> is_Some (subscribers (bc c) !! ch) -> keeps_open ch o ->
  is_Some (subscribers (bc c') !! ch).
Proof.
  intros Hst [_ Hm] Hs Hk. pose proof (Hm _ Hs). destruct o as [e|i k|i| |k|k]; cbn in Hst.
  - by injection Hst as <-.
  - destruct (active c !! i) as [[e rest]|]; [|done]. case_decide; [|done]. injection Hst as <-. cbn. by rewrite lookup_alter_is_Some.
  - destruct (active c !! i) as [[e rest]|]; [|done]. case_decide; [|done]. by injection Hst as <-.
  - case_decide; [|done]. injection Hst as <-. cbn. by rewrite lookup_insert_ne by lia.
  - case_decide; [|done]. injection Hst as <-. cbn. unfold Unsubscribe. destruct (subscribers (bc c) !! k); cbn; [|done].
    rewrite lookup_delete_ne; [done|]. intros ->. by apply Hk.
  - injection Hst as <-. cbn. unfold receive. destruct (subscribers (bc c) !! k) as [[|e buf]|] eqn:Hc; cbn; [done| |done].
    rewrite lookup_insert. by case_decide; [eauto|].
Qed.

(** One step: what the subscriber has received and has waiting grows by the event offered to it or by nothing, and
    by the event when there is room. *)
Lemma step_waiting ch c o c' : step c o = Some c' -> bounded (bc c) -> is_Some (subscribers (bc c) !! ch) -> keeps_open ch o ->
  exists l, received1 ch c o ++ waiting ch (bc c') = waiting ch (bc c) ++ l /\
    sublist l (offered1 ch c o).*2 /\ (length (waiting ch (bc c)) < bufferSize (bc c) -> l = (offered1 ch c o).*2).
Proof.
  intros Hst [_ Hm] Hs Hk. pose proof (Hm _ Hs). unfold waiting. destruct o as [e|i k|i| |k|k]; cbn in Hst |- *.
  - injection Hst as <-. exists []. by rewrite app_nil_r.
  - destruct (active c !! i) as [[e rest]|]; [|done]. case_decide; [|done]. injection Hst as <-. cbn.
    destruct (decide (k = ch)) as [->|]; cbn.
    + rewrite lookup_alter_eq. destruct Hs as [buf Hs]. rewrite Hs. cbn. unfold offer.
      destruct (Nat.ltb_spec (length buf) (bufferSize (bc c))); [by exists [e]|].
      exists []. rewrite app_nil_r. split; [done|]. split; [apply sublist_nil_l|lia].
    + exists []. rewrite lookup_alter_ne by done. by rewrite app_nil_r.
  - destruct (active c !! i) as [[e rest]|]; [|done]. case_decide; [|done]. injection Hst as <-. exists []. by rewrite app_nil_r.
  - case_decide; [|done]. injection Hst as <-. exists []. cbn. rewrite lookup_insert_ne by lia. by rewrite app_nil_r.
  - case_decide; [|done]. injection Hst as <-. exists []. unfold Unsubscribe. rewrite app_nil_r. split; [|done]. cbn.
    destruct (subscribers (bc c) !! k); cbn; [|done]. rewrite lookup_delete_ne; [done|]. intros ->. by apply Hk.
  - injection Hst as <-. exists []. rewrite !app_nil_r. split; [|done]. cbn. unfold receive.
    destruct (decide (k = ch)) as [->|Hne].
    + destruct (subscribers (bc c) !! ch) as [[|e buf]|] eqn:Hc; cbn; rewrite ?Hc; cbn; try done.
      by rewrite lookup_insert_eq.
    + destruct (subscribers (bc c) !! k) as [[|e buf]|] eqn:Hc; cbn; [done| |done]. by rewrite lookup_insert_ne.
Qed.

Lemma run_waiting ch os c c' :
  run c os = Some c' -> bounded (bc c) -> is_Some (subscribers (bc c) !! ch) -> Forall (keeps_open ch) os ->
  exists l, received ch c os ++ waiting ch (bc c') = waiting ch (bc c) ++ l /\
    sublist l (offered ch c os).*2 /\
    (length (waiting ch (bc c)) + length (offered ch c os) <= bufferSize (bc c) -> l = (offered ch c os).*2).
Proof.
  revert c. induction os as [|o os IH]; intros c Hr Hb Hs Hall.
  { injection Hr as <-. exists []. by rewrite app_nil_r. }
  cbn in Hr. destruct (step c o) as [c1|] eqn:Hst; [|done]. cbn in Hr.
  apply Forall_cons in Hall as [Ho Hall]. destruct (step_waiting ch c o c1 Hst Hb Hs Ho) as (l & Hl & Hsub & Hf).
  destruct (step_bounded c o c1 Hst Hb) as [Hb' Hz].
  destruct (IH c1 Hr Hb' (step_open ch c o c1 Hst Hb Hs Ho) Hall) as (l' & Hl' & Hsub' & Hf').
  exists (l ++ l'). unfold received, offered in *. cbn [observe]. rewrite Hst, fmap_app.
  split; [by rewrite <- app_assoc, Hl', app_assoc, Hl, app_assoc|].
  split; [by apply sublist_app|]. rewrite length_app. intros Hlen.
  assert (l = (offered1 ch c o).*2) as ->.
  { destruct (offered1 ch c o); cbn in *; [by apply sublist_nil_r in Hsub|]. apply Hf. lia. }
  f_equal. apply Hf'. rewrite Hz. apply (f_equal length) in Hl. rewrite !length_app, length_fmap in Hl. lia.
Qed.

(** ** Every broadcast is offered once *)

(** The offers made to an open channel and the broadcasts begun since it was subscribed *)
Record accounted (ch : nat) (c : Conf) (off beg : list (nat * FabricEvent)) : Prop := {
  ac_open : is_Some (subscribers (bc c) !! ch);
  ac_from : off ⊆ beg;
  ac_once : NoDup off.*1;
  ac_begun : forall i e, (i, e) ∈ beg -> (i < started c) /\ ((i, e) ∈ off \/ exists rest, active c !! i = Some (e, rest) /\ ch ∈ rest);
  ac_due : forall i e rest, active c !! i = Some (e, rest) -> (i, e) ∈ beg /\ (ch ∈ rest -> i ∉ off.*1);
}.

Lemma accounted_id ch c off beg : accounted ch c off beg -> started c ∉ off.*1.
Proof. intros H ([i e] & Hi & Hin%(ac_from _ _ _ _ H))%list_elem_of_fmap. cbn in Hi. destruct (ac_begun _ _ _ _ H _ _ Hin). lia. Qed.

Lemma accounted_start ch e c c' off beg :
  step c (OStart e) = Some c' -> accounted ch c off beg -> accounted ch c' off (beg ++ [(started c, e)]).
Proof.
  intros [= <-] H. pose proof (accounted_id _ _ _ _ H) as Hnew. destruct H as [Ho Hf Hn Hb Hd]. split; cbn; [done|set_solver|done|..].
  - intros i e' [Hin|[= -> ->]%list_elem_of_singleton]%elem_of_app.
    + destruct (Hb _ _ Hin) as (Hlt & Hor). split; [lia|]. rewrite lookup_insert_ne by lia. done.
    + split; [lia|]. right. rewrite lookup_insert_eq. eexists. split; [done|]. by apply elem_of_dom.
  - intros i e' rest. rewrite lookup_insert. case_decide as Heq.
    + intros [= <- <-]. subst i. split; [|done]. rewrite elem_of_app, list_elem_of_singleton. by right.
    + intros [Hin Hnot]%Hd. split; [|done]. rewrite elem_of_app. by left.
Qed.

Lemma accounted_offer ch i k c c' off beg :
  step c (OOffer i k) = Some c' -> accounted ch c off beg -> accounted ch c' (off ++ offered1 ch c (OOffer i k)) beg.
Proof.
  cbn. destruct (active c !! i) as [[e rest]|] eqn:Ha; [|done]. case_decide as Hk; [|done]. intros [= <-] [Ho Hf Hn Hb Hd].
  destruct (Hd _ _ _ Ha) as [Hin Hnot]. cbn. destruct (decide (k = ch)) as [->|Hne]; cbn.
  - split; cbn.
    + by rewrite lookup_alter_is_Some.
    + set_solver.
    + rewrite fmap_app, NoDup_app. split_and!; [done| |apply NoDup_singleton]. cbn. intros x Hx ->%list_elem_of_singleton. by apply Hnot.
    + intros j e' Hj. destruct (Hb _ _ Hj) as (Hlt & Hor). split; [done|]. destruct (decide (i = j)) as [<-|Hij].
      * left. destruct Hor as [?|(r & Hr & _)]; [set_solver|]. rewrite Ha in Hr. injection Hr as -> _. set_solver.
      * rewrite lookup_insert_ne by done. destruct Hor as [?|?]; [left; set_solver|by right].
    + intros j e' r. rewrite lookup_insert. case_decide as Heq.
      * intros [= <- <-]. subst j. split; [done|]. set_solver.
      * intros Hj. destruct (Hd _ _ _ Hj) as [? Hno]. split; [done|]. intros Hr. rewrite fmap_app, not_elem_of_app. split; [by apply Hno|]. cbn. set_solver.
  - rewrite app_nil_r. split; cbn; [by rewrite lookup_alter_is_Some|done|done|..].
    + intros j e' Hj. destruct (Hb _ _ Hj) as (Hlt & Hor). split; [done|]. destruct Hor as [?|(r & Hr & Hc)]; [by left|right].
      rewrite lookup_insert. case_decide as Heq; [|by exists r]. subst j. rewrite Ha in Hr. injection Hr as -> ->.
      eexists. split; [done|]. set_solver.
    + intros j e' r. rewrite lookup_insert. case_decide as Heq; [|by apply Hd].
      intros [= <- <-]. subst j. split; [done|]. intros Hc. apply Hnot. set_solver.
Qed.

Lemma accounted_step ch c o c' off beg :
  step c o = Some c' -> bounded (bc c) -> keeps_open ch o -> accounted ch c off beg ->
  accounted ch c' (off ++ offered1 ch c o) (beg ++ begun1 c o).
Proof.
  intros Hst Hb Hk H. pose proof (step_open _ _ _ _ Hst Hb (ac_open _ _ _ _ H) Hk) as Hop.
  destruct o as [e|i k|i| |k|k]; cbn [offered1 begun1]; rewrite ?(app_nil_r off), ?(app_nil_r beg).
  - by apply accounted_start.
  - by apply accounted_offer.
  - cbn in Hst. destruct (active c !! i) as [[e rest]|] eqn:Ha; [|done]. case_decide as He; [|done]. injection Hst as <-.
    destruct H as [_ Hf Hn Hbg Hd]. split; cbn; [done..| |].
    + intros j e' Hj. destruct (Hbg _ _ Hj) as (Hlt & Hor). split; [done|]. destruct Hor as [?|(r & Hr & Hc)]; [by left|right].
      destruct (decide (i = j)) as [<-|]; [rewrite Ha in Hr; set_solver|]. exists r. by rewrite lookup_delete_ne.
    + intros j e' r [_ Hj]%lookup_delete_Some. by apply Hd.
  - cbn in Hst. case_decide; [|done]. injection Hst as <-. by destruct H.
  - cbn in Hst. case_decide; [|done]. injection Hst as <-. by destruct H.
  - injection Hst as <-. by destruct H.
Qed.

Lemma run_accounted ch os c c' off beg :
  run c os = Some c' -> bounded (bc c) -> Forall (keeps_open ch) os -> accounted ch c off beg ->
  accounted ch c' (off ++ offered ch c os) (beg ++ begun c os).
Proof.
  revert c off beg. induction os as [|o os IH]; intros c off beg Hr Hb Hall H.
  { injection Hr as <-. by rewrite !app_nil_r. }
  cbn in Hr. destruct (step c o) as [c1|] eqn:Hst; [|done]. apply Forall_cons in Hall as [Ho Hall].
  unfold offered, begun. cbn [observe]. rewrite Hst, !app_assoc.
  apply IH; [done|by eapply step_bounded|done|by apply accounted_step].
Qed.

Lemma offers_accounted_new ch c : is_Some (subscribers (bc c) !! ch) -> active c = ∅ -> accounted ch c [] [].
Proof. intros Ho Ha. split; [done|done|constructor|by intros ? ? ?%not_elem_of_nil|]. intros i e rest. by rewrite Ha, lookup_empty. Qed.

(** C29: A subscriber sees the fabric in order. Broadcasts run concurrently: whatever they, other subscribers and the
    readers do after it subscribed, what a subscriber received and what waits for it is a subsequence, in order, of
    the events offered to its channel, and all of them as long as no more were offered than the buffer holds. Each
    broadcast begun since is offered to it at most once, and once when the broadcast has ended; and of two broadcasts,
    the one that had ended when the other began is offered first. (Two that overlap may reach two subscribers in
    different orders: [overlapping_broadcasts_differ].) *)
Theorem subscriber_sees_in_order b os c' :
  bounded b ->
  let ch := snd (Subscribe b) in
  let c := idle (fst (Subscribe b)) in
  run c os = Some c' -> Forall (keeps_open ch) os ->
  let seen := received ch c os ++ waiting ch (bc c') in
  let off := offered ch c os in
  sublist seen off.*2 /\ (length off <= bufferSize b -> seen = off.*2) /\
  NoDup off.*1 /\ off ⊆ begun c os /\
  (forall i e, (i, e) ∈ begun c os -> active c' !! i = None -> (i, e) ∈ off) /\
  (forall os1 os2 cm i e j f, os = os1 ++ os2 -> run c os1 = Some cm ->
     (i, e) ∈ begun c os1 -> active cm !! i = None -> (j, f) ∈ begun cm os2 ->
     (i, e) ∈ offered ch c os1 /\ ((j, f) ∉ offered ch c os1) /\ off = offered ch c os1 ++ offered ch cm os2).
Proof.
  intros Hb ch c Hr Hall seen off.
  assert (Hb1 : bounded (bc c)) by (apply (step_bounded (idle b) OSubscribe c); [cbn; by rewrite decide_True|done]).
  assert (Hopen : is_Some (subscribers (bc c) !! ch)) by (cbn; rewrite lookup_insert_eq; eauto).
  assert (Hacc : forall os1 c1, run c os1 = Some c1 -> Forall (keeps_open ch) os1 -> accounted ch c1 (offered ch c os1) (begun c os1)).
  { intros os1 c1 Hr1 Hall1. apply (run_accounted ch os1 c c1 [] []); [done..|]. by apply offers_accounted_new. }
  assert (Hended : forall os1 c1 i e, run c os1 = Some c1 -> Forall (keeps_open ch) os1 ->
    (i, e) ∈ begun c os1 -> active c1 !! i = None -> (i, e) ∈ offered ch c os1).
  { intros os1 c1 i e Hr1 Hall1 Hi Hn. destruct (ac_begun _ _ _ _ (Hacc _ _ Hr1 Hall1) _ _ Hi) as (_ & [?|(r & Hr' & _)]); [done|].
    by rewrite Hn in Hr'. }
  destruct (run_waiting ch os c c' Hr Hb1 Hopen Hall) as (l & Hl & Hsub & Hf).
  assert (Hw : waiting ch (bc c) = []) by (unfold waiting, c, ch; cbn; by rewrite lookup_insert_eq).
  unfold seen. rewrite Hl, Hw. split; [done|]. split; [intros Hlen; apply Hf; by rewrite Hw|].
  destruct (Hacc _ _ Hr Hall) as [_ Hfrom Honce _ _]. split; [done|]. split; [done|]. split; [intros i e; by apply Hended|].
  intros os1 os2 cm i e j f -> Hr1 Hi Hn Hj. apply Forall_app in Hall as [Hall1 Hall2].
  split; [by eapply Hended|]. split; [|by apply observe_app].
  intros Hin%(ac_from _ _ _ _ (Hacc _ _ Hr1 Hall1)). destruct (ac_begun _ _ _ _ (Hacc _ _ Hr1 Hall1) _ _ Hin) as [Hlt _].
  assert (Hge : forall os0 c0 x, x ∈ begun c0 os0 -> started c0 <= x.1).
  { clear. induction os0 as [|o os0 IH]; intros c0 x; [by intros ?%not_elem_of_nil|]. unfold begun. cbn [observe].
    intros [Hx|Hx]%elem_of_app; [destruct o; cbn in Hx; set_solver|]. destruct (step c0 o) as [c1|] eqn:Hst; [|by apply not_elem_of_nil in Hx].
    apply IH in Hx. destruct o; cbn in Hst; repeat case_match; simplify_eq; cbn in *; lia. }
  apply Hge in Hj. cbn in Hj. lia.
Qed.

(** A channel is closed at most once: a second [Unsubscribe] does nothing. *)
Lemma closed_once ch b : snd (Unsubscribe ch (fst (Unsubscribe ch b))) = false.
Proof.
  unfold Unsubscribe. destruct (subscribers b !! ch) eqn:Hl; cbn; [by rewrite lookup_delete_eq|].
  by rewrite Hl.
Qed.

(** * The handler *)

(** The type filter of [?types=]: the non-blank names between the commas. *)
Definition typeFilter (types : string) : list string :=
  if str_nonempty types
  then List.filter str_nonempty (TrimSpace <$> Split types ","%char) else [].

Definition wanted (filter : list string) (e : FabricEvent) : bool :=
  match filter with [] => true | _ => str_mem (fe_Type e) filter end.

(** [HandleEvents] up to its loop: in production a bearer token is needed. *)
Definition openStream `{!JwtLib} (devMode : bool) (jwks : option (option (list jwk_key))) (now : Time)
    (authHeader types : string) (b : EventBroadcaster)
    : result ApiCommon.BearerRefusal (EventBroadcaster * nat * list string) :=
  match (if devMode then Ok tt else ApiCommon.requireBearerAuth jwks now authHeader) with
  | Err r => Err r
  | Ok _ => Ok (Subscribe b, typeFilter types)
  end.

(** What the [select] of the loop takes: the end of the request, an event or the closed channel, a
    tick; the flag says whether the write that follows succeeds. *)
Inductive Select : Type :=
| SDone
| SEvent (e : option FabricEvent)
| STick.

Inductive Output : Type := Data (data : string) | Heartbeat.

(** The loop of [HandleEvents] on a sequence of inputs: what it writes, and whether it returned. *)
Fixpoint eventLoop (marshal : FabricEvent -> option string) (filter : list string)
    (inputs : list (Select * bool)) : list Output * bool :=
  match inputs with
  | [] => ([], false)
  | (SDone, _) :: _ => ([], true)
  | (SEvent None, _) :: _ => ([], true)
  | (SEvent (Some e), written) :: rest =>
      if negb (wanted filter e) then eventLoop marshal filter rest else
      match marshal e with
      | None => eventLoop marshal filter rest
      | Some data =>
          if written then (Data data :: fst (eventLoop marshal filter rest), snd (eventLoop marshal filter rest))
          else ([], true)
      end
  | (STick, written) :: rest =>
      if written then (Heartbeat :: fst (eventLoop marshal filter rest), snd (eventLoop marshal filter rest))
      else ([], true)
  end.

Definition data_of (o : Output) : option string := match o with Data d => Some d | Heartbeat => None end.
Definition event_of (i : Select * bool) : option FabricEvent :=
  match i with (SEvent (Some e), _) => Some e | _ => None end.

(** While the request lives and its writes succeed, the client is sent exactly the events of the
    wanted types that marshal, in the order they were received. *)
Lemma stream_filtered marshal filter inputs :
  Forall (fun i => i.2 = true /\ i.1 <> SDone /\ i.1 <> SEvent None) inputs ->
  omap data_of (fst (eventLoop marshal filter inputs)) =
    omap marshal (List.filter (wanted filter) (omap event_of inputs)) /\
  snd (eventLoop marshal filter inputs) = false.
Proof.
  induction inputs as [|[i w] inputs IH]; intros Hall; [done|].
  apply Forall_cons in Hall as [(Hw & Hd & Hn) Hall]. cbn in Hw, Hd, Hn. subst w.
  destruct (IH Hall) as [IH1 IH2]. destruct i as [|[e|]|]; [done| |done|].
  - cbn. destruct (wanted filter e); cbn; [|done]. destruct (marshal e); cbn; [|done].
    by rewrite IH1.
  - by cbn.
Qed.

(** The loop returns at the end of the request, at a closed channel and at a failed write. *)
Lemma stream_ends marshal filter inputs i w :
  i = SDone \/ i = SEvent None \/ (i = STick /\ w = false) ->
  snd (eventLoop marshal filter (inputs ++ [(i, w)])) = true.
Proof.
  intros Hi. induction inputs as [|[j v] inputs IH]; cbn.
  - destruct Hi as [->|[->|[-> ->]]]; done.
  - destruct j as [|[e|]|]; [done| |done|].
    + destruct (wanted filter e); cbn; [|done]. destruct (marshal e); [|done]. by destruct v.
    + by destruct v.
Qed.

Definition demo_event (id : string) : FabricEvent :=
  {| fe_ID := id; fe_Timestamp := ""; fe_Type := "exchange"; fe_Subject := "s"; fe_Target := "";
     fe_Duration := 0; fe_Result := "ok"; fe_Detail := ""; fe_UnitID := "u1" |}.

(** Two subscribers, and two broadcasts whose sends overlap *)
Definition demo_ops : list Op :=
  [OSubscribe; OStart (demo_event "1"); OStart (demo_event "2"); OOffer 0 0; OOffer 1 0; OReceive 0; OOffer 1 1; OOffer 0 1; OEnd 0; OEnd 1].
Example overlapping_broadcasts_differ :
  match run (idle (fst (Subscribe NewEventBroadcaster))) demo_ops with
  | Some c => received 0 (idle (fst (Subscribe NewEventBroadcaster))) demo_ops ++ waiting 0 (bc c) = [demo_event "1"; demo_event "2"] /\
              waiting 1 (bc c) = [demo_event "2"; demo_event "1"]
  | None => False
  end.
Proof. vm_compute. split; reflexivity. Qed.

Lemma demo_broadcaster_bounded : bounded NewEventBroadcaster.
Proof. by apply (buffers_bounded [] (idle NewEventBroadcaster)). Qed.
Definition demo_conf : Conf := default (idle NewEventBroadcaster) (run (idle (fst (Subscribe NewEventBroadcaster))) demo_ops).
Lemma demo_run : run (idle (fst (Subscribe NewEventBroadcaster))) demo_ops = Some demo_conf.
Proof. vm_compute. reflexivity. Qed.

Lemma subscriber_sees_in_order_witness :
  received 0 (idle (fst (Subscribe NewEventBroadcaster))) demo_ops ++ waiting 0 (bc demo_conf) =
  [demo_event "1"; demo_event "2"].
Proof.
  destruct (subscriber_sees_in_order NewEventBroadcaster demo_ops demo_conf demo_broadcaster_bounded demo_run) as (_ & Hseen & _).
  - unfold keeps_open. repeat constructor; discriminate.
  - transitivity ((offered 0 (idle (fst (Subscribe NewEventBroadcaster))) demo_ops).*2); [|vm_compute; reflexivity].
    apply Hseen. apply Nat.leb_le. vm_compute. reflexivity.
Defined.
End EventStream.
