(* ===== verification/Server.v ===== *)
(** The HTTP server ([pkg/api/server.go], [tls.go], [mtls_middleware.go], [health.go], [jwks.go]):
    which endpoint answers on which listener, the client certificate in front of the protected
    ones, the reload of the server certificate, and the public endpoints. *)
From Stdlib Require Import ZArith Lia Ascii.
From stdpp Require Import base gmap strings list.
From S2P Require Import Prelude.
From S2P Require Import GoLib.
From S2P Require Import Core.
From S2P Require Import ApiCommon.

#[local] Open Scope string_scope.
#[local] Open Scope list_scope.
#[local] Open Scope Z_scope.

Module Server.
Import ApiCommon.

(** * Routes *)

(** The handlers of the server. *)
Inductive Endpoint : Type :=
| Health | TrustDomains | JWKS | MetricsPage | OpenAPI | Events
| ExchangeToken | SSFConfiguration | SignalEvent | StreamConfig | StreamStatus | AgentIdentity
| RevocationHash | RevocationExport | MCPToolList | MCPToolRegister | MCPToolDeregister | MCPVerify
| EncryptionKeyRegister | ToolList | ToolRegister | ToolGet | ToolDeregister | ToolAudit.
#[export] Instance Endpoint_eq_dec : EqDecision Endpoint.
Proof. solve_decision. Defined.

(** A pattern of [http.ServeMux]: a method and a path, with a wildcard segment. *)
Record Route : Type := { rt_method : string; rt_path : string; rt_handler : Endpoint }.

Definition publicRoutes : list Route :=
  [{| rt_method := "GET"; rt_path := "/v1/sys/health"; rt_handler := Health |};
   {| rt_method := "GET"; rt_path := "/v1/sys/trust-domains"; rt_handler := TrustDomains |};
   {| rt_method := "GET"; rt_path := "/v1/identity/jwks"; rt_handler := JWKS |};
   {| rt_method := "GET"; rt_path := "/metrics"; rt_handler := MetricsPage |};
   {| rt_method := "GET"; rt_path := "/openapi.yaml"; rt_handler := OpenAPI |};
   {| rt_method := "GET"; rt_path := "/v1/events"; rt_handler := Events |}].

Definition protectedRoutes : list Route :=
  [{| rt_method := "POST"; rt_path := "/v1/exchange/token"; rt_handler := ExchangeToken |};
   {| rt_method := "GET"; rt_path := "/.well-known/ssf-configuration"; rt_handler := SSFConfiguration |};
   {| rt_method := "POST"; rt_path := "/v1/signals/events"; rt_handler := SignalEvent |};
   {| rt_method := "POST"; rt_path := "/v1/signals/stream"; rt_handler := StreamConfig |};
   {| rt_method := "DELETE"; rt_path := "/v1/signals/stream"; rt_handler := StreamConfig |};
   {| rt_method := "GET"; rt_path := "/v1/signals/status"; rt_handler := StreamStatus |};
   {| rt_method := "POST"; rt_path := "/v1/identity/agent"; rt_handler := AgentIdentity |};
   {| rt_method := "GET"; rt_path := "/v1/federation/revocation-hash"; rt_handler := RevocationHash |};
   {| rt_method := "GET"; rt_path := "/v1/federation/revocation-export"; rt_handler := RevocationExport |};
   {| rt_method := "GET"; rt_path := "/v1/mcp/tools"; rt_handler := MCPToolList |};
   {| rt_method := "POST"; rt_path := "/v1/mcp/tools"; rt_handler := MCPToolRegister |};
   {| rt_method := "DELETE"; rt_path := "/v1/mcp/tools"; rt_handler := MCPToolDeregister |};
   {| rt_method := "POST"; rt_path := "/v1/mcp/verify"; rt_handler := MCPVerify |};
   {| rt_method := "POST"; rt_path := "/v1/identity/agent/encryption-key"; rt_handler := EncryptionKeyRegister |};
   {| rt_method := "GET"; rt_path := "/v1/tools"; rt_handler := ToolList |};
   {| rt_method := "POST"; rt_path := "/v1/tools"; rt_handler := ToolRegister |};
   {| rt_method := "GET"; rt_path := "/v1/tools/{tool_id}"; rt_handler := ToolGet |};
   {| rt_method := "DELETE"; rt_path := "/v1/tools/{tool_id}"; rt_handler := ToolDeregister |};
   {| rt_method := "GET"; rt_path := "/v1/tools/{tool_id}/audit"; rt_handler := ToolAudit |}].

(** Matching of [http.ServeMux] on a cleaned path: segment by segment, a wildcard takes one
    non-empty segment, and [GET] also serves [HEAD]. *)
Fixpoint matchSegments (pat path : list string) : bool :=
  match pat, path with
  | [], [] => true
  | p :: pat', s :: path' =>
      ((p =? s)%string || (HasPrefix p "{" && str_nonempty s)) && matchSegments pat' path'
  | _, _ => false
  end.
Definition matchPath (r : Route) (path : string) : bool :=
  matchSegments (Split (rt_path r) "/"%char) (Split path "/"%char).
Definition matchMethod (r : Route) (method : string) : bool :=
  (rt_method r =? method)%string || ((rt_method r =? "GET")%string && (method =? "HEAD")%string).

Inductive Routed : Type :=
| To (e : Endpoint)
| NotFound
| MethodNotAllowed.

Definition route (mux : list Route) (method path : string) : Routed :=
  match List.find (fun r => matchPath r path && matchMethod r method) mux with
  | Some r => To (rt_handler r)
  | None => if existsb (fun r => matchPath r path) mux then MethodNotAllowed else NotFound
  end.

(** * Client certificates *)

(** What [extractPeerIdentity] reads of a certificate; a URI is its scheme and its text. *)
Record Certificate : Type := {
  crt_CommonName : string;
  crt_SerialHex : string;
  crt_URIs : list (string * string);
}.

(** [PeerIdentity] *)
Record PeerIdentity : Type := {
  pi_Subject : string;
  SPIFFEURIs : list string;
  Serial : string;
}.

(** [isSPIFFEURI] and [extractPeerIdentity]; [None] is a connection without TLS. *)
Definition isSPIFFEURI (u : string * string) : bool := (u.1 =? "spiffe")%string.
Definition extractPeerIdentity (tls : option (list Certificate)) : option PeerIdentity :=
  match tls with
  | None | Some [] => None
  | Some (cert :: _) =>
      Some {| pi_Subject := crt_CommonName cert;
              SPIFFEURIs := (List.filter isSPIFFEURI (crt_URIs cert)).*2;
              Serial := crt_SerialHex cert |}
  end.

(** [mtlsMiddleware] *)
Definition mtlsMiddleware {A} (tls : option (list Certificate)) (next : PeerIdentity -> Response A)
    : Response A :=
  match extractPeerIdentity tls with
  | None => error_reply 401 "client certificate required" ""
  | Some peer => next peer
  end.

(** * The listeners of [New] *)

Record Config : Type := {
  TLSEnabled : bool;
  (** whether [buildMTLSConfigWithReloader] succeeds *)
  TLSConfigBuilt : bool;
}.

Inductive Listener : Type := Plaintext | MTLS.

(** The mux of a listener, or none when it does not listen. *)
Definition mux (cfg : Config) (l : Listener) : option (list Route) :=
  match l with
  | Plaintext => Some (if TLSEnabled cfg then publicRoutes else publicRoutes ++ protectedRoutes)
  | MTLS => if TLSEnabled cfg && TLSConfigBuilt cfg then Some protectedRoutes else None
  end.

(** The endpoint a request reaches on a listener, and the peer it is reached for. *)
Definition dispatch (cfg : Config) (l : Listener) (method path : string) (tls : option (list Certificate))
    : option (Endpoint * option PeerIdentity) :=
  match mux cfg l with
  | None => None
  | Some m =>
      match l with
      | Plaintext => match route m method path with To e => Some (e, None) | _ => None end
      | MTLS =>
          match extractPeerIdentity tls with
          | None => None
          | Some peer => match route m method path with To e => Some (e, Some peer) | _ => None end
          end
      end
  end.

(** What may be served without a certificate: the state of the unit, the trust domains, the public keys, the
    metrics, the API description and the event stream. Everything else takes an exchange, a signal, a revocation
    list or a tool. *)
Definition public (e : Endpoint) : bool :=
  match e with
  | Health | TrustDomains | JWKS | MetricsPage | OpenAPI | Events => true
  | ExchangeToken | SSFConfiguration | SignalEvent | StreamConfig | StreamStatus | AgentIdentity
  | RevocationHash | RevocationExport | MCPToolList | MCPToolRegister | MCPToolDeregister | MCPVerify
  | EncryptionKeyRegister | ToolList | ToolRegister | ToolGet | ToolDeregister | ToolAudit => false
  end.
Definition publicPaths : list string :=
  ["/v1/sys/health"; "/v1/sys/trust-domains"; "/v1/identity/jwks"; "/metrics"; "/openapi.yaml"; "/v1/events"].

Lemma Split_nonempty s c : Split s c <> [].
Proof. destruct s as [|a s]; [done|]. cbn. destruct (Ascii.eqb a c); [done|]. by destruct (Split s c). Qed.

Lemma Split_inj c s t : Split s c = Split t c -> s = t.
Proof.
  revert t. induction s as [|a s IH]; intros [|b t]; cbn; [done|..].
  - destruct (Ascii.eqb b c); [intros [= H]; by destruct (Split_nonempty t c)|].
    destruct (Split t c) eqn:Ht; [by destruct (Split_nonempty t c)|done].
  - destruct (Ascii.eqb a c); [intros [= H]; by destruct (Split_nonempty s c)|].
    destruct (Split s c) eqn:Hs; [by destruct (Split_nonempty s c)|done].
  - destruct (Ascii.eqb_spec a c) as [->|Ha], (Ascii.eqb_spec b c) as [->|Hb].
    + intros [= H%IH]. by rewrite H.
    + destruct (Split t c) eqn:Ht; done.
    + destruct (Split s c) eqn:Hs; done.
    + destruct (Split s c) as [|x r] eqn:Hs; [by destruct (Split_nonempty s c)|].
      destruct (Split t c) as [|y r'] eqn:Ht; [by destruct (Split_nonempty t c)|].
      intros [= -> -> ->]. f_equal. apply IH. by rewrite Ht.
Qed.

(** A pattern without wildcards matches its own path only. *)
Lemma matchSegments_literal pat path :
  forallb (fun p => negb (HasPrefix p "{")) pat = true -> matchSegments pat path = true -> pat = path.
Proof.
  revert path. induction pat as [|p pat IH]; intros [|x path]; cbn; try done.
  destruct (HasPrefix p "{"); [done|]. cbn. rewrite orb_false_r. intros Hp [->%String.eqb_eq Hm]%andb_true_iff.
  f_equal. by apply IH.
Qed.

Lemma public_route method path e :
  route publicRoutes method path = To e ->
  public e = true /\ (method = "GET" \/ method = "HEAD") /\ path ∈ publicPaths.
Proof.
  unfold route. destruct (List.find _ publicRoutes) as [r|] eqn:Hf; [|by case_match].
  intros [= <-]. apply find_some in Hf as [Hin [Hp Hm]%andb_true_iff]. unfold matchPath, matchMethod in *.
  assert (Hr : public (rt_handler r) = true /\ rt_method r = "GET" /\ rt_path r ∈ publicPaths /\
    forallb (fun p => negb (HasPrefix p "{")) (Split (rt_path r) "/"%char) = true).
  { cbn in Hin. repeat (destruct Hin as [<-|Hin]; [split_and!; [done|done|by apply (bool_decide_unpack _)|done]|]). done. }
  destruct Hr as (He & Hg & Hpp & Hl). split; [done|]. split.
  - rewrite Hg in Hm. apply orb_true_iff in Hm as [H1%String.eqb_eq|[_ H1%String.eqb_eq]%andb_true_iff]; [by left|by right].
  - apply matchSegments_literal in Hp; [|done]. apply Split_inj in Hp. by rewrite <- Hp.
Qed.

Lemma route_in m method path e :
  route m method path = To e -> e ∈ rt_handler <$> m.
Proof.
  unfold route. destruct (List.find _ m) as [r|] eqn:Hf; [|by case_match].
  intros [= <-]. apply find_some in Hf as [Hin _]. apply list_elem_of_fmap. exists r.
  split; [done|by apply list_elem_of_In].
Qed.

(** C11: With TLS enabled everything but six endpoints (health, trust domains, public keys, metrics, API
    description, event stream) is reached only over the mutual-TLS listener, by a
    peer whose certificate was presented, and if the certificate of that listener
    cannot be loaded not at all; the six are served in plaintext only, and a plaintext request
    is answered only when it reads (GET or HEAD) one of their six paths. *)
Theorem protected_needs_certificate cfg l method path tls e peer :
  TLSEnabled cfg = true -> dispatch cfg l method path tls = Some (e, peer) ->
  match l with
  | Plaintext => public e = true /\ (method = "GET" \/ method = "HEAD") /\ path ∈ publicPaths /\ peer = None
  | MTLS => public e = false /\ TLSConfigBuilt cfg = true /\
      exists cert rest, tls = Some (cert :: rest) /\
        peer = Some {| pi_Subject := crt_CommonName cert;
                       SPIFFEURIs := (List.filter (fun u => (u.1 =? "spiffe")%string) (crt_URIs cert)).*2;
                       Serial := crt_SerialHex cert |}
  end.
Proof.
  intros Htls. unfold dispatch, mux. rewrite Htls. destruct l; cbn [andb].
  - destruct (route publicRoutes method path) eqn:Hr; [|done..]. intros [= <- <-].
    apply public_route in Hr. naive_solver.
  - destruct (TLSConfigBuilt cfg); [|done].
    destruct tls as [[|cert rest]|]; cbn [extractPeerIdentity]; [done| |done].
    destruct (route protectedRoutes method path) eqn:Hr; [|done..]. intros [= <- <-].
    apply route_in in Hr. split; [|eauto 10].
    cbn in Hr. repeat (apply elem_of_cons in Hr as [->|Hr]; [done|]). by apply not_elem_of_nil in Hr.
Qed.

(** Every endpoint has a route of its own: each pattern of the server reaches the handler it is
    registered for. *)
Lemma routes_reach_their_handlers r :
  r ∈ publicRoutes ++ protectedRoutes ->
  route (publicRoutes ++ protectedRoutes) (rt_method r)
    (Replace1 (rt_path r) "{tool_id}" "t1") = To (rt_handler r).
Proof.
  intros Hr. cbn in Hr.
  repeat (apply elem_of_cons in Hr as [->|Hr]; [vm_compute; reflexivity|]). by apply not_elem_of_nil in Hr.
Qed.

(** Without TLS every endpoint answers on the plaintext listener, dev mode or not. *)
Lemma no_tls_all_plaintext cfg r tls :
  TLSEnabled cfg = false -> r ∈ publicRoutes ++ protectedRoutes ->
  dispatch cfg Plaintext (rt_method r) (Replace1 (rt_path r) "{tool_id}" "t1") tls = Some (rt_handler r, None).
Proof.
  intros Ht Hr. unfold dispatch, mux. rewrite Ht. by rewrite routes_reach_their_handlers.
Qed.

Definition demo_cert : Certificate :=
  {| crt_CommonName := "agent"; crt_SerialHex := "1f"; crt_URIs := [("spiffe", "spiffe://td/a")] |}.
Lemma protected_needs_certificate_witness :
  dispatch {| TLSEnabled := true; TLSConfigBuilt := true |} MTLS "POST" "/v1/mcp/tools" (Some [demo_cert])
    = Some (MCPToolRegister, Some {| pi_Subject := "agent"; SPIFFEURIs := ["spiffe://td/a"]; Serial := "1f" |}) /\
  public MCPToolRegister = false /\
  (dispatch {| TLSEnabled := true; TLSConfigBuilt := true |} Plaintext "POST" "/v1/mcp/tools" None
    = Some (MCPToolRegister, None) -> False).
Proof.
  split; [vm_compute; reflexivity|]. split.
  - apply (protected_needs_certificate {| TLSEnabled := true; TLSConfigBuilt := true |} MTLS "POST" "/v1/mcp/tools"
      (Some [demo_cert]) MCPToolRegister
      (Some {| pi_Subject := "agent"; SPIFFEURIs := ["spiffe://td/a"]; Serial := "1f" |})); vm_compute; reflexivity.
  - intros H. apply protected_needs_certificate in H as [H _]; [discriminate H|reflexivity].
Defined.

(** * The public endpoints *)

(** [healthResponse]; [expiry] is the formatted expiry of the certificate. *)
Record healthResponse : Type := {
  Initialized : bool;
  Locked : bool;
  Version : string;
  hr_UnitID : string;
  TLSCertExpiry : option string;
}.

(** [handleHealth]: [reloader] is the [NotAfter] of the loaded certificate, [None] without a
    reloader; [format] is the RFC 3339 rendering. *)
Definition handleHealth (format : Time -> string) (version unitID : string) (reloader : option Time)
    : Response healthResponse :=
  Reply 200 {| Initialized := true; Locked := false; Version := version; hr_UnitID := unitID;
               TLSCertExpiry := match reloader with
                                | Some expiry => if IsZero expiry then None else Some (format expiry)
                                | None => None
                                end |}.

(** [handleTrustDomains] *)
Record trustDomainResponse : Type := {
  tdr_Name : string;
  tdr_Issuer : string;
  tdr_JWKSURL : string;
  tdr_Enabled : bool;
}.
Definition handleTrustDomains (domains : list TrustDomain) : Response (Z * list trustDomainResponse) :=
  let out := (fun td => {| tdr_Name := ct_Name td; tdr_Issuer := ct_Issuer td; tdr_JWKSURL := ct_JWKSURL td;
                           tdr_Enabled := ct_Enabled td |}) <$> domains in
  Reply 200 (Z.of_nat (length out), out).

(** [handleOpenAPI]: the file, or 404 when there is none. *)
Definition handleOpenAPI (spec : string) : Response string :=
  if (spec =? "")%string then error_reply 404 "OpenAPI spec not configured" "" else Reply 200 spec.

(** [handleJWKS]: the key set with the caching the clients may do. *)
Definition handleJWKS `{!JwtLib} (devMode : bool) (jwks : option (option (list jwk_key)))
    : Response (string * list jwk_key) :=
  match jwks with
  | None => error_reply 503 "jwks provider not configured" ""
  | Some None => error_reply 500 "failed to retrieve signing keys" ""
  | Some (Some set) => Reply 200 (if devMode then "no-store" else "public, max-age=3600", set)
  end.

(** [schemeHost] and [handleSSFConfiguration] *)
Definition schemeHost (tls : bool) (host : string) : string :=
  (if tls then "https" else "http") +:+ "://" +:+ host.
Record SSFConfiguration_ : Type := {
  ssf_Issuer : string;
  ssf_JWKsURI : string;
  ssf_DeliveryMethodsSupported : list string;
  ssf_ConfigurationEndpoint : string;
  ssf_StatusEndpoint : string;
}.
Definition handleSSFConfiguration (tls : bool) (host : string) : Response SSFConfiguration_ :=
  Reply 200 {| ssf_Issuer := "starfly";
               ssf_JWKsURI := schemeHost tls host +:+ "/v1/identity/jwks";
               ssf_DeliveryMethodsSupported := ["https://schemas.openid.net/secevent/risc/delivery-method/push"];
               ssf_ConfigurationEndpoint := schemeHost tls host +:+ "/v1/signals/stream";
               ssf_StatusEndpoint := schemeHost tls host +:+ "/v1/signals/status" |}.

(** The paths the configuration names, on the listener that serves the configuration: with TLS
    enabled that is the mutual-TLS one, and the key set it points at is not served there. *)
Lemma ssf_jwks_not_on_listener cfg tls :
  TLSEnabled cfg = true ->
  (exists peer, extractPeerIdentity tls = Some peer /\
     dispatch cfg MTLS "GET" "/.well-known/ssf-configuration" tls = Some (SSFConfiguration, Some peer)) ->
  dispatch cfg MTLS "GET" "/v1/identity/jwks" tls = None.
Proof.
  intros Ht (peer & Hp & Hd). unfold dispatch, mux in *. rewrite Ht in *. cbn [andb] in *.
  destruct (TLSConfigBuilt cfg); [|done]. rewrite Hp. vm_compute (route _ _ _). done.
Qed.

(** * The server certificate *)

Section Reload.
Context {Cert : Type}.

(** The two files, as one system call sees them: the pair, when it loads, and the modification
    times, when they can be read. The [n]-th call sees [disk n]. *)
Record Disk : Type := {
  d_pair : option Cert;
  d_certMod : option Time;
  d_keyMod : option Time;
}.
Variable disk : nat -> Disk.

(** [certReloader], with the number of system calls made *)
Record certReloader : Type := {
  cr_cert : Cert;
  cr_modTime : Time;
  cr_calls : nat;
}.

(** [latestModTime] from the [n]-th call on: the time and the calls it made. *)
Definition latestModTime (n : nat) : nat * option Time :=
  match d_certMod (disk n) with
  | None => (S n, None)
  | Some t =>
      match d_keyMod (disk (S n)) with
      | None => (S (S n), None)
      | Some k => (S (S n), Some (if After k t then k else t))
      end
  end.

(** [reload]: the calls it made, and the new certificate with its time. *)
Definition reload (n : nat) : nat * option (Cert * Time) :=
  match d_pair (disk n) with
  | None => (S n, None)
  | Some cert =>
      match latestModTime (S n) with
      | (n', None) => (n', None)
      | (n', Some t) => (n', Some (cert, t))
      end
  end.

(** [newCertReloader] *)
Definition newCertReloader (n : nat) : option certReloader :=
  match reload n with
  | (n', Some (cert, t)) => Some {| cr_cert := cert; cr_modTime := t; cr_calls := n' |}
  | (_, None) => None
  end.

(** [GetCertificate]: the state after it; the certificate served is that of the state. *)
Definition GetCertificate (r : certReloader) : certReloader :=
  match latestModTime (cr_calls r) with
  | (n, None) => {| cr_cert := cr_cert r; cr_modTime := cr_modTime r; cr_calls := n |}
  | (n, Some modTime) =>
      if negb (After modTime (cr_modTime r))
      then {| cr_cert := cr_cert r; cr_modTime := cr_modTime r; cr_calls := n |}
      else match reload n with
           | (n', None) => {| cr_cert := cr_cert r; cr_modTime := cr_modTime r; cr_calls := n' |}
           | (n', Some (cert, t)) => {| cr_cert := cert; cr_modTime := t; cr_calls := n' |}
           end
  end.

Fixpoint handshakes (k : nat) (r : certReloader) : certReloader :=
  match k with O => r | S k' => handshakes k' (GetCertificate r) end.

(** The certificate served was on the disk at some call. *)
Definition loaded (c : Cert) : Prop := exists n, d_pair (disk n) = Some c.

Lemma reload_loaded n n' c t : reload n = (n', Some (c, t)) -> loaded c.
Proof.
  unfold reload. destruct (d_pair (disk n)) as [cert|] eqn:Hd; [|done].
  destruct (latestModTime (S n)) as [m [t'|]]; [|done]. intros [= _ <- _]. by exists n.
Qed.

Lemma GetCertificate_loaded r : loaded (cr_cert r) -> loaded (cr_cert (GetCertificate r)).
Proof.
  intros Hl. unfold GetCertificate. destruct (latestModTime _) as [m [mt|]]; [|done].
  destruct (After mt _); [|done]. cbn. destruct (reload m) as [m' [[c' t']|]] eqn:Hm; [|done].
  cbn. by eapply reload_loaded.
Qed.

Lemma served_certificate_loaded n r k :
  newCertReloader n = Some r -> loaded (cr_cert (handshakes k r)).
Proof.
  unfold newCertReloader. destruct (reload n) as [n' [[c t]|]] eqn:Hr; [|done]. intros [= <-].
  assert (loaded (cr_cert {| cr_cert := c; cr_modTime := t; cr_calls := n' |})) as Hl
    by (by eapply reload_loaded).
  revert Hl. generalize {| cr_cert := c; cr_modTime := t; cr_calls := n' |}.
  induction k as [|k IH]; intros r Hl; [done|]. by apply IH, GetCertificate_loaded.
Qed.

(** From some call on the files stay as they are. *)
Definition stable_from (n : nat) (c : Cert) (t : Time) : Prop :=
  forall m, (n <= m)%nat -> d_pair (disk m) = Some c /\
    exists tc tk, d_certMod (disk m) = Some tc /\ d_keyMod (disk m) = Some tk /\
      t = (if After tk tc then tk else tc).

Lemma stable_latest n c t m : stable_from n c t ->
  (forall k k', (n <= k)%nat -> (n <= k')%nat -> d_certMod (disk k) = d_certMod (disk k')) ->
  (n <= m)%nat -> latestModTime m = (S (S m), Some t).
Proof.
  intros Hs Hc Hm. unfold latestModTime.
  destruct (Hs (S m)) as [_ (tc & tk & Htc & Htk & ->)]; [lia|].
  rewrite (Hc m (S m)), Htc, Htk by lia. done.
Qed.

Section Stable.
Context (n : nat) (c : Cert) (t : Time).
Hypothesis stable : stable_from n c t.
Hypothesis same_mod : forall k k', (n <= k)%nat -> (n <= k')%nat -> d_certMod (disk k) = d_certMod (disk k').

(** A newer pair that stays on the disk is served from the next handshake on. *)
Lemma reload_converges r k : (n <= cr_calls r)%nat -> cr_modTime r < t ->
  cr_cert (handshakes (S k) r) = c.
Proof using All.
  intros Hn Ht. cbn.
  assert (Hk : forall k r, (n <= cr_calls r)%nat -> cr_cert r = c -> cr_modTime r = t ->
    cr_cert (handshakes k r) = c).
  { clear r Hn Ht k. induction k as [|k IH]; intros r Hn Hc Hm; [done|]. cbn.
    assert (GetCertificate r = {| cr_cert := c; cr_modTime := t; cr_calls := S (S (cr_calls r)) |}) as ->.
    { unfold GetCertificate. rewrite (stable_latest n c t) by done. unfold After. rewrite Hm, Z.ltb_irrefl.
      by rewrite Hc. }
    apply IH; [cbn; lia|done..]. }
  apply Hk.
  all: unfold GetCertificate; rewrite (stable_latest n c t) by done;
    unfold After; rewrite (proj2 (Z.ltb_lt _ _) Ht); cbn; unfold reload;
    destruct (stable (S (S (cr_calls r)))) as [-> _]; [lia|];
    rewrite (stable_latest n c t) by (done || lia); cbn; lia || done.
Qed.

(** A pair that replaces the files between the load and the reading of their times is never
    served: the reloader holds the old certificate with the time of the new one. *)
Lemma reload_race_serves_stale r k : (n <= cr_calls r)%nat -> cr_modTime r = t ->
  cr_cert (handshakes k r) = cr_cert r.
Proof using All.
  revert r. induction k as [|k IH]; intros r Hn Hm; [done|]. cbn.
  assert (GetCertificate r =
    {| cr_cert := cr_cert r; cr_modTime := cr_modTime r; cr_calls := S (S (cr_calls r)) |}) as ->.
  { unfold GetCertificate. rewrite (stable_latest n c t) by done. unfold After. by rewrite Hm, Z.ltb_irrefl. }
  rewrite IH; [done|cbn; lia|done].
Qed.
End Stable.
End Reload.

(** The race on concrete files: the old pair is loaded, the new one written, the times read. *)
Definition race_disk (n : nat) : Disk (Cert := string) :=
  if (n <? 1)%nat then {| d_pair := Some "old"; d_certMod := Some 10; d_keyMod := Some 10 |}
  else {| d_pair := Some "new"; d_certMod := Some 20; d_keyMod := Some 20 |}.

Lemma reload_race k :
  exists r, newCertReloader race_disk 0 = Some r /\ cr_cert (handshakes race_disk k r) = "old".
Proof.
  exists {| cr_cert := "old"; cr_modTime := 20; cr_calls := 3 |}. split; [reflexivity|].
  rewrite (reload_race_serves_stale race_disk 1 "new" 20); [done| | |cbn; lia|done].
  - intros [|m] Hm; [lia|]. cbn. eauto 10.
  - intros [|k1] [|k2] H1 H2; try lia. done.
Qed.
End Server.
