(* ===== verification/Sidecar.v ===== *)
(** The agent beside a workload ([pkg/agent]): its attestors, the bundle they make, the exchange
    with the server, the token file, and the renewal loop. *)
From Stdlib Require Import ZArith QArith Lia Ascii.
From stdpp Require Import base gmap strings list.
From S2P Require Import Prelude.
From S2P Require Import GoLib.
From S2P Require Import Core.
From S2P Require Import Attestation.

#[local] Open Scope string_scope.
#[local] Open Scope list_scope.
#[local] Open Scope Z_scope.

Module Sidecar.

(** * Data *)

(** [HardwareProof], [AttestationResult], [WorkloadMetadata], [AttestationBundle]; a nil map of an
    attestor's metadata is the empty one, a nil credential is [None]. *)
Record HardwareProof : Type := {
  hp_Type : string;
  hp_Quote : list Byte.byte;
  hp_PCRs : gmap Z (list Byte.byte);
  hp_Firmware : string;
  hp_Nonce : list Byte.byte;
  hp_Measurements : gmap string string;
}.

Record AttestationResult : Type := {
  ar_Source : string;
  ar_Credential : option string;
  ar_CredType : string;
  ar_Hardware : option HardwareProof;
  ar_Metadata : gmap string string;
}.

Record WorkloadMetadata : Type := {
  wm_PID : Z;
  wm_BinaryHash : string;
  wm_ImageDigest : string;
  wm_Namespace : string;
  wm_PodName : string;
  wm_NodeName : string;
  wm_Labels : gmap string string;
}.

Record AttestationBundle : Type := {
  ab_Platform : option AttestationResult;
  ab_Hardware : list AttestationResult;
  ab_Workload : WorkloadMetadata;
  ab_AgentVersion : string;
  ab_Timestamp : Time;
}.

(** [ExchangeResult] *)
Record ExchangeResult : Type := {
  er_AccessToken : string;
  er_ExpiresIn : Z;
  er_IssuedAt : Time;
}.

Inductive AgentErr : Type :=
| AttestorFailed (name : string) (err : AgentErr)
| NoPlatformCredential
| ReadingSAToken (path : string)
| IMDSToken (err : AgentErr)
| RequestFailed (err : string)
| StatusNotOK (status : Z) (body : string)
| ParsingDocument
| FetchingToken (err : AgentErr)
| FetchingMetadata (err : AgentErr)
| ResolvingExecutable
| HashingBinary (path : string)
| BundleHasNoPlatform
| MarshalingRequest
| BuildingHeader
| ExchangeFailed (status : Z) (error description : string)
| DecodingResponse
| WritingTmp
| AtomicRename
| AttestationErr (err : AgentErr).

(** An attestor as one run sees it: its name, whether it is available, and what it returns. *)
Record Attestor : Type := {
  at_Name : string;
  at_Available : bool;
  at_Attest : result AgentErr AttestationResult;
}.

(** * Bundling *)

Definition setWorkload (w : WorkloadMetadata) (m : gmap string string) : WorkloadMetadata :=
  {| wm_PID := wm_PID w;
     wm_BinaryHash := default (wm_BinaryHash w) (m !! "binary_hash");
     wm_ImageDigest := default (wm_ImageDigest w) (m !! "image_digest");
     wm_Namespace := default (wm_Namespace w) (m !! "namespace");
     wm_PodName := default (wm_PodName w) (m !! "pod_name");
     wm_NodeName := default (wm_NodeName w) (m !! "node_name");
     wm_Labels := wm_Labels w |}.

(** What one result adds to the bundle. *)
Definition addResult (b : AttestationBundle) (r : AttestationResult) : AttestationBundle :=
  match ar_Hardware r with
  | Some _ =>
      {| ab_Platform := ab_Platform b; ab_Hardware := ab_Hardware b ++ [r]; ab_Workload := ab_Workload b;
         ab_AgentVersion := ab_AgentVersion b; ab_Timestamp := ab_Timestamp b |}
  | None =>
      {| ab_Platform := match ab_Platform b, ar_Credential r with
                        | None, Some _ => Some r
                        | p, _ => p
                        end;
         ab_Hardware := ab_Hardware b; ab_Workload := setWorkload (ab_Workload b) (ar_Metadata r);
         ab_AgentVersion := ab_AgentVersion b; ab_Timestamp := ab_Timestamp b |}
  end.

Fixpoint runAttestors (attestors : list Attestor) (b : AttestationBundle) : result AgentErr AttestationBundle :=
  match attestors with
  | [] => Ok b
  | a :: rest =>
      if negb (at_Available a) then runAttestors rest b else
      match at_Attest a with
      | Err err => Err (AttestorFailed (at_Name a) err)
      | Ok r => runAttestors rest (addResult b r)
      end
  end.

(** [BundleAttestations] *)
Definition BundleAttestations (pid : Z) (now : Time) (attestors : list Attestor) (agentVersion : string)
    : result AgentErr AttestationBundle :=
  let? b := runAttestors attestors
    {| ab_Platform := None; ab_Hardware := [];
       ab_Workload := {| wm_PID := pid; wm_BinaryHash := ""; wm_ImageDigest := ""; wm_Namespace := "";
                         wm_PodName := ""; wm_NodeName := ""; wm_Labels := ∅ |};
       ab_AgentVersion := agentVersion; ab_Timestamp := now |} in
  match ab_Platform b with
  | None => Err NoPlatformCredential
  | Some _ => Ok b
  end.

(** The results of the available attestors, when none fails. *)
Fixpoint results (attestors : list Attestor) : option (list AttestationResult) :=
  match attestors with
  | [] => Some []
  | a :: rest =>
      if at_Available a
      then match at_Attest a with Ok r => (cons r) <$> results rest | Err _ => None end
      else results rest
  end.

Definition is_software (r : AttestationResult) : bool :=
  match ar_Hardware r with None => true | Some _ => false end.
Definition is_platform (r : AttestationResult) : bool :=
  is_software r && match ar_Credential r with Some _ => true | None => false end.

Lemma runAttestors_ok attestors b b' :
  runAttestors attestors b = Ok b' <-> exists rs, results attestors = Some rs /\ b' = foldl addResult b rs.
Proof.
  revert b. induction attestors as [|a rest IH]; intros b; cbn.
  { split; [intros [= <-]; by exists []|]. by intros (rs & [= <-] & ->). }
  destruct (at_Available a); cbn; [|apply IH]. destruct (at_Attest a) as [r|err]; cbn.
  - rewrite IH. split.
    + intros (rs & Hrs & ->). exists (r :: rs). by rewrite Hrs.
    + intros (rs & Hrs & ->). destruct (results rest) as [rs'|]; [|done]. injection Hrs as <-. by exists rs'.
  - split; [done|]. by intros (rs & Hrs & _).
Qed.

Lemma foldl_addResult rs b :
  let b' := foldl addResult b rs in
  ab_Platform b' = match ab_Platform b with Some p => Some p | None => List.find is_platform rs end /\
  ab_Hardware b' = ab_Hardware b ++ List.filter (fun r => negb (is_software r)) rs /\
  ab_AgentVersion b' = ab_AgentVersion b /\ ab_Timestamp b' = ab_Timestamp b.
Proof.
  revert b. induction rs as [|r rs IH]; intros b; cbn.
  { rewrite app_nil_r. by destruct (ab_Platform b). }
  destruct (IH (addResult b r)) as (H1 & H2 & H3 & H4). cbn in *. rewrite H1, H2, H3, H4.
  unfold addResult, is_platform, is_software.
  destruct (ar_Hardware r); cbn; [by rewrite <- app_assoc|].
  destruct (ab_Platform b), (ar_Credential r); done.
Qed.

(** A bundle is made exactly when no available attestor fails and one of them has a credential
    and no hardware proof; the first such one is the platform, and the hardware proofs are all
    there, in order. *)
Lemma bundle_exact pid now attestors version b :
  BundleAttestations pid now attestors version = Ok b ->
  exists rs p, results attestors = Some rs /\ List.find is_platform rs = Some p /\
    ab_Platform b = Some p /\ ab_Hardware b = List.filter (fun r => negb (is_software r)) rs /\
    ab_AgentVersion b = version /\ ab_Timestamp b = now.
Proof.
  unfold BundleAttestations. intros (b0 & (rs & Hrs & ->)%runAttestors_ok & Hb)%rbind_ok.
  match type of Hb with context [foldl addResult ?b0 rs] =>
    destruct (foldl_addResult rs b0) as (H1 & H2 & H3 & H4) end.
  cbn in H1, H2, H3, H4. rewrite H1 in Hb. destruct (List.find is_platform rs) as [p|] eqn:Hf; [|done].
  injection Hb as <-. by exists rs, p.
Qed.

(** One failing attestor is enough for no bundle, whatever the others have. *)
Lemma one_failure_no_bundle pid now attestors version a err :
  a ∈ attestors -> at_Available a = true -> at_Attest a = Err err ->
  exists e, BundleAttestations pid now attestors version = Err e.
Proof.
  intros Hin Ha He. destruct (BundleAttestations pid now attestors version) as [b|e] eqn:Hb; [|eauto].
  exfalso. apply bundle_exact in Hb as (rs & _ & Hrs & _). clear -Hin Ha He Hrs.
  revert rs Hrs. induction attestors as [|a' rest IH]; intros rs Hrs; [by apply not_elem_of_nil in Hin|].
  cbn in Hrs. apply elem_of_cons in Hin as [<-|Hin].
  - by rewrite Ha, He in Hrs.
  - destruct (at_Available a'); [|by eapply IH]. destruct (at_Attest a'); [|done].
    destruct (results rest) eqn:Hr; [|done]. by eapply IH.
Qed.

(** * The attestation header *)

(** [attestationHeader] and [attestHeaderPlatform] *)
Record attestHeaderPlatform : Type := {
  ahp_Source : string;
  ahp_CredType : string;
  ahp_Metadata : gmap string string;
}.
Record attestationHeader : Type := {
  ah_Platform : attestHeaderPlatform;
  ah_Hardware : list HardwareProof;
  ah_Workload : WorkloadMetadata;
  ah_AgentVersion : string;
  ah_Timestamp : Time;
}.

(** The value [buildAttestationHeader] marshals. *)
Definition headerOf (p : AttestationResult) (b : AttestationBundle) : attestationHeader :=
  {| ah_Platform := {| ahp_Source := ar_Source p; ahp_CredType := ar_CredType p; ahp_Metadata := ar_Metadata p |};
     ah_Hardware := omap ar_Hardware (ab_Hardware b);
     ah_Workload := ab_Workload b; ah_AgentVersion := ab_AgentVersion b; ah_Timestamp := ab_Timestamp b |}.

(** What the server's type reads from the same JSON: the fields have the same names, and an empty
    metadata map is left out. *)
Definition hardwareRead (h : HardwareProof) : ServerAttestHardware :=
  {| hw_Type := hp_Type h; hw_Quote := hp_Quote h; hw_PCRs := hp_PCRs h; hw_Firmware := hp_Firmware h;
     hw_Nonce := hp_Nonce h; hw_Measurements := hp_Measurements h |}.
Definition workloadRead (w : WorkloadMetadata) : ServerAttestWorkload :=
  {| wl_PID := wm_PID w; wl_BinaryHash := wm_BinaryHash w; wl_ImageDigest := wm_ImageDigest w;
     wl_Namespace := wm_Namespace w; wl_PodName := wm_PodName w; wl_NodeName := wm_NodeName w;
     wl_Labels := wm_Labels w |}.
Definition headerRead (h : attestationHeader) : ServerAttestation :=
  {| att_Platform := {| pf_Source := ahp_Source (ah_Platform h); pf_CredType := ahp_CredType (ah_Platform h);
                        pf_Metadata := if (size (ahp_Metadata (ah_Platform h)) =? 0)%nat then None
                                       else Some (ahp_Metadata (ah_Platform h)) |};
     att_Hardware := hardwareRead <$> ah_Hardware h;
     att_Workload := Some (workloadRead (ah_Workload h));
     att_AgentVersion := ah_AgentVersion h;
     att_Timestamp := ah_Timestamp h |}.

Section Header.
Variable json_Marshal : attestationHeader -> option string.

(** [buildAttestationHeader] *)
Definition buildAttestationHeader (p : AttestationResult) (b : AttestationBundle) : result AgentErr string :=
  match json_Marshal (headerOf p b) with
  | None => Err BuildingHeader
  | Some s => Ok s
  end.

(** The server's decoder reads the header as its own type. *)
Definition json_reads (json_Unmarshal : string -> result string ServerAttestation) : Prop :=
  forall h s, json_Marshal h = Some s -> s <> "" /\ json_Unmarshal s = Ok (headerRead h).

(** The server accepts a header the agent makes, as long as it arrives in the freshness window:
    it reads back the platform and the proofs of the bundle. *)
Lemma agent_header_accepted json_Unmarshal pid t0 attestors version b p hdr now now' :
  json_reads json_Unmarshal ->
  BundleAttestations pid t0 attestors version = Ok b -> ab_Platform b = Some p ->
  buildAttestationHeader p b = Ok hdr ->
  ar_Source p <> "" -> ar_CredType p <> "" -> version <> "" -> t0 <> 0 ->
  t0 <= now <= now' -> now - t0 <= 5 * Minute ->
  exists att, Attest.ParseAttestationHeader json_Unmarshal hdr = Ok (Some att) /\
    Attest.ValidateAttestation now now' (Some att) 0 = Ok tt /\
    pf_Source (att_Platform att) = ar_Source p /\ length (att_Hardware att) = length (ab_Hardware b).
Proof.
  intros Hj Hb Hp Hh Hs Hc Hv Ht0 Hnow Hage.
  destruct (bundle_exact _ _ _ _ _ Hb) as (rs & p' & _ & _ & _ & Hhw & Hver & Hts).
  unfold buildAttestationHeader in Hh. destruct (json_Marshal _) as [s|] eqn:Hm; [|done].
  injection Hh as <-. destruct (Hj _ _ Hm) as [Hne Hu]. exists (headerRead (headerOf p b)).
  unfold Attest.ParseAttestationHeader. apply String.eqb_neq in Hne. rewrite Hne, Hu. cbn.
  apply String.eqb_neq in Hs. rewrite Hs. split; [done|]. split; [|split; [done|]].
  - apply String.eqb_neq in Hc, Hv. unfold Attest.ValidateAttestation. cbn. rewrite Hc, Hver, Hv, Hts. cbn.
    unfold IsZero. rewrite (proj2 (Z.eqb_neq _ _) Ht0). cbn.
    unfold Sub, Attest.DefaultAttestationFreshnessWindow, minDuration, maxDuration, Minute, Second in *.
    unfold reject, After.
    rewrite (proj2 (Z.ltb_ge _ _)) by lia. cbn. by rewrite (proj2 (Z.ltb_ge _ _)) by lia.
  - cbn. rewrite length_fmap. rewrite Hhw. clear.
    induction rs as [|r rs IH]; [done|]. cbn. destruct (is_software r) eqn:Hr; cbn; [done|].
    unfold is_software in Hr. destruct (ar_Hardware r); [|done]. cbn. by rewrite IH.
Qed.
End Header.

(** * The attestors *)

Section Attestors.
(** The machine: files, environment, the running executable, a hash, and the metadata services. *)
Record HttpRequest : Type := {
  hq_method : string;
  hq_url : string;
  hq_headers : list (string * string);
}.
Variable Exists_ : string -> bool.
Variable ReadFile : string -> option string.
Variable Getenv : string -> string.
Variable Executable : option string.
Variable sha256_hex : string -> string.
Variable Do : HttpRequest -> result string (Z * string).

(** The body of a response up to a limit, when its status is 200. *)
Definition fetch (limit : Z) (q : HttpRequest) : result AgentErr string :=
  match Do q with
  | Err err => Err (RequestFailed err)
  | Ok (st, body) =>
      if st =? 200 then Ok (str_take (Z.to_nat limit) body)
      else Err (StatusNotOK st (str_take (Z.to_nat limit) body))
  end.

Definition putNonempty (k v : string) (m : gmap string string) : gmap string string :=
  if str_nonempty v then <[k := v]> m else m.

(** [K8sAttestor]; empty paths are the default ones. *)
Definition defaultSATokenPath : string := "/var/run/secrets/kubernetes.io/serviceaccount/token".
Definition defaultSANamespacePath : string := "/var/run/secrets/kubernetes.io/serviceaccount/namespace".

Definition k8sAttest (tokenPath namespacePath : string) : result AgentErr AttestationResult :=
  match ReadFile tokenPath with
  | None => Err (ReadingSAToken tokenPath)
  | Some token =>
      let m0 := match ReadFile namespacePath with
                | Some ns => {[ "namespace" := TrimSpace ns ]}
                | None => ∅
                end in
      Ok {| ar_Source := "k8s-sa"; ar_Credential := Some token;
            ar_CredType := "urn:ietf:params:oauth:token-type:jwt"; ar_Hardware := None;
            ar_Metadata := putNonempty "node_name" (Getenv "NODE_NAME")
                             (putNonempty "pod_name" (Getenv "POD_NAME") m0) |}
  end.
Definition NewK8sAttestor (tokenPath namespacePath : string) : Attestor :=
  let tp := if (tokenPath =? "")%string then defaultSATokenPath else tokenPath in
  let np := if (namespacePath =? "")%string then defaultSANamespacePath else namespacePath in
  {| at_Name := "k8s-sa"; at_Available := Exists_ tp; at_Attest := k8sAttest tp np |}.

(** [AWSAttestor]: the instance identity document; [awsDoc] is [json.Unmarshal] into it. *)
Record awsDocument : Type := {
  doc_AccountID : string; doc_InstanceID : string; doc_Region : string; doc_InstanceType : string;
}.
Variable awsDoc : string -> option awsDocument.
Definition defaultAWSIMDSEndpoint : string := "http://169.254.169.254".

(** [getToken] *)
Definition awsGetToken (endpoint : string) : result AgentErr string :=
  fetch 1024 {| hq_method := "PUT"; hq_url := endpoint +:+ "/latest/api/token";
                hq_headers := [("X-aws-ec2-metadata-token-ttl-seconds", "21600")] |}.

Definition awsAttest (endpoint : string) : result AgentErr AttestationResult :=
  match awsGetToken endpoint with
  | Err err => Err (IMDSToken err)
  | Ok token =>
      let? body := fetch 65536 {| hq_method := "GET";
                                  hq_url := endpoint +:+ "/latest/dynamic/instance-identity/document";
                                  hq_headers := [("X-aws-ec2-metadata-token", token)] |} in
      match awsDoc body with
      | None => Err ParsingDocument
      | Some doc =>
          Ok {| ar_Source := "aws-imds"; ar_Credential := Some body;
                ar_CredType := "urn:starfly:token-type:aws-sts"; ar_Hardware := None;
                ar_Metadata := <["account_id" := doc_AccountID doc]> (<["instance_id" := doc_InstanceID doc]>
                  (<["region" := doc_Region doc]> (<["instance_type" := doc_InstanceType doc]> ∅))) |}
      end
  end.
Definition NewAWSAttestor (endpoint : string) : Attestor :=
  let ep := if (endpoint =? "")%string then defaultAWSIMDSEndpoint else endpoint in
  {| at_Name := "aws-imds"; at_Available := is_ok (awsGetToken ep); at_Attest := awsAttest ep |}.

(** [GCPAttestor] *)
Definition defaultGCPMetadataEndpoint : string := "http://metadata.google.internal".

(** [getMetadata] *)
Definition gcpMetadata (endpoint path : string) : result AgentErr string :=
  let? body := fetch 65536 {| hq_method := "GET"; hq_url := endpoint +:+ path;
                              hq_headers := [("Metadata-Flavor", "Google")] |} in
  Ok (TrimSpace body).

Definition putOk (k : string) (r : result AgentErr string) (m : gmap string string) : gmap string string :=
  match r with Ok v => <[k := v]> m | Err _ => m end.
Definition lastSegment (s : string) : string := List.last (Split s "/"%char) "".

Definition gcpAttest (endpoint audience : string) : result AgentErr AttestationResult :=
  match gcpMetadata endpoint ("/computeMetadata/v1/instance/service-accounts/default/identity?audience=" +:+
                              audience +:+ "&format=full") with
  | Err err => Err (FetchingToken err)
  | Ok token =>
      let zone := let? z := gcpMetadata endpoint "/computeMetadata/v1/instance/zone" in Ok (lastSegment z) in
      Ok {| ar_Source := "gcp-metadata"; ar_Credential := Some token;
            ar_CredType := "urn:starfly:token-type:gcp-wif"; ar_Hardware := None;
            ar_Metadata :=
              putOk "service_account" (gcpMetadata endpoint "/computeMetadata/v1/instance/service-accounts/default/email")
              (putOk "instance_name" (gcpMetadata endpoint "/computeMetadata/v1/instance/name")
              (putOk "zone" zone
              (putOk "project_id" (gcpMetadata endpoint "/computeMetadata/v1/project/project-id") ∅))) |}
  end.
Definition NewGCPAttestor (endpoint audience : string) : Attestor :=
  let ep := if (endpoint =? "")%string then defaultGCPMetadataEndpoint else endpoint in
  {| at_Name := "gcp-metadata"; at_Available := is_ok (gcpMetadata ep "/computeMetadata/v1/project/project-id");
     at_Attest := gcpAttest ep audience |}.

(** [AzureAttestor]; the two decoders are [json.Unmarshal] into the token and the instance. *)
Record azureCompute : Type := {
  az_SubscriptionID : string; az_ResourceGroup : string; az_Name : string; az_Location : string;
}.
Variable azureTokenJSON : string -> option string.
Variable azureInstanceJSON : string -> option azureCompute.
Definition defaultAzureIMDSEndpoint : string := "http://169.254.169.254".
Definition azureInstanceURL (endpoint : string) : string :=
  endpoint +:+ "/metadata/instance?api-version=2021-02-01".

(** [AzureAttestor.Available] *)
Definition azureAvailable (endpoint : string) : bool :=
  match Do {| hq_method := "GET"; hq_url := azureInstanceURL endpoint; hq_headers := [("Metadata", "true")] |} with
  | Err _ => false
  | Ok (st, _) => st =? 200
  end.

(** [getAzureToken] and [getInstanceMetadata] *)
Definition azureToken (url : string) : result AgentErr string :=
  let? body := fetch 65536 {| hq_method := "GET"; hq_url := url; hq_headers := [("Metadata", "true")] |} in
  match azureTokenJSON body with None => Err ParsingDocument | Some t => Ok t end.
Definition azureMetadata (endpoint : string) : result AgentErr (gmap string string) :=
  let? body := fetch 65536 {| hq_method := "GET"; hq_url := azureInstanceURL endpoint;
                              hq_headers := [("Metadata", "true")] |} in
  match azureInstanceJSON body with
  | None => Err ParsingDocument
  | Some c => Ok (<["subscription_id" := az_SubscriptionID c]> (<["resource_group" := az_ResourceGroup c]>
                (<["vm_name" := az_Name c]> (<["location" := az_Location c]> ∅))))
  end.

Definition azureAttest (endpoint resource : string) : result AgentErr AttestationResult :=
  match azureToken (endpoint +:+ "/metadata/identity/oauth2/token?api-version=2021-02-01&resource=" +:+ resource) with
  | Err err => Err (FetchingToken err)
  | Ok token =>
      match azureMetadata endpoint with
      | Err err => Err (FetchingMetadata err)
      | Ok metadata =>
          Ok {| ar_Source := "azure-imds"; ar_Credential := Some token;
                ar_CredType := "urn:starfly:token-type:azure-mi"; ar_Hardware := None; ar_Metadata := metadata |}
      end
  end.
Definition NewAzureAttestor (endpoint resource : string) : Attestor :=
  let ep := if (endpoint =? "")%string then defaultAzureIMDSEndpoint else endpoint in
  let res := if (resource =? "")%string then "https://management.azure.com/" else resource in
  {| at_Name := "azure-imds"; at_Available := azureAvailable ep; at_Attest := azureAttest ep res |}.

(** [BinaryAttestor] with [hashFile] *)
Definition binaryAttest (execPath : string) : result AgentErr AttestationResult :=
  match (if (execPath =? "")%string then Executable else Some execPath) with
  | None => Err ResolvingExecutable
  | Some path =>
      match ReadFile path with
      | None => Err (HashingBinary path)
      | Some content =>
          Ok {| ar_Source := "binary-self"; ar_Credential := None; ar_CredType := ""; ar_Hardware := None;
                ar_Metadata := {[ "binary_hash" := "sha256:" +:+ sha256_hex content ]} |}
      end
  end.
Definition NewBinaryAttestor (execPath : string) : Attestor :=
  {| at_Name := "binary-self"; at_Available := true; at_Attest := binaryAttest execPath |}.

(** The attestors [New] discovers, in their order. *)
Definition discovered (audience : string) : list Attestor :=
  [NewK8sAttestor "" ""; NewAWSAttestor ""; NewGCPAttestor "" audience; NewAzureAttestor "" "";
   NewBinaryAttestor ""].

(** In a cluster the service account is the platform, whatever cloud the nodes run on, as long as
    no attestor that is available fails. *)
Lemma k8s_first pid now audience version b :
  Exists_ defaultSATokenPath = true ->
  BundleAttestations pid now (discovered audience) version = Ok b ->
  exists p token, ab_Platform b = Some p /\ ReadFile defaultSATokenPath = Some token /\
    ar_Credential p = Some token /\ ar_CredType p = "urn:ietf:params:oauth:token-type:jwt".
Proof.
  intros He (rs & p & Hrs & Hf & Hp & _)%bundle_exact. exists p.
  cbn in Hrs. rewrite He in Hrs. unfold k8sAttest in Hrs.
  destruct (ReadFile defaultSATokenPath) as [token|] eqn:Hr; [|done].
  match type of Hrs with fmap _ ?o = _ => destruct o as [rest|]; [|done] end.
  injection Hrs as <-. cbn in Hf. injection Hf as <-. exists token. done.
Qed.
End Attestors.
End Sidecar.
