(* ===== verification/Renewer.v ===== *)
(** The agent's exchange with the server, its token file and its renewal loop
    ([pkg/agent/exchange.go], [token_server.go], [renewer.go], [agent.go]), and the exchange
    client against the token endpoint. *)
From Stdlib Require Import ZArith QArith Lia.
From stdpp Require Import base gmap strings list.
From S2P Require Import Prelude.
From S2P Require Import GoLib.
From S2P Require Import JwtModel.
From S2P Require Import Core.
From S2P Require Import Attestation.
From S2P Require Import Exchange.
From S2P Require Import IdCommon.
From S2P Require Import IdAws.
From S2P Require Import ApiCommon.
From S2P Require Import Api.
From S2P Require Import Sidecar.

#[local] Open Scope string_scope.
#[local] Open Scope list_scope.
#[local] Open Scope Z_scope.

Module Renewer.
Import Sidecar ApiCommon.

Lemma str_take_all n s : (String.length s <= n)%nat -> str_take n s = s.
Proof.
  revert n. induction s as [|a s IH]; intros [|n] Hn; cbn in *; try done; try lia.
  rewrite IH by lia. done.
Qed.

(** * The exchange client *)

(** [tokenExchangeRequest] and [tokenExchangeResponse] *)
Record tokenExchangeRequest : Type := {
  tq_GrantType : string;
  tq_SubjectToken : string;
  tq_SubjectTokenType : string;
  tq_Audience : string;
  tq_Scope : string;
}.
Record tokenExchangeResponse : Type := {
  tr_AccessToken : string;
  tr_ExpiresIn : Z;
  tr_Error : string;
  tr_ErrorDesc : string;
}.

(** [ExchangeClient], less its HTTP client *)
Record ExchangeClient : Type := {
  serverURL : string;
  audience : string;
  scope : string;
}.

Section Client.
Variable json_Request : tokenExchangeRequest -> option string.
Variable json_Header : attestationHeader -> option string.
Variable json_Response : string -> option tokenExchangeResponse.
(** A POST of a body with the attestation header to a URL. *)
Variable Post : string -> string -> string -> result string (Z * string).

(** [ExchangeClient.Exchange] *)
Definition Exchange (c : ExchangeClient) (now : Time) (bundle : AttestationBundle) : result AgentErr ExchangeResult :=
  match ab_Platform bundle with
  | None => Err BundleHasNoPlatform
  | Some p =>
      match json_Request {| tq_GrantType := "urn:ietf:params:oauth:grant-type:token-exchange";
                            tq_SubjectToken := default "" (ar_Credential p);
                            tq_SubjectTokenType := ar_CredType p;
                            tq_Audience := audience c; tq_Scope := scope c |} with
      | None => Err MarshalingRequest
      | Some body =>
          let? attestHeader := buildAttestationHeader json_Header p bundle in
          match Post (serverURL c +:+ "/v1/exchange/token") body attestHeader with
          | Err err => Err (RequestFailed err)
          | Ok (st, respBody) =>
              let respBody := str_take (Z.to_nat 1048576) respBody in
              if negb (st =? 200) then
                match json_Response respBody with
                | Some errResp =>
                    if str_nonempty (tr_Error errResp)
                    then Err (ExchangeFailed st (tr_Error errResp) (tr_ErrorDesc errResp))
                    else Err (ExchangeFailed st "" respBody)
                | None => Err (ExchangeFailed st "" respBody)
                end
              else
                match json_Response respBody with
                | None => Err DecodingResponse
                | Some r => Ok {| er_AccessToken := tr_AccessToken r; er_ExpiresIn := tr_ExpiresIn r;
                                  er_IssuedAt := now |}
                end
          end
      end
  end.

(** ** Against the token endpoint *)

Section AgainstServer.
Context {St : Type}.
Variable exchanger : TokenExchangeRequest -> M St Exchange.ExchangeErr TokenExchangeResponse.
Variable json_Decode : string -> result BodyErr TokenExchangeRequest.
Variable json_Attestation : string -> result string ServerAttestation.
Variable errorText : Exchange.ExchangeErr -> string.
Variable attText : Attest.AttErr -> string.
Variable encode : ApiCommon.Response TokenExchangeResponse -> string.
Import Api.

(** The JSON of a request as the server's type reads it. *)
Definition requestRead (q : tokenExchangeRequest) : TokenExchangeRequest :=
  {| GrantType := tq_GrantType q; SubjectToken := tq_SubjectToken q; SubjectTokenType := tq_SubjectTokenType q;
     Audience := tq_Audience q; Scope := tq_Scope q; ActorToken := ""; ActorTokenType := "";
     RequestedTokenType := ""; DPoPProof := ""; Attestation := None; req_ExecutionScope := None |}.

(** Both sides read what the other one writes. *)
Record wire : Prop := {
  w_request : forall q s, json_Request q = Some s -> json_Decode s = Ok (requestRead q);
  w_header : json_reads json_Header json_Attestation;
  w_response : forall resp, json_Response (encode (Reply 200 resp)) =
    Some {| tr_AccessToken := AccessToken resp; tr_ExpiresIn := ExpiresIn resp; tr_Error := ""; tr_ErrorDesc := "" |};
}.

(** What the server at state [s] answers to a POST with this body and header. *)
Definition answer (s : St) (body attest : string) : St * Response TokenExchangeResponse :=
  let r := Token.handleExchangeToken exchanger json_Decode json_Attestation errorText attText
             (fun name => if (name =? Token.AttestationHeaderName)%string then attest else "") body s in
  (fst (fst r), snd r).

(** C26: The agent gets the engine's token for its own credential. A successful exchange of the client
    against the endpoint is a successful exchange of the engine for the platform credential of
    the bundle, its type, the configured audience and scope, and the attestation the bundle
    describes; the client returns the token and the lifetime of that response, which fits the
    limit the client reads. *)
Theorem agent_gets_engine_token c now bundle s result_ :
  wire ->
  (forall url body attest, Post url body attest =
     Ok (status (snd (answer s body attest)), encode (snd (answer s body attest)))) ->
  (forall body attest, Z.of_nat (String.length (encode (snd (answer s body attest)))) <= 1048576) ->
  Exchange c now bundle = Ok result_ ->
  exists p req resp s', ab_Platform bundle = Some p /\ exchanger req s = (s', Ok resp) /\
    SubjectToken req = default "" (ar_Credential p) /\ SubjectTokenType req = ar_CredType p /\
    Audience req = audience c /\ Scope req = scope c /\
    Attestation req = Some (headerRead (headerOf p bundle)) /\
    er_AccessToken result_ = AccessToken resp /\ er_ExpiresIn result_ = ExpiresIn resp.
Proof.
  intros [Wq Wh Wr] Hpost Hfits. unfold Exchange.
  destruct (ab_Platform bundle) as [p|]; [|done].
  destruct (json_Request _) as [body|] eqn:Hq; [|done].
  intros (hdr & Hh & Hx)%rbind_ok. rewrite Hpost in Hx. cbv zeta in Hx.
  rewrite str_take_all in Hx by (specialize (Hfits body hdr); lia).
  unfold buildAttestationHeader in Hh. destruct (json_Header (headerOf p bundle)) as [hs|] eqn:Hjh; [|done].
  injection Hh as ->. destruct (Wh _ _ Hjh) as [Hne Hu]. apply Wq in Hq.
  destruct (answer s body hdr) as [s' r] eqn:Hans. cbn [snd] in Hx.
  destruct (Z.eqb_spec (status r) 200) as [H200|]; [|exfalso; cbn in Hx; repeat case_match; discriminate].
  unfold answer, Token.handleExchangeToken in Hans. rewrite Hq in Hans. cbn [String.eqb] in Hans.
  change ((Token.AttestationHeaderName =? Token.AttestationHeaderName)%string) with true in Hans. cbv iota in Hans.
  rewrite (proj2 (str_nonempty_true hdr) Hne) in Hans.
  unfold Attest.ParseAttestationHeader in Hans. apply String.eqb_neq in Hne. rewrite Hne, Hu in Hans.
  destruct (pf_Source _ =? "")%string; [by injection Hans as _ <-|].
  unfold Token.respond in Hans.
  destruct (exchanger _ s) as [s1 [resp|err]] eqn:He; injection Hans as <- <-.
  - cbn in Hx. rewrite Wr in Hx. injection Hx as <-. eexists p, _, resp, s1. by split_and!.
  - by destruct (Token.exchangeError_status errorText err) as [Hn _].
Qed.
End AgainstServer.
End Client.

(** * The token file *)

(** Files by path. A write may stop after a prefix; a rename is atomic. *)
Abbreviation FS := (gmap string string).

Inductive WriteOutcome : Type := WriteOK | WriteFails (n : nat) | RenameFails.

(** The states of the file system while [UpdateToken] runs, the last one being the one it leaves,
    and what it returns. *)
Definition UpdateToken (path token : string) (o : WriteOutcome) (fs : FS) : list FS * result AgentErr unit :=
  let tmp := path +:+ ".tmp" in
  match o with
  | WriteFails n => ([fs; <[tmp := str_take n token]> fs], Err WritingTmp)
  | RenameFails => ([fs; <[tmp := ""]> fs; <[tmp := token]> fs; delete tmp fs], Err AtomicRename)
  | WriteOK => ([fs; <[tmp := ""]> fs; <[tmp := token]> fs; <[path := token]> (delete tmp fs)], Ok tt)
  end.

Definition after (path token : string) (o : WriteOutcome) (fs : FS) : FS :=
  List.last (fst (UpdateToken path token o fs)) fs.

Lemma tmp_not_path path : path +:+ ".tmp" <> path.
Proof.
  intros H. apply (f_equal String.length) in H. rewrite length_append in H. cbn in H. lia.
Qed.

(** A reader of the path sees the old content or the whole new token, in every state on the way. *)
Lemma token_file_atomic path token o fs fs' :
  fs' ∈ fst (UpdateToken path token o fs) -> fs' !! path = fs !! path \/ fs' !! path = Some token.
Proof.
  pose proof (tmp_not_path path) as Hne.
  destruct o; cbn; intros Hin; repeat (apply elem_of_cons in Hin as [->|Hin]);
    try (by apply not_elem_of_nil in Hin); try (by left); try (by right; apply lookup_insert_eq);
    left; first [by apply lookup_insert_ne | by apply lookup_delete_ne].
Qed.

(** The token is there exactly when the update succeeds. *)
Lemma token_file_updated path token o fs :
  snd (UpdateToken path token o fs) = Ok tt -> after path token o fs !! path = Some token.
Proof. destruct o; [|done..]. intros _. apply lookup_insert_eq. Qed.

(** * The renewal loop *)

(** [NewRenewer]: a ratio outside the open unit interval is 0.8. *)
Definition refreshRatio (ratio : Q) : Q :=
  if Qle_bool ratio 0 || Qle_bool 1 ratio then (8 # 10)%Q else ratio.

Definition defaultDelays : list Duration :=
  [1 * Second; 2 * Second; 4 * Second; 8 * Second; 16 * Second; 30 * Second].

(** The product of two 64-bit durations wraps around. *)
Definition wrap64 (z : Z) : Z := (z + 9223372036854775808) mod 18446744073709551616 - 9223372036854775808.

(** What the loop does, in order. *)
Inductive REvent : Type :=
| RExchange (ok : bool)
| RErrorCounted
| RServed (token : string)
| RRefreshCounted
| RWait (d : Duration).

Record RState : Type := {
  r_attempts : nat;
  r_waits : nat;
  r_updates : nat;
  r_fs : FS;
  r_trace : list REvent;
}.

(** What an agent's exchanges depend on: the attestors, the clock and the network as the [n]-th
    exchange finds them, and the encodings of its messages. *)
Record AgentEnv : Type := {
  g_attestors : nat -> list Attestor;
  g_clock : nat -> Time;
  g_Post : nat -> string -> string -> string -> result string (Z * string);
  g_Request : tokenExchangeRequest -> option string;
  g_Header : attestationHeader -> option string;
  g_Response : string -> option tokenExchangeResponse;
  g_pid : Z;
}.

(** [exchangeOnce], the [n]-th time it is called *)
Definition exchangeOnce (g : AgentEnv) (client : ExchangeClient) (version : string) (n : nat)
    : result AgentErr ExchangeResult :=
  match BundleAttestations (g_pid g) (g_clock g n) (g_attestors g n) version with
  | Err err => Err (AttestationErr err)
  | Ok bundle => Exchange (g_Request g) (g_Header g) (g_Response g) (g_Post g n) client (g_clock g n) bundle
  end.

Section Loop.
(** The outcome of the [n]-th exchange, whether the context ends during the [n]-th wait, the outcome
    of the [n]-th update of the file, and the product of a duration and the ratio in floating
    point. *)
Variable exch : nat -> result AgentErr ExchangeResult.
Variable cancelled : nat -> bool.
Variable update : nat -> WriteOutcome.
Variable float_scale : Duration -> Q -> Duration.
Variable path : string.
Variable ratio : Q.
Variable backoffDelays : list Duration.

Definition r_emit (ev : REvent) (s : RState) : RState :=
  {| r_attempts := r_attempts s; r_waits := r_waits s; r_updates := r_updates s; r_fs := r_fs s;
     r_trace := r_trace s ++ [ev] |}.

(** A call of [exchangeOnce], with its place in the sequence of exchanges *)
Definition attempt (s : RState) : RState * result AgentErr ExchangeResult :=
  let r := exch (r_attempts s) in
  ({| r_attempts := S (r_attempts s); r_waits := r_waits s; r_updates := r_updates s; r_fs := r_fs s;
      r_trace := r_trace s ++ [RExchange (is_ok r)] |}, r).

(** [select] on the end of the context and a timer: whether the context ended. *)
Definition wait (d : Duration) (s : RState) : RState * bool :=
  ({| r_attempts := r_attempts s; r_waits := S (r_waits s); r_updates := r_updates s; r_fs := r_fs s;
      r_trace := r_trace s ++ [RWait d] |}, cancelled (r_waits s)).

Inductive Backoff : Type := BackoffDone | BackoffCancelled | BackoffExhausted.

Fixpoint backoffLoop (delays : list Duration) (s : RState) : RState * Backoff :=
  match delays with
  | [] => (s, BackoffExhausted)
  | d :: ds =>
      match wait d s with
      | (s1, true) => (s1, BackoffCancelled)
      | (s1, false) =>
          match attempt s1 with
          | (s2, Ok _) => (s2, BackoffDone)
          | (s2, Err _) => backoffLoop ds (r_emit RErrorCounted s2)
          end
      end
  end.

(** [backoff] *)
Definition backoff (s : RState) : RState * Backoff :=
  backoffLoop (match backoffDelays with [] => defaultDelays | ds => ds end) s.

Definition updateToken (token : string) (s : RState) : RState * result AgentErr unit :=
  let o := update (r_updates s) in
  ({| r_attempts := r_attempts s; r_waits := r_waits s; r_updates := S (r_updates s);
      r_fs := after path token o (r_fs s);
      r_trace := r_trace s ++ match snd (UpdateToken path token o (r_fs s)) with
                              | Ok _ => [RServed token] | Err _ => [] end |},
   snd (UpdateToken path token o (r_fs s))).

Definition sleepDur (r : ExchangeResult) : Duration :=
  float_scale (wrap64 (er_ExpiresIn r * Second)) (refreshRatio ratio).

Inductive Exit : Type := ExitNil | ExitErr (err : AgentErr).

(** One iteration of [Run]: [None] goes on. *)
Definition iteration (s : RState) : RState * option Exit :=
  match attempt s with
  | (s1, Err _) =>
      match backoff (r_emit RErrorCounted s1) with
      | (s2, BackoffCancelled) => (s2, Some ExitNil)
      | (s2, BackoffDone) | (s2, BackoffExhausted) => (s2, None)
      end
  | (s1, Ok r) =>
      match updateToken (er_AccessToken r) s1 with
      | (s2, Err err) => (s2, Some (ExitErr err))
      | (s2, Ok _) =>
          match wait (sleepDur r) (r_emit RRefreshCounted s2) with
          | (s3, true) => (s3, Some ExitNil)
          | (s3, false) => (s3, None)
          end
      end
  end.

(** [Run] for a number of iterations *)
Fixpoint Run (fuel : nat) (s : RState) : RState * option Exit :=
  match fuel with
  | O => (s, None)
  | S fuel' =>
      match iteration s with
      | (s', Some e) => (s', Some e)
      | (s', None) => Run fuel' s'
      end
  end.

(** ** Ending *)

Lemma backoffLoop_waits ds s s' o : backoffLoop ds s = (s', o) ->
  (r_waits s <= r_waits s')%nat /\
  (ds <> [] -> (r_waits s < r_waits s')%nat /\ (cancelled (r_waits s) = true -> o = BackoffCancelled)).
Proof.
  revert s. induction ds as [|d ds IH]; intros s; cbn; [by intros [= <- _]|].
  destruct (cancelled (r_waits s)) eqn:Hc.
  { intros [= <- <-]. cbn. split; [lia|]. intros _. split; [lia|done]. }
  destruct (exch _) as [r|err].
  - intros [= <- <-]. cbn. split; [lia|]. intros _. split; [lia|done].
  - intros Hb. apply IH in Hb as [Hb _]. cbn in Hb. split; [lia|]. intros _. split; [lia|done].
Qed.

(** Each iteration that goes on has waited, and the context had not ended at its first wait. *)
Lemma iteration_waits s s' : iteration s = (s', None) ->
  (r_waits s < r_waits s')%nat /\ cancelled (r_waits s) = false.
Proof.
  unfold iteration. cbn. destruct (exch (r_attempts s)) as [r|err].
  - destruct (update (r_updates s)); cbn; [|done..].
    destruct (cancelled (r_waits s)); [done|]. intros [= <-]. cbn. split; [lia|done].
  - destruct (backoff _) as [s2 o] eqn:Hb. unfold backoff in Hb.
    apply backoffLoop_waits in Hb as [_ Hb]. cbn in Hb.
    destruct Hb as [Hw Hc]; [by destruct backoffDelays|].
    destruct o; intros [= <-]; (split; [done|]); destruct (cancelled (r_waits s)); try done;
      by specialize (Hc eq_refl).
Qed.

(** If every select from the [k]-th on takes the branch of the ended context, [Run] returns within [k + 1] iterations. *)
Lemma renewal_ends_aux k s :
  (forall n, (k + r_waits s <= n)%nat -> cancelled n = true) -> exists s' e, Run (S k) s = (s', Some e).
Proof.
  revert s. induction k as [|k IH]; intros s Hc; cbn [Run].
  - destruct (iteration s) as [s1 [e|]] eqn:Hi; [eauto|].
    apply iteration_waits in Hi as [_ Hi]. rewrite Hc in Hi by lia. done.
  - destruct (iteration s) as [s1 [e|]] eqn:Hi; [eauto|].
    apply iteration_waits in Hi as [Hw _]. apply IH. intros n Hn. apply Hc. lia.
Qed.

(** ** What is served *)

Definition from_exchange (t : string) : Prop := exists n r, exch n = Ok r /\ er_AccessToken r = t.

(** The file and the served tokens only ever come from successful exchanges. *)
Definition served_ok (fs0 : FS) (s : RState) : Prop :=
  (r_fs s !! path = fs0 !! path \/ exists t, r_fs s !! path = Some t /\ from_exchange t) /\
  forall t, RServed t ∈ r_trace s -> from_exchange t.

Lemma served_emit fs0 ev s : (forall t, ev <> RServed t) -> served_ok fs0 s -> served_ok fs0 (r_emit ev s).
Proof.
  intros He [H1 H2]. split; [done|]. cbn. intros t [Ht|Ht]%elem_of_app; [by apply H2|].
  apply list_elem_of_singleton in Ht. by destruct (He t).
Qed.

Lemma served_same fs0 s s' ev : (forall t, ev <> RServed t) -> r_fs s' = r_fs s ->
  r_trace s' = r_trace s ++ [ev] -> served_ok fs0 s -> served_ok fs0 s'.
Proof.
  intros He Hf Ht Hs. destruct (served_emit fs0 ev s He Hs) as [H1 H2]. split; [by rewrite Hf|].
  by rewrite Ht.
Qed.

Lemma backoffLoop_served fs0 ds s : served_ok fs0 s -> served_ok fs0 (fst (backoffLoop ds s)).
Proof.
  revert s. induction ds as [|d ds IH]; intros s Hs; [done|]. cbn.
  assert (Hw : served_ok fs0 (fst (wait d s))) by (by apply (served_same fs0 s _ (RWait d))).
  destruct (cancelled (r_waits s)); [done|].
  assert (Hx : served_ok fs0 (fst (attempt (fst (wait d s))))) by (by eapply (served_same fs0 (fst (wait d s)) _ (RExchange _))).
  cbn in Hx. destruct (exch (r_attempts s)); [done|]. apply IH. by apply served_emit.
Qed.

Lemma iteration_served fs0 s : served_ok fs0 s -> served_ok fs0 (fst (iteration s)).
Proof.
  intros Hs. unfold iteration.
  assert (Hx : served_ok fs0 (fst (attempt s))) by (by eapply (served_same fs0 s _ (RExchange _))).
  destruct (attempt s) as [s1 [r|err]] eqn:He; cbn in Hx.
  - assert (Hf : from_exchange (er_AccessToken r)).
    { exists (r_attempts s), r. unfold attempt in He. by injection He as _ ->. }
    assert (Hu : served_ok fs0 (fst (updateToken (er_AccessToken r) s1))).
    { destruct Hx as [H1 H2]. split; cbn.
      - unfold after. destruct (update (r_updates s1)) as [|n|]; cbn.
        + right. eexists. split; [apply lookup_insert_eq|done].
        + rewrite lookup_insert_ne; [done|apply tmp_not_path].
        + rewrite lookup_delete_ne; [done|apply tmp_not_path].
      - intros t [Ht|Ht]%elem_of_app; [by apply H2|].
        destruct (update (r_updates s1)); cbn in Ht;
          [by apply list_elem_of_singleton in Ht as [= ->]|by apply not_elem_of_nil in Ht..]. }
    destruct (updateToken (er_AccessToken r) s1) as [s2 [u|e]]; [|done]. cbn in Hu.
    destruct (wait (sleepDur r) (r_emit RRefreshCounted s2)) as [s3 c] eqn:Hw.
    assert (served_ok fs0 s3).
    { unfold wait in Hw. injection Hw as <- _.
      apply (served_same fs0 (r_emit RRefreshCounted s2) _ (RWait (sleepDur r))); [done..|].
      by apply served_emit. }
    by destruct c.
  - assert (Hb : served_ok fs0 (fst (backoff (r_emit RErrorCounted s1))))
      by (apply backoffLoop_served; by apply served_emit).
    by destruct (backoff (r_emit RErrorCounted s1)) as [s2 []].
Qed.

Lemma Run_served fs0 fuel s : served_ok fs0 s -> served_ok fs0 (fst (Run fuel s)).
Proof.
  revert s. induction fuel as [|fuel IH]; intros s Hs; [done|]. cbn [Run].
  pose proof (iteration_served fs0 s Hs) as Hi. destruct (iteration s) as [s1 [e|]]; [done|]. by apply IH.
Qed.

(** A loop iteration whose exchange succeeds serves its token, unless the file cannot be written. *)
Lemma success_is_served s r : exch (r_attempts s) = Ok r -> update (r_updates s) = WriteOK ->
  r_fs (fst (iteration s)) !! path = Some (er_AccessToken r).
Proof.
  intros He Hu. unfold iteration, attempt. rewrite He. cbn. rewrite Hu. cbn.
  destruct (cancelled _); apply lookup_insert_eq.
Qed.

(** ** What is lost *)

(** A token the back-off obtains is thrown away: when exchanges fail and succeed in turn, with no
    other fault, the loop never writes one, however long it runs. *)
Lemma backoff_tokens_lost_aux fuel s :
  (forall n, is_ok (exch n) = Nat.odd n) -> (forall n, cancelled n = false) ->
  Nat.even (r_attempts s) = true ->
  let s' := fst (Run fuel s) in r_fs s' = r_fs s /\ r_updates s' = r_updates s /\
    snd (Run fuel s) = None /\ (r_attempts s' = r_attempts s + 2 * fuel)%nat.
Proof.
  intros Hx Hc. revert s. induction fuel as [|fuel IH]; intros s Hev; [cbn; split_and!; [done..|lia]|].
  assert (Hi : exists s1, iteration s = (s1, None) /\ r_fs s1 = r_fs s /\ r_updates s1 = r_updates s /\
    r_attempts s1 = S (S (r_attempts s))).
  { unfold iteration, attempt. pose proof (Hx (r_attempts s)) as H1.
    pose proof (Hx (S (r_attempts s))) as H2. rewrite Nat.odd_succ, Hev in H2.
    rewrite <- Nat.negb_even, Hev in H1. destruct (exch (r_attempts s)); [done|]. unfold backoff.
    assert (exists d ds, match backoffDelays with [] => defaultDelays | ds => ds end = d :: ds) as (d & ds & ->)
      by (destruct backoffDelays; eauto; by eexists _, _).
    cbn. rewrite Hc. destruct (exch (S (r_attempts s))); [|done]. eexists. split; [done|]. done. }
  destruct Hi as (s1 & Hi & Hf & Hu & Ha). cbn [Run]. rewrite Hi.
  destruct (IH s1) as (F & U & N & A); [by rewrite Ha|]. cbn in *. rewrite F, U, N, A, Hf, Hu, Ha.
  split_and!; [done..|lia].
Qed.

Lemma backoffLoop_trace ds s : exists tr, r_trace (fst (backoffLoop ds s)) = r_trace s ++ tr.
Proof.
  revert s. induction ds as [|d ds IH]; intros s; [exists []; cbn; by rewrite app_nil_r|]. cbn.
  destruct (cancelled (r_waits s)); [by eexists|].
  destruct (exch (r_attempts s)); cbn; [rewrite <- app_assoc; by eexists|].
  match goal with |- context [backoffLoop ds ?x] => destruct (IH x) as [tr ->] end. cbn.
  rewrite <- !app_assoc. by eexists.
Qed.

Lemma iteration_trace s :
  exists tr, r_trace (fst (iteration s)) = r_trace s ++ RExchange (is_ok (exch (r_attempts s))) :: tr.
Proof.
  unfold iteration. destruct (attempt s) as [s1 [r|err]] eqn:He; unfold attempt in He;
    injection He as <- Hr; rewrite Hr; cbn [is_ok].
  - unfold updateToken. cbn. destruct (update (r_updates s)); cbn; [|eexists; by rewrite <- !app_assoc..].
    destruct (cancelled (r_waits s)); cbn; eexists; by rewrite <- !app_assoc.
  - unfold backoff. match goal with |- context [backoffLoop ?l ?x] =>
      destruct (backoffLoop_trace l x) as [tr Ht]; destruct (backoffLoop l x) as [s2 []] end;
      cbn in *; rewrite Ht; eexists; by rewrite <- !app_assoc.
Qed.

Lemma backoffLoop_cons d ds s :
  backoffLoop (d :: ds) s =
  if cancelled (r_waits s) then (fst (wait d s), BackoffCancelled)
  else match snd (attempt (fst (wait d s))) with
       | Ok _ => (fst (attempt (fst (wait d s))), BackoffDone)
       | Err _ => backoffLoop ds (r_emit RErrorCounted (fst (attempt (fst (wait d s)))))
       end.
Proof. reflexivity. Qed.

Lemma exhausted_trace ds d s s1 : backoffLoop (d :: ds) s = (s1, BackoffExhausted) ->
  exists tr, r_trace s1 = tr ++ [RExchange false; RErrorCounted].
Proof.
  revert d s. induction ds as [|d' ds IH]; intros d s.
  - cbn. destruct (cancelled (r_waits s)); [done|]. destruct (exch (r_attempts s)); [done|].
    intros [= <-]. cbn. exists (r_trace s ++ [RWait d]). by rewrite <- !app_assoc.
  - rewrite backoffLoop_cons. destruct (cancelled (r_waits s)); [done|].
    destruct (snd (attempt (fst (wait d s)))); [done|]. apply IH.
Qed.

(** After the last failure of a back-off the next exchange follows without a wait. *)
Lemma exhausted_retries_at_once d ds s s1 :
  backoffLoop (d :: ds) s = (s1, BackoffExhausted) ->
  exists tr tr' ok, r_trace (fst (iteration s1)) = tr ++ [RExchange false; RErrorCounted; RExchange ok] ++ tr'.
Proof.
  intros [tr Ht]%exhausted_trace. destruct (iteration_trace s1) as [tr' Hi].
  rewrite Hi, Ht, <- app_assoc. cbn. eauto.
Qed.
End Loop.

Definition newRState (fs : FS) : RState :=
  {| r_attempts := 0; r_waits := 0; r_updates := 0; r_fs := fs; r_trace := [] |}.

(** When every select from the [k]-th on takes the branch of the ended context, the renewal loop returns within
    [k + 1] iterations, whatever exchanges and writes do and whatever delays are configured. With the context ended
    and a timer that is already due, Go's select may take the timer's branch any number of times before that. *)
Lemma renewal_ends g client version cancelled update scale path ratio delays fs k :
  (forall n, (k <= n)%nat -> cancelled n = true) ->
  exists s' e, Run (exchangeOnce g client version) cancelled update scale path ratio delays (S k) (newRState fs)
    = (s', Some e).
Proof. intros Hc. apply renewal_ends_aux. cbn. intros n Hn. apply Hc. lia. Qed.

(** Tokens obtained while retrying are lost. When the exchanges of an agent fail and succeed in
    turn, and nothing else goes wrong, it never writes a token, however long it runs: after
    [fuel] iterations it has exchanged [2 * fuel] times, half of them with success, and the token
    file is as it was. *)
Theorem backoff_tokens_lost g client version cancelled update scale path ratio delays fs fuel :
  (forall n, is_ok (exchangeOnce g client version n) = Nat.odd n) -> (forall n, cancelled n = false) ->
  exists s', Run (exchangeOnce g client version) cancelled update scale path ratio delays fuel (newRState fs)
      = (s', None) /\
    r_fs s' = fs /\ r_attempts s' = (2 * fuel)%nat.
Proof.
  intros Hx Hc.
  destruct (backoff_tokens_lost_aux (exchangeOnce g client version) cancelled update scale path ratio delays fuel (newRState fs) Hx Hc eq_refl)
    as (F & _ & N & A).
  destruct (Run _ _ _ _ _ _ _ _ _) as [s' o]. cbn in *. exists s'. by subst o.
Qed.

(** A token is renewed before it expires, for a lifetime of up to 292 years. *)
Lemma renewed_before_expiry scale ratio r :
  (forall d q, 0 <= d -> (0 < q)%Q -> (q < 1)%Q -> 0 <= scale d q <= d) ->
  0 <= er_ExpiresIn r <= 9223372036 ->
  0 <= sleepDur scale ratio r <= er_ExpiresIn r * Second.
Proof.
  intros Hs Hr. unfold sleepDur.
  assert (wrap64 (er_ExpiresIn r * Second) = er_ExpiresIn r * Second) as ->.
  { unfold wrap64, Second. rewrite Z.mod_small by lia. lia. }
  apply Hs; [unfold Second; lia| |]; unfold refreshRatio;
    destruct (Qle_bool ratio 0) eqn:H0, (Qle_bool 1 ratio) eqn:H1; cbn; try reflexivity.
  - apply Qnot_le_lt. intros H. apply Qle_bool_iff in H. congruence.
  - apply Qnot_le_lt. intros H. apply Qle_bool_iff in H. congruence.
Qed.

(** * The AWS attestor against the AWS provider

    The attestor sends the instance identity document, in which the provider looks for a presigned
    request: it finds no method, and refuses, in dev mode too. *)
Lemma aws_document_refused `{!RangeOrder} Do awsDoc ep r json_STS time_Parse DoSTS xml p now stamp :
  awsAttest Do awsDoc ep = Ok r ->
  (forall doc cred, json_STS doc = Some cred -> awsDoc doc <> None -> IdAws.sts_Method cred = "") ->
  exists credential err, ar_Credential r = Some credential /\
    IdAws.ValidateWorkload json_STS time_Parse DoSTS xml p now stamp credential "aws-sts" = Err err.
Proof.
  unfold awsAttest. destruct (awsGetToken Do ep) as [tok|]; [|done].
  intros (body & _ & Hr)%rbind_ok Hm. destruct (awsDoc body) as [doc|] eqn:Hd; [|done]. injection Hr as <-.
  exists body. cbn. unfold IdAws.ValidateWorkload. cbn.
  destruct (json_STS body) as [cred|] eqn:Hj; [|eauto].
  rewrite (Hm body cred Hj) by congruence. cbn. eauto.
Qed.

(** * Concrete runs *)

(** An agent with a service account token against an engine that accepts it. *)
Definition demo_platform : AttestationResult :=
  {| ar_Source := "k8s-sa"; ar_Credential := Some "sa-token";
     ar_CredType := "urn:ietf:params:oauth:token-type:jwt"; ar_Hardware := None; ar_Metadata := ∅ |}.
Definition demo_bundle : AttestationBundle :=
  {| ab_Platform := Some demo_platform; ab_Hardware := [];
     ab_Workload := {| wm_PID := 1; wm_BinaryHash := ""; wm_ImageDigest := ""; wm_Namespace := "";
                       wm_PodName := ""; wm_NodeName := ""; wm_Labels := ∅ |};
     ab_AgentVersion := "1"; ab_Timestamp := 5 |}.
Definition demo_exchanger (r : TokenExchangeRequest) : M unit Exchange.ExchangeErr TokenExchangeResponse :=
  st_ret {| AccessToken := "wimse"; IssuedTokenType := ""; TokenType := "Bearer";
            ExpiresIn := 300; resp_Scope := ""; DelegationDepth := 0 |}.

(** Encodings of the messages: strings of a countable code, with a first byte. *)
Definition code {A} `{Countable A} (a : A) : string := "#" +:+ JwtModel.pos_string (encode a).
Definition uncode {A} `{Countable A} (s : string) : option A := JwtModel.string_pos (str_drop 1 s) ≫= decode.
Lemma uncode_code {A} `{Countable A} (a : A) : uncode (code a) = Some a.
Proof.
  unfold uncode, code. change 1%nat with (String.length "#"). rewrite str_drop_app.
  rewrite JwtModel.string_pos_string. cbn. apply decode_encode.
Qed.

Definition demo_request (q : tokenExchangeRequest) : option string :=
  Some (code (tq_GrantType q, tq_SubjectToken q, tq_SubjectTokenType q, tq_Audience q, tq_Scope q)).
Definition demo_decode (s : string) : result BodyErr TokenExchangeRequest :=
  match uncode s with
  | Some (g, t, ty, a, sc) =>
      Ok (requestRead {| tq_GrantType := g; tq_SubjectToken := t; tq_SubjectTokenType := ty;
                         tq_Audience := a; tq_Scope := sc |})
  | None => Err (BodyMalformed "")
  end.
(** Headers without hardware, metadata and labels. *)
Definition demo_header (h : attestationHeader) : option string :=
  let w := ah_Workload h in
  match ah_Hardware h with
  | [] => if (size (ahp_Metadata (ah_Platform h)) =? 0)%nat && (size (wm_Labels w) =? 0)%nat
          then Some (code (ahp_Source (ah_Platform h), ahp_CredType (ah_Platform h), wm_PID w, wm_BinaryHash w,
                           wm_ImageDigest w, wm_Namespace w, wm_PodName w, wm_NodeName w, ah_AgentVersion h,
                           ah_Timestamp h))
          else None
  | _ => None
  end.
Definition demo_attestation (s : string) : result string ServerAttestation :=
  match uncode s with
  | Some (src, ct, pid, bh, img, ns, pod, node, v, ts) =>
      Ok {| att_Platform := {| pf_Source := src; pf_CredType := ct; pf_Metadata := None |}; att_Hardware := [];
            att_Workload := Some {| wl_PID := pid; wl_BinaryHash := bh; wl_ImageDigest := img; wl_Namespace := ns;
                                    wl_PodName := pod; wl_NodeName := node; wl_Labels := ∅ |};
            att_AgentVersion := v; att_Timestamp := ts |}
  | None => Err "bad"
  end.
Definition demo_encode (r : Response TokenExchangeResponse) : string :=
  match r with
  | Reply _ resp => code (AccessToken resp, ExpiresIn resp)
  | ErrorReply _ b => ""
  end.
Definition demo_response (s : string) : option tokenExchangeResponse :=
  match uncode s with
  | Some (t, e) => Some {| tr_AccessToken := t; tr_ExpiresIn := e; tr_Error := ""; tr_ErrorDesc := "" |}
  | None => None
  end.

Lemma demo_agent_wire : wire demo_request demo_header demo_response demo_decode demo_attestation demo_encode.
Proof.
  split.
  - intros q s [= <-]. unfold demo_decode. rewrite uncode_code. by destruct q.
  - intros h s Hh. unfold demo_header in Hh. destruct (ah_Hardware h) eqn:Hw; [|done].
    destruct (Nat.eqb_spec (size (ahp_Metadata (ah_Platform h))) 0) as [Hm|]; [|done].
    destruct (Nat.eqb_spec (size (wm_Labels (ah_Workload h))) 0) as [Hl|]; [|done]. injection Hh as <-.
    split; [done|]. unfold demo_attestation. rewrite uncode_code. unfold headerRead, workloadRead.
    rewrite Hm, Hw. cbn. apply map_size_empty_iff in Hl. by rewrite Hl.
  - intros resp. unfold demo_response, demo_encode. by rewrite uncode_code.
Qed.

Definition demo_post (url body attest : string) : result string (Z * string) :=
  Ok (status (snd (answer demo_exchanger demo_decode demo_attestation (fun _ => "") (fun _ => "") tt body attest)),
      demo_encode (snd (answer demo_exchanger demo_decode demo_attestation (fun _ => "") (fun _ => "") tt body attest))).
Definition demo_client : ExchangeClient := {| serverURL := "https://starfly"; audience := "aud"; scope := "" |}.

Lemma demo_fits body attest :
  Z.of_nat (String.length (demo_encode (snd (answer demo_exchanger demo_decode demo_attestation (fun _ => "")
    (fun _ => "") tt body attest)))) <= 1048576.
Proof.
  unfold answer, Api.Token.handleExchangeToken. destruct (demo_decode body) as [r|[]]; cbn; [|lia..].
  destruct (str_nonempty attest); cbn; [|vm_compute; discriminate].
  destruct (Attest.ParseAttestationHeader _ _); cbn; [vm_compute; discriminate|lia].
Qed.

Lemma agent_gets_engine_token_witness :
  exists result_ req resp s', Exchange demo_request demo_header demo_response demo_post demo_client 7 demo_bundle
      = Ok result_ /\ demo_exchanger req tt = (s', Ok resp) /\ SubjectToken req = "sa-token" /\
    er_AccessToken result_ = AccessToken resp.
Proof.
  eexists {| er_AccessToken := "wimse"; er_ExpiresIn := 300; er_IssuedAt := 7 |}.
  edestruct (agent_gets_engine_token demo_request demo_header demo_response demo_post demo_exchanger demo_decode
    demo_attestation (fun _ => "") (fun _ => "") demo_encode demo_client 7 demo_bundle tt
    {| er_AccessToken := "wimse"; er_ExpiresIn := 300; er_IssuedAt := 7 |})
    as (p & req & resp & s' & Hp & He & Ht & _ & _ & _ & _ & Ha & _);
    [exact demo_agent_wire|reflexivity|exact demo_fits|vm_compute; reflexivity|].
  exists req, resp, s'. injection Hp as <-. split; [vm_compute; reflexivity|]. split; [exact He|].
  split; [exact Ht|exact Ha].
Defined.

(** An agent whose service account token is readable at every second exchange only. *)
Definition demo_env : AgentEnv :=
  {| g_attestors := fun n => [{| at_Name := "k8s-sa"; at_Available := Nat.odd n; at_Attest := Ok demo_platform |}];
     g_clock := fun _ => 5; g_Post := fun _ => demo_post; g_Request := demo_request; g_Header := demo_header;
     g_Response := demo_response; g_pid := 1 |}.

Lemma demo_alternates n : is_ok (exchangeOnce demo_env demo_client "1" n) = Nat.odd n.
Proof. unfold exchangeOnce. cbn [g_attestors demo_env]. destruct (Nat.odd n); vm_compute; reflexivity. Qed.

Lemma renewal_ends_witness :
  exists s' e, Run (exchangeOnce demo_env demo_client "1") (fun n => (3 <=? n)%nat) (fun _ => WriteOK)
    (fun d _ => d) "tok" 0 [] 4 (newRState ∅) = (s', Some e).
Proof. apply renewal_ends. intros n Hn. by apply Nat.leb_le. Defined.

Lemma backoff_tokens_lost_witness :
  exists s', Run (exchangeOnce demo_env demo_client "1") (fun _ => false) (fun _ => WriteOK) (fun d _ => d) "tok" 0
    [] 100 (newRState ∅) = (s', None) /\ r_fs s' = ∅ /\ r_attempts s' = 200%nat.
Proof.
  apply (backoff_tokens_lost demo_env demo_client "1" (fun _ => false) (fun _ => WriteOK) (fun d _ => d) "tok" 0 []
    ∅ 100); [exact demo_alternates|reflexivity].
Defined.
End Renewer.
