(* ===== verification/AgentStart.v ===== *)
(** The start of the agent side-car ([pkg/agent/agent.go], [exchange.go], [token_server.go],
    [metrics.go]): its construction, the check of the token path, the discovery of attestors, the
    renewal loop under it, and what its metrics count. *)
From Stdlib Require Import ZArith QArith Lia.
From stdpp Require Import base gmap strings list.
From S2P Require Import Prelude.
From S2P Require Import GoLib.
From S2P Require Import Sidecar.
From S2P Require Import Renewer.

#[local] Open Scope string_scope.
#[local] Open Scope list_scope.
#[local] Open Scope Z_scope.

Module AgentStart.
Import Sidecar Renewer.

(** [Config], [ExchangeClientConfig] *)
Record Config : Type := {
  cfg_Server : string; cfg_Audience : string; cfg_TokenPath : string; cfg_Scope : string; cfg_RefreshRatio : Q;
  cfg_MetricsAddr : string; cfg_CACertPath : string; cfg_Version : string;
}.
Record ExchangeClientConfig : Type := {
  ecc_ServerURL : string; ecc_Audience : string; ecc_Scope : string; ecc_CACertPath : string; ecc_Timeout : Duration;
}.

Inductive StartErr : Type :=
| ReadingCACert (path : string)
| ParsingCACert (path : string)
| CreatingTokenDirectory
| TokenPathNotWritable.

Section Start.
(** [x509.CertPool]; [AppendCertsFromPEM] on a new pool is [None] when the text holds no certificate. *)
Context {Pool : Type}.
Variable AppendCertsFromPEM : string -> option Pool.
Variable ReadFile : string -> option string.

(** The HTTP client: its timeout, and the roots and least version of TLS where they are set *)
Record HttpClient : Type := { hc_Timeout : Duration; hc_TLS : option (Pool * Z) }.
Definition VersionTLS12 : Z := 771.

(** [NewExchangeClient] *)
Definition NewExchangeClient (cfg : ExchangeClientConfig) : result StartErr (ExchangeClient * HttpClient) :=
  let timeout := if ecc_Timeout cfg =? 0 then 5 * Second else ecc_Timeout cfg in
  let client := {| serverURL := ecc_ServerURL cfg; audience := ecc_Audience cfg; scope := ecc_Scope cfg |} in
  if (ecc_CACertPath cfg =? "")%string then Ok (client, {| hc_Timeout := timeout; hc_TLS := None |}) else
  match ReadFile (ecc_CACertPath cfg) with
  | None => Err (ReadingCACert (ecc_CACertPath cfg))
  | Some caCert =>
      match AppendCertsFromPEM caCert with
      | None => Err (ParsingCACert (ecc_CACertPath cfg))
      | Some pool => Ok (client, {| hc_Timeout := timeout; hc_TLS := Some (pool, VersionTLS12) |})
      end
  end.

(** [Renewer]: its parameters; the ratio is the one of [NewRenewer]. *)
Record RenewerConfig : Type := { rn_Ratio : Q; rn_Version : string; rn_BackoffDelays : list Duration }.
Definition NewRenewer (cfg : RenewerConfig) : RenewerConfig :=
  {| rn_Ratio := refreshRatio (rn_Ratio cfg); rn_Version := rn_Version cfg; rn_BackoffDelays := rn_BackoffDelays cfg |}.

(** What the agent finds around it: its attestors at the discovery and at each exchange, the clock,
    the network under its HTTP client, the encodings, the outcomes of its operations on files, the
    waits during which its context ends, and the product of a duration and a ratio in floating
    point. *)
Record World : Type := {
  w_discovery : list Attestor;
  w_attestors : nat -> list Attestor;
  w_clock : nat -> Time;
  w_Post : HttpClient -> nat -> string -> string -> string -> result string (Z * string);
  w_Request : tokenExchangeRequest -> option string;
  w_Header : attestationHeader -> option string;
  w_Response : string -> option tokenExchangeResponse;
  w_pid : Z;
  w_MkdirAll : bool;
  w_OpenFile : bool;
  w_Remove : bool;
  w_update : nat -> WriteOutcome;
  w_cancelled : nat -> bool;
  w_scale : Duration -> Q -> Duration;
}.

(** [Agent]; its attestors are those of the world. *)
Record Agent : Type := {
  a_config : Config;
  a_client : ExchangeClient;
  a_http : HttpClient;
  a_path : string;
  a_renewer : RenewerConfig;
}.

(** [NewWithAttestors] and [New], which differ in the attestors alone *)
Definition New (cfg : Config) : result StartErr Agent :=
  let? c := NewExchangeClient {| ecc_ServerURL := cfg_Server cfg; ecc_Audience := cfg_Audience cfg;
                                 ecc_Scope := cfg_Scope cfg; ecc_CACertPath := cfg_CACertPath cfg; ecc_Timeout := 0 |} in
  Ok {| a_config := cfg; a_client := fst c; a_http := snd c; a_path := cfg_TokenPath cfg;
        a_renewer := NewRenewer {| rn_Ratio := cfg_RefreshRatio cfg; rn_Version := cfg_Version cfg; rn_BackoffDelays := [] |} |}.

(** [FileTokenServer.Start]: the states of the files on the way, and what it returns *)
Definition tokenServerStart (w : World) (path : string) (fs : FS) : list FS * result StartErr unit :=
  let tmp := path +:+ ".tmp" in
  if negb (w_MkdirAll w) then ([fs], Err CreatingTokenDirectory) else
  if negb (w_OpenFile w) then ([fs], Err TokenPathNotWritable) else
  let touched := <[tmp := default "" (fs !! tmp)]> fs in
  ([fs; touched; if w_Remove w then delete tmp touched else touched], Ok tt).

(** The gauge [AttestationSources] that [Run] sets *)
Definition attestationSources (attestors : list Attestor) : gmap string Z :=
  foldl (fun m a => <[at_Name a := if at_Available a then 1 else 0]> m) ∅ attestors.

Definition envOf (w : World) (a : Agent) : AgentEnv :=
  {| g_attestors := w_attestors w; g_clock := w_clock w; g_Post := w_Post w (a_http a); g_Request := w_Request w;
     g_Header := w_Header w; g_Response := w_Response w; g_pid := w_pid w |}.
Definition exchangeOf (w : World) (a : Agent) : nat -> result AgentErr ExchangeResult :=
  exchangeOnce (envOf w a) (a_client a) (rn_Version (a_renewer a)).

Inductive AgentExit : Type := AgentDone | StartFailed (err : StartErr) | RenewalFailed (err : AgentErr).
Record AgentRun : Type := { ag_sources : gmap string Z; ag_state : RState; ag_exit : option AgentExit }.

(** [Agent.Run], with a number of iterations of the renewal loop; the metrics server has no part in
    what it returns. *)
Definition runAgent (w : World) (fuel : nat) (a : Agent) (fs : FS) : AgentRun :=
  let sources := attestationSources (w_discovery w) in
  match tokenServerStart w (a_path a) fs with
  | (states, Err err) => {| ag_sources := sources; ag_state := newRState (List.last states fs); ag_exit := Some (StartFailed err) |}
  | (states, Ok _) =>
      let '(s, e) := Run (exchangeOf w a) (w_cancelled w) (w_update w) (w_scale w) (a_path a) (rn_Ratio (a_renewer a))
                         (rn_BackoffDelays (a_renewer a)) fuel (newRState (List.last states fs)) in
      {| ag_sources := sources; ag_state := s;
         ag_exit := (fun x => match x with ExitNil => AgentDone | ExitErr err => RenewalFailed err end) <$> e |}
  end.

(** ** What the metrics count *)

Definition exchangeResult (ev : REvent) : option bool := match ev with RExchange ok => Some ok | _ => None end.
Definition servedToken (ev : REvent) : option string := match ev with RServed t => Some t | _ => None end.
Definition isErrorCounted (ev : REvent) : bool := match ev with RErrorCounted => true | _ => false end.
Definition isRefreshCounted (ev : REvent) : bool := match ev with RRefreshCounted => true | _ => false end.
Definition ExchangeErrorsTotal (s : RState) : nat := length (List.filter isErrorCounted (r_trace s)).
Definition TokenRefreshesTotal (s : RState) : nat := length (List.filter isRefreshCounted (r_trace s)).
(** Observations of the latency, and failures of the attestation, over the exchanges made *)
Definition ExchangeLatencyCount (w : World) (a : Agent) (s : RState) : nat :=
  length (List.filter (fun n => is_ok (exchangeOf w a n)) (seq 0 (r_attempts s))).
Definition AttestationFailures (w : World) (a : Agent) (s : RState) : nat :=
  length (List.filter (fun n => negb (is_ok (BundleAttestations (w_pid w) (w_clock w n) (w_attestors w n) (rn_Version (a_renewer a)))))
    (seq 0 (r_attempts s))).

(** * The renewal loop accounted for *)

Section Accounts.
Variable exch : nat -> result AgentErr ExchangeResult.
Variable cancelled : nat -> bool.
Variable update : nat -> WriteOutcome.
Variable scale : Duration -> Q -> Duration.
Variable path : string.
Variable ratio : Q.
Variable delays : list Duration.

(** Exchanges are recorded in their order; a failed one is counted once; a refresh is counted for
    every token written, at most one per successful exchange. *)
Record accounted (s : RState) : Prop := {
  acc_exchanges : omap exchangeResult (r_trace s) = (fun n => is_ok (exch n)) <$> seq 0 (r_attempts s);
  acc_errors : ExchangeErrorsTotal s = length (List.filter negb (omap exchangeResult (r_trace s)));
  acc_refreshes : TokenRefreshesTotal s = length (omap servedToken (r_trace s));
  acc_room : (TokenRefreshesTotal s <= length (List.filter id (omap exchangeResult (r_trace s))))%nat;
}.

Lemma accounted_new fs : accounted (newRState fs).
Proof using. by split. Qed.

(** States that differ in what is not counted *)
Lemma accounted_wait d s : accounted s -> accounted (fst (wait cancelled d s)).
Proof using.
  intros [H1 H2 H3 H4]. split; unfold ExchangeErrorsTotal, TokenRefreshesTotal in *; cbn;
    rewrite ?omap_app, ?List.filter_app, ?length_app; cbn; rewrite ?app_nil_r, ?Nat.add_0_r; done.
Qed.

Lemma exchanges_next s : omap exchangeResult (r_trace s) = (fun n => is_ok (exch n)) <$> seq 0 (r_attempts s) ->
  omap exchangeResult (r_trace s ++ [RExchange (is_ok (exch (r_attempts s)))]) =
  (fun n => is_ok (exch n)) <$> seq 0 (S (r_attempts s)).
Proof using. intros H. rewrite omap_app, H, seq_S, fmap_app. reflexivity. Qed.

(** A successful exchange, and a failed one with its count *)
Lemma accounted_success s r : exch (r_attempts s) = Ok r -> accounted s -> accounted (fst (attempt exch s)).
Proof using.
  intros He [H1 H2 H3 H4]. split; unfold ExchangeErrorsTotal, TokenRefreshesTotal in *; cbn [attempt fst r_trace r_attempts].
  - by apply exchanges_next.
  - rewrite He, omap_app, !List.filter_app, !length_app, H2. reflexivity.
  - rewrite omap_app, List.filter_app, !length_app, H3. reflexivity.
  - rewrite He, omap_app, !List.filter_app, !length_app. cbn. lia.
Qed.
Lemma success_leaves_room s r : exch (r_attempts s) = Ok r -> accounted s ->
  (TokenRefreshesTotal (fst (attempt exch s)) <
   length (List.filter id (omap exchangeResult (r_trace (fst (attempt exch s))))))%nat.
Proof using.
  intros He [_ _ _ H4]. unfold TokenRefreshesTotal in *. cbn [attempt fst r_trace].
  rewrite He, omap_app, !List.filter_app, !length_app. cbn. lia.
Qed.
Lemma accounted_failure s err : exch (r_attempts s) = Err err -> accounted s ->
  accounted (r_emit RErrorCounted (fst (attempt exch s))).
Proof using.
  intros He [H1 H2 H3 H4]. split; unfold ExchangeErrorsTotal, TokenRefreshesTotal in *;
    cbn [attempt fst r_trace r_attempts r_emit].
  - rewrite omap_app, exchanges_next by done. cbn. by rewrite app_nil_r.
  - rewrite He, !omap_app, !List.filter_app, !length_app, H2. cbn. lia.
  - rewrite !omap_app, !List.filter_app, !length_app, H3. cbn. lia.
  - rewrite He, !omap_app, !List.filter_app, !length_app. cbn. lia.
Qed.

Lemma accounted_backoff ds s : accounted s -> accounted (fst (backoffLoop exch cancelled ds s)).
Proof using.
  revert s. induction ds as [|d ds IH]; intros s Hs; [done|]. rewrite backoffLoop_cons.
  apply (accounted_wait d) in Hs. destruct (cancelled (r_waits s)); [done|].
  destruct (snd (attempt exch (fst (wait cancelled d s)))) as [r|err] eqn:He; cbn [attempt snd] in He.
  - by eapply accounted_success.
  - apply IH. by eapply accounted_failure.
Qed.

(** A token written and counted *)
Lemma accounted_served t s : update (r_updates s) = WriteOK -> accounted s ->
  (TokenRefreshesTotal s < length (List.filter id (omap exchangeResult (r_trace s))))%nat ->
  accounted (r_emit RRefreshCounted (fst (updateToken update path t s))).
Proof using.
  intros Hu [H1 H2 H3 _] Hr. split; unfold ExchangeErrorsTotal, TokenRefreshesTotal in *; cbn; rewrite Hu; cbn;
    rewrite !omap_app, ?List.filter_app, ?length_app; cbn; rewrite ?app_nil_r; [done|by rewrite ?Nat.add_0_r|lia..].
Qed.
Lemma accounted_unserved t s : update (r_updates s) <> WriteOK -> accounted s ->
  accounted (fst (updateToken update path t s)).
Proof using.
  intros Hu [H1 H2 H3 H4]. split; unfold ExchangeErrorsTotal, TokenRefreshesTotal in *; cbn;
    destruct (update (r_updates s)); try done; cbn; by rewrite !app_nil_r.
Qed.

Lemma accounted_iteration s : accounted s ->
  accounted (fst (iteration exch cancelled update scale path ratio delays s)).
Proof using.
  intros Hs. unfold iteration. destruct (attempt exch s) as [s1 [r|err]] eqn:Ha.
  - assert (exch (r_attempts s) = Ok r) as He by (by injection Ha).
    pose proof (accounted_success s r He Hs) as H1. pose proof (success_leaves_room s r He Hs) as Hr.
    rewrite Ha in H1, Hr. cbn [fst] in H1, Hr.
    assert (update (r_updates s1) = WriteOK \/ update (r_updates s1) <> WriteOK) as [Hu|Hu]
      by (destruct (update (r_updates s1)); auto).
    + pose proof (accounted_served (er_AccessToken r) s1 Hu H1 Hr) as H2. unfold updateToken in *. rewrite Hu in *.
      cbn [snd UpdateToken fst] in *. apply (accounted_wait (sleepDur scale ratio r)) in H2.
      unfold wait in *. cbn [r_waits r_emit fst] in *. destruct (cancelled (r_waits s1)); exact H2.
    + pose proof (accounted_unserved (er_AccessToken r) s1 Hu H1) as H2. unfold updateToken in *.
      destruct (update (r_updates s1)); done.
  - assert (exch (r_attempts s) = Err err) as He by (by injection Ha).
    pose proof (accounted_failure s err He Hs) as H1. rewrite Ha in H1. cbn [fst] in H1.
    unfold backoff. match goal with |- context [backoffLoop ?e ?c ?l ?x] =>
      pose proof (accounted_backoff l x H1) as H2; destruct (backoffLoop e c l x) as [s2 []] end; done.
Qed.

Lemma accounted_run fuel s : accounted s -> accounted (fst (Run exch cancelled update scale path ratio delays fuel s)).
Proof using.
  revert s. induction fuel as [|fuel IH]; intros s Hs; [done|]. cbn [Run].
  pose proof (accounted_iteration s Hs) as Hi. destruct (iteration _ _ _ _ _ _ _ s) as [s1 [e|]]; [done|]. by apply IH.
Qed.

(** The loop fails only on a write. *)
Lemma run_fails_on_write fuel s s' err : Run exch cancelled update scale path ratio delays fuel s = (s', Some (ExitErr err)) ->
  exists n, update n <> WriteOK /\ (err = WritingTmp \/ err = AtomicRename).
Proof using.
  revert s. induction fuel as [|fuel IH]; intros s; [done|]. cbn [Run].
  destruct (iteration _ _ _ _ _ _ _ s) as [s1 [e|]] eqn:Hi; [|apply IH]. intros [= -> ->].
  unfold iteration in Hi. destruct (attempt exch s) as [s2 [r|e]].
  - unfold updateToken in Hi. destruct (update (r_updates s2)) eqn:Hu; cbn in Hi.
    + destruct (cancelled _); done.
    + injection Hi as <- <-. exists (r_updates s2). rewrite Hu. auto.
    + injection Hi as <- <-. exists (r_updates s2). rewrite Hu. auto.
  - destruct (backoff _ _ _ _) as [s3 []]; done.
Qed.
End Accounts.

(** * The agent *)

(** The check of the token path never shows a reader anything but the old token. *)
Lemma start_keeps_token w path fs fs' : fs' ∈ fst (tokenServerStart w path fs) -> fs' !! path = fs !! path.
Proof using.
  pose proof (tmp_not_path path) as Hne. unfold tokenServerStart.
  destruct (w_MkdirAll w); cbn [negb]; [|intros Hin%list_elem_of_singleton; by subst].
  destruct (w_OpenFile w); cbn [negb fst]; [|intros Hin%list_elem_of_singleton; by subst].
  intros Hin. repeat (apply elem_of_cons in Hin as [->|Hin]); [done| | |by apply not_elem_of_nil in Hin].
  - by rewrite lookup_insert_ne.
  - destruct (w_Remove w); rewrite ?lookup_delete_ne by done; by rewrite lookup_insert_ne.
Qed.
Lemma start_last w path fs : List.last (fst (tokenServerStart w path fs)) fs !! path = fs !! path.
Proof using.
  pose proof (start_keeps_token w path fs) as H. revert H. unfold tokenServerStart.
  destruct (w_MkdirAll w), (w_OpenFile w); cbn [negb fst List.last]; intros H; try done. apply H.
  do 2 apply list_elem_of_further. apply list_elem_of_here.
Qed.

Lemma runAgent_accounted w fuel a fs : accounted (exchangeOf w a) (ag_state (runAgent w fuel a fs)).
Proof using.
  unfold runAgent. destruct (tokenServerStart w (a_path a) fs) as [states [[]|err]]; [|apply accounted_new].
  match goal with |- context [Run ?e ?c ?u ?sc ?p ?r ?d ?f ?s0] =>
    pose proof (accounted_run e c u sc p r d f s0 (accounted_new e _)) as H; destruct (Run e c u sc p r d f s0) end.
  exact H.
Qed.

Lemma filter_both {A} (f : A -> bool) l :
  (length (List.filter f l) + length (List.filter (fun x => negb (f x)) l) = length l)%nat.
Proof using. induction l as [|x l IH]; [done|]. cbn. destruct (f x); cbn; lia. Qed.
Lemma filter_fmap_length {A B} (g : A -> B) (f : B -> bool) l :
  length (List.filter f (g <$> l)) = length (List.filter (fun x => f (g x)) l).
Proof using. induction l as [|x l IH]; [done|]. cbn. destruct (f (g x)); cbn; by rewrite IH. Qed.
Lemma filter_implies_length {A} (f g : A -> bool) l : (forall x, f x = true -> g x = true) ->
  (length (List.filter f l) <= length (List.filter g l))%nat.
Proof using.
  intros H. induction l as [|x l IH]; [done|]. cbn. specialize (H x). destruct (f x), (g x); cbn; try lia.
Qed.

(** The agent's metrics account for its exchanges, at every point of its run: an exchange is either
    counted as an error or observed with its latency, a failed attestation is one of the errors,
    the refreshes are the tokens written to the file, and there is at most one for each exchange
    that succeeded. *)
Theorem agent_metrics_account (w : World) (fuel : nat) (a : Agent) (fs : FS) :
  let s := ag_state (runAgent w fuel a fs) in
  (ExchangeErrorsTotal s + ExchangeLatencyCount w a s = r_attempts s)%nat /\
  (AttestationFailures w a s <= ExchangeErrorsTotal s)%nat /\
  TokenRefreshesTotal s = length (omap servedToken (r_trace s)) /\
  (TokenRefreshesTotal s <= ExchangeLatencyCount w a s)%nat.
Proof using.
  intros s. destruct (runAgent_accounted w fuel a fs) as [H1 H2 H3 H4]. fold s in H1, H2, H3, H4.
  rewrite H1, filter_fmap_length in H2, H4. unfold ExchangeLatencyCount, AttestationFailures.
  pose proof (filter_both (fun n => is_ok (exchangeOf w a n)) (seq 0 (r_attempts s))) as Hb. rewrite length_seq in Hb.
  split; [rewrite H2; lia|]. split; [|done]. rewrite H2. apply filter_implies_length. intros n.
  unfold exchangeOf, exchangeOnce. cbn [g_pid g_clock g_attestors envOf].
  by destruct (BundleAttestations _ _ _ _).
Qed.


(** The agent returns when its context ends by the [k]-th wait. *)
Lemma agent_returns w a fs k : (forall n, (k <= n)%nat -> w_cancelled w n = true) ->
  is_Some (ag_exit (runAgent w (S k) a fs)).
Proof using.
  intros Hc. unfold runAgent. destruct (tokenServerStart w (a_path a) fs) as [states [[]|err]]; [|by eexists].
  match goal with |- context [Run ?e ?c ?u ?sc ?p ?rt ?d ?f ?s0] =>
    destruct (renewal_ends_aux e c u sc p rt d k s0) as (s' & x & Hr); [|rewrite Hr] end.
  - cbn. intros n Hn. apply Hc. lia.
  - by eexists.
Qed.

(** The ratio of the renewer is normalised once and for all. *)
Lemma refreshRatio_idem q : refreshRatio (refreshRatio q) = refreshRatio q.
Proof using. unfold refreshRatio. destruct (Qle_bool q 0 || Qle_bool 1 q) eqn:H; [done|]. by rewrite H. Qed.

(** The gauge of an attestor shows whether it was available when the agent started. *)
Lemma sources_show (l : list Attestor) (m : gmap string Z) a : NoDup (at_Name <$> l) -> a ∈ l ->
  foldl (fun m a => <[at_Name a := if at_Available a then 1 else 0]> m) m l !! at_Name a =
  Some (if at_Available a then 1 else 0).
Proof using.
  revert m. induction l as [|b l IH]; intros m Hn Ha; [by apply not_elem_of_nil in Ha|].
  cbn in Hn. apply NoDup_cons in Hn as [Hb Hn]. cbn [foldl]. apply elem_of_cons in Ha as [->|Ha]; [|by apply IH].
  assert (forall m' : gmap string Z, at_Name b ∉ (at_Name <$> l) ->
    foldl (fun m a => <[at_Name a := if at_Available a then 1 else 0]> m) m' l !! at_Name b = m' !! at_Name b) as Hk.
  { clear. induction l as [|c l IH]; intros m' Hni; [done|]. cbn [foldl]. cbn in Hni.
    apply not_elem_of_cons in Hni as [Hne Hni]. rewrite IH by done. by apply lookup_insert_ne. }
  rewrite Hk by done. apply lookup_insert_eq.
Qed.

End Start.

(** * A run *)

Definition demo_config : Config :=
  {| cfg_Server := "https://starfly"; cfg_Audience := "aud"; cfg_TokenPath := "tok"; cfg_Scope := ""; cfg_RefreshRatio := 0;
     cfg_MetricsAddr := ":9091"; cfg_CACertPath := "ca.pem"; cfg_Version := "1" |}.
Definition demo_world : @World string :=
  {| w_discovery := [{| at_Name := "k8s-sa"; at_Available := true; at_Attest := Ok demo_platform |}];
     w_attestors := fun n => [{| at_Name := "k8s-sa"; at_Available := negb (Nat.eqb n 1); at_Attest := Ok demo_platform |}];
     w_clock := fun _ => 5; w_Post := fun _ _ => demo_post; w_Request := demo_request; w_Header := demo_header;
     w_Response := demo_response; w_pid := 1; w_MkdirAll := true; w_OpenFile := true; w_Remove := true;
     w_update := fun _ => WriteOK; w_cancelled := fun n => (3 <=? n)%nat; w_scale := fun d _ => d |}.
Definition demo_agent : @Agent string :=
  {| a_config := demo_config; a_client := demo_client; a_http := {| hc_Timeout := 5 * Second; hc_TLS := Some ("CA", VersionTLS12) |};
     a_path := "tok"; a_renewer := {| rn_Ratio := 8 # 10; rn_Version := "1"; rn_BackoffDelays := [] |} |}.

(** Served, failed, retried (the token of the retry is dropped), served, served. *)
Example demo_counts :
  let r := runAgent demo_world 9 demo_agent ∅ in
  (ag_exit r, TokenRefreshesTotal (ag_state r), ExchangeErrorsTotal (ag_state r), r_attempts (ag_state r),
   r_fs (ag_state r) !! "tok") = (Some AgentDone, 3%nat, 1%nat, 5%nat, Some "wimse").
Proof. vm_compute. reflexivity. Qed.

Lemma demo_new : New (fun t => Some t) (fun _ => Some "CA") demo_config = Ok demo_agent.
Proof. reflexivity. Qed.

End AgentStart.
