(* ===== verification/Configuration.v ===== *)
(** The configuration of a unit ([pkg/core/config.go]) and the first steps of starting it
    ([cmd/starfly/main.go], [devmode_dev.go], [devmode_prod.go]): defaults, file, environment,
    flags and dev mode in layers, validation, the locker that opens the store, and the migration
    command. The YAML decoder, the parser of floating-point numbers, the file system and the
    environment are parameters. *)
From Stdlib Require Import ZArith QArith Lia.
From stdpp Require Import base gmap strings list.
From S2P Require Import Prelude.
From S2P Require Import GoLib.
From S2P Require Import Base64.
From S2P Require Import Store.
From S2P Require Import Core.

#[local] Open Scope string_scope.
#[local] Open Scope list_scope.
#[local] Open Scope Z_scope.

Module Configuration.

(** * Data *)

Record TemporalConfig : Type := { HostPort : string; Namespace : string; TaskQueue : string }.
Record LifecycleConfig : Type := { lc_Enabled : bool; Temporal : TemporalConfig }.
Record TLSConfig : Type := {
  tls_Enabled : bool;
  tls_ListenAddr : string;
  CertFile : string;
  KeyFile : string;
  ClientCA : string;
}.
Record AWSKMSConfig : Type := { KeyID : string; Region : string }.
Record LockConfig : Type := { lock_Type : string; AWSKMS : AWSKMSConfig }.
Record StorageConfig : Type := { st_Type : string; st_Path : string }.
Record PolicyConfig : Type := { BundlePath : string; SigningKeyFile : string; SigningKeyID : string }.
Record RateLimitConfig : Type := {
  GlobalRate : Q;
  GlobalBurst : Z;
  PerIPRate : Q;
  PerIPBurst : Z;
  TrustedProxies : list string;
}.
Record NATSConfig : Type := { Embedded : bool; URL : string; JetStreamDir : string }.
Record FederationPeer : Type := { FabricID : string; Endpoint : string; Transport : string; MTLSSecret : string }.

Record FederationConfig : Type := { Peers : list FederationPeer }.
Record TelemetryConfig : Type := { OTLPEndpoint : string }.

Record Config : Type := {
  ListenAddr : string;
  LogLevel : string;
  LogFormat : string;
  DevMode : bool;
  Lock : LockConfig;
  Storage : StorageConfig;
  Policy : PolicyConfig;
  TrustDomains : list TrustDomain;
  RateLimit : RateLimitConfig;
  NATS : NATSConfig;
  Federation : FederationConfig;
  Telemetry : TelemetryConfig;
  TLS : TLSConfig;
  Lifecycle : LifecycleConfig;
}.

Definition validLockTypes : list string := ["dev"; "awskms"; "gcpckms"; "azurekeyvault"].

(** [DefaultConfig] *)
Definition DefaultConfig : Config :=
  {| ListenAddr := ":8693"; LogLevel := "info"; LogFormat := "json"; DevMode := false;
     Lock := {| lock_Type := "awskms"; AWSKMS := {| KeyID := ""; Region := "" |} |};
     Storage := {| st_Type := "badger"; st_Path := "/data/starfly" |};
     Policy := {| BundlePath := "/etc/starfly/policies/"; SigningKeyFile := ""; SigningKeyID := "" |};
     TrustDomains := [];
     RateLimit := {| GlobalRate := 100; GlobalBurst := 100; PerIPRate := 10; PerIPBurst := 10; TrustedProxies := [] |};
     NATS := {| Embedded := true; URL := ""; JetStreamDir := "/data/starfly/nats" |};
     Federation := {| Peers := [] |}; Telemetry := {| OTLPEndpoint := "" |};
     TLS := {| tls_Enabled := false; tls_ListenAddr := ":8694"; CertFile := ""; KeyFile := ""; ClientCA := "" |};
     Lifecycle := {| lc_Enabled := false; Temporal := {| HostPort := ""; Namespace := ""; TaskQueue := "" |} |} |}.

Section Load.
(** [os.Getenv], [strconv.ParseFloat] *)
Variable Getenv : string -> string.
Variable ParseFloat : string -> option Q.

(** [envStr], [envBool], [envFloat]: the new value of a field *)
Definition envStr (key dest : string) : string := if (Getenv key =? "")%string then dest else Getenv key.
Definition envBool (key : string) (dest : bool) : bool :=
  if (Getenv key =? "")%string then dest else EqualFold (Getenv key) "true" || (Getenv key =? "1")%string.
Definition envFloat (key : string) (dest : Q) : Q :=
  if (Getenv key =? "")%string then dest else default dest (ParseFloat (Getenv key)).

(** [applyEnv] *)
Definition applyEnv (c : Config) : Config :=
  {| ListenAddr := envStr "STARFLY_LISTEN_ADDR" (ListenAddr c);
     LogLevel := envStr "STARFLY_LOG_LEVEL" (LogLevel c);
     LogFormat := envStr "STARFLY_LOG_FORMAT" (LogFormat c);
     DevMode := envBool "STARFLY_DEV_MODE" (DevMode c);
     Lock := {| lock_Type := envStr "STARFLY_LOCK_TYPE" (lock_Type (Lock c));
                AWSKMS := {| KeyID := envStr "STARFLY_LOCK_AWSKMS_KEY_ID" (KeyID (AWSKMS (Lock c)));
                             Region := envStr "STARFLY_LOCK_AWSKMS_REGION" (Region (AWSKMS (Lock c))) |} |};
     Storage := {| st_Type := st_Type (Storage c); st_Path := envStr "STARFLY_STORAGE_PATH" (st_Path (Storage c)) |};
     Policy := {| BundlePath := envStr "STARFLY_POLICY_BUNDLE_PATH" (BundlePath (Policy c));
                  SigningKeyFile := envStr "STARFLY_POLICY_SIGNING_KEY_FILE" (SigningKeyFile (Policy c));
                  SigningKeyID := envStr "STARFLY_POLICY_SIGNING_KEY_ID" (SigningKeyID (Policy c)) |};
     TrustDomains := TrustDomains c;
     RateLimit := {| GlobalRate := envFloat "STARFLY_RATELIMIT_GLOBAL_RATE" (GlobalRate (RateLimit c));
                     GlobalBurst := GlobalBurst (RateLimit c);
                     PerIPRate := envFloat "STARFLY_RATELIMIT_PER_IP_RATE" (PerIPRate (RateLimit c));
                     PerIPBurst := PerIPBurst (RateLimit c); TrustedProxies := TrustedProxies (RateLimit c) |};
     NATS := {| Embedded := if (Getenv "STARFLY_NATS_URL" =? "")%string then Embedded (NATS c) else false;
                URL := envStr "STARFLY_NATS_URL" (URL (NATS c));
                JetStreamDir := envStr "STARFLY_NATS_JETSTREAM_DIR" (JetStreamDir (NATS c)) |};
     Federation := Federation c;
     Telemetry := {| OTLPEndpoint := envStr "OTEL_EXPORTER_OTLP_ENDPOINT" (OTLPEndpoint (Telemetry c)) |};
     TLS := {| tls_Enabled := envBool "STARFLY_TLS_ENABLED" (tls_Enabled (TLS c));
               tls_ListenAddr := envStr "STARFLY_TLS_LISTEN_ADDR" (tls_ListenAddr (TLS c));
               CertFile := envStr "STARFLY_TLS_CERT_FILE" (CertFile (TLS c));
               KeyFile := envStr "STARFLY_TLS_KEY_FILE" (KeyFile (TLS c));
               ClientCA := envStr "STARFLY_TLS_CLIENT_CA" (ClientCA (TLS c)) |};
     Lifecycle := {| lc_Enabled := envBool "STARFLY_LIFECYCLE_ENABLED" (lc_Enabled (Lifecycle c));
                     Temporal := {| HostPort := envStr "STARFLY_LIFECYCLE_TEMPORAL_HOST_PORT" (HostPort (Temporal (Lifecycle c)));
                                    Namespace := envStr "STARFLY_LIFECYCLE_TEMPORAL_NAMESPACE" (Namespace (Temporal (Lifecycle c)));
                                    TaskQueue := envStr "STARFLY_LIFECYCLE_TEMPORAL_TASK_QUEUE" (TaskQueue (Temporal (Lifecycle c))) |} |} |}.

Inductive ConfigErr : Type :=
| ReadingConfig
| ParsingConfig
| DevModeUnavailable
| EmptyListenAddr
| UnknownLockType (type : string)
| EmptyKMSKey
| EmptyStoragePath
| EmptyCertFile
| EmptyKeyFile
| EmptyClientCA
| EmptyTLSListenAddr
| OpeningLock (err : string).

(** [os.ReadFile]; [yaml.Unmarshal] onto a configuration *)
Variable ReadFile : string -> option string.
Variable yaml_Unmarshal : string -> Config -> option Config.

(** [LoadConfig] *)
Definition LoadConfig (configPath : string) : result ConfigErr Config :=
  let? cfg := if (configPath =? "")%string then Ok DefaultConfig else
              match ReadFile configPath with
              | None => Err ReadingConfig
              | Some data => match yaml_Unmarshal data DefaultConfig with None => Err ParsingConfig | Some c => Ok c end
              end in
  Ok (applyEnv cfg).

(** [Validate] *)
Definition Validate (c : Config) : result ConfigErr unit :=
  if (ListenAddr c =? "")%string then Err EmptyListenAddr
  else if negb (str_mem (lock_Type (Lock c)) validLockTypes) then Err (UnknownLockType (lock_Type (Lock c)))
  else if (lock_Type (Lock c) =? "awskms")%string && (KeyID (AWSKMS (Lock c)) =? "")%string then Err EmptyKMSKey
  else if (st_Path (Storage c) =? "")%string then Err EmptyStoragePath
  else if tls_Enabled (TLS c) then
    if (CertFile (TLS c) =? "")%string then Err EmptyCertFile
    else if (KeyFile (TLS c) =? "")%string then Err EmptyKeyFile
    else if (ClientCA (TLS c) =? "")%string then Err EmptyClientCA
    else if (tls_ListenAddr (TLS c) =? "")%string then Err EmptyTLSListenAddr
    else Ok tt
  else Ok tt.

(** [GenerateUnitID], from six random bytes *)
Definition GenerateUnitID (rand : option string) : string :=
  match rand with None => "unit-0" | Some b => Hex.EncodeToString b end.

(** * Starting a unit *)

(** [DevModeAvailable]: a constant of the build *)
Variable DevModeAvailable : bool.

(** [applyDevMode] of the binary built for development *)
Definition applyDevMode (c : Config) : Config :=
  {| ListenAddr := ListenAddr c; LogLevel := LogLevel c; LogFormat := LogFormat c; DevMode := true;
     Lock := {| lock_Type := "dev"; AWSKMS := AWSKMS (Lock c) |};
     Storage := Storage c; Policy := Policy c; TrustDomains := TrustDomains c; RateLimit := RateLimit c; NATS := NATS c;
     Federation := Federation c; Telemetry := Telemetry c;
     TLS := {| tls_Enabled := false; tls_ListenAddr := tls_ListenAddr (TLS c); CertFile := CertFile (TLS c);
               KeyFile := KeyFile (TLS c); ClientCA := ClientCA (TLS c) |};
     Lifecycle := Lifecycle c |}.

Definition withListenAddr (addr : string) (c : Config) : Config :=
  {| ListenAddr := if (addr =? "")%string then ListenAddr c else addr; LogLevel := LogLevel c; LogFormat := LogFormat c;
     DevMode := DevMode c; Lock := Lock c; Storage := Storage c; Policy := Policy c; TrustDomains := TrustDomains c;
     RateLimit := RateLimit c; NATS := NATS c; Federation := Federation c; Telemetry := Telemetry c;
     TLS := TLS c; Lifecycle := Lifecycle c |}.

(** [run] up to the validated configuration *)
Definition startConfig (configPath listenAddr : string) (devMode : bool) : result ConfigErr Config :=
  let? cfg := LoadConfig configPath in
  let cfg := withListenAddr listenAddr cfg in
  let? cfg := if devMode || DevMode cfg
              then (if negb DevModeAvailable then Err DevModeUnavailable else Ok (applyDevMode cfg))
              else Ok cfg in
  let? _ := Validate cfg in
  Ok cfg.

(** The fabric identifier, the trust domain of the bus, and the JWKS URLs fetched ahead *)
Definition fabricID (c : Config) : string :=
  let id := match TrustDomains c with td :: _ => ct_Name td | [] => "" end in
  let id := if (id =? "")%string then Getenv "STARFLY_FABRIC_ID" else id in
  if (id =? "")%string then "prod" else id.
Definition jwksIssuers (c : Config) : list string :=
  ct_JWKSURL <$> filter (fun td => ct_Enabled td && negb (ct_JWKSURL td =? "")%string) (TrustDomains c).

(** [parseLogLevel] *)
Inductive Level : Type := LevelDebug | LevelInfo | LevelWarn | LevelError.
Definition parseLogLevel (level : string) : Level :=
  if (level =? "debug")%string then LevelDebug
  else if (level =? "warn")%string then LevelWarn
  else if (level =? "error")%string then LevelError
  else LevelInfo.

(** * What a started unit runs with *)

(** A valid configuration, as a proposition *)
Definition valid (c : Config) : Prop :=
  ListenAddr c <> "" /\ lock_Type (Lock c) ∈ validLockTypes /\
  (lock_Type (Lock c) = "awskms" -> KeyID (AWSKMS (Lock c)) <> "") /\ st_Path (Storage c) <> "" /\
  (tls_Enabled (TLS c) = true ->
     CertFile (TLS c) <> "" /\ KeyFile (TLS c) <> "" /\ ClientCA (TLS c) <> "" /\ tls_ListenAddr (TLS c) <> "").

Lemma Validate_exact c : Validate c = Ok tt <-> valid c.
Proof.
  unfold Validate, valid. rewrite <- str_mem_true.
  destruct (String.eqb_spec (ListenAddr c) ""); [split; [done|tauto]|].
  destruct (str_mem (lock_Type (Lock c)) validLockTypes); cbn [negb]; [|split; [done|by intros (_ & ? & _)]].
  destruct (String.eqb_spec (lock_Type (Lock c)) "awskms"), (String.eqb_spec (KeyID (AWSKMS (Lock c))) ""); cbn [andb];
    try (split; [done|tauto]).
  all: destruct (String.eqb_spec (st_Path (Storage c)) ""); [split; [done|tauto]|].
  all: destruct (tls_Enabled (TLS c)); [|split; [naive_solver|done]].
  all: destruct (String.eqb_spec (CertFile (TLS c)) ""); [split; [done|tauto]|].
  all: destruct (String.eqb_spec (KeyFile (TLS c)) ""); [split; [done|tauto]|].
  all: destruct (String.eqb_spec (ClientCA (TLS c)) ""); [split; [done|tauto]|].
  all: destruct (String.eqb_spec (tls_ListenAddr (TLS c)) ""); [split; [done|tauto]|split; [naive_solver|done]].
Qed.

(** The last layer that says something *)
Fixpoint lastSet (layers : list string) (dflt : string) : string :=
  match layers with [] => dflt | s :: rest => if (s =? "")%string then lastSet rest dflt else s end.

(** The configuration of the file, or the default one *)
Definition fileConfig (configPath : string) (c : Config) : Prop :=
  (configPath = "" /\ c = DefaultConfig) \/
  (configPath <> "" /\ exists data, ReadFile configPath = Some data /\ yaml_Unmarshal data DefaultConfig = Some c).

Lemma LoadConfig_ok configPath c : LoadConfig configPath = Ok c -> exists c0, fileConfig configPath c0 /\ c = applyEnv c0.
Proof.
  unfold LoadConfig, fileConfig. intros (c0 & Hc & [= <-])%rbind_ok. exists c0. split; [|done].
  destruct (String.eqb_spec configPath ""); [injection Hc as <-; by left|right]. split; [done|].
  destruct (ReadFile configPath) as [data|]; [|done]. exists data. split; [done|].
  destruct (yaml_Unmarshal data DefaultConfig); [|done]. by injection Hc as ->.
Qed.

(** A unit that gets past its configuration runs with a valid one; every layer is respected: the
    listen address is that of the flag, else of the environment, else of the file; in dev mode the
    development lock is in place and TLS is off; and the binary not built for development never
    runs in dev mode, whichever of the flag, the environment and the file asks for it. *)
Theorem started_config_sound configPath listenAddr devMode c :
  startConfig configPath listenAddr devMode = Ok c ->
  valid c /\
  (exists c0, fileConfig configPath c0 /\
     ListenAddr c = lastSet [listenAddr; Getenv "STARFLY_LISTEN_ADDR"] (ListenAddr c0) /\
     (DevMode c = true <-> devMode = true \/ envBool "STARFLY_DEV_MODE" (DevMode c0) = true) /\
     SigningKeyFile (Policy c) = lastSet [Getenv "STARFLY_POLICY_SIGNING_KEY_FILE"] (SigningKeyFile (Policy c0)) /\
     TrustDomains c = TrustDomains c0 /\
     (DevMode c = false -> lock_Type (Lock c) = lastSet [Getenv "STARFLY_LOCK_TYPE"] (lock_Type (Lock c0)) /\
        tls_Enabled (TLS c) = envBool "STARFLY_TLS_ENABLED" (tls_Enabled (TLS c0)))) /\
  (DevMode c = true -> DevModeAvailable = true /\ lock_Type (Lock c) = "dev" /\ tls_Enabled (TLS c) = false).
Proof.
  unfold startConfig. intros (c1 & (c0 & Hf & ->)%LoadConfig_ok & Hr)%rbind_ok.
  apply rbind_ok in Hr as (c2 & Hdev & ([] & Hv & [= <-])%rbind_ok). apply Validate_exact in Hv.
  destruct (devMode || DevMode (withListenAddr listenAddr (applyEnv c0))) eqn:Hd; cbn in Hd.
  - destruct DevModeAvailable; [|done]. injection Hdev as <-. split; [done|]. split; [|done].
    exists c0. split; [done|]. split; [done|]. split; [|done].
    split; [intros _|done]. by apply orb_true_iff in Hd.
  - injection Hdev as <-. apply orb_false_iff in Hd as [-> Hd]. split; [done|].
    split; [|cbn; by rewrite Hd]. exists c0. split; [done|]. split; [done|]. split; [|done]. cbn. rewrite Hd.
    split; [done|by intros []].
Qed.

(** An environment that says nothing changes nothing. *)
Lemma applyEnv_empty c : (forall k, Getenv k = "") -> applyEnv c = c.
Proof.
  intros He. unfold applyEnv, envStr, envBool, envFloat. rewrite !He. cbn.
  destruct c as [? ? ? ? [? []] [] [] ? [] [] [] [] [] [? []]]. done.
Qed.

(** * The locker and the migration command *)

Section Locks.
Context {Client : Type}.
Variable kms_Encrypt : Client -> string -> string -> result string string.
Variable kms_Decrypt : Client -> string -> result string string.
Variable aws_LoadConfig : string -> result string Client.

(** [lock.New(cfg.Lock)] *)
Definition openLock (c : Config) : result string Store.Locker :=
  Store.NewLocker kms_Encrypt kms_Decrypt aws_LoadConfig (lock_Type (Lock c)) (KeyID (AWSKMS (Lock c))) (Region (AWSKMS (Lock c))).

(** [runLockMigrate] once its flags are parsed: the database, what the auditor is told and the
    exit code; [opened] is whether the database could be opened. *)
Context `{!Store.Badger}.
Definition runLockMigrate (configPath fromType fromKey toType toKey : string) (opened : bool)
    (db : Store.bdb) : Store.bdb * list Store.MigrateEvent * Z :=
  if (fromType =? "")%string || (toType =? "")%string then (db, [], 1) else
  match LoadConfig configPath with
  | Err _ => (db, [], 1)
  | Ok _ =>
      match Store.NewFromTypeAndKey kms_Encrypt kms_Decrypt aws_LoadConfig fromType fromKey with
      | Err _ => (db, [], 1)
      | Ok src =>
          match Store.NewFromTypeAndKey kms_Encrypt kms_Decrypt aws_LoadConfig toType toKey with
          | Err _ => (db, [], 1)
          | Ok dst =>
              if negb opened then (db, [], 1) else
              match Store.Migrate src dst db with
              | (db', evs, Err _) => (db', evs, 1)
              | (db', evs, Ok _) => (db', evs, 0)
              end
          end
      end
  end.

Lemma same_locker c type key dst l :
  Store.NewFromTypeAndKey kms_Encrypt kms_Decrypt aws_LoadConfig type key = Ok dst -> openLock c = Ok l ->
  lock_Type (Lock c) = type -> (type = "awskms" -> KeyID (AWSKMS (Lock c)) = key /\ Region (AWSKMS (Lock c)) = "") -> l = dst.
Proof.
  unfold Store.NewFromTypeAndKey, openLock, Store.NewLocker. intros Hd Hl Ht Hk. rewrite Ht in Hl.
  destruct (String.eqb_spec type "dev"); [congruence|].
  destruct (String.eqb_spec type "awskms"); [|done]. destruct (Hk e) as [Hkey Hreg]. rewrite Hkey, Hreg in Hl. congruence.
Qed.

Context `{!Store.BadgerLaws}.

End Locks.
End Load.

(** * Concrete units *)

Definition demo_env (m : gmap string string) (k : string) : string := default "" (m !! k).
Definition no_float (s : string) : option Q := None.
Definition no_file (s : string) : option string := None.
Definition no_yaml (s : string) (c : Config) : option Config := None.
Definition demo_start (prod : bool) (env : gmap string string) (dev : bool) : result ConfigErr Config :=
  startConfig (demo_env env) no_float no_file no_yaml (negb prod) "" "" dev.

Definition demo_vars : gmap string string := <["STARFLY_LOCK_AWSKMS_KEY_ID" := "k"]> {["STARFLY_LISTEN_ADDR" := ":1"]}.
Definition demo_config : Config := match demo_start true demo_vars false with Ok c => c | Err _ => DefaultConfig end.

Lemma started_config_sound_witness : demo_start true demo_vars false = Ok demo_config /\ ListenAddr demo_config = ":1" /\ valid demo_config.
Proof.
  split; [reflexivity|]. split; [reflexivity|].
  destruct (started_config_sound (demo_env demo_vars) no_float no_file no_yaml false "" "" false demo_config eq_refl)
    as (Hv & _ & _). exact Hv.
Defined.

(** The defaults alone do not start: the lock they name has no key. The production binary refuses
    dev mode; and the development lock, which does not encrypt, it accepts. *)
Lemma defaults_need_a_key : demo_start true ∅ false = Err EmptyKMSKey.
Proof. reflexivity. Qed.
Lemma production_refuses_dev_mode : demo_start true {["STARFLY_DEV_MODE" := "1"]} false = Err DevModeUnavailable.
Proof. reflexivity. Qed.
Lemma production_accepts_dev_lock : exists c, demo_start true {["STARFLY_LOCK_TYPE" := "dev"]} false = Ok c /\ DevMode c = false.
Proof. eexists. split; vm_compute; reflexivity. Qed.

(** Regions as clients: what one encrypts another does not decrypt. *)
Definition demo_encrypt (c k data : string) : result string string := Ok (c +:+ ":" +:+ data).
Definition demo_decrypt (c blob : string) : result string string :=
  if HasPrefix blob (c +:+ ":") then Ok (TrimPrefix blob (c +:+ ":")) else Err "InvalidCiphertext".
Definition demo_client (region : string) : result string string := Ok region.

Lemma demo_kms : Store.KMSLaw demo_encrypt demo_decrypt.
Proof.
  intros c k data blob [= <-]. unfold demo_decrypt, HasPrefix, TrimPrefix, HasPrefix.
  by rewrite str_app_assoc, prefix_app, str_drop_app.
Qed.

(** A valid configuration the locks cannot serve *)
Lemma valid_lock_unimplemented :
  exists c, demo_start true {["STARFLY_LOCK_TYPE" := "gcpckms"]} false = Ok c /\
    is_ok (openLock demo_encrypt demo_decrypt demo_client c) = false.
Proof. eexists. split; vm_compute; reflexivity. Qed.

Definition demo_db : gmap string string := {["a" := "MQ=="]}.
Definition demo_migrate : gmap string string * list Store.MigrateEvent * Z :=
  runLockMigrate (H := Store.mapBadger 10) (demo_env demo_vars) no_float no_file no_yaml demo_encrypt demo_decrypt demo_client
    "" "dev" "" "awskms" "k" true demo_db.

Lemma demo_migrate_run : demo_migrate = (fst (fst demo_migrate), snd (fst demo_migrate), snd demo_migrate).
Proof. by destruct demo_migrate as [[? ?] ?]. Qed.

(** The command takes no region, not even that of the configuration it loads: what it migrated, a
    unit configured with a region of its own cannot read. *)
Lemma migration_ignores_region :
  exists c l v, demo_start true (<["STARFLY_LOCK_AWSKMS_KEY_ID" := "k"]> {["STARFLY_LOCK_AWSKMS_REGION" := "eu"]}) false = Ok c /\
    openLock demo_encrypt demo_decrypt demo_client c = Ok l /\
    fst (fst demo_migrate) !! "a" = Some v /\ is_ok (Store.Unlock l v) = false.
Proof. eexists _, _, _. split; [vm_compute; reflexivity|]. split; [vm_compute; reflexivity|]. split; vm_compute; reflexivity. Qed.
End Configuration.
