(* ===== verification/PolicyEngine.v ===== *)
(** The policy engine ([pkg/policy/engine.go], [verify.go]): verification of a signed bundle,
    loading, and evaluation of a decision, with the exchange engine on top of it. The Rego parser,
    compiler and evaluator, the PEM and key parsers and the signature check of the bundle are
    parameters. A walk over the directory visits its files in the order of a list; verification
    and loading walk separately, so each sees the disk as it is then. *)
From Stdlib Require Import ZArith QArith Lia Ascii.
From stdpp Require Import base gmap strings list.
From S2P Require Import Prelude.
From S2P Require Import GoLib.
From S2P Require Import JwtModel.
From S2P Require Import Core.
From S2P Require Import Configuration.
From S2P Require Import DPoP.
From S2P Require Import Exchange.
From S2P Require Import ExchangeSpec.

#[local] Open Scope string_scope.
#[local] Open Scope list_scope.
#[local] Open Scope Z_scope.

Module PolicyEngine.
Import Configuration(PolicyConfig, Build_PolicyConfig, BundlePath, SigningKeyFile, SigningKeyID).

(** * The bundle directory *)

(** A file: the directories below the bundle it is in, its name and its bytes, when readable. *)
Record File : Type := {
  f_dirs : list string;
  f_name : string;
  f_data : option string;
}.
Definition relPath (f : File) : string := Join (f_dirs f ++ [f_name f]) "/".
(** In a directory the loader does not enter *)
Definition hidden (f : File) : bool := existsb (fun d => HasPrefix d "..") (f_dirs f).
Definition isPolicy (f : File) : bool := HasSuffix (f_name f) ".rego" || (f_name f =? "data.json")%string.

(** The disk as a walk finds it: the files, or an error of the walk. *)
Abbreviation Disk := (result string (list File)).

Inductive PolicyErr : Type :=
| NotADirectory
| ReadingKey
| DetectingAlgorithm
| ParsingKey
| ReadingSignatures
| ParsingSignatures
| SignatureInvalid (err : string)
| WalkFailed (err : string)
| ReadingFile (path : string)
| IntegrityCheck (path : string)
| SignedFileMissing (path : string)
| VerificationFailed (err : PolicyErr)
| ParsingModule (path : string)
| ParsingData (path : string)
| NoRego
| Compiling.

(** A parsed public key *)
Inductive PubKey : Type := EC (curve : string) | RSA | OtherKey.

Section Policy.
Context {Module_ Compiler Signatures KeyConfig : Type}.
Variable pem_key : string -> option PubKey.
Variable NewKeyConfig : string -> string -> option KeyConfig.
Variable json_Signatures : string -> option Signatures.
(** [bundle.VerifyBundleSignature]: the hashes of the signed files by name. *)
Variable VerifyBundleSignature : Signatures -> string -> KeyConfig -> result string (gmap string string).
(** The hash of a file of a bundle: of the bytes, or of the JSON document, by its name. *)
Variable fileHash : string -> string -> string.
Variable ParseModule : string -> string -> option Module_.
Variable json_Object : string -> option (gmap string value).
Variable Compile : gmap string Module_ -> option Compiler.
(** [rego.Eval]: the results of a query, each the values of its expressions. *)
Variable rego_Eval : Compiler -> gmap string value -> string -> gmap string value -> result string (list (list value)).

(** [detectKeyAlgorithm] *)
Definition detectKeyAlgorithm (pem : string) : option string :=
  match pem_key pem with
  | Some (EC curve) =>
      if (curve =? "P-256")%string then Some "ES256"
      else if (curve =? "P-384")%string then Some "ES384"
      else if (curve =? "P-521")%string then Some "ES512"
      else None
  | Some RSA => Some "RS256"
  | Some OtherKey | None => None
  end.

(** [bundle.VerifyBundleFile]: the file is signed with this hash. *)
Definition VerifyBundleFile (path data : string) (verified : gmap string string) : bool :=
  match verified !! path with Some h => (h =? fileHash path data)%string | None => false end.

(** The walk of [VerifyBundle]: the signed files not seen yet. *)
Fixpoint verifyFiles (files : list File) (verified : gmap string string) : result PolicyErr (gmap string string) :=
  match files with
  | [] => Ok verified
  | f :: rest =>
      if (relPath f =? ".signatures.json")%string || negb (isPolicy f) then verifyFiles rest verified else
      match f_data f with
      | None => Err (ReadingFile (relPath f))
      | Some data =>
          if negb (VerifyBundleFile (relPath f) data verified) then Err (IntegrityCheck (relPath f))
          else verifyFiles rest (delete (relPath f) verified)
      end
  end.

(** The signed files, as the key vouches for them *)
Definition signedFiles (cfg : PolicyConfig) (keyFile sigFile : option string) : result PolicyErr (gmap string string) :=
  match keyFile with
  | None => Err ReadingKey
  | Some keyPEM =>
      let keyID := if (SigningKeyID cfg =? "")%string then "starfly" else SigningKeyID cfg in
      match detectKeyAlgorithm keyPEM with
      | None => Err DetectingAlgorithm
      | Some alg =>
          match NewKeyConfig keyPEM alg with
          | None => Err ParsingKey
          | Some kc =>
              match sigFile with
              | None => Err ReadingSignatures
              | Some sigData =>
                  match json_Signatures sigData with
                  | None => Err ParsingSignatures
                  | Some sc =>
                      match VerifyBundleSignature sc keyID kc with
                      | Err e => Err (SignatureInvalid e)
                      | Ok files => Ok files
                      end
                  end
              end
          end
      end
  end.

(** [VerifyBundle]: [keyFile] and [sigFile] are the contents of the signing key and of
    [.signatures.json], when they can be read. *)
Definition VerifyBundle (cfg : PolicyConfig) (keyFile sigFile : option string) (disk : Disk) : result PolicyErr unit :=
  if (SigningKeyFile cfg =? "")%string then Ok tt else
  let? signed := signedFiles cfg keyFile sigFile in
  match disk with
  | Err e => Err (WalkFailed e)
  | Ok files =>
      let? left := verifyFiles files signed in
      match (map_to_list (delete ".signatures.json" left)).*1 with
      | [] => Ok tt
      | name :: _ => Err (SignedFileMissing name)
      end
  end.

(** * Loading *)

(** [Engine] *)
Record Engine : Type := {
  compiler : option Compiler;
  store : gmap string value;
}.
(** [New] *)
Definition New : Engine := {| compiler := None; store := ∅ |}.

(** The walk of [LoadBundle]: the modules and the merged data documents. *)
Definition loadFile (f : File) (modules : gmap string Module_) (data : gmap string value)
    : result PolicyErr (gmap string Module_ * gmap string value) :=
  if hidden f || negb (isPolicy f) then Ok (modules, data) else
  match f_data f with
  | None => Err (ReadingFile (relPath f))
  | Some raw =>
      if HasSuffix (f_name f) ".rego" then
        match ParseModule (relPath f) raw with
        | None => Err (ParsingModule (relPath f))
        | Some mod_ => Ok (<[relPath f := mod_]> modules, data)
        end
      else
        match json_Object raw with
        | None => Err (ParsingData (relPath f))
        | Some doc => Ok (modules, doc ∪ data)
        end
  end.
Fixpoint loadFiles (files : list File) (modules : gmap string Module_) (data : gmap string value)
    : result PolicyErr (gmap string Module_ * gmap string value) :=
  match files with
  | [] => Ok (modules, data)
  | f :: rest => let? md := loadFile f modules data in loadFiles rest md.1 md.2
  end.

(** [LoadBundle]: the engine, the audited rejections and the error; [rootName] is the name of the
    directory, [isDir] the outcome of [os.Stat] on the path, [verifyDisk] and [loadDisk] the disk as the two walks find it. *)
Definition LoadBundle (cfg : PolicyConfig) (rootName : string) (isDir : bool) (keyFile sigFile : option string) (verifyDisk loadDisk : Disk)
    (e : Engine) : Engine * list PolicyErr * result PolicyErr unit :=
  if negb isDir then (e, [], Err NotADirectory) else
  match VerifyBundle cfg keyFile sigFile verifyDisk with
  | Err err => (e, [err], Err (VerificationFailed err))
  | Ok _ =>
      match loadDisk with
      | Err err => (e, [], Err (WalkFailed err))
      | Ok files =>
          match loadFiles (if HasPrefix rootName ".." then [] else files) ∅ ∅ with
          | Err err => (e, [], Err err)
          | Ok (modules, data) =>
              if (size modules =? 0)%nat then (e, [], Err NoRego) else
              match Compile modules with
              | None => (e, [], Err Compiling)
              | Some c => ({| compiler := Some c; store := data |}, [], Ok tt)
              end
          end
      end
  end.

(** * Evaluation *)

(** [toMap]; the subject of an input is never [nil] here. *)
Definition toMap (time_value : Time -> value) (input : PolicyInput) : gmap string value :=
  let s := pi_Subject input in
  let subj := <["id" := VStr (wi_ID s)]> (<["trust_domain" := VStr (wi_TrustDomain s)]>
                (<["claims" := VObj (wi_Claims s)]> ∅)) in
  let subj := match wi_Attestation s with
              | Some a => <["attestation" := VObj (<["method" := VStr (ae_Method a)]>
                  (<["timestamp" := time_value (ae_Timestamp a)]> (<["node_id" := VStr (ae_NodeID a)]>
                  (<["namespace" := VStr (ae_Namespace a)]> ∅))))]> subj
              | None => subj
              end in
  <["action" := VStr (pi_Action input)]> (<["target" := VStr (pi_Target input)]>
    (<["subject" := VObj subj]> (<["context" := VObj (pi_Context input)]> ∅))).

(** The query of a rule of an action *)
Definition ruleQuery (action rule : string) : string := "data.starfly." +:+ action +:+ "." +:+ rule.

(** [evalRule] *)
Definition evalRule (c : Compiler) (st : gmap string value) (query : string) (input : gmap string value)
    : result string (option value) :=
  let? rs := rego_Eval c st query input in Ok (head rs ≫= head).

(** [Evaluate] *)
Definition Evaluate (time_value : Time -> value) (e : Engine) (input : PolicyInput) : result string PolicyDecision :=
  match compiler e with
  | None => Ok {| Allowed := false; pd_Reason := "no policy found"; pd_Claims := ∅ |}
  | Some c =>
      let eval rule := evalRule c (store e) (ruleQuery (pi_Action input) rule) (toMap time_value input) in
      let? allowed := eval "allow" in
      let? reason := eval "reason" in
      let? claims := eval "claims" in
      let allow := allowed ≫= as_bool in
      Ok {| Allowed := default false allow;
            pd_Reason := match reason ≫= as_string with
                         | Some s => s
                         | None => match allow with Some _ => "" | None => "no policy found" end
                         end;
            pd_Claims := default ∅ (claims ≫= as_object) |}
  end.

(** * What is loaded was signed *)

Lemma verifyFiles_ok files verified left :
  verifyFiles files verified = Ok left ->
  (forall f data, f ∈ files -> isPolicy f = true -> relPath f <> ".signatures.json" -> f_data f = Some data ->
     verified !! relPath f = Some (fileHash (relPath f) data)) /\
  (forall k, is_Some (verified !! k) -> left !! k = None -> exists f, f ∈ files /\ isPolicy f = true /\ relPath f = k) /\
  left ⊆ verified.
Proof.
  revert verified. induction files as [|f rest IH]; intros verified; cbn.
  { intros [= <-]. split; [by intros ? ? ?%not_elem_of_nil|]. split; [|done]. intros k [h Hk] Hn. congruence. }
  destruct ((relPath f =? ".signatures.json")%string || negb (isPolicy f)) eqn:Hskip.
  - intros (H1 & H2 & H3)%IH. split; [|split; [|done]].
    + intros g data [->|Hg]%elem_of_cons Hp Hn Hd; [|by apply H1].
      apply String.eqb_neq in Hn. by rewrite Hn, Hp in Hskip.
    + intros k Hk Hl. destruct (H2 k Hk Hl) as (g & Hg & ?). exists g. split; [by right|done].
  - destruct (f_data f) as [data|] eqn:Hfd; [|done].
    destruct (VerifyBundleFile (relPath f) data verified) eqn:Hv; [|done]. cbn. intros (H1 & H2 & H3)%IH.
    unfold VerifyBundleFile in Hv. destruct (verified !! relPath f) as [h|] eqn:Hh; [|done].
    apply String.eqb_eq in Hv as ->. apply orb_false_iff in Hskip as [_ Hpol%negb_false_iff].
    split; [|split].
    + intros g data' [->|Hg]%elem_of_cons Hp Hn Hd; [congruence|]. specialize (H1 g data' Hg Hp Hn Hd).
      by apply lookup_delete_Some in H1 as [_ ?].
    + intros k Hk Hl. destruct (decide (k = relPath f)) as [->|Hne].
      * exists f. split; [by left|done].
      * destruct (H2 k) as (g & Hg & ?); [by rewrite lookup_delete_ne|done|]. exists g. split; [by right|done].
    + etransitivity; [exact H3|apply delete_subseteq].
Qed.

(** A verified bundle: the key vouches for a set of hashes, which are those of its policy files,
    and no signed file is missing. *)
Lemma VerifyBundle_ok cfg keyFile sigFile disk :
  SigningKeyFile cfg <> "" -> VerifyBundle cfg keyFile sigFile disk = Ok tt ->
  exists signed files, signedFiles cfg keyFile sigFile = Ok signed /\ disk = Ok files /\
    (forall f data, f ∈ files -> isPolicy f = true -> relPath f <> ".signatures.json" -> f_data f = Some data ->
       signed !! relPath f = Some (fileHash (relPath f) data)) /\
    (forall k, is_Some (signed !! k) -> k <> ".signatures.json" -> exists f, f ∈ files /\ isPolicy f = true /\ relPath f = k).
Proof.
  intros Hkey. unfold VerifyBundle. apply String.eqb_neq in Hkey. rewrite Hkey.
  intros (signed & Hs & Hd)%rbind_ok. destruct disk as [files|]; [|done].
  apply rbind_ok in Hd as (left & (H1 & H2 & H3)%verifyFiles_ok & Hl).
  destruct ((map_to_list (delete ".signatures.json" left)).*1) eqn:Hm; [|done].
  exists signed, files. split; [done|]. split; [done|]. split; [done|].
  intros k Hk Hne. apply H2; [done|]. apply fmap_nil_inv in Hm. apply map_to_list_empty_iff in Hm.
  rewrite <- (lookup_delete_ne left ".signatures.json" k), Hm by done. apply lookup_empty.
Qed.

Lemma relPath_suffix f : exists pre, relPath f = pre +:+ f_name f.
Proof.
  unfold relPath, Join. induction (f_dirs f) as [|d ds [pre IH]]; [by exists ""|].
  exists (d +:+ "/" +:+ pre). rewrite <- !str_app_assoc, <- IH. by destruct ds.
Qed.

Lemma suffix_app s p : HasSuffix s p = true -> exists z, s = z +:+ p.
Proof.
  unfold HasSuffix. intros [_ H%String.eqb_eq]%andb_prop. exists (str_take (String.length s - String.length p) s).
  rewrite <- H at 2. by rewrite str_take_drop.
Qed.

Lemma tail_of s pre suf : s = pre +:+ suf -> str_drop (String.length s - String.length suf) s = suf.
Proof.
  intros ->. rewrite length_append. replace (_ - _)%nat with (String.length pre) by lia. apply str_drop_app.
Qed.

(** No policy file is the signatures file. *)
Lemma relPath_not_signatures f : isPolicy f = true -> relPath f <> ".signatures.json".
Proof.
  intros Hp He. destruct (relPath_suffix f) as [pre Hpre]. unfold isPolicy in Hp. apply orb_prop in Hp as [Hs|Hn].
  - apply suffix_app in Hs as [z Hz]. rewrite He, Hz, str_app_assoc in Hpre. by apply tail_of in Hpre.
  - apply String.eqb_eq in Hn. rewrite He, Hn in Hpre. by apply tail_of in Hpre.
Qed.

(** What a loaded module and a loaded datum come from *)
Definition module_from (files : list File) (path : string) (m : Module_) : Prop :=
  exists f raw, f ∈ files /\ isPolicy f = true /\ hidden f = false /\ f_data f = Some raw /\
    relPath f = path /\ ParseModule path raw = Some m.
Definition datum_from (files : list File) (k : string) (v : value) : Prop :=
  exists f raw doc, f ∈ files /\ isPolicy f = true /\ hidden f = false /\ f_data f = Some raw /\
    json_Object raw = Some doc /\ doc !! k = Some v.

Lemma loadFile_from f modules data modules' data' :
  loadFile f modules data = Ok (modules', data') ->
  (forall path m, modules' !! path = Some m -> modules !! path = Some m \/ module_from [f] path m) /\
  (forall k v, data' !! k = Some v -> data !! k = Some v \/ datum_from [f] k v).
Proof.
  unfold loadFile. destruct (hidden f) eqn:Hh, (isPolicy f) eqn:Hp; cbn; try (intros [= <- <-]; by auto).
  destruct (f_data f) as [raw|] eqn:Hd; [|done]. destruct (HasSuffix (f_name f) ".rego").
  - destruct (ParseModule (relPath f) raw) as [m0|] eqn:Hm; [|done]. intros [= <- <-]. split; [|by auto].
    intros path m [[<- <-]|[_ ?]]%lookup_insert_Some; [right|by left]. exists f, raw. by rewrite list_elem_of_singleton.
  - destruct (json_Object raw) as [doc|] eqn:Hj; [|done]. intros [= <- <-]. split; [by auto|].
    intros k v [Hk|[_ ?]]%lookup_union_Some_raw; [right|by left]. exists f, raw, doc. by rewrite list_elem_of_singleton.
Qed.

Lemma from_mono fs fs' : fs ⊆ fs' ->
  (forall path m, module_from fs path m -> module_from fs' path m) /\ (forall k v, datum_from fs k v -> datum_from fs' k v).
Proof.
  intros Hsub. split; [intros ? ? (f & raw & Hf%Hsub & ?); by exists f, raw|intros ? ? (f & raw & doc & Hf%Hsub & ?); by exists f, raw, doc].
Qed.

Lemma loadFiles_from files modules data modules' data' :
  loadFiles files modules data = Ok (modules', data') ->
  (forall path m, modules' !! path = Some m -> modules !! path = Some m \/ module_from files path m) /\
  (forall k v, data' !! k = Some v -> data !! k = Some v \/ datum_from files k v).
Proof.
  revert modules data. induction files as [|f rest IH]; intros modules data; cbn.
  { intros [= <- <-]. by auto. }
  intros ([m1 d1] & Hf%loadFile_from & [Hm Hd]%IH)%rbind_ok. destruct Hf as [Hm1 Hd1].
  destruct (from_mono [f] (f :: rest)) as [? ?]; [clear; set_solver|]. destruct (from_mono rest (f :: rest)) as [? ?]; [clear; set_solver|].
  split; [intros path m Hl; destruct (Hm path m Hl) as [[?|?]%Hm1|?]|intros k v Hl; destruct (Hd k v Hl) as [[?|?]%Hd1|?]];
    by auto.
Qed.

(** ** Evaluation and failed loads *)

(** A decision allows exactly when the rule of the action gives [true], nothing else. *)
Lemma Evaluate_allowed tv e input d :
  Evaluate tv e input = Ok d -> Allowed d = true ->
  exists c, compiler e = Some c /\
    evalRule c (store e) (ruleQuery (pi_Action input) "allow") (toMap tv input) = Ok (Some (VBool true)).
Proof.
  unfold Evaluate. destruct (compiler e) as [c|]; [|by intros [= <-]].
  intros (allowed & Ha & (r & _ & (cl & _ & [= <-])%rbind_ok)%rbind_ok)%rbind_ok. cbn. intros Hal.
  exists c. split; [done|]. rewrite Ha. destruct allowed as [v|]; [|done]. cbn in Hal.
  destruct v; try done. by destruct b.
Qed.

(** Until a bundle is loaded every decision is a denial. *)
Lemma New_denies tv input : Evaluate tv New input = Ok {| Allowed := false; pd_Reason := "no policy found"; pd_Claims := ∅ |}.
Proof. done. Qed.

(** A load that fails leaves the engine as it was; a bundle that does not verify is audited. *)
Lemma LoadBundle_failed cfg rootName isDir keyFile sigFile vd ld e e' log err :
  LoadBundle cfg rootName isDir keyFile sigFile vd ld e = (e', log, Err err) ->
  e' = e /\ (log = [] \/ exists v, log = [v] /\ err = VerificationFailed v /\ VerifyBundle cfg keyFile sigFile vd = Err v).
Proof.
  unfold LoadBundle. destruct isDir; cbn; [|intros [= <- <- _]; by auto].
  destruct (VerifyBundle cfg keyFile sigFile vd) as [[]|v]; [|intros [= <- <- <-]; by eauto 10].
  destruct ld as [files|]; [|intros [= <- <- _]; by auto].
  destruct (loadFiles _ ∅ ∅) as [[modules data]|]; [|intros [= <- <- _]; by auto].
  destruct (size modules =? 0)%nat; [intros [= <- <- _]; by auto|].
  destruct (Compile modules); intros [= <- <- _]; by auto.
Qed.

Lemma LoadBundle_ok cfg rootName isDir keyFile sigFile vd files e e' log :
  LoadBundle cfg rootName isDir keyFile sigFile vd (Ok files) e = (e', log, Ok tt) ->
  VerifyBundle cfg keyFile sigFile vd = Ok tt /\
  exists modules c, Compile modules = Some c /\ compiler e' = Some c /\
    (forall path m, modules !! path = Some m -> module_from files path m) /\
    (forall k v, store e' !! k = Some v -> datum_from files k v).
Proof.
  unfold LoadBundle. destruct isDir; [|done]. cbn.
  destruct (VerifyBundle cfg keyFile sigFile vd) as [[]|]; [|done].
  destruct (loadFiles _ ∅ ∅) as [[modules data]|] eqn:Hl; [|done].
  destruct (size modules =? 0)%nat eqn:Hz; [done|]. destruct (Compile modules) as [c|] eqn:Hc; [|done].
  intros [= <- <-]. split; [done|]. exists modules, c. split; [done|]. split; [done|]. cbn.
  destruct (HasPrefix rootName "..").
  { cbn in Hl. injection Hl as <- <-. done. }
  apply loadFiles_from in Hl as [Hm Hd].
  split; [intros path m Hp; destruct (Hm path m Hp)|intros k v Hk; destruct (Hd k v Hk)]; by try (rewrite lookup_empty in *).
Qed.

(** ** The exchange on a signed bundle *)
Section Signed.
Context `{!JwtLib, !DPoP.JwsLib, !RangeOrder}.
Context {EncKey : Type}.
Variable clock : nat -> Time.
Variable EncryptSecretBundle : gmap string string -> EncKey -> result string string.

(** C3: With a signing key configured and a bundle directory nobody changes while it is loaded, a
    token is issued only when the [allow] rule of the [exchange] package, as compiled from modules
    each of which has the hash its path was signed with, evaluates to [true] on the request; the
    data the rule reads come from signed files too. *)
Theorem token_needs_signed_policy cfg rootName isDir keyFile sigFile files pe0 pe log tv
    (e : Exchange.Engine (EncKey := EncKey)) req s s' resp :
  SigningKeyFile cfg <> "" ->
  LoadBundle cfg rootName isDir keyFile sigFile (Ok files) (Ok files) pe0 = (pe, log, Ok tt) ->
  Exchange.e_policy e = Evaluate tv pe ->
  Exchange.Exchange clock EncryptSecretBundle e req s = (s', Ok resp) ->
  exists signed modules c credType w,
    signedFiles cfg keyFile sigFile = Ok signed /\
    Compile modules = Some c /\
    (forall path m, modules !! path = Some m ->
       exists raw, ParseModule path raw = Some m /\ signed !! path = Some (fileHash path raw)) /\
    (forall k v, store pe !! k = Some v -> exists path raw doc,
       json_Object raw = Some doc /\ doc !! k = Some v /\ signed !! path = Some (fileHash path raw)) /\
    Exchange.authenticate e req = Ok (credType, w) /\
    evalRule c (store pe) "data.starfly.exchange.allow" (toMap tv (Exchange.buildPolicyInput e req w credType))
      = Ok (Some (VBool true)).
Proof.
  intros Hkey (Hv & modules & c & Hc & Hpe & Hm & Hd)%LoadBundle_ok Hpol Hx.
  apply VerifyBundle_ok in Hv as (signed & fs & Hs & [= <-] & Hsig & _); [|done].
  apply ExchangeSpec.Exchange_ok in Hx as (s1 & m & Hmint & _).
  apply ExchangeSpec.mint_ok in Hmint as (d & dpop & now & t & His).
  destruct (ExchangeSpec.is_auth _ _ _ _ _ _ _ _ _ _ His) as (credType & Ha & Hdec).
  pose proof (ExchangeSpec.is_allowed _ _ _ _ _ _ _ _ _ _ His) as Hal.
  rewrite Hpol in Hdec. apply Evaluate_allowed in Hdec as (c' & Hc' & Hev); [|done].
  assert (c' = c) as -> by congruence. exists signed, modules, c, credType, (Exchange.m_workload m).
  split; [done|]. split; [done|]. split; [|split; [|by split]].
  - intros path mo (f & raw & Hf & Hp & _ & Hfd & <- & Hpm)%Hm. exists raw. split; [done|].
    apply Hsig; try done. by apply relPath_not_signatures.
  - intros k v (f & raw & doc & Hf & Hp & _ & Hfd & Hj & Hk)%Hd. exists (relPath f), raw, doc. split; [done|].
    split; [done|]. apply Hsig; try done. by apply relPath_not_signatures.
Qed.

(** The unit starts even when its bundle cannot be loaded; no token is issued then. *)
Lemma unloaded_policy_issues_nothing cfg rootName isDir keyFile sigFile vd ld pe log err tv
    (e : Exchange.Engine (EncKey := EncKey)) req s s' resp :
  LoadBundle cfg rootName isDir keyFile sigFile vd ld New = (pe, log, Err err) ->
  Exchange.e_policy e = Evaluate tv pe ->
  Exchange.Exchange clock EncryptSecretBundle e req s <> (s', Ok resp).
Proof.
  intros [-> _]%LoadBundle_failed Hpol Hx. apply ExchangeSpec.Exchange_ok in Hx as (s1 & m & Hmint & _).
  apply ExchangeSpec.mint_ok in Hmint as (d & dpop & now & t & His).
  destruct (ExchangeSpec.is_auth _ _ _ _ _ _ _ _ _ _ His) as (credType & _ & Hdec).
  pose proof (ExchangeSpec.is_allowed _ _ _ _ _ _ _ _ _ _ His) as Hal. rewrite Hpol in Hdec.
  by apply Evaluate_allowed in Hdec as (c & [=] & _).
Qed.
End Signed.
End Policy.

(** * Concrete bundles *)

Definition demo_file (dirs : list string) (name data : string) : File := {| f_dirs := dirs; f_name := name; f_data := Some data |}.
Definition demo_hash (path data : string) : string := "h:" +:+ data.
Definition demo_pem (pem : string) : option PubKey := Some (EC "P-256").
Definition demo_key (pem alg : string) : option string := Some pem.
(** A signature file lists its files; the key vouches for all of them. *)
Definition demo_verify (sc : list (string * string)) (keyID kc : string) : result string (gmap string string) :=
  Ok (list_to_map sc).
Definition demo_cfg : PolicyConfig := {| BundlePath := "policies"; SigningKeyFile := "/key.pem"; SigningKeyID := "" |}.
(** A policy that allows the actions its module lists *)
Definition demo_module (path raw : string) : option string := Some raw.
Definition demo_compile (modules : gmap string string) : option (gmap string string) := Some modules.
Definition demo_rego (c : gmap string string) (data : gmap string value) (query : string) (input : gmap string value)
    : result string (list (list value)) :=
  Ok (if bool_decide (c !! "exchange.rego" = Some query) then [[VBool true]] else []).
Definition demo_object (raw : string) : option (gmap string value) := Some {[ "domains" := VStr raw ]}.

Definition demo_files : list File :=
  [demo_file [] "data.json" "td"; demo_file [] "exchange.rego" "data.starfly.exchange.allow"].
Definition demo_signed : list (string * string) :=
  [("data.json", "h:td"); ("exchange.rego", "h:data.starfly.exchange.allow")].

Definition demo_load (sc : list (string * string)) (vd ld : list File) :=
  LoadBundle demo_pem demo_key (fun _ => Some sc) demo_verify demo_hash demo_module demo_object demo_compile
    demo_cfg "policies" true (Some "pem") (Some "sig") (Ok vd) (Ok ld) New.

#[local] Existing Instance JwtModel.lib.
#[local] Existing Instance DPoP.demo_jws.
#[local] Existing Instance key_order.

(** The exchange engine with this policy engine in the place of its policy *)
Definition with_policy (pe : Engine) : Exchange.Engine (EncKey := string) :=
  let e := ExchangeSpec.demo_engine None in
  {| Exchange.e_identity := Exchange.e_identity e; Exchange.e_policy := Evaluate demo_rego (fun t => VInt t) pe;
     Exchange.e_keyring := Exchange.e_keyring e; Exchange.e_signKey := Exchange.e_signKey e; Exchange.e_issuer := Exchange.e_issuer e;
     Exchange.e_ttl := Exchange.e_ttl e; Exchange.e_syncBus := Exchange.e_syncBus e; Exchange.e_unitID := Exchange.e_unitID e;
     Exchange.e_revocation := Exchange.e_revocation e; Exchange.e_onRevocationError := Exchange.e_onRevocationError e;
     Exchange.e_executionTTL := Exchange.e_executionTTL e; Exchange.e_onExchange := Exchange.e_onExchange e;
     Exchange.e_secretSource := Exchange.e_secretSource e; Exchange.e_encryptionKeyStore := Exchange.e_encryptionKeyStore e;
     Exchange.e_onSecretDelivery := Exchange.e_onSecretDelivery e; Exchange.e_devMode := Exchange.e_devMode e |}.

Definition demo_loaded : Engine := (demo_load demo_signed demo_files demo_files).1.1.
Definition demo_issue (pe : Engine) :=
  Exchange.Exchange ExchangeSpec.demo_clock ExchangeSpec.demo_encrypt (with_policy pe) (ExchangeSpec.demo_req "" "n1") Exchange.initState.

Lemma token_needs_signed_policy_witness :
  exists signed : gmap string string,
    signedFiles demo_pem demo_key (fun _ => Some demo_signed) demo_verify demo_cfg (Some "pem") (Some "sig") = Ok signed /\
    exists w, evalRule demo_rego (default ∅ (compiler demo_loaded)) (store demo_loaded) "data.starfly.exchange.allow"
      (toMap (fun t => VInt t) (Exchange.buildPolicyInput (with_policy demo_loaded) (ExchangeSpec.demo_req "" "n1") w "k8s-sa"))
      = Ok (Some (VBool true)).
Proof.
  edestruct (token_needs_signed_policy demo_pem demo_key (fun _ => Some demo_signed) demo_verify demo_hash demo_module
    demo_object demo_compile demo_rego ExchangeSpec.demo_clock ExchangeSpec.demo_encrypt
    demo_cfg "policies" true (Some "pem") (Some "sig") demo_files New demo_loaded [] (fun t => VInt t)
    (with_policy demo_loaded) (ExchangeSpec.demo_req "" "n1") Exchange.initState
    (fst (demo_issue demo_loaded)) (ExchangeSpec.out_resp (demo_issue demo_loaded)))
    as (signed & modules & c & ct & w & Hs & Hc & _ & _ & Ha & He);
    [discriminate|reflexivity|reflexivity|apply ExchangeSpec.out_ok; vm_compute; reflexivity|].
  exists signed. split; [exact Hs|]. exists w. vm_compute in Ha. injection Ha as <- <-. reflexivity.
Defined.

(** Verification and loading walk the directory separately: a policy file replaced in between is
    compiled although it was never signed, and the load succeeds. *)
Lemma replaced_after_verification :
  let evil := [demo_file [] "data.json" "td"; demo_file [] "exchange.rego" "data.starfly.signals.allow"] in
  exists pe, demo_load demo_signed demo_files evil = (pe, [], Ok tt) /\
    compiler pe = Some {[ "exchange.rego" := "data.starfly.signals.allow" ]} /\
    snd (demo_load demo_signed evil evil) = Err (VerificationFailed (IntegrityCheck "exchange.rego")).
Proof. eexists. split; [vm_compute; reflexivity|]. split; vm_compute; reflexivity. Qed.

(** A mounted ConfigMap: the data directory, whose name starts with two dots, holds the files a
    second time. The loader does not enter it; verification does, and refuses the bundle for files
    no signature names. *)
Definition configMap : list File :=
  [demo_file ["..2026_03_28"] "data.json" "td"; demo_file ["..2026_03_28"] "exchange.rego" "data.starfly.exchange.allow"] ++ demo_files.
Lemma configmap_mount_never_verifies :
  loadFiles demo_module demo_object configMap ∅ ∅ = loadFiles demo_module demo_object demo_files ∅ ∅ /\
  snd (demo_load demo_signed configMap configMap) = Err (VerificationFailed (IntegrityCheck "..2026_03_28/data.json")).
Proof. split; vm_compute; reflexivity. Qed.

(** A signed file that is neither a module nor a data document, the manifest of a bundle say, is
    never looked for, so the bundle that has it is refused as one that lacks it. *)
Lemma signed_manifest_never_verifies :
  let files := demo_file [] ".manifest" "{}" :: demo_files in
  snd (demo_load ((".manifest", "h:{}") :: demo_signed) files files) = Err (VerificationFailed (SignedFileMissing ".manifest")).
Proof. vm_compute. reflexivity. Qed.
End PolicyEngine.
