(* ===== verification/AuditLog.v ===== *)
(** The audit log ([pkg/audit/logger.go], [signing.go]): the plain and the signing logger over a
    buffered writer, closing, and the verification of a signed event. The writer below and the
    JSON encoder are parameters; the buffered writer and the encoder's way of writing to it are
    those of Go's standard library. *)
From Stdlib Require Import ZArith QArith Lia Ascii.
From stdpp Require Import base gmap strings list.
From S2P Require Import Prelude.
From S2P Require Import GoLib.
From S2P Require Import Base64.
From S2P Require Import Core.

#[local] Open Scope string_scope.
#[local] Open Scope list_scope.
#[local] Open Scope nat_scope.

Module AuditLog.

(** [core.AuditEvent] with the timestamp the loggers fill *)
Record Event : Type := {
  Timestamp : Time;
  event : AuditEvent string;
}.

(** * The writer below and the buffer *)

Definition bufSize : nat := 4096.

Section Writer.
(** [io.Writer]: the outcome of the [n]th write. By its contract a write that does not take all
    the bytes returns an error: it takes all of them, or a number of them and fails. *)
Variable io_Write : nat -> string -> option (nat * string).

(** [bufio.Writer]: what is buffered, the first error, which sticks, what reached the writer
    below and how often it was called. *)
Record Writer : Type := {
  buf : string;
  err : option string;
  out : string;
  calls : nat;
}.
Definition NewWriter : Writer := {| buf := ""; err := None; out := ""; calls := 0 |}.

(** [Flush] *)
Definition Flush (w : Writer) : Writer :=
  if bool_decide (err w <> None) || (buf w =? "")%string then w else
  match io_Write (calls w) (buf w) with
  | None => {| buf := ""; err := None; out := out w +:+ buf w; calls := S (calls w) |}
  | Some (n, e) => {| buf := str_drop n (buf w); err := Some e; out := out w +:+ str_take n (buf w); calls := S (calls w) |}
  end.

(** A write on an empty buffer: large ones pass it by. *)
Definition writeEmpty (p : string) (w : Writer) : Writer :=
  if (String.length p <=? bufSize) then {| buf := p; err := None; out := out w; calls := calls w |} else
  match io_Write (calls w) p with
  | None => {| buf := ""; err := None; out := out w +:+ p; calls := S (calls w) |}
  | Some (n, e) => {| buf := ""; err := Some e; out := out w +:+ str_take n p; calls := S (calls w) |}
  end.

(** [Write]: what does not fit fills the buffer, which is flushed; the loop then finds it empty. *)
Definition Write (p : string) (w : Writer) : Writer :=
  let avail := bufSize - String.length (buf w) in
  if bool_decide (err w <> None) then w
  else if (String.length p <=? avail) then
    {| buf := buf w +:+ p; err := None; out := out w; calls := calls w |}
  else if (buf w =? "")%string then writeEmpty p w
  else
    let w := Flush {| buf := buf w +:+ str_take avail p; err := None; out := out w; calls := calls w |} in
    match err w with
    | Some _ => w
    | None => writeEmpty (str_drop avail p) w
    end.

(** * The loggers *)

(** [Logger] and [SigningLogger]: the writer and the first write error of the encoder. *)
Record Logger : Type := {
  w : Writer;
  enc_err : option string;
}.
(** [New] and [NewSigningLogger] *)
Definition New : Logger := {| w := NewWriter; enc_err := None |}.

(** [json.Encoder.Encode]: a value that has no encoding is an error of the call; a failed write
    is an error of every call from then on. *)
Definition Encode (line : result string string) (l : Logger) : Logger * result string unit :=
  match enc_err l with
  | Some e => (l, Err e)
  | None =>
      match line with
      | Err e => (l, Err e)
      | Ok s =>
          let w' := Write (s +:+ String "010" "") (w l) in
          ({| w := w'; enc_err := err w' |}, match err w' with Some e => Err e | None => Ok tt end)
      end
  end.

(** [Close] *)
Definition Close (l : Logger) : Logger * result string unit :=
  let w' := Flush (w l) in
  ({| w := w'; enc_err := enc_err l |}, match err w' with Some e => Err e | None => Ok tt end).

Variable json_Event : Event -> result string string.

(** The zero timestamp is filled at the call. *)
Definition stamp (now : Time) (e : Event) : Event :=
  if IsZero (Timestamp e) then {| Timestamp := now; event := event e |} else e.

(** [Logger.Log] *)
Definition Log (now : Time) (e : Event) (l : Logger) : Logger * result string unit := Encode (json_Event (stamp now e)) l.

(** [SignedAuditEvent] *)
Record SignedAuditEvent : Type := {
  se_Event : Event;
  Signature : string;
}.
Variable json_Signed : SignedAuditEvent -> result string string.
Variable hmac_sha256 : string -> string -> string.

(** [computeHMAC] *)
Definition computeHMAC (data key : string) : string := hmac_sha256 key data.

(** The event a signing logger writes *)
Definition signEvent (key : string) (e : Event) : result string SignedAuditEvent :=
  match json_Event e with
  | Err _ => Err "marshaling event for signing"
  | Ok data => Ok {| se_Event := e; Signature := Hex.EncodeToString (computeHMAC data key) |}
  end.
Definition signedLine (key : string) (e : Event) : result string string :=
  let? s := signEvent key e in json_Signed s.

(** [SigningLogger.Log] *)
Definition SignedLog (key : string) (now : Time) (e : Event) (l : Logger) : Logger * result string unit :=
  match signEvent key (stamp now e) with
  | Err m => (l, Err m)
  | Ok s => Encode (json_Signed s) l
  end.

(** [VerifySignedEvent] *)
Definition VerifySignedEvent (s : SignedAuditEvent) (key : string) : result string unit :=
  match json_Event (se_Event s) with
  | Err _ => Err "marshaling event for verification"
  | Ok data =>
      match Hex.DecodeString (Signature s) with
      | None => Err "decoding signature"
      | Some sig =>
          if (sig =? computeHMAC data key)%string then Ok tt
          else Err "signature verification failed: event has been tampered with"
      end
  end.

(** * The log as a sequence of lines *)

(** A run of a logger: the outcome of each call. *)
Section Run.
Variable log1 : Time -> Event -> Logger -> Logger * result string unit.
Fixpoint run (es : list (Time * Event)) (l : Logger) : Logger * list (result string unit) :=
  match es with
  | [] => (l, [])
  | (now, e) :: rest =>
      let (l, r) := log1 now e l in let (l', rs) := run rest l in (l', r :: rs)
  end.
End Run.

(** The abstract log: the lines of the calls that returned no error, in order. *)
Definition text (line : Event -> result string string) (now : Time) (e : Event) : string :=
  match line (stamp now e) with Ok s => s +:+ String "010" "" | Err _ => "" end.
Fixpoint recorded (line : Event -> result string string) (es : list (Time * Event)) (rs : list (result string unit)) : string :=
  match es, rs with
  | (now, e) :: es', Ok _ :: rs' => text line now e +:+ recorded line es' rs'
  | _ :: es', _ :: rs' => recorded line es' rs'
  | _, _ => ""
  end.

(** The two implementations of [core.Auditor] *)
Inductive Auditor : Type := Plain | Signing (key : string).
Definition auditLog (a : Auditor) : Time -> Event -> Logger -> Logger * result string unit :=
  match a with Plain => Log | Signing key => SignedLog key end.
Definition auditLine (a : Auditor) : Event -> result string string :=
  match a with Plain => json_Event | Signing key => signedLine key end.

(** ** The buffer loses nothing *)

Definition stream (w : Writer) : string := out w +:+ buf w.
(** What a write of [p] to a writer in good order leaves *)
Definition written (p : string) (w0 w' : Writer) : Prop :=
  String.length (buf w') <= bufSize /\
  match err w' with
  | None => stream w' = stream w0 +:+ p
  | Some _ => exists part rest, p = part +:+ rest /\ stream w' = stream w0 +:+ part
  end.

Lemma Flush_spec w0 : err w0 = None ->
  String.length (buf (Flush w0)) <= String.length (buf w0) /\ stream (Flush w0) = stream w0 /\
  (err (Flush w0) = None -> buf (Flush w0) = "").
Proof.
  intros He. unfold Flush, stream. rewrite He. cbn. destruct (buf w0 =? "")%string eqn:Hb.
  { apply String.eqb_eq in Hb. by rewrite Hb. }
  destruct (io_Write (calls w0) (buf w0)) as [[n e]|]; cbn.
  - rewrite length_str_drop, <- str_app_assoc, str_take_drop. split; [lia|done].
  - rewrite str_app_nil_r. split; [lia|done].
Qed.

Lemma writeEmpty_spec p w0 : buf w0 = "" -> written p w0 (writeEmpty p w0).
Proof.
  intros Hb. unfold writeEmpty, written, stream. rewrite Hb. destruct (Nat.leb_spec (String.length p) bufSize); cbn -[bufSize].
  { split; [done|]. by rewrite str_app_nil_r. }
  destruct (io_Write (calls w0) p) as [[n e]|]; cbn -[bufSize]; (split; [unfold bufSize; lia|]).
  - exists (str_take n p), (str_drop n p). by rewrite str_take_drop, !str_app_nil_r.
  - by rewrite !str_app_nil_r.
Qed.

Lemma Write_spec p w0 : err w0 = None -> String.length (buf w0) <= bufSize -> written p w0 (Write p w0).
Proof.
  intros He Hl. unfold Write. rewrite He. cbn [bool_decide]. rewrite bool_decide_eq_false_2 by (intros Hn; by apply Hn).
  destruct (Nat.leb_spec (String.length p) (bufSize - String.length (buf w0))).
  { split; cbn -[bufSize]; [rewrite length_append; lia|]. unfold stream. cbn. by rewrite str_app_assoc. }
  destruct (buf w0 =? "")%string eqn:Hb; [by apply writeEmpty_spec, String.eqb_eq|].
  set (avail := bufSize - _) in *. set (w1 := {| buf := _; err := None; out := _; calls := _ |}).
  destruct (Flush_spec w1) as (Hle & Hs & Hempty); [done|].
  assert (Hs1 : stream w1 = stream w0 +:+ str_take avail p) by (unfold stream; cbn; by rewrite str_app_assoc).
  destruct (err (Flush w1)) as [e|] eqn:Hf.
  - split; [etrans; [exact Hle|]; cbn -[bufSize]; rewrite length_append, length_str_take; lia|].
    rewrite Hf. exists (str_take avail p), (str_drop avail p). by rewrite str_take_drop, Hs.
  - destruct (writeEmpty_spec (str_drop avail p) (Flush w1) (Hempty eq_refl)) as [Hl' Hw]. split; [done|].
    destruct (err (writeEmpty _ _)).
    + destruct Hw as (part & rest & Hp & Hw). exists (str_take avail p +:+ part), rest.
      rewrite <- str_app_assoc, <- Hp, str_take_drop, Hw, Hs, Hs1, str_app_assoc. done.
    + by rewrite Hw, Hs, Hs1, <- str_app_assoc, str_take_drop.
Qed.

(** ** The loggers on top *)

(** A logger that holds the text [t], in good order or after a failed write of one of [ts] *)
Definition holds (t : string) (ts : list string) (l : Logger) : Prop :=
  String.length (buf (w l)) <= bufSize /\
  match enc_err l with
  | None => err (w l) = None /\ stream (w l) = t
  | Some _ => err (w l) <> None /\ exists part rest, part +:+ rest ∈ ts /\ stream (w l) = t +:+ part
  end.

Lemma Encode_holds line t ts l l' r : holds t ts l -> Encode line l = (l', r) ->
  holds (t +:+ match r, line with Ok _, Ok s => s +:+ String "010" "" | _, _ => "" end)
    (match line with Ok s => (s +:+ String "010" "") :: ts | Err _ => ts end) l' /\
  (is_ok r = true -> is_ok line = true).
Proof.
  intros [Hb Hh]. unfold Encode, holds. destruct (enc_err l) as [e|] eqn:He.
  { intros [= <- <-]. rewrite He, str_app_nil_r. destruct Hh as (Hne & part & rest & Hin & Hs). repeat split; try done.
    exists part, rest. split; [destruct line; [by right|done]|done]. }
  destruct Hh as [Hok Hs]. destruct line as [s|e]; [|intros [= <- <-]; by rewrite He, str_app_nil_r].
  destruct (Write_spec (s +:+ String "010" "") (w l) Hok Hb) as [Hb' Hw]. intros [= <- <-]. cbn -[bufSize].
  destruct (err (Write _ (w l))) eqn:Hew.
  - rewrite str_app_nil_r. split; [|done]. split; [done|]. split; [done|]. destruct Hw as (part & rest & Hp & Hw).
    exists part, rest. split; [rewrite <- Hp; left|by rewrite Hw, Hs].
  - split; [|done]. split; [done|]. by rewrite Hw, Hs.
Qed.

Lemma holds_more t ts ts' l : holds t ts l -> (forall x, x ∈ ts -> x ∈ ts') -> holds t ts' l.
Proof.
  intros [Hb Hm] Hsub. split; [done|]. destruct (enc_err l); [|done].
  destruct Hm as (? & part & rest & Hin & ?). split; [done|]. exists part, rest. split; [by apply Hsub|done].
Qed.

Lemma auditLog_holds a now e t ts l l' r : holds t ts l -> auditLog a now e l = (l', r) ->
  holds (t +:+ match r with Ok _ => text (auditLine a) now e | Err _ => "" end) (text (auditLine a) now e :: ts) l'.
Proof.
  intros Hh Ha. unfold text.
  assert (Hcase : (exists e', auditLine a (stamp now e) = Err e' /\ l' = l /\ is_ok r = false) \/
                  Encode (auditLine a (stamp now e)) l = (l', r)).
  { destruct a as [|key]; cbn in *; [by right|]. unfold SignedLog, signedLine in *.
    destruct (signEvent key (stamp now e)) as [s|m]; cbn in *; [by right|left]. injection Ha as <- <-. by exists m. }
  destruct Hcase as [(e' & -> & -> & Hr)|He].
  - destruct r; [done|]. rewrite str_app_nil_r. eapply holds_more; [done|]. by right.
  - apply Encode_holds with (t := t) (ts := ts) in He as [He Hok]; [|done].
    destruct (auditLine a (stamp now e)), r; try done; [by specialize (Hok eq_refl)|].
    eapply holds_more; [done|]. by right.
Qed.

Definition texts (a : Auditor) (es : list (Time * Event)) : list string := (fun ne => text (auditLine a) ne.1 ne.2) <$> es.

Lemma run_holds a es t ts l l' rs : holds t ts l -> run (auditLog a) es l = (l', rs) ->
  holds (t +:+ recorded (auditLine a) es rs) (texts a es ++ ts) l'.
Proof.
  revert t ts l rs. induction es as [|[now e] es IH]; intros t ts l rs Hh; cbn.
  { intros [= <- <-]. by rewrite str_app_nil_r. }
  destruct (auditLog a now e l) as [l1 r] eqn:Ha. destruct (run (auditLog a) es l1) as [l2 rs'] eqn:Hr.
  intros [= <- <-]. apply auditLog_holds with (t := t) (ts := ts) in Ha; [|done].
  eapply IH in Hr; [|exact Ha]. eapply (holds_more _ _ (text (auditLine a) now e :: texts a es ++ ts)) in Hr.
  - destruct r; [by rewrite str_app_assoc|by rewrite str_app_nil_r in Hr].
  - intros x. rewrite !elem_of_app, !elem_of_cons, elem_of_app. tauto.
Qed.

(** C36: Either logger is a faithful buffer of the abstract log, whatever the writer below does: what
    reached it and what is buffered are the lines of the calls that reported no error, in order
    and whole, followed, once a write has failed, by at most a part of one line; no more than the
    buffer's size is held back; and when closing reports no error the writer below has exactly
    those lines. *)
Theorem audit_log_refines a es l rs :
  run (auditLog a) es New = (l, rs) ->
  (exists part rest, out (w l) +:+ buf (w l) = recorded (auditLine a) es rs +:+ part /\
     (enc_err l = None -> part = "") /\ (part = "" \/ part +:+ rest ∈ texts a es)) /\
  String.length (buf (w l)) <= bufSize /\
  (snd (Close l) = Ok tt -> out (w (fst (Close l))) = recorded (auditLine a) es rs) /\
  (enc_err l = None -> (forall n p, io_Write n p = None) -> snd (Close l) = Ok tt).
Proof.
  intros Hr. apply run_holds with (t := "") (ts := []) in Hr; [|split; [cbn; unfold bufSize; lia|done]].
  rewrite app_nil_r in Hr. destruct Hr as [Hb Hm]. unfold stream in Hm.
  assert (Hcl : snd (Close l) = Ok tt -> err (w l) = None /\ err (Flush (w l)) = None).
  { unfold Close. cbn. destruct (err (w l)) eqn:He.
    - assert (Flush (w l) = w l) as -> by (unfold Flush; by rewrite He). by rewrite He.
    - by destruct (err (Flush (w l))). }
  split; [|split; [done|split]].
  - destruct (enc_err l).
    + destruct Hm as (_ & part & rest & Hin & Hs). exists part, rest. split; [exact Hs|]. split; [done|by right].
    + destruct Hm as [_ Hs]. exists "", "". rewrite str_app_nil_r. split; [exact Hs|]. split; [done|by left].
  - intros [He Hf]%Hcl. destruct (enc_err l); [by destruct Hm|]. destruct Hm as [_ Hs].
    destruct (Flush_spec (w l) He) as (_ & Hst & Hemp). unfold stream in Hst. cbn.
    by rewrite (Hemp Hf), str_app_nil_r, Hs in Hst.
  - intros Hn Hio. rewrite Hn in Hm. destruct Hm as [He _]. unfold Close, Flush. rewrite He, Hio.
    destruct (buf (w l) =? "")%string; cbn; [by rewrite He|done].
Qed.

(** * Tamper evidence *)

Section Tamper.
Variable parse : string -> option SignedAuditEvent.
(** Decoding a line gives an event that encodes the same. *)
Hypothesis parse_line : forall s line, json_Signed s = Ok line ->
  exists e, parse line = Some {| se_Event := e; Signature := Signature s |} /\ json_Event e = json_Event (se_Event s).
(** No two messages have the same code under a key. *)
Hypothesis hmac_inj : forall key d d', hmac_sha256 key d = hmac_sha256 key d' -> d = d'.

(** The line a signing logger records reads back as an event that verifies under its key, and with
    that signature no event that encodes differently verifies, nor one that has no encoding. *)
Theorem signed_line_tamper_evident key now e l l' :
  SignedLog key now e l = (l', Ok tt) ->
  exists line s, signedLine key (stamp now e) = Ok line /\ parse line = Some s /\ VerifySignedEvent s key = Ok tt /\
    json_Event (se_Event s) = json_Event (stamp now e) /\
    forall e', json_Event e' <> json_Event (stamp now e) ->
      VerifySignedEvent {| se_Event := e'; Signature := Signature s |} key <> Ok tt.
Proof using All.
  unfold SignedLog, signedLine. destruct (signEvent key (stamp now e)) as [s0|] eqn:Hs; [|done].
  unfold Encode. destruct (enc_err l); [done|]. destruct (json_Signed s0) as [line|] eqn:Hl; [|done]. intros _.
  destruct (parse_line s0 line Hl) as (e1 & Hp & He1). exists line, {| se_Event := e1; Signature := Signature s0 |}.
  unfold signEvent in Hs. destruct (json_Event (stamp now e)) as [data|] eqn:Hj; [|done]. injection Hs as <-. cbn in *.
  split; [done|]. split; [done|]. unfold VerifySignedEvent. cbn. rewrite He1, Hj, Hex.Decode_EncodeToString, String.eqb_refl.
  split; [done|]. split; [done|]. intros e' Hne. destruct (json_Event e') as [d'|]; [|done].
  destruct (computeHMAC data key =? computeHMAC d' key)%string eqn:Hh; [|done].
  apply String.eqb_eq, hmac_inj in Hh. congruence.
Qed.
End Tamper.
End Writer.

(** * Concrete logs *)

Definition demo_event (at_ : Time) (action : string) : Event :=
  {| Timestamp := at_;
     event := {| au_Type := "exchange"; au_Action := action; au_Subject := ""; au_Target := ""; au_Decision := "allowed";
                 au_Reason := RText ""; au_Metadata := ∅; au_UnitID := "u1" |} |}.
(** Encodings of the action alone, enough to tell the events here apart *)
Definition demo_json (e : Event) : result string string := Ok (au_Action (event e)).
Definition demo_signed_json (s : SignedAuditEvent) : result string string :=
  Ok (Hex.EncodeToString (Signature s) +:+ String "/" (au_Action (event (se_Event s)))).
Definition demo_hmac (key data : string) : string := key +:+ data.
Definition demo_parse (line : string) : option SignedAuditEvent :=
  match cut_at "/" line with
  | Some (sig, action) => (fun sig => {| se_Event := demo_event 0 action; Signature := sig |}) <$> Hex.DecodeString sig
  | None => None
  end.

Lemma hex_no_slash s : cut_at "/" (Hex.EncodeToString s) = None.
Proof.
  induction s as [|a s IH]; [done|]. cbn [Hex.EncodeToString]. cbn [cut_at]. rewrite IH.
  destruct a as [[] [] [] [] [] [] [] []]; vm_compute; done.
Qed.

Lemma demo_parse_line s line : demo_signed_json s = Ok line ->
  exists e, demo_parse line = Some {| se_Event := e; Signature := Signature s |} /\ demo_json e = demo_json (se_Event s).
Proof.
  intros [= <-]. exists (demo_event 0 (au_Action (event (se_Event s)))). split; [|done].
  unfold demo_parse. by rewrite cut_at_app, Hex.Decode_EncodeToString by apply hex_no_slash.
Qed.

Lemma demo_hmac_inj key d d' : demo_hmac key d = demo_hmac key d' -> d = d'.
Proof. unfold demo_hmac. intros He. by rewrite <- (str_drop_app key d), He, str_drop_app. Qed.

Definition good (n : nat) (p : string) : option (nat * string) := None.
Definition demo_es : list (Time * Event) := [(1%Z, demo_event 0 "a"); (2%Z, demo_event 0 "b")].
Definition demo_run (io : nat -> string -> option (nat * string)) (a : Auditor) :=
  run (auditLog io demo_json demo_signed_json demo_hmac a) demo_es New.

Lemma audit_log_refines_witness :
  out (w (fst (Close good (fst (demo_run good Plain))))) = recorded demo_json demo_es (snd (demo_run good Plain)).
Proof.
  destruct (audit_log_refines good demo_json demo_signed_json demo_hmac Plain demo_es (fst (demo_run good Plain))
    (snd (demo_run good Plain))) as (_ & _ & Hc & _); [vm_compute; reflexivity|].
  apply Hc. vm_compute. reflexivity.
Defined.

Lemma signed_line_tamper_evident_witness :
  exists line, signedLine demo_json demo_signed_json demo_hmac "k" (demo_event 1 "a") = Ok line /\
  exists s, demo_parse line = Some s /\ VerifySignedEvent demo_json demo_hmac s "k" = Ok tt.
Proof.
  destruct (signed_line_tamper_evident good demo_json demo_signed_json demo_hmac demo_parse demo_parse_line demo_hmac_inj
    "k" 1 (demo_event 0 "a") New (fst (SignedLog good demo_json demo_signed_json demo_hmac "k" 1 (demo_event 0 "a") New)))
    as (line & s & Hl & Hp & Hv & _); [vm_compute; reflexivity|].
  exists line. split; [exact Hl|]. exists s. split; [exact Hp|exact Hv].
Defined.

(** The signatures are per event: a log from which a line was removed, or in which two were
    exchanged, verifies line by line as well. *)
Definition verifyLines (key : string) (lines : list string) : bool :=
  forallb (fun l => match demo_parse l with
                    | Some s => is_ok (VerifySignedEvent demo_json demo_hmac s key)
                    | None => false
                    end) lines.
Lemma removed_lines_undetected :
  let line a := match signedLine demo_json demo_signed_json demo_hmac "k" (demo_event 1 a) with Ok l => l | Err _ => "" end in
  verifyLines "k" [line "grant"; line "deny"] = true /\ verifyLines "k" [line "grant"] = true /\
  verifyLines "k" [line "deny"; line "grant"] = true.
Proof. by vm_compute. Qed.

(** A crash loses the events that are still buffered although their calls reported no error; here
    nothing has reached the writer below. *)
Lemma acknowledged_events_lost : snd (demo_run good Plain) = [Ok tt; Ok tt] /\ out (w (fst (demo_run good Plain))) = "".
Proof. by vm_compute. Qed.

(** The buffer is flushed where it is full, not where a line ends: what reaches the writer in one
    piece ends within a line, and other writers of the same output come in between. *)
Definition long_event : Event := demo_event 0 (Nat.iter 3000 (String "x") "").
Lemma chunks_end_within_lines :
  let o := out (w (fst (run (auditLog good demo_json demo_signed_json demo_hmac Plain) [(1%Z, long_event); (2%Z, long_event)] New))) in
  String.length o = bufSize /\ HasSuffix o (String "010" "") = false.
Proof. split; vm_compute; reflexivity. Qed.
End AuditLog.
