(* ===== verification/SyncBus.v ===== *)
(** The signal bus between the units of a fabric ([pkg/sync/nats.go], [subjects.go]): the subjects,
    publication, the loop that consumes a subscription with acknowledgements and redelivery, and
    the replay, with the handlers [cmd/starfly/main.go] puts on them. The NATS server is a
    parameter: which subjects a filter selects is its documented matching of tokens, stated as a
    law; which message is delivered next is left open. *)
From Stdlib Require Import ZArith QArith Lia Ascii.
From stdpp Require Import base gmap strings list relations.
From S2P Require Import Prelude.
From S2P Require Import GoLib.
From S2P Require Import Core.

#[local] Open Scope string_scope.
#[local] Open Scope list_scope.
#[local] Open Scope Z_scope.

Module SyncBus.

Definition subjectPrefix : string := "starfly".
Definition maxAge : Z := 15 * Minute.

(** * Subjects *)

(** The tokens of a subject, and when a filter selects a subject: [*] stands for one token, a last
    [>] for one or more. *)
Definition tokens (subject : string) : list string := Split subject ".".
Fixpoint selects (filter subject : list string) : bool :=
  match filter, subject with
  | [], [] => true
  | [f], _ :: _ :: _ => (f =? ">")%string
  | f :: fs, s :: ss => ((f =? ">")%string && match fs with [] => true | _ => false end
                         || (f =? "*")%string || (f =? s)%string) && selects fs ss
  | _, _ => false
  end.

(** The server *)
Class NatsLib : Type := {
  nats_matches : string -> string -> bool;
  (** The error of a publication, if any, by subject *)
  nats_refuses : string -> option string;
}.
Class NatsLaws `{!NatsLib} : Prop := {
  nats_matches_tokens filter subject : nats_matches filter subject = selects (tokens filter) (tokens subject);
}.

Section Bus.
Context `{!NatsLib}.
Variable json_Signal : Signal -> result string string.
Variable unmarshal_Signal : string -> option Signal.

(** [Bus] *)
Record Bus : Type := {
  unitID : string;
  trustDomain : string;
}.

(** A message of the stream *)
Record Msg : Type := {
  msg_Subject : string;
  msg_Data : string;
}.

(** [signalSubject], [replaySubject] and the subject [Flash] publishes to *)
Definition signalSubject (b : Bus) (signalType : string) : string :=
  let domain := if (trustDomain b =? "")%string then "*" else trustDomain b in
  if (signalType =? ">")%string then subjectPrefix +:+ "." +:+ domain +:+ ".>"
  else subjectPrefix +:+ "." +:+ domain +:+ "." +:+ signalType.
Definition replaySubject (b : Bus) : string :=
  if (trustDomain b =? "")%string then subjectPrefix +:+ ".>" else subjectPrefix +:+ "." +:+ trustDomain b +:+ ".>".
Definition flashSubject (b : Bus) (signalType : string) : string :=
  subjectPrefix +:+ "." +:+ trustDomain b +:+ "." +:+ signalType.

(** [Flash]: the caller's signal, which it changes, and the message, or the error *)
Definition flashed (b : Bus) (now : Time) (s : Signal) : Signal :=
  {| sig_Type := sig_Type s; sig_Source := unitID b;
     sig_Timestamp := if IsZero (sig_Timestamp s) then now else sig_Timestamp s; sig_Payload := sig_Payload s |}.
Definition Flash (b : Bus) (now : Time) (s : Signal) : Signal * result string Msg :=
  let s := flashed b now s in
  (s, match json_Signal s with
      | Err e => Err ("marshaling signal: " +:+ e)
      | Ok data =>
          let subject := flashSubject b (sig_Type s) in
          match nats_refuses subject with
          | Some e => Err ("publishing signal to " +:+ subject +:+ ": " +:+ e)
          | None => Ok {| msg_Subject := subject; msg_Data := data |}
          end
      end).

(** * Consuming a subscription *)

(** A subscription: its filter, the messages it has selected and that are not acknowledged, those
    that are, those the server gave up, and the calls of the handler with their outcomes. *)
Record Sub : Type := {
  filter_ : string;
  pending : list Msg;
  acked : list Msg;
  dropped : list Msg;
  handled : list (Signal * bool);
}.
(** [Subscribe]: only messages published from now on are delivered. *)
Definition Subscribe (b : Bus) (signalType : string) : Sub :=
  {| filter_ := signalSubject b signalType; pending := []; acked := []; dropped := []; handled := [] |}.

(** What [consumeLoop] does with a message: the call of the handler, if any, and whether it
    acknowledges. [handler n] is the outcome of the [n]th call. *)
Definition consume (b : Bus) (handler : nat -> Signal -> bool) (n : nat) (m : Msg) : option (Signal * bool) * bool :=
  match unmarshal_Signal (msg_Data m) with
  | None => (None, false)
  | Some sig =>
      if (sig_Source sig =? unitID b)%string then (None, true)
      else let ok := handler n sig in (Some (sig, ok), ok)
  end.

(** The message at a place of the pending ones is delivered. *)
Definition deliver (b : Bus) (handler : nat -> Signal -> bool) (i : nat) (st : Sub) : Sub :=
  match pending st !! i with
  | None => st
  | Some m =>
      let (call, ack) := consume b handler (length (handled st)) m in
      {| filter_ := filter_ st;
         pending := if ack then delete i (pending st) else pending st;
         acked := if ack then acked st ++ [m] else acked st;
         dropped := dropped st;
         handled := handled st ++ option_list call |}
  end.

(** A message reaches the stream. *)
Definition publish (m : Msg) (st : Sub) : Sub :=
  if nats_matches (filter_ st) (msg_Subject m)
  then {| filter_ := filter_ st; pending := pending st ++ [m]; acked := acked st; dropped := dropped st; handled := handled st |} else st.

(** The server gives up a message that waits: after the stream's [maxAge], or with the whole consumer when nothing
    asked it for messages longer than its inactivity threshold. *)
Definition drop_message (i : nat) (st : Sub) : Sub :=
  match pending st !! i with
  | None => st
  | Some m => {| filter_ := filter_ st; pending := delete i (pending st); acked := acked st;
                 dropped := dropped st ++ [m]; handled := handled st |}
  end.

Inductive step (b : Bus) (handler : nat -> Signal -> bool) : Sub -> Sub -> Prop :=
| step_publish m st : step b handler st (publish m st)
| step_deliver i st : step b handler st (deliver b handler i st)
| step_drop i st : step b handler st (drop_message i st).

(** The messages that ever reached the subscription *)
Definition messages (st : Sub) : list Msg := pending st ++ acked st ++ dropped st.

(** * Replay *)

(** [Replay]: [nexts] are the outcomes of the calls of [Next] on the consumer; the first error ends it. *)
Fixpoint replayLoop (nexts : list (option string)) : list Signal :=
  match nexts with
  | [] | None :: _ => []
  | Some data :: rest => option_list (unmarshal_Signal data) ++ replayLoop rest
  end.
Definition Replay (create : result string unit) (nexts : list (option string)) : result string (list Signal) :=
  match create with Err e => Err ("creating replay consumer: " +:+ e) | Ok _ => Ok (replayLoop nexts) end.

(** * Which subscriptions a signal reaches *)

Lemma tokens_ne x : tokens x <> [].
Proof. unfold tokens. induction x as [|a x IH]; [done|]. cbn. destruct (Ascii.eqb a "."); [done|]. by destruct (Split x "."). Qed.

Lemma tokens_app x y : tokens (x +:+ String "." y) = tokens x ++ tokens y.
Proof.
  unfold tokens. induction x as [|a x IH]; [done|].
  change (String a x +:+ String "." y) with (String a (x +:+ String "." y)). cbn [Split].
  destruct (Ascii.eqb a "."); [by rewrite IH|]. rewrite IH. pose proof (tokens_ne x) as Hne. unfold tokens in Hne.
  by destruct (Split x ".").
Qed.

Lemma selects_refl l : selects l l = true.
Proof.
  induction l as [|f fs IH]; [done|]. destruct fs as [|g fs]; cbn -[String.eqb] in *; rewrite String.eqb_refl, !orb_true_r; done.
Qed.
Lemma selects_app p fs ss : fs <> [] -> ss <> [] -> selects fs ss = true -> selects (p ++ fs) (p ++ ss) = true.
Proof.
  intros Hf Hs Hsel. induction p as [|t p IH]; [done|]. cbn -[String.eqb].
  destruct (p ++ fs) as [|f0 fs0] eqn:Hp; [by apply app_eq_nil in Hp as [_ ?]|].
  destruct (p ++ ss) as [|s0 ss0] eqn:Hq; [by apply app_eq_nil in Hq as [_ ?]|]. by rewrite String.eqb_refl, !orb_true_r, IH.
Qed.
Lemma selects_tail r : r <> [] -> selects [">"] r = true.
Proof. by destruct r as [|x [|y r]]. Qed.

Lemma subject_tokens d t : tokens (subjectPrefix +:+ "." +:+ d +:+ "." +:+ t) = "starfly" :: tokens d ++ tokens t.
Proof.
  change (tokens (subjectPrefix +:+ String "." (d +:+ String "." t)) = "starfly" :: tokens d ++ tokens t).
  by rewrite !tokens_app.
Qed.

Section Laws.
Context `{!NatsLaws}.

Lemma domain_selected d t ty : ty = t \/ ty = ">" ->
  selects ("starfly" :: tokens d ++ tokens ty) ("starfly" :: tokens d ++ tokens t) = true.
Proof.
  intros Hty. change (selects (["starfly"] ++ tokens d ++ tokens ty) (["starfly"] ++ tokens d ++ tokens t) = true).
  rewrite !(assoc_L app). apply selects_app; try apply tokens_ne.
  destruct Hty as [->| ->]; [apply selects_refl|]. apply selects_tail, tokens_ne.
Qed.

Lemma signalSubject_tokens b ty : trustDomain b <> "" ->
  tokens (signalSubject b ty) = "starfly" :: tokens (trustDomain b) ++ tokens ty.
Proof.
  intros Hne. unfold signalSubject. apply String.eqb_neq in Hne. rewrite Hne.
  destruct (String.eqb_spec ty ">") as [->|]; apply subject_tokens.
Qed.

(** A signal reaches the subscriptions of its own trust domain to its type and to all types. *)
Lemma own_domain_selected a b s ty : trustDomain a = trustDomain b -> trustDomain b <> "" ->
  ty = sig_Type s \/ ty = ">" ->
  nats_matches (signalSubject b ty) (flashSubject a (sig_Type s)) = true.
Proof using All.
  intros Hd Hne Hty. unfold flashSubject. rewrite nats_matches_tokens, signalSubject_tokens, subject_tokens, Hd by done.
  by apply domain_selected.
Qed.

(** It also reaches the subscription to all types of a unit whose trust domain is a prefix, token
    by token, of the signal's: units of [example] are told what happens in [example.com]. *)
Lemma longer_domain_selected a b rest s : trustDomain b <> "" -> trustDomain a = trustDomain b +:+ String "." rest ->
  nats_matches (signalSubject b ">") (flashSubject a (sig_Type s)) = true /\
  nats_matches (replaySubject b) (flashSubject a (sig_Type s)) = true.
Proof using All.
  intros Hne Hd. rewrite !nats_matches_tokens. unfold flashSubject.
  assert (Hr : replaySubject b = signalSubject b ">") by (unfold replaySubject, signalSubject; apply String.eqb_neq in Hne; by rewrite Hne).
  rewrite Hr, signalSubject_tokens, subject_tokens, Hd, tokens_app by done.
  assert (Hs : selects ("starfly" :: tokens (trustDomain b) ++ tokens ">")
                 ("starfly" :: (tokens (trustDomain b) ++ tokens rest) ++ tokens (sig_Type s)) = true); [|by rewrite Hs].
  change (selects (["starfly"] ++ tokens (trustDomain b) ++ tokens ">")
            (["starfly"] ++ (tokens (trustDomain b) ++ tokens rest) ++ tokens (sig_Type s)) = true).
  rewrite <- (assoc_L app (tokens (trustDomain b))), !(assoc_L app ["starfly"]).
  assert (Hn : tokens rest ++ tokens (sig_Type s) <> []) by (intros [_ ?]%app_eq_nil; by apply (tokens_ne (sig_Type s))).
  apply selects_app; [apply tokens_ne|done|by apply selects_tail].
Qed.
End Laws.

(** * Nothing is lost and nothing comes back *)

(** The invariant of a subscription *)
Record inv (b : Bus) (st : Sub) : Prop := {
  inv_foreign c : c ∈ handled st -> sig_Source c.1 <> unitID b;
  inv_acked m : m ∈ acked st -> exists sig, unmarshal_Signal (msg_Data m) = Some sig /\
    (sig_Source sig = unitID b \/ (sig, true) ∈ handled st);
  inv_source c : c ∈ handled st -> exists m, m ∈ messages st /\ unmarshal_Signal (msg_Data m) = Some c.1;
  inv_selected m : m ∈ messages st -> nats_matches (filter_ st) (msg_Subject m) = true;
}.

Definition kept (st st' : Sub) : Prop :=
  filter_ st' = filter_ st /\ messages st ⊆ messages st' /\ handled st ⊆ handled st'.

Lemma delete_perm {A} (l : list A) i x : l !! i = Some x -> l ≡ₚ x :: delete i l.
Proof. intros Hi. by rewrite <- (delete_Permutation l i x Hi). Qed.

(** The messages of a subscription stay the same when one is delivered. *)
Lemma deliver_messages b handler i st :
  messages (deliver b handler i st) ≡ₚ messages st.
Proof.
  unfold messages, deliver. destruct (pending st !! i) as [m|] eqn:Hi; [|done].
  destruct (consume b handler (length (handled st)) m) as [call []]; cbn; [|done].
  rewrite (delete_perm _ _ _ Hi) at 2. cbn.
  rewrite (Permutation_app_comm (acked st) [m]). cbn. by rewrite <- Permutation_middle.
Qed.
Lemma drop_messages i st : messages (drop_message i st) ≡ₚ messages st.
Proof.
  unfold messages, drop_message. destruct (pending st !! i) as [m|] eqn:Hi; [|done]. cbn.
  rewrite (delete_perm _ _ _ Hi) at 2. cbn. by rewrite !(assoc_L app), <- Permutation_cons_append.
Qed.
Lemma drop_others i st :
  filter_ (drop_message i st) = filter_ st /\ acked (drop_message i st) = acked st /\ handled (drop_message i st) = handled st.
Proof. unfold drop_message. by destruct (pending st !! i). Qed.

Lemma deliver_inv b handler i st : inv b st -> inv b (deliver b handler i st).
Proof.
  intros [Hf Ha Hs Hsel].
  assert (Hmsg : forall m, m ∈ messages (deliver b handler i st) <-> m ∈ messages st)
    by (intros m; by rewrite deliver_messages).
  assert (Hfl : filter_ (deliver b handler i st) = filter_ st).
  { unfold deliver. destruct (pending st !! i); [|done]. by destruct (consume _ _ _ _). }
  assert (Hnew : forall c, c ∈ handled (deliver b handler i st) -> c ∈ handled st \/
      (sig_Source c.1 <> unitID b /\ exists m, m ∈ pending st /\ unmarshal_Signal (msg_Data m) = Some c.1)).
  { unfold deliver. destruct (pending st !! i) as [m|] eqn:Hi; [|by left]. apply list_elem_of_lookup_2 in Hi.
    unfold consume. destruct (unmarshal_Signal (msg_Data m)) as [sig|] eqn:Hu; cbn; [|rewrite app_nil_r; by left].
    destruct (String.eqb_spec (sig_Source sig) (unitID b)); cbn; [rewrite app_nil_r; by left|].
    intros c [?| ->%list_elem_of_singleton]%elem_of_app; [by left|right]. cbn. eauto. }
  split.
  - intros c [?|[? _]]%Hnew; by auto.
  - intros m. unfold deliver. destruct (pending st !! i) as [m'|] eqn:Hi; [|by auto].
    unfold consume. destruct (unmarshal_Signal (msg_Data m')) as [sig|] eqn:Hu; cbn; [|rewrite app_nil_r; by auto].
    destruct (String.eqb_spec (sig_Source sig) (unitID b)); cbn.
    + rewrite app_nil_r. intros [?| ->%list_elem_of_singleton]%elem_of_app; [by auto|]. exists sig. by auto.
    + assert (Hold : m ∈ acked st -> exists sig0, unmarshal_Signal (msg_Data m) = Some sig0 /\
        (sig_Source sig0 = unitID b \/ (sig0, true) ∈ handled st ++ [(sig, handler (length (handled st)) sig)])).
      { intros (sig0 & ? & [?|?])%Ha; exists sig0; (split; [done|]); [by left|right]. rewrite elem_of_app. by left. }
      destruct (handler (length (handled st)) sig); [|by auto].
      intros [?| ->%list_elem_of_singleton]%elem_of_app; [by auto|]. exists sig. split; [done|]. right.
      rewrite elem_of_app, list_elem_of_singleton. by right.
  - intros c [(m & Hm & Hu)%Hs|[_ (m & Hm & Hu)]]%Hnew; exists m; (split; [|done]); apply Hmsg; [done|].
    unfold messages. rewrite elem_of_app. by left.
  - intros m Hm%Hmsg. rewrite Hfl. by apply Hsel.
Qed.

Lemma publish_inv b m st : inv b st -> inv b (publish m st).
Proof.
  intros [Hf Ha Hs Hsel]. unfold publish. destruct (nats_matches (filter_ st) (msg_Subject m)) eqn:Hm; [|done].
  split; cbn; try done.
  - intros c (m' & Hm' & Hu)%Hs. exists m'. split; [|done]. unfold messages in *. cbn. set_solver.
  - intros m'. unfold messages. cbn. rewrite !elem_of_app, list_elem_of_singleton.
    intros [[?| ->]|?]; [|done|]; apply Hsel; unfold messages; rewrite !elem_of_app; by auto.
Qed.
Lemma drop_inv b i st : inv b st -> inv b (drop_message i st).
Proof.
  intros [Hf Ha Hs Hsel]. destruct (drop_others i st) as (Ef & Ea & Eh). split; rewrite ?Ef, ?Ea, ?Eh; try done.
  - intros c (m & Hm & Hu)%Hs. exists m. by rewrite drop_messages.
  - intros m. rewrite drop_messages. apply Hsel.
Qed.

Lemma steps_inv b handler st st' : rtc (step b handler) st st' -> inv b st -> inv b st'.
Proof.
  induction 1 as [|x y z Hxy _ IH]; [done|]. intros Hx. apply IH. destruct Hxy; [by apply publish_inv|by apply deliver_inv|by apply drop_inv].
Qed.
Lemma subscription_inv b handler ty st : rtc (step b handler) (Subscribe b ty) st -> inv b st.
Proof. intros Hr. eapply steps_inv; [exact Hr|]. split; cbn; intros ? ?%not_elem_of_nil; done. Qed.

Lemma step_kept b handler st st' : step b handler st st' -> kept st st'.
Proof.
  intros [m s|i s|i s]; unfold kept.
  - unfold publish. destruct (nats_matches _ _); cbn; [|done]. split; [done|]. split; [|done].
    intros x. unfold messages. cbn. rewrite !elem_of_app. tauto.
  - split; [|split].
    + unfold deliver. destruct (pending s !! i); [|done]. by destruct (consume _ _ _ _).
    + intros x. by rewrite deliver_messages.
    + unfold deliver. destruct (pending s !! i); [|done]. destruct (consume _ _ _ _). cbn.
      intros x Hx. rewrite elem_of_app. by left.
  - destruct (drop_others i s) as (-> & _ & ->). split; [done|]. split; [|done]. intros x. by rewrite drop_messages.
Qed.
Lemma steps_kept b handler st st' : rtc (step b handler) st st' -> kept st st'.
Proof.
  induction 1 as [|x y z Hxy _ IH]; [done|]. apply step_kept in Hxy. destruct Hxy as (Hf & Hm & Hh), IH as (Hf' & Hm' & Hh').
  split; [congruence|]. split; [by etrans|by etrans].
Qed.

(** ** Redelivery comes to an end *)

(** Delivering the first pending message, as often as there are pending ones *)
Definition drain (b : Bus) (handler : nat -> Signal -> bool) (st : Sub) : Sub :=
  Nat.iter (length (pending st)) (deliver b handler 0) st.

Lemma drain_dropped b handler st : dropped (drain b handler st) = dropped st.
Proof.
  unfold drain. induction (length (pending st)) as [|n IH]; [done|]. rewrite Nat.iter_succ, <- IH. unfold deliver.
  destruct (pending _ !! 0%nat); [|done]. by destruct (consume _ _ _ _).
Qed.

Lemma deliver_settles b handler st m ms :
  (forall n sig, handler n sig = true) -> pending st = m :: ms -> is_Some (unmarshal_Signal (msg_Data m)) ->
  pending (deliver b handler 0 st) = ms.
Proof.
  intros Hh Hp [sig Hu]. unfold deliver, consume. rewrite Hp. cbn. rewrite Hu.
  destruct (sig_Source sig =? unitID b)%string; cbn; by rewrite ?Hh.
Qed.

Lemma drain_settles b handler st :
  (forall n sig, handler n sig = true) -> (forall m, m ∈ pending st -> is_Some (unmarshal_Signal (msg_Data m))) ->
  pending (drain b handler st) = [] /\ rtc (step b handler) st (drain b handler st).
Proof.
  intros Hh. unfold drain. remember (pending st) as ms eqn:Hms. revert st Hms.
  induction ms as [|m ms IH]; intros st Hms Hdec; cbn [length]; [by split|].
  rewrite Nat.iter_succ_r. destruct (IH (deliver b handler 0 st)) as [Hp Hr].
  - symmetry. apply (deliver_settles b handler st m ms); [done|done|]. apply Hdec. by left.
  - intros m' Hm'. apply Hdec. by right.
  - split; [done|]. eapply rtc_l; [apply step_deliver|exact Hr].
Qed.

Section Reach.
Context `{!NatsLaws}.
(** Signals survive their encoding. *)
Hypothesis signal_roundtrip : forall s data, json_Signal s = Ok data -> unmarshal_Signal data = Some s.

(** A signal one unit flashes reaches the others of its trust domain or is given up by the server. Once it is
    published, and whatever is published, delivered, redelivered and dropped in between, a subscription of another
    unit to its type or to all types has it pending, has handled it with success, as the flashing unit's own and
    with the time it was stamped with, or the server has dropped it; it is never the unit's own signals that are handled;
    and when the handler comes to accept and the pending messages decode, delivering what is pending leaves nothing
    pending and the signal handled, unless it had been dropped. *)
Lemma flash_reaches_subscribers a b handler now s s' m ty st st' :
  trustDomain a = trustDomain b -> trustDomain b <> "" -> unitID a <> unitID b -> (ty = sig_Type s \/ ty = ">") ->
  Flash a now s = (s', Ok m) ->
  rtc (step b handler) (Subscribe b ty) st -> rtc (step b handler) (publish m st) st' ->
  sig_Source s' = unitID a /\ sig_Payload s' = sig_Payload s /\
  (m ∈ pending st' \/ (s', true) ∈ handled st' \/ m ∈ dropped st') /\
  (forall c, c ∈ handled st' -> sig_Source c.1 <> unitID b) /\
  ((forall m', m' ∈ pending st' -> is_Some (unmarshal_Signal (msg_Data m'))) ->
   forall h, (forall n sig, h n sig = true) ->
     pending (drain b h st') = [] /\ ((s', true) ∈ handled (drain b h st') \/ m ∈ dropped st')).
Proof using All.
  intros Hd Hne Hu Hty Hfl Hr1 Hr2. unfold Flash in Hfl. destruct (json_Signal (flashed a now s)) as [data|] eqn:Hj; [|done].
  destruct (nats_refuses _); [done|]. injection Hfl as <- <-. set (m := {| msg_Subject := _; msg_Data := data |}) in *.
  assert (Hmatch : nats_matches (filter_ st) (msg_Subject m) = true).
  { destruct (steps_kept _ _ _ _ Hr1) as (-> & _). by apply own_domain_selected. }
  assert (Hin : m ∈ messages st').
  { destruct (steps_kept _ _ _ _ Hr2) as (_ & Hsub & _). apply Hsub. unfold publish. rewrite Hmatch. unfold messages. cbn.
    rewrite !elem_of_app, list_elem_of_singleton. by auto. }
  assert (Hinv : inv b st').
  { eapply subscription_inv. etrans; [exact Hr1|]. eapply rtc_l; [apply step_publish|exact Hr2]. }
  assert (Hacked : forall st1, inv b st1 -> m ∈ acked st1 -> (flashed a now s, true) ∈ handled st1).
  { intros st1 Hi1 (sig & Hsig & Hor)%(inv_acked _ _ Hi1). cbn in Hsig. rewrite (signal_roundtrip _ _ Hj) in Hsig.
    injection Hsig as <-. destruct Hor as [Hor|Hor]; [by cbn in Hor|done]. }
  split; [done|]. split; [done|]. split; [|split; [apply Hinv|]].
  - unfold messages in Hin. rewrite !elem_of_app in Hin. destruct Hin as [?|[?|?]]; [by left|right; left; by apply Hacked|by auto].
  - intros Hdec h Hh. destruct (drain_settles b h st' Hh Hdec) as [Hp Hr3]. split; [done|].
    destruct (steps_kept _ _ _ _ Hr3) as (_ & Hsub & _). apply Hsub in Hin. unfold messages in Hin.
    rewrite Hp, drain_dropped, !elem_of_app in Hin. destruct Hin as [[]%not_elem_of_nil|[Hin|Hin]]; [left|by right].
    apply Hacked; [|done]. by eapply steps_inv.
Qed.
End Reach.

(** A message that does not decode is never acknowledged: it is delivered again and again, until
    the server drops it. *)
Lemma malformed_never_settles b handler st st' m :
  unmarshal_Signal (msg_Data m) = None -> m ∈ pending st -> inv b st -> rtc (step b handler) st st' -> m ∈ pending st' \/ m ∈ dropped st'.
Proof.
  intros Hu Hm Hi Hr. destruct (steps_kept _ _ _ _ Hr) as (_ & Hsub & _).
  assert (Hin : m ∈ messages st') by (apply Hsub; unfold messages; rewrite elem_of_app; by left).
  assert (Hi' : inv b st') by (by eapply steps_inv).
  unfold messages in Hin. rewrite !elem_of_app in Hin. destruct Hin as [?|[(sig & Hs & _)%(inv_acked _ _ Hi')|?]]; [by left|congruence|by right].
Qed.

(** What a replay returns, when the server delivers the messages [datas] and then times out: the
    signals among them, in order, the unit's own too. *)
Lemma Replay_all datas rest :
  Replay (Ok tt) ((Some <$> datas) ++ None :: rest) = Ok (omap unmarshal_Signal datas).
Proof.
  unfold Replay. f_equal. induction datas as [|d ds IH]; [done|]. cbn. rewrite IH. by destruct (unmarshal_Signal d).
Qed.

(** Any error of the consumer counts as the end of the stream: a replay that is cut off returns
    what it has so far, and no error. *)
Lemma Replay_cut_off datas more rest :
  Replay (Ok tt) ((Some <$> datas) ++ None :: (Some <$> more) ++ None :: rest) = Replay (Ok tt) ((Some <$> datas) ++ [None]).
Proof. by rewrite !Replay_all. Qed.
End Bus.

(** * Concrete units *)

Definition demo_nats : NatsLib :=
  {| nats_matches := fun f s => selects (tokens f) (tokens s);
     nats_refuses := fun s => if existsb (String.eqb "") (tokens s) then Some "invalid subject" else None |}.
#[local] Existing Instance demo_nats.
#[local] Instance demo_nats_laws : NatsLaws.
Proof. by split. Qed.

Definition unit_ (id td : string) : Bus := {| unitID := id; trustDomain := td |}.
Definition demo_signal : Signal := {| sig_Type := "identity.revoked"; sig_Source := ""; sig_Timestamp := 0; sig_Payload := ∅ |}.
(** One signal, and its encoding *)
Definition demo_flashed : Signal := flashed (unit_ "u1" "acme.com") 7 demo_signal.
#[local] Instance demo_signal_dec (s : Signal) : Decision (s = demo_flashed).
Proof.
  destruct (decide (sig_Type s = sig_Type demo_flashed /\ sig_Source s = sig_Source demo_flashed /\
    sig_Timestamp s = sig_Timestamp demo_flashed)) as [(Ht & Hs & Hts)|]; [|right; intros ->; tauto].
  destruct (map_to_list (sig_Payload s)) eqn:Hp; [|right; intros ->; by cbn in Hp].
  left. apply map_to_list_empty_iff in Hp. destruct s; cbn in *. by subst.
Defined.
Definition demo_json (s : Signal) : result string string := if decide (s = demo_flashed) then Ok "revoked" else Err "unsupported".
Definition demo_unmarshal (d : string) : option Signal := if (d =? "revoked")%string then Some demo_flashed else None.
Lemma demo_signal_roundtrip s data : demo_json s = Ok data -> demo_unmarshal data = Some s.
Proof. unfold demo_json. destruct (decide (s = demo_flashed)) as [->|]; [|done]. by intros [= <-]. Qed.

Definition demo_msg : Msg := {| msg_Subject := "starfly.acme.com.identity.revoked"; msg_Data := "revoked" |}.
Definition demo_sub : Sub := Subscribe (unit_ "u2" "acme.com") ">".
(** A handler that fails the first time *)
Definition demo_handler (n : nat) (s : Signal) : bool := negb (n =? 0)%nat.

Lemma flash_reaches_subscribers_witness :
  let st' := deliver demo_unmarshal (unit_ "u2" "acme.com") demo_handler 0 (publish demo_msg demo_sub) in
  handled st' = [(demo_flashed, false)] /\
  (demo_flashed, true) ∈ handled (drain demo_unmarshal (unit_ "u2" "acme.com") (fun _ _ => true) st').
Proof.
  split; [reflexivity|].
  destruct (flash_reaches_subscribers demo_json demo_unmarshal demo_signal_roundtrip (unit_ "u1" "acme.com") (unit_ "u2" "acme.com")
    demo_handler 7 demo_signal demo_flashed demo_msg ">" demo_sub
    (deliver demo_unmarshal (unit_ "u2" "acme.com") demo_handler 0 (publish demo_msg demo_sub)))
    as (_ & _ & _ & _ & Hd); [reflexivity|discriminate|discriminate|by right|reflexivity|apply rtc_refl| |].
  - eapply rtc_l; [apply step_deliver|apply rtc_refl].
  - destruct (Hd ltac:(intros m' ->%list_elem_of_singleton; by eexists) (fun _ _ => true) ltac:(reflexivity)) as [_ [Hh|Hh]];
      [exact Hh|]. by apply not_elem_of_nil in Hh.
Defined.

(** Without a trust domain a unit subscribes with a wildcard for one token, which no domain of more
    tokens is, and its own publications name an empty token, which the server refuses. *)
Lemma empty_domain_is_deaf :
  nats_matches (signalSubject (unit_ "u2" "") "identity.minted") (flashSubject (unit_ "u1" "prod.acme.com") "identity.minted") = false /\
  is_ok (snd (Flash (fun _ => Ok "x") (unit_ "u2" "") 7 demo_signal)) = false.
Proof. split; vm_compute; reflexivity. Qed.
End SyncBus.
