(* ===== verification/TfFabric.v ===== *)
(** The Terraform provider's fabric resource ([terraform-provider/internal/provider]): the model of
    the configuration and its conversion to and from the custom resource ([fabric_models.go]), the
    calls of the Kubernetes API ([fabric_kube.go]) and the operations of the resource
    ([fabric_resource.go]). The dynamic client and the converter of
    the Kubernetes libraries are an interface without laws; the hash of a spec
    ([spec_hash.go]) and the format of a time are parameters. *)
From Stdlib Require Import ZArith QArith Lia.
From stdpp Require Import base gmap strings list.
From S2P Require Import Prelude.
From S2P Require Import GoLib.
From S2P Require Import OperatorCtl.

#[local] Open Scope string_scope.
#[local] Open Scope list_scope.
#[local] Open Scope Z_scope.

Module TfFabric.
Import OperatorCtl.

(** * Values of a configuration *)

(** A value of the plugin framework: absent, not known yet, or known. *)
Inductive tf (A : Type) : Type := Null | Unknown | Value (a : A).
Arguments Null {A}.
Arguments Unknown {A}.
Arguments Value {A} a.

(** [IsNull() || IsUnknown()] *)
Definition known {A} (v : tf A) : option A := match v with Value a => Some a | _ => None end.
Definition ValueString (v : tf string) : string := default "" (known v).
Definition boolOrDefault (v : tf bool) (def : bool) : bool := default def (known v).
Definition stringListFromTypes (v : tf (list string)) : list string := default [] (known v).
Definition stringMapFromTypes (v : tf (gmap string string)) : gmap string string := default ∅ (known v).
Definition stringMapToTypes (m : gmap string string) : tf (gmap string string) :=
  if (size m =? 0)%nat then Null else Value m.
(** [types.ListValueFrom] of the elements, and null for no elements *)
Definition listToTypes {A} (l : list A) : tf (list A) := match l with [] => Null | _ => Value l end.

(** * The model *)

Record trustDomainModel : Type := {
  td_name : tf string; td_type : tf string; td_issuer : tf string; td_jwks_uri : tf string; td_enabled : tf bool;
}.
Record signingKeyModel : Type := {
  sk_kid : tf string; sk_algorithm : tf string; sk_kms_key_id : tf string; sk_rotation_policy : tf string; sk_status : tf string;
}.
Record ssfStreamModel : Type := { st_id : tf string; st_transmitter : tf string; st_events : tf (list string) }.
Record anchorModel : Type := { am_type : tf string; am_bucket : tf string; am_prefix : tf string; am_path : tf string }.
Record policyModel : Type := { pm_bundle_path : tf string }.
Record federationPeerModel : Type := {
  fp_fabric_id : tf string; fp_jwks_endpoint : tf string; fp_mtls_secret : tf string; fp_refresh_interval : tf string;
  fp_staleness_threshold : tf string;
}.
Record federationModel : Type := { fm_peers : tf (list federationPeerModel) }.
Record Timeouts : Type := { to_Create : option Z; to_Update : option Z }.

Record fabricModel : Type := {
  ID : tf string;
  Name : tf string;
  Namespace : tf string;
  Labels : tf (gmap string string);
  Annotations : tf (gmap string string);
  TrustDomains : tf (list trustDomainModel);
  SigningKeys : tf (list signingKeyModel);
  SSFStreams : tf (list ssfStreamModel);
  Anchor : tf anchorModel;
  Policy : tf policyModel;
  Federation : tf federationModel;
  SpecHash : tf string;
  m_Phase : tf string;
  m_SoulSequence : tf Z;
  m_TrustDomainsActive : tf Z;
  m_SigningKeysActive : tf Z;
  m_SSFStreamsActive : tf Z;
  m_LastConvergence : tf string;
  WaitForConverged : tf bool;
  TimeoutsOf : Timeouts;
}.

(** The custom resource with its metadata *)
Record Fabric : Type := {
  fb_Namespace : string;
  fb_Name : string;
  fb_Labels : gmap string string;
  fb_Annotations : gmap string string;
  fb_ResourceVersion : string;
  fb_Spec : StarlightFabricSpec;
  fb_Status : StarlightFabricStatus;
}.

(** [Clients.NamespaceOrDefault] *)
Definition NamespaceOrDefault (clientNamespace ns : string) : string := if (ns =? "")%string then clientNamespace else ns.

(** * From the model *)

Definition trustDomainFrom (m : trustDomainModel) : CRDomain :=
  {| cr_Name := ValueString (td_name m); cr_Type := ValueString (td_type m); cr_Issuer := ValueString (td_issuer m);
     cr_JWKSURI := ValueString (td_jwks_uri m); cr_Enabled := boolOrDefault (td_enabled m) true |}.
Definition trustDomainsFromList (l : tf (list trustDomainModel)) : list CRDomain := trustDomainFrom <$> default [] (known l).

Definition signingKeyFrom (m : signingKeyModel) : CRKey :=
  {| ck_KID := ValueString (sk_kid m); ck_Algorithm := ValueString (sk_algorithm m); ck_KMSKeyID := ValueString (sk_kms_key_id m);
     ck_RotationPolicy := ValueString (sk_rotation_policy m); ck_Status := ValueString (sk_status m) |}.
Definition signingKeysFromList (l : tf (list signingKeyModel)) : list CRKey := signingKeyFrom <$> default [] (known l).

Definition ssfStreamFrom (m : ssfStreamModel) : CRStream :=
  {| cs_StreamID := ValueString (st_id m); cs_Transmitter := ValueString (st_transmitter m);
     cs_EventsRequested := stringListFromTypes (st_events m) |}.
Definition ssfStreamsFromList (l : tf (list ssfStreamModel)) : list CRStream := ssfStreamFrom <$> default [] (known l).

Definition anchorFromObject (o : tf anchorModel) : option AnchorSpec :=
  (fun m => {| an_Type := ValueString (am_type m); an_Bucket := ValueString (am_bucket m);
               an_Prefix := ValueString (am_prefix m); an_Path := ValueString (am_path m) |}) <$> known o.
Definition policyFromObject (o : tf policyModel) : option string := (fun m => ValueString (pm_bundle_path m)) <$> known o.

Definition federationPeerFrom (m : federationPeerModel) : CRPeer :=
  {| cp_FabricID := ValueString (fp_fabric_id m); cp_JWKSEndpoint := ValueString (fp_jwks_endpoint m);
     cp_MTLSSecret := ValueString (fp_mtls_secret m); cp_RefreshInterval := ValueString (fp_refresh_interval m);
     cp_StalenessThreshold := ValueString (fp_staleness_threshold m) |}.
Definition federationPeersFromList (l : tf (list federationPeerModel)) : list CRPeer := federationPeerFrom <$> default [] (known l).
Definition federationFromObject (o : tf federationModel) : option (list CRPeer) :=
  (fun m => federationPeersFromList (fm_peers m)) <$> known o.

Definition noStatus : StarlightFabricStatus :=
  {| Phase := ""; SoulSequence := 0; TrustDomainsActive := 0; SigningKeysActive := 0; SSFStreamsActive := 0;
     LastConvergence := None; FederationPeersHealthy := 0; FederationPeersTotal := 0; Conditions := [] |}.

(** [toStarlightFabric] *)
Definition toStarlightFabric (clientNamespace : string) (m : fabricModel) : Fabric :=
  {| fb_Namespace := NamespaceOrDefault clientNamespace (ValueString (Namespace m));
     fb_Name := ValueString (Name m);
     fb_Labels := stringMapFromTypes (Labels m);
     fb_Annotations := stringMapFromTypes (Annotations m);
     fb_ResourceVersion := "";
     fb_Spec := {| sp_TrustDomains := trustDomainsFromList (TrustDomains m); sp_SigningKeys := signingKeysFromList (SigningKeys m);
                   sp_SSFStreams := ssfStreamsFromList (SSFStreams m); sp_Anchor := anchorFromObject (Anchor m);
                   sp_Policy := policyFromObject (Policy m); sp_Federation := federationFromObject (Federation m) |};
     fb_Status := noStatus |}.

(** [waitForConverged] of the model *)
Definition modelWaits (m : fabricModel) : bool := boolOrDefault (WaitForConverged m) true.

(** * To the model *)

Definition trustDomainTo (d : CRDomain) : trustDomainModel :=
  {| td_name := Value (cr_Name d); td_type := Value (cr_Type d); td_issuer := Value (cr_Issuer d);
     td_jwks_uri := Value (cr_JWKSURI d); td_enabled := Value (cr_Enabled d) |}.
Definition trustDomainsToList (l : list CRDomain) : tf (list trustDomainModel) := listToTypes (trustDomainTo <$> l).
Definition signingKeyTo (k : CRKey) : signingKeyModel :=
  {| sk_kid := Value (ck_KID k); sk_algorithm := Value (ck_Algorithm k); sk_kms_key_id := Value (ck_KMSKeyID k);
     sk_rotation_policy := Value (ck_RotationPolicy k); sk_status := Value (ck_Status k) |}.
Definition signingKeysToList (l : list CRKey) : tf (list signingKeyModel) := listToTypes (signingKeyTo <$> l).
(** The events of a stream: a null list for a nil slice *)
Definition ssfStreamTo (s : CRStream) : ssfStreamModel :=
  {| st_id := Value (cs_StreamID s); st_transmitter := Value (cs_Transmitter s); st_events := listToTypes (cs_EventsRequested s) |}.
Definition ssfStreamsToList (l : list CRStream) : tf (list ssfStreamModel) := listToTypes (ssfStreamTo <$> l).
Definition anchorToObject (a : option AnchorSpec) : tf anchorModel :=
  match a with
  | None => Null
  | Some a => Value {| am_type := Value (an_Type a); am_bucket := Value (an_Bucket a); am_prefix := Value (an_Prefix a);
                       am_path := Value (an_Path a) |}
  end.
Definition policyToObject (p : option string) : tf policyModel :=
  match p with None => Null | Some b => Value {| pm_bundle_path := Value b |} end.
Definition federationPeerTo (p : CRPeer) : federationPeerModel :=
  {| fp_fabric_id := Value (cp_FabricID p); fp_jwks_endpoint := Value (cp_JWKSEndpoint p); fp_mtls_secret := Value (cp_MTLSSecret p);
     fp_refresh_interval := Value (cp_RefreshInterval p); fp_staleness_threshold := Value (cp_StalenessThreshold p) |}.
Definition federationPeersToList (l : list CRPeer) : tf (list federationPeerModel) := listToTypes (federationPeerTo <$> l).
Definition federationToObject (f : option (list CRPeer)) : tf federationModel :=
  match f with None => Null | Some ps => Value {| fm_peers := federationPeersToList ps |} end.

(** * The Kubernetes API *)

Inductive KubeErr : Type := NotFound | KubeFailed (err : string).

(** The dynamic client on the resources of a cluster [C], the converter between resources and unstructured objects
    (which also sets the kind), and time passing on the cluster for the interval between two polls. Nothing is assumed of
    them: the server may default, change, reject and finalize as it likes. *)
Class Dynamic (C : Type) : Type := {
  Unstructured : Type;
  ToUnstructured : Fabric -> result string Unstructured;
  FromUnstructured : Unstructured -> result string Fabric;
  dyn_Create : string -> Unstructured -> C -> C * result KubeErr unit;
  dyn_Get : string -> string -> C -> result KubeErr Unstructured;
  dyn_Update : string -> Unstructured -> C -> C * result KubeErr unit;
  dyn_Delete : string -> string -> C -> C * result KubeErr unit;
  pass : C -> C;
}.

Section Kube.
Context {C : Type} `{!Dynamic C}.

(** [fabricToUnstructured] and [unstructuredToFabric] *)
Definition fabricToUnstructured (f : Fabric) : result KubeErr Unstructured :=
  match ToUnstructured f with Err e => Err (KubeFailed ("convert fabric to unstructured: " +:+ e)) | Ok u => Ok u end.
Definition unstructuredToFabric (u : Unstructured) : result KubeErr Fabric :=
  match FromUnstructured u with Err e => Err (KubeFailed ("convert unstructured to fabric: " +:+ e)) | Ok f => Ok f end.

(** [createFabric], [getFabric], [updateFabric] and [deleteFabric] *)
Definition createFabric (f : Fabric) (c : C) : C * result KubeErr unit :=
  match fabricToUnstructured f with Err e => (c, Err e) | Ok u => dyn_Create (fb_Namespace f) u c end.
Definition getFabric (namespace name : string) (c : C) : result KubeErr Fabric :=
  match dyn_Get namespace name c with Err e => Err e | Ok u => unstructuredToFabric u end.
Definition updateFabric (f : Fabric) (c : C) : C * result KubeErr unit :=
  match fabricToUnstructured f with Err e => (c, Err e) | Ok u => dyn_Update (fb_Namespace f) u c end.
Definition deleteFabric (namespace name : string) (c : C) : C * result KubeErr unit := dyn_Delete namespace name c.
End Kube.

Section Resource.
Variable hashStarlightFabricSpec : StarlightFabricSpec -> result string string.
Variable formatTime : Time -> string.

(** [fabricModelFromCRD], with the fields its callers carry over from the plan or the old state *)
Definition fabricModelFromCRD (f : Fabric) (defaultNamespace : string) (carried : fabricModel) : result string fabricModel :=
  match hashStarlightFabricSpec (fb_Spec f) with
  | Err e => Err ("Compute spec_hash: " +:+ e)
  | Ok specHash =>
      Ok {| ID := Value (fb_Namespace f +:+ "/" +:+ fb_Name f);
            Name := Value (fb_Name f);
            Namespace := Value (if (fb_Namespace f =? "")%string then defaultNamespace else fb_Namespace f);
            Labels := stringMapToTypes (fb_Labels f);
            Annotations := stringMapToTypes (fb_Annotations f);
            TrustDomains := trustDomainsToList (sp_TrustDomains (fb_Spec f));
            SigningKeys := signingKeysToList (sp_SigningKeys (fb_Spec f));
            SSFStreams := ssfStreamsToList (sp_SSFStreams (fb_Spec f));
            Anchor := anchorToObject (sp_Anchor (fb_Spec f));
            Policy := policyToObject (sp_Policy (fb_Spec f));
            Federation := federationToObject (sp_Federation (fb_Spec f));
            SpecHash := Value specHash;
            m_Phase := Value (Phase (fb_Status f));
            m_SoulSequence := Value (SoulSequence (fb_Status f));
            m_TrustDomainsActive := Value (Z.of_nat (TrustDomainsActive (fb_Status f)));
            m_SigningKeysActive := Value (Z.of_nat (SigningKeysActive (fb_Status f)));
            m_SSFStreamsActive := Value (Z.of_nat (SSFStreamsActive (fb_Status f)));
            m_LastConvergence := match LastConvergence (fb_Status f) with Some t => Value (formatTime t) | None => Null end;
            WaitForConverged := WaitForConverged carried;
            TimeoutsOf := TimeoutsOf carried |}
  end.

(** * The operations of the resource *)

Inductive Diag : Type :=
| DiagKube (summary : string) (err : KubeErr)
| DiagWait (err : option KubeErr)
| DiagModel (err : string).

(** Waiting: a poll at once and then every two seconds until the time is out, whichever operation
    waits with the timeout of a creation *)
Definition defaultFabricTimeout : Z := 5 * Minute.
Definition polls (t : Timeouts) : nat :=
  S (Z.to_nat ((default defaultFabricTimeout (to_Create t) - 1) / (2 * Second))).
Section Ops.
Context {C : Type} `{!Dynamic C}.
Variable clientNamespace : string.

Fixpoint pollConverged (n : nat) (ns name : string) (c : C) : C * result Diag unit :=
  match n with
  | O => (c, Err (DiagWait None))
  | S n =>
      match getFabric ns name c with
      | Err e => (c, Err (DiagWait (Some e)))
      | Ok f => if (Phase (fb_Status f) =? PhaseConverged)%string then (c, Ok tt) else pollConverged n ns name (pass c)
      end
  end.
(** [waitForConverged] of the resource *)
Definition waitForConverged (ns name : string) (t : Timeouts) (c : C) : C * result Diag unit := pollConverged (polls t) ns name c.

(** The end of a creation or an update: waiting, reading back and the new state *)
Definition settle (step : string) (ns name : string) (plan : fabricModel) (c : C) : C * result Diag fabricModel :=
  let (c, waited) := if modelWaits plan then waitForConverged ns name (TimeoutsOf plan) c else (c, Ok tt) in
  (c, let? _ := waited in
      match getFabric ns name c with
      | Err e => Err (DiagKube step e)
      | Ok f => match fabricModelFromCRD f clientNamespace plan with Err e => Err (DiagModel e) | Ok st => Ok st end
      end).

(** [Create] *)
Definition Create (plan : fabricModel) (c : C) : C * result Diag fabricModel :=
  let f := toStarlightFabric clientNamespace plan in
  match createFabric f c with
  | (c, Err e) => (c, Err (DiagKube "Create StarlightFabric" e))
  | (c, Ok _) => settle "Read StarlightFabric after create" (fb_Namespace f) (fb_Name f) plan c
  end.

(** [Read]: no state is the removal of the resource. *)
Definition Read (state : fabricModel) (c : C) : result Diag (option fabricModel) :=
  match getFabric (NamespaceOrDefault clientNamespace (ValueString (Namespace state))) (ValueString (Name state)) c with
  | Err NotFound => Ok None
  | Err e => Err (DiagKube "Read StarlightFabric" e)
  | Ok f => match fabricModelFromCRD f clientNamespace state with Err e => Err (DiagModel e) | Ok st => Ok (Some st) end
  end.

Definition with_version (v : string) (f : Fabric) : Fabric :=
  {| fb_Namespace := fb_Namespace f; fb_Name := fb_Name f; fb_Labels := fb_Labels f; fb_Annotations := fb_Annotations f;
     fb_ResourceVersion := v; fb_Spec := fb_Spec f; fb_Status := fb_Status f |}.

(** [Update] *)
Definition Update (plan : fabricModel) (c : C) : C * result Diag fabricModel :=
  let ns := NamespaceOrDefault clientNamespace (ValueString (Namespace plan)) in
  match getFabric ns (ValueString (Name plan)) c with
  | Err e => (c, Err (DiagKube "Read StarlightFabric for update" e))
  | Ok existing =>
      let updated := with_version (fb_ResourceVersion existing) (toStarlightFabric clientNamespace plan) in
      match updateFabric updated c with
      | (c, Err e) => (c, Err (DiagKube "Update StarlightFabric" e))
      | (c, Ok _) => settle "Read StarlightFabric after update" (fb_Namespace updated) (fb_Name updated) plan c
      end
  end.

(** [Delete] *)
Definition Delete (state : fabricModel) (c : C) : C * option Diag :=
  match deleteFabric (NamespaceOrDefault clientNamespace (ValueString (Namespace state))) (ValueString (Name state)) c with
  | (c, Ok _) | (c, Err NotFound) => (c, None)
  | (c, Err e) => (c, Some (DiagKube "Delete StarlightFabric" e))
  end.
End Ops.

(** * From the resource to the model and back *)

Lemma listToTypes_known {A} (l : list A) : default [] (known (listToTypes l)) = l.
Proof. by destruct l. Qed.
Lemma stringMap_known m : stringMapFromTypes (stringMapToTypes m) = m.
Proof.
  unfold stringMapToTypes, stringMapFromTypes. destruct (Nat.eqb_spec (size m) 0) as [Hz|]; [|done]. cbn.
  by apply map_size_empty_iff in Hz.
Qed.
Lemma fmap_inverse {A B} (f : A -> B) (g : B -> A) (l : list A) : (forall x, g (f x) = x) -> g <$> (f <$> l) = l.
Proof. intros Hg. induction l as [|x l IH]; [done|]. cbn. by rewrite Hg, IH. Qed.

Lemma spec_roundtrip f ns carried m : fabricModelFromCRD f ns carried = Ok m ->
  fb_Spec (toStarlightFabric ns m) = fb_Spec f /\ fb_Labels (toStarlightFabric ns m) = fb_Labels f /\
  fb_Annotations (toStarlightFabric ns m) = fb_Annotations f /\ fb_Name (toStarlightFabric ns m) = fb_Name f /\
  fb_Namespace (toStarlightFabric ns m) = NamespaceOrDefault ns (fb_Namespace f).
Proof.
  unfold fabricModelFromCRD. destruct (hashStarlightFabricSpec (fb_Spec f)); [|done]. intros [= <-]. cbn.
  rewrite !stringMap_known.
  unfold trustDomainsFromList, trustDomainsToList, signingKeysFromList, signingKeysToList, ssfStreamsFromList, ssfStreamsToList.
  rewrite !listToTypes_known. rewrite !fmap_inverse.
  - split_and!; try done.
    + destruct (fb_Spec f) as [tds sks sss an po fe]. cbn. f_equal; [by destruct an as [[]|]|by destruct po|].
      destruct fe as [ps|]; [|done]. cbn. unfold federationPeersFromList, federationPeersToList.
      rewrite listToTypes_known, fmap_inverse by (by intros []). done.
    + unfold NamespaceOrDefault. cbn. destruct (fb_Namespace f =? "")%string eqn:Hn; [by destruct (ns =? "")%string|by rewrite Hn].
  - intros [id tr ev]. unfold ssfStreamTo, ssfStreamFrom, stringListFromTypes. cbn. by rewrite listToTypes_known.
  - by intros [].
  - by intros [].
Qed.

(** * What the state is *)
Section Applied.
Context {C : Type} `{!Dynamic C}.
Variable clientNamespace : string.

Abbreviation target m := (toStarlightFabric clientNamespace m).

(** A state that describes a resource: taken as a plan it asks for this resource, and what it reports besides is the
    resource's status and the hash of its spec. *)
Record describes (st : fabricModel) (g : Fabric) : Prop := {
  ds_spec : fb_Spec (target st) = fb_Spec g;
  ds_labels : fb_Labels (target st) = fb_Labels g;
  ds_annotations : fb_Annotations (target st) = fb_Annotations g;
  ds_name : fb_Name (target st) = fb_Name g;
  ds_namespace : fb_Namespace (target st) = if (fb_Namespace g =? "")%string then clientNamespace else fb_Namespace g;
  ds_id : ID st = Value (fb_Namespace g +:+ "/" +:+ fb_Name g);
  ds_hash : exists h, hashStarlightFabricSpec (fb_Spec g) = Ok h /\ SpecHash st = Value h;
  ds_phase : m_Phase st = Value (Phase (fb_Status g));
  ds_sequence : m_SoulSequence st = Value (SoulSequence (fb_Status g));
  ds_active : m_TrustDomainsActive st = Value (Z.of_nat (TrustDomainsActive (fb_Status g))) /\
    m_SigningKeysActive st = Value (Z.of_nat (SigningKeysActive (fb_Status g))) /\
    m_SSFStreamsActive st = Value (Z.of_nat (SSFStreamsActive (fb_Status g)));
  ds_convergence : m_LastConvergence st = match LastConvergence (fb_Status g) with Some t => Value (formatTime t) | None => Null end;
}.

Lemma model_describes g carried st : fabricModelFromCRD g clientNamespace carried = Ok st -> describes st g.
Proof.
  intros Hm. destruct (spec_roundtrip _ _ _ _ Hm) as (Hsp & Hl & Ha & Hn & Hns). split; try done;
    unfold fabricModelFromCRD in Hm; destruct (hashStarlightFabricSpec (fb_Spec g)) as [h|]; try done; injection Hm as <-; try done.
  by exists h.
Qed.

Lemma pollConverged_ok n ns name c c' : pollConverged n ns name c = (c', Ok tt) ->
  exists f, getFabric ns name c' = Ok f /\ Phase (fb_Status f) = PhaseConverged.
Proof.
  revert c. induction n as [|n IH]; intros c; cbn; [done|]. destruct (getFabric ns name c) as [f|] eqn:Hg; [|done].
  destruct (String.eqb_spec (Phase (fb_Status f)) PhaseConverged); [|apply IH]. intros [= <-]. eauto.
Qed.

Lemma settle_ok step ns name plan c c' st :
  settle clientNamespace step ns name plan c = (c', Ok st) ->
  exists g, getFabric ns name c' = Ok g /\ describes st g /\ (modelWaits plan = true -> Phase (fb_Status g) = PhaseConverged).
Proof.
  unfold settle. intros Hs.
  assert (Hw : exists g, getFabric ns name c' = Ok g /\ fabricModelFromCRD g clientNamespace plan = Ok st /\
    (modelWaits plan = true -> Phase (fb_Status g) = PhaseConverged)).
  { destruct (modelWaits plan).
    - unfold waitForConverged in Hs. destruct (pollConverged _ _ _ c) as [c1 r] eqn:Hpoll. injection Hs as <- Hs.
      apply rbind_ok in Hs as ([] & -> & Hs). apply pollConverged_ok in Hpoll as (g & Hg & Hph). exists g. rewrite Hg in Hs.
      destruct (fabricModelFromCRD _ _ _); [|done]. by injection Hs as ->.
    - injection Hs as <- Hs. cbn in Hs. destruct (getFabric ns name c) as [g|] eqn:Hg; [|done].
      exists g. destruct (fabricModelFromCRD _ _ _); [|done]. by injection Hs as ->. }
  destruct Hw as (g & Hg & Hm & Hph). exists g. split; [done|]. split; [by eapply model_describes|done].
Qed.

(** What a request to the API server was made with *)
Definition created (plan : fabricModel) (c c1 : C) : Prop :=
  exists u, ToUnstructured (target plan) = Ok u /\ dyn_Create (fb_Namespace (target plan)) u c = (c1, Ok tt).
Definition updated (plan : fabricModel) (c c1 : C) : Prop :=
  exists old u, getFabric (fb_Namespace (target plan)) (fb_Name (target plan)) c = Ok old /\
    ToUnstructured (with_version (fb_ResourceVersion old) (target plan)) = Ok u /\ dyn_Update (fb_Namespace (target plan)) u c = (c1, Ok tt).

End Applied.

(** * Plans and the states they become *)

(** Terraform accepts an apply when the attributes of the state are those of the plan. For the
    trust domains this is exactly when the plan sets every optional attribute of every one. *)
Definition explicitDomain (m : trustDomainModel) : Prop :=
  exists n t i j e, m = {| td_name := Value n; td_type := Value t; td_issuer := Value i; td_jwks_uri := Value j; td_enabled := Value e |}.

Lemma explicit_domain_consistent m : trustDomainTo (trustDomainFrom m) = m <-> explicitDomain m.
Proof.
  split; [intros He|by intros (n & t & i & j & e & ->)]. rewrite <- He. unfold explicitDomain, trustDomainTo. by eexists _, _, _, _, _.
Qed.

Lemma plan_consistent_iff plan ds ns f carried st :
  TrustDomains plan = Value ds -> sp_TrustDomains (fb_Spec f) = sp_TrustDomains (fb_Spec (toStarlightFabric ns plan)) ->
  fabricModelFromCRD f ns carried = Ok st ->
  TrustDomains st = TrustDomains plan <-> ds <> [] /\ Forall explicitDomain ds.
Proof.
  intros Hds Hspec Hm. unfold fabricModelFromCRD in Hm. destruct (hashStarlightFabricSpec (fb_Spec f)); [|done].
  injection Hm as <-. cbn. rewrite Hspec. cbn. rewrite Hds. unfold trustDomainsFromList, trustDomainsToList. cbn [known default].
  destruct ds as [|d ds]; [split; [done|by intros []]|]. cbn [fmap list_fmap listToTypes].
  assert (Hinj : forall x y : list trustDomainModel, Value x = Value y <-> x = y) by (split; congruence).
  change (Value (trustDomainTo <$> (trustDomainFrom <$> d :: ds)) = Value (d :: ds) <-> d :: ds <> [] /\ Forall explicitDomain (d :: ds)).
  rewrite Hinj.
  split.
  - intros He. split; [done|]. apply Forall_forall. intros x (i & Hi)%list_elem_of_lookup. apply explicit_domain_consistent.
    assert (Hl : (trustDomainTo <$> (trustDomainFrom <$> d :: ds)) !! i = Some x) by (by rewrite He).
    rewrite !list_lookup_fmap, Hi in Hl. by injection Hl.
  - intros [_ Hall]. rewrite <- list_fmap_compose. rewrite <- (list_fmap_id (d :: ds)) at 2. apply list_fmap_ext.
    intros i x Hx. apply explicit_domain_consistent. by eapply Forall_lookup_1.
Qed.
End Resource.

(** * A concrete cluster *)

(** The resources by namespace and name; one that has been there for an interval is converged. *)
Definition converge (f : Fabric) : Fabric :=
  {| fb_Namespace := fb_Namespace f; fb_Name := fb_Name f; fb_Labels := fb_Labels f; fb_Annotations := fb_Annotations f;
     fb_ResourceVersion := fb_ResourceVersion f; fb_Spec := fb_Spec f;
     fb_Status := {| Phase := PhaseConverged; SoulSequence := SoulSequence (fb_Status f); TrustDomainsActive := TrustDomainsActive (fb_Status f);
                     SigningKeysActive := SigningKeysActive (fb_Status f); SSFStreamsActive := SSFStreamsActive (fb_Status f);
                     LastConvergence := LastConvergence (fb_Status f); FederationPeersHealthy := FederationPeersHealthy (fb_Status f);
                     FederationPeersTotal := FederationPeersTotal (fb_Status f); Conditions := Conditions (fb_Status f) |} |}.
(** An update of the custom resource leaves its status subresource alone. *)
Definition with_old_status (old f : Fabric) : Fabric :=
  {| fb_Namespace := fb_Namespace f; fb_Name := fb_Name f; fb_Labels := fb_Labels f; fb_Annotations := fb_Annotations f;
     fb_ResourceVersion := fb_ResourceVersion f; fb_Spec := fb_Spec f; fb_Status := fb_Status old |}.
Abbreviation Cluster := (gmap (string * string) Fabric).

#[export] Instance cluster_kube : Dynamic Cluster :=
  {| Unstructured := Fabric; ToUnstructured := Ok; FromUnstructured := Ok;
     dyn_Create := fun ns f c => match c !! (ns, fb_Name f) with
                                | Some _ => (c, Err (KubeFailed "already exists"))
                                | None => (<[(ns, fb_Name f) := f]> c, Ok tt)
                                end;
     dyn_Get := fun ns name c => match c !! (ns, name) with Some f => Ok f | None => Err NotFound end;
     dyn_Update := fun ns f c => match c !! (ns, fb_Name f) with
                                | None => (c, Err NotFound)
                                | Some old => (<[(ns, fb_Name f) := with_old_status old f]> c, Ok tt)
                                end;
     dyn_Delete := fun ns name c => match c !! (ns, name) with Some _ => (delete (ns, name) c, Ok tt) | None => (c, Err NotFound) end;
     pass := fun c => converge <$> c |}.

Definition demo_plan_timeout (t : option Z) (tds : list trustDomainModel) : fabricModel :=
  {| ID := Unknown; Name := Value "main"; Namespace := Unknown; Labels := Null; Annotations := Null; TrustDomains := Value tds;
     SigningKeys := Null; SSFStreams := Null; Anchor := Null; Policy := Null; Federation := Null; SpecHash := Unknown;
     m_Phase := Unknown; m_SoulSequence := Unknown; m_TrustDomainsActive := Unknown; m_SigningKeysActive := Unknown;
     m_SSFStreamsActive := Unknown; m_LastConvergence := Unknown; WaitForConverged := Null;
     TimeoutsOf := {| to_Create := t; to_Update := None |} |}.
Definition demo_plan : list trustDomainModel -> fabricModel := demo_plan_timeout None.
Definition demo_td : trustDomainModel :=
  {| td_name := Value "acme"; td_type := Value "oidc"; td_issuer := Value "https://idp"; td_jwks_uri := Null; td_enabled := Null |}.
Definition demo_hash (s : StarlightFabricSpec) : result string string := Ok "h".
Definition demo_format (t : Time) : string := "".
Definition demo_create := Create demo_hash demo_format "starfly-system" (demo_plan [demo_td]) (∅ : Cluster).
Definition demo_state : fabricModel := match snd demo_create with Ok st => st | Err _ => demo_plan [] end.

(** An update that drops the domain, with time for one poll only *)
Definition demo_update := Update demo_hash demo_format "starfly-system" (demo_plan_timeout (Some 1) []) (fst demo_create).
Lemma outcome_ok {C E A} (o : C * result E A) (d : A) : is_ok (snd o) = true ->
  o = (fst o, Ok (match snd o with Ok a => a | Err _ => d end)).
Proof. by destruct o as [? []]. Qed.


(** An [oidc] domain with an issuer alone, which the schema allows, is created and then refused:
    the state has an empty JWKS URI and an enabled flag where the plan has none. *)
Lemma minimal_domain_inconsistent :
  is_ok (snd demo_create) = true /\ TrustDomains demo_state <> TrustDomains (demo_plan [demo_td]).
Proof.
  split; [vm_compute; reflexivity|]. intros He.
  assert (Hn : match TrustDomains demo_state with Value [d] => td_jwks_uri d | _ => Null end = Value "") by (vm_compute; reflexivity).
  rewrite He in Hn. discriminate Hn.
Qed.

(** An update waits for convergence but takes the phase of before the update: the status is that of
    the old spec and the first poll already succeeds, at the very moment of the update. *)
Lemma update_accepts_stale_phase :
  polls (TimeoutsOf (demo_plan_timeout (Some 1) [])) = 1%nat /\ is_ok (snd demo_update) = true /\
  (fun f => Phase (fb_Status f)) <$> fst demo_create !! ("starfly-system", "main") = Some PhaseConverged /\
  (fun f => length (sp_TrustDomains (fb_Spec f))) <$> fst demo_create !! ("starfly-system", "main") = Some 1%nat /\
  (fun f => Phase (fb_Status f)) <$> fst demo_update !! ("starfly-system", "main") = Some PhaseConverged /\
  (fun f => length (sp_TrustDomains (fb_Spec f))) <$> fst demo_update !! ("starfly-system", "main") = Some 0%nat.
Proof. split_and!; vm_compute; reflexivity. Qed.

(** The timeout of an update is that of a creation. *)
Lemma update_timeout_ignored u : polls {| to_Create := None; to_Update := u |} = 150%nat.
Proof. reflexivity. Qed.
End TfFabric.
