(* ===== verification/TfApi.v ===== *)
(** The Terraform provider's resources on the HTTP API ([terraform-provider/internal/provider]): the
    configuration of the provider ([provider.go]), the client ([apiclient.go]), and the operations
    on tools ([mcp_tool_resource.go]), signal streams ([ssf_stream_resource.go]), agent identities
    ([agent_identity_resource.go]) and encryption keys ([encryption_key_resource.go]), with the
    tool resource on top of the tool handlers of the API. *)
From Stdlib Require Import ZArith QArith Lia Ascii.
From stdpp Require Import base gmap strings list.
From S2P Require Import Prelude.
From S2P Require Import GoLib.
From S2P Require Import JwtModel.
From S2P Require Import Core.
From S2P Require Import Mcp.
From S2P Require Import ApiCommon.
From S2P Require Import Api.
From S2P Require Import TfFabric.

#[local] Open Scope string_scope.
#[local] Open Scope list_scope.
#[local] Open Scope Z_scope.

Module TfApi.
Import TfFabric.

(** * The provider *)

Record providerConfig : Type := {
  KubeconfigPath : tf string;
  pc_Namespace : tf string;
  Endpoint : tf string;
  CACert : tf string;
  ClientCert : tf string;
  ClientKey : tf string;
  JWTToken : tf string;
}.

Definition defaultNamespace : string := "starfly-system".

Fixpoint firstNonEmpty (values : list string) : string :=
  match values with [] => "" | v :: rest => if (v =? "")%string then firstNonEmpty rest else v end.

(** [APIClient] and [newAPIClient] *)
Record APIClient : Type := { endpoint : string; jwtToken : string }.
Definition newAPIClient (endpoint_ jwtToken_ : string) : option APIClient :=
  if (endpoint_ =? "")%string then None else Some {| endpoint := trimSlashes endpoint_; jwtToken := jwtToken_ |}.
Definition available (c : option APIClient) : bool :=
  match c with None => false | Some c => negb (endpoint c =? "")%string end.

(** What TLS the HTTP client uses: the CA and the client certificate, when given *)
Record TLSSettings : Type := { tls_CA : option string; tls_Pair : option (string * string) }.

Section Configure.
Variable Getenv : string -> string.
(** A file's contents, when the value names a readable file *)
Variable ReadFile : string -> option string.
(** Whether a PEM bundle has certificates, and whether a certificate and a key fit *)
Variable validCA : string -> bool.
Variable validPair : string -> string -> bool.
Variable loadKube : string -> result string unit.

Definition loadPEM (value : string) : string := default value (ReadFile value).

(** [buildHTTPClient] *)
Definition buildHTTPClient (caCert clientCert clientKey : string) : result string TLSSettings :=
  if (caCert =? "")%string && (clientCert =? "")%string && (clientKey =? "")%string
  then Ok {| tls_CA := None; tls_Pair := None |} else
  let? ca := if (caCert =? "")%string then Ok None
             else if validCA (loadPEM caCert) then Ok (Some (loadPEM caCert)) else Err "parse ca_cert PEM" in
  let? pair := if (clientCert =? "")%string && (clientKey =? "")%string then Ok None
               else if (clientCert =? "")%string || (clientKey =? "")%string
                    then Err "client_cert and client_key must both be set for mTLS"
               else if validPair (loadPEM clientCert) (loadPEM clientKey) then Ok (Some (loadPEM clientCert, loadPEM clientKey))
                    else Err "parse client certificate" in
  Ok {| tls_CA := ca; tls_Pair := pair |}.

(** [Clients] *)
Record Clients : Type := {
  cl_Namespace : string;
  cl_Endpoint : string;
  cl_TLS : TLSSettings;
  cl_API : option APIClient;
}.

(** [Configure] *)
Definition Configure (cfg : providerConfig) : result string Clients :=
  let namespace := firstNonEmpty [ValueString (pc_Namespace cfg); defaultNamespace] in
  let ep := firstNonEmpty [ValueString (Endpoint cfg); Getenv "STARFLY_ENDPOINT"] in
  let jwt := firstNonEmpty [ValueString (JWTToken cfg); Getenv "STARFLY_JWT_TOKEN"] in
  let? _ := loadKube (firstNonEmpty [ValueString (KubeconfigPath cfg); Getenv "KUBECONFIG"]) in
  let? t := buildHTTPClient (firstNonEmpty [ValueString (CACert cfg); Getenv "STARFLY_CA_CERT"])
              (firstNonEmpty [ValueString (ClientCert cfg); Getenv "STARFLY_CLIENT_CERT"])
              (firstNonEmpty [ValueString (ClientKey cfg); Getenv "STARFLY_CLIENT_KEY"]) in
  Ok {| cl_Namespace := namespace; cl_Endpoint := ep; cl_TLS := t; cl_API := newAPIClient ep jwt |}.

(** The namespace the resources rely on is never empty. *)
Lemma Configure_namespace cfg c : Configure cfg = Ok c -> cl_Namespace c <> "".
Proof.
  unfold Configure. intros (? & _ & (? & _ & [= <-])%rbind_ok)%rbind_ok. cbn.
  by destruct (String.eqb_spec (ValueString (pc_Namespace cfg)) "").
Qed.

(** A client certificate is only used together with its key, and never without being valid. *)
Lemma buildHTTPClient_pair ca cert key t :
  buildHTTPClient ca cert key = Ok t -> cert <> "" \/ key <> "" -> tls_Pair t = Some (loadPEM cert, loadPEM key) /\ cert <> "" /\ key <> "".
Proof.
  unfold buildHTTPClient. intros Ht Hne.
  destruct (String.eqb_spec cert ""), (String.eqb_spec key ""); rewrite ?andb_false_r in Ht; cbn in Ht;
    try (by destruct Hne); apply rbind_ok in Ht as (ca' & _ & Ht); try done.
  destruct (validPair _ _); [|done]. by injection Ht as <-.
Qed.
End Configure.

(** * The client *)

(** The payloads of the API *)
Record mcpToolPayload : Type := {
  pl_ToolID : string; pl_Name : string; pl_Description : string; pl_ResourceURI : string;
  pl_RequiredCapabilities : list string; pl_MaxBlastRadius : string; pl_RequiresExecution : bool;
  pl_AllowedOperations : list string; pl_AllowedTargets : list string; pl_OwnerCommune : string; pl_ServerID : string;
}.
Record streamConfigPayload : Type := {
  scp_Issuer : string; scp_Audience : string; scp_EventsRequested : list string; scp_DeliveryMethod : string; scp_EndpointURL : string;
}.
Record streamPayload : Type := { stp_ID : string; stp_Issuer : string; stp_Status : string }.
Record streamStatusPayload : Type := { ssp_StreamID : string; ssp_Status : string }.
Record agentIdentityPayload : Type := {
  aip_AgentName : string; aip_Platform : string; aip_Capabilities : list string; aip_OnBehalfOf : string; aip_MaxBlastRadius : string;
  aip_Metadata : gmap string string; aip_DelegationDepth : Z;
}.
Record agentIdentityResponse : Type := { air_WorkloadID : string; air_Token : string; air_SpiffeID : string }.

Inductive ApiErr : Type :=
| NotConfigured
| Transport (err : string)
| UnexpectedStatus (method path : string) (got want : Z).

Inductive TfDiag : Type :=
| DgNotConfigured
| DgJWTRequired
| DgInvalidKey
| DgApi (summary : string) (err : ApiErr)
| DgDecode (summary : string)
| DgUpdateUnsupported.

Section Client.
(** The API as the client sees it: bodies, their encodings, and the exchange of a request, with
    its URL and bearer token, for a status and a body *)
Context {S B : Type}.
Variable Do : string -> string -> option string -> option B -> S -> S * result string (Z * B).
Variable enc_tool : mcpToolPayload -> B.
Variable dec_tools : B -> option (list mcpToolPayload).
Variable enc_stream : streamConfigPayload -> B.
Variable dec_stream : B -> option streamPayload.
Variable dec_status : B -> option streamStatusPayload.
Variable enc_agent : agentIdentityPayload -> B.
Variable dec_agent : B -> option agentIdentityResponse.
Variable enc_key : string -> B.
Variable json_Valid : string -> bool.
Variable QueryEscape : string -> string.

(** [request] *)
Definition request (api : option APIClient) (method path : string) (body : option B) (s : S) : S * result ApiErr (Z * B) :=
  match api with
  | Some c =>
      if (endpoint c =? "")%string then (s, Err NotConfigured) else
      match Do method (endpoint c +:+ path) (if (jwtToken c =? "")%string then None else Some (jwtToken c)) body s with
      | (s, Err e) => (s, Err (Transport e))
      | (s, Ok r) => (s, Ok r)
      end
  | None => (s, Err NotConfigured)
  end.

(** [expectStatus] *)
Definition expectStatus (api : option APIClient) (method path : string) (body : option B) (want : Z) (s : S) : S * result ApiErr B :=
  match request api method path body s with
  | (s, Err e) => (s, Err e)
  | (s, Ok (st, b)) => (s, if st =? want then Ok b else Err (UnexpectedStatus method path st want))
  end.

(** * Tools *)

Record mcpToolModel : Type := {
  tm_ID : tf string; tm_ToolID : tf string; tm_Name : tf string; tm_Description : tf string; tm_ResourceURI : tf string;
  tm_RequiredCapabilities : tf (list string); tm_MaxBlastRadius : tf string; tm_RequiresExecution : tf bool;
  tm_AllowedOperations : tf (list string); tm_AllowedTargets : tf (list string); tm_OwnerCommune : tf string; tm_ServerID : tf string;
}.
Definition optionalString (v : string) : tf string := if (v =? "")%string then Null else Value v.
Definition optionalStringList (v : list string) : tf (list string) := listToTypes v.

(** [toPayload], [fromPayload] *)
Definition toolToPayload (m : mcpToolModel) : mcpToolPayload :=
  {| pl_ToolID := ValueString (tm_ToolID m); pl_Name := ValueString (tm_Name m); pl_Description := ValueString (tm_Description m);
     pl_ResourceURI := ValueString (tm_ResourceURI m); pl_RequiredCapabilities := stringListFromTypes (tm_RequiredCapabilities m);
     pl_MaxBlastRadius := ValueString (tm_MaxBlastRadius m); pl_RequiresExecution := boolOrDefault (tm_RequiresExecution m) false;
     pl_AllowedOperations := stringListFromTypes (tm_AllowedOperations m); pl_AllowedTargets := stringListFromTypes (tm_AllowedTargets m);
     pl_OwnerCommune := ValueString (tm_OwnerCommune m); pl_ServerID := ValueString (tm_ServerID m) |}.
Definition toolFromPayload (p : mcpToolPayload) : mcpToolModel :=
  {| tm_ID := Value (pl_ToolID p); tm_ToolID := Value (pl_ToolID p); tm_Name := Value (pl_Name p);
     tm_Description := optionalString (pl_Description p); tm_ResourceURI := optionalString (pl_ResourceURI p);
     tm_RequiredCapabilities := optionalStringList (pl_RequiredCapabilities p); tm_MaxBlastRadius := optionalString (pl_MaxBlastRadius p);
     tm_RequiresExecution := Value (pl_RequiresExecution p); tm_AllowedOperations := optionalStringList (pl_AllowedOperations p);
     tm_AllowedTargets := optionalStringList (pl_AllowedTargets p); tm_OwnerCommune := optionalString (pl_OwnerCommune p);
     tm_ServerID := optionalString (pl_ServerID p) |}.
Definition with_ids (id : tf string) (exec : tf bool) (m : mcpToolModel) : mcpToolModel :=
  {| tm_ID := id; tm_ToolID := tm_ToolID m; tm_Name := tm_Name m; tm_Description := tm_Description m; tm_ResourceURI := tm_ResourceURI m;
     tm_RequiredCapabilities := tm_RequiredCapabilities m; tm_MaxBlastRadius := tm_MaxBlastRadius m; tm_RequiresExecution := exec;
     tm_AllowedOperations := tm_AllowedOperations m; tm_AllowedTargets := tm_AllowedTargets m; tm_OwnerCommune := tm_OwnerCommune m;
     tm_ServerID := tm_ServerID m |}.
Definition toolPath (id : tf string) : string := "/v1/mcp/tools?tool_id=" +:+ QueryEscape (ValueString id).

Definition toolCreate (api : option APIClient) (plan : mcpToolModel) (s : S) : S * result TfDiag mcpToolModel :=
  match api with
  | None => (s, Err DgNotConfigured)
  | Some _ =>
      match expectStatus api "POST" "/v1/mcp/tools" (Some (enc_tool (toolToPayload plan))) 201 s with
      | (s, Err e) => (s, Err (DgApi "Register MCP tool" e))
      | (s, Ok _) => (s, Ok (with_ids (tm_ToolID plan) (Value false) plan))
      end
  end.
(** No state is the removal of the resource. *)
Definition toolRead (api : option APIClient) (state : mcpToolModel) (s : S) : S * result TfDiag (option mcpToolModel) :=
  match api with
  | None => (s, Err DgNotConfigured)
  | Some _ =>
      match request api "GET" "/v1/mcp/tools" None s with
      | (s, Err e) => (s, Err (DgApi "List MCP tools" e))
      | (s, Ok (_, b)) =>
          match dec_tools b with
          | None => (s, Err (DgDecode "Decode MCP tool list"))
          | Some tools => (s, Ok (toolFromPayload <$> find (fun t => (pl_ToolID t =? ValueString (tm_ToolID state))%string) tools))
          end
      end
  end.
Definition toolUpdate (api : option APIClient) (plan : mcpToolModel) (s : S) : S * result TfDiag mcpToolModel :=
  match request api "DELETE" (toolPath (tm_ToolID plan)) None s with
  | (s, Err e) => (s, Err (DgApi "Deregister MCP tool for update" e))
  | (s, Ok _) =>
      match expectStatus api "POST" "/v1/mcp/tools" (Some (enc_tool (toolToPayload plan))) 201 s with
      | (s, Err e) => (s, Err (DgApi "Re-register MCP tool" e))
      | (s, Ok _) => (s, Ok (with_ids (tm_ToolID plan) (tm_RequiresExecution plan) plan))
      end
  end.
Definition toolDelete (api : option APIClient) (state : mcpToolModel) (s : S) : S * option TfDiag :=
  match api with
  | None => (s, None)
  | Some _ =>
      match request api "DELETE" (toolPath (tm_ToolID state)) None s with
      | (s, Err e) => (s, Some (DgApi "Deregister MCP tool" e))
      | (s, Ok _) => (s, None)
      end
  end.

(** * Signal streams *)

Record ssfStreamAPIModel : Type := {
  sm_ID : tf string; sm_Issuer : tf string; sm_Audience : tf string; sm_EventsRequested : tf (list string);
  sm_DeliveryMethod : tf string; sm_EndpointURL : tf string; sm_Status : tf string;
}.
Definition streamToPayload (m : ssfStreamAPIModel) : streamConfigPayload :=
  {| scp_Issuer := ValueString (sm_Issuer m); scp_Audience := ValueString (sm_Audience m);
     scp_EventsRequested := stringListFromTypes (sm_EventsRequested m); scp_DeliveryMethod := ValueString (sm_DeliveryMethod m);
     scp_EndpointURL := ValueString (sm_EndpointURL m) |}.
Definition with_stream (id status : string) (m : ssfStreamAPIModel) : ssfStreamAPIModel :=
  {| sm_ID := Value id; sm_Issuer := sm_Issuer m; sm_Audience := sm_Audience m; sm_EventsRequested := sm_EventsRequested m;
     sm_DeliveryMethod := sm_DeliveryMethod m; sm_EndpointURL := sm_EndpointURL m; sm_Status := Value status |}.
Definition streamPath (id : tf string) : string := "/v1/signals/stream?stream_id=" +:+ QueryEscape (ValueString id).

(** The creation of a stream, also as the second half of an update *)
Definition postStream (summary : string) (api : option APIClient) (plan : ssfStreamAPIModel) (s : S) : S * result TfDiag ssfStreamAPIModel :=
  match expectStatus api "POST" "/v1/signals/stream" (Some (enc_stream (streamToPayload plan))) 201 s with
  | (s, Err e) => (s, Err (DgApi summary e))
  | (s, Ok b) =>
      (s, match dec_stream b with
          | None => Err (DgDecode "Decode SSF stream response")
          | Some created => Ok (with_stream (stp_ID created) (stp_Status created) plan)
          end)
  end.
Definition streamCreate (api : option APIClient) (plan : ssfStreamAPIModel) (s : S) : S * result TfDiag ssfStreamAPIModel :=
  match api with None => (s, Err DgNotConfigured) | Some _ => postStream "Create SSF stream" api plan s end.
Definition streamRead (api : option APIClient) (state : ssfStreamAPIModel) (s : S) : S * result TfDiag (option ssfStreamAPIModel) :=
  match api with
  | None => (s, Err DgNotConfigured)
  | Some _ =>
      match request api "GET" ("/v1/signals/status?stream_id=" +:+ QueryEscape (ValueString (sm_ID state))) None s with
      | (s, Err e) => (s, Err (DgApi "Read SSF stream status" e))
      | (s, Ok (_, b)) =>
          (s, match dec_status b with
              | None => Ok None
              | Some st => Ok (Some {| sm_ID := sm_ID state; sm_Issuer := sm_Issuer state; sm_Audience := sm_Audience state;
                                       sm_EventsRequested := sm_EventsRequested state; sm_DeliveryMethod := sm_DeliveryMethod state;
                                       sm_EndpointURL := sm_EndpointURL state; sm_Status := Value (ssp_Status st) |})
              end)
      end
  end.
Definition streamUpdate (api : option APIClient) (plan state : ssfStreamAPIModel) (s : S) : S * result TfDiag ssfStreamAPIModel :=
  match request api "DELETE" (streamPath (sm_ID state)) None s with
  | (s, Err e) => (s, Err (DgApi "Delete SSF stream for update" e))
  | (s, Ok _) => postStream "Recreate SSF stream" api plan s
  end.
Definition streamDelete (api : option APIClient) (state : ssfStreamAPIModel) (s : S) : S * option TfDiag :=
  match api with
  | None => (s, None)
  | Some _ =>
      match request api "DELETE" (streamPath (sm_ID state)) None s with
      | (s, Err e) => (s, Some (DgApi "Delete SSF stream" e))
      | (s, Ok _) => (s, None)
      end
  end.

(** * Agent identities *)

Record agentIdentityModel : Type := {
  gm_ID : tf string; gm_AgentName : tf string; gm_Platform : tf string; gm_Capabilities : tf (list string); gm_OnBehalfOf : tf string;
  gm_MaxBlastRadius : tf string; gm_Metadata : tf (gmap string string); gm_DelegationDepth : tf Z; gm_WorkloadID : tf string;
  gm_Token : tf string; gm_SpiffeID : tf string;
}.
Definition agentToPayload (m : agentIdentityModel) : agentIdentityPayload :=
  {| aip_AgentName := ValueString (gm_AgentName m); aip_Platform := ValueString (gm_Platform m);
     aip_Capabilities := stringListFromTypes (gm_Capabilities m); aip_OnBehalfOf := ValueString (gm_OnBehalfOf m);
     aip_MaxBlastRadius := ValueString (gm_MaxBlastRadius m); aip_Metadata := stringMapFromTypes (gm_Metadata m);
     aip_DelegationDepth := default 0 (known (gm_DelegationDepth m)) |}.
Definition agentCreate (api : option APIClient) (plan : agentIdentityModel) (s : S) : S * result TfDiag agentIdentityModel :=
  match api with
  | None => (s, Err DgNotConfigured)
  | Some _ =>
      match expectStatus api "POST" "/v1/identity/agent" (Some (enc_agent (agentToPayload plan))) 200 s with
      | (s, Err e) => (s, Err (DgApi "Issue agent identity" e))
      | (s, Ok b) =>
          (s, match dec_agent b with
              | None => Err (DgDecode "Decode agent identity response")
              | Some i => Ok {| gm_ID := Value (air_WorkloadID i); gm_AgentName := gm_AgentName plan; gm_Platform := gm_Platform plan;
                                gm_Capabilities := gm_Capabilities plan; gm_OnBehalfOf := gm_OnBehalfOf plan;
                                gm_MaxBlastRadius := gm_MaxBlastRadius plan; gm_Metadata := gm_Metadata plan;
                                gm_DelegationDepth := gm_DelegationDepth plan; gm_WorkloadID := Value (air_WorkloadID i);
                                gm_Token := Value (air_Token i); gm_SpiffeID := Value (air_SpiffeID i) |}
              end)
      end
  end.
(** Reading and deleting leave everything as it is; an update is refused. *)
Definition agentRead (state : agentIdentityModel) (s : S) : S * result TfDiag (option agentIdentityModel) := (s, Ok (Some state)).
Definition agentUpdate (s : S) : S * result TfDiag agentIdentityModel := (s, Err DgUpdateUnsupported).
Definition agentDelete (s : S) : S * option TfDiag := (s, None).

(** * Encryption keys *)

Record encryptionKeyModel : Type := { em_ID : tf string; em_PublicKey : tf string; em_WorkloadID : tf string }.
Definition keyCreate (api : option APIClient) (plan : encryptionKeyModel) (s : S) : S * result TfDiag encryptionKeyModel :=
  match api with
  | None => (s, Err DgNotConfigured)
  | Some c =>
      if (jwtToken c =? "")%string then (s, Err DgJWTRequired) else
      if negb (json_Valid (ValueString (em_PublicKey plan))) then (s, Err DgInvalidKey) else
      match expectStatus api "POST" "/v1/identity/agent/encryption-key" (Some (enc_key (ValueString (em_PublicKey plan)))) 200 s with
      | (s, Err e) => (s, Err (DgApi "Register encryption key" e))
      | (s, Ok _) => (s, Ok {| em_ID := Value "registered"; em_PublicKey := em_PublicKey plan; em_WorkloadID := Value "from-jwt-subject" |})
      end
  end.
End Client.

(** * Tools on the handlers of the API *)

(** The bodies of the tool endpoints *)
Inductive Body : Type := BTool (p : mcpToolPayload) | BTools (ps : list mcpToolPayload) | BMessage | BError.
(** A tool list is an object with a field [tools]; any other object decodes to none. *)
Definition body_tools (b : Body) : option (list mcpToolPayload) := match b with BTools ps => Some ps | _ => Some [] end.

(** A payload and a registry entry have the same JSON fields. *)
Definition entryOf (p : mcpToolPayload) : Mcp.ToolEntry :=
  {| Mcp.ToolID := pl_ToolID p; Mcp.Name := pl_Name p; Mcp.Description := pl_Description p; Mcp.ResourceURI := pl_ResourceURI p;
     Mcp.RequiredCapabilities := pl_RequiredCapabilities p; Mcp.MaxBlastRadius := pl_MaxBlastRadius p;
     Mcp.RequiresExecution := pl_RequiresExecution p; Mcp.AllowedOperations := pl_AllowedOperations p;
     Mcp.AllowedTargets := pl_AllowedTargets p; Mcp.OwnerCommune := pl_OwnerCommune p; Mcp.ServerID := pl_ServerID p;
     Mcp.RegisteredAt := 0; Mcp.UpdatedAt := 0 |}.
Definition payloadOf (e : Mcp.ToolEntry) : mcpToolPayload :=
  {| pl_ToolID := Mcp.ToolID e; pl_Name := Mcp.Name e; pl_Description := Mcp.Description e; pl_ResourceURI := Mcp.ResourceURI e;
     pl_RequiredCapabilities := Mcp.RequiredCapabilities e; pl_MaxBlastRadius := Mcp.MaxBlastRadius e;
     pl_RequiresExecution := Mcp.RequiresExecution e; pl_AllowedOperations := Mcp.AllowedOperations e;
     pl_AllowedTargets := Mcp.AllowedTargets e; pl_OwnerCommune := Mcp.OwnerCommune e; pl_ServerID := Mcp.ServerID e |}.

Section Server.
Context `{!JwtLib, !RangeOrder}.
Import ApiCommon.
Variable now : Time.
Variable unescape : string -> string.
Variable ep : string.

Definition replied {A} (s : Api.Tools.Server) (body : A -> Body) (r : Response A) : Api.Tools.Server * result string (Z * Body) :=
  (s, Ok (status r, match r with Reply _ a => body a | ErrorReply _ _ => BError end)).
(** The tool endpoints of a server at [ep] *)
Definition toolServer (method url : string) (bearer : option string) (body : option Body) (s : Api.Tools.Server)
    : Api.Tools.Server * result string (Z * Body) :=
  let auth := match bearer with Some t => "Bearer " +:+ t | None => "" end in
  if (method =? "POST")%string && (url =? ep +:+ "/v1/mcp/tools")%string then
    match body with
    | Some (BTool p) => let (s, r) := Api.Tools.handleMCPToolRegister s now auth (Ok (entryOf p)) in replied s (fun e => BTool (payloadOf e)) r
    | _ => let (s, r) := Api.Tools.handleMCPToolRegister s now auth (Err "EOF") in replied s (fun e => BTool (payloadOf e)) r
    end
  else if (method =? "GET")%string && (url =? ep +:+ "/v1/mcp/tools")%string then
    replied s (fun es => BTools (payloadOf <$> es)) (Api.Tools.handleMCPToolList s)
  else if (method =? "DELETE")%string && HasPrefix url (ep +:+ "/v1/mcp/tools?tool_id=") then
    let (s, r) := Api.Tools.handleMCPToolDeregister s now auth (unescape (TrimPrefix url (ep +:+ "/v1/mcp/tools?tool_id="))) in
    replied s (fun _ => BMessage) r
  else (s, Ok (404, BMessage)).

(** Optional attributes that are set are not empty, and nothing is unknown. *)
Definition setString (v : tf string) : Prop := match v with Null => True | Unknown => False | Value x => x <> "" end.
Definition setList (v : tf (list string)) : Prop := match v with Null => True | Unknown => False | Value l => l <> [] end.
Record normal (m : mcpToolModel) : Prop := {
  n_id : exists x, tm_ToolID m = Value x;
  n_name : exists x, tm_Name m = Value x;
  n_exec : exists b, tm_RequiresExecution m = Value b;
  n_strings : Forall setString [tm_Description m; tm_ResourceURI m; tm_MaxBlastRadius m; tm_OwnerCommune m; tm_ServerID m];
  n_lists : Forall setList [tm_RequiredCapabilities m; tm_AllowedOperations m; tm_AllowedTargets m];
}.

Lemma optional_set v : setString v -> optionalString (ValueString v) = v.
Proof. destruct v as [| |x]; [done|done|]. cbn. unfold optionalString, ValueString. cbn. by intros ->%String.eqb_neq. Qed.
Lemma optional_list_set v : setList v -> optionalStringList (stringListFromTypes v) = v.
Proof. by destruct v as [| |[|]]. Qed.

(** A tool model that has been through the API is the model itself. *)
Lemma tool_roundtrip m : normal m -> toolFromPayload (toolToPayload m) = with_ids (tm_ToolID m) (tm_RequiresExecution m) m.
Proof.
  intros [[id Hid] [n Hn] [b Hb] Hs Hl]. rewrite !Forall_cons in Hs. rewrite !Forall_cons in Hl. destruct Hs as (? & ? & ? & ? & ? & _), Hl as (? & ? & ? & _).
  unfold toolFromPayload, toolToPayload, with_ids. cbn.
  rewrite Hid, Hn, Hb, !optional_set, !optional_list_set by done. done.
Qed.

Lemma find_unique (r : Mcp.Registry) id e : (forall k x, r !! k = Some x -> Mcp.ToolID x = k) -> r !! id = Some e ->
  find (fun t => (pl_ToolID t =? id)%string) (payloadOf <$> Mcp.List_ r) = Some (payloadOf e).
Proof.
  intros Hwf Hr.
  assert (Hin : e ∈ Mcp.List_ r) by (unfold Mcp.List_; rewrite list_elem_of_fmap; exists (id, e); by rewrite elem_of_range).
  assert (Hun : forall x, x ∈ Mcp.List_ r -> Mcp.ToolID x = id -> x = e).
  { unfold Mcp.List_. intros x ([k y] & -> & Hy%elem_of_range)%list_elem_of_fmap Hx. cbn in *.
    rewrite (Hwf _ _ Hy) in Hx. congruence. }
  induction (Mcp.List_ r) as [|x l IH]; [by apply not_elem_of_nil in Hin|]. cbn.
  destruct (String.eqb_spec (Mcp.ToolID x) id) as [Hx|Hx].
  - by rewrite (Hun x) by (done || by left).
  - apply IH; [|intros y Hy; apply Hun; by right]. apply elem_of_cons in Hin as [->|]; [|done]. by rewrite (Hwf _ _ Hr) in Hx.
Qed.

Hypothesis ep_set : ep <> "".

(** What [terraform apply] makes of a tool. A creation that succeeds was authenticated, registered
    the tool the plan describes under a new identifier and changed nothing else; reading it back
    finds it, as the plan describes it; but the state of the creation itself says that the tool
    does not require execution scopes, whatever the plan says. *)
Theorem tool_apply_registers jwt plan s r s' st :
  Api.Tools.s_mcpRegistry s = Some r -> (forall k x, r !! k = Some x -> Mcp.ToolID x = k) -> normal plan ->
  let api := Some {| endpoint := ep; jwtToken := jwt |} in
  toolCreate toolServer BTool api plan s = (s', Ok st) ->
  let id := ValueString (tm_ToolID plan) in
  r !! id = None /\ id <> "" /\
  (Api.Tools.s_devMode s = true \/ exists h, requireBearerAuth (Api.Tools.s_jwks s) now h = Ok tt) /\
  Api.Tools.s_mcpRegistry s' = Some (<[id := Mcp.stamp (entryOf (toolToPayload plan)) now now]> r) /\
  (exists read, toolRead toolServer body_tools api st s' = (s', Ok (Some read)) /\
     read = with_ids (tm_ToolID plan) (tm_RequiresExecution plan) plan) /\
  st = with_ids (tm_ToolID plan) (Value false) plan.
Proof using All.
  intros Hreg Hwf Hnorm. unfold toolCreate, expectStatus, request. cbn [endpoint jwtToken].
  apply String.eqb_neq in ep_set. rewrite ep_set. unfold toolServer at 1.
  rewrite (String.eqb_refl "POST"), String.eqb_refl. cbn [andb].
  unfold Api.Tools.handleMCPToolRegister, Api.Tools.authenticated. set (h := match _ with Some t => _ | None => "" end).
  rewrite Hreg. cbn [Mcp.ToolID entryOf toolToPayload pl_ToolID]. set (id := ValueString (tm_ToolID plan)).
  destruct (Api.Tools.s_devMode s || is_ok (requireBearerAuth (Api.Tools.s_jwks s) now h)) eqn:Hauth.
  2:{ apply orb_false_iff in Hauth as [-> Hb]. destruct (requireBearerAuth _ _ _) as [|[]]; done. }
  assert (Ha : forall A (k : Api.Tools.Server * Response A), (if Api.Tools.s_devMode s then k else
      match requireBearerAuth (Api.Tools.s_jwks s) now h with Ok _ => k | Err r => (s, bearerReply r) end) = k).
  { intros A k. destruct (Api.Tools.s_devMode s); [done|]. by destruct (requireBearerAuth _ _ _). }
  rewrite Ha. destruct (String.eqb_spec id "") as [|Hid]; [done|]. unfold Mcp.Register. cbn [Mcp.ToolID entryOf toolToPayload pl_ToolID].
  fold id. destruct (r !! id) eqn:Hr; [done|]. cbn. intros [= <- <-].
  split; [done|]. split; [done|]. split.
  { apply orb_true_iff in Hauth as [?|Hb]; [by left|right]. exists h. by destruct (requireBearerAuth _ _ _) as [[]|]. }
  split; [done|]. split; [|done]. eexists. rewrite <- (tool_roundtrip plan Hnorm). split; [|done].
  unfold toolRead, request. cbn [endpoint jwtToken]. rewrite ep_set. unfold toolServer.
  rewrite String.eqb_refl. cbn. rewrite (find_unique _ id (Mcp.stamp (entryOf (toolToPayload plan)) now now)); [done| |by rewrite lookup_insert_eq].
  intros k x [[<- <-]|[_ Hx]]%lookup_insert_Some; [done|by apply Hwf].
Qed.
End Server.

(** * Concrete servers *)

#[local] Existing Instance JwtModel.lib.
#[local] Existing Instance key_order.

Definition demo_server (dev : bool) (r : option Mcp.Registry) : Api.Tools.Server :=
  {| Api.Tools.s_devMode := dev; Api.Tools.s_jwks := Some (Some []); Api.Tools.s_mcpRegistry := r; Api.Tools.s_toolRegistry := None |}.
Definition demo_tool : mcpToolModel :=
  {| tm_ID := Unknown; tm_ToolID := Value "t1"; tm_Name := Value "Tool"; tm_Description := Null; tm_ResourceURI := Value "https://t1";
     tm_RequiredCapabilities := Value ["read"]; tm_MaxBlastRadius := Null; tm_RequiresExecution := Value true;
     tm_AllowedOperations := Null; tm_AllowedTargets := Null; tm_OwnerCommune := Null; tm_ServerID := Null |}.
Definition demo_ep : string := "https://starfly:8694".
Definition demo_api (jwt : string) : option APIClient := Some {| endpoint := demo_ep; jwtToken := jwt |}.
Definition same (x : string) : string := x.
Definition demo_do := toolServer 5 same demo_ep.

Lemma demo_tool_normal : normal demo_tool.
Proof. split; [by eexists|by eexists|by eexists|repeat constructor; done|repeat constructor; done]. Qed.

Definition demo_applied : Api.Tools.Server := fst (toolCreate demo_do BTool (demo_api "") demo_tool (demo_server true (Some ∅))).
Definition demo_applied_state : mcpToolModel := with_ids (Value "t1") (Value false) demo_tool.

Lemma tool_apply_registers_witness :
  exists read, toolRead demo_do body_tools (demo_api "") demo_applied_state demo_applied = (demo_applied, Ok (Some read)) /\
    tm_RequiresExecution read = Value true /\ tm_RequiresExecution demo_applied_state = Value false.
Proof.
  destruct (tool_apply_registers 5 same demo_ep ltac:(discriminate) "" demo_tool (demo_server true (Some ∅)) ∅
    demo_applied demo_applied_state) as (_ & _ & _ & _ & (read & Hread & He) & _);
    [reflexivity|intros k x Hx; by rewrite lookup_empty in Hx|exact demo_tool_normal|reflexivity|].
  exists read. split; [exact Hread|]. split; [rewrite He; reflexivity|reflexivity].
Defined.

(** The status of a list is not looked at: an error of the server, here one without a registry,
    counts as a list without the tool, and the tool is dropped from the state. *)
Lemma read_error_forgets_tool :
  toolRead demo_do body_tools (demo_api "") demo_tool (demo_server false None) = (demo_server false None, Ok None) /\
  ApiCommon.status (Api.Tools.handleMCPToolList (demo_server false None)) = 503.
Proof. split; reflexivity. Qed.

(** Nor is that of a deletion: one the server refuses counts as done, and the tool stays. *)
Lemma refused_delete_succeeds :
  let s := demo_server false (Some {["t1" := entryOf (toolToPayload demo_tool)]}) in
  toolDelete demo_do same (demo_api "bad") demo_tool s = (s, None).
Proof. reflexivity. Qed.

(** An update deregisters first: when the registration that follows is lost the tool is gone, and
    calls that need it are refused until the next apply. *)
Definition lossy (method url : string) (bearer : option string) (body : option Body) (s : Api.Tools.Server) :=
  if (method =? "POST")%string then (s, Err "connection reset") else demo_do method url bearer body s.
Lemma failed_update_removes_tool :
  let s := demo_server true (Some {["t1" := entryOf (toolToPayload demo_tool)]}) in
  toolUpdate lossy BTool same (demo_api "") demo_tool s =
    (demo_server true (Some ∅), Err (DgApi "Re-register MCP tool" (Transport "connection reset"))).
Proof. reflexivity. Qed.
End TfApi.
