(* ===== verification/McpClient.v ===== *)
(** The MCP client ([pkg/mcp/client.go]): the acquisition of a token for a tool from the exchange
    endpoint and the call of the tool with it, on top of the token handler of the API and the
    exchange engine. The transport is a parameter, with state; on top of it the client of [net/http] follows
    redirects. JSON encodings are parameters. *)
From Stdlib Require Import ZArith QArith Lia.
From stdpp Require Import base gmap strings list.
From S2P Require Import Prelude.
From S2P Require Import GoLib.
From S2P Require Import JwtModel.
From S2P Require Import Core.
From S2P Require Import Execution.
From S2P Require Import Attestation.
From S2P Require Import DPoP.
From S2P Require Import Exchange.
From S2P Require Import ExchangeSpec.
From S2P Require Import Mcp.
From S2P Require Import ApiCommon.
From S2P Require Import Api.

#[local] Open Scope string_scope.
#[local] Open Scope list_scope.
#[local] Open Scope Z_scope.

Module McpClient.

(** [Client] *)
Record Client : Type := {
  StarflyURL : string;
  SourceToken : string;
  SourceTokenType : string;
}.

(** [tokenExchangeRequest], [tokenExchangeResponse] *)
Record tokenExchangeRequest : Type := {
  tr_GrantType : string;
  tr_SubjectToken : string;
  tr_SubjectTokenType : string;
  tr_Audience : string;
  tr_Scope : string;
  tr_Resource : string;
}.
Record tokenExchangeResponse : Type := {
  tx_AccessToken : string;
  tx_IssuedTokenType : string;
  tx_TokenType : string;
  tx_ExpiresIn : Z;
  tx_Scope : string;
}.

(** [CallToolRequest], [CallToolResponse] *)
Record CallToolRequest : Type := {
  rq_ToolID : string;
  rq_ToolName : string;
  rq_ResourceURI : string;
  rq_Capabilities : list string;
  rq_Params : gmap string value;
  rq_TargetURL : string;
  rq_ParentECTs : list string;
}.
Record CallToolResponse : Type := {
  rp_StatusCode : Z;
  rp_Body : option (gmap string value);
  rp_RawBody : string;
  rp_ECT : string;
}.

(** A request and a response as they go over the network; headers in the order they are added. The body of a
    response may break off with an error. *)
Record HttpRequest : Type := {
  hr_Method : string; hr_URL : string; hr_Headers : list (string * string); hr_Body : string;
}.
Record HttpResponse : Type := {
  hs_Status : Z; hs_Headers : list (string * string); hs_Body : string; hs_Broken : option string;
}.
Definition header (name : string) (hs : list (string * string)) : string :=
  match find (fun h => (h.1 =? name)%string) hs with Some h => h.2 | None => "" end.

Inductive ClientErr : Type :=
| MarshalRequest
| CreateRequest
| ExchangeFailed (err : string)
| ExchangeReturned (status : Z) (body : string)
| DecodeResponse
| MarshalPayload
| CreateToolRequest
| ToolCallFailed (err : string)
| ReadResponse (err : string).

Definition limit1MiB : nat := Z.to_nat 1048576.

(** The loop that joins the capabilities *)
Definition scopeOf (capabilities : list string) : string :=
  snd (fold_left (fun acc cap => let '(i, scope) := acc in
                                 (S i, (if (0 <? i)%nat then scope +:+ " " else scope) +:+ cap))
                 capabilities (O, "")).

(** * The client of [net/http]

    [Client.Do] with the default policy on redirects: a response with a redirecting status and a location is
    followed, with a GET without a body after 301, 302 and 303 and with the same method and body after 307 and
    308, until ten requests were made. The headers of the first request are sent again, but not the credentials
    once a location is on a host that is not the first one's (or below it), nor those about a body
    that is not sent again. *)
Section Redirects.
Context {W : Type}.
Variable RoundTrip : HttpRequest -> W -> W * result string HttpResponse.
(** The location resolved against a URL; whether credentials for a URL may go to another; the referer; the headers
    about a body. *)
Variable resolve : string -> string -> option string.
Variable sameSite : string -> string -> bool.
Variable referer : string -> string -> list (string * string).
Variable aboutBody : string -> bool.

(** [redirectBehavior]: the method, and whether the body is sent again. *)
Definition redirectBehavior (method : string) (resp : HttpResponse) : option (string * bool) :=
  if (header "Location" (hs_Headers resp) =? "")%string then None else
  if existsb (Z.eqb (hs_Status resp)) [301; 302; 303] then
    Some (if (method =? "GET")%string || (method =? "HEAD")%string then method else "GET", false)
  else if existsb (Z.eqb (hs_Status resp)) [307; 308] then Some (method, true)
  else None.

Definition redirectTo (first last : HttpRequest) (strip : bool) (url method : string) (withBody : bool) : HttpRequest :=
  {| hr_Method := method; hr_URL := url;
     hr_Headers := List.filter (fun h => negb (strip && (h.1 =? "Authorization")%string) && (withBody || negb (aboutBody h.1)))
                     (hr_Headers first) ++ referer (hr_URL last) url;
     hr_Body := if withBody then hr_Body first else "" |}.

Fixpoint follow (fuel : nat) (first req : HttpRequest) (strip : bool) (w : W) : W * result string HttpResponse :=
  match RoundTrip req w with
  | (w, Err e) => (w, Err e)
  | (w, Ok resp) =>
      match redirectBehavior (hr_Method req) resp with
      | None => (w, Ok resp)
      | Some (method, withBody) =>
          match resolve (hr_URL req) (header "Location" (hs_Headers resp)) with
          | None => (w, Err "failed to parse Location header")
          | Some url =>
              match fuel with
              | O => (w, Err "stopped after 10 redirects")
              | S fuel' =>
                  let strip' := strip || negb (sameSite (hr_URL first) url) in
                  follow fuel' first (redirectTo first req strip' url method withBody) strip' w
              end
          end
      end
  end.
Definition http_Do (req : HttpRequest) (w : W) : W * result string HttpResponse := follow 9 req req false w.
End Redirects.

Section Calls.
Context {W : Type}.
(** [HTTPClient.Do] *)
Variable Do : HttpRequest -> W -> W * result string HttpResponse.
Variable enc_request : tokenExchangeRequest -> option string.
(** The first JSON value of a body that may break off *)
Variable dec_response : string -> option string -> option tokenExchangeResponse.
Variable enc_call : string -> gmap string value -> option string.
Variable json_Object : string -> option (gmap string value).
(** Whether [http.NewRequest] takes the URL *)
Variable validURL : string -> bool.

Definition exchangeRequest (c : Client) (resource : string) (capabilities : list string) : tokenExchangeRequest :=
  {| tr_GrantType := "urn:ietf:params:oauth:grant-type:token-exchange"; tr_SubjectToken := SourceToken c;
     tr_SubjectTokenType := SourceTokenType c; tr_Audience := resource; tr_Scope := scopeOf capabilities; tr_Resource := resource |}.

(** [AcquireToken] *)
Definition AcquireToken (c : Client) (resource : string) (capabilities : list string) (w : W) : W * result ClientErr string :=
  match enc_request (exchangeRequest c resource capabilities) with
  | None => (w, Err MarshalRequest)
  | Some body =>
      let url := StarflyURL c +:+ "/v1/exchange/token" in
      if negb (validURL url) then (w, Err CreateRequest) else
      match Do {| hr_Method := "POST"; hr_URL := url; hr_Headers := [("Content-Type", "application/json")]; hr_Body := body |} w with
      | (w, Err e) => (w, Err (ExchangeFailed e))
      | (w, Ok resp) =>
          (w, if negb (hs_Status resp =? 200) then Err (ExchangeReturned (hs_Status resp) (str_take 4096 (hs_Body resp)))
              else match dec_response (hs_Body resp) (hs_Broken resp) with None => Err DecodeResponse | Some t => Ok (tx_AccessToken t) end)
      end
  end.

(** [io.ReadAll] of an [io.LimitReader]: a break after the limit is not seen. *)
Definition readLimited (limit : nat) (resp : HttpResponse) : result string string :=
  match hs_Broken resp with
  | Some e => if (limit <=? String.length (hs_Body resp))%nat then Ok (str_take limit (hs_Body resp)) else Err e
  | None => Ok (str_take limit (hs_Body resp))
  end.

(** The request to the tool *)
Definition toolRequest (token : string) (req : CallToolRequest) (payload : string) : HttpRequest :=
  {| hr_Method := "POST"; hr_URL := rq_TargetURL req;
     hr_Headers := [("Content-Type", "application/json"); ("Authorization", "Bearer " +:+ token); ("X-MCP-Tool-ID", rq_ToolID req)]
                   ++ ((fun ect => ("Execution-Context", ect)) <$> rq_ParentECTs req);
     hr_Body := payload |}.

(** [CallTool] *)
Definition CallTool (c : Client) (req : CallToolRequest) (w : W) : W * result ClientErr CallToolResponse :=
  match AcquireToken c (rq_ResourceURI req) (rq_Capabilities req) w with
  | (w, Err e) => (w, Err e)
  | (w, Ok token) =>
      match enc_call (rq_ToolName req) (rq_Params req) with
      | None => (w, Err MarshalPayload)
      | Some payload =>
          if negb (validURL (rq_TargetURL req)) then (w, Err CreateToolRequest) else
          match Do (toolRequest token req payload) w with
          | (w, Err e) => (w, Err (ToolCallFailed e))
          | (w, Ok resp) =>
              (w, match readLimited limit1MiB resp with
                  | Err e => Err (ReadResponse e)
                  | Ok raw => Ok {| rp_StatusCode := hs_Status resp; rp_Body := json_Object raw; rp_RawBody := raw;
                                    rp_ECT := header "Execution-Context" (hs_Headers resp) |}
                  end)
          end
      end
  end.

(** The scope is the capabilities, separated by blanks. *)
Lemma scopeOf_join caps : scopeOf caps = Join caps " ".
Proof.
  unfold scopeOf, Join. destruct caps as [|c caps]; [done|]. cbn.
  assert (Hf : forall i acc, snd (fold_left (fun a cap => let '(i, scope) := a in
      (S i, (if (0 <? i)%nat then scope +:+ " " else scope) +:+ cap)) caps (S i, acc)) =
    acc +:+ match caps with [] => "" | _ => " " +:+ String.concat " " caps end).
  { clear. induction caps as [|d caps IH]; intros i acc; cbn [fold_left]; [by rewrite str_app_nil_r|].
    cbn [Nat.ltb Nat.leb]. rewrite IH. destruct caps as [|d' caps]; cbn [String.concat].
    - by rewrite str_app_nil_r, <- str_app_assoc.
    - by rewrite <- !str_app_assoc. }
  rewrite Hf. destruct caps; [by rewrite str_app_nil_r|done].
Qed.
End Calls.

(** * A client, a fabric and the tools *)

Section Fabric.
Context `{!JwtLib, !JwtLaws, !DPoP.JwsLib, !RangeOrder}.
Context {EncKey : Type}.
Import Exchange ExchangeSpec ApiCommon.
Variable clock : nat -> Time.
Variable EncryptSecretBundle : gmap string string -> EncKey -> result string string.
Variable e : Engine (EncKey := EncKey).
Variable json_Decode : string -> result BodyErr TokenExchangeRequest.
Variable json_Attestation : string -> result string ServerAttestation.
Variable errorText : ExchangeErr -> string.
Variable attText : Attestation.Attest.AttErr -> string.
Variable enc_reply : Response TokenExchangeResponse -> string.
Variable tools : HttpRequest -> result string HttpResponse.
Variable base : string.
Variable enc_request : tokenExchangeRequest -> option string.
Variable dec_response : string -> option string -> option tokenExchangeResponse.
Variable enc_call : string -> gmap string value -> option string.
Variable json_Object : string -> option (gmap string value).
Variable validURL : string -> bool.
Variable resolve : string -> string -> option string.
Variable sameSite : string -> string -> bool.
Variable referer : string -> string -> list (string * string).
Variable aboutBody : string -> bool.

(** The network: the fabric answers at its exchange URL, everything else goes out to the tools. *)
Definition network (req : HttpRequest) (w : EState * list HttpRequest) : EState * list HttpRequest * result string HttpResponse :=
  if (hr_URL req =? base +:+ "/v1/exchange/token")%string then
    let '(s, _, r) := Api.Token.handleExchangeToken (Exchange.Exchange clock EncryptSecretBundle e) json_Decode json_Attestation
                        errorText attText (fun _ => "") (hr_Body req) w.1 in
    ((s, w.2), Ok {| hs_Status := status r; hs_Headers := []; hs_Body := enc_reply r; hs_Broken := None |})
  else ((w.1, w.2 ++ [req]), tools req).

Abbreviation send := (http_Do network resolve sameSite referer aboutBody).
Abbreviation call := (CallTool send enc_request dec_response enc_call json_Object validURL).

(** The request as the server decodes it: it has no field for the resource. *)
Definition decoded (r : tokenExchangeRequest) : TokenExchangeRequest :=
  {| GrantType := tr_GrantType r; SubjectToken := tr_SubjectToken r; SubjectTokenType := tr_SubjectTokenType r;
     Audience := tr_Audience r; Scope := tr_Scope r; ActorToken := ""; ActorTokenType := ""; RequestedTokenType := "";
     DPoPProof := ""; Attestation := None; req_ExecutionScope := None |}.
Hypothesis decode_request : forall r body, enc_request r = Some body -> json_Decode body = Ok (decoded r).
Hypothesis decode_reply : forall resp, exists t, dec_response (enc_reply (Reply 200 resp)) None = Some t /\ tx_AccessToken t = AccessToken resp.

(** Only a success has the status 200. *)
Lemma reply_200 req s s' ms r :
  Api.Token.respond (Exchange.Exchange clock EncryptSecretBundle e) errorText req s = (s', ms, r) -> status r = 200 ->
  exists resp, r = Reply 200 resp /\ Exchange.Exchange clock EncryptSecretBundle e req s = (s', Ok resp).
Proof.
  unfold Api.Token.respond. destruct (Exchange.Exchange clock EncryptSecretBundle e req s) as [s1 [resp|err]].
  - intros [= <- _ <-] _. by exists resp.
  - intros [= _ _ <-]. unfold Api.Token.exchangeError. repeat case_match; cbn; by intros [=].
Qed.

(** The fabric's answers name no location, so they are not followed anywhere. *)
Lemma send_fabric method headers body w :
  send {| hr_Method := method; hr_URL := base +:+ "/v1/exchange/token"; hr_Headers := headers; hr_Body := body |} w =
  network {| hr_Method := method; hr_URL := base +:+ "/v1/exchange/token"; hr_Headers := headers; hr_Body := body |} w.
Proof using.
  set (req := {| hr_Method := method |}).
  assert (Hn : exists w' st b, network req w = (w', Ok {| hs_Status := st; hs_Headers := []; hs_Body := b; hs_Broken := None |})).
  { unfold network, req. cbn [hr_URL hr_Body]. rewrite String.eqb_refl.
    destruct (Api.Token.handleExchangeToken _ _ _ _ _ _ _ _) as [[s ms] r]. by eexists _, _, _. }
  destruct Hn as (w' & st & b & Hn). unfold http_Do. cbn [follow]. by rewrite Hn.
Qed.

Lemma acquired c resource caps w w' token :
  StarflyURL c = base ->
  AcquireToken send enc_request dec_response validURL c resource caps w = (w', Ok token) ->
  w'.2 = w.2 /\ exists resp, Exchange.Exchange clock EncryptSecretBundle e (decoded (exchangeRequest c resource caps)) w.1 = (w'.1, Ok resp) /\
    token = AccessToken resp.
Proof using decode_request decode_reply.
  intros Hbase. unfold AcquireToken. destruct (enc_request _) as [body|] eqn:He; [|done]. rewrite Hbase.
  destruct (validURL _); [|done]. cbn [negb]. rewrite send_fabric.
  unfold network at 1. cbn [hr_URL hr_Body]. rewrite String.eqb_refl.
  unfold Api.Token.handleExchangeToken. rewrite (decode_request _ _ He). change (str_nonempty "") with false. cbn iota.
  destruct (Api.Token.respond _ _ _ _) as [[s1 ms] r] eqn:Hr. cbn -[decoded exchangeRequest].
  destruct (Z.eqb_spec (status r) 200) as [H200|]; cbn [negb]; [|by intros [=]].
  destruct (reply_200 _ _ _ _ _ Hr H200) as (resp & -> & Hx). destruct (decode_reply resp) as (t & -> & Ht).
  intros [= <- <-]. split; [done|]. exists resp. by rewrite Ht.
Qed.

(** What a redirect may make of the request to a tool: the same body or none, no headers but the
    request's own and a referer, and the credential only on the site it was sent to. *)
Record redirected (first r : HttpRequest) : Prop := {
  rd_body : hr_Body r = hr_Body first \/ hr_Body r = "";
  rd_headers : forall h, h ∈ hr_Headers r -> h ∈ hr_Headers first \/ exists from, h ∈ referer from (hr_URL r);
  rd_credential : forall v, ("Authorization", v) ∈ hr_Headers r ->
    sameSite (hr_URL first) (hr_URL r) = true \/ exists from, ("Authorization", v) ∈ referer from (hr_URL r);
}.

Lemma redirectTo_redirected first last strip url method withBody :
  redirected first (redirectTo referer aboutBody first last (strip || negb (sameSite (hr_URL first) url)) url method withBody).
Proof using.
  constructor; cbn [redirectTo hr_Body hr_Headers hr_URL].
  - destruct withBody; [by left|by right].
  - intros h [[Hh _]%list_elem_of_In%filter_In|Hh]%elem_of_app; [left; by apply list_elem_of_In|right; eauto].
  - intros v [[_ Hf]%list_elem_of_In%filter_In|Hh]%elem_of_app; [|right; eauto]. left.
    cbn in Hf. destruct (sameSite _ _); [done|]. by rewrite orb_true_r in Hf.
Qed.

(** Following the answers of the tools, none of which leads back to the fabric. *)
Lemma follow_tools fuel first req strip w w' resp :
  (forall q a u, tools q = Ok a -> resolve (hr_URL q) (header "Location" (hs_Headers a)) = Some u -> u <> base +:+ "/v1/exchange/token") ->
  hr_URL req <> base +:+ "/v1/exchange/token" ->
  follow network resolve sameSite referer aboutBody fuel first req strip w = (w', Ok resp) ->
  w'.1 = w.1 /\ exists rest, w'.2 = w.2 ++ req :: rest /\ Forall (redirected first) rest.
Proof using.
  intros Hback. revert req strip w. induction fuel as [|fuel IH]; intros req strip w Hreq; cbn [follow];
    unfold network at 1; apply String.eqb_neq in Hreq as Hreq'; rewrite Hreq';
    (destruct (tools req) as [a|] eqn:Ha; [|done]); destruct (redirectBehavior _ a) as [[method wb]|].
  1: by destruct (resolve _ _).
  1,3: intros [= <- _]; split; [done|]; by exists [].
  - destruct (resolve _ _) as [url|] eqn:Hu; [|done]. intros Hf. apply IH in Hf as (Hq1 & rest & Hq2 & Hr).
    2:{ cbn. by eapply Hback. }
    cbn [fst snd] in Hq1, Hq2. split; [done|]. eexists (_ :: rest). split; [by rewrite Hq2, <- app_assoc|].
    apply Forall_cons. split; [apply redirectTo_redirected|done].
Qed.

(** C15: A tool is only ever sent a token made for it. When a call succeeds, the first request that leaves the
    fabric's side is a POST to the tool's URL with exactly the named headers (content type, bearer token, tool
    identifier, parent execution contexts) and the encoded tool name and parameters; any further one follows a
    redirect of the tool, has the same body or none, no other headers but a referer, and the credential only on
    the same site. The bearer token is one of the fabric's engine, whose audience is the tool's resource, whose
    subject is the identity of the client's own credential and which verifies under the fabric's keys while it
    is valid. So the client's own credential goes to the fabric only. The fabric is reached at the configured
    URL, the tool is not that URL and does not redirect to it. *)
Theorem tool_called_with_bound_token c req w w' resp ks :
  StarflyURL c = base -> rq_TargetURL req <> base +:+ "/v1/exchange/token" ->
  (forall q a u, tools q = Ok a -> resolve (hr_URL q) (header "Location" (hs_Headers a)) = Some u -> u <> base +:+ "/v1/exchange/token") ->
  PublicKeySet e = Some ks ->
  call c req w = (w', Ok resp) ->
  exists token payload n credType wi rest,
    enc_call (rq_ToolName req) (rq_Params req) = Some payload /\
    let first := {| hr_Method := "POST"; hr_URL := rq_TargetURL req;
                    hr_Headers := [("Content-Type", "application/json"); ("Authorization", "Bearer " +:+ token);
                                   ("X-MCP-Tool-ID", rq_ToolID req)]
                                  ++ map (fun ect => ("Execution-Context", ect)) (rq_ParentECTs req);
                    hr_Body := payload |} in
    w'.2 = w.2 ++ first :: rest /\ Forall (redirected first) rest /\
    authenticate e {| GrantType := "urn:ietf:params:oauth:grant-type:token-exchange"; SubjectToken := SourceToken c;
                      SubjectTokenType := SourceTokenType c; Audience := rq_ResourceURI req;
                      Scope := Join (rq_Capabilities req) " "; ActorToken := ""; ActorTokenType := "";
                      RequestedTokenType := ""; DPoPProof := ""; Attestation := None; req_ExecutionScope := None |}
      = Ok (credType, wi) /\
    during w.1 w'.1 n /\
    forall t1, clock n <= t1 -> t1 + Second <= clock n + tokenTTL e None ->
      exists tok, jwt_Parse ks t1 token = Some tok /\
        jwt_Audience tok = Some [rq_ResourceURI req] /\ jwt_Subject tok = Some (wi_ID wi).
Proof using All.
  intros Hbase Htarget Hback Hks. unfold CallTool.
  destruct (AcquireToken _ _ _ _ c _ _ w) as [w1 [token|]] eqn:Ha; [|done].
  apply acquired in Ha as (Hw2 & xr & Hx & ->); [|done].
  destruct (enc_call _ _) as [payload|]; [|done]. destruct (validURL _); [|done]. cbn [negb].
  destruct (send (toolRequest _ _ _) w1) as [w2 [hresp|]] eqn:Hsend; [|done].
  unfold http_Do in Hsend. apply follow_tools in Hsend as (Hs1 & rest & Hs2 & Hrest); [|done..].
  intros Heq. apply (f_equal fst) in Heq. cbn [fst] in Heq. subst w'. rewrite Hs1, Hs2, Hw2.
  apply Exchange_ok in Hx as (s1 & m & (d & dpop & now & t & Hi)%mint_ok & [Htick _] & Hresp).
  pose proof Hi as [(ct & Hau & _) _ _ _ _ _ Hsc _ (n & Hn & ->) _ _].
  exists (AccessToken xr), payload, n, ct, (m_workload m), rest. split; [done|]. split; [done|]. split; [done|].
  split; [by rewrite <- scopeOf_join|].
  split; [unfold during in *; lia|]. intros t1 Hn1 Hn2.
  destruct (issued_parses _ _ _ _ _ _ _ _ _ _ _ _ Hi Hks Hn1 ltac:(by rewrite Hsc)) as (tok & Hpt & [Hsub Haud] & _).
  exists tok. rewrite Hresp. split; [exact Hpt|]. by rewrite Hsub, Haud.
Qed.
End Fabric.

(** * A concrete call *)

#[local] Existing Instance JwtModel.lib.
#[local] Existing Instance JwtModel.laws.
#[local] Existing Instance DPoP.demo_jws.
#[local] Existing Instance key_order.

Definition demo_client : Client :=
  {| StarflyURL := "https://fabric"; SourceToken := "agent"; SourceTokenType := Exchange.subjectTokenTypeJWT |}.
Definition demo_call_request : CallToolRequest :=
  {| rq_ToolID := "t1"; rq_ToolName := "search"; rq_ResourceURI := "https://t1"; rq_Capabilities := ["read"; "list"]; rq_Params := ∅;
     rq_TargetURL := "https://tool"; rq_ParentECTs := ["ect1"] |}.
Definition demo_exchange_request : tokenExchangeRequest := exchangeRequest demo_client "https://t1" ["read"; "list"].
#[local] Instance tokenExchangeRequest_eq_dec : EqDecision tokenExchangeRequest.
Proof. solve_decision. Defined.
Definition demo_enc (r : tokenExchangeRequest) : option string := if decide (r = demo_exchange_request) then Some "request" else None.
Definition demo_dec (body : string) : result ApiCommon.BodyErr TokenExchangeRequest := Ok (decoded demo_exchange_request).
Definition demo_reply (r : ApiCommon.Response TokenExchangeResponse) : string :=
  match r with ApiCommon.Reply _ resp => AccessToken resp | ApiCommon.ErrorReply _ _ => "error" end.
Definition demo_token (body : string) (_ : option string) : option tokenExchangeResponse :=
  Some {| tx_AccessToken := body; tx_IssuedTokenType := ""; tx_TokenType := ""; tx_ExpiresIn := 0; tx_Scope := "" |}.
Definition demo_tools (r : HttpRequest) : result string HttpResponse := Ok {| hs_Status := if (hr_URL r =? "https://tool")%string then 307 else 200; hs_Headers := [("Location", "/v2")]; hs_Body := "{}"; hs_Broken := None |}.
Definition demo_resolve (url loc : string) : option string := Some "https://tool/v2".
Definition demo_network :=
  network ExchangeSpec.demo_clock ExchangeSpec.demo_encrypt (ExchangeSpec.demo_engine None) demo_dec (fun _ => Err "") (fun _ => "") (fun _ => "")
    demo_reply demo_tools "https://fabric".
Definition demo_call : Exchange.EState * list HttpRequest * result ClientErr CallToolResponse :=
  CallTool (http_Do demo_network demo_resolve (fun _ _ => true) (fun _ _ => []) (fun _ => false)) demo_enc demo_token (fun _ _ => Some "{}") (fun _ => None) (fun _ => true)
    demo_client demo_call_request (Exchange.initState, []).
Definition demo_answer : CallToolResponse :=
  match snd demo_call with
  | Ok r => r
  | Err _ => {| rp_StatusCode := 0; rp_Body := None; rp_RawBody := ""; rp_ECT := "" |}
  end.
Lemma demo_call_ok : demo_call = (fst demo_call, Ok demo_answer).
Proof.
  unfold demo_answer. assert (Hok : is_ok (snd demo_call) = true) by (vm_compute; reflexivity).
  destruct demo_call as [w [r|]]; [reflexivity|discriminate Hok].
Qed.
Lemma demo_enc_decodes r body : demo_enc r = Some body -> demo_dec body = Ok (decoded r).
Proof. unfold demo_enc. by destruct (decide (r = demo_exchange_request)) as [->|]. Qed.

Lemma demo_no_return q a u :
  demo_tools q = Ok a -> demo_resolve (hr_URL q) (header "Location" (hs_Headers a)) = Some u ->
  u <> "https://fabric" +:+ "/v1/exchange/token".
Proof. by intros _ [= <-]. Qed.

(** The tool redirects; the token it is sent has its resource as the audience. *)
Lemma tool_called_with_bound_token_witness :
  length (fst demo_call).2 = 2%nat /\
  exists token n first, head (fst demo_call).2 = Some first /\ ("Authorization", "Bearer " +:+ token) ∈ hr_Headers first /\
    hr_URL first = "https://tool" /\
    forall t1, ExchangeSpec.demo_clock n <= t1 -> t1 + Second <= ExchangeSpec.demo_clock n + 5 * Minute ->
      exists tok, jwt_Parse ExchangeSpec.demo_ks t1 token = Some tok /\ jwt_Audience tok = Some ["https://t1"].
Proof.
  split; [vm_compute; reflexivity|].
  destruct (tool_called_with_bound_token ExchangeSpec.demo_clock ExchangeSpec.demo_encrypt (ExchangeSpec.demo_engine None) demo_dec
    (fun _ => Err "") (fun _ => "") (fun _ => "") demo_reply demo_tools "https://fabric" demo_enc demo_token (fun _ _ => Some "{}")
    (fun _ => None) (fun _ => true) demo_resolve (fun _ _ => true) (fun _ _ => []) (fun _ => false)
    demo_enc_decodes (fun resp => ex_intro _ _ (conj eq_refl eq_refl)) demo_client demo_call_request
    (Exchange.initState, []) (fst demo_call) demo_answer ExchangeSpec.demo_ks)
    as (token & payload & n & ct & wi & rest & _ & Hs & _ & _ & _ & Ht);
    [reflexivity|discriminate|exact demo_no_return|reflexivity|exact demo_call_ok|].
  eexists token, n, _. rewrite Hs. split; [reflexivity|]. split; [right; left|]. split; [reflexivity|].
  intros t1 H1 H2. destruct (Ht t1 H1 H2) as (tok & Hp & Ha & _). exists tok. split; [exact Hp|exact Ha].
Defined.
End McpClient.
