(* ===== verification/AgentPlugin.v ===== *)
(** The client of agent identity plug-ins ([pkg/identity/agent/plugin]): the calls that are sent
    to a plug-in process, the circuit breaker around them, and the discovery of the configured
    plug-ins. The calls of several goroutines interleave at the two critical sections of the
    breaker; the network between them is a parameter. *)
From Stdlib Require Import ZArith Lia.
From stdpp Require Import base gmap strings list.
From S2P Require Import Prelude.
From S2P Require Import GoLib.
From S2P Require Import IdAgent.

#[local] Open Scope string_scope.
#[local] Open Scope list_scope.
#[local] Open Scope Z_scope.

Module AgentPlugin.
Import IdAgent.

(** The conversion to [int32] keeps the low 32 bits. *)
Definition int32 (z : Z) : Z := (z + 2147483648) mod 4294967296 - 2147483648.

(** The messages of [types.go] *)
Record IssueAgentIdentityRequest : Type := {
  g_AgentName : string; g_Platform : string; g_Capabilities : list string; g_OnBehalfOf : string;
  g_MaxBlastRadius : string; g_DelegationDepth : Z; g_Metadata : gmap string string;
}.
Record IssueAgentIdentityResponse : Type := {
  g_WorkloadID : string; g_SpiffeID : string; g_Token : string; g_ExpiresAtUnix : Z;
}.
Record RevokeIdentityRequest : Type := { g_IdentityID : string }.

Definition servicePath : string := "/starfly.identity.agent.plugin.v1.AgentIdentityPlugin/".
Definition methodIssue : string := servicePath +:+ "IssueAgentIdentity".
Definition methodRevoke : string := servicePath +:+ "RevokeIdentity".

(** [time.Unix(sec, 0)], from the zero time *)
Definition time_Unix (sec : Z) : Time := (sec + 62135596800) * Second.

(** * The client *)

Section Client.
(** A [grpc.ClientConn], and [grpc.NewClient] with its error *)
Context {Conn : Type}.
Variable grpc_NewClient : string -> result string Conn.

Record PluginClient : Type := {
  conn : Conn;
  timeout : Duration;
  failures : Z;
  maxFailures : Z;
  resetAfter : Duration;
  lastFailure : Time;
  tripped : bool;
}.

(** [ClientOption] *)
Inductive ClientOption : Type :=
| WithTimeout (d : Duration)
| WithCircuitBreaker (maxFailures : Z) (resetTimeout : Duration).
Definition applyOption (c : PluginClient) (o : ClientOption) : PluginClient :=
  {| conn := conn c;
     timeout := match o with WithTimeout d => d | _ => timeout c end;
     failures := failures c;
     maxFailures := match o with WithCircuitBreaker m _ => m | _ => maxFailures c end;
     resetAfter := match o with WithCircuitBreaker _ r => r | _ => resetAfter c end;
     lastFailure := lastFailure c; tripped := tripped c |}.

(** [newPluginClientWithConn] and [NewPluginClient]. The latter applies the options before it has
    a connection; they do not look at it. *)
Definition newPluginClientWithConn (cn : Conn) (opts : list ClientOption) : PluginClient :=
  foldl applyOption {| conn := cn; timeout := 5 * Second; failures := 0; maxFailures := 5; resetAfter := 30 * Second;
                       lastFailure := 0; tripped := false |} opts.
Definition NewPluginClient (addr : string) (opts : list ClientOption) : result string PluginClient :=
  match grpc_NewClient addr with
  | Err e => Err ("plugin: dialing " +:+ addr +:+ ": " +:+ e)
  | Ok cn => Ok (newPluginClientWithConn cn opts)
  end.

(** ** The circuit breaker: three critical sections *)

Inductive PluginErr : Type :=
| CircuitOpen (consecutive : Z)
| IssueRPC (e : string)
| RevokeRPC (e : string).

Definition with_breaker (c : PluginClient) (n : Z) (last : Time) (trip : bool) : PluginClient :=
  {| conn := conn c; timeout := timeout c; failures := n; maxFailures := maxFailures c; resetAfter := resetAfter c;
     lastFailure := last; tripped := trip |}.

(** [checkCircuit] at [now] *)
Definition checkCircuit (now : Time) : M PluginClient PluginErr unit := fun c =>
  if negb (tripped c) then (c, Ok tt)
  else if resetAfter c <? Sub now (lastFailure c) then (with_breaker c 0 (lastFailure c) false, Ok tt)
  else (c, Err (CircuitOpen (failures c))).
(** [recordFailure] at [now], [recordSuccess] *)
Definition recordFailure (now : Time) (c : PluginClient) : PluginClient :=
  with_breaker c (failures c + 1) now (if maxFailures c <=? failures c + 1 then true else tripped c).
Definition recordSuccess (c : PluginClient) : PluginClient := with_breaker c 0 (lastFailure c) false.

(** ** The calls

    [rpc] is what the connection makes of this call, [t0] and [t1] are the times of the two
    readings of the clock. *)

Definition issueRequest (req : AgentIdentityRequest) : IssueAgentIdentityRequest :=
  {| g_AgentName := AgentName req; g_Platform := Platform req; g_Capabilities := Capabilities req;
     g_OnBehalfOf := ar_OnBehalfOf req; g_MaxBlastRadius := ar_MaxBlastRadius req;
     g_DelegationDepth := int32 (ar_DelegationDepth req); g_Metadata := ar_Metadata req |}.

Definition IssueAgentIdentity
    (rpc : Conn -> Duration -> string -> IssueAgentIdentityRequest -> result string IssueAgentIdentityResponse)
    (t0 t1 : Time) (req : AgentIdentityRequest) : M PluginClient PluginErr AgentIdentity :=
  do _ <- checkCircuit t0 ;;
  fun c =>
  match rpc (conn c) (timeout c) methodIssue (issueRequest req) with
  | Err e => (recordFailure t1 c, Err (IssueRPC e))
  | Ok resp =>
      (recordSuccess c,
       Ok {| ai_WorkloadID := g_WorkloadID resp; ai_SpiffeID := g_SpiffeID resp; ai_Token := g_Token resp;
             ai_ExpiresAt := time_Unix (g_ExpiresAtUnix resp) |})
  end.

Definition RevokeIdentity
    (rpc : Conn -> Duration -> string -> RevokeIdentityRequest -> result string unit)
    (t0 t1 : Time) (identityID : string) : M PluginClient PluginErr unit :=
  do _ <- checkCircuit t0 ;;
  fun c =>
  match rpc (conn c) (timeout c) methodRevoke {| g_IdentityID := identityID |} with
  | Err e => (recordFailure t1 c, Err (RevokeRPC e))
  | Ok _ => (recordSuccess c, Ok tt)
  end.

(** [Close]; [conn_Close] is the outcome of closing the connection. *)
Definition Close (conn_Close : Conn -> option string) (c : PluginClient) : option string := conn_Close (conn c).

(** * Discovery ([discovery.go]): the connections opened survive an error *)

Record PluginEndpoint : Type := { Address : string; ep_Platform : string }.
Inductive DiscoverErr : Type :=
| MissingField (ep : PluginEndpoint)
| Connecting (platform addr : string) (e : string).

Fixpoint discoverLoop (opts : list ClientOption) (eps : list PluginEndpoint) (providers : gmap string PluginClient)
    : M (list Conn) DiscoverErr (gmap string PluginClient) :=
  match eps with
  | [] => st_ret providers
  | ep :: eps' => fun opened =>
      if (Address ep =? "")%string || (ep_Platform ep =? "")%string then (opened, Err (MissingField ep)) else
      match NewPluginClient (Address ep) opts with
      | Err e => (opened, Err (Connecting (ep_Platform ep) (Address ep) e))
      | Ok c => discoverLoop opts eps' (<[ep_Platform ep := c]> providers) (opened ++ [conn c])
      end
  end.
Definition DiscoverPlugins (opts : list ClientOption) (eps : list PluginEndpoint)
    : M (list Conn) DiscoverErr (gmap string PluginClient) := discoverLoop opts eps ∅.

(** * The breaker under concurrent calls

    At most [workers] goroutines call at a time. A call is sent when its check passes; later, when
    the reply or the error is there, it is recorded. *)

Inductive Event : Type :=
| Sent (t : Time)
| Refused (t : Time) (consecutive : Z)
| Succeeded (t : Time)
| Failed (t : Time).

Record Sys : Type := { client : PluginClient; inflight : nat; now : Time; log : list Event }.

Variable workers : nat.

Inductive step : Sys -> Sys -> Prop :=
| step_send c c' n t0 t l : t0 <= t -> (n < workers)%nat -> checkCircuit t c = (c', Ok tt) ->
    step {| client := c; inflight := n; now := t0; log := l |}
         {| client := c'; inflight := S n; now := t; log := l ++ [Sent t] |}
| step_refuse c c' n t0 t l k : t0 <= t -> (n < workers)%nat -> checkCircuit t c = (c', Err (CircuitOpen k)) ->
    step {| client := c; inflight := n; now := t0; log := l |}
         {| client := c'; inflight := n; now := t; log := l ++ [Refused t k] |}
| step_success c n t0 t l : t0 <= t ->
    step {| client := c; inflight := S n; now := t0; log := l |}
         {| client := recordSuccess c; inflight := n; now := t; log := l ++ [Succeeded t] |}
| step_failure c n t0 t l : t0 <= t ->
    step {| client := c; inflight := S n; now := t0; log := l |}
         {| client := recordFailure t c; inflight := n; now := t; log := l ++ [Failed t] |}.

Definition start (cn : Conn) (opts : list ClientOption) : Sys :=
  {| client := newPluginClientWithConn cn opts; inflight := 0; now := 0; log := [] |}.

(** ** Facts of the breaker *)

(** How many consecutive failures open it: at least one, also when fewer are configured *)
Definition threshold (c : PluginClient) : Z := Z.max 1 (maxFailures c).
Definition isSent (w : Time) (e : Event) : bool := match e with Sent t => w <=? t | _ => false end.
Definition isSucceeded (w : Time) (e : Event) : bool := match e with Succeeded t => w <=? t | _ => false end.
Definition isFailed (e : Event) : bool := match e with Failed _ => true | _ => false end.
Definition sentSince (w : Time) (l : list Event) : nat := length (filter (fun e => isSent w e = true) l).
Definition failedIn (l : list Event) : nat := length (filter (fun e => isFailed e = true) l).
#[local] Arguments failedIn : simpl never.
#[local] Arguments sentSince : simpl never.

(** Configuration is fixed, and the breaker is open exactly when the count is at the threshold. *)
Definition breaker_ok (m : Z) (r : Duration) (c : PluginClient) : Prop :=
  maxFailures c = m /\ resetAfter c = r /\ 0 <= failures c /\
  (tripped c = true <-> Z.max 1 m <= failures c).

Lemma Sub_gt t u d : minDuration <= d -> d < Sub t u -> d < t - u.
Proof using. unfold Sub. lia. Qed.
Lemma Sub_le t u d : d < maxDuration -> Sub t u <= d -> t - u <= d.
Proof using. unfold Sub. lia. Qed.

(** What a check that passes leaves: the breaker as it was, or closed and its count cleared after
    the reset period. *)
Lemma check_passes t c c' : minDuration <= resetAfter c -> checkCircuit t c = (c', Ok tt) ->
  tripped c' = false /\
  (c' = c \/ tripped c = true /\ resetAfter c < t - lastFailure c /\ c' = with_breaker c 0 (lastFailure c) false).
Proof using.
  unfold checkCircuit. intros Hr H. destruct (tripped c) eqn:Et; cbn in H; [|naive_solver].
  destruct (Z.ltb_spec (resetAfter c) (Sub t (lastFailure c))) as [Hlt|]; simplify_eq. split; [done|].
  right. split; [done|]. split; [|done]. by apply Sub_gt.
Qed.

Lemma check_refuses t c c' k : checkCircuit t c = (c', Err (CircuitOpen k)) ->
  c' = c /\ tripped c = true /\ Sub t (lastFailure c) <= resetAfter c /\ k = failures c.
Proof using.
  unfold checkCircuit. intros H. destruct (tripped c) eqn:Et; cbn in H; [|done].
  destruct (Z.ltb_spec (resetAfter c) (Sub t (lastFailure c))); naive_solver.
Qed.

Lemma check_conn t c c' r : checkCircuit t c = (c', r) -> conn c' = conn c /\ timeout c' = timeout c.
Proof using. unfold checkCircuit. intros H. repeat case_match; simplify_eq; done. Qed.

Lemma breaker_ok_check m r t c : breaker_ok m r c -> breaker_ok m r (fst (checkCircuit t c)).
Proof using.
  intros (?&?&?&Ht). unfold checkCircuit. destruct (tripped c) eqn:E; cbn; [|unfold breaker_ok; by rewrite E].
  destruct (_ <? _); cbn; [|unfold breaker_ok; by rewrite E].
  repeat split; cbn; try done. intros; lia.
Qed.
Lemma breaker_ok_success m r c : breaker_ok m r c -> breaker_ok m r (recordSuccess c).
Proof using. intros (?&?&?&?). repeat split; cbn; try done. intros; lia. Qed.
Lemma breaker_ok_failure m r t c : breaker_ok m r c -> breaker_ok m r (recordFailure t c).
Proof using.
  intros (Hm&?&?&Ht). unfold recordFailure. rewrite Hm.
  repeat split; cbn; try done; try lia; destruct (Z.leb_spec m (failures c + 1)); try done; try lia.
  rewrite Ht. lia.
Qed.

(** A new client is closed and has counted nothing. *)
Lemma new_closed cn opts :
  failures (newPluginClientWithConn cn opts) = 0 /\ tripped (newPluginClientWithConn cn opts) = false.
Proof using.
  unfold newPluginClientWithConn. generalize (5 * Second) 5 (30 * Second). intros a b d.
  set (c0 := {| conn := cn |}). assert (failures c0 = 0 /\ tripped c0 = false) as H0 by done. clearbody c0.
  revert c0 H0. induction opts as [|o opts IH]; intros c0 [? ?]; cbn; [done|]. by apply IH.
Qed.

Lemma breaker_ok_new cn opts : let c := newPluginClientWithConn cn opts in
  breaker_ok (maxFailures c) (resetAfter c) c.
Proof using.
  cbn zeta. destruct (new_closed cn opts) as [Hf Ht]. unfold breaker_ok. rewrite Hf, Ht.
  repeat split; try done; lia.
Qed.

(** ** At most [threshold + workers - 1] calls per reset period reach a failing plug-in *)

(** Calls sent since [w] and within the reset period of [w] are in flight or counted. *)
Definition window_inv (m : Z) (r : Duration) (w : Time) (s : Sys) : Prop :=
  breaker_ok m r (client s) /\ (inflight s <= workers)%nat /\
  (Forall (fun e => isSucceeded w e = false) (log s) -> now s <= w + r ->
    Z.of_nat (sentSince w (log s)) <= failures (client s) + Z.of_nat (inflight s) /\
    Z.of_nat (sentSince w (log s)) <= Z.max 1 m - 1 + Z.of_nat workers /\
    ((0 < sentSince w (log s))%nat -> w <= now s /\ (tripped (client s) = true -> w <= lastFailure (client s)))).

Lemma sentSince_snoc w l e : sentSince w (l ++ [e]) = (sentSince w l + if isSent w e then 1 else 0)%nat.
Proof using.
  unfold sentSince. rewrite filter_app, length_app. f_equal.
  destruct (isSent w e) eqn:E; [rewrite filter_cons_True | rewrite filter_cons_False]; cbn; congruence.
Qed.

Lemma window_inv_step m r w s s' : 0 <= r ->
  window_inv m r w s -> step s s' -> window_inv m r w s'.
Proof using.
  intros Hr (Hok & Hin & Hw) Hstep. assert (minDuration <= r) as Hmin by (unfold minDuration; lia).
  destruct Hstep as [c c' n t0 t l Ht Hn Hck|c c' n t0 t l k Ht Hn Hck|c n t0 t l Ht|c n t0 t l Ht]; unfold window_inv; cbn -[sentSince Z.add Z.max] in *;
    (split; [|split; [lia|]]).
  - change c' with (fst (c', @Ok PluginErr unit tt)). rewrite <- Hck. by apply breaker_ok_check.
  - rewrite Forall_app, sentSince_snoc, Forall_singleton. cbn -[sentSince Z.add Z.max]. intros [HF _] Hnow.
    destruct (Hw HF ltac:(lia)) as (H1 & H2 & H3). destruct Hok as (Hm & Hreset & Hpos & Htrip).
    destruct (check_passes t c c' ltac:(by rewrite Hreset) Hck) as (Hopen & [->|(Htr & Hlate & ->)]); cbn -[sentSince Z.add Z.max].
    + assert (failures c < Z.max 1 m) by (destruct (Z.lt_ge_cases (failures c) (Z.max 1 m)); [done|];
        rewrite (proj2 Htrip) in Hopen; done).
      destruct (Z.leb_spec w t); split_and!; try lia; intros Hs; (split; [lia|congruence]).
    + assert (sentSince w l = 0%nat) as ->.
      { destruct (sentSince w l) eqn:E; [done|]. destruct H3 as [_ H3]; [lia|]. specialize (H3 Htr). lia. }
      destruct (Z.leb_spec w t); split_and!; try lia; done.
  - change c' with (fst (c', @Err PluginErr unit (CircuitOpen k))). rewrite <- Hck. by apply breaker_ok_check.
  - rewrite Forall_app, sentSince_snoc. cbn -[sentSince Z.add Z.max]. intros [HF _] Hnow. apply check_refuses in Hck as (-> & _).
    destruct (Hw HF ltac:(lia)) as (? & ? & H3). rewrite Nat.add_0_r.
    split_and!; [done..|]. intros Hs. destruct (H3 Hs). split; [lia|done].
  - by apply breaker_ok_success.
  - rewrite Forall_app, Forall_singleton, sentSince_snoc. cbn -[sentSince Z.add Z.max]. intros [HF HE] Hnow. apply Z.leb_gt in HE.
    destruct (Hw HF ltac:(lia)) as (H1 & H2 & H3). rewrite Nat.add_0_r.
    assert (sentSince w l = 0%nat) as -> by (destruct (sentSince w l); [done|destruct H3; lia]).
    split_and!; lia.
  - by apply breaker_ok_failure.
  - rewrite Forall_app, sentSince_snoc. cbn -[sentSince Z.add Z.max]. intros [HF _] Hnow.
    destruct (Hw HF ltac:(lia)) as (? & ? & H3). rewrite Nat.add_0_r.
    split_and!; [lia|done|]. intros Hs. destruct (H3 Hs). split; [lia|]. intros _. lia.
Qed.

Lemma rtc_preserves (P : Sys -> Prop) s s' :
  (forall x y, P x -> step x y -> P y) -> P s -> rtc step s s' -> P s'.
Proof using. intros Hp Hs Hr. induction Hr; eauto. Qed.

Lemma window_inv_start w cn opts : let c := newPluginClientWithConn cn opts in
  window_inv (maxFailures c) (resetAfter c) w (start cn opts).
Proof using.
  split; [apply breaker_ok_new|]. cbn -[newPluginClientWithConn Z.max]. split; [lia|]. intros _ _.
  destruct (breaker_ok_new cn opts) as (_ & _ & Hf & _). cbn zeta in Hf. change (sentSince w []) with O. split_and!; lia.
Qed.

(** C24: While a plug-in fails, the breaker bounds the load on it: whatever calls interleave, with
    [workers] goroutines calling, no span of the length of the reset period in which no call
    succeeded has more than [threshold + workers - 1] calls sent, with the threshold of the
    configuration the client was made with. *)
Theorem breaker_bounds_load (cn : Conn) (opts : list ClientOption) (s : Sys) (w : Time) :
  let c := newPluginClientWithConn cn opts in
  0 <= resetAfter c ->
  rtc step (start cn opts) s ->
  now s <= w + resetAfter c ->
  Forall (fun e => isSucceeded w e = false) (log s) ->
  Z.of_nat (sentSince w (log s)) <= threshold c - 1 + Z.of_nat workers.
Proof using.
  cbn zeta. intros Hr Hrun Hnow HF.
  assert (window_inv (maxFailures (newPluginClientWithConn cn opts)) (resetAfter (newPluginClientWithConn cn opts)) w s)
    as (_ & _ & Hw).
  { eapply rtc_preserves; [|apply window_inv_start|exact Hrun]. eauto using window_inv_step. }
  by apply Hw.
Qed.

(** ** Calls are refused only after that many consecutive failures *)

(** The last outcomes before a refusal at [t]: [k] failures and no success, the last failure within
    the reset period. *)
Definition justified (m : Z) (r : Duration) (l : list Event) (t : Time) (k : Z) : Prop :=
  exists p q u q', l = p ++ q ++ Failed u :: q' /\
    Forall (fun e => forall x, e <> Succeeded x) (q ++ Failed u :: q') /\ failedIn q' = O /\
    Z.of_nat (failedIn (q ++ [Failed u])) = k /\ Z.max 1 m <= k /\ t - u <= r.

Definition streak_inv (m : Z) (r : Duration) (s : Sys) : Prop :=
  breaker_ok m r (client s) /\
  (exists p q, log s = p ++ q /\ Forall (fun e => forall x, e <> Succeeded x) q /\
    Z.of_nat (failedIn q) = failures (client s) /\
    (0 < failures (client s) ->
      exists q1 q2, q = q1 ++ Failed (lastFailure (client s)) :: q2 /\ failedIn q2 = O)) /\
  (forall l1 t k l2, log s = l1 ++ Refused t k :: l2 -> justified m r l1 t k).

Lemma failedIn_app l1 l2 : failedIn (l1 ++ l2) = (failedIn l1 + failedIn l2)%nat.
Proof using. unfold failedIn. by rewrite filter_app, length_app. Qed.

Lemma failedIn_cons e l : failedIn (e :: l) = ((if isFailed e then 1 else 0) + failedIn l)%nat.
Proof using.
  unfold failedIn. destruct (isFailed e) eqn:E; [by rewrite filter_cons_True|rewrite filter_cons_False; [done|congruence]].
Qed.
Lemma failedIn_nil : failedIn [] = O.
Proof using. reflexivity. Qed.

Lemma snoc_split {A} (l l1 l2 : list A) (e x : A) : l ++ [e] = l1 ++ x :: l2 ->
  (l2 = [] /\ e = x /\ l = l1) \/ exists l2', l2 = l2' ++ [e] /\ l = l1 ++ x :: l2'.
Proof using.
  destruct l2 as [|y l2' _] using rev_ind; intros H.
  - apply app_inj_tail in H. naive_solver.
  - rewrite app_comm_cons, app_assoc in H. apply app_inj_tail in H as [-> ->]. eauto.
Qed.

(** An event that is not a refusal adds no refusal to the log. *)
Lemma refusals_snoc m r l e : (forall t k, e <> Refused t k) ->
  (forall l1 t k l2, l = l1 ++ Refused t k :: l2 -> justified m r l1 t k) ->
  forall l1 t k l2, l ++ [e] = l1 ++ Refused t k :: l2 -> justified m r l1 t k.
Proof using. intros He Hl l1 t k l2 H. apply snoc_split in H as [(_ & -> & _)|(? & _ & ?)]; naive_solver. Qed.

Lemma streak_inv_step m r s s' : 0 <= r < maxDuration -> streak_inv m r s -> step s s' -> streak_inv m r s'.
Proof using.
  intros Hr (Hok & (p & q & Hlog & Hns & Hcnt & Hlast) & Href) Hstep.
  assert (minDuration <= r) as Hmin by (unfold minDuration; lia).
  destruct Hstep as [c c' n t0 t l Ht Hn Hck|c c' n t0 t l k Ht Hn Hck|c n t0 t l Ht|c n t0 t l Ht];
    unfold streak_inv; cbn -[Z.max Z.add] in *; subst l.
  - split; [change c' with (fst (c', @Ok PluginErr unit tt)); rewrite <- Hck; by apply breaker_ok_check|].
    split; [|by apply refusals_snoc].
    destruct Hok as (_ & Hreset & _).
    destruct (check_passes t c c' ltac:(by rewrite Hreset) Hck) as (_ & [->|(_ & _ & ->)]).
    + exists p, (q ++ [Sent t]). rewrite <- app_assoc. split; [done|]. rewrite Forall_app, Forall_singleton, failedIn_app, failedIn_cons, failedIn_nil.
      split; [done|]. split; [cbn; lia|]. intros Hf. destruct (Hlast Hf) as (q1 & q2 & -> & H0).
      exists q1, (q2 ++ [Sent t]). rewrite <- app_assoc, failedIn_app, failedIn_cons, failedIn_nil. cbn. by rewrite H0.
    + exists ((p ++ q) ++ [Sent t]), []. rewrite app_nil_r. repeat split; cbn; [constructor|lia].
  - split; [change c' with (fst (c', @Err PluginErr unit (CircuitOpen k))); rewrite <- Hck; by apply breaker_ok_check|].
    apply check_refuses in Hck as (-> & Htr & Hsub & ->). destruct Hok as (_ & Hreset & _ & Htrip). split.
    + exists p, (q ++ [Refused t (failures c)]). rewrite <- app_assoc. split; [done|].
      rewrite Forall_app, Forall_singleton, failedIn_app, failedIn_cons, failedIn_nil. split; [done|]. split; [cbn; lia|].
      intros Hf. destruct (Hlast Hf) as (q1 & q2 & -> & H0).
      exists q1, (q2 ++ [Refused t (failures c)]). rewrite <- app_assoc, failedIn_app, failedIn_cons, failedIn_nil. cbn. by rewrite H0.
    + intros l1 t' k' l2 H. apply snoc_split in H as [(_ & [= <- <-] & <-)|(? & _ & ?)]; [|by eapply Href].
      apply Htrip in Htr. destruct Hlast as (q1 & q2 & -> & H0); [lia|].
      exists p, q1, (lastFailure c), q2. split; [done|]. split; [done|]. split; [done|].
      rewrite failedIn_app, failedIn_cons in *. rewrite failedIn_nil. cbn in *.
      split; [lia|]. split; [done|]. apply Sub_le; lia.
  - split; [by apply breaker_ok_success|]. split; [|by apply refusals_snoc].
    exists ((p ++ q) ++ [Succeeded t]), []. rewrite app_nil_r. repeat split; cbn; [constructor|lia].
  - split; [by apply breaker_ok_failure|]. split; [|by apply refusals_snoc].
    exists p, (q ++ [Failed t]). rewrite <- app_assoc. split; [done|]. rewrite Forall_app, Forall_singleton, failedIn_app, failedIn_cons, failedIn_nil.
    split; [done|]. split; [cbn; lia|]. intros _. by exists q, [].
Qed.

Lemma streak_inv_start cn opts : let c := newPluginClientWithConn cn opts in
  streak_inv (maxFailures c) (resetAfter c) (start cn opts).
Proof using.
  split; [apply breaker_ok_new|]. split; [|intros [] ????; done].
  exists [], []. cbn -[newPluginClientWithConn]. rewrite (proj1 (new_closed cn opts)).
  repeat split; [constructor|lia].
Qed.

(** The breaker refuses no call without cause: a call refused at [t] with the count [k] in its
    message comes after [k] failures with no success between them, at least as many as
    configured, the last of them no longer ago than the reset period. *)
Theorem refusals_follow_failures (cn : Conn) (opts : list ClientOption) (s : Sys) l1 t k l2 :
  let c := newPluginClientWithConn cn opts in
  0 <= resetAfter c < maxDuration ->
  rtc step (start cn opts) s ->
  log s = l1 ++ Refused t k :: l2 ->
  justified (maxFailures c) (resetAfter c) l1 t k.
Proof using.
  cbn zeta. intros Hr Hrun.
  assert (streak_inv (maxFailures (newPluginClientWithConn cn opts)) (resetAfter (newPluginClientWithConn cn opts)) s)
    as (_ & _ & Hw); [|by apply Hw].
  eapply rtc_preserves; [|apply streak_inv_start|exact Hrun]. eauto using streak_inv_step.
Qed.

(** ** The calls as steps, and what they return *)

(** A call that ran to its end is a check, and after a check that passed the record of its outcome. *)
Lemma call_steps {A} (call : M PluginClient PluginErr A) t0 t1 s :
  (forall c, fst (call c) = match checkCircuit t0 c with
                            | (c', Ok _) => if is_ok (snd (call c)) then recordSuccess c' else recordFailure t1 c'
                            | (c', Err _) => c'
                            end) ->
  now s <= t0 -> t0 <= t1 -> (inflight s < workers)%nat ->
  exists s', rtc step s s' /\ client s' = fst (call (client s)) /\ inflight s' = inflight s /\ now s' <= t1.
Proof using.
  destruct s as [c n u l]; cbn. intros Hc Hu Ht Hn. rewrite Hc.
  destruct (checkCircuit t0 c) as [c' [[]|[k|e|e]]] eqn:Hck.
  2: { eexists. split; [apply rtc_once; by eapply (step_refuse _ _ _ _ t0)|]. cbn. auto with lia. }
  2-3: unfold checkCircuit in Hck; repeat case_match; simplify_eq.
  destruct (is_ok (snd (call c))); eexists;
    (split; [eapply rtc_l; [by eapply (step_send _ _ _ _ t0)|apply rtc_once]|]).
  - by apply (step_success _ _ _ t1).
  - cbn. auto with lia.
  - by apply (step_failure _ _ _ t1).
  - cbn. auto with lia.
Qed.

(** The two calls of a client are runs of the interleaving the breaker is proved for: the
    client a call leaves is the one some steps of a single goroutine lead to, and the call is not
    in flight any more. *)
Theorem calls_are_steps rpcI rpcR (t0 t1 : Time) (req : AgentIdentityRequest) (id : string) (s : Sys) :
  now s <= t0 -> t0 <= t1 -> (inflight s < workers)%nat ->
  (exists s', rtc step s s' /\ client s' = fst (IssueAgentIdentity rpcI t0 t1 req (client s)) /\
              inflight s' = inflight s /\ now s' <= t1) /\
  (exists s', rtc step s s' /\ client s' = fst (RevokeIdentity rpcR t0 t1 id (client s)) /\
              inflight s' = inflight s /\ now s' <= t1).
Proof using.
  intros Hu Ht Hn. split.
  - apply (call_steps (IssueAgentIdentity rpcI t0 t1 req) t0); [|done..]. intros c.
    unfold IssueAgentIdentity, st_bind. destruct (checkCircuit t0 c) as [c' [[]|e]]; [|done].
    by destruct (rpcI _ _ _ _).
  - apply (call_steps (RevokeIdentity rpcR t0 t1 id) t0); [|done..]. intros c.
    unfold RevokeIdentity, st_bind. destruct (checkCircuit t0 c) as [c' [[]|e]]; [|done].
    by destruct (rpcR _ _ _ _).
Qed.

Lemma int32_id z : - 2147483648 <= z < 2147483648 -> int32 z = z.
Proof using. intros. unfold int32. rewrite Z.mod_small; lia. Qed.

Lemma Unix_time_Unix sec : Unix (time_Unix sec) = sec.
Proof using. unfold Unix, time_Unix. rewrite Z.div_mul by done. lia. Qed.

(** An identity a client returns is the plug-in's answer to the very request, when the
    delegation depth fits 32 bits: no field is added or lost, the expiry denotes the second the
    plug-in named, and the breaker is closed with its count cleared. *)
Theorem issued_identity_is_plugins rpc (t0 t1 : Time) (req : AgentIdentityRequest) (c c' : PluginClient) (id : AgentIdentity) :
  IssueAgentIdentity rpc t0 t1 req c = (c', Ok id) ->
  (exists sent resp,
    rpc (conn c) (timeout c) methodIssue sent = Ok resp /\
    (- 2147483648 <= ar_DelegationDepth req < 2147483648 ->
      req = {| AgentName := g_AgentName sent; Platform := g_Platform sent; Capabilities := g_Capabilities sent;
               ar_OnBehalfOf := g_OnBehalfOf sent; ar_MaxBlastRadius := g_MaxBlastRadius sent;
               ar_Metadata := g_Metadata sent; ar_DelegationDepth := g_DelegationDepth sent |}) /\
    ai_WorkloadID id = g_WorkloadID resp /\ ai_SpiffeID id = g_SpiffeID resp /\ ai_Token id = g_Token resp /\
    Unix (ai_ExpiresAt id) = g_ExpiresAtUnix resp) /\
  tripped c' = false /\ failures c' = 0.
Proof using.
  unfold IssueAgentIdentity. intros H. apply st_bind_ok in H as (c1 & [] & Hck & H).
  apply check_conn in Hck as [Hcn Htm]. rewrite Hcn, Htm in H.
  destruct (rpc _ _ _ _) as [resp|] eqn:Hrpc; simplify_eq. split; [|done].
  exists (issueRequest req), resp. split; [done|].
  split; [|split; [done|split; [done|split; [done|apply Unix_time_Unix]]]].
  intros Hd. destruct req. cbn in *. by rewrite int32_id.
Qed.

(** While the breaker is open, the plug-in has no part in the answer. *)
Lemma open_breaker_calls_nothing rpcI rpcR t0 t1 req id c :
  tripped c = true -> Sub t0 (lastFailure c) <= resetAfter c ->
  IssueAgentIdentity rpcI t0 t1 req c = (c, Err (CircuitOpen (failures c))) /\
  RevokeIdentity rpcR t0 t1 id c = (c, Err (CircuitOpen (failures c))).
Proof using.
  intros Ht Hs. unfold IssueAgentIdentity, RevokeIdentity, st_bind, checkCircuit.
  rewrite Ht. cbn. by rewrite (proj2 (Z.ltb_ge _ _) Hs).
Qed.

(** ** Discovery *)

(** The client of an endpoint *)
Definition client_of (opts : list ClientOption) (ep : PluginEndpoint) (c : PluginClient) : Prop :=
  Address ep <> "" /\ ep_Platform ep <> "" /\ NewPluginClient (Address ep) opts = Ok c.

Lemma discover_steps opts eps ps opened opened' r : discoverLoop opts eps ps opened = (opened', r) ->
  exists done todo cs, eps = done ++ todo /\ Forall2 (client_of opts) done cs /\ opened' = opened ++ (conn <$> cs) /\
    match r with
    | Ok m => todo = [] /\ m = foldl (fun m x => <[ep_Platform (fst x) := snd x]> m) ps (zip done cs)
    | Err _ => exists ep rest, todo = ep :: rest /\ forall c, ~ client_of opts ep c
    end.
Proof using.
  revert ps opened. induction eps as [|ep eps IH]; intros ps opened H; cbn in H.
  - unfold st_ret in H. simplify_eq. exists [], [], []. cbn. rewrite app_nil_r. auto.
  - destruct ((Address ep =? "")%string || (ep_Platform ep =? "")%string) eqn:Hb.
    { simplify_eq. exists [], (ep :: eps), []. cbn. rewrite app_nil_r. repeat split; auto. eexists _, _. split; [done|].
      intros c (? & ? & _). apply orb_true_iff in Hb as [Hb|Hb]; by apply String.eqb_eq in Hb. }
    apply orb_false_iff in Hb as [Ha Hp]. apply String.eqb_neq in Ha, Hp.
    destruct (NewPluginClient (Address ep) opts) as [c|e] eqn:Hc.
    + apply IH in H as (dn & todo & cs & -> & HF & -> & Hr). exists (ep :: dn), todo, (c :: cs). cbn.
      rewrite <- app_assoc. split; [done|]. split; [by constructor|]. split; [done|]. exact Hr.
    + simplify_eq. exists [], (ep :: eps), []. cbn. rewrite app_nil_r. repeat split; auto. eexists _, _. split; [done|].
      intros c (_ & _ & ?). congruence.
Qed.

Lemma foldl_insert_lookup (l : list (PluginEndpoint * PluginClient)) (m : gmap string PluginClient) p c :
  foldl (fun m x => <[ep_Platform (fst x) := snd x]> m) m l !! p = Some c <->
  (exists l1 ep l2, l = l1 ++ (ep, c) :: l2 /\ ep_Platform ep = p /\ Forall (fun x => ep_Platform (fst x) <> p) l2) \/
  m !! p = Some c /\ Forall (fun x => ep_Platform (fst x) <> p) l.
Proof using.
  revert m. induction l as [|[ep c0] l IH] using rev_ind; intros m.
  - cbn. split; [by right|]. intros [([] & ? & ? & ? & _)|[? _]]; done.
  - rewrite foldl_app. cbn. rewrite lookup_insert_Some, IH, Forall_app, Forall_singleton. cbn. clear IH. split.
    + intros [[<- <-]|[Hne [(l1 & ep' & l2 & -> & Hp & HF)|[Hm HF]]]].
      * left. by exists l, ep, [].
      * left. exists l1, ep', (l2 ++ [(ep, c0)]). rewrite <- app_assoc. split; [done|]. split; [done|].
        by rewrite Forall_app, Forall_singleton.
      * by right.
    + intros [(l1 & ep' & l2 & Hl & Hp & HF)|(? & ? & ?)]; [|by right; split; [|right]].
      apply snoc_split in Hl as [(-> & [= -> ->] & ->)|(l2' & -> & ->)]; [by left|].
      rewrite Forall_app, Forall_singleton in HF. right. split; [apply HF|]. left.
      exists l1, ep', l2'. split_and!; [done..|apply HF].
Qed.

(** A discovery that succeeds gives a platform the client of the last endpoint configured for
    it, and one connection per endpoint is open. One that fails names an endpoint without a client
    and leaves the connections of all endpoints before it open, with nothing that refers to them. *)
Theorem discovery_outcome (opts : list ClientOption) (eps : list PluginEndpoint) (opened opened' : list Conn) r :
  DiscoverPlugins opts eps opened = (opened', r) ->
  match r with
  | Ok m =>
      length opened' = (length opened + length eps)%nat /\
      forall p c, m !! p = Some c <->
        exists e1 ep e2, eps = e1 ++ ep :: e2 /\ ep_Platform ep = p /\ client_of opts ep c /\
                         Forall (fun x => ep_Platform x <> p) e2
  | Err _ =>
      exists e1 ep e2, eps = e1 ++ ep :: e2 /\ (forall c, ~ client_of opts ep c) /\
                       length opened' = (length opened + length e1)%nat
  end.
Proof using.
  intros H. apply discover_steps in H as (dn & todo & cs & Heps & HF & -> & Hr).
  assert (length (opened ++ (conn <$> cs)) = (length opened + length dn)%nat) as Hlen
    by (rewrite length_app, length_fmap; by rewrite (Forall2_length _ _ _ HF)).
  destruct r as [m|e]; [|destruct Hr as (ep & rest & -> & Hno); by exists dn, ep, rest].
  destruct Hr as [-> ->]. rewrite app_nil_r in Heps. subst dn. split; [exact Hlen|].
  intros p c. rewrite foldl_insert_lookup, lookup_empty. split.
  - intros [(l1 & ep & l2 & Hz & Hp & Hl2)|[? _]]; [|done].
    assert (eps = (zip eps cs).*1) as He by (symmetry; apply fst_zip; rewrite (Forall2_length _ _ _ HF); lia).
    exists l1.*1, ep, l2.*1. rewrite He at 1. rewrite Hz, fmap_app. cbn. split; [done|]. split; [done|].
    rewrite Forall_fmap. split; [|exact Hl2].
    assert ((ep, c) ∈ zip eps cs) as Hin by (rewrite Hz; set_solver).
    apply list_elem_of_lookup in Hin as (i & [He1 Hc1]%lookup_zip_Some).
    exact (Forall2_lookup_lr _ _ _ _ _ _ HF He1 Hc1).
  - intros (e1 & ep & e2 & -> & Hp & Hc & He2). left.
    apply Forall2_app_inv_l in HF as (c1 & c2 & H1 & H2 & ->). inversion H2 as [|? c' ? c2' Hc' H2' Ha Hb]; subst.
    assert (c' = c) as -> by (destruct Hc as (_ & _ & ?), Hc' as (_ & _ & ?); congruence).
    rewrite zip_with_app by (by apply Forall2_length in H1). cbn. eexists _, _, _. split; [done|]. split; [done|].
    apply (Forall_fmap fst (fun x => ep_Platform x <> ep_Platform ep)). rewrite fst_zip by (apply Forall2_length in H2'; lia). exact He2.
Qed.

End Client.

(** * Evaluation *)

Definition demo_client : PluginClient := newPluginClientWithConn tt [WithCircuitBreaker 2 (10 * Second)].
Definition demo_req (depth : Z) : AgentIdentityRequest :=
  {| AgentName := "bot"; Platform := "custom"; Capabilities := ["read"]; ar_OnBehalfOf := ""; ar_MaxBlastRadius := "";
     ar_Metadata := ∅; ar_DelegationDepth := depth |}.
Definition rpc_down (_ : unit) (_ : Duration) (_ : string) (_ : IssueAgentIdentityRequest)
    : result string IssueAgentIdentityResponse := Err "unavailable".
Definition rpc_up (_ : unit) (_ : Duration) (_ : string) (q : IssueAgentIdentityRequest)
    : result string IssueAgentIdentityResponse :=
  Ok {| g_WorkloadID := "wimse://plugin/" +:+ g_AgentName q; g_SpiffeID := ""; g_Token := "t";
        g_ExpiresAtUnix := 1700000000 + g_DelegationDepth q |}.

(** Two failures open the breaker, the third call is refused, a call after the reset period is
    sent and its success closes the breaker. *)
Example breaker_run :
  let c1 := fst (IssueAgentIdentity rpc_down 1 2 (demo_req 0) demo_client) in
  let c2 := fst (IssueAgentIdentity rpc_down 3 4 (demo_req 0) c1) in
  tripped c1 = false /\ tripped c2 = true /\
  snd (IssueAgentIdentity rpc_up 5 6 (demo_req 0) c2) = Err (CircuitOpen 2) /\
  snd (IssueAgentIdentity rpc_up (10 * Second + 4) 6 (demo_req 0) c2) = Err (CircuitOpen 2) /\
  is_ok (snd (IssueAgentIdentity rpc_up (10 * Second + 5) 6 (demo_req 0) c2)) = true.
Proof. vm_compute. auto. Qed.

(** A delegation depth over 32 bits reaches the plug-in as another depth. *)
Example depth_wraps :
  g_DelegationDepth (issueRequest (demo_req 4294967297)) = 1 /\
  g_DelegationDepth (issueRequest (demo_req 2147483648)) = - 2147483648.
Proof. vm_compute. auto. Qed.

(** A success of a call sent before the breaker opened closes it again at once. *)
Example late_success_closes :
  let c := recordFailure 4 (recordFailure 3 (fst (checkCircuit 1 demo_client))) in
  tripped c = true /\ tripped (recordSuccess c) = false.
Proof. vm_compute. auto. Qed.

Definition demo_opts : list ClientOption := [WithCircuitBreaker 2 (10 * Second)].
Definition demo_steps : Sys :=
  {| client := recordFailure 4 (recordFailure 2 demo_client); inflight := 0; now := 5;
     log := [Sent 1; Failed 2; Sent 3; Failed 4; Refused 5 2] |}.
Lemma demo_reach : rtc (step 1) (start tt demo_opts) demo_steps.
Proof.
  eapply rtc_l; [eapply (step_send _ _ _ _ _ 1); [done|lia|reflexivity]|].
  eapply rtc_l; [apply (step_failure _ _ _ _ 2); done|].
  eapply rtc_l; [eapply (step_send _ _ _ _ _ 3); [done|lia|reflexivity]|].
  eapply rtc_l; [apply (step_failure _ _ _ _ 4); done|].
  eapply rtc_l; [eapply (step_refuse _ _ _ _ _ 5); [done|lia|reflexivity]|].
  apply rtc_refl.
Qed.

(** Witness: two calls in the window, the bound of one worker and a threshold of two *)
Lemma breaker_bounds_load_witness :
  sentSince 1 (log demo_steps) = 2%nat /\ Z.of_nat (sentSince 1 (log demo_steps)) <= 2 - 1 + 1.
Proof.
  split; [reflexivity|].
  apply (breaker_bounds_load 1 tt demo_opts demo_steps 1); [done|exact demo_reach|vm_compute; discriminate|].
  repeat constructor.
Defined.

(** Witness: the refusal of the run above *)
Lemma refusals_follow_failures_witness :
  justified 2 (10 * Second) [Sent 1; Failed 2; Sent 3; Failed 4] 5 2.
Proof.
  apply (refusals_follow_failures 1 tt demo_opts demo_steps [Sent 1; Failed 2; Sent 3; Failed 4] 5 2 []);
    [by vm_compute|exact demo_reach|reflexivity].
Defined.

(** Witness: a call that fails *)
Lemma calls_are_steps_witness : exists s' : Sys (Conn:=unit),
  rtc (step 1) (start tt demo_opts) s' /\ failures (client s') = 1.
Proof.
  destruct (calls_are_steps 1 rpc_down (fun _ _ _ _ => Ok tt) 1 2 (demo_req 0) "x" (start tt demo_opts))
    as [(s' & Hr & Hc & _) _]; [by vm_compute|by vm_compute|cbn; lia|].
  exists s'. split; [exact Hr|]. rewrite Hc. reflexivity.
Defined.

(** Witness: an answered call *)
Lemma issued_identity_is_plugins_witness : exists c id,
  IssueAgentIdentity rpc_up 1 2 (demo_req 3) demo_client = (c, Ok id) /\ failures c = 0 /\ ai_Token id = "t".
Proof.
  eexists _, _. split; [reflexivity|].
  destruct (issued_identity_is_plugins rpc_up 1 2 (demo_req 3) demo_client _ _ eq_refl) as (_ & _ & Hf).
  split; [exact Hf|reflexivity].
Defined.

Definition demo_dial (addr : string) : result string string :=
  if (addr =? "bad")%string then Err "invalid target" else Ok addr.
Definition demo_eps : list PluginEndpoint :=
  [{| Address := "a:1"; ep_Platform := "custom" |}; {| Address := "b:1"; ep_Platform := "a2a" |};
   {| Address := "c:1"; ep_Platform := "custom" |}].

(** The first endpoint's connection is open and no client has it. *)
Example discovery_overwrites :
  let r := DiscoverPlugins demo_dial [] demo_eps [] in
  fst r = ["a:1"; "b:1"; "c:1"] /\
  match snd r with Ok m => conn <$> m !! "custom" = Some "c:1" | Err _ => False end.
Proof. vm_compute. auto. Qed.

(** Witness: a list whose last endpoint cannot be dialled leaves three connections open *)
Lemma discovery_outcome_witness :
  exists e1 ep e2, demo_eps ++ [{| Address := "bad"; ep_Platform := "mcp" |}] = e1 ++ ep :: e2 /\
    (forall c, ~ client_of demo_dial [] ep c) /\ length ["a:1"; "b:1"; "c:1"] = (0 + length e1)%nat.
Proof.
  exact (discovery_outcome demo_dial [] (demo_eps ++ [{| Address := "bad"; ep_Platform := "mcp" |}]) [] _ _ eq_refl).
Defined.

End AgentPlugin.
