(* ===== verification/ExchangeErrors.v ===== *)
(** The structured errors of the exchange engine ([pkg/errors/exchange.go]): the text an operator
    reads, the JSON object a client gets, and the constructors. Every field of an error can be
    read back from both forms. *)
From Stdlib Require Import ZArith Lia Ascii.
From stdpp Require Import base gmap strings list pretty.
From S2P Require Import Prelude.
From S2P Require Import GoLib.

#[local] Open Scope string_scope.
#[local] Open Scope list_scope.
#[local] Open Scope Z_scope.

Module ExchangeErrors.

(** The error codes *)
Definition ErrCredentialExpired : string := "credential_expired".
Definition ErrCredentialInvalid : string := "credential_invalid".
Definition ErrPolicyDenied : string := "policy_denied".
Definition ErrRevoked : string := "revoked".
Definition ErrBadAudience : string := "bad_audience".
Definition ErrBlastRadiusExceeded : string := "blast_radius_exceeded".
Definition ErrDelegationDepthExceeded : string := "delegation_depth_exceeded".
Definition ErrUntrustedDomain : string := "untrusted_domain".
Definition ErrActorTokenMalformed : string := "actor_token_malformed".
Definition ErrActorTokenExpired : string := "actor_token_expired".
Definition ErrInternalError : string := "internal_error".

Record ExchangeError : Type := {
  Code : string; Subject : string; Credential : string; Rule : string; RuleFile : string; Reason : string;
  Action : string; DocsURL : string;
}.

(** [fmt]'s verb [%-12s] on the constant keys, which are ASCII *)
Fixpoint spaces (n : nat) : string := match n with O => "" | S n' => String " " (spaces n') end.
Definition padRight (n : nat) (s : string) : string := s +:+ spaces (n - String.length s).

Section Errors.
(** The variable [DocsBase], "https://starfly.dev/troubleshoot/" unless a deployment changes it *)
Variable DocsBase : string.

(** [docsURL] *)
Definition docsURL (e : ExchangeError) : string :=
  if negb (DocsURL e =? "")%string then DocsURL e
  else if negb (Code e =? "")%string then DocsBase +:+ Code e
  else "".

(** [Error]: a headline and a line for each field that is set *)
Definition fields (e : ExchangeError) : list (string * string) :=
  [("subject", Subject e); ("credential", Credential e); ("rule", Rule e); ("rule_file", RuleFile e);
   ("action", Action e); ("docs", docsURL e)].
Definition head (key : string) : string := "  " +:+ padRight 12 (key +:+ ":").
Fixpoint writeFields (fs : list (string * string)) : string :=
  match fs with
  | [] => ""
  | (key, val) :: fs' =>
      if (val =? "")%string then writeFields fs'
      else String "010" (head key +:+ val) +:+ writeFields fs'
  end.
Definition headline (e : ExchangeError) : string :=
  let reason := if (Reason e =? "")%string then Code e else Reason e in
  if HasPrefix reason "exchange denied" then reason else "exchange denied: " +:+ reason.
Definition Error (e : ExchangeError) : string := headline e +:+ writeFields (fields e).

(** [JSON]: the documentation link of the outer struct hides the one of the embedded struct. *)
Definition omitempty (key val : string) (m : gmap string value) : gmap string value :=
  if (val =? "")%string then m else <[key := VStr val]> m.
Definition JSON (e : ExchangeError) : gmap string value :=
  omitempty "docs_url" (docsURL e)
 (omitempty "action" (Action e)
 (<["reason" := VStr (Reason e)]>
 (omitempty "rule_file" (RuleFile e)
 (omitempty "rule" (Rule e)
 (omitempty "credential" (Credential e)
 (omitempty "subject" (Subject e)
 (<["code" := VStr (Code e)]> ∅))))))).

(** [Is]; a target of another type is [None]. *)
Definition Is (e : ExchangeError) (target : option ExchangeError) : bool :=
  match target with None => false | Some t => (Code e =? Code t)%string end.

(** ** Constructors; [Quote] is [fmt]'s verb [%q]. *)

Definition NewCredentialExpired (subject credential action : string) : ExchangeError :=
  {| Code := ErrCredentialExpired; Subject := subject; Credential := credential; Rule := ""; RuleFile := "";
     Reason := "source credential expired"; Action := action; DocsURL := "" |}.
Definition NewPolicyDenied (subject rule ruleFile reason action : string) : ExchangeError :=
  {| Code := ErrPolicyDenied; Subject := subject; Credential := ""; Rule := rule; RuleFile := ruleFile;
     Reason := reason; Action := action; DocsURL := "" |}.
Definition NewRevoked (subject reason : string) : ExchangeError :=
  {| Code := ErrRevoked; Subject := subject; Credential := ""; Rule := ""; RuleFile := ""; Reason := reason;
     Action := "check the revocation list and re-issue the credential if appropriate"; DocsURL := "" |}.
Definition NewUntrustedDomain (Quote : string -> string) (subject domain : string) : ExchangeError :=
  {| Code := ErrUntrustedDomain; Subject := subject; Credential := ""; Rule := ""; RuleFile := "";
     Reason := "domain " +:+ Quote domain +:+ " is not in the trusted domain list";
     Action := "add " +:+ Quote domain +:+ " to the trusted domains configuration or verify the request origin";
     DocsURL := "" |}.
Definition NewBlastRadiusExceeded (Quote : string -> string) (subject scope action : string) : ExchangeError :=
  {| Code := ErrBlastRadiusExceeded; Subject := subject; Credential := ""; Rule := ""; RuleFile := "";
     Reason := "requested scope " +:+ Quote scope +:+ " exceeds the allowed blast radius";
     Action := action; DocsURL := "" |}.
Definition NewDelegationDepthExceeded (subject : string) (depth maxDepth : Z) : ExchangeError :=
  {| Code := ErrDelegationDepthExceeded; Subject := subject; Credential := ""; Rule := ""; RuleFile := "";
     Reason := "delegation depth " +:+ pretty depth +:+ " exceeds maximum allowed depth " +:+ pretty maxDepth;
     Action := "reduce the delegation chain or increase max_delegation_depth (currently " +:+ pretty maxDepth +:+ ")";
     DocsURL := "" |}.

(** * Reading an error back *)

Definition NL : ascii := "010"%char.
Definition one_line (s : string) : Prop := cut_at NL s = None.

(** The reader of a text: the value of the first line that starts with the head of the key *)
Fixpoint readLines (key : string) (lines : list string) : string :=
  match lines with
  | [] => ""
  | l :: ls => if HasPrefix l (head key) then TrimPrefix l (head key) else readLines key ls
  end.
Definition readField (key text : string) : string := readLines key (Split text NL).
(** The reader of an object *)
Definition readKey (key : string) (m : gmap string value) : string :=
  default "" (m !! key ≫= as_string).

#[local] Arguments HasPrefix : simpl never.
#[local] Arguments TrimPrefix : simpl never.
#[local] Arguments head : simpl never.

Lemma cut_at_none_app c a b : cut_at c (a +:+ b) = None <-> cut_at c a = None /\ cut_at c b = None.
Proof using.
  induction a as [|x a IH]; [cbn; by split; [|intros [_ ?]]|].
  change (String x a +:+ b) with (String x (a +:+ b)). cbn. destruct (Ascii.eqb x c); [by split; [|intros [? _]]|].
  destruct IH as [IH1 IH2]. split.
  - intros H. destruct (cut_at c (a +:+ b)) as [[]|]; [done|]. by destruct (IH1 eq_refl) as [-> ->].
  - intros [Ha Hb]. destruct (cut_at c a) as [[]|]; [done|]. by rewrite IH2.
Qed.

Lemma Split_one_line x : one_line x -> Split x NL = [x].
Proof using.
  unfold one_line. induction x as [|a x IH]; cbn; [done|]. destruct (Ascii.eqb a NL); [done|].
  destruct (cut_at NL x) as [[]|]; [done|]. intros _. by rewrite IH.
Qed.
Lemma Split_line x y : one_line x -> Split (x +:+ String NL y) NL = x :: Split y NL.
Proof using.
  unfold one_line. induction x as [|a x IH]; [done|].
  change (String a x +:+ String NL y) with (String a (x +:+ String NL y)). cbn. destruct (Ascii.eqb a NL); [done|].
  destruct (cut_at NL x) as [[]|]; [done|]. intros _. by rewrite IH.
Qed.

(** The lines of the text *)
Definition field_lines (fs : list (string * string)) : list string :=
  (fun f => head (fst f) +:+ snd f) <$> filter (fun f => snd f <> "") fs.

Lemma Split_writeFields hl fs : one_line hl -> Forall (fun f => one_line (head (fst f)) /\ one_line (snd f)) fs ->
  Split (hl +:+ writeFields fs) NL = hl :: field_lines fs.
Proof using.
  revert hl. induction fs as [|[k v] fs IH]; intros hl Hh HF; cbn [writeFields].
  - rewrite str_app_nil_r. by apply Split_one_line.
  - apply Forall_cons in HF as [[Hk Hv] HF]. cbn in Hk, Hv. unfold field_lines.
    destruct (String.eqb_spec v "") as [->|Hne].
    + rewrite filter_cons_False by (cbn; auto). by apply IH.
    + rewrite filter_cons_True by done. rewrite fmap_cons.
      change (String "010" (head k +:+ v) +:+ writeFields fs) with (String NL ((head k +:+ v) +:+ writeFields fs)).
      rewrite Split_line by done. f_equal.
      rewrite IH; [done| |done]. by apply cut_at_none_app.
Qed.

Lemma HasPrefix_fixed a b v : String.length a = String.length b -> HasPrefix (a +:+ v) b = (b =? a)%string.
Proof using.
  unfold HasPrefix. revert b. induction a as [|x a IH]; intros [|y b] Hl; [by destruct v|done|done|].
  change (String x a +:+ v) with (String x (a +:+ v)). cbn in *. apply Nat.succ_inj in Hl.
  destruct (ascii_dec y x) as [->|Hn]; [by rewrite Ascii.eqb_refl, <- IH|].
  by rewrite (proj2 (Ascii.eqb_neq y x) Hn).
Qed.

Lemma readLines_fields fs key val :
  Forall (fun f => String.length (head (fst f)) = 14%nat) fs -> NoDup ((fun f => head (fst f)) <$> fs) ->
  (key, val) ∈ fs -> readLines key (field_lines fs) = val.
Proof using.
  induction fs as [|[k v] fs IH]; intros HF HN Hin; [by apply elem_of_nil in Hin|].
  pose proof (proj1 (Forall_forall _ _) HF _ Hin) as Hlen. cbn in Hlen.
  apply Forall_cons in HF as [Hk HF]. cbn in HN, Hk. apply NoDup_cons in HN as [Hnk HN].
  assert (forall fs', head key ∉ ((fun f : string * string => head (fst f)) <$> fs') ->
    Forall (fun f => String.length (head (fst f)) = 14%nat) fs' -> readLines key (field_lines fs') = "") as Habs.
  { clear -Hlen. unfold field_lines. induction fs' as [|[k' v'] fs' IH']; intros Hni HF'; [done|].
    apply Forall_cons in HF' as [Hl' HF']. cbn in Hl', Hni. apply not_elem_of_cons in Hni as [Hd Hni].
    destruct (decide (v' = "")) as [->|Hv']; [rewrite filter_cons_False by (cbn; auto); auto|].
    rewrite filter_cons_True by done. cbn. rewrite HasPrefix_fixed by congruence.
    destruct (String.eqb_spec (head key) (head k')); [done|]. auto. }
  unfold field_lines in *. apply elem_of_cons in Hin as [[= -> ->]|Hin].
  - destruct (decide (v = "")) as [->|Hv]; [rewrite filter_cons_False by (cbn; auto); auto|].
    rewrite filter_cons_True by done. cbn. unfold TrimPrefix. rewrite HasPrefix_fixed by done.
    rewrite String.eqb_refl. apply str_drop_app.
  - destruct (decide (v = "")) as [->|Hv]; [rewrite filter_cons_False by (cbn; auto); auto|].
    rewrite filter_cons_True by done. cbn. rewrite HasPrefix_fixed by congruence.
    destruct (String.eqb_spec (head key) (head k)) as [Heq|]; [|auto].
    exfalso. apply Hnk. rewrite <- Heq. apply list_elem_of_fmap. by exists (key, val).
Qed.

Lemma heads_distinct : NoDup (head <$> ["subject"; "credential"; "rule"; "rule_file"; "action"; "docs"]).
Proof using. apply (bool_decide_unpack _). reflexivity. Qed.

Lemma headline_no_field key e : HasPrefix (headline e) (head key) = false.
Proof using.
  unfold headline. set (r := if (Reason e =? "")%string then _ else _). clearbody r.
  destruct (HasPrefix r "exchange denied") eqn:H; [|reflexivity].
  destruct r as [|a r]; [done|]. 
  change ((if ascii_dec "e" a then String.prefix "xchange denied" r else false) = true) in H.
  destruct (ascii_dec "e" a) as [<-|_]; [reflexivity|discriminate H].
Qed.

(** An operator can read an error back from its text: when no field holds a line break, the
    line of each key has exactly the value of the field, and a field that is not set has no line. *)
Theorem error_fields_read_back (e : ExchangeError) (key val : string) :
  one_line (Code e) -> one_line (Reason e) -> Forall (fun f => one_line (snd f)) (fields e) ->
  (key, val) ∈ fields e -> readField key (Error e) = val.
Proof using.
  intros Hc Hr HF Hin. unfold readField, Error. rewrite Split_writeFields.
  - cbn [readLines]. rewrite headline_no_field. apply readLines_fields; [|exact heads_distinct|done].
    repeat constructor.
  - unfold headline. destruct (Reason e =? "")%string, (HasPrefix _ _); try done; by apply cut_at_none_app.
  - unfold fields in *. rewrite !Forall_cons in HF. cbn in HF. repeat constructor; cbn; tauto.
Qed.

Lemma readKey_omit_ne key key' v m : key <> key' -> readKey key (omitempty key' v m) = readKey key m.
Proof using. intros Hne. unfold readKey, omitempty. destruct (v =? "")%string; [done|]. by rewrite lookup_insert_ne. Qed.
Lemma readKey_omit key v m : m !! key = None -> readKey key (omitempty key v m) = v.
Proof using.
  intros Hm. unfold readKey, omitempty. destruct (String.eqb_spec v "") as [->|_]; [by rewrite Hm|].
  by rewrite lookup_insert_eq.
Qed.
Lemma lookup_omit_ne key key' v m : key <> key' -> omitempty key' v m !! key = m !! key.
Proof using. intros Hne. unfold omitempty. destruct (v =? "")%string; [done|]. by rewrite lookup_insert_ne. Qed.

(** The JSON form of an error has every field: a client that reads the object gets the error
    back, with the documentation link filled in. *)
Theorem error_json_roundtrip (e : ExchangeError) :
  {| Code := readKey "code" (JSON e); Subject := readKey "subject" (JSON e);
     Credential := readKey "credential" (JSON e); Rule := readKey "rule" (JSON e);
     RuleFile := readKey "rule_file" (JSON e); Reason := readKey "reason" (JSON e);
     Action := readKey "action" (JSON e); DocsURL := readKey "docs_url" (JSON e) |} =
  {| Code := Code e; Subject := Subject e; Credential := Credential e; Rule := Rule e; RuleFile := RuleFile e;
     Reason := Reason e; Action := Action e; DocsURL := docsURL e |}.
Proof using.
  assert (forall k k' v m, k <> k' -> readKey k (<[k' := VStr v]> m) = readKey k m) as Hne
    by (intros; unfold readKey; by rewrite lookup_insert_ne).
  assert (forall k v m, readKey k (<[k := VStr v]> m) = v) as Heq by (intros; unfold readKey; by rewrite lookup_insert_eq).
  unfold JSON. f_equal;
    repeat first [rewrite Heq; reflexivity | rewrite readKey_omit by
        (repeat first [rewrite lookup_omit_ne by done | rewrite lookup_insert_ne by done]; reflexivity); reflexivity
      | rewrite readKey_omit_ne by done | rewrite Hne by done].
Qed.

End Errors.

(** * Evaluation *)

Definition demo_base : string := "https://starfly.dev/troubleshoot/".
Definition demo_error : ExchangeError := NewPolicyDenied "wimse://d/a" "allow_cross_namespace" "p.rego:42" "no rule" "".
Example demo_text : Error demo_base demo_error =
  Join ["exchange denied: no rule"; "  subject:    wimse://d/a"; "  rule:       allow_cross_namespace";
        "  rule_file:  p.rego:42"; "  docs:       https://starfly.dev/troubleshoot/policy_denied"] (String NL "").
Proof. reflexivity. Qed.

(** Witness: the rule of a policy denial *)
Lemma error_fields_read_back_witness :
  readField "rule" (Error demo_base demo_error) = "allow_cross_namespace" /\
  readField "action" (Error demo_base demo_error) = "".
Proof.
  split; apply (error_fields_read_back demo_base demo_error); try reflexivity; try by (repeat constructor);
    apply bool_decide_unpack; reflexivity.
Defined.

(** A subject with a line break can pass for another field of the text. *)
Example subject_forges_action :
  readField "action" (Error demo_base (NewCredentialExpired ("x" +:+ String NL "  action:     none needed") "k8s" "rotate")) =
  "none needed".
Proof. reflexivity. Qed.

(** The generated link has the underscores of the code. *)
Example docs_link_underscores :
  docsURL demo_base (NewCredentialExpired "s" "c" "a") = "https://starfly.dev/troubleshoot/credential_expired".
Proof. reflexivity. Qed.

End ExchangeErrors.
