(* ===== verification/RequestId.v ===== *)
(** The request identifiers of the HTTP API ([pkg/api/middleware.go]): the identifier of each
    request, the wrapped response writer that captures the status, and the line that is logged. The
    response writer below is the one of Go's HTTP server. *)
From Stdlib Require Import ZArith NArith Lia Ascii.
From stdpp Require Import base gmap strings list.
From S2P Require Import Prelude.
From S2P Require Import GoLib.
From S2P Require Import Base64.

#[local] Open Scope string_scope.
#[local] Open Scope list_scope.
#[local] Open Scope Z_scope.

Module RequestId.

(** * Identifiers *)

(** [newUUID] from the outcome of [rand.Read]: [None] is an error, the bytes are a string of length
    16. The conversion [%08x] of a slice of four bytes is its hexadecimal form, as the other ones
    are: every width is twice the length of its slice. *)
Definition setByte (i : nat) (f : N -> N) (s : string) : string :=
  match String.get i s with
  | Some a => str_take i s +:+ String (ascii_of_N (f (N_of_ascii a))) (str_drop (S i) s)
  | None => s
  end.
Definition slice (s : string) (a b : nat) : string := str_take (b - a) (str_drop a s).
Definition formatUUID (u : string) : string :=
  Hex.EncodeToString (slice u 0 4) +:+ "-" +:+ Hex.EncodeToString (slice u 4 6) +:+ "-" +:+
  Hex.EncodeToString (slice u 6 8) +:+ "-" +:+ Hex.EncodeToString (slice u 8 10) +:+ "-" +:+
  Hex.EncodeToString (slice u 10 16).
Definition version4 (b : N) : N := N.lor (N.land b 15) 64.
Definition variant1 (b : N) : N := N.lor (N.land b 63) 128.
Definition newUUID (random : option string) : string :=
  match random with
  | None => "00000000-0000-0000-0000-000000000000"
  | Some u => formatUUID (setByte 8 variant1 (setByte 6 version4 u))
  end.

(** * The response writer

    [hdr] is the header map handlers change; the first final status sends it as it is then. *)

Record Writer : Type := {
  hdr : gmap string string;
  sent : option (Z * gmap string string);
  body : string;
}.
Definition informational (code : Z) : bool := (100 <=? code) && (code <=? 199) && negb (code =? 101).
(** [WriteHeader], [Write] and [Flush] of the server's writer *)
Definition http_WriteHeader (code : Z) (w : Writer) : Writer :=
  if bool_decide (is_Some (sent w)) || informational code then w
  else {| hdr := hdr w; sent := Some (code, hdr w); body := body w |}.
Definition http_Write (data : string) (w : Writer) : Writer :=
  let w' := http_WriteHeader 200 w in {| hdr := hdr w'; sent := sent w'; body := body w' +:+ data |}.
Definition http_Flush (w : Writer) : Writer := http_WriteHeader 200 w.

(** [responseWriter] and its methods; [Write] is the one of the embedded writer. *)
Record responseWriter : Type := { rw_ResponseWriter : Writer; statusCode : Z }.
Definition WriteHeader (code : Z) (rw : responseWriter) : responseWriter :=
  {| rw_ResponseWriter := http_WriteHeader code (rw_ResponseWriter rw); statusCode := code |}.
Definition Flush (rw : responseWriter) : responseWriter :=
  {| rw_ResponseWriter := http_Flush (rw_ResponseWriter rw); statusCode := statusCode rw |}.
Definition Unwrap (rw : responseWriter) : Writer := rw_ResponseWriter rw.

(** What a handler does with its writer *)
Inductive Action : Type :=
| ASetHeader (key val : string)
| AWriteHeader (code : Z)
| AWrite (data : string)
| AFlush.
Definition act (rw : responseWriter) (a : Action) : responseWriter :=
  let w := rw_ResponseWriter rw in
  match a with
  | ASetHeader k v =>
      {| rw_ResponseWriter := {| hdr := <[k := v]> (hdr w); sent := sent w; body := body w |}; statusCode := statusCode rw |}
  | AWriteHeader code => WriteHeader code rw
  | AWrite data => {| rw_ResponseWriter := http_Write data w; statusCode := statusCode rw |}
  | AFlush => Flush rw
  end.

(** The line that is logged *)
Record LogLine : Type := {
  l_method : string; l_path : string; l_status : Z; l_duration_ms : Z; l_request_id : string; l_trace_id : option string;
}.

(** [requestIDMiddleware]: [next] is the handler with the identifier of its context, [start] and
    [stop] the readings of the clock, [trace] the identifier of the span, if any. *)
Definition requestIDMiddleware (random : option string) (next : string -> list Action) (method path : string)
    (start stop : Time) (trace : option string) (w : Writer) : Writer * LogLine :=
  let id := newUUID random in
  let w1 := {| hdr := <["X-Request-ID" := id]> (hdr w); sent := sent w; body := body w |} in
  let rw := foldl act {| rw_ResponseWriter := w1; statusCode := 200 |} (next id) in
  (Unwrap rw,
   {| l_method := method; l_path := path; l_status := statusCode rw;
      l_duration_ms := Z.quot (Sub stop start) 1000000; l_request_id := id; l_trace_id := trace |}).

(** What the server sends when the handler returned: a response that was not started is sent with
    status 200. *)
Definition finish (w : Writer) : Z * gmap string string := default (200, hdr w) (sent w).

(** * Properties *)

(** A handler that follows the contract of [http.ResponseWriter]: it starts the response at most
    once, with a final status, before it writes; it does not set the identifier. *)
Definition keeps_id (a : Action) : bool := match a with ASetHeader k _ => negb (k =? "X-Request-ID")%string | _ => true end.
Fixpoint proper (started : bool) (l : list Action) : bool :=
  match l with
  | [] => true
  | ASetHeader _ _ :: l' => proper started l'
  | AWriteHeader code :: l' => negb started && negb (informational code) && proper true l'
  | AWrite _ :: l' | AFlush :: l' => proper true l'
  end.

(** The identifier is in the headers, and in those that were sent. *)
Definition has_id (id : string) (w : Writer) : Prop :=
  hdr w !! "X-Request-ID" = Some id /\ forall c h, sent w = Some (c, h) -> h !! "X-Request-ID" = Some id.

Lemma has_id_start id code w : has_id id w -> has_id id (http_WriteHeader code w).
Proof. unfold has_id, http_WriteHeader. destruct (_ || _); cbn; naive_solver. Qed.
Lemma has_id_act id a rw : keeps_id a = true -> has_id id (rw_ResponseWriter rw) -> has_id id (rw_ResponseWriter (act rw a)).
Proof.
  intros Hk H. destruct a as [k v|code|data|]; cbn in *.
  - apply negb_true_iff, String.eqb_neq in Hk. destruct H. split; [|done]. cbn. by rewrite lookup_insert_ne.
  - by apply has_id_start.
  - exact (has_id_start id 200 _ H).
  - exact (has_id_start id 200 _ H).
Qed.
Lemma has_id_acts id l rw : forallb keeps_id l = true -> has_id id (rw_ResponseWriter rw) ->
  has_id id (rw_ResponseWriter (foldl act rw l)).
Proof.
  revert rw. induction l as [|a l IH]; intros rw Hk H; cbn in *; [done|].
  apply andb_true_iff in Hk as [Ha Hk]. by apply IH, has_id_act.
Qed.

(** The client, the handler and the log see the same identifier: whatever a handler does that
    does not set the header itself, the response that is sent carries the identifier the handler
    found in its context and the log line names. *)
Theorem response_carries_request_id random next method path start stop trace (w : Writer) :
  sent w = None -> forallb keeps_id (next (newUUID random)) = true ->
  let '(w', line) := requestIDMiddleware random next method path start stop trace w in
  snd (finish w') !! "X-Request-ID" = Some (newUUID random) /\ l_request_id line = newUUID random.
Proof.
  intros Hs Hk. cbn. split; [|done].
  set (rw := foldl act _ _). assert (has_id (newUUID random) (rw_ResponseWriter rw)) as [Hh Hsent].
  { apply has_id_acts; [done|]. split; cbn; [by rewrite lookup_insert_eq|congruence]. }
  unfold finish, Unwrap. destruct (sent (rw_ResponseWriter rw)) as [[c h]|] eqn:E; cbn; [by eapply Hsent|done].
Qed.

(** The captured status is the one that is sent, or will be. *)
Definition status_ok (started : bool) (rw : responseWriter) : Prop :=
  fst (finish (rw_ResponseWriter rw)) = statusCode rw /\
  (started = false -> sent (rw_ResponseWriter rw) = None) /\ (sent (rw_ResponseWriter rw) = None -> statusCode rw = 200).

Lemma status_ok_200 started rw : status_ok started rw ->
  status_ok true {| rw_ResponseWriter := http_WriteHeader 200 (rw_ResponseWriter rw); statusCode := statusCode rw |}.
Proof.
  unfold status_ok, http_WriteHeader, finish. intros (Hf & _ & Hn).
  destruct (sent (rw_ResponseWriter rw)) as [[c h]|] eqn:E; cbn; rewrite ?E; cbn in *; naive_solver.
Qed.

Lemma status_ok_acts started l rw : proper started l = true -> status_ok started rw ->
  fst (finish (rw_ResponseWriter (foldl act rw l))) = statusCode (foldl act rw l).
Proof.
  revert started rw. induction l as [|a l IH]; intros started rw Hp H; cbn in *; [by destruct H|].
  destruct a as [k v|code|data|]; cbn in *.
  - apply (IH started); [done|]. destruct H as (Hf & Hs & Hn). split_and!; [|done..]. unfold finish in *. cbn.
    by destruct (sent (rw_ResponseWriter rw)) as [[]|].
  - apply andb_true_iff in Hp as [[Hst Hi]%andb_true_iff Hp]. apply negb_true_iff in Hst, Hi. subst started.
    apply (IH true); [done|]. destruct H as (_ & Hs & _). specialize (Hs eq_refl). unfold status_ok, finish. cbn.
    unfold http_WriteHeader. rewrite Hs, Hi. cbn. naive_solver.
  - apply (IH true); [done|]. exact (status_ok_200 _ _ H).
  - apply (IH true); [done|]. exact (status_ok_200 _ _ H).
Qed.

(** The status in the log is the status the client got, for handlers that follow the contract
    of the writer. *)
Theorem logged_status_is_sent random next method path start stop trace (w : Writer) :
  sent w = None -> proper false (next (newUUID random)) = true ->
  let '(w', line) := requestIDMiddleware random next method path start stop trace w in
  l_status line = fst (finish w').
Proof.
  intros Hs Hp. cbn. symmetry. apply (status_ok_acts false); [done|].
  unfold status_ok, finish. cbn. by rewrite Hs.
Qed.

(** A second status is logged and not sent; an informational one hides the status that follows. *)
Example superfluous_status_logged :
  let '(w, line) := requestIDMiddleware None (fun _ => [AWriteHeader 403; AWriteHeader 500]) "GET" "/" 0 0 None
                      {| hdr := ∅; sent := None; body := "" |} in
  l_status line = 500 /\ fst (finish w) = 403.
Proof. vm_compute. auto. Qed.
Example informational_status_logged :
  let '(w, line) := requestIDMiddleware None (fun _ => [AWriteHeader 103; AWrite "ok"]) "GET" "/" 0 0 None
                      {| hdr := ∅; sent := None; body := "" |} in
  l_status line = 103 /\ fst (finish w) = 200.
Proof. vm_compute. auto. Qed.

(** ** The form of an identifier *)

(** The bytes of an identifier are read back from its text. *)
Definition undash (s : string) : string :=
  str_take 8 s +:+ str_take 4 (str_drop 9 s) +:+ str_take 4 (str_drop 14 s) +:+ str_take 4 (str_drop 19 s) +:+
  str_drop 24 s.
Definition uuidBytes (s : string) : option string := Hex.DecodeString (undash s).

(** A string of a known length is its characters. *)
Ltac explode u H := do 16 (destruct u as [|? u]; [discriminate H|]); destruct u; [clear H|discriminate H].

Lemma format_back u : String.length u = 16%nat -> uuidBytes (formatUUID u) = Some u.
Proof. intros H. explode u H. rewrite <- Hex.Decode_EncodeToString. reflexivity. Qed.

(** The identifier of a request is a UUID of version 4, whatever the random bytes: 36
    characters, dashes at their places, the version digit 4 and the variant digit 8, 9, a or b. *)
Theorem uuid_v4_form (u : string) : String.length u = 16%nat ->
  let id := newUUID (Some u) in
  String.length id = 36%nat /\
  Forall (fun i => String.get i id = Some "-"%char) [8; 13; 18; 23]%nat /\
  String.get 14 id = Some "4"%char /\
  exists c, String.get 19 id = Some c /\ c ∈ ["8"; "9"; "a"; "b"]%char.
Proof.
  intros H. explode u H. cbn zeta. split; [reflexivity|]. split; [repeat constructor|].
  match goal with |- context [newUUID (Some (String ?x0 (String ?x1 (String ?x2 (String ?x3 (String ?x4 (String ?x5 (String ?v
      (String ?x7 (String ?r _))))))))))] => set (b6 := v); set (b8 := r) end.
  split.
  - transitivity (Some (Hex.digit (N_of_ascii (ascii_of_N (version4 (N_of_ascii b6))) / 16))); [reflexivity|].
    destruct b6 as [[] [] [] [] [] [] [] []]; reflexivity.
  - exists (Hex.digit (N_of_ascii (ascii_of_N (variant1 (N_of_ascii b8))) / 16)). split; [reflexivity|].
    destruct b8 as [[] [] [] [] [] [] [] []]; vm_compute; repeat constructor.
Qed.

Definition maskedByte (i : nat) (mask : N) (u : string) : option N :=
  (fun a => N.land (N_of_ascii a) mask) <$> String.get i u.

Lemma version4_mask a b : ascii_of_N (version4 (N_of_ascii a)) = ascii_of_N (version4 (N_of_ascii b)) ->
  N.land (N_of_ascii a) 15 = N.land (N_of_ascii b) 15.
Proof.
  assert (forall c, N.land (N_of_ascii c) 15 = N.land (N_of_ascii (ascii_of_N (version4 (N_of_ascii c)))) 15) as Hc
    by (intros [[] [] [] [] [] [] [] []]; reflexivity).
  intros H. by rewrite (Hc a), (Hc b), H.
Qed.
Lemma variant1_mask a b : ascii_of_N (variant1 (N_of_ascii a)) = ascii_of_N (variant1 (N_of_ascii b)) ->
  N.land (N_of_ascii a) 63 = N.land (N_of_ascii b) 63.
Proof.
  assert (forall c, N.land (N_of_ascii c) 63 = N.land (N_of_ascii (ascii_of_N (variant1 (N_of_ascii c)))) 63) as Hc
    by (intros [[] [] [] [] [] [] [] []]; reflexivity).
  intros H. by rewrite (Hc a), (Hc b), H.
Qed.

(** Identifiers are as distinct as the random bytes: equal identifiers come from bytes that
    differ at most in the six bits the version and the variant overwrite. *)
Theorem uuid_injective (u v : string) : String.length u = 16%nat -> String.length v = 16%nat ->
  newUUID (Some u) = newUUID (Some v) ->
  (forall i, i <> 6%nat -> i <> 8%nat -> String.get i u = String.get i v) /\
  maskedByte 6 15 u = maskedByte 6 15 v /\ maskedByte 8 63 u = maskedByte 8 63 v.
Proof.
  intros Hu Hv H.
  assert (setByte 8 variant1 (setByte 6 version4 u) = setByte 8 variant1 (setByte 6 version4 v)) as Heq.
  { apply (f_equal uuidBytes) in H. unfold newUUID in H.
    rewrite !format_back in H by (clear H; first [explode u Hu; reflexivity | explode v Hv; reflexivity]). congruence. }
  clear H. explode u Hu. explode v Hv. unfold setByte in Heq. cbn in Heq. injection Heq as -> -> -> -> -> -> H6 -> H8 -> -> -> -> -> -> ->.
  split.
  - intros i H1 H2. do 16 (destruct i as [|i]; [try done; by destruct H1, H2|]). reflexivity.
  - unfold maskedByte. cbn. split; f_equal; [by apply version4_mask|by apply variant1_mask].
Qed.

(** * Witnesses *)

Definition demo_writer : Writer := {| hdr := ∅; sent := None; body := "" |}.
Definition demo_next (id : string) : list Action := [ASetHeader "Content-Type" "text/plain"; AWriteHeader 404; AWrite id].
Definition demo_random : string := "0123456789abcdef".

Example demo_uuid : newUUID (Some demo_random) = "30313233-3435-4637-b839-616263646566".
Proof. reflexivity. Qed.

Lemma response_carries_request_id_witness :
  let '(w', line) := requestIDMiddleware (Some demo_random) demo_next "GET" "/x" 0 0 None demo_writer in
  snd (finish w') !! "X-Request-ID" = Some (newUUID (Some demo_random)) /\ l_request_id line = newUUID (Some demo_random).
Proof.
  exact (response_carries_request_id (Some demo_random) demo_next "GET" "/x" 0 0 None demo_writer eq_refl eq_refl).
Defined.

Lemma logged_status_is_sent_witness :
  let '(w', line) := requestIDMiddleware (Some demo_random) demo_next "GET" "/x" 0 0 None demo_writer in
  l_status line = fst (finish w').
Proof.
  exact (logged_status_is_sent (Some demo_random) demo_next "GET" "/x" 0 0 None demo_writer eq_refl eq_refl).
Defined.

Lemma uuid_v4_form_witness : String.get 14 (newUUID (Some demo_random)) = Some "4"%char.
Proof. apply (uuid_v4_form demo_random). reflexivity. Defined.

Lemma uuid_injective_witness :
  maskedByte 6 15 demo_random = maskedByte 6 15 "012345v789abcdef".
Proof. apply (uuid_injective demo_random "012345v789abcdef"); reflexivity. Defined.

End RequestId.
