(* ===== verification/Siggen.v ===== *)
(** The signal generator ([cmd/starfly-siggen/main.go]): the events it builds, the commands that
    send one, the watch and the test mode, and the commands against a unit in dev mode. The clock,
    the network and sleeping are operations of a world; the laws of time are a class. *)
From Stdlib Require Import ZArith Lia Ascii.
From stdpp Require Import base gmap strings list pretty.
From S2P Require Import Prelude.
From S2P Require Import GoLib.
From S2P Require Import JwtModel.
From S2P Require Import Core.
From S2P Require Import Revocation.
From S2P Require Import DPoP.
From S2P Require Import Receiver.
From S2P Require Import ApiCommon.
From S2P Require Import Api.

#[local] Open Scope string_scope.
#[local] Open Scope list_scope.
#[local] Open Scope Z_scope.

Module Siggen.

(** * Event types *)

Definition caep (n : string) : string := "https://schemas.openid.net/secevent/caep/event-type/" +:+ n.
Definition starfly (n : string) : string := "https://starfly.dev/secevent/event-type/" +:+ n.
Definition eventCredentialRevoked : string := caep "credential-change".
Definition eventSessionRevoked : string := caep "session-revoked".
Definition eventDeviceCompliance : string := caep "device-compliance-change".
Definition eventAssuranceLevelChange : string := caep "assurance-level-change".
Definition eventTokenClaimsChange : string := caep "token-claims-change".
Definition eventAgentCredRevoked : string := starfly "agent-credential-revoked".
Definition eventAgentDelegationRevoked : string := starfly "agent-delegation-revoked".
Definition eventAgentCapabilityReduced : string := starfly "agent-capability-reduced".
Definition eventAgentBlastReduced : string := starfly "agent-blast-radius-reduced".
Definition eventTokenRevoked : string := starfly "token-revoked".
Definition eventPolicyViolation : string := starfly "policy-violation".
Definition eventMCPToolCompromised : string := starfly "mcp-tool-compromised".
Definition eventMCPServerDeregistered : string := starfly "mcp-server-deregistered".
Definition eventMCPPermissionChanged : string := starfly "mcp-permission-changed".

(** [securityEvent] and [subjectIdentifier] *)
Record subjectIdentifier : Type := { Format : string; URI : string }.
Record securityEvent : Type := {
  Issuer : string; IssuedAt : Z; JTI : string; Audience : string; SubID : option subjectIdentifier;
  Events : gmap string (gmap string value);
}.
Definition Claims : Type := gmap string value.

(** * The world a command runs in

    [w_now] reads the clock, [w_post] sends an event to a URL with a content type and returns the
    status and up to 4 KiB of the answer, [w_get] returns the status; [w_time] is the instant of
    a state. *)

Class World (W : Type) : Type := {
  w_now : W -> W * Time;
  w_post : string -> string -> securityEvent -> W -> W * result string (Z * string);
  w_get : string -> W -> W * result string Z;
  w_sleep : Duration -> W -> W;
  w_time : W -> Time;
}.
Class WorldLaws (W : Type) `{!World W} : Prop := {
  now_between : forall w, w_time w <= snd (w_now w) /\ snd (w_now w) <= w_time (fst (w_now w));
  get_later : forall url w, w_time w <= w_time (fst (w_get url w));
  sleep_lasts : forall d w, w_time w + d <= w_time (w_sleep d w);
}.

Section Commands.
Context {W : Type} `{!World W}.

(** [newEvent]: the clock is read for the claims, for the time of issue and for the identifier. *)
Definition newEvent (subject reason eventType : string) (claims : Claims) (w : W) : W * securityEvent :=
  let '(w1, t1) := w_now w in
  let '(w2, t2) := w_now w1 in
  let '(w3, t3) := w_now w2 in
  let claims' := <["event_timestamp" := VInt (Unix t1)]> (<["reason" := VStr reason]> claims) in
  (w3, {| Issuer := "starfly-siggen"; IssuedAt := Unix t2; JTI := "siggen-" +:+ pretty (UnixNano t3); Audience := "";
          SubID := Some {| Format := "wimse"; URI := subject |}; Events := {[ eventType := claims' ]} |}).

(** [sendEvent]; encoding such an event as JSON does not fail. *)
Inductive SendErr : Type :=
| Sending (e : string)
| HTTPStatus (status : Z) (body : string).
Definition sendEvent (target : string) (event : securityEvent) : M W SendErr unit := fun w =>
  match w_post (trimSlashes target +:+ "/v1/signals/events") "application/json" event w with
  | (w', Err e) => (w', Err (Sending e))
  | (w', Ok (status, body)) => (w', if 300 <=? status then Err (HTTPStatus status body) else Ok tt)
  end.

(** * The commands that send one event; the arguments are the parsed flags, the result is the
    exit code. *)
Definition send (target subject reason eventType : string) (claims : Claims) (w : W) : W * Z :=
  let '(w1, event) := newEvent subject reason eventType claims w in
  match sendEvent target event w1 with
  | (w2, Err _) => (w2, 1)
  | (w2, Ok _) => (w2, 0)
  end.

Definition runRevoke (target subject reason : string) : W -> W * Z :=
  send target subject reason eventCredentialRevoked {[ "change_type" := VStr "revoke" ]}.
Definition runRevokeDelegation (target subject reason : string) (depth : Z) : W -> W * Z :=
  send target subject reason eventAgentDelegationRevoked {[ "delegation_depth" := VInt depth ]}.
Definition runReduceCapability (target subject reason removeCap : string) : W -> W * Z :=
  send target subject reason eventAgentCapabilityReduced {[ "removed_capabilities" := VArr [VStr removeCap] ]}.
Definition runComplianceChange (target subject reason status : string) : W -> W * Z :=
  send target subject reason eventDeviceCompliance
    {[ "current_status" := VStr status; "previous_status" := VStr "compliant" ]}.
Definition runReduceBlastRadius (target subject reason newScope : string) : W -> W * Z :=
  send target subject reason eventAgentBlastReduced {[ "new_blast_radius" := VStr newScope ]}.
Definition runMCPCompromised (target toolURI reason : string) : W -> W * Z :=
  send target toolURI reason eventMCPToolCompromised {[ "tool_uri" := VStr toolURI ]}.
Definition runMCPDeregistered (target serverID reason : string) : W -> W * Z :=
  send target ("mcp-server://" +:+ serverID) reason eventMCPServerDeregistered {[ "server_id" := VStr serverID ]}.
Definition runMCPPermission (target toolURI reason addCap : string) : W -> W * Z :=
  send target toolURI reason eventMCPPermissionChanged
    {[ "tool_uri" := VStr toolURI; "added_capabilities" := VArr [VStr addCap] ]}.

(** * Watch mode: one event per tick, drawn at random, until the context ends *)

Record eventGenerator : Type := { name : string; subject : string; genFn : string -> W -> W * securityEvent }.
Definition generators : list eventGenerator :=
  [ {| name := "credential-revoke"; subject := "wimse://dev.local/ns/default/sa/demo-agent";
       genFn s := newEvent s "watch: credential rotation" eventCredentialRevoked {[ "change_type" := VStr "revoke" ]} |};
    {| name := "delegation-revoke"; subject := "wimse://dev.local/agent/orchestrator-1";
       genFn s := newEvent s "watch: delegation severed" eventAgentDelegationRevoked {[ "delegation_depth" := VInt 2 ]} |};
    {| name := "capability-reduce"; subject := "wimse://dev.local/agent/worker-3";
       genFn s := newEvent s "watch: privilege reduction" eventAgentCapabilityReduced
                    {[ "removed_capabilities" := VArr [VStr "write"] ]} |};
    {| name := "compliance-change"; subject := "wimse://dev.local/ns/prod/sa/batch-job";
       genFn s := newEvent s "watch: compliance drift" eventDeviceCompliance
                    {[ "current_status" := VStr "non-compliant"; "previous_status" := VStr "compliant" ]} |};
    {| name := "blast-radius-reduce"; subject := "wimse://dev.local/agent/data-bot";
       genFn s := newEvent s "watch: scope tightened" eventAgentBlastReduced
                    {[ "new_blast_radius" := VStr "db:analytics-readonly" ]} |};
    {| name := "mcp-tool-compromised"; subject := "https://mcp.example.com/tools/code-search";
       genFn s := newEvent s "watch: vuln disclosed" eventMCPToolCompromised {[ "tool_uri" := VStr s ]} |};
    {| name := "session-revoked"; subject := "wimse://dev.local/ns/default/sa/api-gateway";
       genFn s := newEvent s "watch: session expired" eventSessionRevoked ∅ |};
    {| name := "policy-violation"; subject := "wimse://dev.local/agent/rogue-bot";
       genFn s := newEvent s "watch: unauthorized access attempt" eventPolicyViolation
                    {[ "violation" := VStr "exceeded_blast_radius" ]} |} ].

(** The draws of [rand.IntN], one per tick before the context ended; the lines that are printed
    are the outcomes in order. *)
Fixpoint runWatch (target : string) (draws : list nat) (w : W) : W * list (string * string * result SendErr unit) :=
  match draws with
  | [] => (w, [])
  | d :: draws' =>
      match generators !! d with
      | None => (w, [])
      | Some gen =>
          let '(w1, event) := genFn gen (subject gen) w in
          let '(w2, r) := sendEvent target event w1 in
          let '(w3, rest) := runWatch target draws' w2 in
          (w3, (name gen, subject gen, r) :: rest)
      end
  end.

(** * Test mode *)

(** [checkHealth] *)
Definition checkHealth (target : string) (w : W) : W * bool :=
  match w_get (trimSlashes target +:+ "/v1/sys/health") w with
  | (w', Ok status) => (w', status =? 200)
  | (w', Err _) => (w', false)
  end.

(** The poll loop of the two verifications: [None] when the fuel is spent. *)
Definition pollPause : Duration := 100000000.
Fixpoint poll (fuel : nat) (probe : W -> W * bool) (deadline : Time) (w : W) : W * option bool :=
  match fuel with
  | O => (w, None)
  | S fuel' =>
      let '(w1, t) := w_now w in
      if negb (Before t deadline) then (w1, Some false) else
      let '(w2, ok) := probe w1 in
      if ok then (w2, Some true) else poll fuel' probe deadline (w_sleep pollPause w2)
  end.
(** One round per pause that fits the timeout, the last check and one to spare *)
Definition pollFuel (timeout : Duration) : nat := S (S (Z.to_nat (timeout / pollPause))).
Definition pollFor (probe : W -> W * bool) (timeout : Duration) (w : W) : W * option bool :=
  let '(w1, t) := w_now w in poll (pollFuel timeout) probe (t + timeout) w1.

(** [verifyRevocationIndex] and [verifyCascadePropagation]; the subject and the identifier are
    only used in the error message. *)
Definition hashAnswers (target : string) (w : W) : W * bool :=
  match w_get (trimSlashes target +:+ "/v1/federation/revocation-hash") w with
  | (w', Ok status) => (w', status =? 200)
  | (w', Err _) => (w', false)
  end.
Definition verifyRevocationIndex (target subjectURI : string) (timeout : Duration) : W -> W * option bool :=
  pollFor (hashAnswers target) timeout.
Definition verifyCascadePropagation (target jti : string) (timeout : Duration) : W -> W * option bool :=
  pollFor (checkHealth target) timeout.

(** The test cases *)
Record testCase : Type := { tc_name : string; tc_event : W -> W * securityEvent }.
Definition testCases : list testCase :=
  let case n s ty cl := {| tc_name := n; tc_event := newEvent s "integration-test" ty cl |} in
  [ case "credential-revocation" "wimse://test.local/ns/default/sa/test-agent" eventCredentialRevoked
      {[ "change_type" := VStr "revoke" ]};
    case "session-revocation" "wimse://test.local/ns/default/sa/test-session" eventSessionRevoked ∅;
    case "compliance-change" "wimse://test.local/ns/prod/sa/test-batch" eventDeviceCompliance
      {[ "current_status" := VStr "non-compliant"; "previous_status" := VStr "compliant" ]};
    case "delegation-revocation" "wimse://test.local/agent/test-orchestrator" eventAgentDelegationRevoked
      {[ "delegation_depth" := VInt 1 ]};
    case "capability-reduction" "wimse://test.local/agent/test-worker" eventAgentCapabilityReduced
      {[ "removed_capabilities" := VArr [VStr "write"; VStr "delete"] ]};
    case "blast-radius-reduction" "wimse://test.local/agent/test-bot" eventAgentBlastReduced
      {[ "new_blast_radius" := VStr "namespace:test" ]};
    case "mcp-tool-compromised" "https://mcp.test.local/tools/test-tool" eventMCPToolCompromised
      {[ "tool_uri" := VStr "https://mcp.test.local/tools/test-tool" ]};
    case "mcp-server-deregistered" "mcp-server://test-server" eventMCPServerDeregistered
      {[ "server_id" := VStr "test-server" ]};
    case "mcp-permission-changed" "https://mcp.test.local/tools/test-tool" eventMCPPermissionChanged
      {[ "tool_uri" := VStr "https://mcp.test.local/tools/test-tool"; "added_capabilities" := VArr [VStr "exec"] ]};
    case "token-revoked" "wimse://test.local/ns/default/sa/test-token" eventTokenRevoked ∅;
    case "policy-violation" "wimse://test.local/agent/test-rogue" eventPolicyViolation
      {[ "violation" := VStr "blast_radius_exceeded" ]} ].

(** All events are built before the first one is sent. *)
Fixpoint buildTests (l : list testCase) (w : W) : W * list (string * securityEvent) :=
  match l with
  | [] => (w, [])
  | tc :: l' =>
      let '(w1, event) := tc_event tc w in
      let '(w2, rest) := buildTests l' w1 in
      (w2, (tc_name tc, event) :: rest)
  end.

(** The flags of the test mode *)
Record TestFlags : Type := { f_target : string; f_timeout : Duration; verifyRevocation : bool; verifyCascade : bool }.

(** One test: delivered, and verified as far as the flags ask for it *)
Definition runCase (f : TestFlags) (event : securityEvent) (w : W) : W * bool :=
  match sendEvent (f_target f) event w with
  | (w1, Err _) => (w1, false)
  | (w1, Ok _) =>
      let '(w2, revOk) :=
        if verifyRevocation f
        then verifyRevocationIndex (f_target f) (from_option URI "" (SubID event)) (f_timeout f) w1
        else (w1, Some true) in
      if negb (bool_decide (revOk = Some true)) then (w2, false) else
      let '(w3, casOk) :=
        if verifyCascade f then verifyCascadePropagation (f_target f) (JTI event) (f_timeout f) w2
        else (w2, Some true) in
      (w3, bool_decide (casOk = Some true))
  end.
Fixpoint runCases (f : TestFlags) (l : list (string * securityEvent)) (passed failed : nat) (w : W) : W * (nat * nat) :=
  match l with
  | [] => (w, (passed, failed))
  | (_, event) :: l' =>
      match runCase f event w with
      | (w1, true) => runCases f l' (S passed) failed w1
      | (w1, false) => runCases f l' passed (S failed) w1
      end
  end.

(** [runTest] *)
Definition runTest (f : TestFlags) (w : W) : W * Z :=
  match checkHealth (f_target f) w with
  | (w1, false) => (w1, 1)
  | (w1, true) =>
      let '(w2, tests) := buildTests testCases w1 in
      let '(w3, (passed, failed)) := runCases f tests 0 0 w2 in
      (w3, if (0 <? failed)%nat then 1 else 0)
  end.

(** The commands of [main]: what is run with the remaining arguments, or the exit code after the
    usage text, the version or the list of event types *)
Inductive Command : Type :=
| CmdRevoke | CmdRevokeDelegation | CmdReduceCapability | CmdComplianceChange | CmdReduceBlastRadius
| CmdMCPCompromised | CmdMCPDeregistered | CmdMCPPermission | CmdWatch | CmdTest.
Definition main (osArgs : list string) : Z + Command * list string :=
  match osArgs with
  | _ :: cmd :: args =>
      if (cmd =? "revoke")%string then inr (CmdRevoke, args)
      else if (cmd =? "revoke-delegation")%string then inr (CmdRevokeDelegation, args)
      else if (cmd =? "reduce-capability")%string then inr (CmdReduceCapability, args)
      else if (cmd =? "compliance-change")%string then inr (CmdComplianceChange, args)
      else if (cmd =? "reduce-blast-radius")%string then inr (CmdReduceBlastRadius, args)
      else if (cmd =? "mcp-compromised")%string then inr (CmdMCPCompromised, args)
      else if (cmd =? "mcp-deregistered")%string then inr (CmdMCPDeregistered, args)
      else if (cmd =? "mcp-permission")%string then inr (CmdMCPPermission, args)
      else if (cmd =? "watch")%string then inr (CmdWatch, args)
      else if (cmd =? "test")%string then inr (CmdTest, args)
      else if (cmd =? "list")%string then inl 0
      else if (cmd =? "version")%string then inl 0
      else if str_mem cmd ["-h"; "--help"; "help"] then inl 0
      else inl 1
  | _ => inl 1
  end.

(** * Time: the polls end, identifiers are distinct *)

Section Time.
Context `{!WorldLaws W}.

Lemma poll_enough probe deadline fuel w :
  (forall v, w_time v <= w_time (fst (probe v))) -> (0 < fuel)%nat ->
  deadline - w_time w <= (Z.of_nat fuel - 1) * pollPause -> snd (poll fuel probe deadline w) <> None.
Proof using All.
  intros Hp. revert w. induction fuel as [|fuel IH]; intros w Hf Hd; [lia|]. cbn.
  destruct (now_between w) as [Hlo Hhi]. destruct (w_now w) as [w1 t]; cbn in *.
  unfold Before. destruct (Z.ltb_spec t deadline) as [Hlt|]; [|done]. cbn.
  specialize (Hp w1). destruct (probe w1) as [w2 []]; cbn in *; [done|].
  pose proof (sleep_lasts pollPause w2) as Hs. unfold pollPause in *. apply IH; lia.
Qed.

(** The verifications of the test mode return: the rounds the model allows are enough, however
    slow the network is and whatever it answers. *)
Theorem verifications_end target subj jti timeout (w : W) :
  snd (verifyRevocationIndex target subj timeout w) <> None /\
  snd (verifyCascadePropagation target jti timeout w) <> None.
Proof using All.
  assert (forall probe, (forall v, w_time v <= w_time (fst (probe v))) -> snd (pollFor probe timeout w) <> None) as Hpoll.
  { intros probe Hp. unfold pollFor, pollFuel. destruct (now_between w) as [Hlo Hhi].
    destruct (w_now w) as [w1 t]; cbn [fst snd] in *. apply poll_enough; [done|lia|].
    pose proof (Z.div_mod timeout pollPause ltac:(done)). pose proof (Z.mod_pos_bound timeout pollPause ltac:(done)).
    unfold pollPause in *. lia. }
  split; apply Hpoll; intros v; [unfold hashAnswers|unfold checkHealth];
    match goal with |- context [w_get ?u v] => pose proof (get_later u v); by destruct (w_get u v) as [? []] end.
Qed.

(** A clock that moves on with every reading *)
Definition strict_clock : Prop := forall w, snd (w_now w) < w_time (fst (w_now w)).

Lemma newEvent_jti subj reason ty claims w : strict_clock ->
  exists t, JTI (snd (newEvent subj reason ty claims w)) = "siggen-" +:+ pretty (UnixNano t) /\
    w_time w <= t < w_time (fst (newEvent subj reason ty claims w)).
Proof using All.
  intros Hs. unfold newEvent.
  destruct (now_between w). destruct (w_now w) as [w1 t1]; cbn in *.
  destruct (now_between w1). destruct (w_now w1) as [w2 t2]; cbn in *.
  destruct (now_between w2). pose proof (Hs w2). destruct (w_now w2) as [w3 t3]; cbn in *.
  exists t3. split; [done|lia].
Qed.

(** The cases of the test mode build their events with [newEvent]. *)
Definition builds (tc : testCase) : Prop := exists s r ty cl, tc_event tc = newEvent s r ty cl.
Lemma testCases_build : Forall builds testCases.
Proof using. repeat constructor; repeat eexists. Qed.

Lemma buildTests_jtis l w : strict_clock -> Forall builds l ->
  Forall (fun x => exists t, JTI (snd x) = "siggen-" +:+ pretty (UnixNano t) /\ w_time w <= t) (snd (buildTests l w)) /\
  NoDup ((fun x => JTI (snd x)) <$> snd (buildTests l w)).
Proof using All.
  intros Hs Hl. revert w. induction Hl as [|tc l (s & r & ty & cl & Htc) _ IH]; intros w; [by split; constructor|].
  cbn. rewrite Htc. destruct (newEvent_jti s r ty cl w Hs) as (t & Hj & Hlo & Hhi).
  destruct (newEvent s r ty cl w) as [w1 ev]; cbn in *. specialize (IH w1).
  destruct (buildTests l w1) as [w2 rest]; cbn in *. destruct IH as [HF HN]. split.
  - constructor; [by exists t|]. eapply Forall_impl; [exact HF|]. cbn. intros x (u & ? & ?). exists u. split; [done|lia].
  - constructor; [|done]. rewrite list_elem_of_fmap. intros (x & Hx & Hin).
    rewrite Forall_forall in HF. destruct (HF x Hin) as (u & Hu & Hle). rewrite Hu, Hj in Hx.
    apply (inj (String.append "siggen-")) in Hx. apply (inj pretty) in Hx. unfold UnixNano in Hx. lia.
Qed.

(** With a clock that moves on with every reading, the events of a test run have different
    identifiers, so that no receiver takes one for a repetition of another. *)
Theorem test_events_distinct (w : W) : strict_clock ->
  NoDup ((fun x => JTI (snd x)) <$> snd (buildTests testCases w)).
Proof using All. intros Hs. apply buildTests_jtis; [done|apply testCases_build]. Qed.
End Time.

(** * The exit code of the test mode *)

Fixpoint allPass (f : TestFlags) (l : list (string * securityEvent)) (w : W) : bool :=
  match l with
  | [] => true
  | (_, event) :: l' => let '(w1, ok) := runCase f event w in ok && allPass f l' w1
  end.

Lemma runCases_count f l p n w : let r := snd (runCases f l p n w) in
  (fst r + snd r = p + n + length l)%nat /\ (n <= snd r)%nat /\ (snd r = n <-> allPass f l w = true).
Proof using.
  revert p n w. induction l as [|[x ev] l IH]; intros p n w; cbn; [split_and!; [lia|done|done]|].
  destruct (runCase f ev w) as [w1 []]; cbn.
  - destruct (IH (S p) n w1) as (H1 & H2 & H3). split_and!; [lia|done|done].
  - destruct (IH p (S n) w1) as (H1 & H2 & _). split_and!; [lia|lia|]. split; [lia|done].
Qed.

(** The test mode exits with 0 exactly when the unit is healthy and every one of the eleven
    cases, in its turn, was delivered with a status under 300 and verified as far as asked. *)
Theorem test_exit_code f (w : W) :
  snd (runTest f w) = 0 <->
  snd (checkHealth (f_target f) w) = true /\
  let '(w2, tests) := buildTests testCases (fst (checkHealth (f_target f) w)) in allPass f tests w2 = true.
Proof using.
  unfold runTest. destruct (checkHealth (f_target f) w) as [w1 []]; cbn [fst snd]; [|naive_solver].
  destruct (buildTests testCases w1) as [w2 tests]. pose proof (runCases_count f tests 0 0 w2) as Hc. cbn zeta in Hc.
  destruct (runCases f tests 0 0 w2) as [w3 [p n]]; cbn [fst snd] in *. destruct Hc as (_ & _ & <-).
  destruct (Nat.ltb_spec 0 n); cbn [snd]; split; [done|intros [_ ?]; lia|split; [done|lia]|done].
Qed.

End Commands.

(** * The commands against a unit in dev mode *)

Section Unit.
Context {I : Type} `{!RevocationIndex I} `{!JwtLib} `{!JwsLib} {PubKey : Type}.
Variable import_key : PubKey -> option jwk_key.
Variable hdr_KeyID : jws_headers -> option string.
Variable clock : nat -> Time.
Variable rx : Receiver.Receiver (PubKey := PubKey).
Variable os : Receiver.Orders.
(** The address of the unit, and the status of its other endpoints *)
Variable base : string.
Variable get : string -> Receiver.RxState (I := I) -> result string Z.

(** The event a unit decodes from the JSON of an event of the generator *)
Definition decodeEvent (e : securityEvent) : SecurityEvent :=
  {| ev_Issuer := Issuer e; ev_JTI := JTI e; ev_IssuedAt := IssuedAt e; ev_Audience := Audience e;
     ev_SubjectID := (fun s => {| si_Format := Format s; si_SpiffeID := ""; si_Email := ""; si_URI := URI s |}) <$> SubID e;
     ev_Events := Events e; ev_TransactionID := "" |}.

(** The unit's receiver, and the clock of the host the generator runs on *)
Record UnitWorld : Type := { u_rx : Receiver.RxState (I := I); u_time : Time }.
#[local] Instance unit_world : World UnitWorld := {|
  w_now w := ({| u_rx := u_rx w; u_time := u_time w + 1 |}, u_time w);
  w_post url ct e w :=
    if (url =? base +:+ "/v1/signals/events")%string then
      let '(s', r) := Api.Signals.handleSignalEvent
        (Receiver.ReceiveSET import_key hdr_KeyID clock rx os) (Receiver.ReceiveEvent clock rx os)
        true true ct (Err ApiCommon.BodyTooLarge) (Ok (decodeEvent e)) (u_rx w) in
      ({| u_rx := s'; u_time := u_time w |}, Ok (ApiCommon.status r, ""))
    else (w, Ok (404, ""));
  w_get url w := (w, get url (u_rx w));
  w_sleep d w := {| u_rx := u_rx w; u_time := u_time w + Z.max 0 d |};
  w_time w := u_time w;
|}.
#[local] Instance unit_world_laws : WorldLaws UnitWorld.
Proof. split; cbn; intros; lia. Qed.

Lemma newEvent_fields subj reason ty claims (w : UnitWorld) : let '(w', e) := newEvent subj reason ty claims w in
  u_rx w' = u_rx w /\ SubID e = Some {| Format := "wimse"; URI := subj |} /\ dom (Events e) = {[ ty ]}.
Proof. cbn. split; [done|]. split; [done|]. apply dom_singleton_L. Qed.

Lemma delivered_means_received target e (w w' : UnitWorld) : trimSlashes target = base ->
  sendEvent target e w = (w', Ok tt) ->
  Receiver.ReceiveEvent clock rx os (Some (decodeEvent e)) (u_rx w) = (u_rx w', Ok tt).
Proof.
  intros Ht. unfold sendEvent. cbn -[Receiver.ReceiveEvent]. rewrite Ht, String.eqb_refl.
  destruct (Receiver.ReceiveEvent clock rx os (Some (decodeEvent e)) (u_rx w)) as [s' [[]|err]].
  - by intros [= <-].
  - destruct err; cbn; discriminate.
Qed.

(** A command of the generator that exits with 0 against a unit in dev mode did what it says:
    when the unit's policy orders revocation for events of that type about that subject, the
    subject is revoked in the unit's index, up to the end of the grace period counted from a
    reading of the unit's clock during the call. *)
Theorem sent_revocation_revokes target subj reason ty claims evaluate idx (w w' : UnitWorld) :
  Receiver.monotone clock -> trimSlashes target = base -> subj <> "" ->
  Receiver.rx_policy rx = Some evaluate ->
  (forall now d ev, Receiver.revocationSubject ev = subj -> dom (ev_Events ev) = {[ ty ]} ->
     evaluate (Receiver.policyInput os now ev) = Ok d -> Receiver.wantsRevocation d = true) ->
  Receiver.rx_index (u_rx w) = Some idx ->
  send target subj reason ty claims w = (w', 0) ->
  exists n, (Receiver.rx_tick (u_rx w) <= n < Receiver.rx_tick (u_rx w'))%nat /\
    Receiver.revoked_until (clock n + Receiver.rx_revocationGrace rx) subj (u_rx w').
Proof.
  intros Hm Ht Hs Hpol Hw Hi. unfold send. pose proof (newEvent_fields subj reason ty claims w) as Hn.
  destruct (newEvent subj reason ty claims w) as [w1 e]. destruct Hn as (Hrx & Hsub & Hdom).
  destruct (sendEvent target e w1) as [w2 [[]|]] eqn:Hsend; [|discriminate]. intros [= <-].
  apply delivered_means_received in Hsend; [|done]. rewrite Hrx in Hsend.
  assert (Receiver.revocationSubject (decodeEvent e) = subj) as Hsubj.
  { unfold Receiver.revocationSubject, decodeEvent. cbn. rewrite Hsub. cbn. unfold str_nonempty.
    by rewrite (proj2 (String.eqb_neq _ _) Hs). }
  destruct (Receiver.ReceiveEvent_revokes import_key hdr_KeyID clock rx os (decodeEvent e) (u_rx w) (u_rx w2) evaluate idx)
    as (n & Hn & Hrev); [done|done|done| |done|by rewrite Hsubj|].
  - intros now d Hd. by eapply (Hw now d (decodeEvent e)).
  - exists n. split; [done|]. rewrite Hsubj in Hrev. exact (Hrev []).
Qed.
End Unit.

(** * Evaluation *)

#[local] Existing Instance JwtModel.lib.
#[local] Existing Instance Receiver.demo_jws.
#[local] Existing Instance Revocation.InMemory_RevocationIndex.
#[local] Existing Instance key_order.

Definition demo_base : string := "http://localhost:8693".
Definition demo_get (url : string) (s : Receiver.RxState (I := Revocation.InMemoryRevocationIndex)) : result string Z :=
  Ok (if (url =? demo_base +:+ "/v1/sys/health")%string then 200
      else if (url =? demo_base +:+ "/v1/federation/revocation-hash")%string then
        match Receiver.rx_index s with Some _ => 200 | None => 503 end
      else 404).
Definition demo_world (rx : Receiver.Receiver (PubKey := string)) : World UnitWorld :=
  unit_world Receiver.demo_import Receiver.demo_kid Receiver.demo_clock rx Receiver.demo_orders demo_base demo_get.
Definition demo_start : UnitWorld := {| u_rx := Receiver.demo_s0; u_time := 63900000000 * Second |}.

(** A unit whose policy lets events in and revokes nothing *)
Definition lax_policy (pi : PolicyInput) : result string PolicyDecision :=
  Ok {| Allowed := true; pd_Reason := ""; pd_Claims := ∅ |}.
Definition lax_rx : Receiver.Receiver (PubKey := string) :=
  fst (@Receiver.NewReceiver Revocation.InMemoryRevocationIndex string
    [Receiver.WithReceiverPolicy (Some lax_policy); Receiver.WithReceiverRevocation (Some Revocation.NewRevocationIndex)]).
Definition demo_flags : TestFlags :=
  {| f_target := demo_base +:+ "/"; f_timeout := 5 * Second; verifyRevocation := true; verifyCascade := true |}.

(** The verification of the revocations passes on a unit that revoked nothing. *)
Example test_passes_unrevoked :
  let r := @runTest _ (demo_world lax_rx) demo_flags demo_start in
  snd r = 0 /\ Receiver.rx_index (u_rx (fst r)) = Some Revocation.NewRevocationIndex.
Proof. vm_compute. auto. Qed.

(** A clock that does not move between two readings gives all events of a run one identifier. *)
Definition frozen : World unit := {|
  w_now w := (w, 0); w_post _ _ _ w := (w, Ok (202, "")); w_get _ w := (w, Ok 200); w_sleep _ w := w; w_time _ := 0 |}.
Example coarse_clock_repeats :
  length (remove_dups ((fun x => JTI (snd x)) <$> snd (@buildTests _ (@testCases _ frozen) tt))) = 1%nat.
Proof. vm_compute. reflexivity. Qed.

(** Witness: a poll of a unit that answers *)
Lemma verifications_end_witness :
  snd (@verifyRevocationIndex _ (demo_world lax_rx) demo_base "s" Second demo_start) <> None.
Proof.
  apply (@verifications_end _ (demo_world lax_rx) (unit_world_laws _ _ _ _ _ _ _) demo_base "s" "j" Second demo_start).
Defined.

(** Witness: the clock of the unit's world moves on *)
Lemma test_events_distinct_witness :
  NoDup ((fun x => JTI (snd x)) <$> snd (@buildTests _ (@testCases _ (demo_world lax_rx)) demo_start)).
Proof.
  apply (@test_events_distinct _ (demo_world lax_rx) (unit_world_laws _ _ _ _ _ _ _) demo_start).
  intros w. cbn. lia.
Defined.

Lemma demo_policy_revokes pi d : Receiver.demo_policy pi = Ok d -> Receiver.wantsRevocation d = true.
Proof. unfold Receiver.demo_policy. intros [= <-]. reflexivity. Qed.

(** Witness: revoking a credential on a unit with a policy that revokes *)
Lemma sent_revocation_revokes_witness : exists w' n,
  @runRevoke _ (demo_world Receiver.demo_rx) demo_base "wimse://dev.local/a" "compromised" demo_start = (w', 0) /\
  Receiver.revoked_until (Receiver.demo_clock n + Receiver.rx_revocationGrace Receiver.demo_rx) "wimse://dev.local/a" (u_rx w').
Proof.
  destruct (@runRevoke _ (demo_world Receiver.demo_rx) demo_base "wimse://dev.local/a" "compromised" demo_start)
    as [w' c] eqn:H.
  assert (c = 0) as -> by (change c with (snd (w', c)); rewrite <- H; vm_compute; reflexivity).
  destruct (sent_revocation_revokes Receiver.demo_import Receiver.demo_kid Receiver.demo_clock Receiver.demo_rx
    Receiver.demo_orders demo_base demo_get demo_base "wimse://dev.local/a" "compromised" eventCredentialRevoked
    {[ "change_type" := VStr "revoke" ]} Receiver.demo_policy Revocation.NewRevocationIndex demo_start w')
    as (n & _ & Hr); [exact Receiver.demo_monotone|reflexivity|done|reflexivity| |reflexivity|exact H|].
  - intros now d ev _ _ Hd. exact (demo_policy_revokes _ _ Hd).
  - exists w', n. split; [reflexivity|exact Hr].
Defined.

End Siggen.
