(* ===== verification/Metrics.v ===== *)
(** The Prometheus collectors of the program ([pkg/metrics], [pkg/federation/metrics.go],
    [pkg/agent/metrics.go], [pkg/operator/metrics.go]): what is declared, what is registered, and
    how the code labels what it records. The client library is not part of the repository; the
    conditions under which its registration and its label look-up do not panic are those it
    documents. *)
From Stdlib Require Import ZArith QArith Lia Ascii.
From stdpp Require Import base gmap strings list sorting.
From S2P Require Import Prelude.
From S2P Require Import GoLib.
From S2P Require Import FedResolver.

#[local] Open Scope string_scope.
#[local] Open Scope list_scope.

Module Metrics.

(** * Collectors *)

Inductive Kind : Type := Counter | Gauge | Histogram (buckets : list Q).
Record Opts : Type := {
  kind : Kind; Namespace : string; Subsystem : string; Name : string; Help : string; labels : list string;
}.
Definition opts (k : Kind) (ns sub n h : string) (ls : list string) : Opts :=
  {| kind := k; Namespace := ns; Subsystem := sub; Name := n; Help := h; labels := ls |}.

(** The fully qualified name: the parts that are not empty, joined *)
Definition fqName (o : Opts) : string := Join (List.filter str_nonempty [Namespace o; Subsystem o; Name o]) "_".

Definition namespace : string := "starfly".

Section Collectors.
(** The two bucket layouts of the library *)
Variable DefBuckets : list Q.
Variable ExponentialBuckets : Q -> Q -> nat -> list Q.

(** The collectors of a unit, in the order of [New] *)
Definition unitCollectors1 : list (string * Opts) :=
  [ ("ExchangeRequestsTotal", opts Counter namespace "" "exchange_requests_total" "Total number of token exchange requests." ["status"; "source_type"; "target_domain"]);
    ("ExchangeDurationSeconds", opts (Histogram DefBuckets) namespace "" "exchange_duration_seconds" "Duration of token exchange operations in seconds." []);
    ("PolicyEvaluationsTotal", opts Counter namespace "" "policy_evaluations_total" "Total number of OPA policy evaluations." ["action"; "decision"]);
    ("PolicyEvaluationDurationSeconds", opts (Histogram DefBuckets) namespace "" "policy_evaluation_duration_seconds" "Duration of OPA policy evaluations in seconds." []);
    ("StoreOperationsTotal", opts Counter namespace "" "store_operations_total" "Total number of KV store operations." ["operation"]);
    ("AuditEventsTotal", opts Counter namespace "" "audit_events_total" "Total number of audit events logged." ["type"; "action"]);
    ("RateLimitRejectedTotal", opts Counter namespace "" "ratelimit_rejected_total" "Total number of requests rejected by rate limiting." ["scope"]);
    ("SyncSignalsTotal", opts Counter namespace "" "sync_signals_total" "Total number of sync bus signal flashes." ["type"; "status"]);
    ("TLSHandshakeDurationSeconds", opts (Histogram [1 # 1000; 1 # 200; 1 # 100; 1 # 40; 1 # 20; 1 # 10; 1 # 4]) namespace "" "tls_handshake_duration_seconds" "Duration of TLS handshakes on the mTLS listener in seconds." ["status"]);
    ("UnitInfo", opts Gauge namespace "" "unit_info" "Static metadata about this Starfly unit." ["version"; "unit_id"; "trust_domain"]);
    ("RevocationCheckErrorsTotal", opts Counter namespace "" "revocation_check_errors_total" "Total number of revocation check failures (fail-open events)." []);
    ("ExchangeActive", opts Gauge namespace "" "exchange_active" "Number of concurrent exchanges in flight." []);
    ("NATSConsumerLag", opts Gauge namespace "" "nats_consumer_lag" "Number of messages behind on NATS signal processing." []);
    ("RevocationIndexSize", opts Gauge namespace "" "revocation_index_size" "Current number of entries in the revocation index." []);
    ("JWKSFetchErrorsTotal", opts Counter namespace "" "jwks_fetch_errors_total" "Total number of JWKS fetch failures." []);
    ("AuditBufferSize", opts Gauge namespace "" "audit_buffer_size" "Number of audit events buffered but not yet flushed." []);
    ("SoulSnapshotDurationSeconds", opts (Histogram [1 # 100; 1 # 20; 1 # 10; 1 # 4; 1 # 2; 1 # 1; 5 # 2]) namespace "" "soul_snapshot_duration_seconds" "Duration of soul manifest snapshot writes to the anchor." []);
    ("SoulAnchorAgeSeconds", opts Gauge namespace "" "soul_anchor_age_seconds" "Seconds since the last successful soul snapshot was written to the anchor." []);
    ("DelegationActive", opts Gauge namespace "" "delegation_active" "Active delegation chains by depth." ["depth"]);
    ("DelegationDepthMax", opts Gauge namespace "" "delegation_depth_max" "Maximum observed delegation depth." []);
    ("BlastRadiusDenialsTotal", opts Counter namespace "" "blast_radius_denials_total" "Blast radius violations by scope." ["scope"]);
    ("ExecutionScopeTotal", opts Counter namespace "" "execution_scope_total" "Execution-scoped exchanges by action." ["action"]);
    ("RevocationWriteDurationSeconds", opts (Histogram [1 # 100000; 1 # 20000; 1 # 10000; 1 # 2000; 1 # 1000; 1 # 200; 1 # 100]) namespace "" "revocation_write_duration_seconds" "Time to write a revocation entry." []) ].
Definition unitCollectors2 : list (string * Opts) :=
  [ ("RevocationLookupDurationSeconds", opts (Histogram [1 # 100000; 1 # 20000; 1 # 10000; 1 # 2000; 1 # 1000; 1 # 200; 1 # 100]) namespace "" "revocation_lookup_duration_seconds" "Time to check if a token is revoked." []);
    ("CAEPCascadeDurationSeconds", opts (Histogram [1 # 10; 1 # 4; 1 # 2; 1 # 1; 2 # 1; 5 # 1; 10 # 1]) namespace "" "caep_cascade_duration_seconds" "Total cascade propagation time." []);
    ("CAEPCascadeTokensInvalidated", opts Counter namespace "" "caep_cascade_tokens_invalidated" "Tokens invalidated by cascades." []);
    ("NATSPublishedTotal", opts Counter namespace "" "nats_published_total" "Signals published by subject." ["subject"]);
    ("NATSReceivedTotal", opts Counter namespace "" "nats_received_total" "Signals received by subject." ["subject"]);
    ("SoulManifestSequence", opts Gauge namespace "" "soul_manifest_sequence" "Current manifest sequence number." []);
    ("SoulAnchorReachable", opts Gauge namespace "" "soul_anchor_reachable" "Whether the soul anchor is reachable (0 or 1)." []);
    ("FabricUnitsTotal", opts Gauge namespace "" "fabric_units_total" "Total units in fabric." []);
    ("FabricUnitsHealthy", opts Gauge namespace "" "fabric_units_healthy" "Healthy units in fabric." []);
    ("FabricTrustDomainsTotal", opts Gauge namespace "" "fabric_trust_domains_total" "Number of trust domains." []);
    ("JWKSCacheHitsTotal", opts Counter namespace "" "jwks_cache_hits_total" "JWKS cache hits." []);
    ("JWKSCacheMissesTotal", opts Counter namespace "" "jwks_cache_misses_total" "JWKS cache misses." []);
    ("JWKSCacheSize", opts Gauge namespace "" "jwks_cache_size" "Current JWKS cache size." []);
    ("PolicyDenialsTotal", opts Counter namespace "" "policy_denials_total" "Policy denials by rule name." ["rule"]);
    ("PolicyBundleReloadTotal", opts Counter namespace "" "policy_bundle_reload_total" "Policy bundle reloads." []);
    ("TLSCertExpirySeconds", opts Gauge namespace "" "tls_cert_expiry_seconds" "Seconds until the TLS certificate expires." []);
    ("MCPToolCallsTotal", opts Counter namespace "" "mcp_tool_calls_total" "Total MCP tool call verification attempts." ["tool_id"; "decision"]);
    ("MCPVerifyDurationSeconds", opts (Histogram [1 # 10000; 1 # 2000; 1 # 1000; 1 # 200; 1 # 100; 1 # 20; 1 # 10]) namespace "" "mcp_verify_duration_seconds" "Duration of MCP tool call verification." []);
    ("MCPRegisteredTools", opts Gauge namespace "" "mcp_registered_tools" "Number of tools in the MCP registry." []);
    ("MCPTokenAcquisitionsTotal", opts Counter namespace "" "mcp_token_acquisitions_total" "Total MCP client token acquisition attempts." ["status"]);
    ("MCPCheckDenialsTotal", opts Counter namespace "" "mcp_check_denials_total" "MCP verification denials by pipeline check name." ["check"]);
    ("ToolCallTotal", opts Counter namespace "" "tool_call_total" "Total universal tool call verification attempts by protocol and decision." ["protocol"; "decision"]) ].
Definition unitCollectors3 : list (string * Opts) :=
  [ ("ToolCallDurationSeconds", opts (Histogram [1 # 10000; 1 # 2000; 1 # 1000; 1 # 200; 1 # 100; 1 # 20; 1 # 10]) namespace "" "tool_call_duration_seconds" "Duration of universal tool call verification by protocol." ["protocol"]);
    ("ToolCallProtocolTiesTotal", opts Counter namespace "" "tool_call_protocol_ties_total" "Number of times two adapters returned equal confidence — anomaly indicator for protocol confusion attempts." []);
    ("ToolRegisteredTools", opts Gauge namespace "" "tool_registered_tools" "Number of tools in the universal tool registry." []);
    ("SecretDeliveryTotal", opts Counter namespace "" "secret_delivery_total" "Total secret delivery attempts by source and result." ["source"; "result"]);
    ("SecretDeliveryDurationSeconds", opts (Histogram [1 # 10000; 1 # 2000; 1 # 1000; 1 # 200; 1 # 100; 1 # 20; 1 # 10; 1 # 2]) namespace "" "secret_delivery_duration_seconds" "Duration of secret delivery operations." ["source"]);
    ("SecretSourceReachable", opts Gauge namespace "" "secret_source_reachable" "Whether a secret source is reachable (0 or 1)." ["source"]);
    ("ManagementOperationsTotal", opts Counter namespace "" "management_operations_total" "Total management plane operations by tool and result." ["tool_id"; "exec_act"; "result"]);
    ("ManagementDenialsTotal", opts Counter namespace "" "management_denials_total" "Total management plane denials by tool and reason." ["tool_id"; "exec_act"; "denial_reason"]);
    ("ManagementBlastRadiusExceeded", opts Counter namespace "" "management_blast_radius_exceeded_total" "Total management operations that exceeded blast radius." ["tool_id"]);
    ("ManagementApprovalRequiredTotal", opts Counter namespace "" "management_approval_required_total" "Total management operations requiring multi-person approval." ["tool_id"; "exec_act"]);
    ("ManagementAfterHoursTotal", opts Counter namespace "" "management_after_hours_attempts_total" "Total management operations attempted outside business hours." ["tool_id"]);
    ("ManagementThirdPartyDenialsTotal", opts Counter namespace "" "management_third_party_denials_total" "Total management operations denied for third-party accounts." ["vendor"; "exec_act"]);
    ("FederationRelayTotal", opts Counter namespace "" "federation_relay_total" "Total revocation signals relayed to federation peers." ["peer"; "result"]);
    ("FederationRelayDuration", opts (Histogram [1 # 1000; 1 # 200; 1 # 100; 1 # 20; 1 # 10; 1 # 2; 1 # 1; 2 # 1; 5 # 1]) namespace "" "federation_relay_duration_seconds" "Duration of revocation relay to federation peers." ["peer"]);
    ("FederationReceivedTotal", opts Counter namespace "" "federation_received_total" "Total revocation signals received from federation peers." ["peer"; "result"]);
    ("FederationSyncTotal", opts Counter namespace "" "federation_sync_total" "Total hash-based revocation sync attempts with federation peers." ["peer"; "result"]);
    ("FederationSyncMismatchesTotal", opts Counter namespace "" "federation_sync_mismatches_total" "Total revocation hash mismatches detected with federation peers." ["peer"]);
    ("FederationRevocationLag", opts Gauge namespace "" "federation_revocation_lag_seconds" "Seconds since last successful revocation relay to federation peer." ["peer"]) ].
Definition unitCollectors : list (string * Opts) :=
  unitCollectors1 ++ unitCollectors2 ++ unitCollectors3.

(** What [New] registers *)
Definition unitRegistered : list string :=
  [ "ExchangeRequestsTotal"; "ExchangeDurationSeconds"; "PolicyEvaluationsTotal";
    "PolicyEvaluationDurationSeconds"; "StoreOperationsTotal"; "AuditEventsTotal"; "RateLimitRejectedTotal";
    "SyncSignalsTotal"; "TLSHandshakeDurationSeconds"; "UnitInfo"; "RevocationCheckErrorsTotal";
    "ExchangeActive"; "NATSConsumerLag"; "RevocationIndexSize"; "JWKSFetchErrorsTotal"; "AuditBufferSize";
    "SoulSnapshotDurationSeconds"; "SoulAnchorAgeSeconds"; "DelegationActive"; "DelegationDepthMax";
    "BlastRadiusDenialsTotal"; "ExecutionScopeTotal"; "RevocationWriteDurationSeconds";
    "RevocationLookupDurationSeconds"; "CAEPCascadeDurationSeconds"; "CAEPCascadeTokensInvalidated";
    "NATSPublishedTotal"; "NATSReceivedTotal"; "SoulManifestSequence"; "SoulAnchorReachable";
    "FabricUnitsTotal"; "FabricUnitsHealthy"; "FabricTrustDomainsTotal"; "JWKSCacheHitsTotal";
    "JWKSCacheMissesTotal"; "JWKSCacheSize"; "PolicyDenialsTotal"; "PolicyBundleReloadTotal";
    "TLSCertExpirySeconds"; "MCPToolCallsTotal"; "MCPVerifyDurationSeconds"; "MCPRegisteredTools";
    "MCPTokenAcquisitionsTotal"; "MCPCheckDenialsTotal"; "SecretDeliveryTotal";
    "SecretDeliveryDurationSeconds"; "SecretSourceReachable"; "ManagementOperationsTotal";
    "ManagementDenialsTotal"; "ManagementBlastRadiusExceeded"; "ManagementApprovalRequiredTotal";
    "ManagementAfterHoursTotal"; "ManagementThirdPartyDenialsTotal"; "FederationRelayTotal";
    "FederationRelayDuration"; "FederationReceivedTotal"; "FederationSyncTotal";
    "FederationSyncMismatchesTotal"; "FederationRevocationLag"; "ToolCallTotal"; "ToolCallDurationSeconds";
    "ToolCallProtocolTiesTotal"; "ToolRegisteredTools" ].

(** [NewMetrics] of the federation *)
Definition federationCollectors : list (string * Opts) :=
  [ ("PeerReachable", opts Gauge "starfly" "federation" "peer_reachable" "Whether a federated peer is reachable (1=healthy, 0.5=stale, 0=unreachable)." ["fabric_id"]);
    ("PeerJWKSAge", opts Gauge "starfly" "federation" "peer_jwks_age_seconds" "Age of the cached JWKS for a federated peer in seconds." ["fabric_id"]);
    ("PeerKeyCount", opts Gauge "starfly" "federation" "peer_key_count" "Number of public keys cached for a federated peer." ["fabric_id"]);
    ("PeerFetchTotal", opts Counter "starfly" "federation" "peer_fetch_total" "Total number of successful JWKS fetches from a federated peer." ["fabric_id"]);
    ("PeerErrorTotal", opts Counter "starfly" "federation" "peer_error_total" "Total number of failed JWKS fetches from a federated peer." ["fabric_id"]) ].
Definition federationRegistered : list string :=
  [ "PeerReachable"; "PeerJWKSAge"; "PeerKeyCount"; "PeerFetchTotal"; "PeerErrorTotal" ].

(** [NewMetrics] of the agent; the collector of the Go runtime is the library's *)
Definition agentCollectors : list (string * Opts) :=
  [ ("AttestationSources", opts Gauge "" "" "starfly_agent_attestation_sources" "Available attestation sources (1 = available, 0 = unavailable)." ["type"]);
    ("TokenAgeSeconds", opts Gauge "" "" "starfly_agent_token_age_seconds" "Seconds since last token refresh." []);
    ("TokenRefreshesTotal", opts Counter "" "" "starfly_agent_token_refreshes_total" "Total number of token refreshes (lifetime)." []);
    ("AttestationFailures", opts Counter "" "" "starfly_agent_attestation_failures_total" "Total attestation failures by source." ["source"]);
    ("ExchangeLatencySeconds", opts (Histogram DefBuckets) "" "" "starfly_agent_exchange_latency_seconds" "Starfly exchange round-trip latency." []);
    ("ExchangeErrorsTotal", opts Counter "" "" "starfly_agent_exchange_errors_total" "Total exchange errors." []) ].
Definition agentRegistered : list string :=
  [ "AttestationSources"; "TokenAgeSeconds"; "TokenRefreshesTotal"; "AttestationFailures";
    "ExchangeLatencySeconds"; "ExchangeErrorsTotal" ].

(** The collectors of the operator and [RegisterMetrics] *)
Definition operatorCollectors : list (string * Opts) :=
  [ ("ReconcileTotal", opts Counter "starfly" "operator" "reconcile_total" "Total number of reconciliation attempts." ["result"]);
    ("ReconcileDuration", opts (Histogram (ExponentialBuckets (1 # 1000) 2 15)) "starfly" "operator" "reconcile_duration_seconds" "Duration of reconciliation loops in seconds." []);
    ("ConvergenceActionsTotal", opts Counter "starfly" "operator" "convergence_actions_total" "Total number of convergence actions applied." ["type"]);
    ("WebhookValidationsTotal", opts Counter "starfly" "operator" "webhook_validations_total" "Total number of webhook validation attempts." ["result"]) ].
Definition operatorRegistered : list string :=
  [ "ReconcileTotal"; "ReconcileDuration"; "ConvergenceActionsTotal"; "WebhookValidationsTotal" ].

(** * What the client library asks for

    A metric name and a label name have the documented alphabets; names of labels that start with
    two underscores are reserved, a histogram has no label [le] and its buckets increase. A
    registry takes a name once. *)

Definition letter (a : ascii) : bool :=
  let n := nat_of_ascii a in
  (Nat.leb 65 n && Nat.leb n 90) || (Nat.leb 97 n && Nat.leb n 122) || Nat.eqb n 95.
Definition digit (a : ascii) : bool := let n := nat_of_ascii a in Nat.leb 48 n && Nat.leb n 57.
Definition colon (a : ascii) : bool := Ascii.eqb a ":".
Fixpoint every (f : ascii -> bool) (s : string) : bool :=
  match s with EmptyString => true | String a s' => f a && every f s' end.
Definition validMetricName (s : string) : bool :=
  match s with
  | EmptyString => false
  | String a s' => (letter a || colon a) && every (fun c => letter c || digit c || colon c) s'
  end.
Definition validLabelName (s : string) : bool :=
  match s with
  | EmptyString => false
  | String a s' => letter a && every (fun c => letter c || digit c) s' && negb (HasPrefix s "__")
  end.
Fixpoint increasing (l : list Q) : bool :=
  match l with
  | a :: ((b :: _) as l') => negb (Qle_bool b a) && increasing l'
  | _ => true
  end.
Definition wellFormed (o : Opts) : bool :=
  validMetricName (fqName o) && forallb validLabelName (labels o) && bool_decide (NoDup (labels o)) &&
  match kind o with Histogram b => increasing b && negb (str_mem "le" (labels o)) | _ => true end.

(** [MustRegister] of the named collectors does not panic and leaves none out. *)
Definition registers (cs : list (string * Opts)) (names : list string) : bool :=
  forallb (fun c => wellFormed (snd c)) cs && bool_decide (NoDup ((fun c => fqName (snd c)) <$> cs)) &&
  bool_decide (sort_Strings (fst <$> cs) = sort_Strings names).

(** [WithLabelValues] panics unless there is a value for every label. *)
Definition find (cs : list (string * Opts)) (field : string) : option Opts :=
  snd <$> List.find (fun c => (fst c =? field)%string) cs.
Definition WithLabelValues (cs : list (string * Opts)) (field : string) (values : list string) : option (string * list string) :=
  match find cs field with
  | Some o => if Nat.eqb (length (labels o)) (length values) then Some (fqName o, values) else None
  | None => None
  end.

(** * What the code records *)

(** [New]: the information gauge is set when all collectors are registered. *)
Definition New (version unitID trustDomain : string) : option (string * list string) :=
  if registers unitCollectors unitRegistered then WithLabelValues unitCollectors "UnitInfo" [version; unitID; trustDomain]
  else None.

(** [ToolCallMiddlewareMetrics]: the hooks of the tool-call middleware *)
Inductive Hook : Type := RecordCall (protocol decision : string) | ObserveDuration (protocol : string) | IncTie.
Definition ToolCallMiddlewareMetrics (h : Hook) : option (string * list string) :=
  match h with
  | RecordCall protocol decision => WithLabelValues unitCollectors "ToolCallTotal" [protocol; decision]
  | ObserveDuration protocol => WithLabelValues unitCollectors "ToolCallDurationSeconds" [protocol]
  | IncTie => WithLabelValues unitCollectors "ToolCallProtocolTiesTotal" []
  end.

(** The label values of the handlers: [pkg/api/exchange.go], [mcp.go], [ratelimit.go] *)
Definition exchangeUses (typ aud status depth : string) : list (string * list string) :=
  [("ExchangeRequestsTotal", ["error"; "unknown"; ""]); ("ExchangeRequestsTotal", ["error"; typ; aud]);
   ("ExchangeDurationSeconds", []); ("DelegationActive", [depth]); ("ExchangeRequestsTotal", [status; typ; aud]);
   ("BlastRadiusDenialsTotal", ["denied"]); ("ExchangeRequestsTotal", ["success"; typ; aud])].
Definition mcpUses (tool check : string) : list (string * list string) :=
  [("MCPToolCallsTotal", [""; "error"]); ("MCPToolCallsTotal", [tool; "error"]); ("MCPVerifyDurationSeconds", []);
   ("MCPToolCallsTotal", [tool; "denied"]); ("MCPCheckDenialsTotal", [check]); ("MCPToolCallsTotal", [tool; "allowed"])].
Definition rateLimitUses : list (string * list string) :=
  [("RateLimitRejectedTotal", ["global"]); ("RateLimitRejectedTotal", ["per_ip"])].
(** Those of the relay and of the synchroniser *)
Definition relayUses (peer : string) : list (string * list string) :=
  [("FederationRelayTotal", [peer; "error"]); ("FederationRelayDuration", [peer]); ("FederationRelayTotal", [peer; "ok"])].
Definition syncUses (peer : string) : list (string * list string) :=
  [("FederationSyncTotal", [peer; "ok"]); ("FederationRevocationLag", [peer]);
   ("FederationSyncMismatchesTotal", [peer]); ("FederationSyncTotal", [peer; "error"])].
(** The gauges of a unit without labels that are set: [cmd/starfly/main.go], [pkg/soul/keeper.go],
    [pkg/api] *)
Definition plainUses : list (string * list string) :=
  [("RevocationCheckErrorsTotal", []); ("FabricUnitsTotal", []); ("FabricUnitsHealthy", []); ("FabricTrustDomainsTotal", []);
   ("SoulAnchorReachable", []); ("SoulManifestSequence", []); ("SoulAnchorAgeSeconds", []);
   ("SoulSnapshotDurationSeconds", []); ("TLSCertExpirySeconds", []); ("MCPRegisteredTools", []);
   ("DelegationDepthMax", []); ("ToolCallProtocolTiesTotal", [])].
Definition allUses (typ aud status depth tool check peer protocol decision : string) : list (string * list string) :=
  exchangeUses typ aud status depth ++ mcpUses tool check ++ rateLimitUses ++ relayUses peer ++ syncUses peer ++ plainUses ++
  [("ToolCallTotal", [protocol; decision]); ("ToolCallDurationSeconds", [protocol])].

(** * Properties *)

Hypothesis DefBuckets_increase : increasing DefBuckets = true.
Hypothesis ExponentialBuckets_increase : forall s f n, (0 < s)%Q -> (1 < f)%Q -> increasing (ExponentialBuckets s f n) = true.

Ltac well_formed_one :=
  first [vm_compute; reflexivity
        | unfold wellFormed; cbn [kind opts snd]; rewrite ?DefBuckets_increase, ?ExponentialBuckets_increase by reflexivity;
          vm_compute; reflexivity].
Ltac well_formed := repeat (apply Forall_cons; split; [well_formed_one|]); apply List.Forall_nil.

Lemma registers_intro cs names : Forall (fun c => wellFormed (snd c) = true) cs ->
  bool_decide (NoDup ((fun c => fqName (snd c)) <$> cs)) = true ->
  bool_decide (sort_Strings (fst <$> cs) = sort_Strings names) = true -> registers cs names = true.
Proof using.
  intros H1 H2 H3. unfold registers. rewrite H2, H3, !andb_true_r.
  apply forallb_forall. intros c Hc. rewrite Forall_forall in H1. by apply H1, list_elem_of_In.
Qed.

Lemma unit_registers : registers unitCollectors unitRegistered = true.
Proof using All. apply registers_intro; [well_formed|vm_compute; reflexivity|vm_compute; reflexivity]. Qed.

(** Starting a unit does not panic over its metrics: every collector is well formed for the
    client library, no two have one name, each is registered exactly once, and the information
    gauge is given a value for each of its labels. The same holds of the collectors of the
    federation, the agent and the operator. *)
Theorem collectors_register :
  registers unitCollectors unitRegistered = true /\ registers federationCollectors federationRegistered = true /\
  registers agentCollectors agentRegistered = true /\ registers operatorCollectors operatorRegistered = true /\
  forall version unitID trustDomain,
    New version unitID trustDomain = Some ("starfly_unit_info", [version; unitID; trustDomain]).
Proof using All.
  pose proof unit_registers as Hu. split; [exact Hu|]. split; [apply registers_intro; [well_formed|vm_compute; reflexivity|vm_compute; reflexivity]|].
  split; [apply registers_intro; [well_formed|vm_compute; reflexivity|vm_compute; reflexivity]|].
  split; [apply registers_intro; [well_formed|vm_compute; reflexivity|vm_compute; reflexivity]|].
  intros. unfold New. rewrite Hu. reflexivity.
Qed.

(** No record of a metric panics: every call in the program that names label values gives one
    for each label the collector was declared with, and every collector it names is declared. *)
Theorem uses_match_labels typ aud status depth tool check peer protocol decision :
  Forall (fun u => exists fq, WithLabelValues unitCollectors (fst u) (snd u) = Some (fq, snd u))
    (allUses typ aud status depth tool check peer protocol decision) /\
  forall h, is_Some (ToolCallMiddlewareMetrics h).
Proof using.
  split; [repeat (constructor; [eexists; reflexivity|]); constructor|].
  intros []; eexists; reflexivity.
Qed.
End Collectors.

(** * The gauges of the federation *)

(** The value of a gauge: a number, or the seconds of a duration *)
Inductive GaugeValue : Type := Num (q : Q) | SecondsOf (d : Duration).
Abbreviation Gauges := (gmap (string * string) GaugeValue) (only parsing).
Definition reachableValue (s : FedResolver.PeerStatus) : Q :=
  match s with FedResolver.PeerHealthy => 1 | FedResolver.PeerStale => 1 # 2 | FedResolver.PeerUnreachable => 0 end.

(** [Update]: one round of its loop, and the loop over the peers *)
Definition updatePeer (now : Time) (g : Gauges) (kv : string * FedResolver.PeerState) : Gauges :=
  let '(id, ps) := kv in
  <[("PeerKeyCount", id) := Num (inject_Z (Z.of_nat (FedResolver.fs_KeyCount ps)))]>
 (<[("PeerJWKSAge", id) := SecondsOf (FedResolver.Age now ps)]>
 (<[("PeerReachable", id) := Num (reachableValue (FedResolver.fs_Status ps))]> g)).
Definition Update `{!RangeOrder} (now : Time) (peers : gmap string FedResolver.PeerState) (g : Gauges) : Gauges :=
  foldl (updatePeer now) g (range peers).

(** What the gauges of a peer show after a round *)
Definition shows (now : Time) (ps : FedResolver.PeerState) (name : string) : option GaugeValue :=
  if (name =? "PeerReachable")%string then Some (Num (reachableValue (FedResolver.fs_Status ps)))
  else if (name =? "PeerJWKSAge")%string then Some (SecondsOf (FedResolver.Age now ps))
  else if (name =? "PeerKeyCount")%string then Some (Num (inject_Z (Z.of_nat (FedResolver.fs_KeyCount ps))))
  else None.

Lemma updatePeer_lookup now g id ps name id' :
  updatePeer now g (id, ps) !! (name, id') =
  if (id' =? id)%string then match shows now ps name with Some v => Some v | None => g !! (name, id') end
  else g !! (name, id').
Proof.
  unfold updatePeer, shows. destruct (String.eqb_spec id' id) as [->|Hne]; cycle 1.
  { rewrite !lookup_insert_ne by congruence. done. }
  destruct (String.eqb_spec name "PeerReachable") as [->|H1].
  { rewrite !lookup_insert_ne by discriminate. apply lookup_insert_eq. }
  destruct (String.eqb_spec name "PeerJWKSAge") as [->|H2].
  { rewrite lookup_insert_ne by discriminate. apply lookup_insert_eq. }
  destruct (String.eqb_spec name "PeerKeyCount") as [->|H3]; [apply lookup_insert_eq|].
  by rewrite !lookup_insert_ne by congruence.
Qed.

Lemma updates_lookup now (l : list (string * FedResolver.PeerState)) g name id : NoDup l.*1 ->
  foldl (updatePeer now) g l !! (name, id) =
  match (list_to_map l : gmap string _) !! id with
  | Some ps => match shows now ps name with Some v => Some v | None => g !! (name, id) end
  | None => g !! (name, id)
  end.
Proof.
  revert g. induction l as [|[i ps] l IH]; intros g Hn; [done|]. cbn in Hn. apply NoDup_cons in Hn as [Hi Hn].
  cbn [foldl list_to_map]. rewrite IH by done. rewrite updatePeer_lookup. cbn.
  destruct (String.eqb_spec id i) as [->|Hne].
  - rewrite lookup_insert_eq. by rewrite (not_elem_of_list_to_map_1 l i Hi).
  - by rewrite lookup_insert_ne by congruence.
Qed.

(** After a refresh the three gauges of every peer show its status, the age of its keys and
    their number, whatever order the map is visited in, and nothing else has changed: the gauges
    of a peer that left keep what they showed last. *)
Theorem update_shows_state `{!RangeOrder} (now : Time) (peers : gmap string FedResolver.PeerState) (g : Gauges) (name id : string) :
  Update now peers g !! (name, id) =
  match peers !! id with
  | Some ps => match shows now ps name with Some v => Some v | None => g !! (name, id) end
  | None => g !! (name, id)
  end.
Proof.
  unfold Update. rewrite updates_lookup by (rewrite range_perm; apply NoDup_fst_map_to_list).
  rewrite (list_to_map_proper (range peers) (map_to_list peers)); [by rewrite list_to_map_to_list| |apply range_perm].
  rewrite range_perm. apply NoDup_fst_map_to_list.
Qed.

(** * Evaluation *)

Definition demo_buckets : list Q := [5 # 1000; 1 # 100; 25 # 1000; 5 # 100; 1 # 10; 1 # 4; 1 # 2; 1 # 1; 5 # 2; 5 # 1; 10 # 1].
Fixpoint demo_exponential (s f : Q) (n : nat) : list Q :=
  match n with O => [] | S n' => s :: demo_exponential (s * f)%Q f n' end.

Lemma demo_exponential_increase n : forall s f, (0 < s)%Q -> (1 < f)%Q -> increasing (demo_exponential s f n) = true.
Proof.
  induction n as [|n IH]; intros s f Hs Hf; [done|]. cbn [demo_exponential]. destruct n as [|n]; [done|].
  assert (s < s * f)%Q as Hlt by (rewrite <- (Qmult_1_r s) at 1; by apply Qmult_lt_l).
  specialize (IH (s * f)%Q f ltac:(by eapply Qlt_trans) Hf). cbn [demo_exponential] in *.
  change (increasing (s :: (s * f)%Q :: demo_exponential (s * f * f) f n))
    with (negb (Qle_bool (s * f) s) && increasing ((s * f)%Q :: demo_exponential (s * f * f) f n)).
  rewrite IH, andb_true_r. apply negb_true_iff, not_true_iff_false. rewrite Qle_bool_iff. by apply Qlt_not_le.
Qed.

(** Witness: the default buckets of the library and a geometric sequence *)
Lemma collectors_register_witness :
  registers (unitCollectors demo_buckets) unitRegistered = true.
Proof.
  apply (collectors_register demo_buckets demo_exponential);
    [reflexivity|intros s f n; apply (demo_exponential_increase n s f)].
Defined.

(** The gauge for the size of the revocation index, and the counter of received federation
    signals, are registered and never written. *)
Definition neverWritten (field : string) : Prop :=
  forall typ aud status depth tool check peer protocol decision,
    str_mem field (allUses typ aud status depth tool check peer protocol decision).*1 = false.
Lemma revocation_index_size_never_written : neverWritten "RevocationIndexSize" /\ neverWritten "FederationReceivedTotal".
Proof. split; intros ?????????; reflexivity. Qed.

End Metrics.
