(* ===== verification/Cli.v ===== *)
(** The operator's command line ([pkg/cli], [cmd/starfly/status.go], [federation.go], [watch.go]):
    reading a unit's metrics, the status texts, and the live feed of events. Floating-point numbers
    are IEEE 754 doubles; what a metrics endpoint serves is the documented text format. *)
From Stdlib Require Import ZArith QArith Lia Ascii SpecFloat.
From stdpp Require Import base gmap strings list sorting pretty.
From S2P Require Import Prelude.
From S2P Require Import GoLib.
From S2P Require Import EventStream.
From S2P Require Import Metrics.

#[local] Open Scope string_scope.
#[local] Open Scope list_scope.
#[local] Open Scope Z_scope.

Module Cli.

(** * Doubles *)

Definition fadd : spec_float -> spec_float -> spec_float := SFadd 53 1024.
Definition fmul : spec_float -> spec_float -> spec_float := SFmul 53 1024.
Definition fdiv : spec_float -> spec_float -> spec_float := SFdiv 53 1024.
Definition of_Z (z : Z) : spec_float := binary_normalize 53 1024 z 0 false.
Definition fzero : spec_float := S754_zero false.

(** The integer part of a finite number *)
Definition integral (f : spec_float) : option Z :=
  match f with
  | S754_zero _ => Some 0
  | S754_finite s m e =>
      let mag := if 0 <=? e then Z.pos m * 2 ^ e else Z.pos m / 2 ^ (- e) in
      Some (if s then - mag else mag)
  | _ => None
  end.

Section Commands.
(** [strconv.ParseFloat] with its error dropped; the conversion of a number an integer type cannot
    hold, which Go leaves to the implementation; the verb [%.1f] *)
Variable ParseFloat : string -> spec_float.
Variable unrepresentable : spec_float -> Z.
Variable fixed1 : spec_float -> string.
(** [noColor] *)
Variable noColor : bool.

Definition to_int (f : spec_float) : Z :=
  match integral f with
  | Some z => if (- 9223372036854775808 <=? z) && (z <=? 9223372036854775807) then z else unrepresentable f
  | None => unrepresentable f
  end.
Definition to_uint64 (f : spec_float) : Z :=
  match integral f with
  | Some z => if (0 <=? z) && (z <? two64) then z else unrepresentable f
  | None => unrepresentable f
  end.

(** * Scanning lines: [bufio.Scanner] *)

Record Reader : Type := { contents : string; readErr : option string }.
Inductive ScanErr : Type := TokenTooLong | ReadError (e : string).
Definition NL : ascii := "010"%char.
Definition maxScanTokenSize : nat := Z.to_nat 65536.
(** A final line need not end in a line break, and a carriage return before one is dropped. *)
Fixpoint dropLastEmpty (l : list string) : list string :=
  match l with
  | [] => []
  | [x] => if (x =? "")%string then [] else [x]
  | x :: l' => x :: dropLastEmpty l'
  end.
Definition dropCR (s : string) : string := TrimSuffix s (String "013" "").
Fixpoint untilTooLong (l : list string) : list string * bool :=
  match l with
  | [] => ([], false)
  | x :: l' => if Nat.leb maxScanTokenSize (String.length x) then ([], true)
               else (dropCR x :: fst (untilTooLong l'), snd (untilTooLong l'))
  end.
Definition scan (r : Reader) : list string * option ScanErr :=
  match untilTooLong (dropLastEmpty (Split (contents r) NL)) with
  | (ls, true) => (ls, Some TokenTooLong)
  | (ls, false) => (ls, ReadError <$> readErr r)
  end.

(** * Metric lines *)

(** [strings.Fields]; a space that is not ASCII occurs in label values at most, where it changes
    neither the first token up to its brace nor the last one. *)
Fixpoint fieldsFrom (cur s : string) : list string :=
  match s with
  | EmptyString => if (cur =? "")%string then [] else [cur]
  | String a s' =>
      if is_space a then (if (cur =? "")%string then fieldsFrom "" s' else cur :: fieldsFrom "" s')
      else fieldsFrom (cur +:+ String a "") s'
  end.
Definition Fields (s : string) : list string := fieldsFrom "" s.

(** [splitMetricLine] *)
Definition splitMetricLine (line : string) : string * string :=
  let parts := Fields line in
  if Nat.ltb (length parts) 2 then ("", "") else
  let value := default "" (last parts) in
  let name := default "" (head parts) in
  (match cut_at "{" name with Some (n, _) => n | None => name end, value).

(** [strings.Index] and [extractLabel] *)
Fixpoint Index (s sub : string) : option nat :=
  if String.prefix sub s then Some O else
  match s with EmptyString => None | String _ s' => S <$> Index s' sub end.
Definition DQ : ascii := "034"%char.
Definition extractLabel (line label : string) : string :=
  let key := label +:+ "=" +:+ String DQ "" in
  match Index line key with
  | None => ""
  | Some idx =>
      match cut_at DQ (str_drop (idx + String.length key) line) with
      | Some (v, _) => v
      | None => ""
      end
  end.

(** * The status of a fabric *)

Record FabricStatus : Type := {
  FabricID : string; UnitsTotal : Z; UnitsHealthy : Z; ExchangeRate : spec_float; ExchangeP99 : spec_float;
  RevocationsActive : Z; SoulSequence : Z; SoulAge : Duration; TrustDomains : Z;
}.
Definition emptyStatus : FabricStatus :=
  {| FabricID := ""; UnitsTotal := 0; UnitsHealthy := 0; ExchangeRate := fzero; ExchangeP99 := fzero;
     RevocationsActive := 0; SoulSequence := 0; SoulAge := 0; TrustDomains := 0 |}.

(** One line of [ParseMetrics] *)
Definition skipLine (line : string) : bool := (line =? "")%string || HasPrefix line "#".
Definition statusLine (s : FabricStatus) (line : string) : FabricStatus :=
  if skipLine line then s else
  if HasPrefix line "starfly_unit_info{" then
    {| FabricID := extractLabel line "trust_domain"; UnitsTotal := UnitsTotal s; UnitsHealthy := UnitsHealthy s;
       ExchangeRate := ExchangeRate s; ExchangeP99 := ExchangeP99 s; RevocationsActive := RevocationsActive s;
       SoulSequence := SoulSequence s; SoulAge := SoulAge s; TrustDomains := TrustDomains s |}
  else
  let '(name, value) := splitMetricLine line in
  if (name =? "")%string then s else
  let named n := (name =? n)%string in
  let v := ParseFloat value in
  {| FabricID := FabricID s;
     UnitsTotal := if named "starfly_fabric_units_total" then to_int v else UnitsTotal s;
     UnitsHealthy := if named "starfly_fabric_units_healthy" then to_int v else UnitsHealthy s;
     ExchangeRate := if named "starfly_exchange_requests_total" then fadd (ExchangeRate s) v else ExchangeRate s;
     ExchangeP99 :=
       if named "starfly_exchange_duration_seconds" &&
          (Contains line ("quantile=" +:+ String DQ ("0.99" +:+ String DQ "")) ||
           Contains line ("le=" +:+ String DQ ("0.99" +:+ String DQ "")))
       then fmul v (of_Z 1000) else ExchangeP99 s;
     RevocationsActive := if named "starfly_revocation_index_size" then to_int v else RevocationsActive s;
     SoulSequence := if named "starfly_soul_manifest_sequence" then to_uint64 v else SoulSequence s;
     SoulAge := if named "starfly_soul_anchor_age_seconds" then to_int (fmul v (of_Z Second)) else SoulAge s;
     TrustDomains := if named "starfly_fabric_trust_domains_total" then to_int v else TrustDomains s |}.

Inductive CliErr : Type :=
| ReadingMetrics (e : ScanErr)
| FetchingMetrics (e : string)
| EndpointReturned (status : Z).
Definition ParseMetrics (r : Reader) : result CliErr FabricStatus :=
  match scan r with
  | (_, Some e) => Err (ReadingMetrics e)
  | (lines, None) => Ok (foldl statusLine emptyStatus lines)
  end.

(** [ReadMetrics] and [ReadSignalMetrics] up to the parser; [get] is the HTTP client. *)
Definition readFrom {A} (parse : Reader -> result CliErr A) (get : string -> result string (Z * Reader)) (endpoint : string)
    : result CliErr A :=
  match get endpoint with
  | Err e => Err (FetchingMetrics e)
  | Ok (status, body) => if negb (status =? 200) then Err (EndpointReturned status) else parse body
  end.
Definition ReadMetrics := readFrom ParseMetrics.

(** * The status of the signal gateway *)

Record PeerSignalMetrics : Type := {
  pm_FabricID : string; Transport : string; RelayedTotal : spec_float; ReceivedTotal : spec_float;
  ErrorTotal : spec_float; LagSeconds : spec_float; Reachable : spec_float;
}.

(** [Status] *)
Definition Status (p : PeerSignalMetrics) : string :=
  if SFeqb (Reachable p) fzero || SFltb (of_Z 60) (LagSeconds p) then "down"
  else if SFltb (Reachable p) (of_Z 1) || SFltb (of_Z 10) (LagSeconds p) then "degraded"
  else "healthy".

(** [getPeer] *)
Definition newPeer (id : string) : PeerSignalMetrics :=
  {| pm_FabricID := id; Transport := ""; RelayedTotal := fzero; ReceivedTotal := fzero; ErrorTotal := fzero;
     LagSeconds := fzero; Reachable := fzero |}.
Definition getPeer (id : string) (peers : gmap string PeerSignalMetrics) : PeerSignalMetrics :=
  default (newPeer id) (peers !! id).

(** What a line adds to its peer *)
Definition addRelay (p : PeerSignalMetrics) (result : string) (v : spec_float) : PeerSignalMetrics :=
  let err := (result =? "error")%string in
  {| pm_FabricID := pm_FabricID p; Transport := Transport p;
     RelayedTotal := if err then RelayedTotal p else fadd (RelayedTotal p) v; ReceivedTotal := ReceivedTotal p;
     ErrorTotal := if err then fadd (ErrorTotal p) v else ErrorTotal p; LagSeconds := LagSeconds p;
     Reachable := Reachable p |}.
Definition addReceived (p : PeerSignalMetrics) (result : string) (v : spec_float) : PeerSignalMetrics :=
  {| pm_FabricID := pm_FabricID p; Transport := Transport p; RelayedTotal := RelayedTotal p;
     ReceivedTotal := if (result =? "error")%string then ReceivedTotal p else fadd (ReceivedTotal p) v;
     ErrorTotal := ErrorTotal p; LagSeconds := LagSeconds p; Reachable := Reachable p |}.
Definition setLag (p : PeerSignalMetrics) (v : spec_float) : PeerSignalMetrics :=
  {| pm_FabricID := pm_FabricID p; Transport := Transport p; RelayedTotal := RelayedTotal p;
     ReceivedTotal := ReceivedTotal p; ErrorTotal := ErrorTotal p; LagSeconds := v; Reachable := Reachable p |}.

(** One line of [ParseSignalMetrics] *)
Definition signalLine (peers : gmap string PeerSignalMetrics) (line : string) : gmap string PeerSignalMetrics :=
  if skipLine line then peers else
  let '(name, value) := splitMetricLine line in
  if (name =? "")%string then peers else
  let peerID := extractLabel line "peer" in
  if (peerID =? "")%string then peers else
  if (name =? "starfly_federation_relay_total")%string then
    <[peerID := addRelay (getPeer peerID peers) (extractLabel line "result") (ParseFloat value)]> peers
  else if (name =? "starfly_federation_received_total")%string then
    <[peerID := addReceived (getPeer peerID peers) (extractLabel line "result") (ParseFloat value)]> peers
  else if (name =? "starfly_federation_revocation_lag_seconds")%string then
    <[peerID := setLag (getPeer peerID peers) (ParseFloat value)]> peers
  else peers.

(** What is derived once all lines are read *)
Definition finishPeer (p : PeerSignalMetrics) : PeerSignalMetrics :=
  {| pm_FabricID := pm_FabricID p; Transport := "https"; RelayedTotal := RelayedTotal p; ReceivedTotal := ReceivedTotal p;
     ErrorTotal := ErrorTotal p; LagSeconds := LagSeconds p;
     Reachable := if SFltb fzero (RelayedTotal p) || SFltb fzero (ReceivedTotal p) then of_Z 1 else Reachable p |}.

(** [sortPeers]: element [j] moves left while it is smaller than its neighbour. *)
Fixpoint sift (j : nat) (peers : list PeerSignalMetrics) : list PeerSignalMetrics :=
  match j with
  | O => peers
  | S j' =>
      match peers !! j, peers !! j' with
      | Some a, Some b =>
          if String.ltb (pm_FabricID a) (pm_FabricID b) then sift j' (<[j := b]> (<[j' := a]> peers)) else peers
      | _, _ => peers
      end
  end.
Definition sortPeers (peers : list PeerSignalMetrics) : list PeerSignalMetrics :=
  foldl (fun l i => sift i l) peers (seq 1 (length peers - 1)).

Definition ParseSignalMetrics `{!RangeOrder} (r : Reader) : result CliErr (list PeerSignalMetrics) :=
  match scan r with
  | (_, Some e) => Err (ReadingMetrics e)
  | (lines, None) => Ok (sortPeers (finishPeer <$> (range (foldl signalLine ∅ lines)).*2))
  end.
Definition ReadSignalMetrics `{!RangeOrder} := readFrom ParseSignalMetrics.

(** * Texts *)

(** [ansiWrap] and the colours of [formatter.go] *)
Definition ESC : ascii := "027"%char.
Definition ansiWrap (code s : string) : string :=
  if noColor then s else String ESC ("[" +:+ code +:+ "m" +:+ s +:+ String ESC "[0m").
Definition ColorGreen := ansiWrap "32".
Definition ColorYellow := ansiWrap "33".
Definition ColorRed := ansiWrap "31".
Definition ColorDim := ansiWrap "90".
Definition ColorBold := ansiWrap "1".

(** The number of characters of a UTF-8 string, and the verb [%-Ns] *)
Fixpoint runes (s : string) : nat :=
  match s with
  | EmptyString => O
  | String a s' => let n := nat_of_ascii a in
      ((if Nat.leb 128 n && Nat.ltb n 192 then 0 else 1) + runes s')%nat
  end.
Fixpoint blanks (n : nat) : string := match n with O => "" | S n' => String " " (blanks n') end.
Definition padTo (n : nat) (s : string) : string := s +:+ blanks (n - runes s).

(** [Duration.Seconds], [Minutes] and [Hours], and [HumanDuration] *)
Definition inUnits (unit d : Duration) : spec_float :=
  fadd (of_Z (Z.quot d unit)) (fdiv (of_Z (Z.rem d unit)) (of_Z unit)).
Definition HumanDuration (d : Duration) : string :=
  let d := if d <? 0 then (if d =? minDuration then d else - d) else d in
  if d <? Second then "just now"
  else if d <? Minute then pretty (to_int (inUnits Second d)) +:+ "s ago"
  else if d <? Hour then pretty (to_int (inUnits Minute d)) +:+ "m ago"
  else if d <? 24 * Hour then pretty (to_int (inUnits Hour d)) +:+ "h ago"
  else pretty (Z.quot (to_int (inUnits Hour d)) 24) +:+ "d ago".

(** [formatNumber]: the digits with a comma before every third one from the right *)
Fixpoint commas (first : bool) (s : string) : string :=
  match s with
  | EmptyString => ""
  | String c s' =>
      (if negb first && Nat.eqb (Nat.modulo (String.length s) 3) 0 then "," else "") +:+ String c (commas false s')
  end.
Definition formatInt (n : Z) : string := if n <? 1000 then pretty n else commas true (pretty n).
Definition formatNumber (f : spec_float) : string := formatInt (to_int f).

(** [healthSummary], [FormatStatus] *)
Definition healthSummary (total healthy : Z) : string :=
  if total =? 0 then ColorDim "no units"
  else if healthy =? total then ColorGreen "all healthy"
  else ColorYellow (pretty healthy +:+ "/" +:+ pretty total +:+ " healthy").
Definition line (s : string) : string := s +:+ String NL "".
Definition FormatStatus (s : FabricStatus) : string :=
  let fabricID := if (FabricID s =? "")%string then "(unknown)" else FabricID s in
  line ("Fabric: " +:+ ColorBold fabricID +:+ " (" +:+ pretty (UnitsTotal s) +:+ " units, " +:+
        healthSummary (UnitsTotal s) (UnitsHealthy s) +:+ ")") +:+
  line ("Exchanges: " +:+ formatNumber (ExchangeRate s) +:+ "/min" +:+
        (if SFltb fzero (ExchangeP99 s) then " (p99: " +:+ fixed1 (ExchangeP99 s) +:+ "ms)" else "")) +:+
  line ("Revocations: " +:+
        (if 0 <? RevocationsActive s then ColorYellow else ColorGreen) (pretty (RevocationsActive s)) +:+ " active") +:+
  line ("Soul: seq " +:+ pretty (SoulSequence s) +:+ ", " +:+ ColorDim (HumanDuration (SoulAge s))) +:+
  line ("Trust domains: " +:+ pretty (TrustDomains s)).

(** [formatLag], [FormatSignalStatus] *)
Definition formatLag (lag : spec_float) (color : string -> string) : string :=
  if SFleb lag fzero then ColorDim "n/a" else color (fixed1 lag +:+ "s").
Definition countStatus (st : string) (peers : list PeerSignalMetrics) : nat :=
  length (List.filter (fun p => (Status p =? st)%string) peers).
Definition statusColor (st : string) : string -> string :=
  if (st =? "healthy")%string then ColorGreen else if (st =? "degraded")%string then ColorYellow else ColorRed.
Definition statusIcon (st : string) : string :=
  if (st =? "healthy")%string then "OK" else if (st =? "degraded")%string then "!!" else "XX".
Definition summary (peers : list PeerSignalMetrics) : string :=
  let healthy := countStatus "healthy" peers in
  let degraded := countStatus "degraded" peers in
  let down := (length peers - healthy - degraded)%nat in
  Join ([pretty (length peers) +:+ " peers"] ++
        (if Nat.ltb 0 healthy then [ColorGreen (pretty healthy +:+ " healthy")] else []) ++
        (if Nat.ltb 0 degraded then [ColorYellow (pretty degraded +:+ " degraded")] else []) ++
        (if Nat.ltb 0 down then [ColorRed (pretty down +:+ " down")] else [])) ", ".
Definition peerLines (p : PeerSignalMetrics) : string :=
  let st := Status p in
  line ("  " +:+ ColorBold (padTo 20 (pm_FabricID p)) +:+ "  " +:+ padTo 7 (Transport p) +:+ "  " +:+
        statusColor st ("[" +:+ statusIcon st +:+ "] " +:+ padTo 8 st) +:+
        "  relayed: " +:+ padTo 6 (formatNumber (RelayedTotal p)) +:+
        "  received: " +:+ padTo 6 (formatNumber (ReceivedTotal p)) +:+
        "  lag: " +:+ formatLag (LagSeconds p) (statusColor st)) +:+
  (if SFltb fzero (ErrorTotal p)
   then line ("    " +:+ ColorRed ("errors: " +:+ formatNumber (ErrorTotal p))) else "").
Fixpoint repeated (n : nat) (s : string) : string := match n with O => "" | S n' => s +:+ repeated n' s end.
Definition FormatSignalStatus (peers : list PeerSignalMetrics) : string :=
  match peers with
  | [] => line "No federation signal peers detected."
  | _ =>
      line (ColorBold "Federation Signal Gateway") +:+ line (repeated 78 "─") +:+
      line (line (summary peers)) +:+ String.concat "" (peerLines <$> peers)
  end.

(** * Commands: the exit code and what is written to standard output *)

(** [runStatus] and [runFederationSignals] after their flags; [asJSON] is the indented JSON. *)
Definition runStatus (get : string -> result string (Z * Reader)) (asJSON : FabricStatus -> option string)
    (jsonOutput : bool) (endpoint : string) : Z * string :=
  match ReadMetrics get endpoint with
  | Err _ => (1, "")
  | Ok s => if jsonOutput then match asJSON s with Some d => (0, line d) | None => (1, "") end
            else (0, FormatStatus s)
  end.
Definition runFederationSignals `{!RangeOrder} (get : string -> result string (Z * Reader))
    (asJSON : list PeerSignalMetrics -> option string) (jsonOutput : bool) (endpoint : string) : Z * string :=
  match ReadSignalMetrics get endpoint with
  | Err _ => (1, "")
  | Ok s => if jsonOutput then match asJSON s with Some d => (0, line d) | None => (1, "") end
            else (0, FormatSignalStatus s)
  end.

(** [runWatch]: the events read from the stream, and the exit code when the server closes it *)
Definition watchEvents (unmarshal : string -> option EventStream.FabricEvent) (lines : list string)
    : list EventStream.FabricEvent :=
  omap (fun l => if negb (HasPrefix l "data: ") then None else
                 let data := TrimPrefix l "data: " in
                 if (data =? "")%string || (data =? ":heartbeat")%string then None else unmarshal data) lines.
Definition watchURL (endpoint typesList : string) : string :=
  if (typesList =? "")%string then endpoint else endpoint +:+ "?types=" +:+ typesList.
Definition runWatch (get : string -> result string (Z * Reader)) (unmarshal : string -> option EventStream.FabricEvent)
    (endpoint typesList : string) : Z * list EventStream.FabricEvent :=
  match get (watchURL endpoint typesList) with
  | Err _ => (1, [])
  | Ok (status, body) =>
      if negb (status =? 200) then (1, []) else
      let '(lines, err) := scan body in
      (match err with Some _ => 1 | None => 0 end, watchEvents unmarshal lines)
  end.

(** [FormatEvent]; [clock] is [time.Parse] with the RFC 3339 layout followed by [Format] with the
    layout 15:04:05.000, [ms1] the verb [%.1f]. *)
Definition targetText (e : EventStream.FabricEvent) : string :=
  let t := if (EventStream.fe_Target e =? "")%string then EventStream.fe_Subject e
           else EventStream.fe_Subject e +:+ " → " +:+ EventStream.fe_Target e in
  if Nat.ltb 50 (String.length t) then str_take 47 t +:+ "..." else t.
Definition resultMark (r : string) : string :=
  if (r =? "ok")%string then ColorGreen "✓" else if (r =? "denied")%string then ColorRed "✗"
  else if (r =? "error")%string then ColorRed "!" else "·".
Definition typeColor (t : string) : string -> string :=
  if (t =? "exchange")%string then ColorGreen else if (t =? "denial")%string then ColorRed
  else if (t =? "caep")%string || (t =? "signal")%string then ColorYellow
  else if (t =? "soul")%string then ColorDim else fun s => s.
Definition FormatEvent (clock : string -> option string) (ms1 : Q -> string) (e : EventStream.FabricEvent) : string :=
  let ts := default (EventStream.fe_Timestamp e) (clock (EventStream.fe_Timestamp e)) in
  let dur := if Qle_bool (EventStream.fe_Duration e) 0 then "" else ms1 (EventStream.fe_Duration e) +:+ "ms" in
  ColorDim ts +:+ "  " +:+ typeColor (EventStream.fe_Type e) (padTo 9 (EventStream.fe_Type e)) +:+ "  " +:+
  padTo 50 (targetText e) +:+ "  " +:+ padTo 8 dur +:+ "  " +:+ resultMark (EventStream.fe_Result e).

(** * Sorting *)

Abbreviation id_le := (fun a b : PeerSignalMetrics => str_le (pm_FabricID a) (pm_FabricID b)) (only parsing).

Lemma ltb_le s t : String.ltb s t = true -> str_le s t.
Proof using. unfold String.ltb, str_le, String.leb. by destruct (String.compare s t). Qed.
Lemma not_ltb_le s t : String.ltb s t = false -> str_le t s.
Proof using.
  unfold String.ltb, str_le, String.leb. rewrite (String.compare_antisym t s).
  by destruct (String.compare s t).
Qed.

(** What [sift] does to the elements left of its element *)
Fixpoint insertLeft (x : PeerSignalMetrics) (rp : list PeerSignalMetrics) : list PeerSignalMetrics :=
  match rp with
  | [] => [x]
  | y :: rp' => if String.ltb (pm_FabricID x) (pm_FabricID y) then y :: insertLeft x rp' else x :: rp
  end.

Lemma sift_spec p x r : sift (length p) (p ++ x :: r) = reverse (insertLeft x (reverse p)) ++ r.
Proof using.
  revert r. induction p as [|y p IH] using rev_ind; intros r; [done|].
  rewrite length_app, Nat.add_comm, reverse_snoc. cbn [length Nat.add sift insertLeft].
  replace (S (length p)) with (length (p ++ [y])) by (rewrite length_app; cbn; lia).
  rewrite (list_lookup_middle (p ++ [y]) r x _ eq_refl), <- app_assoc. cbn [app].
  rewrite (list_lookup_middle p (x :: r) y _ eq_refl).
  destruct (String.ltb (pm_FabricID x) (pm_FabricID y)).
  - rewrite (insert_app_r_alt p) by lia. rewrite Nat.sub_diag. cbn [list_insert insert].
    rewrite insert_app_r_alt by (rewrite length_app; cbn; lia).
    replace (length (p ++ [y]) - length p)%nat with 1%nat by (rewrite length_app; cbn; lia).
    cbn [list_insert insert]. rewrite IH, reverse_cons, <- app_assoc. done.
  - rewrite !reverse_cons, reverse_involutive, <- !app_assoc. done.
Qed.

Lemma insertLeft_perm x rp : insertLeft x rp ≡ₚ x :: rp.
Proof using.
  induction rp as [|y rp IH]; cbn; [done|]. destruct (String.ltb _ _); [|done]. rewrite IH. constructor.
Qed.

Lemma insertLeft_sorted x rp : StronglySorted (flip id_le) rp -> StronglySorted (flip id_le) (insertLeft x rp).
Proof using.
  induction rp as [|y rp IH]; intros Hs; cbn; [by repeat constructor|].
  apply StronglySorted_inv in Hs as [Hs Hy]. destruct (String.ltb _ _) eqn:E.
  - constructor; [by apply IH|]. rewrite insertLeft_perm. constructor; [by apply ltb_le|done].
  - apply not_ltb_le in E. constructor; [by constructor|]. constructor; [done|].
    eapply Forall_impl; [exact Hy|]. cbn. intros z Hz. by etrans.
Qed.

Lemma StronglySorted_flip {A} (R : relation A) l : StronglySorted (flip R) l -> StronglySorted R (reverse l).
Proof using.
  induction 1 as [|x l Hs IH Hx]; [constructor|]. rewrite reverse_cons.
  apply StronglySorted_app. split_and!; [|done|repeat constructor].
  intros a b Ha Hb. rewrite elem_of_reverse in Ha. apply list_elem_of_singleton in Hb as ->.
  rewrite Forall_forall in Hx. exact (Hx _ Ha).
Qed.
Lemma StronglySorted_flip' {A} (R : relation A) l : StronglySorted R l -> StronglySorted (flip R) (reverse l).
Proof using. intros H. apply (StronglySorted_flip (flip R)). exact H. Qed.

Lemma sift_sorts p x r : StronglySorted id_le p -> exists p',
  sift (length p) (p ++ x :: r) = p' ++ r /\ p' ≡ₚ p ++ [x] /\ StronglySorted id_le p'.
Proof using.
  intros Hs. exists (reverse (insertLeft x (reverse p))). split; [apply sift_spec|]. split.
  - rewrite reverse_Permutation, insertLeft_perm, reverse_Permutation. apply Permutation_cons_append.
  - apply StronglySorted_flip, insertLeft_sorted, StronglySorted_flip', Hs.
Qed.

Lemma sorts_from k p r : length p = S k -> StronglySorted id_le p -> exists l',
  foldl (fun l i => sift i l) (p ++ r) (seq (S k) (length r)) = l' /\ l' ≡ₚ p ++ r /\ StronglySorted id_le l'.
Proof using.
  revert k p. induction r as [|x r IH]; intros k p Hlen Hs; cbn [foldl seq length].
  - rewrite app_nil_r. eauto.
  - rewrite <- Hlen. destruct (sift_sorts p x r Hs) as (p' & -> & Hp & Hs').
    assert (length p' = S (S k)) as Hlen' by (rewrite (Permutation_length Hp), length_app; cbn; lia).
    rewrite Hlen. destruct (IH (S k) p' Hlen' Hs') as (l' & -> & Hl & Hsl). exists l'. split; [done|]. split; [|done].
    rewrite Hl, Hp, <- app_assoc. done.
Qed.

Lemma sortPeers_sorts l : sortPeers l ≡ₚ l /\ StronglySorted id_le (sortPeers l).
Proof using.
  unfold sortPeers. destruct l as [|x l]; [by split; [|constructor]|].
  replace (length (x :: l) - 1)%nat with (length l) by (cbn; lia).
  destruct (sorts_from 0 [x] l) as (l' & H & Hp & Hs); [done|by repeat constructor|]. cbn in H. by rewrite H.
Qed.

(** Sorting the peers of a map gives its peers in the order of their identifiers, whatever order
    they came in. *)
Definition ids_ok (m : gmap string PeerSignalMetrics) : Prop := forall id p, m !! id = Some p -> pm_FabricID p = id.

Lemma sorted_peers_of_map `{!RangeOrder} (m : gmap string PeerSignalMetrics) : ids_ok m ->
  sortPeers (finishPeer <$> (range m).*2) =
  omap (fun id => finishPeer <$> m !! id) (sort_Strings (map_to_list m).*1).
Proof using.
  intros Hok. set (l := finishPeer <$> (range m).*2). destruct (sortPeers_sorts l) as [Hp Hs].
  assert (forall x, x ∈ sortPeers l -> finishPeer <$> m !! pm_FabricID x = Some x) as Hx.
  { intros x Hin. rewrite Hp in Hin. unfold l in Hin. apply list_elem_of_fmap in Hin as (y & -> & Hin).
    apply list_elem_of_fmap in Hin as ([id z] & -> & Hin). rewrite range_perm in Hin.
    apply elem_of_map_to_list in Hin. cbn. by rewrite (Hok _ _ Hin), Hin. }
  assert (pm_FabricID <$> sortPeers l = sort_Strings (map_to_list m).*1) as <-.
  { apply (StronglySorted_unique str_le).
    - clear Hx Hp. induction Hs as [|a k Hk IH Ha]; cbn; constructor; [done|]. by apply Forall_fmap.
    - apply StronglySorted_merge_sort; apply _.
    - unfold sort_Strings. rewrite merge_sort_Permutation. rewrite Hp. unfold l. rewrite range_perm, <- !list_fmap_compose.
      apply Permutation_refl'. apply list_fmap_ext. intros i [id p] Hi%list_elem_of_lookup_2. cbn.
      apply elem_of_map_to_list in Hi. by apply Hok. }
  clear Hs. generalize dependent (sortPeers l). intros k _ Hx. induction k as [|x k IH]; [done|].
  cbn. rewrite Hx by (by left). f_equal. apply IH. intros y Hy. apply Hx. by right.
Qed.

(** * Reading what an endpoint serves

    The documented text format: a name, labels in braces with their values quoted, a space and the
    value. *)

Definition labelText (ls : list (string * string)) : string :=
  Join ((fun kv => fst kv +:+ "=" +:+ String DQ (snd kv +:+ String DQ "")) <$> ls) ",".
Definition sampleLine (name : string) (ls : list (string * string)) (value : string) : string :=
  name +:+ match ls with [] => "" | _ => "{" +:+ labelText ls +:+ "}" end +:+ " " +:+ value.

Fixpoint noSpace (s : string) : bool :=
  match s with EmptyString => true | String a s' => negb (is_space a) && noSpace s' end.

Lemma app_cons a x y : String a x +:+ y = String a (x +:+ y).
Proof using. done. Qed.

Lemma fields_space cur x y : fieldsFrom cur (x +:+ String " " y) = fieldsFrom cur x ++ Fields y.
Proof using.
  revert cur. induction x as [|a x IH]; intros cur.
  { change ("" +:+ String " " y) with (String " " y). unfold Fields. cbn. by destruct (cur =? "")%string. }
  rewrite app_cons. cbn [fieldsFrom]. rewrite !IH. destruct (is_space a), (cur =? "")%string; done.
Qed.
Lemma fields_token cur n r : noSpace n = true -> fieldsFrom cur (n +:+ r) = fieldsFrom (cur +:+ n) r.
Proof using.
  revert cur. induction n as [|a n IH]; intros cur Hn; [by rewrite str_app_nil_r|].
  rewrite app_cons. cbn in *. apply andb_true_iff in Hn as [Ha Hn]. apply negb_true_iff in Ha. rewrite Ha, IH by done.
  by rewrite <- str_app_assoc.
Qed.
Lemma fields_first cur r : cur <> "" -> exists w l, fieldsFrom cur r = (cur +:+ w) :: l.
Proof using.
  revert cur. induction r as [|a r IH]; intros cur Hc; cbn.
  - rewrite (proj2 (String.eqb_neq _ _) Hc). exists "", []. by rewrite str_app_nil_r.
  - rewrite (proj2 (String.eqb_neq _ _) Hc). destruct (is_space a); [exists "", (fieldsFrom "" r); by rewrite str_app_nil_r|].
    destruct (IH (cur +:+ String a "")) as (w & l & ->); [by destruct cur|].
    exists (String a w), l. by rewrite <- str_app_assoc.
Qed.
Lemma Fields_token v : v <> "" -> noSpace v = true -> Fields v = [v].
Proof using.
  intros Hv Hn. unfold Fields. rewrite <- (str_app_nil_r v) at 1. rewrite fields_token by done.
  change ("" +:+ v) with v. cbn [fieldsFrom]. by rewrite (proj2 (String.eqb_neq _ _) Hv).
Qed.

Lemma cut_brace n w : cut_at "{" n = None -> cut_at "{" (n +:+ String "{" w) = Some (n, w).
Proof using.
  induction n as [|a n IH]; [done|]. rewrite app_cons. cbn. destruct (Ascii.eqb a "{"); [done|].
  destruct (cut_at "{" n) as [[]|]; [done|]. intros _. by rewrite IH.
Qed.

(** A metric line in the documented format is split into its name and its value, whatever its
    label values hold. *)
Lemma split_sample name ls value : name <> "" -> noSpace name = true -> cut_at "{" name = None ->
  value <> "" -> noSpace value = true -> splitMetricLine (sampleLine name ls value) = (name, value).
Proof using.
  intros Hn Hns Hb Hv Hvs. unfold splitMetricLine, sampleLine.
  assert (exists h l, Fields (name +:+ match ls with [] => "" | _ => "{" +:+ labelText ls +:+ "}" end +:+ " " +:+ value)
    = h :: l ++ [value] /\ match cut_at "{" h with Some (n, _) => n | None => h end = name) as (h & l & Heq & Hcut).
  { destruct ls as [|kv ls].
    - exists name, []. split; [|by rewrite Hb].
      change ("" +:+ " " +:+ value) with (String " " value). unfold Fields. rewrite fields_space.
      change (fieldsFrom "" name) with (Fields name). by rewrite !Fields_token.
    - set (t := labelText _). clearbody t.
      replace (name +:+ ("{" +:+ t +:+ "}") +:+ " " +:+ value)
        with ((name +:+ String "{" (t +:+ "}")) +:+ String " " value) by (by rewrite <- str_app_assoc).
      unfold Fields. rewrite fields_space, fields_token by done. change ("" +:+ name) with name.
      cbn [fieldsFrom]. change (is_space "{") with false. cbn iota.
      destruct (fields_first (name +:+ "{") (t +:+ "}")) as (w & l & Hw); [by destruct name|].
      exists ((name +:+ "{") +:+ w), l. split.
      + rewrite Fields_token by done. rewrite Hw. done.
      + rewrite <- str_app_assoc. change ("{" +:+ w) with (String "{" w). by rewrite cut_brace. }
  rewrite Heq. cbn [length]. rewrite length_app. cbn [length].
  rewrite (proj2 (Nat.ltb_ge _ _)) by lia.
  change (default "" (head (h :: l ++ [value]))) with h. rewrite Hcut. by rewrite app_comm_cons, last_snoc.
Qed.

(** ** Labels *)

(** No occurrence of [key] starts in [a] when [b] follows. *)
Fixpoint no_start (key a b : string) : Prop :=
  match a with
  | EmptyString => True
  | String _ a' => String.prefix key (a +:+ b) = false /\ no_start key a' b
  end.
Lemma no_start_app key a1 a2 b : no_start key (a1 +:+ a2) b <-> no_start key a1 (a2 +:+ b) /\ no_start key a2 b.
Proof using.
  induction a1 as [|c a1 IH]; [split; [by split|by intros [_ ?]]|].
  rewrite app_cons. cbn [no_start]. rewrite IH, !app_cons, str_app_assoc.
  split; [intros (? & ? & ?)|intros ((? & ?) & ?)]; by repeat split.
Qed.
Lemma Index_skip key a b : no_start key a (key +:+ b) -> Index (a +:+ key +:+ b) key = Some (String.length a).
Proof using.
  induction a as [|c a IH]; cbn [no_start].
  - intros _. change ("" +:+ key +:+ b) with (key +:+ b). assert (String.prefix key (key +:+ b) = true) by apply prefix_app.
    destruct (key +:+ b); cbn [Index]; by rewrite H.
  - intros [Hp Ha]. rewrite app_cons in *. cbn [Index]. rewrite Hp, IH by done. done.
Qed.

Lemma extractLabel_at label a v r : let key := label +:+ "=" +:+ String DQ "" in
  no_start key a (key +:+ v +:+ String DQ r) -> cut_at DQ v = None ->
  extractLabel (a +:+ key +:+ v +:+ String DQ r) label = v.
Proof using.
  intros key Hn Hv. unfold extractLabel. fold key. rewrite Index_skip by done.
  rewrite str_app_assoc, <- length_append, str_drop_app.
  assert (forall u w, cut_at DQ u = None -> cut_at DQ (u +:+ String DQ w) = Some (u, w)) as Hc.
  { intros u w. induction u as [|c u IH]; [done|]. rewrite app_cons. cbn [cut_at]. destruct (Ascii.eqb c DQ); [done|].
    destruct (cut_at DQ u) as [[]|]; [done|]. intros _. by rewrite IH. }
  by rewrite Hc.
Qed.

(** A value without [=] holds no start of a later label. *)
Lemma prefix_eq_quote k1 k2 p rest : cut_at DQ k1 = None -> cut_at "=" p = None ->
  String.prefix (k1 +:+ String "=" k2) (p +:+ String DQ rest) = false.
Proof using.
  revert p. induction k1 as [|c k1 IH]; intros p Hk Hp.
  - change ("" +:+ String "=" k2) with (String "=" k2). destruct p as [|d p]; [done|].
    rewrite app_cons. cbn [cut_at] in Hp. cbn [String.prefix].
    destruct (ascii_dec "=" d) as [<-|]; [by rewrite Ascii.eqb_refl in Hp|done].
  - rewrite app_cons. cbn [cut_at] in Hk. destruct (Ascii.eqb_spec c DQ) as [|Hc]; [done|].
    destruct p as [|d p].
    + change ("" +:+ String DQ rest) with (String DQ rest). cbn [String.prefix]. by destruct (ascii_dec c DQ).
    + rewrite app_cons. cbn [cut_at] in Hp. cbn [String.prefix].
      destruct (ascii_dec c d); [|done]. destruct (Ascii.eqb d "="); [done|]. apply IH.
      * by destruct (cut_at DQ k1) as [[]|].
      * by destruct (cut_at "=" p) as [[]|].
Qed.
Lemma no_start_value k1 k2 p rest : cut_at DQ k1 = None -> cut_at "=" p = None ->
  no_start (k1 +:+ String "=" k2) p (String DQ rest).
Proof using.
  intros Hk. induction p as [|d p IH]; intros Hp; [done|]. split; [by apply prefix_eq_quote|].
  apply IH. cbn [cut_at] in Hp. destruct (Ascii.eqb d "="); [done|]. by destruct (cut_at "=" p) as [[]|].
Qed.

(** ** The federation metrics *)

(** A sample of the endpoint that the signal reader looks for, or another line *)
Inductive FedSample : Type :=
| SRelay (peer result value : string)
| SReceived (peer result value : string)
| SLag (peer value : string)
| SOther (text : string).
Definition relayName : string := "starfly_federation_relay_total".
Definition receivedName : string := "starfly_federation_received_total".
Definition lagName : string := "starfly_federation_revocation_lag_seconds".
Definition line_of (x : FedSample) : string :=
  match x with
  | SRelay peer result value => sampleLine relayName [("peer", peer); ("result", result)] value
  | SReceived peer result value => sampleLine receivedName [("peer", peer); ("result", result)] value
  | SLag peer value => sampleLine lagName [("peer", peer)] value
  | SOther text => text
  end.

(** What the samples mean: counters of both results, errors apart, and the last lag *)
Definition applySample (m : gmap string PeerSignalMetrics) (x : FedSample) : gmap string PeerSignalMetrics :=
  match x with
  | SRelay peer result value => <[peer := addRelay (getPeer peer m) result (ParseFloat value)]> m
  | SReceived peer result value => <[peer := addReceived (getPeer peer m) result (ParseFloat value)]> m
  | SLag peer value => <[peer := setLag (getPeer peer m) (ParseFloat value)]> m
  | SOther _ => m
  end.

(** Identifiers without quotes and equal signs, results without quotes, values that are one token *)
Definition goodID (peer : string) : Prop := peer <> "" /\ cut_at DQ peer = None /\ cut_at "=" peer = None.
Definition goodValue (v : string) : Prop := v <> "" /\ noSpace v = true.
Definition goodSample (x : FedSample) : Prop :=
  match x with
  | SRelay peer result value | SReceived peer result value => goodID peer /\ cut_at DQ result = None /\ goodValue value
  | SLag peer value => goodID peer /\ goodValue value
  | SOther text => skipLine text = true \/ fst (splitMetricLine text) ∉ [relayName; receivedName; lagName]
  end.

Lemma line_two name P R V : sampleLine name [("peer", P); ("result", R)] V =
  (name +:+ "{") +:+ ("peer" +:+ "=" +:+ String DQ "") +:+ P +:+ String DQ (",result=" +:+ String DQ (R +:+ String DQ ("} " +:+ V))).
Proof using.
  unfold sampleLine, labelText, Join. cbn [fmap list_fmap String.concat fst snd].
  rewrite <- !str_app_assoc. f_equal. change ("{" +:+ ?x) with (String "{" x). repeat (rewrite !app_cons, <- ?str_app_assoc). done.
Qed.

Lemma line_two' name P R V : sampleLine name [("peer", P); ("result", R)] V =
  ((name +:+ "{peer=" +:+ String DQ "") +:+ P +:+ String DQ ",") +:+
  ("result" +:+ "=" +:+ String DQ "") +:+ R +:+ String DQ ("} " +:+ V).
Proof using.
  rewrite line_two. rewrite <- !str_app_assoc. repeat (rewrite !app_cons, <- ?str_app_assoc). done.
Qed.
Lemma line_one name P V : sampleLine name [("peer", P)] V =
  (name +:+ "{") +:+ ("peer" +:+ "=" +:+ String DQ "") +:+ P +:+ String DQ ("} " +:+ V).
Proof using.
  unfold sampleLine, labelText, Join. cbn [fmap list_fmap String.concat fst snd].
  rewrite <- !str_app_assoc. f_equal. repeat (rewrite !app_cons, <- ?str_app_assoc). done.
Qed.

(** The names have no start of the keys. *)
Lemma names_no_start name tail : name ∈ [relayName; receivedName; lagName] ->
  no_start ("peer" +:+ "=" +:+ String DQ "") (name +:+ "{") (("peer" +:+ "=" +:+ String DQ "") +:+ tail) /\
  no_start ("result" +:+ "=" +:+ String DQ "") (name +:+ "{peer=" +:+ String DQ "") tail.
Proof using. intros Hn. repeat (apply elem_of_cons in Hn as [->|Hn]); [..|by apply elem_of_nil in Hn]; repeat split. Qed.

Lemma extract_two name P R V : name ∈ [relayName; receivedName; lagName] -> goodID P -> cut_at DQ R = None ->
  extractLabel (sampleLine name [("peer", P); ("result", R)] V) "peer" = P /\
  extractLabel (sampleLine name [("peer", P); ("result", R)] V) "result" = R.
Proof using.
  intros Hn (_ & HP & HPe) HR. split.
  - rewrite line_two. apply extractLabel_at; [by apply names_no_start|done].
  - rewrite line_two'. apply extractLabel_at; [|done]. apply no_start_app. split; [by apply names_no_start|].
    apply no_start_app. split; [|by repeat split]. rewrite app_cons.
    exact (no_start_value "result" (String DQ "") P _ eq_refl HPe).
Qed.
Lemma extract_one name P V : name ∈ [relayName; receivedName; lagName] -> goodID P ->
  extractLabel (sampleLine name [("peer", P)] V) "peer" = P.
Proof using. intros Hn (_ & HP & _). rewrite line_one. apply extractLabel_at; [by apply names_no_start|done]. Qed.

Lemma split_named name ls V : name ∈ [relayName; receivedName; lagName] -> goodValue V ->
  splitMetricLine (sampleLine name ls V) = (name, V).
Proof using.
  intros Hn [Hv Hs]. apply split_sample; try done;
    repeat (apply elem_of_cons in Hn as [->|Hn]); try done; by apply elem_of_nil in Hn.
Qed.

Lemma known_relay : relayName ∈ [relayName; receivedName; lagName].
Proof using. by left. Qed.
Lemma known_received : receivedName ∈ [relayName; receivedName; lagName].
Proof using. by right; left. Qed.
Lemma known_lag : lagName ∈ [relayName; receivedName; lagName].
Proof using. by right; right; left. Qed.
#[local] Hint Resolve known_relay known_received known_lag : core.

Lemma signalLine_sample m x : goodSample x -> signalLine m (line_of x) = applySample m x.
Proof using.
  unfold signalLine. destruct x as [P R V|P R V|P V|text]; cbn [line_of applySample goodSample].
  - intros (HP & HR & HV). change (skipLine (sampleLine relayName _ V)) with false. cbn iota.
    rewrite split_named by auto. destruct (extract_two relayName P R V) as [-> ->]; [auto|done|done|].
    by rewrite (proj2 (String.eqb_neq _ _) (proj1 HP)).
  - intros (HP & HR & HV). change (skipLine (sampleLine receivedName _ V)) with false. cbn iota.
    rewrite split_named by auto. destruct (extract_two receivedName P R V) as [-> ->]; [auto|done|done|].
    by rewrite (proj2 (String.eqb_neq _ _) (proj1 HP)).
  - intros (HP & HV). change (skipLine (sampleLine lagName _ V)) with false. cbn iota.
    rewrite split_named by auto. rewrite extract_one by auto.
    by rewrite (proj2 (String.eqb_neq _ _) (proj1 HP)).
  - intros [->|Hn]; [done|]. destruct (skipLine text); [done|]. destruct (splitMetricLine text) as [n v]. cbn in Hn.
    rewrite !not_elem_of_cons in Hn. destruct Hn as (H1 & H2 & H3 & _). unfold relayName, receivedName, lagName in *.
    rewrite (proj2 (String.eqb_neq _ _) H1), (proj2 (String.eqb_neq _ _) H2), (proj2 (String.eqb_neq _ _) H3).
    by destruct (n =? "")%string, (extractLabel text "peer" =? "")%string.
Qed.

Lemma applySample_ids m x : ids_ok m -> ids_ok (applySample m x).
Proof using.
  intros Hm. assert (forall P, pm_FabricID (getPeer P m) = P) as Hg.
  { intros P. unfold getPeer. destruct (m !! P) eqn:E; [by apply Hm|done]. }
  assert (forall P q, pm_FabricID q = P -> ids_ok (<[P := q]> m)) as Hins.
  { intros P q Hq id p [[<- <-]|[_ ?]]%lookup_insert_Some; [done|by apply Hm]. }
  destruct x; cbn; [apply Hins; apply Hg..|done].
Qed.

(** ** Scanning the lines of a text *)

Definition fits (l : string) : Prop := cut_at NL l = None /\ (String.length l < maxScanTokenSize)%nat /\ dropCR l = l.
Definition text (lines : list string) : string := String.concat "" (line <$> lines).

Lemma Split_text lines : Forall fits lines -> Split (text lines) NL = lines ++ [""].
Proof using.
  unfold text. induction 1 as [|l ls (Hl & _) _ IH]; [done|]. cbn [fmap list_fmap].
  assert (String.concat "" (line l :: (line <$> ls)) = l +:+ String NL (String.concat "" (line <$> ls))) as ->.
  { unfold line at 1. destruct ls as [|l' ls]; cbn [fmap list_fmap String.concat].
    - reflexivity.
    - by rewrite <- str_app_assoc. }
  clear -Hl IH. induction l as [|a l IHl].
  { change ("" +:+ ?x) with x. cbn [Split]. by rewrite Ascii.eqb_refl, IH. }
  rewrite app_cons. cbn [cut_at] in Hl. cbn [Split].
  destruct (Ascii.eqb a NL); [done|]. destruct (cut_at NL l) as [[]|]; [done|]. by rewrite IHl.
Qed.
Lemma dropLastEmpty_snoc l : dropLastEmpty (l ++ [""]) = l.
Proof using. induction l as [|x l IH]; [done|]. cbn. rewrite IH. by destruct l. Qed.
Lemma scan_text lines : Forall fits lines -> scan {| contents := text lines; readErr := None |} = (lines, None).
Proof using.
  intros HF. unfold scan. cbn [contents readErr]. rewrite Split_text by done. rewrite dropLastEmpty_snoc.
  assert (untilTooLong lines = (lines, false)) as ->; [|done].
  induction HF as [|l ls (_ & Hlen & Hcr) _ IH]; [done|]. cbn [untilTooLong].
  rewrite (proj2 (Nat.leb_gt _ _) Hlen), IH, Hcr. done.
Qed.

(** The signal status reads back what the endpoint serves: from the text of any samples of
    the federation metrics, among any other lines, it gets exactly the peers that have a sample,
    ordered by identifier, each with its counters summed by result in the order of the samples
    and its last lag, for every order in which the map of peers is visited. *)
Theorem signal_metrics_read_back `{!RangeOrder} (samples : list FedSample) :
  Forall goodSample samples -> Forall (fun x => fits (line_of x)) samples ->
  let m := foldl applySample ∅ samples in
  ParseSignalMetrics {| contents := text (line_of <$> samples); readErr := None |} =
  Ok (omap (fun id => finishPeer <$> m !! id) (sort_Strings (map_to_list m).*1)).
Proof using.
  intros Hg Hf m. unfold ParseSignalMetrics. rewrite scan_text by (by apply Forall_fmap).
  assert (foldl signalLine ∅ (line_of <$> samples) = m /\ ids_ok m) as [-> Hok].
  { unfold m. clear Hf. assert (ids_ok ∅) as H0 by (intros ?? He; by rewrite lookup_empty in He). revert H0.
    generalize (∅ : gmap string PeerSignalMetrics). induction Hg as [|x l Hx _ IH]; intros m0 H0; [done|].
    cbn. rewrite signalLine_sample by done. apply IH. by apply applySample_ids. }
  by rewrite sorted_peers_of_map.
Qed.

(** ** The health of a peer *)

(** The status of a parsed peer: down without successful traffic in either direction or with a
    lag over a minute, degraded with a lag over ten seconds, and healthy otherwise. *)
Theorem peer_status (q : PeerSignalMetrics) : Reachable q = fzero ->
  Status (finishPeer q) =
  if negb (SFltb fzero (RelayedTotal q) || SFltb fzero (ReceivedTotal q)) || SFltb (of_Z 60) (LagSeconds q) then "down"
  else if SFltb (of_Z 10) (LagSeconds q) then "degraded"
  else "healthy".
Proof using.
  intros Hr. unfold Status, finishPeer. cbn [Reachable LagSeconds]. rewrite Hr.
  destruct (SFltb fzero (RelayedTotal q) || SFltb fzero (ReceivedTotal q)); reflexivity.
Qed.

(** ** Numbers with commas *)

Fixpoint withoutCommas (s : string) : string :=
  match s with
  | EmptyString => ""
  | String c s' => if Ascii.eqb c "," then withoutCommas s' else String c (withoutCommas s')
  end.

Lemma pretty_N_go_no_comma x s : cut_at "," s = None -> cut_at "," (pretty_N_go x s) = None.
Proof using.
  revert s. induction (N.lt_wf_0 x) as [x _ IH]; intros s Hs.
  assert (x = 0 \/ 0 < x)%N as [->|Hx] by lia; [by rewrite pretty_N_go_0|].
  rewrite pretty_N_go_step by done. apply IH; [by apply N.div_lt|]. cbn [cut_at].
  assert (Ascii.eqb (pretty_N_char (x `mod` 10)) "," = false) as -> by (unfold pretty_N_char; by repeat case_match).
  by rewrite Hs.
Qed.
Lemma pretty_no_comma (n : Z) : cut_at "," (pretty n) = None.
Proof using.
  assert (forall k : N, cut_at "," (pretty k) = None) as HN.
  { intros k. unfold pretty, pretty_N. case_decide; [done|]. by apply pretty_N_go_no_comma. }
  destruct n as [|k|k]; [reflexivity|exact (HN (N.pos k))|].
  change (pretty (Z.neg k)) with (String "-" (pretty (N.pos k))). cbn [cut_at]. by rewrite HN.
Qed.

Lemma pretty_N_go_length x s : (String.length s <= String.length (pretty_N_go x s))%nat.
Proof using.
  revert s. induction (N.lt_wf_0 x) as [x _ IH]; intros s.
  assert (x = 0 \/ 0 < x)%N as [->|Hx] by lia; [by rewrite pretty_N_go_0|].
  rewrite pretty_N_go_step by done. etrans; [|apply IH; by apply N.div_lt]. cbn. lia.
Qed.
Lemma pretty_nonempty (n : Z) : pretty n <> "".
Proof using.
  assert (forall k : N, pretty k <> "") as HN.
  { intros k. unfold pretty, pretty_N. case_decide as Hk; [done|]. rewrite pretty_N_go_step by lia. intros He.
    pose proof (pretty_N_go_length (k `div` 10) (String (pretty_N_char (k `mod` 10)) "")) as Hl. rewrite He in Hl. cbn in Hl. lia. }
  destruct n as [|k|k]; [done|exact (HN (N.pos k))|done].
Qed.

Lemma commas_strip first s : cut_at "," s = None -> withoutCommas (commas first s) = s.
Proof using.
  revert first. induction s as [|c s IH]; intros first Hs; [done|]. cbn [cut_at] in Hs.
  destruct (Ascii.eqb c ",") eqn:Hc; [done|]. destruct (cut_at "," s) as [[]|]; [done|].
  cbn [commas]. destruct (negb first && _); rewrite ?app_cons; cbn [withoutCommas]; change ("" +:+ ?x) with x;
    cbn [withoutCommas Ascii.eqb]; rewrite ?Hc, IH by done; done.
Qed.

Lemma commas_groups first s : cut_at "," s = None -> exists h t, Split (commas first s) "," = h :: t /\
  Forall (fun g => String.length g = 3%nat) t /\
  (if first then (String.length h <= 3)%nat /\ (s <> "" -> 0 < String.length h)%nat
   else String.length h = Nat.modulo (String.length s) 3).
Proof using.
  revert first. induction s as [|c s IH]; intros first Hs.
  { exists "", []. split; [done|]. split; [constructor|]. destruct first; [split; [cbn; lia|done]|done]. }
  cbn [cut_at] in Hs. destruct (Ascii.eqb c ",") eqn:Hc; [done|]. destruct (cut_at "," s) as [[]|] eqn:Hcut; [done|].
  destruct (IH false eq_refl) as (h & t & Hsp & Ht & Hh). cbn [commas].
  pose proof (Nat.mod_upper_bound (String.length s) 3 ltac:(lia)) as Hb.
  assert (Nat.modulo (S (String.length s)) 3 =
    if Nat.eqb (Nat.modulo (String.length s) 3) 2 then 0 else S (Nat.modulo (String.length s) 3))%nat as Hmod.
  { rewrite <- (Nat.add_1_r (String.length s)), Nat.Div0.add_mod.
    destruct (Nat.modulo (String.length s) 3) as [|[|[|]]]; [done|done|done|lia]. }
  change (String.length (String c s)) with (S (String.length s)).
  destruct first; cbn [negb andb].
  - change ("" +:+ String c (commas false s)) with (String c (commas false s)). cbn [Split]. rewrite Hc, Hsp.
    exists (String c h), t. split; [done|]. split; [done|]. cbn [String.length]. split; [|intros _]; lia.
  - rewrite Hmod. destruct (Nat.eqb_spec (Nat.modulo (String.length s) 3) 2) as [H2|H2]; cbn [Nat.eqb].
    + change ("," +:+ String c (commas false s)) with (String "," (String c (commas false s))). cbn [Split].
      rewrite Ascii.eqb_refl, Hc, Hsp. exists "", (String c h :: t). split; [done|]. split; [|done].
      constructor; [cbn; lia|done].
    + change ("" +:+ String c (commas false s)) with (String c (commas false s)). cbn [Split]. rewrite Hc, Hsp.
      exists (String c h), t. split; [done|]. split; [done|]. cbn [String.length]. lia.
Qed.

(** A count is printed readably and exactly: without its commas it is the decimal number, and
    the commas split it into groups of three digits after a first group of one to three. *)
Theorem number_readable (n : Z) :
  withoutCommas (formatInt n) = pretty n /\
  (1000 <= n -> exists h t, Split (formatInt n) "," = h :: t /\ (0 < String.length h <= 3)%nat /\
     Forall (fun g => String.length g = 3%nat) t).
Proof using.
  assert (withoutCommas (pretty n) = pretty n) as Hp.
  { pose proof (pretty_no_comma n) as Hn. revert Hn. induction (pretty n) as [|c s IH]; [done|]. cbn.
    destruct (Ascii.eqb c ","); [done|]. destruct (cut_at "," s) as [[]|]; [done|]. intros _. by rewrite IH. }
  unfold formatInt. split.
  - destruct (n <? 1000); [exact Hp|]. apply commas_strip, pretty_no_comma.
  - intros Hn. rewrite (proj2 (Z.ltb_ge _ _) Hn).
    destruct (commas_groups true (pretty n) (pretty_no_comma n)) as (h & t & Hs & Ht & Hh & Hne).
    exists h, t. split; [done|]. split; [|done]. split; [|done]. apply Hne. intros He.
    by apply pretty_nonempty in He.
Qed.

(** * The status and the collectors of a unit *)

(** The names of a collector's samples: a histogram has buckets, a sum and a count, and no sample
    under its own name. *)
Definition exposedNames (o : Metrics.Opts) : list string :=
  let n := Metrics.fqName o in
  match Metrics.kind o with
  | Metrics.Histogram _ => [n +:+ "_bucket"; n +:+ "_sum"; n +:+ "_count"]
  | _ => [n]
  end.
(** A line of a unit's endpoint: a comment, or a sample of one of its collectors *)
Definition exposes (DefBuckets : list Q) (l : string) : Prop :=
  skipLine l = true \/
  exists c name ls v, c ∈ Metrics.unitCollectors DefBuckets /\ name ∈ exposedNames (snd c) /\ l = sampleLine name ls v /\ goodValue v.

Lemma exposed_names_ok DefBuckets c name : c ∈ Metrics.unitCollectors DefBuckets -> name ∈ exposedNames (snd c) ->
  name <> "" /\ noSpace name = true /\ cut_at "{" name = None /\ name <> "starfly_exchange_duration_seconds".
Proof using.
  set (ok := fun n => negb (n =? "")%string && noSpace n && bool_decide (cut_at "{" n = None) &&
                      negb (n =? "starfly_exchange_duration_seconds")%string).
  assert (forallb (fun c => forallb ok (exposedNames (snd c))) (Metrics.unitCollectors DefBuckets) = true) as Hall
    by (vm_compute; reflexivity).
  intros Hc Hn. rewrite forallb_forall in Hall. specialize (Hall c (proj1 (list_elem_of_In _ _) Hc)).
  rewrite forallb_forall in Hall. specialize (Hall name (proj1 (list_elem_of_In _ _) Hn)).
  unfold ok in Hall. rewrite !andb_true_iff, !negb_true_iff, !String.eqb_neq, bool_decide_eq_true in Hall.
  destruct Hall as (((? & ?) & ?) & ?). done.
Qed.

(** The status never shows a 99th percentile: the reader looks for a sample under the name of the
    exchange histogram, and no line a unit serves has that name. *)
Theorem p99_never_shown (DefBuckets : list Q) (lines : list string) :
  Forall (exposes DefBuckets) lines -> Forall fits lines ->
  exists st, ParseMetrics {| contents := text lines; readErr := None |} = Ok st /\ ExchangeP99 st = fzero.
Proof using.
  intros He Hf. unfold ParseMetrics. rewrite scan_text by done. eexists. split; [reflexivity|].
  assert (ExchangeP99 emptyStatus = fzero) as H0 by done. revert H0. generalize emptyStatus. clear Hf.
  induction He as [|l ls Hl _ IH]; intros s Hs; [done|]. cbn [foldl]. apply IH. unfold statusLine.
  destruct (skipLine l) eqn:Hk; [done|]. destruct (HasPrefix l "starfly_unit_info{"); [done|].
  destruct Hl as [Hl|(c & name & lb & v & Hc & Hn & -> & Hv & Hvs)]; [congruence|].
  destruct (exposed_names_ok DefBuckets c name Hc Hn) as (Hne & Hns & Hb & Hd).
  rewrite split_sample by done. rewrite (proj2 (String.eqb_neq _ _) Hne). cbn [ExchangeP99].
  by rewrite (proj2 (String.eqb_neq _ _) Hd).
Qed.

(** ** The target column *)

(** The column keeps its width: the text is at most fifty bytes, and it is shown whole when it fits. *)
Lemma target_fits (e : EventStream.FabricEvent) : (String.length (targetText e) <= 50)%nat.
Proof using.
  unfold targetText. set (t := if (_ =? _)%string then _ else _). clearbody t.
  destruct (Nat.ltb_spec 50 (String.length t)); [|lia]. rewrite length_append, length_str_take.
  change (String.length "...") with 3%nat. lia.
Qed.

(** * The live feed *)

(** The lines of the event stream: the greeting, and two per event or heartbeat *)
Definition greeting (unitID : string) : string := ": connected to " +:+ unitID +:+ " luminescence stream".
Definition streamLine (o : EventStream.Output) : string :=
  match o with EventStream.Data d => "data: " +:+ d | EventStream.Heartbeat => ": heartbeat" end.
Definition streamLines (unitID : string) (outs : list EventStream.Output) : list string :=
  [greeting unitID; ""] ++ mjoin ((fun o => [streamLine o; ""]) <$> outs).


(** What the reader makes of one line *)
Definition watchLine (unmarshal : string -> option EventStream.FabricEvent) (l : string) : option EventStream.FabricEvent :=
  if negb (HasPrefix l "data: ") then None else
  let data := TrimPrefix l "data: " in
  if (data =? "")%string || (data =? ":heartbeat")%string then None else unmarshal data.

Lemma watchEvents_cons unmarshal l ls : watchEvents unmarshal (l :: ls) =
  match watchLine unmarshal l with Some e => e :: watchEvents unmarshal ls | None => watchEvents unmarshal ls end.
Proof using. reflexivity. Qed.

Lemma watchLine_data unmarshal d : d <> "" -> d <> ":heartbeat" -> watchLine unmarshal ("data: " +:+ d) = unmarshal d.
Proof using.
  intros H1 H2. unfold watchLine, TrimPrefix. assert (HasPrefix ("data: " +:+ d) "data: " = true) as -> by apply prefix_app.
  rewrite str_drop_app. by rewrite (proj2 (String.eqb_neq _ _) H1), (proj2 (String.eqb_neq _ _) H2).
Qed.

Lemma watch_outputs unmarshal unitID outs :
  Forall (fun d => d <> "" /\ d <> ":heartbeat") (omap EventStream.data_of outs) ->
  watchEvents unmarshal (streamLines unitID outs) = omap unmarshal (omap EventStream.data_of outs).
Proof using.
  unfold streamLines. cbn [app]. rewrite !watchEvents_cons. cbn [watchLine HasPrefix].
  change (watchLine unmarshal (greeting unitID)) with (@None EventStream.FabricEvent).
  change (watchLine unmarshal "") with (@None EventStream.FabricEvent). cbn iota.
  induction outs as [|o outs IH]; intros HF; [done|].
  change (mjoin ((fun o => [streamLine o; ""]) <$> o :: outs))
    with (streamLine o :: "" :: mjoin ((fun o => [streamLine o; ""]) <$> outs)).
  rewrite !watchEvents_cons. change (watchLine unmarshal "") with (@None EventStream.FabricEvent). cbn iota.
  destruct o as [d|]; [|apply IH; exact HF].
  change (omap EventStream.data_of (EventStream.Data d :: outs)) with (d :: omap EventStream.data_of outs) in HF |- *.
  apply Forall_cons in HF as [[H1 H2] HF]. cbn [streamLine]. rewrite watchLine_data, IH by done.
  reflexivity.
Qed.


Lemma unmarshal_marshalled {A} (marshal : A -> option string) (unmarshal : string -> option A) (l : list A) :
  (forall e d, marshal e = Some d -> unmarshal d = Some e) ->
  omap unmarshal (omap marshal l) = List.filter (fun e => bool_decide (is_Some (marshal e))) l.
Proof using.
  intros H. induction l as [|e l IH]; [done|].
  change (omap marshal (e :: l)) with (match marshal e with Some d => d :: omap marshal l | None => omap marshal l end).
  cbn [List.filter]. destruct (marshal e) as [d|] eqn:Hd.
  - change (omap unmarshal (d :: omap marshal l))
      with (match unmarshal d with Some x => x :: omap unmarshal (omap marshal l) | None => omap unmarshal (omap marshal l) end).
    rewrite (H e d Hd), IH. by rewrite bool_decide_true by done.
  - by rewrite bool_decide_false by (by intros []).
Qed.

(** The live feed shows what the unit streams: as long as the unit's writes succeed, the watch
    prints exactly the events of the requested types that marshal, in the order in which the unit's
    subscription delivered them, skips the greeting and the heartbeats, and exits with zero when
    the stream ends. *)
Theorem watch_shows_events (marshal : EventStream.FabricEvent -> option string)
    (unmarshal : string -> option EventStream.FabricEvent) (unitID endpoint types : string)
    (get : string -> result string (Z * Reader)) (inputs : list (EventStream.Select * bool)) :
  let outs := fst (EventStream.eventLoop marshal (EventStream.typeFilter types) inputs) in
  (forall e d, marshal e = Some d -> unmarshal d = Some e) ->
  (forall e d, marshal e = Some d -> d <> "" /\ d <> ":heartbeat") ->
  Forall (fun i => i.2 = true /\ i.1 <> EventStream.SDone /\ i.1 <> EventStream.SEvent None) inputs ->
  Forall fits (streamLines unitID outs) ->
  get (watchURL endpoint types) = Ok (200, {| contents := text (streamLines unitID outs); readErr := None |}) ->
  runWatch get unmarshal endpoint types =
  (0, List.filter (fun e => bool_decide (is_Some (marshal e)))
        (List.filter (EventStream.wanted (EventStream.typeFilter types)) (omap EventStream.event_of inputs))).
Proof using.
  intros outs Hm Hd Hi Hf Hg. unfold runWatch. rewrite Hg, scan_text by done. cbn [Z.eqb Pos.eqb negb].
  destruct (EventStream.stream_filtered marshal (EventStream.typeFilter types) inputs Hi) as [Ho _]. fold outs in Ho.
  rewrite watch_outputs; rewrite Ho; [by rewrite unmarshal_marshalled|].
  generalize (List.filter (EventStream.wanted (EventStream.typeFilter types)) (omap EventStream.event_of inputs)).
  intros l. induction l as [|e l IH]; [constructor|].
  change (omap marshal (e :: l)) with (match marshal e with Some d => d :: omap marshal l | None => omap marshal l end).
  destruct (marshal e) as [d|] eqn:He; [constructor; [by apply (Hd e)|done]|done].
Qed.

End Commands.

(** * Runs *)

Module Runs.
(** Decimal integers are enough for the samples below. *)
Fixpoint digits (acc : Z) (s : string) : option Z :=
  match s with
  | EmptyString => Some acc
  | String a s' =>
      let d := Z.of_nat (nat_of_ascii a) - 48 in
      if (0 <=? d) && (d <=? 9) then digits (10 * acc + d) s' else None
  end.
Definition parseInteger (s : string) : spec_float := default fzero (of_Z <$> digits 0 s).
Definition anyInt (f : spec_float) : Z := 0.
Definition oneDigit (f : spec_float) : string := default "?" (pretty <$> integral f).

Definition samples : list FedSample :=
  [SOther "# HELP starfly_federation_relay_total Revocations relayed"; SRelay "fabric-b" "success" "1200";
   SRelay "fabric-b" "error" "3"; SLag "fabric-c" "75"; SOther "go_goroutines 12"; SRelay "fabric-a" "success" "5";
   SLag "fabric-a" "12"; SRelay "fabric-b" "success" "300"].
Definition endpointText : Reader := {| contents := text (line_of <$> samples); readErr := None |}.

Example demo_status :
  match @ParseSignalMetrics parseInteger key_order endpointText with
  | Ok ps => (fun p => (pm_FabricID p, Status p, formatNumber anyInt (RelayedTotal p))) <$> ps
  | Err _ => []
  end = [("fabric-a", "degraded", "5"); ("fabric-b", "healthy", "1,500"); ("fabric-c", "down", "0")].
Proof. vm_compute. reflexivity. Qed.

Definition fitsb (l : string) : bool :=
  bool_decide (cut_at NL l = None) && Nat.ltb (String.length l) maxScanTokenSize && (dropCR l =? l)%string.
Lemma fitsb_ok l : fitsb l = true -> fits l.
Proof.
  unfold fitsb, fits. rewrite !andb_true_iff, bool_decide_eq_true, Nat.ltb_lt, String.eqb_eq. by intros [[? ?] ?].
Qed.
Lemma all_fit ls : forallb fitsb ls = true -> Forall fits ls.
Proof. intros H. apply Forall_forall. intros l Hl. apply fitsb_ok. rewrite forallb_forall in H. by apply H, list_elem_of_In. Qed.

Lemma signal_metrics_read_back_witness :
  @ParseSignalMetrics parseInteger key_order endpointText =
  Ok (omap (fun id => finishPeer <$> foldl (applySample parseInteger) ∅ samples !! id)
        (sort_Strings (map_to_list (foldl (applySample parseInteger) ∅ samples)).*1)).
Proof.
  apply (@signal_metrics_read_back parseInteger key_order samples).
  - repeat (apply Forall_cons; split); [..|constructor]; try (right; vm_compute; reflexivity);
      try (left; reflexivity); repeat split; try discriminate; try reflexivity.
    right. cbn. apply not_elem_of_cons. split; [discriminate|]. apply not_elem_of_cons. split; [discriminate|].
    apply not_elem_of_cons. split; [discriminate|]. apply not_elem_of_nil.
  - apply (proj1 (Forall_fmap line_of fits samples)). apply all_fit. vm_compute. reflexivity.
Defined.

Lemma peer_status_witness : Status (finishPeer (setLag (newPeer "fabric-c") (of_Z 75))) = "down".
Proof. rewrite peer_status; reflexivity. Defined.

Lemma p99_never_shown_witness : exists st,
  ParseMetrics parseInteger anyInt
    {| contents := text ["# TYPE starfly_exchange_duration_seconds histogram";
                         sampleLine "starfly_exchange_duration_seconds_count" [] "7"]; readErr := None |} = Ok st /\
  ExchangeP99 st = fzero.
Proof.
  apply (p99_never_shown parseInteger anyInt []); [|apply all_fit; vm_compute; reflexivity].
  apply Forall_cons. split; [by left|]. apply Forall_cons. split; [|constructor]. right.
  eexists (_, _), "starfly_exchange_duration_seconds_count", [], "7".
  split; [apply list_elem_of_further, list_elem_of_here|].
  split; [apply list_elem_of_In; cbn; auto|]. by split.
Defined.

(** The cut is by bytes: it can fall inside the arrow between a subject and its target. *)
Example target_cut_in_a_character :
  targetText {| EventStream.fe_ID := "1"; EventStream.fe_Timestamp := ""; EventStream.fe_Type := "exchange";
                EventStream.fe_Subject := "spiffe://payments.example/ns/prod/sa/gateway0";
                EventStream.fe_Target := "spiffe://b"; EventStream.fe_Duration := 0; EventStream.fe_Result := "ok";
                EventStream.fe_Detail := ""; EventStream.fe_UnitID := "u1" |} =
  "spiffe://payments.example/ns/prod/sa/gateway0 " +:+ String "226" "...".
Proof. vm_compute. reflexivity. Qed.

(** Events written as their identifiers *)
#[local] Instance Q_eq_dec : EqDecision Q.
Proof. solve_decision. Defined.
#[local] Instance event_eq_dec : EqDecision EventStream.FabricEvent.
Proof. solve_decision. Defined.
Definition marshalID (e : EventStream.FabricEvent) : option string :=
  if decide (e = EventStream.demo_event (EventStream.fe_ID e)) then Some ("{" +:+ EventStream.fe_ID e) else None.
Definition unmarshalID (s : string) : option EventStream.FabricEvent :=
  match s with String "{" i => Some (EventStream.demo_event i) | _ => None end.
Definition feed : list (EventStream.Select * bool) :=
  [(EventStream.SEvent (Some (EventStream.demo_event "1")), true); (EventStream.STick, true);
   (EventStream.SEvent (Some (EventStream.demo_event "2")), true)].
Definition feedText : Reader :=
  {| contents := text (streamLines "u1" [EventStream.Data "{1"; EventStream.Heartbeat; EventStream.Data "{2"]);
     readErr := None |}.

Lemma watch_shows_events_witness :
  runWatch (fun _ => Ok (200, feedText)) unmarshalID "http://u1/v1/events" "exchange,caep" =
  (0, [EventStream.demo_event "1"; EventStream.demo_event "2"]).
Proof.
  apply (watch_shows_events marshalID unmarshalID "u1" "http://u1/v1/events" "exchange,caep"
           (fun _ => Ok (200, feedText)) feed).
  - intros e d. unfold marshalID. case_decide as He; [|done]. intros [= <-]. change (Some (EventStream.demo_event (EventStream.fe_ID e)) = Some e). by f_equal.
  - intros e d. unfold marshalID. case_decide; [|done]. by intros [= <-].
  - unfold feed. repeat constructor; discriminate.
  - apply all_fit. vm_compute. reflexivity.
  - reflexivity.
Defined.

End Runs.
End Cli.
