(* ===== verification/Unit.v ===== *)
(** A unit from its command line to its end ([cmd/starfly/main.go], [operator.go], [pkg/boot],
    [pkg/telemetry], [pkg/lifecycle/worker.go], [client.go]): which command is run, the steps of
    the start with those that end it and those that are only reported, what is shut down and in
    which order, and the events a unit broadcasts. What the constructors of the components return
    is a parameter; the configuration is the one of [Configuration]. *)
From Stdlib Require Import ZArith QArith Lia Ascii SpecFloat.
From stdpp Require Import base gmap strings list pretty.
From S2P Require Import Prelude.
From S2P Require Import GoLib.
From S2P Require Import Core.
From S2P Require Import Configuration.
From S2P Require Import EventStream.
From S2P Require Import Cli.

#[local] Open Scope string_scope.
#[local] Open Scope list_scope.
#[local] Open Scope Z_scope.
#[local] Open Scope go_scope.

Module Unit.
Import Configuration.

(** * Commands: [main] *)

Inductive Command : Type :=
| CmdOperator (args : list string)
| CmdLockMigrate (args : list string)
| CmdSoulDiff (args : list string)
| CmdDoc (args : list string)
| CmdStatus (args : list string)
| CmdWatch (args : list string)
| CmdFederationSignals (args : list string)
| CmdRun.
Definition route (args : list string) : Command :=
  match args with
  | _ :: c :: rest =>
      if (c =? "operator")%string then CmdOperator rest
      else if (c =? "doc")%string then CmdDoc rest
      else if (c =? "status")%string then CmdStatus rest
      else if (c =? "watch")%string then CmdWatch rest
      else
      match rest with
      | d :: rest' =>
          if (c =? "lock")%string && (d =? "migrate")%string then CmdLockMigrate rest'
          else if (c =? "soul")%string && (d =? "diff")%string then CmdSoulDiff rest'
          else if (c =? "federation")%string && (d =? "signals")%string then CmdFederationSignals rest'
          else CmdRun
      | [] => CmdRun
      end
  | _ => CmdRun
  end.

(** * What a unit shows: [pkg/boot] *)

Record BannerConfig : Type := { bc_Version : string; bc_FabricID : string; bc_UnitID : string; bc_Port : string }.

(** [extractPort]: what follows the last colon *)
Fixpoint extractPort (addr : string) : string :=
  match addr with
  | EmptyString => ""
  | String a rest =>
      if Ascii.eqb a ":" then (if Contains rest ":" then extractPort rest else rest)
      else if Contains rest ":" then extractPort rest else addr
  end.

Section Texts.
(** Whether colours are on; the verb [%.1f] of a number of seconds *)
Variable color : bool.
Variable seconds1 : Duration -> string.

Definition ansi (code : Z) (text : string) : string :=
  if negb color then text
  else String Cli.ESC ("[" +:+ pretty code +:+ "m" +:+ text +:+ String Cli.ESC "[0m").
Definition ruler (n : nat) : string := Cli.repeated n "─".
Definition orElse (s dflt : string) : string := if (s =? "")%string then dflt else s.
Definition Banner (cfg : BannerConfig) : string :=
  Cli.line (ansi 1 ("starfly " +:+ orElse (bc_Version cfg) "dev" +:+ " — identity fabric for non-human identities")) +:+
  Cli.line (ruler 60) +:+
  Cli.line ("  fabric:    " +:+ orElse (bc_FabricID cfg) "(none)") +:+
  Cli.line ("  unit:      " +:+ orElse (bc_UnitID cfg) "(none)") +:+
  Cli.line ("  port:      " +:+ orElse (bc_Port cfg) "(none)" +:+ " (RFC 8693 — token exchange)").
Definition formatDuration (d : Duration) : string :=
  if d <? Second then pretty (Z.quot d 1000000) +:+ "ms" else seconds1 d +:+ "s".
Definition Step (name : string) (dur : Duration) : string :=
  Cli.line ("  " +:+ ansi 32 "✓" +:+ " " +:+ Cli.padTo 24 name +:+ " " +:+ ansi 90 (formatDuration dur)).
Definition StepWarn (name : string) (dur : Duration) (warning : string) : string :=
  Cli.line ("  " +:+ ansi 33 "⚠" +:+ " " +:+ Cli.padTo 24 name +:+ " " +:+ ansi 90 (formatDuration dur) +:+ "  " +:+
            ansi 33 ("(" +:+ warning +:+ ")")).
Definition Ready (total : Duration) : string :=
  Cli.line ("  " +:+ ruler 56) +:+
  Cli.line ("  " +:+ ansi 1 "ready" +:+ " in " +:+ ansi 90 (formatDuration total) +:+ " — each drawn to the other's light").
Definition Failed (component err : string) : string :=
  Cli.line ("  " +:+ ansi 31 "✗" +:+ " " +:+ Cli.padTo 24 component +:+ " " +:+ ansi 31 ("— error: " +:+ err)).
End Texts.

(** * Steps *)

Inductive Resource : Type :=
| RTelemetry | RLock | RStore | RAuditor | RJwksCache | RBus | RSignalSubscription | RLifecycleClient | RLifecycleWorker
| RHttpServer | RMtlsServer | RKeeper | RGatewaySubscription | RSyncer | ROperator.
#[global] Instance Resource_eq_dec : EqDecision Resource.
Proof. solve_decision. Defined.

(** What is printed; the measured times are left out. *)
Inductive BootLine : Type :=
| LBanner (cfg : BannerConfig) | LStep (name : string) | LStepWarn (name warning : string)
| LFailed (name err : string) | LReady.
Inductive Warning : Type :=
| WDevLock | WPolicy (err : string) | WPrefetch (err : string) | WReplay (err : string) | WSubscribe (err : string)
| WLifecycle (err : string) | WMtlsConfig | WKeeper (err : string) | WGateway (err : string) | WSyncer (err : string).
Inductive UEvent : Type :=
| Acquire (r : Resource)
| Release (r : Resource)
| WireHooks
| SetGauges (domains : nat)
| Stopped
| Print (l : BootLine)
| Warn (w : Warning).

Inductive RunErr : Type :=
| ConfigFailed (err : ConfigErr)
| InitTelemetry (err : string)
| InitLock (err : string)
| InitStore (err : string)
| InitProvider (name err : string)
| InitBus (err : string)
| InitTransmitter (err : string)
| LoadingSecrets (err : string)
| InitExchange (err : string)
| InitAgentProvider (err : string).

(** What the constructors and first calls of the components return in one start of a unit *)
Record Outcomes : Type := {
  o_config : result ConfigErr Config;
  o_Getenv : string -> string;
  o_unitID : string;
  o_version : string;
  o_resource : result string unit;
  o_exporter : result string unit;
  o_lock : result string unit;
  o_store : result string unit;
  o_policy : result string unit;
  o_prefetch : result string unit;
  o_provider : string -> result string unit;
  o_bus : result string unit;
  o_replay : result string nat;
  o_subscribe : result string unit;
  o_transmitter : result string unit;
  o_secrets : string -> result string bool;
  o_exchange : result string unit;
  o_dial : result string unit;
  o_workerStart : result string unit;
  o_agent : result string unit;
  o_mtlsConfig : bool;
  o_keeper : result string unit;
  o_gateway : result string unit;
  o_syncer : result string unit;
}.

Abbreviation U := (M (list UEvent) RunErr) (only parsing).
Definition emit (e : UEvent) : U unit := fun tr => (tr ++ [e], Ok tt).
Definition show (l : BootLine) : U unit := emit (Print l).
Definition acquire (r : Resource) : U unit := emit (Acquire r).
Definition release (r : Resource) : U unit := emit (Release r).
(** An error that ends the start, with or without a line about it *)
Definition fatal {A} (mk : string -> RunErr) (r : result string A) : U A :=
  match r with Ok a => st_ret a | Err e => st_fail (mk e) end.
Definition fatalShown {A} (name : string) (mk : string -> RunErr) (r : result string A) : U A :=
  match r with Ok a => st_ret a | Err e => do _ <- show (LFailed name e) ;; st_fail (mk e) end.
(** An error that is only reported *)
Definition tolerated {A} (w : string -> Warning) (r : result string A) (k : A -> U unit) : U unit :=
  match r with Ok a => k a | Err e => emit (Warn (w e)) end.
(** [defer] *)
Definition deferring {A} (m : U A) (later : UEvent) : U A := fun tr => let '(tr', r) := m tr in (tr' ++ [later], r).
Definition when (b : bool) (m : U unit) : U unit := if b then m else st_ret tt.

(** [telemetry.Init]: whether a tracer provider is made *)
Definition telemetryInit (o : Outcomes) (endpoint : string) : result string bool :=
  if (endpoint =? "")%string then Ok false else
  let? _ := o_resource o in let? _ := o_exporter o in Ok true.

(** The constructors of the identity providers, in their order *)
Definition providerNames : list string :=
  ["k8s identity"; "spiffe"; "oidc"; "kerberos"; "saml"; "mtls"; "aws"; "gcp"; "azure"; "oauth2"; "apikey"].
Fixpoint initProviders (o : Outcomes) (names : list string) : U unit :=
  match names with
  | [] => st_ret tt
  | n :: rest => do _ <- fatal (InitProvider n) (o_provider o n) ;; initProviders o rest
  end.

(** ** The lifecycle worker: [StartFromConfig] and its part of [run] *)

(** The activities registered with the worker *)
Definition sharedActivities : list string :=
  ["MintExecutionScopedToken"; "EmitLifecycleSignal"; "RevokeCredential"; "CheckRevocationStatus"].
Definition rotationRegistered : list string :=
  ["GenerateAndPublishKey"; "SwapSigningKey"; "VerifyNewKey"; "RemoveKey"; "RollbackToKey"].
Definition registeredActivities : list string := sharedActivities ++ rotationRegistered.
Definition registeredWorkflows : list string := ["RotationWorkflow"; "ComplianceScanWorkflow"].

(** [StartFromConfig]: whether a client and a worker are made *)
Definition StartFromConfig (o : Outcomes) (hostPort : string) : result string bool :=
  if (hostPort =? "")%string then Ok false else let? _ := o_dial o in Ok true.
(** Whether a client and a worker are kept *)
Definition startLifecycle (o : Outcomes) (cfg : Config) : U bool :=
  if negb (lc_Enabled (Lifecycle cfg)) then st_ret false else
  match StartFromConfig o (HostPort (Temporal (Lifecycle cfg))) with
  | Err e => do _ <- emit (Warn (WLifecycle e)) ;; st_ret false
  | Ok false => st_ret false
  | Ok true =>
      do _ <- acquire RLifecycleClient ;;
      match o_workerStart o with
      | Ok _ => do _ <- acquire RLifecycleWorker ;; st_ret true
      | Err e => do _ <- emit (Warn (WLifecycle e)) ;; do _ <- release RLifecycleClient ;; st_ret false
      end
  end.

(** ** The embedded operator: [startEmbeddedOperatorIfEnabled] *)

Record EmbeddedConfig : Type := { ec_Namespace : string; ec_LeaderElection : bool; ec_LeaseName : string }.
Definition embeddedOperator (o : Outcomes) : option EmbeddedConfig :=
  if negb (o_Getenv o "STARFLY_OPERATOR_ENABLED" =? "true")%string then None else
  Some {| ec_Namespace := orElse (o_Getenv o "STARFLY_NAMESPACE") "starfly-system";
          ec_LeaderElection := (o_Getenv o "STARFLY_OPERATOR_LEADER_ELECT" =? "true")%string;
          ec_LeaseName := o_Getenv o "STARFLY_OPERATOR_LEASE_NAME" |}.

(** ** [run] *)

Definition staticSecretsPath (o : Outcomes) : string :=
  orElse (o_Getenv o "STARFLY_STATIC_SECRETS_PATH") "/etc/starfly/static-secrets.yaml".
Definition soulAnchorPath (o : Outcomes) : string := orElse (o_Getenv o "STARFLY_SOUL_ANCHOR_PATH") "/var/lib/starfly/soul".
Definition primaryTrustDomain (o : Outcomes) (cfg : Config) : string :=
  orElse (match TrustDomains cfg with td :: _ => ct_Name td | [] => "" end) (fabricID (o_Getenv o) cfg).

(** From the configuration to the policy bundle *)
Definition openUnit (o : Outcomes) (cfg : Config) : U unit :=
  do _ <- show (LBanner {| bc_Version := o_version o; bc_FabricID := fabricID (o_Getenv o) cfg; bc_UnitID := o_unitID o;
                           bc_Port := extractPort (ListenAddr cfg) |}) ;;
  do _ <- show (LStep "config loaded") ;;
  do _ <- fatal InitTelemetry (telemetryInit o (OTLPEndpoint (Telemetry cfg))) ;;
  do _ <- acquire RTelemetry ;;
  do _ <- fatalShown "lock opened" InitLock (o_lock o) ;;
  do _ <- acquire RLock ;;
  let label := "lock opened (" +:+ lock_Type (Lock cfg) +:+ ")" in
  do _ <- (if (lock_Type (Lock cfg) =? "dev")%string
           then do _ <- show (LStepWarn label "dev mode") ;; emit (Warn WDevLock) else show (LStep label)) ;;
  do _ <- fatalShown "store ready" InitStore (o_store o) ;;
  do _ <- acquire RStore ;;
  do _ <- show (LStep "store ready") ;;
  do _ <- acquire RAuditor ;;
  match o_policy o with
  | Err e => do _ <- show (LFailed "policy loaded" e) ;; emit (Warn (WPolicy e))
  | Ok _ => show (LStep "policy loaded")
  end.

(** From the providers to the last step that can fail *)
Definition buildEngines (o : Outcomes) (cfg : Config) : U bool :=
  do _ <- when (match jwksIssuers cfg with [] => false | _ => true end)
            (do _ <- tolerated WPrefetch (o_prefetch o) (fun _ => st_ret tt) ;; show (LStep "jwks cache warmed")) ;;
  do _ <- initProviders o providerNames ;;
  do _ <- show (LStep "providers registered (11)") ;;
  do _ <- fatalShown "nats connected" InitBus (o_bus o) ;;
  do _ <- acquire RBus ;;
  do _ <- show (if DevMode cfg then LStepWarn "nats connected" "dev mode" else LStep "nats connected") ;;
  do _ <- tolerated WReplay (o_replay o) (fun n => show (LStep ("signals replayed (" +:+ pretty n +:+ ")"))) ;;
  do _ <- tolerated WSubscribe (o_subscribe o) (fun _ => acquire RSignalSubscription) ;;
  do _ <- fatal InitTransmitter (o_transmitter o) ;;
  do _ <- fatal LoadingSecrets (o_secrets o (staticSecretsPath o)) ;;
  do _ <- fatalShown "exchange engine ready" InitExchange (o_exchange o) ;;
  do _ <- show (LStep "exchange engine ready") ;;
  do lifecycle <- startLifecycle o cfg ;;
  do _ <- fatal InitAgentProvider (o_agent o) ;;
  st_ret lifecycle.

(** The servers, the soul keeper, federation and the operator; whether there is a keeper *)
Definition serve (o : Outcomes) (cfg : Config) : U bool :=
  do _ <- when (tls_Enabled (TLS cfg) && negb (o_mtlsConfig o)) (emit (Warn WMtlsConfig)) ;;
  do _ <- emit WireHooks ;;
  do _ <- acquire RHttpServer ;;
  do _ <- when (tls_Enabled (TLS cfg) && o_mtlsConfig o) (acquire RMtlsServer) ;;
  do _ <- show (LStep "metrics serving") ;;
  do _ <- emit (SetGauges (length (TrustDomains cfg))) ;;
  do _ <- tolerated WKeeper (o_keeper o) (fun _ => acquire RKeeper) ;;
  do _ <- when (match Peers (Federation cfg) with [] => false | _ => true end)
            (do _ <- tolerated WGateway (o_gateway o) (fun _ => acquire RGatewaySubscription) ;;
             tolerated WSyncer (o_syncer o) (fun _ => acquire RSyncer)) ;;
  do _ <- show LReady ;;
  do _ <- when (match embeddedOperator o with Some _ => true | None => false end) (acquire ROperator) ;;
  st_ret (is_ok (o_keeper o)).

(** The end of [run]; errors are only logged. *)
Definition shutdown (o : Outcomes) (cfg : Config) (keeper lifecycle : bool) : U unit :=
  do _ <- emit Stopped ;;
  do _ <- when keeper (release RKeeper) ;;
  do _ <- when lifecycle (do _ <- release RLifecycleWorker ;; release RLifecycleClient) ;;
  do _ <- when (tls_Enabled (TLS cfg) && o_mtlsConfig o) (release RMtlsServer) ;;
  do _ <- release RHttpServer ;;
  do _ <- release RBus ;;
  do _ <- release RStore ;;
  do _ <- release RAuditor ;;
  release RTelemetry.

Definition run (o : Outcomes) : U unit :=
  do cfg <- st_lift (match o_config o with Ok cfg => Ok cfg | Err e => Err (ConfigFailed e) end) ;;
  do _ <- openUnit o cfg ;;
  do _ <- acquire RJwksCache ;;
  deferring (do lifecycle <- buildEngines o cfg ;;
             do keeper <- serve o cfg ;;
             shutdown o cfg keeper lifecycle) (Release RJwksCache).

(** * The events of a unit *)

(** The callbacks wired by [run]; [id] and [now] are a new identifier and the formatted time. *)
Definition exchangeEvent (id now durText subject target result : string) : EventStream.FabricEvent :=
  {| EventStream.fe_ID := id; EventStream.fe_Timestamp := now; EventStream.fe_Type := "exchange";
     EventStream.fe_Subject := subject; EventStream.fe_Target := target; EventStream.fe_Duration := 0;
     EventStream.fe_Result := ""; EventStream.fe_Detail := "result=" +:+ result +:+ " duration=" +:+ durText;
     EventStream.fe_UnitID := "" |}.
Definition signalEvent (id now eventType subject result : string) : EventStream.FabricEvent :=
  {| EventStream.fe_ID := id; EventStream.fe_Timestamp := now; EventStream.fe_Type := "caep";
     EventStream.fe_Subject := subject; EventStream.fe_Target := ""; EventStream.fe_Duration := 0;
     EventStream.fe_Result := ""; EventStream.fe_Detail := "event=" +:+ eventType +:+ " result=" +:+ result;
     EventStream.fe_UnitID := "" |}.
Definition soulEvent (id now fabric : string) (seq : Z) : EventStream.FabricEvent :=
  {| EventStream.fe_ID := id; EventStream.fe_Timestamp := now; EventStream.fe_Type := "soul";
     EventStream.fe_Subject := fabric; EventStream.fe_Target := ""; EventStream.fe_Duration := 0;
     EventStream.fe_Result := ""; EventStream.fe_Detail := "sequence=" +:+ pretty seq; EventStream.fe_UnitID := "" |}.

(** The watch shows neither the result nor the duration of an exchange: they are in the detail,
    which it does not print, and the fields it prints are never set. *)
Lemma watch_shows_no_result noColor clock ms1 id now subject target d r d' r' :
  Cli.FormatEvent noColor clock ms1 (exchangeEvent id now d subject target r) =
  Cli.FormatEvent noColor clock ms1 (exchangeEvent id now d' subject target r').
Proof. reflexivity. Qed.

(** * How a start ends *)

Definition errOf {A} (mk : string -> RunErr) (r : result string A) : option RunErr :=
  match r with Ok _ => None | Err e => Some (mk e) end.
Fixpoint firstOf (l : list (option RunErr)) : option RunErr :=
  match l with [] => None | Some e :: _ => Some e | None :: l' => firstOf l' end.
(** The first error, in order, of the steps a unit cannot do without *)
Definition firstFailure (o : Outcomes) : option RunErr :=
  match o_config o with
  | Err e => Some (ConfigFailed e)
  | Ok cfg =>
      firstOf ([errOf InitTelemetry (telemetryInit o (OTLPEndpoint (Telemetry cfg))); errOf InitLock (o_lock o);
                errOf InitStore (o_store o)] ++
               ((fun n => errOf (InitProvider n) (o_provider o n)) <$> providerNames) ++
               [errOf InitBus (o_bus o); errOf InitTransmitter (o_transmitter o);
                errOf LoadingSecrets (o_secrets o (staticSecretsPath o)); errOf InitExchange (o_exchange o);
                errOf InitAgentProvider (o_agent o)])
  end.

(** A computation ends with this error, or with none, whatever the trace *)
Definition yields {A} (m : U A) (e : option RunErr) : Prop :=
  forall tr, match snd (m tr) with Ok _ => e = None | Err x => e = Some x end.
Lemma yields_ret {A} (a : A) : yields (st_ret a) None.
Proof. by intros tr. Qed.
Lemma yields_emit ev : yields (emit ev) None.
Proof. by intros tr. Qed.
Lemma yields_show l : yields (show l) None.
Proof. apply yields_emit. Qed.
Lemma yields_acquire r : yields (acquire r) None.
Proof. apply yields_emit. Qed.
Lemma yields_release r : yields (release r) None.
Proof. apply yields_emit. Qed.
Lemma yields_bind {A B} (m : U A) (k : A -> U B) e1 e2 : yields m e1 -> (forall a, yields (k a) e2) ->
  yields (st_bind m k) (match e1 with Some x => Some x | None => e2 end).
Proof.
  intros Hm Hk tr. specialize (Hm tr). unfold st_bind. destruct (m tr) as [tr' [a|x]]; cbn in *; subst e1; [|done].
  apply Hk.
Qed.
Lemma yields_skip {A B} (m : U A) (k : A -> U B) e : yields m None -> (forall a, yields (k a) e) -> yields (st_bind m k) e.
Proof. intros Hm Hk. exact (yields_bind m k None e Hm Hk). Qed.
Lemma yields_fatal {A} mk (r : result string A) : yields (fatal mk r) (errOf mk r).
Proof. intros tr. by destruct r. Qed.
Lemma yields_fatalShown {A} name mk (r : result string A) : yields (fatalShown name mk r) (errOf mk r).
Proof. intros tr. by destruct r. Qed.
Lemma yields_tolerated {A} w (r : result string A) k : (forall a, yields (k a) None) -> yields (tolerated w r k) None.
Proof. intros Hk. destruct r; [apply Hk|apply yields_emit]. Qed.
Lemma yields_when b m : yields m None -> yields (when b m) None.
Proof. destruct b; [done|intros _; apply yields_ret]. Qed.
Lemma yields_deferring {A} (m : U A) ev e : yields m e -> yields (deferring m ev) e.
Proof. intros Hm tr. specialize (Hm tr). unfold deferring. by destruct (m tr). Qed.
Create HintDb unit_steps discriminated.
#[local] Hint Resolve yields_ret yields_emit yields_show yields_acquire yields_release yields_tolerated yields_when yields_fatal yields_fatalShown : unit_steps.

Lemma yields_providers o names : yields (initProviders o names) (firstOf ((fun n => errOf (InitProvider n) (o_provider o n)) <$> names)).
Proof.
  induction names as [|n names IH]; [apply yields_ret|]. cbn. eapply (yields_bind _ _ (errOf _ _)); auto with unit_steps.
Qed.
Lemma firstOf_app l1 l2 : firstOf (l1 ++ l2) = match firstOf l1 with Some x => Some x | None => firstOf l2 end.
Proof. induction l1 as [|[x|] l1 IH]; [done|done|exact IH]. Qed.

Ltac unit_skip := eapply yields_skip; [auto 6 with unit_steps|intros ?].

Lemma yields_lifecycle o cfg : yields (startLifecycle o cfg) None.
Proof.
  unfold startLifecycle. destruct (negb _); [apply yields_ret|]. destruct (StartFromConfig _ _) as [[]|]; [| apply yields_ret|].
  - unit_skip. destruct (o_workerStart o); repeat unit_skip; apply yields_ret.
  - unit_skip. apply yields_ret.
Qed.

Lemma yields_open o cfg : yields (openUnit o cfg)
  (firstOf [errOf InitTelemetry (telemetryInit o (OTLPEndpoint (Telemetry cfg))); errOf InitLock (o_lock o);
            errOf InitStore (o_store o)]).
Proof.
  unfold openUnit. do 2 unit_skip. eapply (yields_bind _ _ (errOf InitTelemetry _)); [auto with unit_steps|intros _].
  unit_skip. eapply (yields_bind _ _ (errOf InitLock _)); [auto with unit_steps|intros _].
  unit_skip. eapply yields_skip; [destruct (lock_Type _ =? _)%string; [unit_skip|]; auto with unit_steps|intros _].
  eapply (yields_bind _ _ (errOf InitStore _)); [auto with unit_steps|intros _].
  do 3 unit_skip. destruct (o_policy o); [|unit_skip]; auto with unit_steps.
Qed.

Lemma yields_build o cfg : yields (buildEngines o cfg)
  (firstOf (((fun n => errOf (InitProvider n) (o_provider o n)) <$> providerNames) ++
            [errOf InitBus (o_bus o); errOf InitTransmitter (o_transmitter o);
             errOf LoadingSecrets (o_secrets o (staticSecretsPath o)); errOf InitExchange (o_exchange o);
             errOf InitAgentProvider (o_agent o)])).
Proof.
  unfold buildEngines. rewrite firstOf_app.
  eapply yields_skip; [apply yields_when; unit_skip; auto with unit_steps|intros _].
  eapply (yields_bind _ _ (firstOf _)); [apply yields_providers|intros _]. unit_skip.
  eapply (yields_bind _ _ (errOf InitBus _)); [auto with unit_steps|intros _]. do 4 unit_skip.
  eapply (yields_bind _ _ (errOf InitTransmitter _)); [auto with unit_steps|intros _].
  eapply (yields_bind _ _ (errOf LoadingSecrets _)); [auto with unit_steps|intros _].
  eapply (yields_bind _ _ (errOf InitExchange _)); [auto with unit_steps|intros _]. unit_skip.
  eapply yields_skip; [apply yields_lifecycle|intros ?].
  eapply (yields_bind _ _ (errOf InitAgentProvider _)); auto with unit_steps.
Qed.

Lemma yields_serve o cfg : yields (serve o cfg) None.
Proof.
  unfold serve. do 7 unit_skip. eapply yields_skip; [apply yields_when; unit_skip; auto with unit_steps|intros _].
  do 2 unit_skip. apply yields_ret.
Qed.
Lemma yields_shutdown o cfg k l : yields (shutdown o cfg k l) None.
Proof.
  unfold shutdown. do 2 unit_skip. eapply yields_skip; [apply yields_when; unit_skip; auto with unit_steps|intros _].
  do 5 unit_skip. apply yields_release.
Qed.

(** A unit starts exactly when the steps it cannot do without succeed: [run] returns the first error
    of the configuration, telemetry, the lock, the store, the eleven identity providers, the bus,
    the transmitter, the static secrets, the engine and the agent identities, in this order, and
    otherwise ends without one; a policy bundle that does not load, a failed replay, the lifecycle
    worker, the soul keeper and federation do not stop it. *)
Theorem run_fails_at_first (o : Outcomes) (tr : list UEvent) :
  snd (run o tr) = match firstFailure o with Some e => Err e | None => Ok tt end.
Proof.
  assert (yields (run o) (firstFailure o)) as Hy.
  { unfold run, firstFailure. destruct (o_config o) as [cfg|e]; [|by intros tr']. unfold st_lift. intros tr'. revert tr'.
    change (yields (do _ <- openUnit o cfg ;; do _ <- acquire RJwksCache ;;
      deferring (do lifecycle <- buildEngines o cfg ;; do keeper <- serve o cfg ;; shutdown o cfg keeper lifecycle)
        (Release RJwksCache)) (firstOf ([errOf InitTelemetry (telemetryInit o (OTLPEndpoint (Telemetry cfg)));
        errOf InitLock (o_lock o); errOf InitStore (o_store o)] ++
        ((fun n => errOf (InitProvider n) (o_provider o n)) <$> providerNames) ++
        [errOf InitBus (o_bus o); errOf InitTransmitter (o_transmitter o);
         errOf LoadingSecrets (o_secrets o (staticSecretsPath o)); errOf InitExchange (o_exchange o);
         errOf InitAgentProvider (o_agent o)]))).
    rewrite (firstOf_app [_; _; _]). eapply yields_bind; [apply yields_open|intros _]. unit_skip.
    apply yields_deferring. set (f := firstOf _).
    replace f with (match f with Some x => Some x | None => None end) by (by destruct f).
    eapply yields_bind; [apply yields_build|intros ?]. eapply yields_skip; [apply yields_serve|intros ?]. apply yields_shutdown. }
  specialize (Hy tr). destruct (run o tr) as [tr' [[]|e]]; cbn in *; by rewrite Hy.
Qed.

(** * What a run acquires and releases *)

Definition isCore (e : UEvent) : bool := match e with Print _ | Warn _ => false | _ => true end.
Definition core (tr : list UEvent) : list UEvent := List.filter isCore tr.
Definition opt (b : bool) (e : UEvent) : list UEvent := if b then [e] else [].

(** What becomes of the lifecycle worker *)
Inductive Worker : Type := WorkerNone | WorkerKept | WorkerDropped.
Definition workerOf (o : Outcomes) (cfg : Config) : Worker :=
  if negb (lc_Enabled (Lifecycle cfg)) then WorkerNone else
  match StartFromConfig o (HostPort (Temporal (Lifecycle cfg))) with
  | Ok true => if is_ok (o_workerStart o) then WorkerKept else WorkerDropped
  | _ => WorkerNone
  end.
Definition workerStarts (w : Worker) : list UEvent :=
  match w with
  | WorkerNone => []
  | WorkerKept => [Acquire RLifecycleClient; Acquire RLifecycleWorker]
  | WorkerDropped => [Acquire RLifecycleClient; Release RLifecycleClient]
  end.
Definition isKept (w : Worker) : bool := match w with WorkerKept => true | _ => false end.

(** The trace of a run that reaches its end, by the choices it depends on *)
Definition fullTrace (domains : nat) (subscribed : bool) (w : Worker) (mtls keeper gateway syncer operator : bool) : list UEvent :=
  [Acquire RTelemetry; Acquire RLock; Acquire RStore; Acquire RAuditor; Acquire RJwksCache; Acquire RBus] ++
  opt subscribed (Acquire RSignalSubscription) ++ workerStarts w ++ [WireHooks; Acquire RHttpServer] ++
  opt mtls (Acquire RMtlsServer) ++ [SetGauges domains] ++ opt keeper (Acquire RKeeper) ++
  opt gateway (Acquire RGatewaySubscription) ++ opt syncer (Acquire RSyncer) ++ opt operator (Acquire ROperator) ++
  [Stopped] ++ opt keeper (Release RKeeper) ++
  (if isKept w then [Release RLifecycleWorker; Release RLifecycleClient] else []) ++ opt mtls (Release RMtlsServer) ++
  [Release RHttpServer; Release RBus; Release RStore; Release RAuditor; Release RTelemetry; Release RJwksCache].

(** A computation that succeeds with [a] and adds these events, up to output *)
Definition does {A} (m : U A) (a : A) (C : list UEvent) : Prop :=
  forall tr, exists l, m tr = (tr ++ l, Ok a) /\ core l = C.
Lemma does_ret {A} (a : A) : does (st_ret a) a [].
Proof. intros tr. exists []. by rewrite app_nil_r. Qed.
Lemma does_emit e : does (emit e) tt (core [e]).
Proof. intros tr. by exists [e]. Qed.
Lemma does_acquire r : does (acquire r) tt [Acquire r].
Proof. apply (does_emit (Acquire r)). Qed.
Lemma does_release r : does (release r) tt [Release r].
Proof. apply (does_emit (Release r)). Qed.
Lemma does_bind {A B} (m : U A) (k : A -> U B) a b C1 C2 : does m a C1 -> does (k a) b C2 -> does (st_bind m k) b (C1 ++ C2).
Proof.
  intros Hm Hk tr. destruct (Hm tr) as (l1 & E1 & <-). destruct (Hk (tr ++ l1)) as (l2 & E2 & <-).
  exists (l1 ++ l2). unfold st_bind. rewrite E1, E2, app_assoc. unfold core. by rewrite List.filter_app.
Qed.
Lemma does_skip {B} (m : U unit) (k : unit -> U B) b C : does m tt [] -> does (k tt) b C -> does (st_bind m k) b C.
Proof. intros Hm Hk. exact (does_bind m k tt b [] C Hm Hk). Qed.
Lemma does_fatal {A B} mk (r : result string A) (k : A -> U B) b C : errOf mk r = None ->
  (forall a, does (k a) b C) -> does (st_bind (fatal mk r) k) b C.
Proof. intros Hr Hk. destruct r as [a|e]; [|done]. exact (does_bind _ k a b [] C (does_ret a) (Hk a)). Qed.
Lemma does_fatalShown {A B} name mk (r : result string A) (k : A -> U B) b C : errOf mk r = None ->
  (forall a, does (k a) b C) -> does (st_bind (fatalShown name mk r) k) b C.
Proof. intros Hr Hk. destruct r as [a|e]; [|done]. exact (does_bind _ k a b [] C (does_ret a) (Hk a)). Qed.
Lemma does_tolerated {A} w (r : result string A) k e : (forall a, does (k a) tt (core [e])) ->
  does (tolerated w r k) tt (if is_ok r then core [e] else []).
Proof. intros Hk. destruct r as [a|x]; [apply Hk|apply (does_emit (Warn (w x)))]. Qed.
Lemma does_when b m C : does m tt C -> does (when b m) tt (if b then C else []).
Proof. destruct b; [done|intros _; apply does_ret]. Qed.

Lemma firstOf_none l : firstOf l = None <-> Forall (eq None) l.
Proof.
  induction l as [|[x|] l IH]; cbn; [split; [constructor|done]|split; [done|by inversion 1]|].
  rewrite IH, Forall_cons. split; [done|by intros []].
Qed.
Lemma does_providers o names : Forall (eq None) ((fun n => errOf (InitProvider n) (o_provider o n)) <$> names) ->
  does (initProviders o names) tt [].
Proof.
  induction names as [|n names IH]; intros Hf; [apply does_ret|]. cbn in Hf. apply Forall_cons in Hf as [Hn Hf].
  cbn. apply does_fatal; [done|]. intros _. by apply IH.
Qed.

Lemma does_lifecycle o cfg : does (startLifecycle o cfg) (isKept (workerOf o cfg)) (workerStarts (workerOf o cfg)).
Proof.
  unfold startLifecycle, workerOf. destruct (negb _); [apply does_ret|].
  destruct (StartFromConfig _ _) as [[]|e]; [|apply does_ret|].
  - destruct (o_workerStart o) as [u|e]; cbn [is_ok isKept workerStarts].
    + apply (does_bind _ _ tt _ [Acquire RLifecycleClient] _ (does_acquire _)).
      apply (does_bind _ _ tt _ [Acquire RLifecycleWorker] [] (does_acquire _)). apply does_ret.
    + apply (does_bind _ _ tt _ [Acquire RLifecycleClient] _ (does_acquire _)).
      apply does_skip; [apply (does_emit (Warn _))|].
      apply (does_bind _ _ tt _ [Release RLifecycleClient] [] (does_release _)). apply does_ret.
  - apply does_skip; [apply (does_emit (Warn _))|]. apply does_ret.
Qed.

Ltac show_step := apply does_skip; [apply (does_emit (Print _))|].

Lemma does_open o cfg : errOf InitTelemetry (telemetryInit o (OTLPEndpoint (Telemetry cfg))) = None ->
  errOf InitLock (o_lock o) = None -> errOf InitStore (o_store o) = None ->
  does (openUnit o cfg) tt [Acquire RTelemetry; Acquire RLock; Acquire RStore; Acquire RAuditor].
Proof.
  intros H1 H2 H3. unfold openUnit. do 2 show_step. apply does_fatal; [done|intros _].
  apply (does_bind _ _ tt _ [Acquire RTelemetry] [Acquire RLock; Acquire RStore; Acquire RAuditor] (does_acquire _)).
  apply does_fatalShown; [done|intros _].
  apply (does_bind _ _ tt _ [Acquire RLock] [Acquire RStore; Acquire RAuditor] (does_acquire _)). apply does_skip.
  { destruct (_ =? "dev")%string; [show_step; apply (does_emit (Warn _))|apply (does_emit (Print _))]. }
  apply does_fatalShown; [done|intros _].
  apply (does_bind _ _ tt _ [Acquire RStore] [Acquire RAuditor] (does_acquire _)). show_step.
  apply (does_bind _ _ tt _ [Acquire RAuditor] [] (does_acquire _)).
  destruct (o_policy o); [apply (does_emit (Print _))|show_step; apply (does_emit (Warn _))].
Qed.

Lemma if_opt (b : bool) e : (if b then [e] else []) = opt b e.
Proof. by destruct b. Qed.
Lemma does_tolerated_acquire {A} w (r : result string A) res :
  does (tolerated w r (fun _ => acquire res)) tt (opt (is_ok r) (Acquire res)).
Proof. rewrite <- if_opt. apply (does_tolerated w r _ (Acquire res)). intros _. apply does_acquire. Qed.
Lemma does_when_acquire b res : does (when b (acquire res)) tt (opt b (Acquire res)).
Proof. rewrite <- if_opt. apply does_when, does_acquire. Qed.
Lemma does_when_release b res : does (when b (release res)) tt (opt b (Release res)).
Proof. rewrite <- if_opt. apply does_when, does_release. Qed.
Lemma does_quiet_tolerated {A} w (r : result string A) k : (forall a, does (k a) tt []) -> does (tolerated w r k) tt [].
Proof. intros Hk. destruct r as [a|x]; [apply Hk|apply (does_emit (Warn (w x)))]. Qed.
Lemma does_quiet_when b m : does m tt [] -> does (when b m) tt [].
Proof. intros Hm. destruct b; [done|apply does_ret]. Qed.

Lemma does_build o cfg :
  firstOf (((fun n => errOf (InitProvider n) (o_provider o n)) <$> providerNames) ++
           [errOf InitBus (o_bus o); errOf InitTransmitter (o_transmitter o);
            errOf LoadingSecrets (o_secrets o (staticSecretsPath o)); errOf InitExchange (o_exchange o);
            errOf InitAgentProvider (o_agent o)]) = None ->
  does (buildEngines o cfg) (isKept (workerOf o cfg))
    ([Acquire RBus] ++ opt (is_ok (o_subscribe o)) (Acquire RSignalSubscription) ++ workerStarts (workerOf o cfg)).
Proof.
  intros Hf. apply firstOf_none, Forall_app in Hf as [Hp Hf]. do 5 (apply Forall_cons in Hf as [? Hf]).
  unfold buildEngines. apply does_skip.
  { apply does_quiet_when, does_skip; [apply does_quiet_tolerated; intros _; apply does_ret|apply (does_emit (Print _))]. }
  apply does_skip; [by apply does_providers|]. show_step. apply does_fatalShown; [done|intros _].
  apply (does_bind _ _ tt _ [Acquire RBus] _ (does_acquire _)). show_step.
  apply does_skip; [apply does_quiet_tolerated; intros ?; apply (does_emit (Print _))|].
  eapply does_bind; [apply does_tolerated_acquire|]. apply does_fatal; [done|intros _]. apply does_fatal; [done|intros _].
  apply does_fatalShown; [done|intros _]. show_step. rewrite <- (app_nil_r (workerStarts _)).
  eapply does_bind; [apply does_lifecycle|]. apply does_fatal; [done|intros _]. apply does_ret.
Qed.

Definition hasPeers (cfg : Config) : bool := match Peers (Federation cfg) with [] => false | _ => true end.
Definition mtlsServed (o : Outcomes) (cfg : Config) : bool := tls_Enabled (TLS cfg) && o_mtlsConfig o.
Definition operatorEnabled (o : Outcomes) : bool := match embeddedOperator o with Some _ => true | None => false end.

Lemma does_serve o cfg : does (serve o cfg) (is_ok (o_keeper o))
  ([WireHooks; Acquire RHttpServer] ++ opt (mtlsServed o cfg) (Acquire RMtlsServer) ++ [SetGauges (length (TrustDomains cfg))] ++
   opt (is_ok (o_keeper o)) (Acquire RKeeper) ++ opt (hasPeers cfg && is_ok (o_gateway o)) (Acquire RGatewaySubscription) ++
   opt (hasPeers cfg && is_ok (o_syncer o)) (Acquire RSyncer) ++ opt (operatorEnabled o) (Acquire ROperator)).
Proof.
  unfold serve. apply does_skip; [apply does_quiet_when, (does_emit (Warn _))|].
  apply (does_bind _ _ tt _ [WireHooks] _ (does_emit WireHooks)).
  apply (does_bind _ _ tt _ [Acquire RHttpServer] _ (does_acquire _)).
  eapply does_bind; [apply does_when_acquire|]. show_step.
  apply (does_bind _ _ tt _ [SetGauges _] _ (does_emit (SetGauges _))).
  eapply does_bind; [apply does_tolerated_acquire|]. rewrite (app_assoc (opt _ _) (opt _ _)).
  eapply (does_bind _ _ tt).
  { unfold hasPeers, when. destruct (Peers (Federation cfg)) as [|x l]; [apply does_ret|]. cbn [andb].
    eapply does_bind; apply does_tolerated_acquire. }
  show_step. rewrite <- (app_nil_r (opt (operatorEnabled o) _)).
  eapply does_bind; [apply does_when_acquire|apply does_ret].
Qed.

Lemma does_shutdown o cfg keeper lifecycle : does (shutdown o cfg keeper lifecycle) tt
  ([Stopped] ++ opt keeper (Release RKeeper) ++
   (if lifecycle then [Release RLifecycleWorker; Release RLifecycleClient] else []) ++
   opt (mtlsServed o cfg) (Release RMtlsServer) ++
   [Release RHttpServer; Release RBus; Release RStore; Release RAuditor; Release RTelemetry]).
Proof.
  unfold shutdown. apply (does_bind _ _ tt _ [Stopped] _ (does_emit Stopped)).
  eapply does_bind; [apply does_when_release|]. eapply does_bind.
  { apply (does_when lifecycle _ ([Release RLifecycleWorker] ++ [Release RLifecycleClient])).
    eapply does_bind; apply does_release. }
  eapply does_bind; [apply does_when_release|].
  apply (does_bind _ _ tt _ [Release RHttpServer] _ (does_release _)).
  apply (does_bind _ _ tt _ [Release RBus] _ (does_release _)).
  apply (does_bind _ _ tt _ [Release RStore] _ (does_release _)).
  apply (does_bind _ _ tt _ [Release RAuditor] _ (does_release _)). apply does_release.
Qed.

Lemma run_trace o cfg : o_config o = Ok cfg -> firstFailure o = None ->
  does (run o) tt (fullTrace (length (TrustDomains cfg)) (is_ok (o_subscribe o)) (workerOf o cfg) (mtlsServed o cfg)
    (is_ok (o_keeper o)) (hasPeers cfg && is_ok (o_gateway o)) (hasPeers cfg && is_ok (o_syncer o)) (operatorEnabled o)).
Proof.
  intros Hc Hf. unfold firstFailure in Hf. rewrite Hc in Hf. rewrite (firstOf_app [_; _; _]) in Hf.
  destruct (firstOf [_; _; _]) eqn:H3; [done|]. apply firstOf_none in H3. do 3 (apply Forall_cons in H3 as [? H3]).
  intros tr. unfold run. rewrite Hc.
  destruct (does_open o cfg ltac:(done) ltac:(done) ltac:(done) tr) as (l1 & E1 & C1).
  destruct (does_build o cfg Hf ((tr ++ l1) ++ [Acquire RJwksCache])) as (l2 & E2 & C2).
  destruct (does_serve o cfg (((tr ++ l1) ++ [Acquire RJwksCache]) ++ l2)) as (l3 & E3 & C3).
  destruct (does_shutdown o cfg (is_ok (o_keeper o)) (isKept (workerOf o cfg))
    ((((tr ++ l1) ++ [Acquire RJwksCache]) ++ l2) ++ l3)) as (l4 & E4 & C4).
  exists (l1 ++ [Acquire RJwksCache] ++ l2 ++ l3 ++ l4 ++ [Release RJwksCache]). split.
  - unfold st_lift, st_bind, deferring, acquire, emit. rewrite E1, E2, E3, E4. by rewrite <- !app_assoc.
  - unfold core in *. rewrite !List.filter_app, C1, C2, C3, C4. unfold fullTrace. cbn [List.filter isCore].
    rewrite <- !app_assoc. reflexivity.
Qed.

(** ** Ownership *)

(** What is held after a trace; [None] when something is acquired twice or released unheld. *)
Fixpoint held (h : list Resource) (tr : list UEvent) : option (list Resource) :=
  match tr with
  | [] => Some h
  | Acquire r :: tr' => if bool_decide (r ∈ h) then None else held (r :: h) tr'
  | Release r :: tr' => if bool_decide (r ∈ h) then held (List.filter (fun x => negb (bool_decide (x = r))) h) tr' else None
  | _ :: tr' => held h tr'
  end.
Definition releasedOf (e : UEvent) : option Resource := match e with Release r => Some r | _ => None end.
(** The lock is never closed; the subscriptions, the synchroniser and the operator end with their context or with
    the process. *)
Definition unstopped : list Resource := [RLock; RSignalSubscription; RGatewaySubscription; RSyncer; ROperator].
Definition shutdownOrder : list Resource :=
  [RKeeper; RLifecycleWorker; RLifecycleClient; RMtlsServer; RHttpServer; RBus; RStore; RAuditor; RTelemetry; RJwksCache].

Lemma held_core tr : forall h, held h (core tr) = held h tr.
Proof.
  induction tr as [|e tr IH]; intros h; [done|]. destruct e; cbn; try apply IH; by case_bool_decide.
Qed.
Fixpoint afterStop (tr : list UEvent) : list UEvent :=
  match tr with [] => [] | Stopped :: tr' => tr' | _ :: tr' => afterStop tr' end.
Lemma afterStop_core tr : core (afterStop tr) = afterStop (core tr).
Proof. induction tr as [|e tr IH]; [done|]. destruct e; cbn; done. Qed.
Lemma released_core tr : omap releasedOf (core tr) = omap releasedOf tr.
Proof. induction tr as [|e tr IH]; [done|]. destruct e as [r|r| | | | |]; first [exact IH|exact (f_equal (cons r) IH)]. Qed.

Lemma fullTrace_held d s w m k g y p : exists l, held [] (fullTrace d s w m k g y p) = Some l /\
  bool_decide (RLock ∈ l) = true /\ forallb (fun r => bool_decide (r ∈ unstopped)) l = true.
Proof. destruct s, w, m, k, g, y, p; (eexists; split; [reflexivity|split; reflexivity]). Qed.
Fixpoint subseqb (l1 l2 : list Resource) : bool :=
  match l1, l2 with
  | [], _ => true
  | _ :: _, [] => false
  | x :: l1', y :: l2' => if bool_decide (x = y) then subseqb l1' l2' else subseqb l1 l2'
  end.
Lemma subseqb_sublist l2 : forall l1, subseqb l1 l2 = true -> sublist l1 l2.
Proof.
  induction l2 as [|y l2 IH]; intros [|x l1]; cbn; intros H; try discriminate; try apply sublist_nil_l.
  case_bool_decide as Hxy; [subst; constructor; by apply IH|constructor; by apply IH].
Qed.
Lemma fullTrace_order d s w m k g y p :
  subseqb (omap releasedOf (afterStop (fullTrace d s w m k g y p))) shutdownOrder = true.
Proof. destruct s, w, m, k, g, y, p; reflexivity. Qed.

(** C28: A unit that started stops in order. Nothing is released that is not held or acquired twice; what
    it still holds at its end are the lock, which nothing closes, and at most the subscriptions, the synchroniser
    and the operator; and after the signal everything is released in one fixed order: the soul keeper first, then
    the lifecycle worker and its client, the two servers, the bus, the store, the audit log, telemetry and
    the key cache. *)
Theorem unit_stops_in_order (o : Outcomes) : firstFailure o = None ->
  let tr := fst (run o []) in
  (exists l, held [] tr = Some l /\ RLock ∈ l /\ forall r, r ∈ l -> r ∈ unstopped) /\
  sublist (omap releasedOf (afterStop tr)) shutdownOrder /\
  forall r, r ∈ [RHttpServer; RBus; RStore; RAuditor; RTelemetry; RJwksCache] -> Acquire r ∈ tr /\ Release r ∈ tr.
Proof.
  intros Hf. destruct (o_config o) as [cfg|] eqn:Hc; [|unfold firstFailure in Hf; by rewrite Hc in Hf].
  destruct (run_trace o cfg Hc Hf []) as (l & Hr & Hl). intros tr.
  assert (core tr = core l) as Htr by (unfold tr; by rewrite Hr). clearbody tr. rewrite Hl in Htr. clear Hl Hr. split; [|split].
  - match type of Htr with _ = fullTrace ?d ?s ?w ?m ?k ?g ?y ?p => destruct (fullTrace_held d s w m k g y p) as (h & Hh & Hlk & Hu) end.
    exists h. rewrite <- held_core, Htr. split; [done|]. split; [by apply bool_decide_eq_true in Hlk|]. intros r Hr.
    rewrite forallb_forall in Hu. apply list_elem_of_In, Hu in Hr. by apply bool_decide_eq_true in Hr.
  - apply subseqb_sublist. rewrite <- released_core, afterStop_core, Htr. apply fullTrace_order.
  - intros r Hr. assert (forall e, isCore e = true -> e ∈ core tr -> e ∈ tr) as Hin.
    { intros e _ He. apply list_elem_of_In in He. apply list_elem_of_In. by apply List.filter_In in He as [? _]. }
    split; apply Hin; try done; rewrite Htr; unfold fullTrace; rewrite ?elem_of_app, ?elem_of_cons;
      repeat (apply elem_of_cons in Hr as [->|Hr]); try (by apply not_elem_of_nil in Hr); tauto.
Qed.

(** ** Starts that fail *)

Definition emits {A} (P : UEvent -> Prop) (m : U A) : Prop := forall tr, exists l, fst (m tr) = tr ++ l /\ Forall P l.
Lemma emits_ret {A} P (a : A) : emits P (st_ret a).
Proof. intros tr. exists []. by rewrite app_nil_r. Qed.
Lemma emits_emit (P : UEvent -> Prop) e : P e -> emits P (emit e).
Proof. intros He tr. exists [e]. split; [done|]. by constructor. Qed.
Lemma emits_bind {A B} P (m : U A) (k : A -> U B) : emits P m -> (forall a, emits P (k a)) -> emits P (st_bind m k).
Proof.
  intros Hm Hk tr. unfold st_bind. destruct (Hm tr) as (l1 & E1 & F1). destruct (m tr) as [tr1 [a|x]]; cbn in E1; subst tr1.
  - destruct (Hk a (tr ++ l1)) as (l2 & E2 & F2). exists (l1 ++ l2). rewrite E2, app_assoc. split; [done|by apply Forall_app].
  - by exists l1.
Qed.
Lemma emits_fatal {A} P mk (r : result string A) : emits P (fatal mk r).
Proof. intros tr. exists []. rewrite app_nil_r. by destruct r. Qed.
Lemma emits_fatalShown {A} (P : UEvent -> Prop) name mk (r : result string A) : (forall l, P (Print l)) -> emits P (fatalShown name mk r).
Proof.
  intros HP. destruct r as [a|e]; [apply emits_ret|]. apply emits_bind; [by apply emits_emit|].
  intros _ tr. exists []. by rewrite app_nil_r.
Qed.

(** Before the servers: nothing listens, and only the client of a worker that failed is released. *)
Definition before (e : UEvent) : Prop := match e with Acquire RHttpServer | Acquire RMtlsServer => False | Release r => r = RLifecycleClient | _ => True end.
Ltac emits_step :=
  lazymatch goal with
  | |- emits _ (st_bind _ _) => apply emits_bind; [|intros ?]
  | |- emits _ (st_ret _) => apply emits_ret
  | |- emits _ (fatal _ _) => apply emits_fatal
  | |- emits _ (fatalShown _ _ _) => by apply emits_fatalShown
  | |- emits _ (emit _) => by apply emits_emit
  | |- emits _ (show _) => by apply emits_emit
  | |- emits _ (acquire _) => by apply emits_emit
  | |- emits _ (release _) => by apply emits_emit
  | |- emits _ (tolerated _ ?r _) => destruct r; cbn [tolerated]
  | |- emits _ (when ?b _) => destruct b; cbn [when]
  | |- emits _ (if ?b then _ else _) => destruct b
  | |- emits _ (match ?x with _ => _ end) => destruct x
  end.

Lemma emits_providers o names : emits before (initProviders o names).
Proof. induction names as [|n names IH]; cbn; [apply emits_ret|]. by emits_step; [emits_step|]. Qed.
Lemma open_before o cfg : emits before (openUnit o cfg).
Proof. unfold openUnit. repeat emits_step. Qed.
Lemma build_before o cfg : emits before (buildEngines o cfg).
Proof. unfold buildEngines, startLifecycle. repeat first [apply emits_providers|emits_step]. Qed.

(** A start that fails never serves a request, and closes nothing but the key cache and the client
    of a worker that did not start: the store, the buffered audit log, the bus and a running
    lifecycle worker are left to the end of the process. *)
Theorem failed_start (o : Outcomes) (err : RunErr) : firstFailure o = Some err ->
  let tr := fst (run o []) in
  (Acquire RHttpServer ∉ tr) /\ (Acquire RMtlsServer ∉ tr) /\
  forall r, Release r ∈ tr -> r = RLifecycleClient \/ r = RJwksCache.
Proof.
  intros Hf tr. assert (Forall (fun e => before e \/ e = Release RJwksCache) tr) as HF.
  { pose proof (run_fails_at_first o []) as Hs. rewrite Hf in Hs. subst tr. unfold run in *.
    destruct (o_config o) as [cfg|e]; [|constructor].
    unfold st_lift, st_bind, deferring, acquire, emit in Hs |- *.
    destruct (open_before o cfg []) as (l1 & E1 & F1). destruct (openUnit o cfg []) as [tr1 [u|x]]; cbn in E1; subst tr1;
      cbn [fst]; [|by eapply Forall_impl; [exact F1|auto]].
    destruct (build_before o cfg (l1 ++ [Acquire RJwksCache])) as (l2 & E2 & F2).
    destruct (buildEngines o cfg _) as [tr2 [b|x]]; cbn in E2; subst tr2; cbn [fst].
    - pose proof (yields_serve o cfg ((l1 ++ [Acquire RJwksCache]) ++ l2)) as Hy.
      destruct (serve o cfg _) as [tr3 [k|x]]; [|done].
      pose proof (yields_shutdown o cfg k b tr3) as Hz. destruct (shutdown o cfg k b tr3) as [tr4 [u'|x]]; done.
    - rewrite !Forall_app. split_and!; [..|by constructor; [right|constructor]].
      + eapply Forall_impl; [exact F1|auto].
      + constructor; [by left|constructor].
      + eapply Forall_impl; [exact F2|auto]. }
  rewrite Forall_forall in HF. split_and!.
  - intros Hin. by destruct (HF _ Hin).
  - intros Hin. by destruct (HF _ Hin).
  - intros r Hin. destruct (HF _ Hin) as [H|H]; [by left|right; congruence].
Qed.

(** ** Orders that lose something *)

(** The lifecycle worker runs before the callbacks of the engine are wired: what it exchanges until
    then is not broadcast and its failed revocation checks are not counted. *)
Lemma worker_before_hooks o cfg : o_config o = Ok cfg -> firstFailure o = None -> workerOf o cfg = WorkerKept ->
  exists pre mid post, core (fst (run o [])) = pre ++ Acquire RLifecycleWorker :: mid ++ WireHooks :: post.
Proof.
  intros Hc Hf Hw. destruct (run_trace o cfg Hc Hf []) as (l & -> & Hl). cbn [fst app]. rewrite Hl, Hw. unfold fullTrace.
  eexists ([_; _; _; _; _; _] ++ opt _ _ ++ [_]), [], _. rewrite <- !app_assoc. reflexivity.
Qed.

(** The last snapshot is taken while the servers still run: a revocation they take in afterwards is
    not in it. *)
Lemma snapshot_before_servers o cfg : o_config o = Ok cfg -> firstFailure o = None -> is_ok (o_keeper o) = true ->
  exists pre post, core (fst (run o [])) = pre ++ Release RKeeper :: post /\ (Release RHttpServer ∉ pre) /\ Release RHttpServer ∈ post.
Proof.
  intros Hc Hf Hk. destruct (run_trace o cfg Hc Hf []) as (l & -> & Hl). cbn [fst app]. rewrite Hl, Hk. clear Hl. unfold fullTrace.
  generalize (is_ok (o_subscribe o)) (workerOf o cfg) (mtlsServed o cfg) (hasPeers cfg && is_ok (o_gateway o))
    (hasPeers cfg && is_ok (o_syncer o)) (operatorEnabled o) (length (TrustDomains cfg)).
  intros s w m g y p d.
  eexists ([_; _; _; _; _; _] ++ opt s _ ++ workerStarts w ++ [_; _] ++ opt m _ ++ [_] ++ [_] ++ opt g _ ++ opt y _ ++ opt p _ ++ [_]), _.
  split; [rewrite <- !app_assoc; reflexivity|]. split.
  - intros Hin. apply list_elem_of_In in Hin.
    destruct s, w, m, g, y, p; cbn in Hin; decompose [or] Hin; first [discriminate|done].
  - destruct w, m; cbn; apply list_elem_of_In; cbn; tauto.
Qed.

(** A unit whose certificates do not load gets ready all the same: the listener of the protected
    endpoints, the exchange among them, is missing and only a log line says so. *)
Lemma ready_without_exchange o cfg : o_config o = Ok cfg -> firstFailure o = None -> tls_Enabled (TLS cfg) = true ->
  o_mtlsConfig o = false -> snd (run o []) = Ok tt /\ Acquire RMtlsServer ∉ core (fst (run o [])).
Proof.
  intros Hc Hf Ht Hm. split; [by rewrite run_fails_at_first, Hf|].
  destruct (run_trace o cfg Hc Hf []) as (l & -> & Hl). cbn [fst app]. rewrite Hl. unfold mtlsServed. rewrite Ht, Hm.
  intros Hin. apply list_elem_of_In in Hin. unfold fullTrace in Hin.
  destruct (is_ok _), (workerOf o cfg), (is_ok _), (hasPeers cfg && _), (hasPeers cfg && _), (operatorEnabled o);
    cbn in Hin; decompose [or] Hin; first [discriminate|done].
Qed.

(** The activities of the compliance scan are not registered with the worker that runs it. *)
Lemma compliance_activities_missing :
  "ComplianceScanWorkflow" ∈ registeredWorkflows /\
  Forall (fun a => str_mem a registeredActivities = false) ["EvaluatePolicy"; "CheckPerformance"; "CheckRevocationHealth"].
Proof. split; [apply list_elem_of_In; cbn; auto|]. repeat constructor. Qed.

(** * Runs *)

Definition demo_outcomes (exchange : result string unit) : Outcomes :=
  {| o_config := Ok Configuration.demo_config; o_Getenv := fun _ => ""; o_unitID := "u1"; o_version := "1";
     o_resource := Ok tt; o_exporter := Ok tt; o_lock := Ok tt; o_store := Ok tt; o_policy := Err "no bundle";
     o_prefetch := Ok tt; o_provider := fun _ => Ok tt; o_bus := Ok tt; o_replay := Ok 3%nat; o_subscribe := Ok tt;
     o_transmitter := Ok tt; o_secrets := fun _ => Ok false; o_exchange := exchange; o_dial := Ok tt; o_workerStart := Ok tt;
     o_agent := Ok tt; o_mtlsConfig := true; o_keeper := Ok tt; o_gateway := Ok tt; o_syncer := Ok tt |}.

Example demo_routes :
  route ["starfly"; "lock"; "migrate"; "--to-type"] = CmdLockMigrate ["--to-type"] /\ route ["starfly"; "lock"] = CmdRun /\
  route ["starfly"; "-dev"] = CmdRun /\ extractPort "0.0.0.0:8693" = "8693" /\ extractPort "8693" = "8693".
Proof. repeat split. Qed.
Example demo_step : Step false (fun _ => "1.2") "config loaded" 2000000 =
  "  ✓ config loaded            2ms" +:+ String Cli.NL "".
Proof. vm_compute. reflexivity. Qed.

Lemma unit_stops_in_order_witness :
  exists l, held [] (fst (run (demo_outcomes (Ok tt)) [])) = Some l /\ RLock ∈ l /\ forall r, r ∈ l -> r ∈ unstopped.
Proof. apply (unit_stops_in_order (demo_outcomes (Ok tt))). reflexivity. Defined.

Lemma failed_start_witness : Acquire RHttpServer ∉ fst (run (demo_outcomes (Err "no key")) []).
Proof. apply (failed_start (demo_outcomes (Err "no key")) (InitExchange "no key")). reflexivity. Defined.

End Unit.
