(* ===== verification/SoulDocs.v ===== *)
(** The documents made from a soul manifest ([pkg/soul/doc_gen.go]) and the commands that print
    them and compare manifests ([cmd/starfly/doc.go], [soul.go]), over the files the anchor of
    [SoulKeeper] writes. *)
From Stdlib Require Import ZArith Lia.
From stdpp Require Import base gmap strings list pretty.
From S2P Require Import Prelude.
From S2P Require Import GoLib.
From S2P Require Import Soul.
From S2P Require Import SoulKeeper.

#[local] Open Scope string_scope.
#[local] Open Scope list_scope.
#[local] Open Scope Z_scope.
#[local] Open Scope go_scope.

Module SoulDocs.
Import Soul.

Abbreviation bytes := (list Byte.byte).

(** * Documents *)

Definition ln (s : string) : string := s +:+ newline.
Definition para (s : string) : string := s +:+ newline +:+ newline.
Definition rows {A} (row : A -> string) (l : list A) : string := String.concat "" (row <$> l).
(** A section with a table, or the sentence that it is empty *)
Definition table {A} (title none header rule : string) (row : A -> string) (l : list A) : string :=
  para title +:+ match l with [] => para none | _ => ln header +:+ ln rule +:+ rows row l +:+ newline end.

Section Documents.
(** The format of a time that the document uses *)
Variable formatTime : Time -> string.

(** [GenerateTopology] *)
Definition domainRow (td : TrustDomainSpec) : string :=
  ln ("| " +:+ td_Name td +:+ " | " +:+ td_Type td +:+ " | " +:+ td_Issuer td +:+ " | " +:+ show_bool (td_Enabled td) +:+ " |").
Definition keyRow (k : SigningKeyRef) : string :=
  ln ("| " +:+ sk_KID k +:+ " | " +:+ sk_Algorithm k +:+ " | " +:+ sk_Status k +:+ " |").
Definition streamRow (s : SSFStreamSpec) : string :=
  ln ("| " +:+ ss_StreamID s +:+ " | " +:+ ss_Transmitter s +:+ " | " +:+ Join (ss_EventsRequested s) ", " +:+ " |").
Definition GenerateTopology (manifest : option SoulManifest) : string :=
  match manifest with
  | None => para "# Fabric Topology" +:+ ln "No manifest data available."
  | Some m =>
      para "# Fabric Topology" +:+ para "## Metadata" +:+ ln "| Field | Value |" +:+ ln "| ----- | ----- |" +:+
      ln ("| Fabric ID | `" +:+ md_FabricID (meta m) +:+ "` |") +:+
      ln ("| Sequence | " +:+ pretty (md_Sequence (meta m)) +:+ " |") +:+
      para ("| Generated At | " +:+ formatTime (md_GeneratedAt (meta m)) +:+ " |") +:+
      table "## Trust Domains" "No trust domains configured." "| Name | Type | Issuer | Enabled |"
        "| ---- | ---- | ------ | ------- |" domainRow (TrustDomains m) +:+
      table "## Signing Keys" "No signing keys configured." "| KID | Algorithm | Status |"
        "| --- | --------- | ------ |" keyRow (SigningKeys m) +:+
      table "## SSF Streams" "No SSF streams configured." "| Stream ID | Transmitter | Events |"
        "| --------- | ----------- | ------ |" streamRow (SSFStreams m) +:+
      para "## Revocations" +:+ ln "| Field | Value |" +:+ ln "| ----- | ----- |" +:+
      ln ("| Count | " +:+ pretty (rv_Count (Revocations m)) +:+ " |") +:+
      para ("| Hash | `" +:+ (if (rv_Hash (Revocations m) =? "")%string then "(none)" else rv_Hash (Revocations m)) +:+ "` |")
  end.

(** [GenerateRunbook] *)
Definition domainItem (td : TrustDomainSpec) : string :=
  ln ("- **" +:+ td_Name td +:+ "** — type: `" +:+ td_Type td +:+ "` [" +:+
      (if td_Enabled td then "ENABLED" else "DISABLED") +:+ "]").
Definition isActive (k : SigningKeyRef) : bool := (sk_Status k =? "active")%string.
Definition activeItem (k : SigningKeyRef) : string := ln ("- `" +:+ sk_KID k +:+ "` — algorithm: " +:+ sk_Algorithm k).
Definition rotatedItem (k : SigningKeyRef) : string :=
  ln ("- `" +:+ sk_KID k +:+ "` — algorithm: " +:+ sk_Algorithm k +:+ ", status: " +:+ sk_Status k).
Definition items {A} (none : string) (item : A -> string) (l : list A) : string :=
  match l with [] => para none | _ => rows item l +:+ newline end.
Definition keySections (keys : list SigningKeyRef) : string :=
  para "### Active Keys" +:+ items "No active keys." activeItem (List.filter isActive keys) +:+
  para "### Rotated / Revoked Keys" +:+
  items "No rotated or revoked keys." rotatedItem (List.filter (fun k => negb (isActive k)) keys).
Definition GenerateRunbook (manifest : option SoulManifest) : string :=
  match manifest with
  | None => para "# Operational Runbook" +:+ ln "No manifest data available."
  | Some m =>
      para "# Operational Runbook" +:+
      para ("Fabric: `" +:+ md_FabricID (meta m) +:+ "` | Sequence: " +:+ pretty (md_Sequence (meta m))) +:+
      para "## Recovery" +:+ para "To recover this fabric, restore from FSAnchor and reimport revocation index." +:+
      para "Steps:" +:+ ln "1. Locate the FSAnchor archive for this fabric." +:+
      ln ("2. Restore the soul manifest at sequence " +:+ pretty (md_Sequence (meta m)) +:+ ".") +:+
      ln ("3. Reimport the revocation index (" +:+ pretty (rv_Count (Revocations m)) +:+ " entries, hash: `" +:+
          rv_Hash (Revocations m) +:+ "`).") +:+
      ln "4. Validate trust domain connectivity." +:+ para "5. Verify signing key availability in KMS." +:+
      para "## Trust Domains" +:+ items "No trust domains configured." domainItem (TrustDomains m) +:+
      para "## Key Rotation" +:+
      match SigningKeys m with [] => para "No signing keys configured." | keys => keySections keys end
  end.

(** [GenerateChangelog] *)
Definition fence : string := "```".
Definition GenerateChangelog (diff : option SoulDiff) : string :=
  match diff with
  | None => para "# Changelog" +:+ ln "No diff data available."
  | Some d =>
      para "# Changelog" +:+ para ("Sequence " +:+ pretty (FromSequence d) +:+ " -> " +:+ pretty (ToSequence d)) +:+
      ln fence +:+ Format d +:+ ln fence
  end.

(** * Commands: the exit code and what is written to standard output *)

Section Commands.
Variable yaml_Unmarshal : bytes -> result string SoulManifest.
(** [fmt.Sscanf] with [%d] into a [uint64], and [SoulDiff.FormatJSON] *)
Variable Sscanf_d : string -> option Z.
Variable FormatJSON : SoulDiff -> option string.
Variable fs : gmap string bytes.

(** [loadManifestFile] and [loadArchiveManifest] *)
Definition loadManifestFile (path : string) : result string SoulManifest :=
  let? data := SoulKeeper.ReadFile path fs in yaml_Unmarshal data.
Definition loadArchiveManifest (archDir : string) (seq : Z) : result string SoulManifest :=
  loadManifestFile (SoulKeeper.join [archDir; "soul-manifest-" +:+ pretty seq +:+ ".yaml"]).

(** [loadFromAnchor] *)
Definition loadFromAnchor (anchorRoot fabricID seqA seqB : string) : result string (SoulManifest * SoulManifest) :=
  match Sscanf_d seqA, Sscanf_d seqB with
  | None, _ => Err ("invalid sequence " +:+ seqA)
  | Some _, None => Err ("invalid sequence " +:+ seqB)
  | Some fromSeq, Some toSeq =>
      let archDir := SoulKeeper.join [anchorRoot; fabricID; "archive"] in
      let? from := loadArchiveManifest archDir fromSeq in
      let? to := loadArchiveManifest archDir toSeq in
      Ok (from, to)
  end.

(** [runSoulDiff] after its flags *)
Definition runSoulDiff (jsonOutput : bool) (anchorPath fabricID : string) (remaining : list string) : Z * string :=
  let loaded :=
    match remaining with
    | [a; b] =>
        if negb (anchorPath =? "")%string then
          (if (fabricID =? "")%string then None else Some (loadFromAnchor anchorPath fabricID a b))
        else Some (let? from := loadManifestFile a in let? to := loadManifestFile b in Ok (from, to))
    | _ => None
    end in
  match loaded with
  | None | Some (Err _) => (1, "")
  | Some (Ok (from, to)) =>
      let diff := Diff (Some from) (Some to) in
      if jsonOutput then match FormatJSON diff with Some d => (0, ln d) | None => (1, "") end
      else (0, Format diff)
  end.

(** [runDocTopology], [runDocRunbook] and [runDocChangelog] after their flags, and [runDoc] *)
Definition runDocOf (generate : option SoulManifest -> string) (manifestPath : string) : Z * string :=
  if (manifestPath =? "")%string then (1, "") else
  match loadManifestFile manifestPath with Err _ => (1, "") | Ok m => (0, generate (Some m)) end.
Definition runDocTopology : string -> Z * string := runDocOf GenerateTopology.
Definition runDocRunbook : string -> Z * string := runDocOf GenerateRunbook.
Definition runDocChangelog (fromPath toPath : string) : Z * string :=
  if (fromPath =? "")%string || (toPath =? "")%string then (1, "") else
  match loadManifestFile fromPath with
  | Err _ => (1, "")
  | Ok from => match loadManifestFile toPath with
               | Err _ => (1, "")
               | Ok to => (0, GenerateChangelog (Some (Diff (Some from) (Some to))))
               end
  end.
Inductive DocCommand : Type := DocTopology | DocRunbook | DocChangelog.
Definition routeDoc (args : list string) : option (DocCommand * list string) :=
  match args with
  | [] => None
  | c :: rest =>
      if (c =? "topology")%string then Some (DocTopology, rest)
      else if (c =? "runbook")%string then Some (DocRunbook, rest)
      else if (c =? "changelog")%string then Some (DocChangelog, rest)
      else None
  end.
End Commands.
End Documents.

(** * What the runbook lists *)

(** Every signing key is in exactly one of the two lists of the runbook. *)
Lemma runbook_lists_keys (keys : list SigningKeyRef) :
  Permutation (List.filter isActive keys ++ List.filter (fun k => negb (isActive k)) keys) keys.
Proof.
  induction keys as [|k keys IH]; [done|]. cbn. destruct (isActive k); cbn; [by rewrite IH|].
  by rewrite <- Permutation_middle, IH.
Qed.

(** Without changes the changelog is broken: its last fence does not start a line. *)
Lemma empty_changelog_unfenced a b : Changes (Diff (Some a) (Some b)) = [] ->
  exists pre, GenerateChangelog (Some (Diff (Some a) (Some b))) = pre +:+ "No changes.```" +:+ newline.
Proof.
  intros H. unfold GenerateChangelog, Format, IsEmpty. rewrite H. unfold ln, fence.
  match goal with |- exists pre, ?p +:+ ?q +:+ ?f +:+ _ +:+ _ = _ => exists (p +:+ q +:+ f) end.
  by rewrite <- !str_app_assoc.
Qed.

(** * Comparing archived manifests *)

Section Archive.
Variable root : string.
Variable faults : SoulKeeper.Faults.
Variable yaml_Marshal : SoulManifest -> result string bytes.
Variable yaml_Unmarshal : bytes -> result string SoulManifest.
Variable Sscanf_d : string -> option Z.
Variable FormatJSON : SoulDiff -> option string.
Hypothesis yaml_roundtrip : forall m d, yaml_Marshal m = Ok d -> yaml_Unmarshal d = Ok m.
Hypothesis Sscanf_decimal : forall n, 0 <= n < two64 -> Sscanf_d (pretty n) = Some n.

(** The manifests of a fabric written in turn, each with success *)
Inductive archived (id : string) : list SoulManifest -> gmap string bytes -> Prop :=
| archived_nil fs : archived id [] fs
| archived_write ms fs m fs' : archived id ms fs -> md_FabricID (meta m) = id ->
    SoulKeeper.WriteManifest root faults yaml_Marshal m fs = (fs', Ok tt) -> archived id (m :: ms) fs'.

Lemma archive_path_inj id s1 s2 : SoulKeeper.archivePath root id s1 = SoulKeeper.archivePath root id s2 -> s1 = s2.
Proof using.
  unfold SoulKeeper.archivePath, SoulKeeper.join. cbn [String.concat]. intros H%SoulKeeper.prefix_app_inv.
  apply SoulKeeper.prefix_app_inv in H. apply SoulKeeper.prefix_app_inv in H.
  assert (forall a b c : string, a +:+ c = b +:+ c -> a = b) as Hi.
  { intros a b c Hc. revert b Hc. induction a as [|x a IH]; intros [|y b] Hc; [done|..].
    - apply (f_equal String.length) in Hc. rewrite !length_append in Hc. cbn in Hc. lia.
    - apply (f_equal String.length) in Hc. rewrite !length_append in Hc. cbn in Hc. lia.
    - injection Hc as -> Hc. f_equal. by apply IH. }
  apply Hi in H. by apply (inj pretty) in H.
Qed.

Lemma archived_reads id ms fs m : archived id ms fs -> NoDup ((fun m => md_Sequence (meta m)) <$> ms) -> m ∈ ms ->
  exists d, fs !! SoulKeeper.archivePath root id (md_Sequence (meta m)) = Some d /\ yaml_Marshal m = Ok d.
Proof using.
  induction 1 as [|ms fs m0 fs' Ha IH Hid Hw]; intros Hn Hm; [by apply not_elem_of_nil in Hm|].
  cbn in Hn. apply NoDup_cons in Hn as [Hni Hn]. apply SoulKeeper.WriteManifest_ok in Hw as (d & Hd & ->). rewrite Hid in *.
  apply elem_of_cons in Hm as [->|Hm]; [exists d; by rewrite lookup_insert_eq|].
  destruct (IH Hn Hm) as (d' & Hl & Hd'). exists d'. split; [|done].
  rewrite lookup_insert_ne, lookup_insert_ne; [done|apply SoulKeeper.latest_ne_archive|].
  intros He. apply archive_path_inj in He. apply Hni. rewrite He. apply list_elem_of_fmap. by exists m.
Qed.

(** Any two versions in the archive can be compared: after any number of successful writes of
    manifests with different sequence numbers, the command that is given two of the numbers prints
    the difference of exactly these manifests. *)
Theorem archived_versions_compare (id : string) (ms : list SoulManifest) (fs : gmap string bytes) (m1 m2 : SoulManifest) :
  archived id ms fs -> NoDup ((fun m => md_Sequence (meta m)) <$> ms) -> m1 ∈ ms -> m2 ∈ ms ->
  Forall (fun m => 0 <= md_Sequence (meta m) < two64) ms -> root <> "" -> id <> "" ->
  runSoulDiff yaml_Unmarshal Sscanf_d FormatJSON fs false root id
    [pretty (md_Sequence (meta m1)); pretty (md_Sequence (meta m2))] = (0, Format (Diff (Some m1) (Some m2))).
Proof using All.
  intros Ha Hn H1 H2 Hr Hroot Hid. rewrite Forall_forall in Hr. unfold runSoulDiff.
  rewrite (proj2 (String.eqb_neq _ _) Hroot), (proj2 (String.eqb_neq _ _) Hid). cbn [negb].
  unfold loadFromAnchor. rewrite !Sscanf_decimal by (by apply Hr).
  assert (forall m, m ∈ ms -> loadArchiveManifest yaml_Unmarshal fs (SoulKeeper.join [root; id; "archive"]) (md_Sequence (meta m)) = Ok m) as Hl.
  { intros m Hm. destruct (archived_reads id ms fs m Ha Hn Hm) as (d & Hd & Hy).
    unfold loadArchiveManifest, loadManifestFile, SoulKeeper.ReadFile.
    replace (SoulKeeper.join [SoulKeeper.join [root; id; "archive"]; "soul-manifest-" +:+ pretty (md_Sequence (meta m)) +:+ ".yaml"])
      with (SoulKeeper.archivePath root id (md_Sequence (meta m))).
    - rewrite Hd. by apply yaml_roundtrip.
    - unfold SoulKeeper.archivePath, SoulKeeper.archiveDir, SoulKeeper.fabricDir, SoulKeeper.join. cbn [String.concat].
      by rewrite <- !str_app_assoc. }
  by rewrite !Hl.
Qed.
End Archive.

(** * A run *)

(** A reader of decimal numbers *)
Fixpoint decimal (acc : N) (s : string) : N :=
  match s with
  | EmptyString => acc
  | String a s' => decimal (10 * acc + (Ascii.N_of_ascii a - 48)) s'
  end%N.
Definition demo_Sscanf (s : string) : option Z := Some (Z.of_N (decimal 0 s)).

Lemma decimal_pretty_go (x : N) : forall s, decimal 0 (pretty_N_go x s) = decimal x s.
Proof.
  induction (N.lt_wf_0 x) as [x _ IH]. intros s. destruct (decide (0 < x)%N) as [Hx|Hx].
  - rewrite pretty_N_go_step by done. rewrite IH by (apply N.div_lt; lia). cbn [decimal]. f_equal.
    assert (Ascii.N_of_ascii (pretty_N_char (x `mod` 10)) - 48 = x `mod` 10)%N as ->.
    { pose proof (N.mod_lt x 10 ltac:(lia)) as Hm. generalize dependent (x `mod` 10)%N. intros y Hy.
      assert (y = 0 \/ y = 1 \/ y = 2 \/ y = 3 \/ y = 4 \/ y = 5 \/ y = 6 \/ y = 7 \/ y = 8 \/ y = 9)%N as Hd by lia.
      decompose [or] Hd; subst; reflexivity. }
    symmetry. apply N.div_mod. lia.
  - assert (x = 0%N) as -> by lia. by rewrite pretty_N_go_0.
Qed.
Lemma demo_Sscanf_ok n : 0 <= n < two64 -> demo_Sscanf (pretty n) = Some n.
Proof.
  intros [Hn _]. unfold demo_Sscanf. f_equal. destruct n as [|p|p]; [done| |lia].
  change (pretty (Z.pos p)) with (pretty (N.pos p)). unfold pretty, pretty_N. rewrite decide_False by done.
  by rewrite decimal_pretty_go.
Qed.

Definition demo_version (seq : Z) (domains : list TrustDomainSpec) : SoulManifest :=
  {| APIVersion := APIVersionV1; Kind := KindManifest; meta := {| md_FabricID := "eu"; md_GeneratedAt := 5; md_Sequence := seq |};
     SigningKeys := [SoulKeeper.demo_key]; TrustDomains := domains; Revocations := noRevocations; SSFStreams := [];
     Peers := []; Audit := noAudit |}.
Definition demo_v7 : SoulManifest := demo_version 7 [demo_domain "a" "https://a"].
Definition demo_v8 : SoulManifest := demo_version 8 [demo_domain "a" "https://b"].
Definition demo_written : gmap string bytes :=
  fst (SoulKeeper.WriteManifest "/soul" SoulKeeper.demo_faults SoulKeeper.demo_marshal demo_v8
    (fst (SoulKeeper.WriteManifest "/soul" SoulKeeper.demo_faults SoulKeeper.demo_marshal demo_v7 ∅))).
Lemma demo_archived : archived "/soul" SoulKeeper.demo_faults SoulKeeper.demo_marshal "eu" [demo_v8; demo_v7] demo_written.
Proof.
  eapply archived_write; [eapply archived_write; [apply archived_nil|reflexivity|reflexivity]|reflexivity|reflexivity].
Qed.

Lemma archived_versions_compare_witness :
  runSoulDiff SoulKeeper.demo_unmarshal demo_Sscanf (fun _ => None) demo_written false "/soul" "eu" [pretty 7; pretty 8] =
  (0, Format (Diff (Some demo_v7) (Some demo_v8))).
Proof.
  apply (archived_versions_compare "/soul" SoulKeeper.demo_faults SoulKeeper.demo_marshal SoulKeeper.demo_unmarshal demo_Sscanf
    (fun _ => None) SoulKeeper.demo_yaml demo_Sscanf_ok "eu" [demo_v8; demo_v7] demo_written demo_v7 demo_v8 demo_archived);
    [|apply list_elem_of_further, list_elem_of_here|apply list_elem_of_here|repeat constructor; cbn; unfold two64; lia|done|done].
  apply NoDup_cons. split; [|apply NoDup_singleton]. by intros ?%list_elem_of_singleton.
Defined.

End SoulDocs.
